(* ===== verification/_CoqProject ===== *)
-Q . S2P
Prelude.v
Ids.v
Prefixes.v
Addresses.v
Constants.v
Entries.v
KBuckets.v
RoutingTables.v
KClosest.v
Candidates.v
Tokens.v
Values.v
Schedulers.v
RpcServer.v
Tasks.v
PingTasks.v
Texts.v
Crypto.v
Keys.v
PacketTypes.v
Frames.v
Json.v
TableFiles.v
Messages.v
Configurations.v
Printers.v
Loggers.v
Sizes.v
Transport.v
Sockets.v
Crawlers.v
Lookups.v
LookupEnds.v
Storage.v
Persistence.v
CrawlerFiles.v
Launchers.v
Addons.v
Shells.v
Dht.v
Network.v
ProxyConnections.v
ProxyRelay.v
ProxyLifetime.v
ActiveProxies.v
ProxyStart.v
Nodes.v
DhtOperations.v
