(* ===== verification/Prelude.v ===== *)
(** * Elastos Carrier Native: a verification library

    Elastos Carrier Native is a C++ implementation of a Kademlia-like
    distributed hash table: a node keeps a routing table of other nodes, finds
    the nodes, values and peers closest to a 256-bit id by asking others, stores
    values and peer announcements for others, and answers the same requests.  An
    addon, the active proxy, makes a local service reachable through a server of
    the network.  This library models the program (the code under [src/core],
    [src/addons], [include/carrier] and [apps]) as executable definitions and proves
    what makes it correct.

    ** The parts of the program and the files that model them

    Each file requires the files of the parts it calls; [_CoqProject] lists them in an
    order that respects this.

    - [Prelude]: the tactics ([bool_to_prop], [case_if] and the like), the hint
      database [carrier], wrap-around of machine integers, the correspondence of
      big-endian byte lists with numbers, and sorting and merging ([std::sort],
      [std::list::merge]) over the class [StrictWeakOrder], proved to sort and to
      permute.

    The key space and the routing table:

    - [Ids]: [Id] ([include/carrier/id.h], [src/core/id.cc]): comparison,
      distance, common bits, copying of bits, on the 32 bytes as in the source.
      A well-formed [Id] carries a proof-irrelevant proof that it has 32 bytes.
    - [Prefixes]: [Prefix] ([include/carrier/prefix.h], [src/core/prefix.cc]),
      the set of ids that start with given bits.
    - [Addresses]: [SocketAddress] ([src/core/utils/socket_address.cc]), the
      families and the classification of addresses (bogon, multicast, ...).
    - [Constants]: [src/core/constants.cc].
    - [Entries]: [NodeInfo] and [KBucketEntry], an entry of the routing table with
      its time stamps and failure counter.  A [std::shared_ptr] is an address
      with the contents of the object ([Sp]).
    - [KBuckets]: [KBucket], the at most eight entries of one prefix.
    - [RoutingTables]: [RoutingTable], the list of buckets: binary search,
      insertion with splitting, merging, maintenance with its ping tasks.
    - [KClosest]: [KClosestNodes], the closest known nodes to a target.
    - [TableFiles]: the file of the routing table ([load], [save], and the JSON form
      of an entry).

    Calls, tasks and lookups:

    - [Candidates]: [CandidateNode], [ClosestCandidates] and [ClosestSet], the
      state of a lookup.
    - [Tokens]: [TokenManager], the write tokens.
    - [Schedulers]: [Scheduler], the jobs and their timers.
    - [RpcServer]: [RPCCall] and the calls, timers and message handling of
      [RPCServer].
    - [Tasks]: [Task] and [TaskManager].  What a concrete task does is the class
      [TaskBehaviour]; the manager is proved against that class.
    - [PingTasks]: [PingRefreshTask], an instance of [TaskBehaviour].
    - [Lookups]: [LookupTask] with [NodeLookup], [ValueLookup] and [PeerLookup] and
      the announcements, instances of [TaskBehaviour]; [LookupEnds]: that lookups end.

    Data, texts, cryptography and messages:

    - [Values]: [Value] and [PeerInfo], over the class [Sodium] that states what
      is used of libsodium; the types [result] and [SM] of computations that throw
      and that also change a state.
    - [Texts]: Base58 and hexadecimal texts, and the text forms of [Id].
    - [Crypto]: key pairs, signatures, boxes, the context of two nodes and its cache,
      and what [Node] does with them.
    - [Keys]: the same keys as objects with copies, moves and destructors, and
      signatures and hashes made in steps.
    - [Json]: the values of nlohmann/json, and the class [Nlohmann].
    - [Messages]: every message with [serialize] and [parse].
    - [Sizes]: [estimateSize] of the messages.
    - [Printers]: the version stamp ([src/core/version.cc]) and [toString] of ids, nodes,
      peers, values, messages, prefixes, entries, buckets, tables, the DHT and the node.
      The server makes them for its log, and some of them can fail.
    - [Loggers]: [Logger] ([src/core/utils/log.cc]), the queue of [mtqueue.h] and
      [Random].
    - [Transport]: datagrams, from a message on one node to the server of another,
      and the queue of messages that could not be sent.
    - [Sockets]: the sockets of the server and its receiving thread.

    The node:

    - [Configurations]: addresses as texts, [std::any], [DefaultConfiguration] and its
      builder with the configuration file.
    - [Storage]: [SqliteStorage], the tables of values and peers.
    - [Persistence]: the schema of the database and its upgrade; the key and id files
      of the constructor of [Node].
    - [Dht]: [DHT::onMessage], its request handlers and [DHT::received], where
      the routing table, the tokens, the storage and the calls meet.
    - [Network]: the way of a datagram through the server to the handlers of the DHT,
      and of the response back to the lookup that asked.
    - [Nodes]: [Node], its start and stop and its operations with their futures.
    - [DhtOperations]: [DHT]'s bootstrap, regular work and operations with their
      chained tasks.

    The active proxy ([src/addons/activeproxy]):

    - [PacketTypes], [Frames]: the types of packets, and the reassembly of packets
      from reads of any size.
    - [ProxyConnections]: [ProxyConnection] with its libuv callbacks;
      [ProxyRelay] and [ProxyLifetime] have the theorems on what it sends and on its
      references.
    - [ActiveProxies]: [ActiveProxy] with its list of connections and regular checks;
      [ProxyStart]: its configuration, start and stop.

    The applications:

    - [Crawlers]: [apps/crawler]; [CrawlerFiles]: its storage file, the places of
      addresses and the end of its [main].
    - [Launchers]: the lock that keeps a second process out
      ([apps/common/application_lock.h]) and the start of [apps/launcher].
    - [Addons]: the loading of addons ([src/addons/addons.cc]) and [main] of
      [apps/launcher].
    - [Shells]: [apps/shell], its commands and the loop that reads them.

    A datagram goes from the receiving thread ([Sockets]) through decryption and
    parsing ([Transport], [Messages]) to [RPCServer.handlePacket], which matches a
    response with its call; [DHT.onMessage] lets the handler of the request read
    and write storage and tokens and send the answer, and [DHT.received] lets the
    routing table learn of the sender.  A lookup starts from [KClosestNodes] of the
    routing table, sends calls, and learns candidates from the answers; an
    announcement follows a lookup and uses the tokens it found.  The [TaskManager]
    limits how many of these run, and the futures of [Node] collect the answers of
    the DHTs of both address families.

    ** How code is translated

    Objects are records, operations are functions from the old state (and the
    clock, as [now]) to the new state.  [currentTimeMillis()] is always an
    argument.  Integers are [Z] with the wrap-around of their type written out
    where the code can reach it.  A function that throws returns an error of the
    type [result]; one that would read outside an array or through a null pointer
    returns [None] or the error [Undefined_behaviour]; the theorems say when.
    Where an exception leaves a state that was partly changed, the function is in
    the monad [SM], which keeps it.  Effects on the outside (messages sent,
    listeners called, system calls) are lists in the order in which they happen.
    Sharing of objects is modelled where it matters: entries, buckets and jobs have
    addresses, because the code compares and cancels through pointers; the manager's
    tasks, the connections of the proxy, keys and the shared objects of handlers live
    in stores; calls live in a table by transaction id.  Callbacks that other threads
    or the network can interleave are explicit events: [TaskRun] takes the
    concurrent wishes to update as the list [env], the receiving thread takes a list
    of turns, and [RoutingTables], [RpcServer], [Tasks], [Lookups], [Storage],
    [ProxyConnections], [ActiveProxies], [ProxyStart], [Nodes], [DhtOperations],
    [Crawlers] and [Launchers] have step relations over all events in any order.

    ** What the theorems show

    - Key space ([Ids], [Prefixes], [Texts]): the distance is the exclusive or of the
      numbers and [threeWayCompare] orders by it; a prefix is an interval, and
      splitting cuts it into two halves whose parent it is; Base58 is a one to one
      correspondence.
    - Routing table ([KBuckets], [RoutingTables], [PingTasks], [TableFiles]): in every
      reachable table the prefixes of the buckets tile the key space, no bucket has
      more than eight entries, each entry is in the bucket of its id, and no id,
      address or object occurs twice in a bucket; every operation ends.  [put] and
      [remove] change what they should and nothing else, merging leaves no mergeable
      neighbours, maintenance removes only what it should, ping tasks go through all
      their entries, and a saved table is loaded again, whatever the file holds.
    - Closest nodes ([KClosest]): [fill] returns the closest eligible entries of a
      run of buckets around the target, and the exact answer for the whole table
      when the bucket of the target suffices.
    - Tokens, calls and jobs: a token is accepted for at least five minutes; a call
      leaves the table exactly when its owner learns its final state, and an
      unanswered call times out; a run of the scheduler ends and runs each due job
      at most once.
    - Tasks and lookups: every listener is called exactly once when its task has
      ended, calls in flight are bounded, states only move forward; no node is asked
      more than three times, a node lookup ends whatever it is answered, an
      announcement reaches all its nodes.
    - Messages and transport: every message survives serialisation and parsing, what
      is parsed fits its types, and a message that one node sends is handled by the
      server of the other as the message of its sender.  A value that one node
      stores on another, and a peer that it announces there, is found by a third,
      through all the layers ([Network]).
      The texts for the log can be made of every message that the program makes,
      and not of every message that it gets: one datagram can end the receiving
      thread ([unsigned_value_ends_thread]).  The estimated size of a message is an
      upper bound of its encoded size.
    - Sockets: the sockets that were opened are closed, and the receiver gets exactly
      the datagrams that were read.
    - Texts and logging ([Printers], [Loggers]): texts identify ids, prefixes and
      versions; a configured level decides what is written; the queue is first in, first
      out; random numbers are below their bounds.
    - Cryptography: what a node encrypts for another the other decrypts, the cache of
      contexts cannot be observed, destroyed keys are wiped, and the parts of a
      stream do not matter.
    - Values, storage and persistence: signed and encrypted values and peers are valid
      and survive transmission; a value is replaced only under the checks on owner,
      sequence number and expected sequence number; only valid values are served;
      expiry is invisible to readers; a node keeps its identity.
    - DHT and node: only a node that answered our call from the address and with the
      id we asked enters the routing table; storage changes only on a verified token;
      the token of a lookup lets its holder store; handlers are called at most once, a
      bootstrap completes, and the future of an operation is set exactly once in a node
      that is never stopped.
    - Active proxy: however bytes are cut into reads, the packets of the stream are
      processed; data is relayed unchanged; a connection is deleted only when nothing
      refers to it, in the runs in which libuv starts every write to the server and no failed
      connection attempt is reported behind the closing; the number of connections is bounded; a configured proxy has a
      server and a service; a proxy that is told to stop while it runs stops.
    - Applications: the crawler lists and asks each node once and finishes, if it survives
      its reads outside of arrays; a lock file is locked by one process; the launcher
      deinitialises what it initialised and stops the node, when the configurations of the
      addons are maps; the shell asks the node to store and announce only what is valid, if the
      private key is one that libsodium made.

    Many theorems state behaviour that the code probably does not intend, at a
    concrete input or under the condition that leads to it.  Among them:
    [other_family_dereferences_null], [value_lookup_hangs],
    [announced_peer_replaces_own], [persistent_peer_loses_origin],
    [mergeBuckets_loses_effective], [fill_not_exact], [closestSet_drops_closest],
    [token_idle_accepted], [zero_txid_handled], [short_packet_hangs],
    [health_check_skips], [closing_while_connecting_frees_early],
    [failed_write_reopens], [crawl_overreads], [bad_logger_stops],
    [restart_never_answers], [optimistic_answers_twice], [no_partial_server],
    [exception_ends_thread], [failed_rebind_closes_twice], [invalid_ip4_hides_ip6],
    [long_ipv6_unprintable], [first_peer_only], [early_stop_is_lost],
    [empty_save_destroys], [conversion_leaves_key], [upgrade_keeps_peers_table],
    [upgrade_stuck], [lock_race], [unsigned_value_ends_thread], [enabled_is_level],
    [get_resets_level], [bad_addon_terminates], [second_signal],
    [crawler_never_succeeds], [stale_recipient], [bad_id_ends_shell],
    [update_missing_value] and [node_before_lock].

    ** Fuel

    Loops that are not structural take fuel, and for each a theorem shows that
    the fuel suffices, so that running out never explains a result:
    [RoutingTable._put] has 257 turns, one more than the greatest depth a bucket
    can be split to; [indexOf] and [fill] one turn more than the table has
    buckets; [mergeBuckets] three turns per bucket and two more, the measure that
    every turn lowers; the send loop of a lookup eleven turns, one more than
    [MAX_CONCURRENT_TASK_REQUESTS]; [dequeue] one turn more than there are queued
    tasks; [cancel] one level more than there are tasks younger than the one
    cancelled, since a nested task is younger than its parent; a run of the
    scheduler one turn more than there are timers that are due; [to_string] twenty
    digits, as many as a 64-bit number has.  The loops of [onRelayRead] and of the
    waiting messages can run for ever: theorems say when, and that they end
    otherwise.  The update loop of a task is structural on the list of concurrent
    wishes to update, and the receiving thread on its list of turns.

    ** Parameters

    Code outside the repository is a parameter with its documented behaviour as
    laws, and a stand-in shows that the laws can hold together: libsodium and
    utf8proc ([Sodium], whose laws on signatures and keys are for the private keys that
    libsodium makes of a seed, [secret_key]; [SodiumBox], [SodiumStream], [SodiumHex],
    [SodiumRandom]), nlohmann/json ([Nlohmann], and [CborSize] for the length of its
    encodings), libuv ([Uv], [UvRandom], and [UvHandles], which is what [uv_is_closing]
    means), the sockets ([Socket], [Kernel]), the resolver and the list of network interfaces
    ([NetDb]), the environment and files ([System], with the opening of the log file, and
    [Host]), the schema statements of SQLite ([SqliteDdl]), spdlog ([Spdlog]), the parser of CLI11 ([Cli]) and the geographic database ([GeoDb]).  Parts
    of the program that a component calls are classes too: [TaskBehaviour], [Receiver]
    (what the receiving thread calls), [Finder] (the lookups of the node that the proxy
    uses), [ShellNode] (the operations of the node that the shell calls) and [Addon].
    Without laws are SHA-256 of the tokens, the order of [ORDER BY RANDOM()], what a job does,
    whether [sendData] throws for a message of the server, and what the reads of
    [toBinaryString] outside of an id give.  The DHT of the other address family and the flag
    [CARRIER_DEVELOPMENT] are parameters of the parts that use them.

    ** What is not modelled

    What follows on undefined behaviour: a function that runs into it has no result, but for
    [ClosestSet.add], which reads an element that it has erased and is taken to read its
    value; mutexes and data races; an exception while the answer of a request handler is sent
    (the sender is not learned then); failures of SQLite but those of the schema statements; the
    CBOR bytes themselves; the formatting of log lines; the detailed texts of
    [MSG_PRINT_DETAIL]; Windows branches; the command lines of the applications, which
    CLI11 parses, and what prepares a process (daemons, core dumps, ignored signals).
    Test programs and bindings are left out. *)

From Stdlib Require Export ZArith Lia.
From Stdlib Require Import StrictProp.
From stdpp Require Export base tactics numbers list sorting gmap strings.

#[global] Set Default Goal Selector "!".
#[global] Open Scope Z_scope.

Declare Scope carrier_scope.
Delimit Scope carrier_scope with carrier.

(** ** Proof automation of the development *)

Create HintDb carrier discriminated.

(** Turn boolean comparisons of the code into propositions. *)
Ltac bool_to_prop :=
  repeat match goal with
  | H : (_ && _)%bool = true |- _ => apply andb_true_iff in H as [? ?]
  | H : (_ || _)%bool = false |- _ => apply orb_false_iff in H as [? ?]
  | H : (_ && _)%bool = false |- _ => apply andb_false_iff in H
  | H : (_ || _)%bool = true |- _ => apply orb_true_iff in H
  | H : negb _ = true |- _ => apply negb_true_iff in H
  | H : negb _ = false |- _ => apply negb_false_iff in H
  | H : (_ <? _) = true |- _ => apply Z.ltb_lt in H
  | H : (_ <? _) = false |- _ => apply Z.ltb_ge in H
  | H : (_ <=? _) = true |- _ => apply Z.leb_le in H
  | H : (_ <=? _) = false |- _ => apply Z.leb_gt in H
  | H : (_ =? _) = true |- _ => apply Z.eqb_eq in H
  | H : (_ =? _) = false |- _ => apply Z.eqb_neq in H
  | H : bool_decide _ = true |- _ => apply bool_decide_eq_true in H
  | H : bool_decide _ = false |- _ => apply bool_decide_eq_false in H
  end.

(** Case analysis on the first boolean test of the goal. *)
Ltac case_if :=
  match goal with
  | |- context [if ?b then _ else _] => destruct b eqn:?
  end.

Ltac crush := bool_to_prop; simplify_eq/=; try lia; eauto with carrier.

(** ** Proof-irrelevant truth, for the types whose C++ counterpart carries an
    invariant (a [std::array<uint8_t, 32>] has 32 elements, each a byte) *)

Definition STrue (b : bool) : SProp := if b then sUnit else sEmpty.

Definition strue_intro {b : bool} : b = true -> STrue b :=
  match b with
  | true => fun _ => stt
  | false => fun H => match H with eq_refl => stt end
  end.

Lemma strue_elim {b : bool} : STrue b -> b = true.
Proof. destruct b; [done|]. intros []. Qed.

(** ** Machine integers: the wrap-around of the C++ unsigned types and the
    two's complement reduction of the signed ones *)

Definition wrap (w z : Z) : Z := z mod 2 ^ w.
Definition swrap (w z : Z) : Z := (z + 2 ^ (w - 1)) mod 2 ^ w - 2 ^ (w - 1).

Abbreviation u8 := (wrap 8).
Abbreviation u16 := (wrap 16).
Abbreviation u32 := (wrap 32).
Abbreviation u64 := (wrap 64).
Abbreviation i32 := (swrap 32).
Abbreviation i64 := (swrap 64).

Lemma wrap_small (w z : Z) : 0 <= z < 2 ^ w -> wrap w z = z.
Proof. apply Z.mod_small. Qed.

Lemma wrap_bound (w z : Z) : 0 <= w -> 0 <= wrap w z < 2 ^ w.
Proof. intros. apply Z.mod_pos_bound. by apply Z.pow_pos_nonneg. Qed.

Lemma swrap_small (w z : Z) :
  0 < w -> - 2 ^ (w - 1) <= z < 2 ^ (w - 1) -> swrap w z = z.
Proof.
  intros Hw Hz. unfold swrap.
  assert (2 ^ w = 2 * 2 ^ (w - 1)).
  { rewrite <- Z.pow_succ_r by lia. f_equal. lia. }
  rewrite Z.mod_small; lia.
Qed.

Lemma swrap_bound (w z : Z) : 0 < w -> - 2 ^ (w - 1) <= swrap w z < 2 ^ (w - 1).
Proof.
  intros Hw. unfold swrap.
  assert (2 ^ w = 2 * 2 ^ (w - 1)).
  { rewrite <- Z.pow_succ_r by lia. f_equal. lia. }
  pose proof (Z.mod_pos_bound (z + 2 ^ (w - 1)) (2 ^ w)). lia.
Qed.

(** ** Byte strings in network order *)

Definition byteb (b : Z) : bool := (0 <=? b) && (b <? 256).
Definition is_byte (b : Z) : Prop := 0 <= b < 256.

Lemma byteb_spec (b : Z) : byteb b = true <-> is_byte b.
Proof. unfold byteb, is_byte. rewrite andb_true_iff, Z.leb_le, Z.ltb_lt. done. Qed.

Definition be_val (l : list Z) : Z := foldl (fun a b => a * 256 + b) 0 l.

Lemma be_val_acc (l : list Z) (a : Z) :
  foldl (fun a b => a * 256 + b) a l = a * 256 ^ Z.of_nat (length l) + be_val l.
Proof.
  unfold be_val. revert a. induction l as [|b l IH]; intros a; [simpl; lia|].
  rewrite length_cons, Nat2Z.inj_succ, Z.pow_succ_r by lia. cbn [foldl].
  rewrite (IH (a * 256 + b)), (IH (0 * 256 + b)). ring.
Qed.

Lemma be_val_cons (b : Z) (l : list Z) :
  be_val (b :: l) = b * 256 ^ Z.of_nat (length l) + be_val l.
Proof. unfold be_val at 1. cbn [foldl]. rewrite be_val_acc. done. Qed.

Lemma be_val_app (l k : list Z) :
  be_val (l ++ k) = be_val l * 256 ^ Z.of_nat (length k) + be_val k.
Proof. unfold be_val at 1. rewrite foldl_app. apply be_val_acc. Qed.

Lemma be_val_bound (l : list Z) :
  Forall is_byte l -> 0 <= be_val l < 256 ^ Z.of_nat (length l).
Proof.
  induction 1 as [|b l Hb Hl IH]; [done|].
  rewrite be_val_cons, length_cons, Nat2Z.inj_succ, Z.pow_succ_r by lia.
  unfold is_byte in Hb. nia.
Qed.

Lemma be_val_inj (l k : list Z) :
  length l = length k -> Forall is_byte l -> Forall is_byte k ->
  be_val l = be_val k -> l = k.
Proof.
  intros Hlen Hl. revert k Hlen.
  induction Hl as [|a l Ha Hl IH]; intros [|b k] Hlen Hk Hv; try done.
  injection Hlen as Hlen. apply Forall_cons in Hk as [Hb Hk].
  rewrite !be_val_cons, <- Hlen in Hv.
  pose proof (be_val_bound l Hl) as B1. pose proof (be_val_bound k Hk) as B2.
  rewrite <- Hlen in B2. unfold is_byte in *.
  assert (a = b) as -> by nia. f_equal. apply IH; [done..|lia].
Qed.

(** The order of two byte strings is the order of the first bytes that differ. *)
Lemma be_val_compare (p s1 s2 : list Z) (a b : Z) :
  Forall is_byte s1 -> Forall is_byte s2 -> length s1 = length s2 -> a <> b ->
  Z.compare (be_val (p ++ a :: s1)) (be_val (p ++ b :: s2)) = Z.compare a b.
Proof.
  intros H1 H2 Hlen Hne.
  rewrite !be_val_app, !be_val_cons, !length_cons, <- Hlen.
  pose proof (be_val_bound s1 H1). pose proof (be_val_bound s2 H2) as B2.
  rewrite <- Hlen in B2.
  destruct (Z.compare_spec a b); [done|..]; [apply Z.compare_lt_iff|apply Z.compare_gt_iff]; nia.
Qed.

(** Exclusive-or is computed byte by byte. *)
Lemma lxor_byte (a b : Z) : is_byte a -> is_byte b -> is_byte (Z.lxor a b).
Proof.
  unfold is_byte. intros Ha Hb.
  assert (0 <= Z.lxor a b) by (apply Z.lxor_nonneg; lia).
  split; [done|].
  destruct (Z.eq_dec (Z.lxor a b) 0) as [->|Hne]; [lia|].
  apply Z.log2_lt_pow2 with (b := 8); [lia|].
  pose proof (Z.log2_lxor a b ltac:(lia) ltac:(lia)) as Hl.
  assert (Hs : forall x, 0 <= x < 256 -> Z.log2 x < 8).
  { intros x Hx. destruct (Z.eq_dec x 0) as [->|]; [done|]. apply Z.log2_lt_pow2; lia. }
  pose proof (Hs a Ha). pose proof (Hs b Hb). lia.
Qed.

Lemma testbit_split (h l n i : Z) :
  0 <= n -> 0 <= l < 2 ^ n -> 0 <= i ->
  Z.testbit (h * 2 ^ n + l) i = if i <? n then Z.testbit l i else Z.testbit h (i - n).
Proof.
  intros Hn Hl Hi. destruct (Z.ltb_spec i n).
  - rewrite <- (Z.mod_pow2_bits_low _ n) by lia. f_equal.
    rewrite Z.add_comm, Z.mod_add by lia. by apply Z.mod_small.
  - replace i with ((i - n) + n) at 1 by lia.
    rewrite <- Z.div_pow2_bits by lia. f_equal.
    rewrite Z.add_comm, Z.div_add, Z.div_small by lia. done.
Qed.

Lemma lxor_bound (a b n : Z) : 0 <= n -> 0 <= a < 2 ^ n -> 0 <= b < 2 ^ n -> 0 <= Z.lxor a b < 2 ^ n.
Proof.
  intros Hn Ha Hb.
  assert (0 <= Z.lxor a b) by (apply Z.lxor_nonneg; lia). split; [done|].
  destruct (Z.eq_dec (Z.lxor a b) 0) as [->|Hne]; [lia|].
  apply Z.log2_lt_pow2; [lia|].
  pose proof (Z.log2_lxor a b ltac:(lia) ltac:(lia)) as Hl.
  assert (Hs : forall x, 0 <= x < 2 ^ n -> Z.log2 x < n \/ x = 0).
  { intros x Hx. destruct (Z.eq_dec x 0) as [->|]; [by right|left]. apply Z.log2_lt_pow2; lia. }
  destruct (Z.eq_dec n 0) as [->|].
  { exfalso. assert (a = 0) as -> by lia. assert (b = 0) as -> by lia. done. }
  destruct (Hs a Ha) as [?| ->], (Hs b Hb) as [?| ->]; simpl in *; try lia.
Qed.

Lemma lxor_split (h1 h2 l1 l2 n : Z) :
  0 <= n -> 0 <= l1 < 2 ^ n -> 0 <= l2 < 2 ^ n ->
  Z.lxor (h1 * 2 ^ n + l1) (h2 * 2 ^ n + l2) = Z.lxor h1 h2 * 2 ^ n + Z.lxor l1 l2.
Proof.
  intros Hn H1 H2. apply Z.bits_inj'. intros i Hi.
  rewrite Z.lxor_spec, !testbit_split by (try apply lxor_bound; lia).
  destruct (i <? n); by rewrite Z.lxor_spec.
Qed.

Lemma zip_lxor_bytes (l k : list Z) :
  Forall is_byte l -> Forall is_byte k -> Forall is_byte (zip_with Z.lxor l k).
Proof.
  intros Hl Hk. apply Forall_zip_with_fst with is_byte; [done|].
  apply (Forall_impl _ _ _ Hk). intros b Hb a Ha. by apply lxor_byte.
Qed.

Lemma be_val_lxor (l k : list Z) :
  length l = length k -> Forall is_byte l -> Forall is_byte k ->
  be_val (zip_with Z.lxor l k) = Z.lxor (be_val l) (be_val k).
Proof.
  intros Hlen Hl. revert k Hlen.
  induction Hl as [|a l Ha Hl IH]; intros [|b k] Hlen Hk; try done.
  injection Hlen as Hlen. apply Forall_cons in Hk as [Hb Hk]. simpl.
  rewrite !be_val_cons, length_zip_with_l_eq, IH, <- Hlen by done.
  replace (256 ^ Z.of_nat (length l)) with (2 ^ (8 * Z.of_nat (length l))) by (by rewrite Z.pow_mul_r by lia).
  assert (256 ^ Z.of_nat (length l) = 2 ^ (8 * Z.of_nat (length l))) as E by (by rewrite Z.pow_mul_r by lia).
  pose proof (be_val_bound l Hl) as B1. pose proof (be_val_bound k Hk) as B2.
  rewrite <- Hlen, E in B2. rewrite E in B1.
  symmetry. apply lxor_split; lia.
Qed.

(** The top bits of a byte string: dropping [8 * length k + j] low bits leaves
    the leading bytes and the top bits of the byte after them. *)
Lemma be_val_shift (p k : list Z) (b j : Z) :
  Forall is_byte k -> 0 <= j <= 8 ->
  be_val (p ++ b :: k) / 2 ^ (8 * Z.of_nat (length k) + j) = be_val p * 2 ^ (8 - j) + b / 2 ^ j.
Proof.
  intros Hk Hj. pose proof (be_val_bound k Hk) as B.
  assert (256 ^ Z.of_nat (length k) = 2 ^ (8 * Z.of_nat (length k))) as E by (by rewrite Z.pow_mul_r by lia).
  rewrite E in B.
  rewrite be_val_app, be_val_cons, length_cons, Nat2Z.inj_succ, Z.pow_succ_r, E by lia.
  assert (0 < 2 ^ (8 * Z.of_nat (length k))) by (apply Z.pow_pos_nonneg; lia).
  assert (0 < 2 ^ j) by (apply Z.pow_pos_nonneg; lia).
  rewrite Z.pow_add_r by lia. rewrite <- Z.div_div by lia.
  replace (be_val p * (256 * 2 ^ (8 * Z.of_nat (length k))) + (b * 2 ^ (8 * Z.of_nat (length k)) + be_val k))
    with (be_val k + (be_val p * 256 + b) * 2 ^ (8 * Z.of_nat (length k))) by lia.
  rewrite Z.div_add by lia. rewrite (Z.div_small (be_val k)) by lia. rewrite Z.add_0_l.
  assert (256 = 2 ^ (8 - j) * 2 ^ j) as E8
    by (rewrite <- Z.pow_add_r by lia; by replace (8 - j + j) with 8 by lia).
  replace (be_val p * 256 + b) with (b + be_val p * 2 ^ (8 - j) * 2 ^ j)
    by (rewrite <- Z.mul_assoc, <- E8; ring).
  rewrite Z.div_add by lia. lia.
Qed.

Lemma be_val_mod (p k : list Z) (b j : Z) :
  Forall is_byte k -> is_byte b -> 0 <= j <= 8 ->
  be_val (p ++ b :: k) mod 2 ^ (8 * Z.of_nat (length k) + j) = (b mod 2 ^ j) * 2 ^ (8 * Z.of_nat (length k)) + be_val k.
Proof.
  intros Hk Hb Hj.
  assert (0 < 2 ^ (8 * Z.of_nat (length k) + j)) by (apply Z.pow_pos_nonneg; lia).
  assert (0 < 2 ^ j) by (apply Z.pow_pos_nonneg; lia).
  rewrite Z.mod_eq by lia. rewrite be_val_shift by done.
  rewrite be_val_app, be_val_cons, length_cons, Nat2Z.inj_succ, Z.pow_succ_r by lia.
  assert (256 ^ Z.of_nat (length k) = 2 ^ (8 * Z.of_nat (length k))) as -> by (by rewrite Z.pow_mul_r by lia).
  rewrite Z.pow_add_r by lia.
  assert (2 ^ 8 = 2 ^ (8 - j) * 2 ^ j) as E8 by (rewrite <- Z.pow_add_r by lia; f_equal; lia).
  change (2 ^ 8) with 256 in E8. rewrite E8.
  rewrite (Z.mod_eq b) by lia. ring.
Qed.

(** ** Stable sorting: [std::list::sort] and [std::list::merge] with a strict
    weak ordering given as a boolean function *)

Class StrictWeakOrder {A} (ltb : A -> A -> bool) : Prop := {
  swo_asym x y : ltb x y = true -> ltb y x = false;
  swo_neg_trans x y z : ltb x y = false -> ltb y z = false -> ltb x z = false
}.

Definition ltb_key {A} (f : A -> Z) (x y : A) : bool := f x <? f y.

#[export] Instance ltb_key_swo {A} (f : A -> Z) : StrictWeakOrder (ltb_key f).
Proof. unfold ltb_key. split; intros; bool_to_prop; apply Z.ltb_ge; lia. Qed.

Section sorting.
Context {A : Type} (ltb : A -> A -> bool).

Fixpoint sort_insert (x : A) (l : list A) : list A :=
  match l with
  | [] => [x]
  | y :: l' => if ltb y x then y :: sort_insert x l' else x :: y :: l'
  end.

Definition sort_by (l : list A) : list A := foldr sort_insert [] l.

Fixpoint merge_by (l1 : list A) : list A -> list A :=
  fix go (l2 : list A) : list A :=
    match l1, l2 with
    | [], _ => l2
    | _, [] => l1
    | x :: l1', y :: l2' => if ltb y x then y :: go l2' else x :: merge_by l1' l2
    end.

(** [sorted_by l]: no element is below one in front of it. *)
Definition sorted_by (l : list A) : Prop := StronglySorted (fun x y => ltb y x = false) l.

Lemma sort_insert_perm x l : sort_insert x l ≡ₚ x :: l.
Proof.
  induction l as [|y l IH]; simpl; [done|].
  destruct (ltb y x); [|done]. rewrite IH. apply Permutation_swap.
Qed.

Lemma sort_by_perm l : sort_by l ≡ₚ l.
Proof. induction l as [|x l IH]; simpl; [done|]. by rewrite sort_insert_perm, IH. Qed.

Lemma merge_by_perm l1 l2 : merge_by l1 l2 ≡ₚ l1 ++ l2.
Proof.
  revert l2. induction l1 as [|x l1 IH1]; intros l2; [by destruct l2|].
  induction l2 as [|y l2 IH2]; [by rewrite app_nil_r|].
  simpl in *. destruct (ltb y x).
  - rewrite IH2, <- (Permutation_middle l1 l2 y). apply Permutation_swap.
  - by rewrite IH1.
Qed.

(** A list that is already sorted is left as it is. *)
Lemma sort_by_id l : sorted_by l -> sort_by l = l.
Proof.
  induction 1 as [|x l Hs IH Hx]; [done|]. simpl. rewrite IH.
  destruct l as [|y l]; [done|]. simpl.
  apply Forall_cons in Hx as [-> _]. done.
Qed.

Context `{!StrictWeakOrder ltb}.

Lemma sort_insert_sorted x l : sorted_by l -> sorted_by (sort_insert x l).
Proof.
  induction 1 as [|y l Hs IH Hy]; simpl; [by repeat constructor|].
  destruct (ltb y x) eqn:E.
  - constructor; [done|]. rewrite sort_insert_perm. constructor; [|done].
    by apply swo_asym.
  - constructor; [by constructor|]. constructor; [done|].
    apply (Forall_impl _ _ _ Hy). intros z Hz. by eapply swo_neg_trans.
Qed.

Lemma sort_by_sorted l : sorted_by (sort_by l).
Proof. induction l; simpl; [constructor|by apply sort_insert_sorted]. Qed.

Lemma merge_by_sorted l1 l2 : sorted_by l1 -> sorted_by l2 -> sorted_by (merge_by l1 l2).
Proof.
  intros H1. revert l2. induction H1 as [|x l1 H1 IH1 Hx]; intros l2 H2; [by destruct l2|].
  induction H2 as [|y l2 H2 IH2 Hy]; [by constructor|].
  simpl in *. destruct (ltb y x) eqn:E.
  - constructor; [done|].
    change (Forall (fun z => ltb z y = false) (merge_by (x :: l1) l2)).
    rewrite merge_by_perm. apply Forall_app. split; [|done].
    constructor; [by apply swo_asym|].
    apply (Forall_impl _ _ _ Hx). intros z Hz. eapply swo_neg_trans; [done|by apply swo_asym].
  - constructor; [apply IH1; by constructor|].
    rewrite merge_by_perm. apply Forall_app. split; [done|]. constructor; [done|].
    apply (Forall_impl _ _ _ Hy). intros z Hz. by eapply swo_neg_trans.
Qed.

Lemma sorted_by_filter P `{!forall x, Decision (P x)} l : sorted_by l -> sorted_by (filter P l).
Proof.
  induction 1 as [|x l Hs IH Hx]; [constructor|]. rewrite filter_cons. case_decide; [|done].
  constructor; [done|]. rewrite Forall_forall in *.
  intros y [_ Hy]%list_elem_of_filter. auto.
Qed.
End sorting.

#[export] Hint Resolve sort_by_sorted merge_by_sorted : carrier.

Lemma sort_by_ext {A} (f g : A -> A -> bool) (l : list A) :
  (forall x y, f x y = g x y) -> sort_by f l = sort_by g l.
Proof.
  intros H. induction l as [|x l IH]; [done|]. simpl. rewrite IH. clear IH.
  induction (sort_by g l) as [|y k IHk]; [done|]. simpl. rewrite H. destruct (g y x); [by f_equal|done].
Qed.

Lemma sorted_by_strict {A} (f : A -> Z) (l : list A) :
  StronglySorted (fun x y => f x < f y) l -> sorted_by (ltb_key f) l.
Proof.
  induction 1 as [|x l Hs IH Hx]; constructor; [done|]. apply (Forall_impl _ _ _ Hx).
  unfold ltb_key. intros y Hy. apply Z.ltb_ge. lia.
Qed.

(** Two sorted arrangements of the same elements agree when the key is
    injective on them. *)
Lemma sorted_key_unique {A} (f : A -> Z) (l k : list A) :
  (forall x y, x ∈ l -> y ∈ l -> f x = f y -> x = y) ->
  l ≡ₚ k -> sorted_by (ltb_key f) l -> sorted_by (ltb_key f) k -> l = k.
Proof.
  intros Hinj Hp Hl Hk.
  eapply StronglySorted_unique_strong; [|exact Hl|exact Hk|exact Hp].
  unfold ltb_key. intros x y Hx Hy ??. apply Hinj; [done|by rewrite Hp|lia].
Qed.

(** Filtering by a predicate that holds everywhere. *)
Lemma filter_id {A} (P : A -> Prop) `{!forall x, Decision (P x)} (l : list A) : Forall P l -> filter P l = l.
Proof. induction 1; [done|]. rewrite filter_cons_True by done. by f_equal. Qed.

Lemma filter_none {A} (P : A -> Prop) `{!forall x, Decision (P x)} (l : list A) :
  Forall (fun x => ~ P x) l -> filter P l = [].
Proof. induction 1; [done|]. by rewrite filter_cons_False. Qed.

(** A property of the integers below a bound, checked by evaluation. *)
Lemma sublist_StronglySorted {A} (R : A -> A -> Prop) (k l : list A) :
  k `sublist_of` l -> StronglySorted R l -> StronglySorted R k.
Proof.
  induction 1 as [|x k l Hs IH|x k l _ IH]; [done| |]; intros [H1 H2]%StronglySorted_inv; [|by apply IH].
  constructor; [by apply IH|]. rewrite Forall_forall in *. intros y Hy. by eapply H2, elem_of_sublist.
Qed.

Lemma forallb_below (f : Z -> bool) (n : Z) :
  forallb f (seqZ 0 n) = true -> forall x, 0 <= x < n -> f x = true.
Proof.
  intros H x Hx. rewrite forallb_forall in H. apply H, list_elem_of_In, elem_of_seqZ. lia.
Qed.

Lemma forallb_below2 (f : Z -> Z -> bool) (n m : Z) :
  forallb (fun x => forallb (f x) (seqZ 0 m)) (seqZ 0 n) = true ->
  forall x y, 0 <= x < n -> 0 <= y < m -> f x y = true.
Proof.
  intros H x y Hx Hy. eapply (forallb_below (f x)); [|exact Hy].
  exact (forallb_below (fun x => forallb (f x) (seqZ 0 m)) n H x Hx).
Qed.

(** Equality of two numbers given by their digits in a mixed base. *)
Lemma digits_eq (x y r s m : Z) :
  0 <= r < m -> 0 <= s < m -> x * m + r = y * m + s <-> x = y /\ r = s.
Proof. intros. split; [|by intros [-> ->]]. intros. assert (x = y) by nia. subst. lia. Qed.

Lemma mod_pow2_land (n k : Z) : 0 <= k -> Z.land n (Z.ones k) = n mod 2 ^ k.
Proof. apply Z.land_ones. Qed.
