(* ===== verification/Ids.v ===== *)
(** * Identifiers: [Id] of [include/carrier/id.h] and [src/core/id.cc]

    An [Id] is a [std::array<uint8_t, 32>] read as a big-endian 256-bit number
    ([id_val]).  The operations are translated on the bytes; their theorems say
    what they compute on the numbers: [distance] is exclusive-or,
    [threeWayCompare] compares distances to [this], [bitsEqual] compares the top
    bits and [bitsCopy] replaces them. *)

From Stdlib Require Import StrictProp.
From S2P Require Import Prelude.

Definition ID_BYTES : nat := 32.
Definition ID_BITS : Z := 256.

Definition id_okb (l : list Z) : bool := (length l =? ID_BYTES)%nat && forallb byteb l.

Record Id := MkId { bytes : list Z; bytes_ok : STrue (id_okb bytes) }.

Lemma id_okb_spec (l : list Z) : id_okb l = true <-> length l = 32%nat /\ Forall is_byte l.
Proof.
  unfold id_okb. rewrite andb_true_iff, Nat.eqb_eq, forallb_forall, Forall_forall.
  split; intros [? H]; (split; [done|]); intros x Hx.
  - apply byteb_spec, H. by apply list_elem_of_In.
  - apply byteb_spec, H. by apply list_elem_of_In.
Qed.

Lemma id_length (i : Id) : length (bytes i) = 32%nat.
Proof. by destruct (proj1 (id_okb_spec _) (strue_elim (bytes_ok i))). Qed.

Lemma id_bytes (i : Id) : Forall is_byte (bytes i).
Proof. by destruct (proj1 (id_okb_spec _) (strue_elim (bytes_ok i))). Qed.

#[export] Hint Resolve id_length id_bytes : carrier.

Lemma id_eq (i j : Id) : bytes i = bytes j -> i = j.
Proof. destruct i, j; simpl; intros ->. done. Qed.

#[export] Instance Id_eq_dec : EqDecision Id.
Proof.
  refine (fun i j => cast_if (decide (bytes i = bytes j))); [by apply id_eq|by intros ->].
Defined.

(** The array operations: [mk_id] builds an array from computed bytes (each is
    stored in a [uint8_t]; missing elements are zero-initialised). *)
Definition norm_bytes (l : list Z) : list Z := resize ID_BYTES 0 (u8 <$> l).

Lemma norm_bytes_ok (l : list Z) : id_okb (norm_bytes l) = true.
Proof.
  apply id_okb_spec. split; [apply length_resize|].
  apply Forall_resize; [unfold is_byte; lia|].
  apply Forall_fmap, Forall_true. intros z. apply (wrap_bound 8). lia.
Qed.

Definition mk_id (l : list Z) : Id := MkId (norm_bytes l) (strue_intro (norm_bytes_ok l)).

Lemma u8_bytes (l : list Z) : Forall is_byte l -> u8 <$> l = l.
Proof. induction 1 as [|b l Hb Hl IH]; [done|]. rewrite fmap_cons, IH. f_equal. by apply (wrap_small 8). Qed.

Lemma bytes_mk_id (l : list Z) : length l = 32%nat -> Forall is_byte l -> bytes (mk_id l) = l.
Proof.
  intros Hl Hb. simpl. unfold norm_bytes. rewrite u8_bytes by done. by apply resize_all_alt.
Qed.

(** ** Definitions *)

Definition id_val (i : Id) : Z := be_val (bytes i).

(** [bytes[i]]; the indices the code uses are below 32. *)
Definition byte_at (i : Id) (n : nat) : Z := nth n (bytes i) 0.

Definition zero : Id := mk_id [].
Definition MIN_ID : Id := zero.
Definition MAX_ID : Id := mk_id (replicate 32 255).

(** [Id::distance] *)
Definition distance (this to : Id) : Id := mk_id (zip_with Z.lxor (bytes this) (bytes to)).

(** The loop that looks for the first byte where two ids differ. *)
Fixpoint mismatch (l k : list Z) : option nat :=
  match l, k with
  | a :: l', b :: k' => if a =? b then S <$> mismatch l' k' else Some 0%nat
  | _, _ => None
  end.

(** [Id::threeWayCompare] *)
Definition threeWayCompare (this id1 id2 : Id) : Z :=
  match mismatch (bytes id1) (bytes id2) with
  | None => 0
  | Some mmi =>
      let a := u8 (Z.lxor (byte_at id1 mmi) (byte_at this mmi)) in
      let b := u8 (Z.lxor (byte_at id2 mmi) (byte_at this mmi)) in
      if a <? b then -1 else if b <? a then 1 else 0
  end.

(** [Id::compareTo]: the sign of [memcmp]. *)
Definition compareTo (this other : Id) : Z :=
  match mismatch (bytes this) (bytes other) with
  | None => 0
  | Some m => if byte_at this m <? byte_at other m then -1 else 1
  end.

(** [Id::operator<]: [std::lexicographical_compare]. *)
Fixpoint lexicographical_compare (l k : list Z) : bool :=
  match l, k with
  | _, [] => false
  | [], _ :: _ => true
  | a :: l', b :: k' => if a <? b then true else if b <? a then false else lexicographical_compare l' k'
  end.

Definition id_ltb (this other : Id) : bool := lexicographical_compare (bytes this) (bytes other).

(** [Id::bitsEqual] *)
Definition bitsEqual (id1 id2 : Id) (n : Z) : bool :=
  if n <? 0 then true
  else
    let mmi := mismatch (bytes id1) (bytes id2) in
    let indexToCheck := Z.to_nat (Z.shiftr n 3) in
    let diff := Z.lxor (byte_at id1 indexToCheck) (byte_at id2 indexToCheck) in
    let bitsDiff := Z.land diff (Z.shiftr 0xff80 (Z.land n 7)) =? 0 in
    match mmi with
    | Some m => if (m =? indexToCheck)%nat then bitsDiff else (indexToCheck <? m)%nat
    | None => true
    end.

(** [Id::bitsCopy], returning the new [dest]. *)
Definition bitsCopy (src dest : Id) (depth : Z) : Id :=
  if depth <? 0 then dest
  else
    let idx := Z.to_nat (Z.shiftr depth 3) in
    let copied := take idx (bytes src) ++ drop idx (bytes dest) in
    let mask := Z.shiftr 0xff80 (Z.land depth 7) in
    let d1 := u8 (Z.land (byte_at dest idx) (Z.lnot mask)) in
    let d2 := u8 (Z.lor d1 (Z.land (byte_at src idx) mask)) in
    mk_id (<[idx := d2]> copied).

(** The number of leading zero bytes, the loop of [Id::getLeadingZeros]. *)
Fixpoint leading_zero_bytes (l : list Z) : nat :=
  match l with
  | b :: l' => if b =? 0 then S (leading_zero_bytes l') else 0%nat
  | [] => 0%nat
  end.

Definition getLeadingZeros (this : Id) : Z :=
  let i := leading_zero_bytes (bytes this) in
  let msb := Z.shiftl (Z.of_nat i) 3 in
  if (i <? ID_BYTES)%nat then
    let b := byte_at this i in
    let '(n, b) := if 16 <=? b then (7 - 4, Z.shiftr b 4) else (7, b) in
    let '(n, b) := if 4 <=? b then (n - 2, Z.shiftr b 2) else (n, b) in
    msb + (n - Z.shiftr b 1)
  else msb.

(** [Id::toBinaryString], with [None] for a read outside the array: the code
    indexes with [i / 3]. *)
Fixpoint toBinaryString_loop (l : list Z) (i : Z) (fuel : nat) : option string :=
  match fuel with
  | O => Some EmptyString
  | S fuel =>
      b ← l !! Z.to_nat (i / 3);
      rest ← toBinaryString_loop l (i + 1) fuel;
      let bit := if Z.land b (Z.shiftr 0x80 (Z.land i 7)) =? 0 then "0"%string else "1"%string in
      let sep := if Z.land i 3 =? 3 then " "%string else ""%string in
      Some (bit +:+ sep +:+ rest)%string
  end.

Definition toBinaryString (this : Id) : option string := toBinaryString_loop (bytes this) 0 256.

(** ** The numbers behind the bytes *)

Lemma id_val_bound (i : Id) : 0 <= id_val i < 2 ^ 256.
Proof.
  pose proof (be_val_bound (bytes i) (id_bytes i)) as H. rewrite id_length in H.
  by replace (256 ^ Z.of_nat 32) with (2 ^ 256) in H by reflexivity.
Qed.

Lemma id_val_inj (i j : Id) : id_val i = id_val j -> i = j.
Proof.
  intros H. apply id_eq, be_val_inj; eauto with carrier. by rewrite !id_length.
Qed.

Lemma id_val_zero : id_val zero = 0.
Proof. reflexivity. Qed.

Lemma id_val_max : id_val MAX_ID = 2 ^ 256 - 1.
Proof. reflexivity. Qed.

(** The id of a number, and that every id is one. *)
Fixpoint be_bytes (n : nat) (v : Z) : list Z :=
  match n with
  | O => []
  | S n' => be_bytes n' (v / 256) ++ [v mod 256]
  end.

Lemma be_bytes_spec (n : nat) (v : Z) :
  length (be_bytes n v) = n /\ Forall is_byte (be_bytes n v) /\ be_val (be_bytes n v) = v mod 256 ^ Z.of_nat n.
Proof.
  revert v. induction n as [|n IH]; intros v; [by rewrite Z.mod_1_r|].
  destruct (IH (v / 256)) as (H1 & H2 & H3). simpl be_bytes.
  split; [rewrite length_app; simpl; lia|]. split.
  - apply Forall_app. split; [done|]. constructor; [|done]. by apply Z.mod_pos_bound.
  - rewrite be_val_app, H3, Nat2Z.inj_succ, Z.pow_succ_r by lia.
    change (length [v mod 256]) with 1%nat. change (be_val [v mod 256]) with (0 * 256 + v mod 256).
    rewrite Z.rem_mul_r; lia.
Qed.

Definition id_of_val (v : Z) : Id := mk_id (be_bytes 32 v).

Lemma id_val_of_val (v : Z) : 0 <= v < 2 ^ 256 -> id_val (id_of_val v) = v.
Proof.
  intros Hv. destruct (be_bytes_spec 32 v) as (H1 & H2 & H3).
  unfold id_val, id_of_val. rewrite bytes_mk_id by done. rewrite H3.
  apply Z.mod_small. by replace (256 ^ Z.of_nat 32) with (2 ^ 256) by reflexivity.
Qed.

Lemma id_of_val_id_val (i : Id) : id_of_val (id_val i) = i.
Proof. apply id_val_inj, id_val_of_val, id_val_bound. Qed.

Lemma lexicographical_compare_irrefl (l : list Z) : lexicographical_compare l l = false.
Proof. induction l as [|a l IH]; [done|]. simpl. by rewrite Z.ltb_irrefl. Qed.

Lemma mismatch_None (l k : list Z) : length l = length k -> mismatch l k = None -> l = k.
Proof.
  revert k. induction l as [|a l IH]; intros [|b k] Hl H; simpl in *; try done.
  destruct (Z.eqb_spec a b) as [->|]; [|done].
  apply fmap_None in H. f_equal. apply IH; [lia|done].
Qed.

Lemma mismatch_refl (l : list Z) : mismatch l l = None.
Proof. induction l as [|a l IH]; simpl; [done|]. by rewrite Z.eqb_refl, IH. Qed.

Lemma mismatch_Some (l k : list Z) (m : nat) :
  mismatch l k = Some m ->
  exists p a b s1 s2, l = p ++ a :: s1 /\ k = p ++ b :: s2 /\ length p = m /\ a <> b.
Proof.
  revert k m. induction l as [|a l IH]; intros [|b k] m H; simpl in *; try done.
  destruct (Z.eqb_spec a b) as [->|Hne].
  - apply fmap_Some in H as (m' & H & ->).
    destruct (IH _ _ H) as (p & a' & b' & s1 & s2 & -> & -> & <- & ?).
    by exists (b :: p), a', b', s1, s2.
  - injection H as <-. by exists [], a, b, l, k.
Qed.

(** Two different ids share a prefix and then differ in one byte. *)
Lemma id_mismatch (i j : Id) :
  match mismatch (bytes i) (bytes j) with
  | None => i = j
  | Some m => exists p a b s1 s2,
      bytes i = p ++ a :: s1 /\ bytes j = p ++ b :: s2 /\ length p = m /\ a <> b /\
      byte_at i m = a /\ byte_at j m = b /\
      length s1 = length s2 /\ Forall is_byte s1 /\ Forall is_byte s2 /\ is_byte a /\ is_byte b
  end.
Proof.
  destruct (mismatch (bytes i) (bytes j)) as [m|] eqn:E.
  - destruct (mismatch_Some _ _ _ E) as (p & a & b & s1 & s2 & H1 & H2 & H3 & H4).
    pose proof (id_length i) as L1. pose proof (id_length j) as L2.
    pose proof (id_bytes i) as B1. pose proof (id_bytes j) as B2.
    rewrite H1 in *. rewrite H2 in *. rewrite length_app in *. simpl in *.
    apply Forall_app in B1 as [_ [? ?]%Forall_cons]. apply Forall_app in B2 as [_ [? ?]%Forall_cons].
    exists p, a, b, s1, s2. unfold byte_at. rewrite H1, H2.
    subst m. rewrite !nth_middle. split_and!; try done; lia.
  - apply id_eq, mismatch_None; [by rewrite !id_length|done].
Qed.

Lemma bytes_distance (this to : Id) : bytes (distance this to) = zip_with Z.lxor (bytes this) (bytes to).
Proof.
  apply bytes_mk_id; [|apply zip_lxor_bytes; apply id_bytes].
  rewrite length_zip_with_l_eq; by rewrite ?id_length.
Qed.

Lemma distance_val (this to : Id) : id_val (distance this to) = Z.lxor (id_val this) (id_val to).
Proof.
  unfold id_val. rewrite bytes_distance.
  apply be_val_lxor; eauto with carrier. by rewrite !id_length.
Qed.

Lemma compareTo_val (i j : Id) : compareTo i j = Z.sgn (id_val i - id_val j).
Proof.
  unfold compareTo. pose proof (id_mismatch i j) as H.
  destruct (mismatch _ _) as [m|]; [|subst; by rewrite Z.sub_diag].
  destruct H as (p & a & b & s1 & s2 & H1 & H2 & _ & Hne & -> & -> & Hl & B1 & B2 & _).
  unfold id_val. rewrite H1, H2.
  pose proof (be_val_compare p s1 s2 a b B1 B2 Hl Hne) as Hc.
  destruct (Z.ltb_spec a b) as [Hlt|Hge].
  - rewrite (proj2 (Z.compare_lt_iff a b) Hlt) in Hc. rewrite Z.compare_lt_iff in Hc.
    symmetry. apply Z.sgn_neg. lia.
  - rewrite (proj2 (Z.compare_gt_iff a b)) in Hc by lia. rewrite Z.compare_gt_iff in Hc.
    symmetry. apply Z.sgn_pos. lia.
Qed.

Lemma mismatch_lxor (t l k : list Z) :
  length t = length l -> length l = length k ->
  mismatch (zip_with Z.lxor t l) (zip_with Z.lxor t k) = mismatch l k.
Proof.
  revert l k. induction t as [|c t IH]; intros [|a l] [|b k] H1 H2; simpl in *; try done.
  rewrite IH by lia. destruct (Z.eqb_spec a b) as [->|Hne]; [by rewrite Z.eqb_refl|].
  destruct (Z.eqb_spec (Z.lxor c a) (Z.lxor c b)) as [E|]; [|done].
  exfalso. apply Hne. apply (f_equal (Z.lxor c)) in E.
  by rewrite <- !Z.lxor_assoc, !Z.lxor_nilpotent, !Z.lxor_0_l in E.
Qed.

Lemma byte_at_distance (i j : Id) (m : nat) :
  byte_at (distance i j) m = Z.lxor (byte_at i m) (byte_at j m).
Proof.
  unfold byte_at. rewrite bytes_distance.
  pose proof (id_length i). pose proof (id_length j).
  destruct (decide (m < 32)%nat) as [Hm|Hm].
  - destruct (lookup_lt_is_Some_2 (bytes i) m) as [a Ha]; [lia|].
    destruct (lookup_lt_is_Some_2 (bytes j) m) as [b Hb]; [lia|].
    rewrite (nth_lookup_Some _ _ _ _ Ha), (nth_lookup_Some _ _ _ _ Hb).
    apply nth_lookup_Some. by rewrite lookup_zip_with, Ha, Hb.
  - rewrite !nth_overflow; [done|..]; rewrite ?length_zip_with_l_eq; lia.
Qed.

Lemma byte_at_byte (i : Id) (m : nat) : is_byte (byte_at i m).
Proof.
  unfold byte_at. destruct (decide (m < 32)%nat) as [Hm|Hm].
  - destruct (lookup_lt_is_Some_2 (bytes i) m) as [a Ha]; [by rewrite id_length|].
    rewrite (nth_lookup_Some _ _ _ _ Ha). by eapply Forall_lookup_1; [apply id_bytes|].
  - rewrite nth_overflow; [|rewrite id_length; lia]. by unfold is_byte.
Qed.

(** [threeWayCompare] orders two ids by their exclusive-or distance to [this]. *)
Lemma threeWayCompare_distance (t i j : Id) :
  threeWayCompare t i j = compareTo (distance t i) (distance t j).
Proof.
  unfold threeWayCompare, compareTo.
  rewrite !bytes_distance, mismatch_lxor by (by rewrite !id_length).
  pose proof (id_mismatch i j) as H. destruct (mismatch _ _) as [m|]; [|done].
  destruct H as (_ & a & b & _ & _ & _ & _ & _ & Hne & Ea & Eb & _ & _ & _ & Ha & Hb).
  rewrite !byte_at_distance, Ea, Eb, !(Z.lxor_comm (byte_at t m)).
  assert (Hx : forall c, is_byte c -> u8 (Z.lxor c (byte_at t m)) = Z.lxor c (byte_at t m)).
  { intros c Hc. apply (wrap_small 8), lxor_byte; [done|apply byte_at_byte]. }
  rewrite !Hx by done.
  destruct (Z.ltb_spec (Z.lxor a (byte_at t m)) (Z.lxor b (byte_at t m))); [done|].
  destruct (Z.ltb_spec (Z.lxor b (byte_at t m)) (Z.lxor a (byte_at t m))); [done|].
  exfalso. apply Hne. assert (Z.lxor a (byte_at t m) = Z.lxor b (byte_at t m)) as E by lia.
  apply (f_equal (fun x => Z.lxor x (byte_at t m))) in E.
  by rewrite !Z.lxor_assoc, !Z.lxor_nilpotent, !Z.lxor_0_r in E.
Qed.

Lemma threeWayCompare_val (t i j : Id) :
  threeWayCompare t i j = Z.sgn (Z.lxor (id_val t) (id_val i) - Z.lxor (id_val t) (id_val j)).
Proof. by rewrite threeWayCompare_distance, compareTo_val, !distance_val. Qed.

(** The distance as a number, and the comparison of two ids by their distance
    from a target. *)
Definition dist (t i : Id) : Z := Z.lxor (id_val t) (id_val i).

Lemma closer_key (t i j : Id) : (threeWayCompare t i j <? 0) = (dist t i <? dist t j).
Proof.
  rewrite threeWayCompare_val. fold (dist t i) (dist t j). pose proof (Z.sgn_spec (dist t i - dist t j)).
  destruct (Z.ltb_spec (dist t i) (dist t j)); [apply Z.ltb_lt|apply Z.ltb_ge]; lia.
Qed.

Lemma dist_inj (t i j : Id) : dist t i = dist t j -> i = j.
Proof.
  unfold dist. intros H. apply id_val_inj. apply (f_equal (Z.lxor (id_val t))) in H.
  by rewrite <- !Z.lxor_assoc, Z.lxor_nilpotent, !Z.lxor_0_l in H.
Qed.

Lemma lexicographical_compare_val (l k : list Z) :
  length l = length k -> Forall is_byte l -> Forall is_byte k ->
  lexicographical_compare l k = (be_val l <? be_val k).
Proof.
  intros Hlen Hl. revert k Hlen. induction Hl as [|a l Ha Hl IH]; intros [|b k] Hlen Hk; try done.
  injection Hlen as Hlen. apply Forall_cons in Hk as [Hb Hk]. simpl. rewrite IH by done.
  rewrite !be_val_cons, <- Hlen. pose proof (be_val_bound l Hl) as B1. pose proof (be_val_bound k Hk) as B2.
  rewrite <- Hlen in B2. set (m := 256 ^ Z.of_nat (length l)) in *.
  destruct (Z.ltb_spec a b); [symmetry; apply Z.ltb_lt; nia|].
  destruct (Z.ltb_spec b a); [symmetry; apply Z.ltb_ge; nia|]. assert (a = b) as -> by lia.
  destruct (Z.ltb_spec (be_val l) (be_val k)); symmetry; [apply Z.ltb_lt|apply Z.ltb_ge]; lia.
Qed.

Lemma id_ltb_val (i j : Id) : id_ltb i j = (id_val i <? id_val j).
Proof. apply lexicographical_compare_val; [by rewrite !id_length|apply id_bytes..]. Qed.

(** ** Prefixes of the bit string *)

Lemma id_split (i : Id) (m : nat) :
  (m < 32)%nat -> bytes i = take m (bytes i) ++ byte_at i m :: drop (S m) (bytes i).
Proof.
  intros Hm. destruct (lookup_lt_is_Some_2 (bytes i) m) as [a Ha]; [by rewrite id_length|].
  unfold byte_at. rewrite (nth_lookup_Some _ _ _ _ Ha). symmetry. by apply take_drop_middle.
Qed.

Lemma land_7 (n : Z) : Z.land n 7 = n mod 8.
Proof. apply (Z.land_ones n 3). lia. Qed.

Lemma shiftr_3 (n : Z) : Z.shiftr n 3 = n / 8.
Proof. by rewrite Z.shiftr_div_pow2 by lia. Qed.

(** The position of bit [n] of an id: byte [n / 8], bit [7 - n mod 8]. *)
Lemma bit_pos (n : Z) :
  0 <= n < 256 -> (Z.to_nat (n / 8) < 32)%nat /\ 0 <= 7 - n mod 8 <= 8 /\
  255 - n = 8 * Z.of_nat (31 - Z.to_nat (n / 8)) + (7 - n mod 8).
Proof.
  intros Hn. pose proof (Z.div_mod n 8). pose proof (Z.mod_pos_bound n 8). lia.
Qed.

Lemma id_val_top (i : Id) (n : Z) :
  0 <= n < 256 ->
  id_val i / 2 ^ (255 - n) =
    be_val (take (Z.to_nat (n / 8)) (bytes i)) * 2 ^ (n mod 8 + 1)
    + byte_at i (Z.to_nat (n / 8)) / 2 ^ (7 - n mod 8).
Proof.
  intros Hn. destruct (bit_pos n Hn) as (Hm & Hj & E).
  set (m := Z.to_nat (n / 8)) in *. set (j := 7 - n mod 8) in *.
  unfold id_val. rewrite (id_split i m Hm) at 1. rewrite E.
  replace (31 - m)%nat with (length (drop (S m) (bytes i))) by (rewrite length_drop, id_length; lia).
  rewrite be_val_shift; [|apply Forall_drop, id_bytes|lia].
  do 3 f_equal. subst j. lia.
Qed.

Lemma id_val_low (i : Id) (n : Z) :
  0 <= n < 256 ->
  id_val i mod 2 ^ (255 - n) =
    (byte_at i (Z.to_nat (n / 8)) mod 2 ^ (7 - n mod 8)) * 2 ^ (8 * Z.of_nat (31 - Z.to_nat (n / 8)))
    + be_val (drop (S (Z.to_nat (n / 8))) (bytes i)).
Proof.
  intros Hn. destruct (bit_pos n Hn) as (Hm & Hj & E).
  set (m := Z.to_nat (n / 8)) in *. set (j := 7 - n mod 8) in *.
  unfold id_val. rewrite (id_split i m Hm) at 1. rewrite E.
  replace (31 - m)%nat with (length (drop (S m) (bytes i))) by (rewrite length_drop, id_length; lia).
  apply be_val_mod; [apply Forall_drop, id_bytes|apply byte_at_byte|lia].
Qed.

Lemma byte_div_bound (b k : Z) : is_byte b -> 0 <= k < 8 -> 0 <= b / 2 ^ (7 - k) < 2 ^ (k + 1).
Proof.
  unfold is_byte. intros Hb Hk. split; [apply Z.div_pos; lia|].
  apply Z.div_lt_upper_bound; [lia|]. rewrite <- Z.pow_add_r by lia.
  replace (7 - k + (k + 1)) with 8 by lia. lia.
Qed.

Lemma top_eq (i j : Id) (n : Z) :
  0 <= n < 256 ->
  id_val i / 2 ^ (255 - n) = id_val j / 2 ^ (255 - n) <->
  take (Z.to_nat (n / 8)) (bytes i) = take (Z.to_nat (n / 8)) (bytes j) /\
  byte_at i (Z.to_nat (n / 8)) / 2 ^ (7 - n mod 8) = byte_at j (Z.to_nat (n / 8)) / 2 ^ (7 - n mod 8).
Proof.
  intros Hn. rewrite !id_val_top by done.
  pose proof (Z.mod_pos_bound n 8 ltac:(lia)).
  rewrite digits_eq by (apply byte_div_bound; [apply byte_at_byte|lia]).
  split; intros [H1 H2]; (split; [|done]); [|by rewrite H1].
  apply be_val_inj; [by rewrite !length_take, !id_length|apply Forall_take, id_bytes..|done].
Qed.

(** The mask of [bitsEqual] and [bitsCopy] keeps the top [k + 1] bits of a byte. *)
Lemma mask_zero (d k : Z) :
  is_byte d -> 0 <= k < 8 -> (Z.land d (Z.shiftr 0xff80 k) =? 0) = (d / 2 ^ (7 - k) =? 0).
Proof.
  intros Hd Hk. apply Bool.eqb_prop. revert d k Hd Hk.
  apply (forallb_below2 (fun d k => Bool.eqb (Z.land d (Z.shiftr 0xff80 k) =? 0) (d / 2 ^ (7 - k) =? 0))).
  vm_compute. reflexivity.
Qed.

Lemma mask_low (d k : Z) :
  is_byte d -> 0 <= k < 8 -> u8 (Z.land d (Z.lnot (Z.shiftr 0xff80 k))) = d mod 2 ^ (7 - k).
Proof.
  intros Hd Hk. apply Z.eqb_eq. revert d k Hd Hk.
  apply (forallb_below2 (fun d k => u8 (Z.land d (Z.lnot (Z.shiftr 0xff80 k))) =? d mod 2 ^ (7 - k))).
  vm_compute. reflexivity.
Qed.

Lemma mask_high (s k : Z) :
  is_byte s -> 0 <= k < 8 -> Z.land s (Z.shiftr 0xff80 k) = s / 2 ^ (7 - k) * 2 ^ (7 - k).
Proof.
  intros Hs Hk. apply Z.eqb_eq. revert s k Hs Hk.
  apply (forallb_below2 (fun s k => Z.land s (Z.shiftr 0xff80 k) =? s / 2 ^ (7 - k) * 2 ^ (7 - k))).
  vm_compute. reflexivity.
Qed.

Lemma mask_split (d s k : Z) :
  is_byte d -> is_byte s -> 0 <= k < 8 ->
  u8 (Z.lor (u8 (Z.land d (Z.lnot (Z.shiftr 0xff80 k)))) (Z.land s (Z.shiftr 0xff80 k)))
  = s / 2 ^ (7 - k) * 2 ^ (7 - k) + d mod 2 ^ (7 - k).
Proof.
  intros Hd Hs Hk. rewrite mask_low, mask_high by done.
  assert (0 < 2 ^ (7 - k)) by (apply Z.pow_pos_nonneg; lia).
  pose proof (Z.mod_pos_bound d (2 ^ (7 - k)) ltac:(lia)) as Hm.
  pose proof (byte_div_bound s k Hs Hk) as Hq.
  assert (Z.lor (d mod 2 ^ (7 - k)) (s / 2 ^ (7 - k) * 2 ^ (7 - k)) = s / 2 ^ (7 - k) * 2 ^ (7 - k) + d mod 2 ^ (7 - k)) as ->.
  { apply Z.bits_inj'. intros b Hb. rewrite Z.lor_spec, testbit_split by lia.
    rewrite <- (Z.add_0_r (_ * _)), (testbit_split _ 0) by lia. rewrite Z.bits_0.
    destruct (Z.ltb_spec b (7 - k)); [by rewrite orb_false_r|].
    replace (Z.testbit (d mod 2 ^ (7 - k)) b) with false; [done|].
    symmetry. by apply Z.mod_pow2_bits_high; lia. }
  assert (2 ^ (7 - k) * 2 ^ (k + 1) = 256) by (rewrite <- Z.pow_add_r by lia; by replace (7 - k + (k + 1)) with 8 by lia).
  apply (wrap_small 8). change (2 ^ 8) with 256. nia.
Qed.

Lemma lxor_div_eq (a b j : Z) : 0 <= j -> (Z.lxor a b / 2 ^ j =? 0) = (a / 2 ^ j =? b / 2 ^ j).
Proof.
  intros Hj. rewrite <- !Z.shiftr_div_pow2, Z.shiftr_lxor by done.
  destruct (Z.eqb_spec (Z.shiftr a j) (Z.shiftr b j)) as [->|Hne].
  - by rewrite Z.lxor_nilpotent.
  - apply Z.eqb_neq. by rewrite Z.lxor_eq_0_iff.
Qed.

(** [bitsEqual] compares the first [n + 1] bits. *)
Lemma bitsEqual_top (i j : Id) (n : Z) :
  0 <= n < 256 ->
  bitsEqual i j n = true <-> id_val i / 2 ^ (255 - n) = id_val j / 2 ^ (255 - n).
Proof.
  intros Hn. rewrite top_eq by done. unfold bitsEqual.
  destruct (Z.ltb_spec n 0); [lia|]. rewrite shiftr_3, land_7.
  pose proof (Z.mod_pos_bound n 8 ltac:(lia)).
  destruct (bit_pos n Hn) as (Hm & _ & _). set (m := Z.to_nat (n / 8)) in *.
  rewrite mask_zero, lxor_div_eq by (try apply lxor_byte; try apply byte_at_byte; lia).
  pose proof (id_mismatch i j) as Hmm. destruct (mismatch _ _) as [mmi|]; [|by subst].
  destruct Hmm as (p & a & b & s1 & s2 & H1 & H2 & Hl & Hne & Ea & Eb & _).
  destruct (Nat.eqb_spec mmi m) as [->|Hnm].
  - rewrite Z.eqb_eq, H1, H2, !take_app_length' by done. tauto.
  - destruct (Nat.ltb_spec m mmi) as [Hlt|Hge]; split; try done.
    + intros _. unfold byte_at.
      assert (forall k, (k <= mmi)%nat -> take k (bytes i) = take k (bytes j)) as Ht.
      { intros k Hk. by rewrite H1, H2, !take_app_le by lia. }
      split; [apply Ht; lia|].
      assert (nth m (bytes i) 0 = nth m (bytes j) 0) as ->; [|done].
      by rewrite H1, H2, !app_nth1 by lia.
    + intros [Ht _]. exfalso. apply Hne.
      assert (forall (c : Z) s, take m (p ++ c :: s) !! mmi = Some c) as Hk.
      { intros c s. rewrite lookup_take_lt by lia. rewrite lookup_app_r, Hl, Nat.sub_diag by lia. done. }
      rewrite H1, H2 in Ht. pose proof (Hk a s1) as K1. rewrite Ht, (Hk b s2) in K1. congruence.
Qed.

(** [bitsCopy] replaces the first [n + 1] bits of [dest] by those of [src]. *)
Lemma bytes_bitsCopy (src dest : Id) (n : Z) :
  0 <= n < 256 ->
  let m := Z.to_nat (n / 8) in
  bytes (bitsCopy src dest n) =
    take m (bytes src) ++
    (byte_at src m / 2 ^ (7 - n mod 8) * 2 ^ (7 - n mod 8) + byte_at dest m mod 2 ^ (7 - n mod 8))
    :: drop (S m) (bytes dest).
Proof.
  intros Hn m. unfold bitsCopy. destruct (Z.ltb_spec n 0); [lia|].
  rewrite shiftr_3, land_7. fold m. destruct (bit_pos n Hn) as (Hm & _ & _). fold m in Hm.
  pose proof (Z.mod_pos_bound n 8 ltac:(lia)).
  rewrite mask_split by (try apply byte_at_byte; lia). set (b := _ + _).
  assert (is_byte b) as Hb.
  { subst b. rewrite <- mask_split by (try apply byte_at_byte; lia). apply (wrap_bound 8). lia. }
  assert (<[m:=b]> (take m (bytes src) ++ drop m (bytes dest)) = take m (bytes src) ++ b :: drop (S m) (bytes dest)) as E.
  { rewrite (drop_S (bytes dest) (byte_at dest m)).
    - rewrite insert_app_r_alt by (rewrite length_take; lia).
      by rewrite length_take, id_length, Nat.min_l, Nat.sub_diag by lia.
    - destruct (lookup_lt_is_Some_2 (bytes dest) m) as [c Hc]; [by rewrite id_length|].
      unfold byte_at. by rewrite (nth_lookup_Some _ _ _ _ Hc). }
  rewrite E. apply bytes_mk_id.
  - rewrite length_app, length_take, length_cons, length_drop, !id_length. lia.
  - apply Forall_app. split; [apply Forall_take, id_bytes|]. constructor; [done|apply Forall_drop, id_bytes].
Qed.

Lemma bitsCopy_top (src dest : Id) (n : Z) :
  0 <= n < 256 -> id_val (bitsCopy src dest n) / 2 ^ (255 - n) = id_val src / 2 ^ (255 - n).
Proof.
  intros Hn. rewrite !id_val_top by done. pose proof (bytes_bitsCopy src dest n Hn) as E. simpl in E.
  destruct (bit_pos n Hn) as (Hm & Hj & _). set (m := Z.to_nat (n / 8)) in *.
  assert (0 < 2 ^ (7 - n mod 8)) by (apply Z.pow_pos_nonneg; lia).
  unfold byte_at at 1. rewrite E.
  assert (length (take m (bytes src)) = m) as L by (rewrite length_take, id_length; lia).
  rewrite take_app_length' by done. f_equal.
  rewrite app_nth2, L, Nat.sub_diag by lia. simpl nth.
  rewrite Z.add_comm, Z.div_add, Z.div_small by (try apply Z.mod_pos_bound; lia). lia.
Qed.

Lemma bitsCopy_low (src dest : Id) (n : Z) :
  0 <= n < 256 -> id_val (bitsCopy src dest n) mod 2 ^ (255 - n) = id_val dest mod 2 ^ (255 - n).
Proof.
  intros Hn. rewrite !id_val_low by done. pose proof (bytes_bitsCopy src dest n Hn) as E. simpl in E.
  destruct (bit_pos n Hn) as (Hm & Hj & _). set (m := Z.to_nat (n / 8)) in *.
  assert (0 < 2 ^ (7 - n mod 8)) by (apply Z.pow_pos_nonneg; lia).
  unfold byte_at at 1. rewrite E.
  assert (length (take m (bytes src)) = m) as L by (rewrite length_take, id_length; lia).
  f_equal.
  - f_equal. rewrite app_nth2, L, Nat.sub_diag by lia. simpl nth.
    rewrite Z.add_comm, Z.mod_add, Z.mod_mod by lia. done.
  - f_equal. rewrite <- Nat.add_1_r, <- drop_drop, drop_app_length' by done. simpl.
    by rewrite Nat.add_comm.
Qed.

Lemma bitsCopy_val (src dest : Id) (n : Z) :
  0 <= n < 256 ->
  id_val (bitsCopy src dest n) = id_val src / 2 ^ (255 - n) * 2 ^ (255 - n) + id_val dest mod 2 ^ (255 - n).
Proof.
  intros Hn. assert (0 < 2 ^ (255 - n)) by (apply Z.pow_pos_nonneg; lia).
  rewrite <- (bitsCopy_top src dest n), <- (bitsCopy_low src dest n) by done.
  rewrite Z.mul_comm. apply Z.div_mod. lia.
Qed.

(** ** Leading zeros *)

Lemma leading_zero_bytes_spec (l : list Z) :
  exists k, l = replicate (leading_zero_bytes l) 0 ++ k /\ (k = [] \/ exists b k', k = b :: k' /\ b <> 0).
Proof.
  induction l as [|b l (k & E & Hk)]; simpl; [exists []; by auto|].
  destruct (Z.eqb_spec b 0) as [->|Hb].
  - exists k. simpl. by rewrite <- E.
  - exists (b :: l). split; [done|]. right. by exists b, l.
Qed.

Lemma be_val_zeros (n : nat) (k : list Z) : be_val (replicate n 0 ++ k) = be_val k.
Proof.
  rewrite be_val_app. replace (be_val (replicate n 0)) with 0; [lia|].
  induction n as [|n IH]; [done|]. simpl replicate. rewrite be_val_cons. lia.
Qed.

Lemma leading_bits_of_byte (b : Z) :
  1 <= b < 256 ->
  (let '(n, b) := if 16 <=? b then (7 - 4, Z.shiftr b 4) else (7, b) in
   let '(n, b) := if 4 <=? b then (n - 2, Z.shiftr b 2) else (n, b) in n - Z.shiftr b 1) = 7 - Z.log2 b.
Proof.
  intros Hb. apply Z.eqb_eq.
  pose proof (forallb_below (fun b => (b =? 0) ||
    ((let '(n, b) := if 16 <=? b then (7 - 4, Z.shiftr b 4) else (7, b) in
      let '(n, b) := if 4 <=? b then (n - 2, Z.shiftr b 2) else (n, b) in n - Z.shiftr b 1) =? 7 - Z.log2 b)) 256
    ltac:(vm_compute; reflexivity) b ltac:(lia)) as H.
  cbv beta in H. destruct (Z.eqb_spec b 0); [lia|exact H].
Qed.

Lemma log2_top_byte (b : Z) (k : list Z) :
  1 <= b < 256 -> Forall is_byte k -> Z.log2 (be_val (b :: k)) = Z.log2 b + 8 * Z.of_nat (length k).
Proof.
  intros Hb Hk. rewrite be_val_cons. pose proof (be_val_bound k Hk) as B.
  assert (256 ^ Z.of_nat (length k) = 2 ^ (8 * Z.of_nat (length k))) as E by (by rewrite Z.pow_mul_r by lia).
  rewrite E in *. destruct (Z.log2_spec b) as [L1 L2]; [lia|]. pose proof (Z.log2_nonneg b).
  assert (0 < 2 ^ (8 * Z.of_nat (length k))) by (apply Z.pow_pos_nonneg; lia).
  apply Z.log2_unique; [lia|]. rewrite Z.pow_add_r, <- Z.add_succ_l, Z.pow_add_r by lia.
  split; nia.
Qed.

(** ** The claims *)

(** [Id::distance] is the exclusive-or metric of Kademlia on the 256-bit
    numbers: it is symmetric, zero exactly on equal ids, and
    [Id::threeWayCompare] returns the sign of the difference of the distances
    of its arguments to [this], so it orders ids by closeness. *)
Theorem distance_metric (t i j : Id) :
  id_val (distance t i) = Z.lxor (id_val t) (id_val i) /\
  distance t i = distance i t /\
  (id_val (distance t i) = 0 <-> t = i) /\
  threeWayCompare t i j = Z.sgn (id_val (distance t i) - id_val (distance t j)).
Proof.
  split_and!.
  - apply distance_val.
  - apply id_val_inj. by rewrite !distance_val, Z.lxor_comm.
  - rewrite distance_val, Z.lxor_eq_0_iff. split; [apply id_val_inj|by intros ->].
  - by rewrite threeWayCompare_val, !distance_val.
Qed.

(** [Id::bitsEqual] with a bit index in range holds exactly when the two
    numbers agree after dropping the bits behind that index, and [Id::bitsCopy]
    takes those leading bits from [src] and keeps the rest of [dest]. *)
Theorem bits_prefix (i j : Id) (n : Z) :
  0 <= n < 256 ->
  (bitsEqual i j n = true <-> id_val i / 2 ^ (255 - n) = id_val j / 2 ^ (255 - n)) /\
  id_val (bitsCopy i j n) = id_val i / 2 ^ (255 - n) * 2 ^ (255 - n) + id_val j mod 2 ^ (255 - n) /\
  bitsEqual i (bitsCopy i j n) n = true.
Proof.
  intros Hn. split_and!; [by apply bitsEqual_top|by apply bitsCopy_val|].
  apply bitsEqual_top; [done|]. by rewrite bitsCopy_top.
Qed.

Lemma bits_prefix_witness :
  (bitsEqual MAX_ID (bitsCopy MAX_ID zero 9) 9 = true) /\ id_val (bitsCopy MAX_ID zero 9) = 2 ^ 256 - 2 ^ 246.
Proof.
  destruct (bits_prefix MAX_ID zero 9 ltac:(lia)) as (_ & H1 & H2). split; [exact H2|].
  rewrite H1. vm_compute. reflexivity.
Defined.

(** [Id::getLeadingZeros] is the number of zero bits in front of the most
    significant one, and 256 for the zero id. *)
Theorem getLeadingZeros_log2 (i : Id) :
  getLeadingZeros i = if id_val i =? 0 then 256 else 255 - Z.log2 (id_val i).
Proof.
  destruct (leading_zero_bytes_spec (bytes i)) as (k & E & Hk).
  unfold getLeadingZeros, id_val. set (z := leading_zero_bytes (bytes i)) in *.
  assert (be_val (bytes i) = be_val k) as -> by (by rewrite E, be_val_zeros).
  pose proof (id_length i) as L. rewrite E, length_app, length_replicate in L.
  pose proof (id_bytes i) as B. rewrite E in B. apply Forall_app in B as [_ B].
  destruct Hk as [->|(b & k' & -> & Hb)]; simpl in L.
  - by replace z with 32%nat by lia.
  - apply Forall_cons in B as [Bb Bk]. unfold is_byte in Bb.
    assert (byte_at i z = b) as ->.
    { unfold byte_at. rewrite E, app_nth2, length_replicate, Nat.sub_diag by (rewrite length_replicate; lia). done. }
    destruct (Nat.ltb_spec z ID_BYTES) as [_|]; [|unfold ID_BYTES in *; lia].
    destruct (Z.eqb_spec (be_val (b :: k')) 0) as [E0|_].
    { rewrite be_val_cons in E0. pose proof (be_val_bound k' Bk).
      assert (0 < 256 ^ Z.of_nat (length k')) by (apply Z.pow_pos_nonneg; lia). nia. }
    rewrite log2_top_byte by (done || lia). rewrite Z.shiftl_mul_pow2 by lia.
    pose proof (leading_bits_of_byte b ltac:(lia)) as Hbits.
    repeat case_match; simplify_eq; lia.
Qed.

(** [Id::toBinaryString] always reads outside the 32-byte array: its loop
    indexes byte [i / 3] for bit [i], so bit 96 asks for byte 32. *)
Theorem toBinaryString_out_of_range (i : Id) : toBinaryString i = None.
Proof.
  unfold toBinaryString. pose proof (id_length i) as L.
  assert (forall fuel n, 0 <= n <= 96 -> 97 <= n + Z.of_nat fuel ->
    toBinaryString_loop (bytes i) n fuel = None) as H; [|by apply H; lia].
  induction fuel as [|fuel IH]; intros n Hn Hf; [lia|]. simpl.
  destruct (bytes i !! Z.to_nat (n / 3)) as [b|] eqn:E; simpl; [|done].
  apply lookup_lt_Some in E. rewrite L in E.
  rewrite IH; [done|..]; pose proof (Z.div_mod n 3); pose proof (Z.mod_pos_bound n 3); lia.
Qed.
