(* ===== verification/Prefixes.v ===== *)
(** * Prefixes: [Prefix] of [include/carrier/prefix.h] and [src/core/prefix.cc]

    A prefix is an id whose bits behind [depth] are zero; it stands for the ids
    that start with its first [depth + 1] bits.  [prefix_wf] is the invariant of
    the class and [isPrefixOf_interval] reads a prefix as an interval of numbers,
    which is how the routing table's theorems use it. *)

From S2P Require Import Prelude Ids.

Record Prefix := MkPrefix { p_id : Id; depth : Z }.

#[export] Instance Prefix_eq_dec : EqDecision Prefix.
Proof. solve_decision. Defined.

(** ** Definitions *)

(** [Prefix::Prefix()]: the whole key space. *)
Definition Prefix_all : Prefix := MkPrefix zero (-1).

(** [Prefix::Prefix(const Id&, int)] *)
Definition mkPrefix (id : Id) (d : Z) : Prefix := MkPrefix (bitsCopy id zero d) d.

(** [Prefix::Prefix(const Prefix&)] goes through the constructor above. *)
Definition Prefix_copy (p : Prefix) : Prefix := mkPrefix (p_id p) (depth p).

Definition isPrefixOf (this : Prefix) (id : Id) : bool := bitsEqual (p_id this) id (depth this).

Definition isSplittable (this : Prefix) : bool := depth this <? ID_BITS - 1.

Definition first (this : Prefix) : Id := p_id this.

Definition last (this : Prefix) : Id :=
  let p := mkPrefix MAX_ID (depth this) in
  let trailingBits := distance (p_id p) MAX_ID in
  distance (p_id this) trailingBits.

(** [getData()[i] = b] *)
Definition set_byte (id : Id) (i : nat) (b : Z) : Id := mk_id (<[i := u8 b]> (bytes id)).

(** [Prefix::setTail]: clear one bit. *)
Definition setTail (id : Id) (bit : Z) : Id :=
  let i := Z.to_nat (Z.shiftr bit 3) in
  set_byte id i (Z.land (byte_at id i) (Z.lnot (Z.shiftr 0x80 (Z.land bit 7)))).

Definition getParent (this : Prefix) : Prefix :=
  let parent := Prefix_copy this in
  if depth this =? -1 then parent
  else MkPrefix (setTail (p_id parent) (depth parent)) (depth parent - 1).

Definition splitBranch (this : Prefix) (highBranch : bool) : Prefix :=
  let branch := Prefix_copy this in
  let d := depth branch + 1 in
  let i := Z.to_nat (Z.quot d 8) in
  let bit := Z.shiftr 0x80 (Z.rem d 8) in
  let b := byte_at (p_id branch) i in
  MkPrefix (set_byte (p_id branch) i (if highBranch then Z.lor b bit else Z.land b (Z.lnot bit))) d.

Definition isSiblingOf (this other : Prefix) : bool :=
  (depth this =? depth other) && bitsEqual (p_id this) (p_id other) (depth this - 1).

(** [Prefix::createRandomId], for the id [Id::random()] returned. *)
Definition createRandomId (this : Prefix) (random : Id) : Id := bitsCopy (p_id this) random (depth this).

Definition prefix_equals (this p : Prefix) : bool :=
  if negb (depth this =? depth p) then false else compareTo (p_id this) (p_id p) =? 0.

(** ** The interval of a prefix *)

Definition pval (p : Prefix) : Z := id_val (p_id p).
Definition psize (p : Prefix) : Z := 2 ^ (255 - depth p).

Definition prefix_wf (p : Prefix) : Prop := -1 <= depth p <= 255 /\ pval p mod psize p = 0.

Definition covers (p : Prefix) (id : Id) : Prop := pval p <= id_val id < pval p + psize p.

Lemma psize_pos (p : Prefix) : prefix_wf p -> 0 < psize p.
Proof. intros [? _]. apply Z.pow_pos_nonneg; lia. Qed.

Lemma prefix_all_wf : prefix_wf Prefix_all.
Proof. split; [simpl; lia|reflexivity]. Qed.

(** A well-formed prefix is a multiple of its size, and so inside the key space. *)
Lemma prefix_range (p : Prefix) :
  prefix_wf p -> exists q, pval p = q * psize p /\ 0 <= q /\ pval p + psize p <= 2 ^ 256.
Proof.
  intros Hw. pose proof (psize_pos p Hw) as Hs. destruct Hw as [Hd Hm].
  exists (pval p / psize p). pose proof (id_val_bound (p_id p)) as B. fold (pval p) in B.
  pose proof (Z.div_mod (pval p) (psize p) ltac:(lia)) as E. rewrite Hm, Z.add_0_r in E.
  assert (0 <= pval p / psize p) by (apply Z.div_pos; lia).
  split_and!; [lia|done|].
  assert (2 ^ 256 = 2 ^ (depth p + 1) * psize p) as E2.
  { unfold psize. rewrite <- Z.pow_add_r by lia. f_equal. lia. }
  rewrite E2 in B |- *. nia.
Qed.

Lemma interval_div (q m v : Z) : 0 < m -> v / m = q <-> q * m <= v < q * m + m.
Proof.
  intros Hm. split.
  - intros <-. pose proof (Z.div_mod v m ltac:(lia)). pose proof (Z.mod_pos_bound v m Hm). nia.
  - intros H. symmetry. apply Z.div_unique with (v - q * m); lia.
Qed.

Lemma isPrefixOf_interval (p : Prefix) (id : Id) :
  prefix_wf p -> isPrefixOf p id = true <-> covers p id.
Proof.
  intros Hw. pose proof (psize_pos p Hw) as Hs.
  destruct (prefix_range p Hw) as (q & Hq & Hq0 & Hr). destruct Hw as [Hd _].
  unfold isPrefixOf, covers. pose proof (id_val_bound id).
  destruct (decide (depth p = -1)) as [E|].
  - unfold bitsEqual. rewrite E. simpl. unfold psize in *. rewrite E in *. simpl in *. nia.
  - rewrite bitsEqual_top by lia. fold (psize p). fold (pval p).
    rewrite Hq at 1. rewrite Z.div_mul by lia. rewrite Hq.
    rewrite <- (interval_div q (psize p) (id_val id)) by done. split; congruence.
Qed.

Lemma mkPrefix_val (id : Id) (d : Z) :
  -1 <= d <= 255 -> id_val (p_id (mkPrefix id d)) = id_val id / 2 ^ (255 - d) * 2 ^ (255 - d).
Proof.
  intros Hd. change (p_id (mkPrefix id d)) with (bitsCopy id zero d). destruct (decide (d = -1)) as [->|].
  - change (bitsCopy id zero (-1)) with zero. rewrite id_val_zero.
    rewrite Z.div_small; [done|apply id_val_bound].
  - rewrite bitsCopy_val by lia. rewrite id_val_zero.
    assert (0 < 2 ^ (255 - d)) by (apply Z.pow_pos_nonneg; lia). rewrite Z.mod_0_l; lia.
Qed.

Lemma mkPrefix_wf (id : Id) (d : Z) : -1 <= d <= 255 -> prefix_wf (mkPrefix id d).
Proof.
  intros Hd. split; [done|]. unfold pval. rewrite mkPrefix_val by done.
  unfold psize. simpl. rewrite Z.mod_mul; [done|]. apply Z.pow_nonzero; lia.
Qed.

(** Copying a well-formed prefix gives the same prefix. *)
Lemma Prefix_copy_id (p : Prefix) : prefix_wf p -> Prefix_copy p = p.
Proof.
  intros Hw. pose proof (psize_pos p Hw). destruct (prefix_range p Hw) as (q & Hq & _).
  destruct Hw as [Hd _]. destruct p as [i d]. unfold Prefix_copy. simpl in *.
  assert (p_id (mkPrefix i d) = i) as E; [|by unfold mkPrefix in *; simpl in *; rewrite E].
  apply id_val_inj. rewrite mkPrefix_val by done. unfold pval, psize in *. simpl in *.
  rewrite Hq, Z.div_mul by lia. done.
Qed.

(** Changing one byte changes the number by a multiple of the byte's weight. *)
Lemma id_val_set_byte (i : Id) (m : nat) (b : Z) :
  (m < 32)%nat -> is_byte b ->
  id_val (set_byte i m b) = id_val i + (b - byte_at i m) * 256 ^ Z.of_nat (31 - m).
Proof.
  intros Hm Hb. unfold set_byte. rewrite (wrap_small 8 b) by done.
  unfold id_val. rewrite bytes_mk_id; [|by rewrite length_insert, id_length|].
  - rewrite (id_split i m Hm) at 1 2.
    assert (length (take m (bytes i)) = m) as L by (rewrite length_take, id_length; lia).
    rewrite insert_app_r_alt by lia. rewrite L, Nat.sub_diag. simpl.
    rewrite !be_val_app, !be_val_cons, !length_cons.
    replace (length (drop (S m) (bytes i))) with (31 - m)%nat by (rewrite length_drop, id_length; lia). lia.
  - apply Forall_insert; [apply id_bytes|done].
Qed.

(** Bit [n] of an id, counted from the front. *)
Lemma bit_of_byte (i : Id) (n : Z) :
  0 <= n < 256 ->
  (id_val i / 2 ^ (255 - n)) mod 2 = (byte_at i (Z.to_nat (n / 8)) / 2 ^ (7 - n mod 8)) mod 2.
Proof.
  intros Hn. rewrite id_val_top by done. pose proof (Z.mod_pos_bound n 8 ltac:(lia)).
  rewrite Z.pow_add_r by lia. change (2 ^ 1) with 2.
  by rewrite Z.mul_assoc, Z.add_comm, Z.mod_add by lia.
Qed.

Lemma clear_bit_byte (b k : Z) :
  is_byte b -> 0 <= k < 8 ->
  Z.land b (Z.lnot (Z.shiftr 0x80 k)) = b - (b / 2 ^ (7 - k)) mod 2 * 2 ^ (7 - k).
Proof.
  intros Hb Hk. apply Z.eqb_eq. revert b k Hb Hk.
  apply (forallb_below2 (fun b k => Z.land b (Z.lnot (Z.shiftr 0x80 k)) =? b - (b / 2 ^ (7 - k)) mod 2 * 2 ^ (7 - k))).
  vm_compute. reflexivity.
Qed.

Lemma set_bit_byte (b k : Z) :
  is_byte b -> 0 <= k < 8 ->
  Z.lor b (Z.shiftr 0x80 k) = b + (1 - (b / 2 ^ (7 - k)) mod 2) * 2 ^ (7 - k).
Proof.
  intros Hb Hk. apply Z.eqb_eq. revert b k Hb Hk.
  apply (forallb_below2 (fun b k => Z.lor b (Z.shiftr 0x80 k) =? b + (1 - (b / 2 ^ (7 - k)) mod 2) * 2 ^ (7 - k))).
  vm_compute. reflexivity.
Qed.

Lemma bit_byte_range (b k : Z) :
  is_byte b -> 0 <= k < 8 ->
  is_byte (Z.land b (Z.lnot (Z.shiftr 0x80 k))) /\ is_byte (Z.lor b (Z.shiftr 0x80 k)).
Proof.
  intros Hb Hk. assert (byteb (Z.land b (Z.lnot (Z.shiftr 0x80 k))) && byteb (Z.lor b (Z.shiftr 0x80 k)) = true) as H.
  { revert b k Hb Hk.
    apply (forallb_below2 (fun b k => byteb (Z.land b (Z.lnot (Z.shiftr 0x80 k))) && byteb (Z.lor b (Z.shiftr 0x80 k)))).
    vm_compute. reflexivity. }
  apply andb_true_iff in H. by rewrite !byteb_spec in H.
Qed.

Lemma bit_weight (n : Z) :
  0 <= n < 256 -> 2 ^ (7 - n mod 8) * 256 ^ Z.of_nat (31 - Z.to_nat (n / 8)) = 2 ^ (255 - n).
Proof.
  intros Hn. destruct (bit_pos n Hn) as (_ & Hj & ->).
  replace (256 ^ Z.of_nat (31 - Z.to_nat (n / 8))) with (2 ^ (8 * Z.of_nat (31 - Z.to_nat (n / 8))))
    by (by rewrite Z.pow_mul_r by lia).
  pose proof (Z.mod_pos_bound n 8). rewrite <- Z.pow_add_r by lia. f_equal. lia.
Qed.

Lemma clear_bit_val (i : Id) (n : Z) :
  0 <= n < 256 ->
  let m := Z.to_nat (n / 8) in
  id_val (set_byte i m (Z.land (byte_at i m) (Z.lnot (Z.shiftr 0x80 (n mod 8)))))
  = id_val i - (id_val i / 2 ^ (255 - n)) mod 2 * 2 ^ (255 - n).
Proof.
  intros Hn m. destruct (bit_pos n Hn) as (Hm & _ & _). fold m in Hm.
  pose proof (Z.mod_pos_bound n 8 ltac:(lia)). pose proof (byte_at_byte i m).
  rewrite id_val_set_byte by (done || by apply bit_byte_range).
  rewrite clear_bit_byte, (bit_of_byte i n) by done. fold m.
  rewrite <- (bit_weight n) by done. fold m. ring.
Qed.

Lemma set_bit_val (i : Id) (n : Z) :
  0 <= n < 256 ->
  let m := Z.to_nat (n / 8) in
  id_val (set_byte i m (Z.lor (byte_at i m) (Z.shiftr 0x80 (n mod 8))))
  = id_val i + (1 - (id_val i / 2 ^ (255 - n)) mod 2) * 2 ^ (255 - n).
Proof.
  intros Hn m. destruct (bit_pos n Hn) as (Hm & _ & _). fold m in Hm.
  pose proof (Z.mod_pos_bound n 8 ltac:(lia)). pose proof (byte_at_byte i m).
  rewrite id_val_set_byte by (done || by apply bit_byte_range).
  rewrite set_bit_byte, (bit_of_byte i n) by done. fold m.
  rewrite <- (bit_weight n) by done. fold m. ring.
Qed.

(** ** Splitting and joining prefixes *)

Lemma psize_half (p : Prefix) : -1 <= depth p < 255 -> psize p = 2 * 2 ^ (255 - (depth p + 1)).
Proof. intros. unfold psize. rewrite <- Z.pow_succ_r by lia. f_equal. lia. Qed.

Lemma splitBranch_val (p : Prefix) (h : bool) :
  prefix_wf p -> depth p < 255 ->
  depth (splitBranch p h) = depth p + 1 /\
  pval (splitBranch p h) = pval p + (if h then psize p / 2 else 0) /\
  psize (splitBranch p h) = psize p / 2.
Proof.
  intros Hw Hd. destruct (prefix_range p Hw) as (q & Hq & _ & _). pose proof Hw as [Hd1 _].
  unfold splitBranch. rewrite Prefix_copy_id by done.
  rewrite psize_half in * by lia. set (s := 2 ^ (255 - (depth p + 1))) in *.
  assert (0 < s) by (apply Z.pow_pos_nonneg; lia).
  rewrite (Z.mul_comm 2), Z.div_mul by lia.
  rewrite Z.quot_div_nonneg, Z.rem_mod_nonneg by lia.
  assert ((pval p / s) mod 2 = 0) as Hbit.
  { replace (pval p) with (q * 2 * s) by lia. rewrite Z.div_mul by lia. apply Z.mod_mul. lia. }
  split_and!; [done| |done].
  unfold pval. simpl p_id. destruct h.
  - rewrite set_bit_val by lia. fold s. fold (pval p). rewrite Hbit. lia.
  - rewrite clear_bit_val by lia. fold s. fold (pval p). rewrite Hbit. lia.
Qed.

Lemma half_mod (q s : Z) (b : bool) : 0 < s -> (q * (2 * s) + (if b then s else 0)) mod s = 0.
Proof.
  intros. replace (q * (2 * s) + (if b then s else 0)) with ((q * 2 + if b then 1 else 0) * s) by (destruct b; lia).
  apply Z.mod_mul. lia.
Qed.

Lemma splitBranch_wf (p : Prefix) (h : bool) :
  prefix_wf p -> isSplittable p = true -> prefix_wf (splitBranch p h).
Proof.
  intros Hw Hs. unfold isSplittable, ID_BITS in Hs. bool_to_prop.
  destruct (splitBranch_val p h Hw ltac:(lia)) as (Ed & Ev & Es).
  destruct (prefix_range p Hw) as (q & Hq & _). pose proof Hw as [Hd _].
  split; [lia|]. rewrite Ev, Es, Hq. rewrite psize_half by lia.
  rewrite (Z.mul_comm 2), Z.div_mul by lia. rewrite Z.mul_comm with (m := 2).
  apply half_mod. apply Z.pow_pos_nonneg; lia.
Qed.

Lemma getParent_val (p : Prefix) :
  prefix_wf p -> 0 <= depth p ->
  depth (getParent p) = depth p - 1 /\
  psize (getParent p) = 2 * psize p /\
  pval (getParent p) = pval p - (pval p / psize p) mod 2 * psize p.
Proof.
  intros Hw Hd. unfold getParent. rewrite Prefix_copy_id by done.
  destruct (Z.eqb_spec (depth p) (-1)); [lia|]. pose proof Hw as [Hd1 _].
  split_and!; [done|unfold psize; simpl; rewrite <- Z.pow_succ_r by lia; f_equal; lia|].
  unfold pval at 1. simpl p_id. unfold setTail. rewrite shiftr_3, land_7.
  rewrite clear_bit_val by lia. done.
Qed.

Lemma getParent_wf (p : Prefix) : prefix_wf p -> prefix_wf (getParent p).
Proof.
  intros Hw. pose proof (psize_pos p Hw). destruct (decide (depth p = -1)) as [E|].
  - unfold getParent. rewrite E. simpl. by rewrite Prefix_copy_id.
  - pose proof Hw as [Hd _]. destruct (getParent_val p Hw ltac:(lia)) as (E1 & E2 & E3).
    destruct (prefix_range p Hw) as (q & Hq & _).
    split; [lia|]. rewrite E2, E3, Hq, Z.div_mul by lia.
    pose proof (Z.div_mod q 2 ltac:(lia)) as Eq.
    replace (q * psize p - q mod 2 * psize p) with (q / 2 * (2 * psize p)) by (rewrite Eq at 2; ring).
    apply Z.mod_mul. lia.
Qed.

Lemma prefix_ext (p q : Prefix) : depth p = depth q -> pval p = pval q -> p = q.
Proof. destruct p, q. unfold pval. simpl. intros -> H. apply id_val_inj in H. by subst. Qed.

Lemma getParent_split (p : Prefix) (h : bool) :
  prefix_wf p -> isSplittable p = true -> getParent (splitBranch p h) = p.
Proof.
  intros Hw Hs. pose proof (splitBranch_wf p h Hw Hs) as Hw'.
  unfold isSplittable, ID_BITS in Hs. bool_to_prop.
  destruct (splitBranch_val p h Hw ltac:(lia)) as (Ed & Ev & Es). pose proof Hw as [Hd _].
  destruct (getParent_val _ Hw' ltac:(lia)) as (E1 & E2 & E3).
  destruct (prefix_range p Hw) as (q & Hq & _).
  apply prefix_ext; [lia|]. rewrite E3, Ev, Es. rewrite Hq, psize_half by lia.
  set (s := 2 ^ (255 - (depth p + 1))). assert (0 < s) by (apply Z.pow_pos_nonneg; lia).
  rewrite (Z.mul_comm 2 s), Z.div_mul by lia.
  replace (q * (s * 2) + (if h then s else 0)) with ((q * 2 + if h then 1 else 0) * s) by (destruct h; lia).
  rewrite Z.div_mul by lia. rewrite (Z.add_comm (q * 2)), Z.mod_add by lia.
  destruct h; [change (1 mod 2) with 1|change (0 mod 2) with 0]; lia.
Qed.

(** A sibling with a larger value is the high branch of the same parent. *)
Lemma sibling_halves (p q : Prefix) :
  prefix_wf p -> prefix_wf q -> isSiblingOf p q = true -> pval p < pval q ->
  0 <= depth p /\ depth q = depth p /\ pval q = pval p + psize p /\
  pval (getParent p) = pval p /\ psize (getParent p) = 2 * psize p /\ depth (getParent p) = depth p - 1.
Proof.
  intros Wp Wq Hs Hlt. unfold isSiblingOf in Hs. bool_to_prop.
  destruct (prefix_range p Wp) as (a & Ha & Ha0 & _). destruct (prefix_range q Wq) as (b & Hb & Hb0 & _).
  pose proof (psize_pos p Wp) as Hp.
  assert (psize q = psize p) as Es by (unfold psize; congruence). rewrite Es in Hb.
  pose proof Wp as [Hd _].
  destruct (decide (depth p = -1)) as [E1|].
  { exfalso. pose proof (id_val_bound (p_id q)). unfold psize in *. rewrite E1 in *. unfold pval in *.
    change (2 ^ (255 - -1)) with (2 ^ 256) in *. nia. }
  destruct (getParent_val p Wp ltac:(lia)) as (G1 & G2 & G3).
  assert (a / 2 = b / 2) as Eh.
  { destruct (decide (depth p = 0)) as [E0|].
    - pose proof (id_val_bound (p_id q)). unfold pval, psize in *. rewrite E0 in *.
      change (2 ^ 256) with (2 * 2 ^ (255 - 0)) in *.
      assert (b < 2) by nia. assert (a < 2) by nia.
      by rewrite !Z.div_small by lia.
    - assert (0 <= depth p - 1 < 256) as Hr by lia.
      match goal with H : bitsEqual _ _ _ = true |- _ => apply (bitsEqual_top _ _ _ Hr) in H as Heq end.
      fold (pval p) in Heq. fold (pval q) in Heq. rewrite Ha, Hb in Heq.
      replace (2 ^ (255 - (depth p - 1))) with (psize p * 2) in Heq.
      + by rewrite <- !Z.div_div, !Z.div_mul in Heq by lia.
      + unfold psize. rewrite Z.mul_comm, <- Z.pow_succ_r by lia. f_equal. lia. }
  assert (a < b) by nia.
  pose proof (Z.div_mod a 2 ltac:(lia)). pose proof (Z.div_mod b 2 ltac:(lia)).
  pose proof (Z.mod_pos_bound a 2 ltac:(lia)). pose proof (Z.mod_pos_bound b 2 ltac:(lia)).
  assert (b = a + 1) by lia. assert (a mod 2 = 0) by lia.
  split_and!; [lia|done|rewrite Ha, Hb; nia| |done|done].
  rewrite G3, Ha, Z.div_mul by lia. lia.
Qed.

Lemma last_val (p : Prefix) : prefix_wf p -> id_val (last p) = pval p + psize p - 1.
Proof.
  intros Hw. pose proof (psize_pos p Hw) as Hs. destruct (prefix_range p Hw) as (q & Hq & Hq0 & _).
  pose proof Hw as [Hd _]. unfold last. rewrite !distance_val, mkPrefix_val, id_val_max by lia.
  fold (psize p). fold (pval p).
  assert (2 ^ 256 = 2 ^ (depth p + 1) * psize p) as E2.
  { unfold psize. rewrite <- Z.pow_add_r by lia. f_equal. lia. }
  rewrite E2. set (k := 2 ^ (depth p + 1)).
  replace (k * psize p - 1) with ((k - 1) * psize p + (psize p - 1)) by lia.
  replace (((k - 1) * psize p + (psize p - 1)) / psize p) with (k - 1)
    by (symmetry; apply (interval_div (k - 1)); lia).
  rewrite Hq.
  rewrite <- (Z.add_0_r ((k - 1) * psize p)) at 1. unfold psize in *.
  rewrite lxor_split by lia. rewrite Z.lxor_nilpotent, Z.lxor_0_l, Z.mul_0_l, Z.add_0_l.
  pose proof (lxor_split q 0 0 (2 ^ (255 - depth p) - 1) (255 - depth p) ltac:(lia) ltac:(lia) ltac:(lia)) as E.
  rewrite Z.add_0_r, Z.mul_0_l, Z.add_0_l, Z.lxor_0_r, Z.lxor_0_l in E. lia.
Qed.

(** An id of the prefix that is not in the low branch is in the high one. *)
Lemma branch_other (p : Prefix) (id : Id) :
  prefix_wf p -> isSplittable p = true -> covers p id -> isPrefixOf (splitBranch p false) id = false ->
  isPrefixOf (splitBranch p true) id = true.
Proof.
  intros Hw Hs Hc Hf. pose proof (splitBranch_wf p false Hw Hs) as W0. pose proof (splitBranch_wf p true Hw Hs) as W1.
  apply isPrefixOf_interval; [done|]. apply not_true_iff_false in Hf. rewrite isPrefixOf_interval in Hf by done.
  unfold isSplittable, ID_BITS in Hs. bool_to_prop.
  destruct (splitBranch_val p false Hw ltac:(lia)) as (_ & V0 & S0).
  destruct (splitBranch_val p true Hw ltac:(lia)) as (_ & V1 & S1).
  pose proof Hw as [Hd _]. unfold covers in *.
  assert (psize p = 2 * (psize p / 2)) as Ep by (rewrite psize_half, (Z.mul_comm 2), Z.div_mul; lia). lia.
Qed.

(** Ids under a prefix are closer to each other than to any id outside. *)
Lemma prefix_closer (p : Prefix) (t i j : Id) :
  prefix_wf p -> covers p t -> covers p i -> ~ covers p j -> dist t i < dist t j.
Proof.
  intros Hw Ht Hi Hj. pose proof (psize_pos p Hw) as Hs. destruct (prefix_range p Hw) as (q & Hq & _ & _).
  pose proof Hw as [Hd _]. unfold covers in *. rewrite Hq in *.
  apply (interval_div q (psize p)) in Ht, Hi; [|done..].
  assert (id_val j / psize p <> q) as Hj' by (by rewrite (interval_div q (psize p))).
  assert (forall x, dist t x / psize p = Z.lxor (id_val t / psize p) (id_val x / psize p)) as E.
  { intros x. unfold dist, psize. rewrite <- !Z.shiftr_div_pow2 by lia. apply Z.shiftr_lxor. }
  pose proof (E i) as Ei. pose proof (E j) as Ej. rewrite Ht, Hi, Z.lxor_nilpotent in Ei. rewrite Ht in Ej.
  apply (interval_div 0) in Ei; [|done].
  assert (0 <= dist t j) by (apply Z.lxor_nonneg; pose proof (id_val_bound t); pose proof (id_val_bound j); lia).
  assert (dist t j / psize p <> 0) as Hne by (rewrite Ej, Z.lxor_eq_0_iff; congruence).
  destruct (Z.lt_ge_cases (dist t j) (psize p)); [|lia]. destruct Hne. by apply Z.div_small.
Qed.

(** ** The claims *)

(** On a well-formed prefix [isPrefixOf] holds exactly for the ids between
    [first] and [last], and [createRandomId] draws an id from that range
    whatever [Id::random()] returned. *)
Theorem prefix_interval (p : Prefix) (id rnd : Id) :
  prefix_wf p ->
  (isPrefixOf p id = true <-> id_val (first p) <= id_val id <= id_val (last p)) /\
  isPrefixOf p (createRandomId p rnd) = true.
Proof.
  intros Hw. rewrite isPrefixOf_interval, last_val by done. unfold covers, first. fold (pval p).
  split; [lia|]. unfold isPrefixOf, createRandomId. destruct (Z.ltb_spec (depth p) 0).
  - unfold bitsEqual. by destruct (Z.ltb_spec (depth p) 0); [|lia].
  - pose proof Hw as [Hd _]. apply bitsEqual_top; [lia|]. by rewrite bitsCopy_top by lia.
Qed.

Lemma prefix_interval_witness :
  isPrefixOf (mkPrefix MAX_ID 3) (createRandomId (mkPrefix MAX_ID 3) zero) = true.
Proof. apply (prefix_interval (mkPrefix MAX_ID 3) zero zero). apply mkPrefix_wf. lia. Defined.

(** [splitBranch] cuts the ids of a splittable prefix in two: both branches
    are well formed, an id is in the prefix exactly when it is in one of them,
    never in both, and [getParent] of either branch is the prefix again. *)
Theorem splitBranch_partition (p : Prefix) (id : Id) :
  prefix_wf p -> isSplittable p = true ->
  prefix_wf (splitBranch p false) /\ prefix_wf (splitBranch p true) /\
  isPrefixOf p id = isPrefixOf (splitBranch p false) id || isPrefixOf (splitBranch p true) id /\
  isPrefixOf (splitBranch p false) id && isPrefixOf (splitBranch p true) id = false /\
  getParent (splitBranch p false) = p /\ getParent (splitBranch p true) = p.
Proof.
  intros Hw Hs. pose proof (splitBranch_wf p false Hw Hs) as W0. pose proof (splitBranch_wf p true Hw Hs) as W1.
  pose proof (getParent_split p false Hw Hs). pose proof (getParent_split p true Hw Hs).
  unfold isSplittable, ID_BITS in Hs. bool_to_prop.
  destruct (splitBranch_val p false Hw ltac:(lia)) as (_ & V0 & S0).
  destruct (splitBranch_val p true Hw ltac:(lia)) as (_ & V1 & S1).
  pose proof Hw as [Hd _].
  assert (psize p = 2 * (psize p / 2)) as Ep.
  { rewrite psize_half by lia. rewrite (Z.mul_comm 2), Z.div_mul; lia. }
  pose proof (isPrefixOf_interval p id Hw) as I. pose proof (isPrefixOf_interval _ id W0) as I0.
  pose proof (isPrefixOf_interval _ id W1) as I1. unfold covers in *.
  split_and!; try done;
    destruct (isPrefixOf p id), (isPrefixOf (splitBranch p false) id), (isPrefixOf (splitBranch p true) id);
    try done; exfalso;
    repeat match goal with H : true = true <-> _ |- _ => pose proof (proj1 H eq_refl); clear H end;
    repeat match goal with H : false = true <-> ?P |- _ => assert (~ P) by (intros ?%H; done); clear H end; lia.
Qed.

Lemma splitBranch_partition_witness :
  getParent (splitBranch (mkPrefix MAX_ID 7) true) = mkPrefix MAX_ID 7 /\
  isPrefixOf (splitBranch (mkPrefix MAX_ID 7) true) MAX_ID = true.
Proof.
  destruct (splitBranch_partition (mkPrefix MAX_ID 7) MAX_ID) as (_ & _ & _ & _ & _ & H);
    [apply mkPrefix_wf; lia|reflexivity|]. split; [exact H|vm_compute; reflexivity].
Defined.

(** Two different well-formed prefixes are siblings exactly when they are
    the two branches of one parent. *)
Theorem isSiblingOf_branches (p q : Prefix) :
  prefix_wf p -> prefix_wf q -> pval p < pval q ->
  (isSiblingOf p q = true <->
   0 <= depth p /\ p = splitBranch (getParent p) false /\ q = splitBranch (getParent p) true).
Proof.
  intros Wp Wq Hlt. split.
  - intros Hs. destruct (sibling_halves p q Wp Wq Hs Hlt) as (H0 & Hd & Hv & G1 & G2 & G3).
    pose proof (getParent_wf p Wp) as Wg. pose proof Wp as [Hp _].
    destruct (splitBranch_val (getParent p) false Wg ltac:(lia)) as (D0 & V0 & _).
    destruct (splitBranch_val (getParent p) true Wg ltac:(lia)) as (D1 & V1 & _).
    rewrite G2, (Z.mul_comm 2), Z.div_mul in V1 by lia.
    split_and!; [done|apply prefix_ext; lia..].
  - intros (H0 & Ep & Eq). pose proof (getParent_wf p Wp) as Wg. pose proof Wp as [Hp _].
    destruct (getParent_val p Wp H0) as (G1 & G2 & G3).
    assert (isSplittable (getParent p) = true) as Hs by (apply Z.ltb_lt; unfold ID_BITS; lia).
    assert (depth q = depth p) as Ed.
    { rewrite Eq. destruct (splitBranch_val (getParent p) true Wg ltac:(lia)) as (-> & _). lia. }
    unfold isSiblingOf. rewrite Ed, Z.eqb_refl. simpl.
    destruct (decide (depth p = 0)) as [->|]; [done|].
    apply bitsEqual_top; [lia|]. fold (pval p). fold (pval q).
    pose proof (getParent_split (getParent p) true Wg Hs) as Gq. rewrite <- Eq in Gq.
    destruct (getParent_val q Wq ltac:(lia)) as (K1 & K2 & K3).
    assert (Hd : forall r, prefix_wf r -> depth r = depth p -> pval r / 2 ^ (255 - (depth p - 1)) = pval (getParent r) / psize (getParent r)).
    { intros r Wr Er. destruct (getParent_val r Wr ltac:(lia)) as (M1 & M2 & M3).
      pose proof (psize_pos r Wr). destruct (prefix_range r Wr) as (c & Hc & _).
      replace (2 ^ (255 - (depth p - 1))) with (psize (getParent r)) by (unfold psize; f_equal; lia).
      rewrite M3, M2, Hc, Z.div_mul by lia. pose proof (Z.div_mod c 2 ltac:(lia)) as Ec.
      replace (c * psize r - c mod 2 * psize r) with (c / 2 * (2 * psize r)) by (rewrite Ec at 2; ring).
      rewrite Z.div_mul by lia. rewrite (Z.mul_comm 2), <- Z.div_div, Z.div_mul by lia. done. }
    rewrite !Hd by done. by rewrite Gq.
Qed.

Lemma isSiblingOf_branches_witness :
  mkPrefix MAX_ID 4 = splitBranch (getParent (splitBranch (mkPrefix MAX_ID 3) false)) true.
Proof.
  refine (proj2 (proj2 (proj1 (isSiblingOf_branches (splitBranch (mkPrefix MAX_ID 3) false) (mkPrefix MAX_ID 4) _ _ _) _))).
  - apply splitBranch_wf; [apply mkPrefix_wf; lia|reflexivity].
  - apply mkPrefix_wf. lia.
  - vm_compute. reflexivity.
  - vm_compute. reflexivity.
Defined.
