(* ===== verification/Addresses.v ===== *)
(** * Socket addresses: [SocketAddress] of [include/carrier/socket_address.h] and
    [src/core/utils/socket_address.cc]

    A [sockaddr_storage] holds an IPv4 address, an IPv6 address or neither.  The
    predicates that throw on an uninitialised address return [None] for it.  The
    byte layout of the structures ([raw]) is the one of 64-bit Linux. *)

From S2P Require Import Prelude Ids.

Inductive SocketAddress :=
  | SA_unspec
  | SA_in (sin_port : Z) (sin_addr : list Z)
  | SA_in6 (sin6_port sin6_flowinfo : Z) (sin6_addr : list Z) (sin6_scope_id : Z).

#[export] Instance SocketAddress_eq_dec : EqDecision SocketAddress.
Proof. solve_decision. Defined.

Definition AF_UNSPEC : Z := 0.
Definition AF_INET : Z := 2.
Definition AF_INET6 : Z := 10.

(** ** Definitions *)

Definition family (a : SocketAddress) : Z :=
  match a with SA_unspec => AF_UNSPEC | SA_in _ _ => AF_INET | SA_in6 _ _ _ _ => AF_INET6 end.

Definition sslen (f : Z) : Z := if f =? AF_INET then 16 else if f =? AF_INET6 then 28 else 0.

Definition sa_empty (a : SocketAddress) : bool := negb (family a =? AF_INET) && negb (family a =? AF_INET6).

(** [SocketAddress(const Blob&, in_port_t)]; [None] is the exception. *)
Definition SocketAddress_of_blob (ip : list Z) (p : Z) : option SocketAddress :=
  if (length ip =? 4)%nat then Some (SA_in p ip)
  else if (length ip =? 16)%nat then Some (SA_in6 p 0 ip 0)
  else None.

Definition port (a : SocketAddress) : Z :=
  match a with SA_unspec => 0 | SA_in p _ => p | SA_in6 p _ _ _ => p end.

Definition inaddr (a : SocketAddress) : list Z :=
  match a with SA_unspec => [] | SA_in _ ip => ip | SA_in6 _ _ ip _ => ip end.

Definition inaddrLength (a : SocketAddress) : nat :=
  match a with SA_unspec => 0 | SA_in _ _ => 4 | SA_in6 _ _ _ _ => 16 end%nat.

(** [operator==] compares the [sslen] bytes of the structures, that is all their fields. *)
Definition sa_eqb (a b : SocketAddress) : bool := bool_decide (a = b).

Definition le32 (v : Z) : list Z := [v mod 256; v / 256 mod 256; v / 65536 mod 256; v / 16777216 mod 256].

(** The bytes of the structure behind [addr()]: family, port in network order, ... *)
Definition raw (a : SocketAddress) : list Z :=
  match a with
  | SA_unspec => []
  | SA_in p ip => [2; 0; p / 256; p mod 256] ++ ip ++ replicate 8 0
  | SA_in6 p flow ip scope => [10; 0; p / 256; p mod 256] ++ le32 flow ++ ip ++ le32 scope
  end.

(** [operator!=] and [operator<]: [memcmp] over the bytes of the structures. *)
Definition sa_neqb (a b : SocketAddress) : bool := negb (family a =? family b) || negb (bool_decide (raw a = raw b)).

Definition sa_ltb (a b : SocketAddress) : bool :=
  if negb (family a =? family b) then family a <? family b else lexicographical_compare (raw a) (raw b).

Definition ip_byte (ip : list Z) (i : nat) : Z := nth i ip 0.

Definition isAnyLocal (a : SocketAddress) : option bool :=
  match a with
  | SA_in _ ip => Some (bool_decide (ip = replicate 4 0))
  | SA_in6 _ _ ip _ => Some (bool_decide (ip = replicate 16 0))
  | SA_unspec => None
  end.

Definition isLoopback (a : SocketAddress) : option bool :=
  match a with
  | SA_in _ ip => Some (ip_byte ip 0 =? 127)
  | SA_in6 _ _ ip _ => Some (bool_decide (ip = replicate 15 0 ++ [1]))
  | SA_unspec => None
  end.

Definition isSiteLocal (a : SocketAddress) : option bool :=
  match a with
  | SA_in _ ip =>
      let b1 := ip_byte ip 0 in
      let b2 := ip_byte ip 1 in
      Some (if b1 =? 10 then true
            else if (b1 =? 172) && (16 <=? b2) && (b2 <=? 31) then true
            else if (b1 =? 192) && (b2 =? 168) then true
            else false)
  | SA_in6 _ _ ip _ => Some ((ip_byte ip 0 =? 0xfc) || (ip_byte ip 0 =? 0xfd))
  | SA_unspec => None
  end.

Definition isBroadcast (a : SocketAddress) : bool :=
  match a with SA_in _ ip => bool_decide (ip = replicate 4 255) | _ => false end.

Definition isMulticast (a : SocketAddress) : option bool :=
  match a with
  | SA_in _ ip => Some (ip_byte ip 0 =? 0xe0)
  | SA_in6 _ _ ip _ => Some (ip_byte ip 0 =? 0xff)
  | SA_unspec => None
  end.

Definition isLinkLocal (a : SocketAddress) : option bool :=
  match a with
  | SA_in _ ip => Some ((ip_byte ip 0 =? 169) && (ip_byte ip 1 =? 254))
  | SA_in6 _ _ ip _ => Some ((ip_byte ip 0 =? 0xfe) && (ip_byte ip 1 =? 0x80))
  | SA_unspec => None
  end.

Definition MAPPED_IPV4_PREFIX : list Z := replicate 10 0 ++ [0xff; 0xff].

(** [std::equal] over the twelve bytes at [addr6()], the start of the structure. *)
Definition isMappedIPv4 (a : SocketAddress) : bool :=
  if negb (family a =? AF_INET6) then false
  else bool_decide (take 12 (raw a) = MAPPED_IPV4_PREFIX).

(** [||] of conditions that may throw. *)
Definition or_throw (x y : option bool) : option bool :=
  match x with Some true => Some true | Some false => y | None => None end.
Infix "||?" := or_throw (at level 50, left associativity) : carrier_scope.
Local Open Scope carrier_scope.

Definition isGlobalUnicast (a : SocketAddress) : option bool :=
  negb <$> (isAnyLocal a ||? isLinkLocal a ||? isLoopback a ||? isMulticast a ||? isSiteLocal a
            ||? Some (isMappedIPv4 a) ||? Some (isBroadcast a)).

Definition isAnyUnicast (a : SocketAddress) : option bool := isGlobalUnicast a ||? isSiteLocal a.

Definition isBogon (a : SocketAddress) : option bool :=
  if (0 <? port a) && (port a <=? 0xffff) then negb <$> isGlobalUnicast a else Some true.

Definition getMappedIPv4 (a : SocketAddress) : SocketAddress :=
  if negb (isMappedIPv4 a) then a
  else match a with
       | SA_in6 p _ ip _ => SA_in p (drop 12 ip)
       | _ => a
       end.

Definition getMappedIPv6 (a : SocketAddress) : SocketAddress :=
  match a with
  | SA_in p ip => SA_in6 p 0 (MAPPED_IPV4_PREFIX ++ ip) 0
  | _ => a
  end.

(** ** Well-formed addresses: the field widths of the structures *)

Definition address_wf (a : SocketAddress) : Prop :=
  0 <= port a < 65536 /\ Forall is_byte (inaddr a) /\ length (inaddr a) = inaddrLength a.

Lemma of_blob_wf (ip : list Z) (p : Z) (a : SocketAddress) :
  Forall is_byte ip -> 0 <= p < 65536 -> SocketAddress_of_blob ip p = Some a ->
  address_wf a /\ inaddr a = ip /\ port a = p.
Proof.
  unfold SocketAddress_of_blob, address_wf. intros Hb Hp.
  destruct (Nat.eqb_spec (length ip) 4); [intros [= <-]; by simpl|].
  destruct (Nat.eqb_spec (length ip) 16); [intros [= <-]; by simpl|done].
Qed.

Lemma or_throw_Some (x y : bool) : (Some x ||? Some y) = Some (x || y).
Proof. by destruct x. Qed.

(** The IPv4 blocks [isGlobalUnicast] excludes. *)
Definition v4_special (ip : list Z) : bool :=
  bool_decide (ip = replicate 4 0)
  || ((ip_byte ip 0 =? 169) && (ip_byte ip 1 =? 254))
  || (ip_byte ip 0 =? 127) || (ip_byte ip 0 =? 224)
  || ((ip_byte ip 0 =? 10) || ((ip_byte ip 0 =? 172) && (16 <=? ip_byte ip 1) && (ip_byte ip 1 <=? 31))
      || ((ip_byte ip 0 =? 192) && (ip_byte ip 1 =? 168)))
  || false || bool_decide (ip = replicate 4 255).

Lemma isBogon_in (p : Z) (ip : list Z) :
  0 <= p < 65536 -> isBogon (SA_in p ip) = Some (negb ((0 <? p) && negb (v4_special ip))).
Proof.
  intros Hp. unfold isBogon, isGlobalUnicast. simpl port. rewrite (proj2 (Z.leb_le p 0xffff)) by lia.
  rewrite andb_true_r. simpl isAnyLocal. simpl isLinkLocal. simpl isLoopback. simpl isMulticast.
  simpl isSiteLocal. simpl isBroadcast. unfold isMappedIPv4. simpl family. change (AF_INET =? AF_INET6) with false.
  simpl negb. rewrite !or_throw_Some. simpl fmap.
  destruct (0 <? p); [|done]. unfold v4_special. simpl. do 3 f_equal.
  destruct (ip_byte ip 0 =? 10); [by rewrite !orb_true_r|].
  destruct ((ip_byte ip 0 =? 172) && (16 <=? ip_byte ip 1) && (ip_byte ip 1 <=? 31)); [done|].
  by destruct ((ip_byte ip 0 =? 192) && (ip_byte ip 1 =? 168)).
Qed.

(** ** The claims *)

(** The IPv4 addresses [isBogon] lets into the routing table are those with
    a port and outside the unspecified, loopback, private (10/8, 172.16/12,
    192.168/16), link-local (169.254/16) and 224/8 blocks and not the broadcast
    address; an uninitialised address is a bogon and does not throw. *)
Theorem isBogon_v4 (p b1 b2 b3 b4 : Z) :
  0 <= p < 65536 ->
  isBogon SA_unspec = Some true /\
  (isBogon (SA_in p [b1; b2; b3; b4]) = Some false <->
   0 < p /\ [b1; b2; b3; b4] <> [0; 0; 0; 0] /\ [b1; b2; b3; b4] <> [255; 255; 255; 255] /\
   b1 <> 127 /\ b1 <> 10 /\ ~ (b1 = 172 /\ 16 <= b2 <= 31) /\ ~ (b1 = 192 /\ b2 = 168) /\
   ~ (b1 = 169 /\ b2 = 254) /\ b1 <> 224).
Proof.
  intros Hp. split; [done|].
  rewrite isBogon_in by done. unfold v4_special, ip_byte. simpl nth.
  rewrite (inj_iff Some), negb_false_iff, andb_true_iff, Z.ltb_lt, negb_true_iff, !orb_false_iff,
    !bool_decide_eq_false, !Z.eqb_neq, !andb_false_iff, !Z.eqb_neq, !Z.leb_gt by lia.
  simpl replicate. split; intros; destruct_and?; split_and!; try done; lia.
Qed.

Lemma isBogon_v4_witness :
  isBogon (SA_in 39001 [8; 8; 4; 4]) = Some false.
Proof. apply (isBogon_v4 39001 8 8 4 4); [lia|]. repeat split; (done || lia). Defined.

(** [isMappedIPv4] looks for the ::ffff:0:0/96 prefix at the start of the
    [sockaddr_in6], where the address family is, so it is false for every
    address; [getMappedIPv4] therefore never undoes [getMappedIPv6]. *)
Theorem isMappedIPv4_never (a : SocketAddress) :
  isMappedIPv4 a = false /\ getMappedIPv4 a = a /\
  (forall p ip, a = SA_in p ip -> getMappedIPv4 (getMappedIPv6 a) <> a).
Proof.
  assert (forall b, isMappedIPv4 b = false) as H.
  { intros [|p ip|p fl ip sc]; reflexivity. }
  unfold getMappedIPv4. rewrite !H. split_and!; [done..|].
  by intros p ip ->.
Qed.

(** ** The bytes of an address and its order *)

(** The fields of [sockaddr_in6] that are not the address. *)
Definition fields_wf (a : SocketAddress) : Prop :=
  match a with SA_in6 _ flow _ scope => 0 <= flow < 2 ^ 32 /\ 0 <= scope < 2 ^ 32 | _ => True end.

Lemma le32_bytes (v : Z) : Forall is_byte (le32 v).
Proof. unfold le32, is_byte. repeat constructor; apply Z.mod_pos_bound; lia. Qed.

Lemma le32_inj (v w : Z) : 0 <= v < 2 ^ 32 -> 0 <= w < 2 ^ 32 -> le32 v = le32 w -> v = w.
Proof. unfold le32. intros Hv Hw [= H1 H2 H3 H4].
  replace (v / 16777216) with (v / 65536 / 256) in H4 by (rewrite Z.div_div by lia; done). replace (w / 16777216) with (w / 65536 / 256) in H4 by (rewrite Z.div_div by lia; done).
  replace (v / 65536) with (v / 256 / 256) in * by (rewrite Z.div_div by lia; done). replace (w / 65536) with (w / 256 / 256) in * by (rewrite Z.div_div by lia; done).
  Z.to_euclidean_division_equations. lia.
Qed.

Lemma raw_bytes (a : SocketAddress) : address_wf a -> Forall is_byte (raw a) /\ Z.of_nat (length (raw a)) = sslen (family a).
Proof.
  intros (Hp & Hb & Hl). destruct a as [|p ip|p fl ip sc]; [by split|..]; simpl in Hp, Hb, Hl; cbn [raw family];
    (assert (forall f, is_byte f -> Forall is_byte [f; 0; p / 256; p mod 256]) as Hh
      by (intros f Hf; unfold is_byte in *; repeat constructor; try lia; Z.to_euclidean_division_equations; lia)).
  - split; [|rewrite !length_app, length_replicate, Hl; reflexivity]. rewrite !Forall_app. split_and!; [by apply Hh|done|by apply Forall_replicate].
  - split; [|rewrite !length_app, Hl; reflexivity]. rewrite !Forall_app. split_and!; [by apply Hh|apply le32_bytes|done|apply le32_bytes].
Qed.

Lemma raw_inj (a b : SocketAddress) : address_wf a -> address_wf b -> fields_wf a -> fields_wf b -> raw a = raw b -> a = b.
Proof.
  intros (Pa & _ & La) (Pb & _ & Lb) Fa Fb. destruct a as [|p ip|p fl ip sc], b as [|p' ip'|p' fl' ip' sc']; try done; simpl in Pa, Pb, La, Lb.
  - intros [= H1 H2 H3]. apply app_inj_1 in H3 as [-> _]; [|lia]. f_equal. Z.to_euclidean_division_equations. lia.
  - destruct Fa as [F1 F2], Fb as [F3 F4]. cbn [raw]. intros H. apply app_inj_1 in H as [Hp H]; [|done].
    injection Hp as H1 H2. apply app_inj_1 in H as [Hf H]; [|done]. apply app_inj_1 in H as [-> Hs]; [|lia].
    apply le32_inj in Hf as ->; [|done..]. apply le32_inj in Hs as ->; [|done..]. f_equal. Z.to_euclidean_division_equations. lia.
Qed.

Lemma sa_ltb_val (a b : SocketAddress) : address_wf a -> address_wf b ->
  sa_ltb a b = (family a <? family b) || ((family a =? family b) && (be_val (raw a) <? be_val (raw b))).
Proof.
  intros [Ha La]%raw_bytes [Hb Lb]%raw_bytes. unfold sa_ltb. destruct (Z.eqb_spec (family a) (family b)) as [E|E]; simpl.
  - rewrite E in *. rewrite Z.ltb_irrefl. simpl. apply lexicographical_compare_val; [lia|done..].
  - by rewrite orb_false_r.
Qed.

(** Addresses are ordered: the bytes that [operator==], [operator!=] and [operator<] compare determine the address, and
    [operator<] is a strict total order, as the containers of the standard library need it. *)
Theorem address_order (a b c : SocketAddress) :
  address_wf a -> address_wf b -> address_wf c -> fields_wf a -> fields_wf b ->
  sa_neqb a b = negb (sa_eqb a b) /\ sa_ltb a a = false /\
  (sa_ltb a b = true -> sa_ltb b c = true -> sa_ltb a c = true) /\
  (sa_eqb a b = false -> sa_ltb a b = negb (sa_ltb b a)).
Proof.
  intros Ha Hb Hc Fa Fb. unfold sa_neqb, sa_eqb. rewrite !sa_ltb_val by done. split; [|split; [|split]].
  - rewrite <- negb_andb. f_equal. apply eq_bool_prop_intro. rewrite andb_True, Is_true_true, Z.eqb_eq, !bool_decide_spec.
    split; [intros [_ E]; by apply raw_inj|by intros ->].
  - by rewrite !Z.ltb_irrefl, andb_false_r.
  - rewrite !orb_true_iff, !andb_true_iff, !Z.ltb_lt, !Z.eqb_eq. lia.
  - intros Hne%bool_decide_eq_false. assert (family a = family b -> be_val (raw a) <> be_val (raw b)) as H.
    { intros Ef E. apply Hne, raw_inj; try done. destruct (raw_bytes a Ha), (raw_bytes b Hb). apply be_val_inj; try done. rewrite Ef in *. lia. }
    destruct (Z.ltb_spec (family a) (family b)), (Z.eqb_spec (family a) (family b)), (Z.ltb_spec (family b) (family a)), (Z.eqb_spec (family b) (family a)),
      (Z.ltb_spec (be_val (raw a)) (be_val (raw b))), (Z.ltb_spec (be_val (raw b)) (be_val (raw a))); simpl; try done; lia.
Qed.
