(* ===== verification/Constants.v ===== *)
(** * The constants of [src/core/constants.cc] *)

From S2P Require Import Prelude.

Module Constants.
Definition DEFAULT_DHT_PORT : Z := 39001.
Definition RPC_SERVER_REACHABILITY_TIMEOUT : Z := 60 * 1000.
Definition MAX_ACTIVE_CALLS : Z := 256.
Definition RPC_CALL_TIMEOUT_MAX : Z := 10 * 1000.
Definition RPC_CALL_TIMEOUT_BASELINE_MIN : Z := 100.
Definition RECEIVE_BUFFER_SIZE : Z := 5 * 1024.
Definition MAX_CONCURRENT_TASK_REQUESTS : nat := 10.
Definition MAX_ACTIVE_TASKS : nat := 16.
Definition DHT_UPDATE_INTERVAL : Z := 1000.
Definition BOOTSTRAP_MIN_INTERVAL : Z := 4 * 60 * 1000.
Definition BOOTSTRAP_IF_LESS_THAN_X_PEERS : Z := 30.
Definition SELF_LOOKUP_INTERVAL : Z := 30 * 60 * 1000.
Definition RANDOM_LOOKUP_INTERVAL : Z := 10 * 60 * 1000.
Definition RANDOM_PING_INTERVAL : Z := 10 * 1000.
Definition ROUTING_TABLE_PERSIST_INTERVAL : Z := 10 * 60 * 1000.
Definition MAX_ENTRIES_PER_BUCKET : nat := 8.
Definition BUCKET_REFRESH_INTERVAL : Z := 15 * 60 * 1000.
Definition ROUTING_TABLE_MAINTENANCE_INTERVAL : Z := 4 * 60 * 1000.
Definition KBUCKET_MAX_TIMEOUTS : Z := 5.
Definition KBUCKET_OLD_AND_STALE_TIMEOUTS : Z := 2.
Definition KBUCKET_OLD_AND_STALE_TIME : Z := 15 * 60 * 1000.
Definition KBUCKET_PING_BACKOFF_BASE_INTERVAL : Z := 60 * 1000.
Definition BUCKET_CACHE_PING_MIN_INTERVAL : Z := 30 * 1000.
Definition STORAGE_EXPIRE_INTERVAL : Z := 5 * 60 * 1000.
Definition TOKEN_TIMEOUT : Z := 5 * 60 * 1000.
Definition MAX_PEER_AGE : Z := 120 * 60 * 1000.
Definition MAX_VALUE_AGE : Z := 120 * 60 * 1000.
Definition RE_ANNOUNCE_INTERVAL : Z := 5 * 60 * 1000.
Definition NODE_NAME : string := "Meerkat".
Definition NODE_SHORT_NAME : string := "MK".
Definition NODE_VERSION : Z := 1.
End Constants.
