(* ===== verification/Entries.v ===== *)
(** * Routing table entries: [NodeInfo] of [include/carrier/node_info.h] and
    [KBucketEntry] of [src/core/kbucket_entry.h] and [src/core/kbucket_entry.cc]

    Time stamps are [uint64_t] milliseconds; [currentTimeMillis()] is the
    argument [now] of the operations that read the clock.  A
    [std::shared_ptr<T>] is modelled by [Sp T], the address of an object with
    its contents: two of them are the same object when the addresses agree. *)

From S2P Require Import Prelude Constants Ids Addresses.

Record Sp (A : Type) := MkSp { ptr : positive; obj : A }.
Arguments MkSp {A} _ _.
Arguments ptr {A} _.
Arguments obj {A} _.

Definition sp_map {A B} (f : A -> B) (s : Sp A) : Sp B := MkSp (ptr s) (f (obj s)).

Record NodeInfo := MkNodeInfo { nodeId : Id; sockaddr : SocketAddress; version : Z }.

Record KBucketEntry := MkEntry {
  node : NodeInfo;
  created : Z;
  lastSeen : Z;
  lastSend : Z;
  reachable : bool;
  failedRequests : Z
}.

#[export] Instance NodeInfo_eq_dec : EqDecision NodeInfo.
Proof. solve_decision. Defined.
#[export] Instance KBucketEntry_eq_dec : EqDecision KBucketEntry.
Proof. solve_decision. Defined.
#[export] Instance Sp_eq_dec {A} `{!EqDecision A} : EqDecision (Sp A).
Proof. solve_decision. Defined.

(** ** [NodeInfo] *)

Definition ni_matches (this other : NodeInfo) : bool :=
  bool_decide (nodeId this = nodeId other) || sa_eqb (sockaddr this) (sockaddr other).

Definition ni_equals (this other : NodeInfo) : bool :=
  bool_decide (nodeId this = nodeId other) && sa_eqb (sockaddr this) (sockaddr other).

(** The copy constructor of [NodeInfo] does not copy the version. *)
Definition NodeInfo_copy (ni : NodeInfo) : NodeInfo := MkNodeInfo (nodeId ni) (sockaddr ni) 0.

(** ** [KBucketEntry] *)

Definition getId (e : KBucketEntry) : Id := nodeId (node e).
Definition getAddress (e : KBucketEntry) : SocketAddress := sockaddr (node e).

(** [KBucketEntry(const Id&, const SocketAddress&, int)] *)
Definition KBucketEntry_new (now : Z) (id : Id) (addr : SocketAddress) (ver : Z) : KBucketEntry :=
  MkEntry (MkNodeInfo id addr ver) now now 0 false 0.

Definition matches (this other : KBucketEntry) : bool := ni_matches (node this) (node other).

(** The argument is sliced to a [NodeInfo]; id and address are all [equals] reads. *)
Definition equals (this other : KBucketEntry) : bool := ni_equals (node this) (NodeInfo_copy (node other)).

Definition isNeverContacted (e : KBucketEntry) : bool := lastSend e =? 0.

Definition isEligibleForNodesList (e : KBucketEntry) : bool := reachable e && (failedRequests e <? 3).

Definition isEligibleForLocalLookup (e : KBucketEntry) : bool :=
  (reachable e && (failedRequests e <=? 3)) || (failedRequests e <=? 0).

(** [int << int]: the value is reduced to 32 bits; the shift amounts the code can
    reach are below 32 while [failedRequests] is at most 32. *)
Definition shl_int (a n : Z) : Z := i32 (Z.shiftl a n).

Definition backoffWindowEnd (e : KBucketEntry) : Z :=
  if (failedRequests e =? 0) || (lastSend e <=? 0) then -1
  else
    let backoff := shl_int Constants.KBUCKET_PING_BACKOFF_BASE_INTERVAL
      (Z.min Constants.KBUCKET_MAX_TIMEOUTS (Z.max 0 (failedRequests e - 1))) in
    i64 (lastSend e + backoff).

Definition withinBackoffWindow (now : Z) (e : KBucketEntry) : bool :=
  let backoff := shl_int Constants.KBUCKET_PING_BACKOFF_BASE_INTERVAL
    (Z.max Constants.KBUCKET_MAX_TIMEOUTS (Z.max 0 (failedRequests e - 1))) in
  negb (failedRequests e =? 0) && (u64 (now - lastSend e) <? u64 backoff).

Definition needsPing (now : Z) (e : KBucketEntry) : bool :=
  if (u64 (now - lastSeen e) <? 30 * 1000) || withinBackoffWindow now e then false
  else negb (failedRequests e =? 0) || (Constants.KBUCKET_OLD_AND_STALE_TIME <? u64 (now - lastSeen e)).

Definition oldAndStale (now : Z) (e : KBucketEntry) : bool :=
  (Constants.KBUCKET_OLD_AND_STALE_TIMEOUTS <? failedRequests e) &&
  (Constants.KBUCKET_OLD_AND_STALE_TIME <? u64 (now - lastSeen e)).

Definition removableWithoutReplacement (e : KBucketEntry) : bool :=
  let seenSinceLastPing := lastSend e <? lastSeen e in
  (Constants.KBUCKET_MAX_TIMEOUTS <? failedRequests e) && negb seenSinceLastPing.

Definition needsReplacement (now : Z) (e : KBucketEntry) : bool :=
  ((1 <? failedRequests e) && negb (reachable e)) ||
  ((Constants.KBUCKET_MAX_TIMEOUTS <? failedRequests e) && oldAndStale now e).

Definition signalResponse (now : Z) (e : KBucketEntry) : KBucketEntry :=
  MkEntry (node e) (created e) now (lastSend e) true 0.

Definition signalRequest (now : Z) (e : KBucketEntry) : KBucketEntry :=
  MkEntry (node e) (created e) (lastSeen e) now (reachable e) (failedRequests e).

Definition mergeRequestTime (requestSent : Z) (e : KBucketEntry) : KBucketEntry :=
  MkEntry (node e) (created e) (lastSeen e) (Z.max (lastSend e) requestSent) (reachable e) (failedRequests e).

Definition signalRequestTimeout (e : KBucketEntry) : KBucketEntry :=
  MkEntry (node e) (created e) (lastSeen e) (lastSend e) (reachable e)
    (if failedRequests e <=? 0 then 1 else i32 (failedRequests e + 1)).

(** [KBucketEntry::merge]: nothing happens for another node or for the object itself. *)
Definition merge (this other : Sp KBucketEntry) : KBucketEntry :=
  let e := obj this in
  let o := obj other in
  if negb (equals e o) || (ptr this =? ptr other)%positive then e
  else MkEntry (node e)
         (Z.min (created e) (created o))
         (Z.max (lastSeen e) (lastSeen o))
         (Z.max (lastSend e) (lastSend o))
         (if reachable o then true else reachable e)
         (if 0 <? failedRequests o then Z.min (failedRequests e) (failedRequests o) else failedRequests e).

(** ** Lemmas *)

Lemma equals_iff (e o : KBucketEntry) :
  equals e o = true <-> getId e = getId o /\ getAddress e = getAddress o.
Proof.
  unfold equals, ni_equals, sa_eqb, getId, getAddress. simpl.
  by rewrite andb_true_iff, !bool_decide_eq_true.
Qed.

Lemma matches_iff (e o : KBucketEntry) :
  matches e o = true <-> getId e = getId o \/ getAddress e = getAddress o.
Proof.
  unfold matches, ni_matches, sa_eqb, getId, getAddress.
  by rewrite orb_true_iff, !bool_decide_eq_true.
Qed.

Lemma matches_false_iff (e o : KBucketEntry) :
  matches e o = false <-> getId e <> getId o /\ getAddress e <> getAddress o.
Proof.
  unfold matches, ni_matches, sa_eqb, getId, getAddress.
  by rewrite orb_false_iff, !bool_decide_eq_false.
Qed.

Lemma matches_sym (e o : KBucketEntry) : matches e o = matches o e.
Proof.
  destruct (matches o e) eqn:E.
  - apply matches_iff in E. apply matches_iff. naive_solver.
  - apply matches_false_iff in E. apply matches_false_iff. naive_solver.
Qed.

Lemma equals_matches (e o : KBucketEntry) : equals e o = true -> matches e o = true.
Proof. rewrite equals_iff, matches_iff. naive_solver. Qed.

(** What an update of an entry may not change: the node it stands for. *)
Definition same_node (e e' : KBucketEntry) : Prop :=
  node e' = node e /\ (reachable e = true -> reachable e' = true).

Lemma merge_same_node (s o : Sp KBucketEntry) : same_node (obj s) (merge s o).
Proof. unfold same_node, merge. repeat case_if; simpl; auto. Qed.

Lemma signalRequest_same_node now e : same_node e (signalRequest now e).
Proof. done. Qed.
Lemma signalRequestTimeout_same_node e : same_node e (signalRequestTimeout e).
Proof. done. Qed.
Lemma signalResponse_same_node now e : same_node e (signalResponse now e).
Proof. done. Qed.

#[export] Hint Resolve merge_same_node signalRequest_same_node signalRequestTimeout_same_node
  signalResponse_same_node : carrier.

(** An entry that answered once is only replaced after more than five failed
    requests and a quarter of an hour without a message. *)
Lemma needsReplacement_reachable (now : Z) (e : KBucketEntry) :
  reachable e = true ->
  needsReplacement now e = true ->
  Constants.KBUCKET_MAX_TIMEOUTS < failedRequests e /\
  Constants.KBUCKET_OLD_AND_STALE_TIME < u64 (now - lastSeen e).
Proof.
  unfold needsReplacement, oldAndStale. intros ->. rewrite andb_false_r, orb_false_l. intros. by bool_to_prop.
Qed.

(** ** The claims *)

(** The back-off window of a failing node doubles from one minute and
    stops at 32 minutes in [backoffWindowEnd]; [withinBackoffWindow] instead
    keeps every failing node inside a window of at least 32 minutes, also the
    ones whose [backoffWindowEnd] has passed. *)
Theorem backoff_windows (e : KBucketEntry) (now : Z) :
  1 <= failedRequests e <= 6 -> 0 < lastSend e -> lastSend e <= now < lastSend e + 32 * 60000 -> now < 2 ^ 62 ->
  backoffWindowEnd e = lastSend e + 60000 * 2 ^ (failedRequests e - 1) /\
  withinBackoffWindow now e = true.
Proof.
  intros Hf Hs Hn Hb. unfold backoffWindowEnd, withinBackoffWindow, shl_int,
    Constants.KBUCKET_PING_BACKOFF_BASE_INTERVAL, Constants.KBUCKET_MAX_TIMEOUTS.
  destruct (Z.eqb_spec (failedRequests e) 0); [lia|].
  destruct (Z.leb_spec (lastSend e) 0); [lia|]. simpl orb. simpl negb.
  assert (60000 * 2 ^ (failedRequests e - 1) <= 60000 * 2 ^ 5)
    by (apply Z.mul_le_mono_nonneg_l; [lia|apply Z.pow_le_mono_r; lia]).
  assert (0 < 2 ^ (failedRequests e - 1)) by (apply Z.pow_pos_nonneg; lia).
  rewrite Z.max_r, Z.min_r, (Z.max_l 5) by lia. rewrite !Z.shiftl_mul_pow2 by lia.
  change (2 ^ 5) with 32 in *. change (60 * 1000) with 60000.
  rewrite !(swrap_small 32) by lia. split.
  - apply (swrap_small 64); [lia|]. change (2 ^ (64 - 1)) with (2 * 2 ^ 62). lia.
  - change (true && (u64 (now - lastSend e) <? u64 (60000 * 32)) = true). simpl andb.
    apply Z.ltb_lt. rewrite !(wrap_small 64); [lia|lia|]. change (2 ^ 64) with (4 * 2 ^ 62). lia.
Qed.

(** A node that failed once two minutes ago: its window ended a minute ago, and
    [withinBackoffWindow] still reports it inside. *)
Lemma backoff_windows_witness :
  let e := MkEntry (MkNodeInfo zero SA_unspec 0) 1 1 1000 true 1 in
  backoffWindowEnd e = 61000 /\ withinBackoffWindow 121000 e = true.
Proof. apply (backoff_windows (MkEntry (MkNodeInfo zero SA_unspec 0) 1 1 1000 true 1) 121000); simpl; lia. Defined.
