(* ===== verification/KBuckets.v ===== *)
(** * Buckets: [KBucket] of [src/core/kbucket.h] and [src/core/kbucket.cc]

    A bucket keeps the entries of one prefix in a list ordered by creation time,
    the youngest last.  [entries_ok] is the invariant: at most
    [MAX_ENTRIES_PER_BUCKET] entries, no two with the same id, address or object,
    all of them reachable. *)

From S2P Require Import Prelude Constants Ids Prefixes Addresses Entries.

Abbreviation SpE := (Sp KBucketEntry).

Record KBucket := MkKBucket {
  b_ptr : positive;
  prefix : Prefix;
  homeBucket : bool;
  entries : list SpE;
  lastRefresh : Z
}.

#[export] Instance KBucket_eq_dec : EqDecision KBucket.
Proof. solve_decision. Defined.

Definition eid (e : SpE) : Id := getId (obj e).
Definition eaddr (e : SpE) : SocketAddress := getAddress (obj e).

Module KBucket.

(** ** Definitions *)

Definition KBucket_new (p : positive) (pre : Prefix) (isHome : bool) : KBucket :=
  MkKBucket p (Prefix_copy pre) isHome [] 0.

Definition set_entries (b : KBucket) (l : list SpE) : KBucket :=
  MkKBucket (b_ptr b) (prefix b) (homeBucket b) l (lastRefresh b).

Definition isFull (b : KBucket) : bool := (Constants.MAX_ENTRIES_PER_BUCKET <=? length (entries b))%nat.

(** [findAny]: the first entry that satisfies the predicate. *)
Fixpoint findAny (p : SpE -> bool) (l : list SpE) : option SpE :=
  match l with
  | [] => None
  | e :: l' => if p e then Some e else findAny p l'
  end.

Definition anyMatch (p : SpE -> bool) (l : list SpE) : bool :=
  match findAny p l with Some _ => true | None => false end.

Definition id_is (id : Id) (e : SpE) : bool := bool_decide (eid e = id).

Definition get (b : KBucket) (id : Id) : option SpE := findAny (id_is id) (entries b).

Definition find (b : KBucket) (id : Id) (addr : SocketAddress) : option SpE :=
  findAny (fun e => id_is id e || sa_eqb (eaddr e) addr) (entries b).

Definition exists_ (b : KBucket) (id : Id) : bool := anyMatch (id_is id) (entries b).

(** [KBucket::random], for the index the generator returned. *)
Definition random (b : KBucket) (i : nat) : option SpE := entries b !! i.

Definition needsToBeRefreshed (now : Z) (b : KBucket) : bool :=
  (Constants.BUCKET_REFRESH_INTERVAL <? u64 (now - lastRefresh b)) &&
  anyMatch (fun e => needsPing now (obj e)) (entries b).

Definition b_needsReplacement (now : Z) (b : KBucket) : bool :=
  anyMatch (fun e => needsReplacement now (obj e)) (entries b).

Definition updateRefreshTimer (now : Z) (b : KBucket) : KBucket :=
  MkKBucket (b_ptr b) (prefix b) (homeBucket b) (entries b) now.

(** [std::list::remove(toRemove)] compares the pointers. *)
Definition remove_ptr (p : positive) (l : list SpE) : list SpE := filter (fun e => ptr e <> p) l.

Definition older (a b : SpE) : bool := ltb_key (fun e => created (obj e)) a b.

(** [KBucket::_update(toRemove, toInsert)] *)
Definition _update2 (toRemove toInsert : option SpE) (l : list SpE) : list SpE :=
  if match toInsert with
     | Some n => anyMatch (fun e => matches (obj n) (obj e)) l
     | None => false
     end
  then l
  else
    let '(newEntries, removed) :=
      match toRemove with
      | Some r => (remove_ptr (ptr r) l, true)
      | None => (l, false)
      end in
    let '(newEntries, added) :=
      match toInsert with
      | Some n =>
          let oldSize := length newEntries in
          let wasFull := (Constants.MAX_ENTRIES_PER_BUCKET <=? oldSize)%nat in
          let youngest := list.last newEntries in
          let unorderedInsert :=
            match youngest with Some y => created (obj n) <? created (obj y) | None => false end in
          let added := negb wasFull || unorderedInsert in
          let newEntries := if added then newEntries ++ [n] else newEntries in
          (if unorderedInsert then sort_by older newEntries else newEntries, added)
      | None => (newEntries, false)
      end in
    if added || removed then newEntries else l.

(** [KBucket::_replaceBadEntry]; [None] when no entry is bad. *)
Definition _replaceBadEntry (now : Z) (newEntry : SpE) (l : list SpE) : option (list SpE) :=
  match findAny (fun e => needsReplacement now (obj e)) l with
  | Some e => Some (_update2 (Some e) (Some newEntry) l)
  | None => None
  end.

(** The first loop of [KBucket::_put]: the new list when it returns from the
    loop, after merging into an equal entry or on a conflict. *)
Fixpoint put_existing (newEntry : SpE) (l : list SpE) : option (list SpE) :=
  match l with
  | [] => None
  | e :: l' =>
      if equals (obj e) (obj newEntry) then Some (MkSp (ptr e) (merge e newEntry) :: l')
      else if matches (obj e) (obj newEntry) then Some l
      else cons e <$> put_existing newEntry l'
  end.

Definition put_list (now : Z) (newEntry : SpE) (l : list SpE) : list SpE :=
  match put_existing newEntry l with
  | Some l' => l'
  | None =>
      if reachable (obj newEntry) then
        if (length l <? Constants.MAX_ENTRIES_PER_BUCKET)%nat then _update2 None (Some newEntry) l
        else
          match _replaceBadEntry now newEntry l with
          | Some l' => l'
          | None =>
              match list.last l with
              | Some youngest =>
                  if created (obj newEntry) <? created (obj youngest)
                  then _update2 (Some youngest) (Some newEntry) l
                  else l
              | None => l
              end
          end
      else l
  end.

(** [KBucket::_put]; a null pointer is ignored. *)
Definition _put (now : Z) (newEntry : option SpE) (b : KBucket) : KBucket :=
  match newEntry with
  | Some e => set_entries b (put_list now e (entries b))
  | None => b
  end.

(** [KBucket::_update(toRefresh)] *)
Fixpoint update_existing (toRefresh : SpE) (l : list SpE) : list SpE :=
  match l with
  | [] => []
  | e :: l' =>
      if equals (obj e) (obj toRefresh) then MkSp (ptr e) (merge e toRefresh) :: l'
      else e :: update_existing toRefresh l'
  end.

Definition _update (toRefresh : SpE) (b : KBucket) : KBucket :=
  set_entries b (update_existing toRefresh (entries b)).

(** [KBucket::_removeIfBad] *)
Definition removeIfBad_list (now : Z) (toRemove : SpE) (force : bool) (l : list SpE) : list SpE :=
  if (force || needsReplacement now (obj toRemove)) && anyMatch (id_is (eid toRemove)) l
  then _update2 (Some toRemove) None l
  else l.

Definition _removeIfBad (now : Z) (toRemove : SpE) (force : bool) (b : KBucket) : KBucket :=
  set_entries b (removeIfBad_list now toRemove force (entries b)).

(** The loops that signal the entry with a given id. *)
Fixpoint signal_first (f : KBucketEntry -> KBucketEntry) (id : Id) (l : list SpE) : option (SpE * list SpE) :=
  match l with
  | [] => None
  | e :: l' =>
      if id_is id e then let e' := sp_map f e in Some (e', e' :: l')
      else '(r, k) ← signal_first f id l'; Some (r, e :: k)
  end.

(** [KBucket::_notifyOfResponse], for a response with an associated call. *)
Definition _notifyOfResponse (now : Z) (id : Id) (b : KBucket) : KBucket :=
  match signal_first (signalResponse now) id (entries b) with
  | Some (_, l) => set_entries b l
  | None => b
  end.

Definition _onTimeout (now : Z) (id : Id) (b : KBucket) : KBucket :=
  match signal_first signalRequestTimeout id (entries b) with
  | Some (e, l) => set_entries b (removeIfBad_list now e false l)
  | None => b
  end.

Definition _onSend (now : Z) (id : Id) (b : KBucket) : KBucket :=
  match signal_first (signalRequest now) id (entries b) with
  | Some (_, l) => set_entries b l
  | None => b
  end.

(** ** The invariant *)

Definition entries_ok (l : list SpE) : Prop :=
  (length l <= Constants.MAX_ENTRIES_PER_BUCKET)%nat /\
  NoDup (eid <$> l) /\ NoDup (eaddr <$> l) /\ NoDup (ptr <$> l) /\
  Forall (fun e => reachable (obj e) = true) l.

#[export] Instance entries_ok_perm : Proper (Permutation ==> iff) entries_ok.
Proof.
  assert (forall l k : list SpE, l ≡ₚ k -> entries_ok l -> entries_ok k) as H.
  { intros l k E (H1 & H2 & H3 & H4 & H5). unfold entries_ok. by rewrite <- E. }
  intros l k E. split; apply H; [done|by symmetry].
Qed.

(** [newEntry] is not a copy of an object of the bucket under its address. *)
Definition consistent (n : SpE) (l : list SpE) : Prop := Forall (fun e => ptr e = ptr n -> obj e = obj n) l.

Definition no_conflict (n : SpE) (l : list SpE) : Prop := Forall (fun e => matches (obj e) (obj n) = false) l.

Lemma findAny_Some (p : SpE -> bool) (l : list SpE) (e : SpE) :
  findAny p l = Some e -> exists l1 l2, l = l1 ++ e :: l2 /\ p e = true /\ Forall (fun x => p x = false) l1.
Proof.
  induction l as [|x l IH]; simpl; [done|]. destruct (p x) eqn:E.
  - intros [= <-]. by exists [], l.
  - intros (l1 & l2 & -> & Hp & Hf)%IH. exists (x :: l1), l2. by repeat constructor.
Qed.

Lemma findAny_None (p : SpE -> bool) (l : list SpE) :
  findAny p l = None <-> Forall (fun x => p x = false) l.
Proof.
  induction l as [|x l IH]; simpl; [done|]. rewrite Forall_cons. destruct (p x) eqn:E; [naive_solver|].
  rewrite IH. naive_solver.
Qed.

Lemma anyMatch_false (p : SpE -> bool) (l : list SpE) :
  anyMatch p l = false <-> Forall (fun x => p x = false) l.
Proof. unfold anyMatch. rewrite <- findAny_None. by destruct (findAny p l). Qed.

Lemma anyMatch_true (p : SpE -> bool) (l : list SpE) :
  anyMatch p l = true <-> exists e, e ∈ l /\ p e = true.
Proof.
  unfold anyMatch. destruct (findAny p l) as [e|] eqn:E.
  - split; [|done]. intros _. apply findAny_Some in E as (l1 & l2 & -> & ? & _).
    exists e. split; [set_solver|done].
  - split; [done|]. intros (e & He & Hp). apply findAny_None in E.
    rewrite Forall_forall in E. by rewrite E in Hp.
Qed.

Lemma remove_ptr_sublist (p : positive) (l : list SpE) : remove_ptr p l `sublist_of` l.
Proof. apply sublist_filter. Qed.

Lemma remove_ptr_cons (e : SpE) (l1 l2 : list SpE) :
  NoDup (ptr <$> l1 ++ e :: l2) -> remove_ptr (ptr e) (l1 ++ e :: l2) = l1 ++ l2.
Proof.
  rewrite fmap_app, fmap_cons. intros Hnd. rewrite NoDup_app in Hnd. destruct Hnd as (_ & H1 & H2).
  apply NoDup_cons in H2 as [H2 _].
  unfold remove_ptr. rewrite filter_app, filter_cons_False by tauto.
  assert (forall l : list SpE, ptr e ∉ ptr <$> l -> filter (fun x => ptr x <> ptr e) l = l) as Hf.
  { intros l Hl. apply filter_id. apply Forall_forall. intros x Hx E. apply Hl.
    rewrite <- E. by apply list_elem_of_fmap_2. }
  rewrite !Hf; [done|done|]. intros Hin. apply (H1 _ Hin). by left.
Qed.

Lemma entries_ok_sublist (l k : list SpE) : k `sublist_of` l -> entries_ok l -> entries_ok k.
Proof.
  intros Hs (H1 & H2 & H3 & H4 & H5). pose proof (sublist_length _ _ Hs).
  split_and!; [lia|eapply sublist_NoDup; [done|by apply fmap_sublist]..|].
  rewrite Forall_forall in H5 |- *. intros e He. apply H5. eapply elem_of_submseteq; [done|by apply sublist_submseteq].
Qed.

Lemma entries_ok_cons (n : SpE) (l : list SpE) :
  (length l < Constants.MAX_ENTRIES_PER_BUCKET)%nat -> entries_ok l -> no_conflict n l ->
  ptr n ∉ ptr <$> l -> reachable (obj n) = true -> entries_ok (n :: l).
Proof.
  intros Hlen (H1 & H2 & H3 & H4 & H5) Hc Hp Hr. unfold no_conflict in Hc. rewrite Forall_forall in Hc.
  assert (forall e, e ∈ l -> eid e <> eid n /\ eaddr e <> eaddr n) as Hm.
  { intros e He. apply matches_false_iff. by apply Hc. }
  split_and!; [simpl; lia|rewrite fmap_cons; apply NoDup_cons; split; [|done]..|by constructor].
  - intros (e & E & He)%list_elem_of_fmap. destruct (Hm e He). congruence.
  - intros (e & E & He)%list_elem_of_fmap. destruct (Hm e He). congruence.
  - done.
Qed.

Lemma entries_ok_change (l k : list SpE) :
  eid <$> k = eid <$> l -> eaddr <$> k = eaddr <$> l -> ptr <$> k = ptr <$> l ->
  Forall (fun e => reachable (obj e) = true) k -> entries_ok l -> entries_ok k.
Proof.
  intros E1 E2 E3 Hr (H1 & H2 & H3 & H4 & _). unfold entries_ok. rewrite E1, E2, E3.
  split_and!; [|done..]. apply (f_equal length) in E3. rewrite !length_fmap in E3. lia.
Qed.

(** Replacing an entry by an update of itself keeps the invariant. *)
Lemma entries_ok_same_node (l1 l2 : list SpE) (e : SpE) (e' : KBucketEntry) :
  same_node (obj e) e' -> entries_ok (l1 ++ e :: l2) -> entries_ok (l1 ++ MkSp (ptr e) e' :: l2).
Proof.
  intros [Hn Hr] Hok. pose proof Hok as (_ & _ & _ & _ & Hall).
  apply Forall_app in Hall as [A1 [A2 A3]%Forall_cons].
  eapply entries_ok_change; [..|exact Hok].
  - rewrite !fmap_app, !fmap_cons. unfold eid at 2, getId. simpl. by rewrite Hn.
  - rewrite !fmap_app, !fmap_cons. unfold eaddr at 2, getAddress. simpl. by rewrite Hn.
  - by rewrite !fmap_app, !fmap_cons.
  - apply Forall_app. split; [done|]. constructor; [|done]. by apply Hr.
Qed.

Lemma no_conflict_alt (n : SpE) (l : list SpE) :
  anyMatch (fun e => matches (obj n) (obj e)) l = false <-> no_conflict n l.
Proof.
  rewrite anyMatch_false. unfold no_conflict.
  split; intros H; apply (Forall_impl _ _ _ H); intros e; by rewrite matches_sym.
Qed.

(** What [_update(toRemove, toInsert)] inserts when there is no conflict and a
    place is free after the removal. *)
Lemma update2_insert (r : option SpE) (n : SpE) (l : list SpE) :
  no_conflict n l ->
  let l1 := match r with Some r => remove_ptr (ptr r) l | None => l end in
  (length l1 < Constants.MAX_ENTRIES_PER_BUCKET)%nat ->
  _update2 r (Some n) l ≡ₚ n :: l1.
Proof.
  intros Hc l1 Hlen. unfold _update2. rewrite (proj2 (no_conflict_alt n l) Hc).
  assert (Constants.MAX_ENTRIES_PER_BUCKET <=? length l1 = false)%nat as Hf by (apply Nat.leb_gt; lia).
  destruct r as [r|]; simpl in l1; fold l1; rewrite Hf; simpl; subst l1;
    destruct (match list.last _ with Some _ => _ | None => _ end);
    rewrite ?sort_by_perm; symmetry; apply Permutation_cons_append.
Qed.

Lemma put_existing_None (n : SpE) (l : list SpE) : put_existing n l = None <-> no_conflict n l.
Proof.
  unfold no_conflict. induction l as [|e l IH]; simpl; [done|]. rewrite Forall_cons.
  destruct (equals (obj e) (obj n)) eqn:E1.
  - apply equals_matches in E1. rewrite E1. naive_solver.
  - destruct (matches (obj e) (obj n)) eqn:E2; [naive_solver|].
    rewrite fmap_None, IH. naive_solver.
Qed.

Lemma put_existing_Some (n : SpE) (l l' : list SpE) :
  put_existing n l = Some l' ->
  (exists l1 e l2, l = l1 ++ e :: l2 /\ no_conflict n l1 /\ equals (obj e) (obj n) = true /\
     l' = l1 ++ MkSp (ptr e) (merge e n) :: l2) \/
  (exists l1 e l2, l = l1 ++ e :: l2 /\ no_conflict n l1 /\ matches (obj e) (obj n) = true /\
     equals (obj e) (obj n) = false /\ l' = l).
Proof.
  revert l'. induction l as [|e l IH]; simpl; intros l'; [done|].
  destruct (equals (obj e) (obj n)) eqn:E1.
  { intros [= <-]. left. exists [], e, l. by repeat constructor. }
  destruct (matches (obj e) (obj n)) eqn:E2.
  { intros [= <-]. right. exists [], e, l. by repeat constructor. }
  intros (k & Hk & ->)%fmap_Some.
  destruct (IH _ Hk) as [(l1 & x & l2 & -> & ? & ? & ->)|(l1 & x & l2 & -> & ? & ? & ? & ->)].
  - left. exists (e :: l1), x, l2. by repeat constructor.
  - right. exists (e :: l1), x, l2. by repeat constructor.
Qed.

(** ** What [_put] does, case by case *)

Inductive put_result (now : Z) (n : SpE) (l : list SpE) : list SpE -> Prop :=
  | put_merged l1 e l2 :
      l = l1 ++ e :: l2 -> equals (obj e) (obj n) = true ->
      put_result now n l (l1 ++ MkSp (ptr e) (merge e n) :: l2)
  | put_conflict e :
      e ∈ l -> matches (obj e) (obj n) = true -> equals (obj e) (obj n) = false ->
      put_result now n l l
  | put_unreachable :
      no_conflict n l -> reachable (obj n) = false -> put_result now n l l
  | put_added l' :
      no_conflict n l -> reachable (obj n) = true ->
      (length l < Constants.MAX_ENTRIES_PER_BUCKET)%nat -> l' ≡ₚ n :: l -> put_result now n l l'
  | put_replaced l1 e l2 l' :
      no_conflict n l -> reachable (obj n) = true ->
      l = l1 ++ e :: l2 -> l' ≡ₚ n :: l1 ++ l2 ->
      (length l = Constants.MAX_ENTRIES_PER_BUCKET)%nat ->
      needsReplacement now (obj e) = true \/
      (Forall (fun x => needsReplacement now (obj x) = false) l /\ l2 = [] /\ created (obj n) < created (obj e)) ->
      put_result now n l l'
  | put_rejected :
      no_conflict n l -> reachable (obj n) = true ->
      (length l = Constants.MAX_ENTRIES_PER_BUCKET)%nat ->
      Forall (fun x => needsReplacement now (obj x) = false) l -> put_result now n l l.

Lemma update2_replace (l1 l2 : list SpE) (e n : SpE) :
  entries_ok (l1 ++ e :: l2) -> no_conflict n (l1 ++ e :: l2) ->
  _update2 (Some e) (Some n) (l1 ++ e :: l2) ≡ₚ n :: l1 ++ l2.
Proof.
  intros (Hlen & _ & _ & Hp & _) Hc.
  rewrite (update2_insert (Some e) n) by (try done; rewrite remove_ptr_cons by done;
    rewrite length_app in *; simpl in *; lia).
  by rewrite remove_ptr_cons.
Qed.

Lemma put_list_result (now : Z) (n : SpE) (l : list SpE) :
  entries_ok l -> put_result now n l (put_list now n l).
Proof.
  intros Hok. unfold put_list. destruct (put_existing n l) as [l'|] eqn:E.
  { destruct (put_existing_Some _ _ _ E) as [(l1 & e & l2 & -> & _ & H & ->)|(l1 & e & l2 & -> & _ & H1 & H2 & ->)].
    - by apply put_merged.
    - apply put_conflict with e; [set_solver|done..]. }
  apply put_existing_None in E. destruct (reachable (obj n)) eqn:Hr; [|by apply put_unreachable].
  pose proof Hok as (Hlen & _).
  destruct (Nat.ltb_spec (length l) Constants.MAX_ENTRIES_PER_BUCKET).
  { apply put_added; [done..|]. by apply (update2_insert None). }
  unfold _replaceBadEntry. destruct (findAny _ l) as [e|] eqn:Ef.
  { apply findAny_Some in Ef as (l1 & l2 & -> & Hb & _).
    apply put_replaced with l1 e l2; [done..|by apply update2_replace|lia|by left]. }
  apply findAny_None in Ef. destruct (list.last l) as [y|] eqn:Ey; [|by apply put_rejected; [..|lia|]].
  destruct (Z.ltb_spec (created (obj n)) (created (obj y))); [|by apply put_rejected; [..|lia|]].
  apply last_Some in Ey as (l1 & ->).
  apply put_replaced with l1 y []; [done..| |lia|by right].
  by apply update2_replace.
Qed.

Lemma put_list_ok (now : Z) (n : SpE) (l : list SpE) :
  entries_ok l -> consistent n l -> entries_ok (put_list now n l).
Proof.
  intros Hok Hcs.
  assert (no_conflict n l -> ptr n ∉ ptr <$> l) as Hfresh.
  { intros Hc (e & E & He)%list_elem_of_fmap. unfold consistent, no_conflict in *.
    rewrite Forall_forall in Hcs, Hc. pose proof (Hcs e He (eq_sym E)) as Eo.
    specialize (Hc e He). rewrite Eo in Hc. apply matches_false_iff in Hc. naive_solver. }
  destruct (put_list_result now n l Hok) as
    [l1 e l2 -> He|e _ _ _|Hc Hr|l' Hc Hr Hl ->|l1 e l2 l' Hc Hr -> -> Hl _|Hc Hr Hl _]; try done.
  - apply entries_ok_same_node; [apply merge_same_node|done].
  - apply entries_ok_cons; auto.
  - assert (l1 ++ l2 `sublist_of` l1 ++ e :: l2) as Hs by (apply sublist_app; [done|by constructor]).
    apply entries_ok_cons; [|by eapply entries_ok_sublist| | |done].
    + rewrite length_app in *. simpl in *. unfold Constants.MAX_ENTRIES_PER_BUCKET in *. lia.
    + unfold no_conflict in *. rewrite Forall_app, Forall_cons in *. tauto.
    + intros Hin. apply (Hfresh Hc). rewrite fmap_app in *. rewrite fmap_cons. set_solver.
Qed.

(** ** The other operations *)

Lemma update2_remove (r : SpE) (l : list SpE) : _update2 (Some r) None l = remove_ptr (ptr r) l.
Proof. done. Qed.

Lemma removeIfBad_sublist (now : Z) (r : SpE) (f : bool) (l : list SpE) :
  removeIfBad_list now r f l `sublist_of` l.
Proof.
  unfold removeIfBad_list. case_if; [|done]. rewrite update2_remove. apply remove_ptr_sublist.
Qed.

Lemma signal_first_Some (f : KBucketEntry -> KBucketEntry) (id : Id) (l k : list SpE) (r : SpE) :
  signal_first f id l = Some (r, k) ->
  exists l1 e l2, l = l1 ++ e :: l2 /\ eid e = id /\ r = sp_map f e /\ k = l1 ++ r :: l2.
Proof.
  revert k. induction l as [|e l IH]; simpl; intros k; [done|].
  unfold id_is. case_bool_decide.
  - intros [= <- <-]. by exists [], e, l.
  - destruct (signal_first f id l) as [[r' k']|]; simpl; [|done]. intros [= -> <-].
    destruct (IH _ eq_refl) as (l1 & x & l2 & -> & ? & ? & ->). by exists (e :: l1), x, l2.
Qed.

Lemma update_existing_ok (t : SpE) (l : list SpE) : entries_ok l -> entries_ok (update_existing t l).
Proof.
  assert (exists l1, update_existing t l = l \/
    exists e l2, l = l1 ++ e :: l2 /\ update_existing t l = l1 ++ MkSp (ptr e) (merge e t) :: l2) as (l1 & H).
  { induction l as [|e l (l1 & IH)]; simpl; [exists []; by left|]. destruct (equals (obj e) (obj t)).
    - exists []. right. by exists e, l.
    - exists (e :: l1). destruct IH as [->|(x & l2 & E & ->)]; [by left|right]. exists x, l2.
      by rewrite E. }
  intros Hok. destruct H as [->|(e & l2 & -> & ->)]; [done|].
  apply entries_ok_same_node; [apply merge_same_node|done].
Qed.

(** The invariant of a bucket: its entries are in order and in its prefix. *)
Definition bucket_ok (b : KBucket) : Prop :=
  prefix_wf (prefix b) /\ entries_ok (entries b) /\ Forall (fun e => covers (prefix b) (eid e)) (entries b).

Lemma bucket_ok_sublist (b : KBucket) (l : list SpE) :
  l `sublist_of` entries b -> bucket_ok b -> bucket_ok (set_entries b l).
Proof.
  intros Hs (H1 & H2 & H3). split_and!; [done|by eapply entries_ok_sublist|].
  simpl. rewrite Forall_forall in *. intros e He. apply H3.
  eapply elem_of_submseteq; [done|by apply sublist_submseteq].
Qed.

(** An operation that rewrites one entry in place keeps the invariant. *)
Lemma bucket_ok_same_node (b : KBucket) (l1 l2 : list SpE) (e : SpE) (e' : KBucketEntry) :
  entries b = l1 ++ e :: l2 -> same_node (obj e) e' -> bucket_ok b ->
  bucket_ok (set_entries b (l1 ++ MkSp (ptr e) e' :: l2)).
Proof.
  intros E Hn (H1 & H2 & H3). rewrite E in *. split_and!; [done|by apply entries_ok_same_node|].
  simpl. rewrite Forall_app, Forall_cons in *. destruct H3 as (? & ? & ?). split_and!; try done.
  unfold eid, getId in *. simpl. destruct Hn as [-> _]. done.
Qed.

Lemma signal_ok (f : KBucketEntry -> KBucketEntry) (id : Id) (b : KBucket) (r : SpE) (k : list SpE) :
  (forall e, same_node e (f e)) -> signal_first f id (entries b) = Some (r, k) -> bucket_ok b ->
  bucket_ok (set_entries b k).
Proof.
  intros Hf Hs Hok. destruct (signal_first_Some _ _ _ _ _ Hs) as (l1 & e & l2 & E & _ & -> & ->).
  by apply bucket_ok_same_node.
Qed.

Lemma put_list_elem (now : Z) (n x : SpE) (l : list SpE) :
  entries_ok l -> x ∈ put_list now n l -> x = n \/ exists e, e ∈ l /\ ptr x = ptr e /\ node (obj x) = node (obj e).
Proof.
  intros Hok. destruct (put_list_result now n l Hok) as
    [l1 e l2 -> He|e _ _ _|Hc Hr|l' Hc Hr Hl ->|l1 e l2 l' Hc Hr -> -> Hl _|Hc Hr Hl _]; [|eauto..| | |eauto].
  - intros [Hx|[->|Hx]%elem_of_cons]%elem_of_app; right; [exists x; set_solver| |exists x; set_solver].
    exists e. split_and!; [set_solver|done|]. apply merge_same_node.
  - intros [->|Hx]%elem_of_cons; eauto.
  - intros [->|Hx]%elem_of_cons; [by left|right]. exists x. set_solver.
Qed.

Lemma put_ok (now : Z) (n : SpE) (b : KBucket) :
  bucket_ok b -> covers (prefix b) (eid n) -> consistent n (entries b) -> bucket_ok (_put now (Some n) b).
Proof.
  intros (H1 & H2 & H3) Hc Hn. split_and!; [done|by apply put_list_ok|].
  simpl. rewrite Forall_forall in *. intros x Hx.
  destruct (put_list_elem now n x (entries b) H2 Hx) as [->|(e & He & _ & E)]; [done|].
  unfold eid, getId. rewrite E. by apply H3.
Qed.

Lemma find_In (b : KBucket) (id : Id) (e : SpE) : get b id = Some e -> e ∈ entries b /\ eid e = id.
Proof.
  unfold get, id_is. intros H. apply findAny_Some in H as (l1 & l2 & -> & Hp & _).
  apply bool_decide_eq_true in Hp. set_solver.
Qed.

Lemma get_unique (b : KBucket) (e : SpE) : entries_ok (entries b) -> e ∈ entries b -> get b (eid e) = Some e.
Proof.
  intros (_ & Hn & _) He. unfold get. destruct (findAny _ (entries b)) as [x|] eqn:E.
  - apply findAny_Some in E as (l1 & l2 & El & Hp & Hf). unfold id_is in *. apply bool_decide_eq_true in Hp.
    apply list_elem_of_split in He as (k1 & k2 & Ek). f_equal.
    assert (e ∈ l1 ++ x :: l2) as Hin by (rewrite <- El, Ek; set_solver).
    apply elem_of_app in Hin as [Hin|Hin].
    + rewrite Forall_forall in Hf. specialize (Hf e Hin). apply bool_decide_eq_false in Hf. done.
    + apply elem_of_cons in Hin as [->|Hin]; [done|]. exfalso.
      rewrite El, fmap_app, fmap_cons, NoDup_app, NoDup_cons in Hn.
      destruct Hn as (_ & _ & Hn & _). apply Hn. rewrite Hp. by apply list_elem_of_fmap_2.
  - apply findAny_None in E. rewrite Forall_forall in E. specialize (E e He).
    unfold id_is in E. apply bool_decide_eq_false in E. done.
Qed.

Lemma KBucket_new_prefix (p : positive) (q : Prefix) (h : bool) : prefix_wf q -> prefix (KBucket_new p q h) = q.
Proof. apply Prefix_copy_id. Qed.

(** Where there is room and no conflict, an entry is added. *)
Lemma put_list_room (now : Z) (n : SpE) (l : list SpE) : entries_ok (n :: l) -> put_list now n l ≡ₚ n :: l.
Proof.
  intros Hok. pose proof Hok as (Hlen & Hi & Ha & _ & Hr). simpl in Hlen.
  apply NoDup_cons in Hi as [Hi _], Ha as [Ha _]. apply Forall_cons in Hr as [Hr _].
  assert (no_conflict n l) as Hc.
  { apply Forall_forall. intros e He. apply matches_false_iff.
    split; intros E; [apply Hi|apply Ha]; [fold (eid e) (eid n) in E|fold (eaddr e) (eaddr n) in E];
      rewrite <- E; by apply list_elem_of_fmap_2. }
  unfold put_list. rewrite (proj2 (put_existing_None n l) Hc), Hr.
  destruct (Nat.ltb_spec (length l) Constants.MAX_ENTRIES_PER_BUCKET); [|lia]. by apply (update2_insert None).
Qed.

(** The entries of a bucket, divided between the branches of its prefix. *)
Lemma split_entries_ok (b : KBucket) (e1 e2 : list SpE) :
  bucket_ok b -> isSplittable (prefix b) = true -> e1 ++ e2 ≡ₚ entries b ->
  (forall x, x ∈ e1 -> isPrefixOf (splitBranch (prefix b) false) (eid x) = true) ->
  (forall x, x ∈ e2 -> isPrefixOf (splitBranch (prefix b) false) (eid x) = false) ->
  (forall bl, prefix bl = splitBranch (prefix b) false -> bucket_ok (set_entries bl e1)) /\
  (forall bh, prefix bh = splitBranch (prefix b) true -> bucket_ok (set_entries bh e2)).
Proof.
  intros (Hw & Heo & Hc) Hs Hp H1 H2. rewrite <- Hp in Heo, Hc. rewrite Forall_app, !Forall_forall in Hc.
  split; intros x Ex; unfold bucket_ok; simpl; rewrite Ex; clear x Ex;
    (split_and!; [exact (splitBranch_wf _ _ Hw Hs)|eapply entries_ok_sublist; [|exact Heo]|]).
  - by apply sublist_inserts_r.
  - apply Forall_forall. intros x Hx. apply (isPrefixOf_interval _ _ (splitBranch_wf _ _ Hw Hs)). by apply H1.
  - by apply sublist_inserts_l.
  - apply Forall_forall. intros x Hx. apply (isPrefixOf_interval _ _ (splitBranch_wf _ _ Hw Hs)).
    eapply branch_other; [done..| |by apply H2]. by apply Hc.
Qed.

(** The operations that change an entry in place or remove one. *)

Lemma update_ok (e : SpE) (b : KBucket) : bucket_ok b -> bucket_ok (_update e b).
Proof.
  intros (H1 & H2 & H3). split_and!; [done|by apply update_existing_ok|]. simpl.
  induction (entries b) as [|x l IH]; simpl; [done|]. apply Forall_cons in H3 as [H3 H4].
  destruct (equals (obj x) (obj e)).
  - constructor; [|done]. unfold eid, getId. simpl. by rewrite (proj1 (merge_same_node x e)).
  - constructor; [done|]. apply IH; [|done]. eapply entries_ok_sublist; [|exact H2]. by constructor.
Qed.

Lemma remove_ok (now : Z) (e : SpE) (force : bool) (b : KBucket) : bucket_ok b -> bucket_ok (_removeIfBad now e force b).
Proof. apply bucket_ok_sublist, removeIfBad_sublist. Qed.

Lemma timeout_ok (now : Z) (id : Id) (b : KBucket) : bucket_ok b -> bucket_ok (_onTimeout now id b).
Proof.
  intros Hb. unfold _onTimeout. destruct (signal_first _ _ _) as [[r k]|] eqn:E; [|done].
  apply (signal_ok _ _ b) in E; [|auto with carrier|done].
  apply (bucket_ok_sublist (set_entries b k) (removeIfBad_list now r false k)); [|done].
  apply removeIfBad_sublist.
Qed.

Lemma send_ok (now : Z) (id : Id) (b : KBucket) : bucket_ok b -> bucket_ok (_onSend now id b).
Proof.
  intros Hb. unfold _onSend. destruct (signal_first _ _ _) as [[r k]|] eqn:E; [|done].
  by apply (signal_ok _ _ b) in E; [|auto with carrier|].
Qed.

Lemma response_ok (now : Z) (id : Id) (b : KBucket) : bucket_ok b -> bucket_ok (_notifyOfResponse now id b).
Proof.
  intros Hb. unfold _notifyOfResponse. destruct (signal_first _ _ _) as [[r k]|] eqn:E; [|done].
  by apply (signal_ok _ _ b) in E; [|auto with carrier|].
Qed.

(** A forced removal drops the entry with the id. *)
Lemma remove_forced (now : Z) (r : SpE) (l : list SpE) :
  entries_ok l -> r ∈ l -> removeIfBad_list now r true l = filter (fun e => eid e <> eid r) l.
Proof.
  intros (_ & Hi & _ & Hp & _) Hr. unfold removeIfBad_list. simpl.
  rewrite (proj2 (anyMatch_true _ l)); [|exists r; split; [done|by apply bool_decide_eq_true]].
  rewrite update2_remove. apply list_elem_of_split in Hr as (l1 & l2 & ->). rewrite remove_ptr_cons by done.
  rewrite fmap_app, fmap_cons, NoDup_app, NoDup_cons in Hi. destruct Hi as (_ & H1 & H2 & _).
  rewrite filter_app, filter_cons_False by tauto. f_equal; symmetry; apply filter_id, Forall_forall; intros x Hx E.
  - apply (H1 (eid x)); [by apply list_elem_of_fmap_2|rewrite E; left].
  - apply H2. rewrite <- E. by apply list_elem_of_fmap_2.
Qed.

(** ** Creation order *)

#[export] Instance older_swo : StrictWeakOrder older.
Proof. apply (ltb_key_swo (fun e : SpE => created (obj e))). Qed.

Lemma sorted_snoc (l : list SpE) (n : SpE) :
  sorted_by older l -> (forall y, list.last l = Some y -> created (obj y) <= created (obj n)) ->
  sorted_by older (l ++ [n]).
Proof.
  unfold sorted_by. intros Hs Hy. destruct (list.last l) as [y|] eqn:E.
  - apply last_Some in E as (k & ->). specialize (Hy y eq_refl).
    rewrite <- app_assoc in *. rewrite StronglySorted_app in *. destruct Hs as (H1 & H2 & H3).
    unfold older, ltb_key in *. split_and!; [|done|].
    + intros a b Ha Hb. pose proof (H1 a y Ha ltac:(set_solver)) as Hay. bool_to_prop.
      apply Z.ltb_ge. set_unfold. naive_solver lia.
    + repeat constructor. by apply Z.ltb_ge.
  - apply last_None in E as ->. repeat constructor.
Qed.

Lemma update2_sorted (r : option SpE) (n : SpE) (l : list SpE) :
  sorted_by older l -> sorted_by older (_update2 r (Some n) l).
Proof.
  intros Hs. unfold _update2. case_if; [done|].
  set (l1 := match r with Some r => (remove_ptr (ptr r) l, true) | None => (l, false) end).
  assert (sorted_by older (fst l1)) as H1 by (destruct r; [by apply sorted_by_filter|done]).
  destruct l1 as [k rm]. simpl in H1. cbv zeta beta iota.
  destruct (list.last k) as [y|] eqn:E.
  - destruct (Z.ltb_spec (created (obj n)) (created (obj y))).
    + rewrite orb_true_r. simpl. apply (sort_by_sorted older).
    + rewrite orb_false_r. destruct (negb _); simpl; [|by destruct rm].
      apply sorted_snoc; [done|]. intros z Hz. assert (z = y) as -> by congruence. lia.
  - apply last_None in E as ->. simpl. repeat constructor.
Qed.

Lemma merge_created (e n : SpE) :
  created (obj e) <= created (obj n) -> created (merge e n) = created (obj e).
Proof. intros H. unfold merge. case_if; simpl; lia. Qed.

Lemma sorted_change (l1 l2 : list SpE) (e e' : SpE) :
  created (obj e') = created (obj e) -> sorted_by older (l1 ++ e :: l2) -> sorted_by older (l1 ++ e' :: l2).
Proof.
  intros E Hs. unfold sorted_by in *. rewrite StronglySorted_app, StronglySorted_cons in *.
  destruct Hs as (H1 & H2 & Hf & H3). unfold older, ltb_key in *. split_and!; [|done| |done].
  - intros a b Ha [->|Hb]%elem_of_cons; [rewrite E|]; apply H1; set_solver.
  - by rewrite E.
Qed.

(** ** The claims *)

(** [KBucket::_put] keeps the invariant of the bucket (at most eight
    entries, pairwise different ids, addresses and objects, all reachable, all
    under the bucket's prefix) and does one of the six things of [put_result]:
    merge into the entry of the same node, ignore a node that claims the id or
    the address of another entry, ignore an unreachable node, insert into a
    bucket with room, replace a bad or a younger entry of a full bucket, or
    leave the full bucket as it is. *)
Theorem put_invariant (now : Z) (n : SpE) (b : KBucket) :
  bucket_ok b -> covers (prefix b) (eid n) -> consistent n (entries b) ->
  bucket_ok (_put now (Some n) b) /\ put_result now n (entries b) (entries (_put now (Some n) b)).
Proof. intros Hb Hc Hn. split; [by apply put_ok|]. apply put_list_result. by apply Hb. Qed.

Lemma put_invariant_witness :
  let n := MkSp 7 (signalResponse 5 (KBucketEntry_new 5 MAX_ID (SA_in 39001 [8; 8; 4; 4]) 0)) in
  bucket_ok (_put 5 (Some n) (KBucket_new 1 Prefix_all true)).
Proof.
  refine (proj1 (put_invariant 5 _ (KBucket_new 1 Prefix_all true) _ _ _)).
  - split_and!; [apply prefix_all_wf| |constructor]. split_and!; [simpl; lia|constructor..].
  - vm_compute. split; congruence.
  - constructor.
Defined.

(** Entries stay in creation order: [_put] keeps the list sorted by
    creation time, the youngest last, as long as a node is not merged with an
    older record of itself. *)
Theorem put_sorted (now : Z) (n : SpE) (l : list SpE) :
  sorted_by older l ->
  (forall e, e ∈ l -> equals (obj e) (obj n) = true -> created (obj e) <= created (obj n)) ->
  sorted_by older (put_list now n l).
Proof.
  intros Hs Hm. unfold put_list. destruct (put_existing n l) as [l'|] eqn:E.
  - destruct (put_existing_Some _ _ _ E) as [(l1 & e & l2 & -> & _ & H & ->)|(l1 & e & l2 & -> & _ & _ & _ & ->)]; [|done].
    eapply sorted_change; [|exact Hs]. apply merge_created, Hm; [set_solver|done].
  - unfold _replaceBadEntry. repeat (case_match; try done); simplify_eq; by apply update2_sorted.
Qed.

Lemma put_sorted_witness :
  let e := MkSp 1 (KBucketEntry_new 9 zero SA_unspec 0) in
  let n := MkSp 2 (signalResponse 4 (KBucketEntry_new 4 MAX_ID (SA_in 1 [1; 1; 1; 1]) 0)) in
  put_list 9 n [e] = [n; e] /\ sorted_by older (put_list 9 n [e]).
Proof.
  split; [vm_compute; reflexivity|]. apply put_sorted; [repeat constructor|].
  intros e [->|[]%not_elem_of_nil]%elem_of_cons H. apply equals_iff in H as [H _]. discriminate H.
Defined.

(** The remaining operations of a bucket, [_update], [_removeIfBad],
    [_onTimeout], [_onSend], [_notifyOfResponse] and [updateRefreshTimer], keep
    the invariant as well. *)
Theorem bucket_operations_ok (now : Z) (e : SpE) (force : bool) (id : Id) (b : KBucket) :
  bucket_ok b ->
  bucket_ok (_update e b) /\ bucket_ok (_removeIfBad now e force b) /\ bucket_ok (_onTimeout now id b) /\
  bucket_ok (_onSend now id b) /\ bucket_ok (_notifyOfResponse now id b) /\ bucket_ok (updateRefreshTimer now b).
Proof.
  intros Hb. split_and!; [by apply update_ok|by apply remove_ok|by apply timeout_ok|by apply send_ok|by apply response_ok|done].
Qed.

Lemma bucket_operations_ok_witness :
  bucket_ok (_onTimeout 3 zero (KBucket_new 1 Prefix_all true)).
Proof.
  apply (bucket_operations_ok 3 (MkSp 1 (KBucketEntry_new 1 zero SA_unspec 0)) true zero).
  split_and!; [apply prefix_all_wf| |constructor]. split_and!; [simpl; lia|constructor..].
Defined.

(** A timeout removes at most the entry it is about, and only when that
    entry then has more than five failed requests and was not heard of for a
    quarter of an hour; the other entries do not change. *)
Theorem onTimeout_removal (now : Z) (id : Id) (b : KBucket) :
  entries_ok (entries b) ->
  entries (_onTimeout now id b) = entries b \/
  exists l1 e l2, entries b = l1 ++ e :: l2 /\ eid e = id /\
    let e' := signalRequestTimeout (obj e) in
    (entries (_onTimeout now id b) = l1 ++ MkSp (ptr e) e' :: l2 \/
     entries (_onTimeout now id b) = l1 ++ l2 /\
     Constants.KBUCKET_MAX_TIMEOUTS < failedRequests e' /\
     Constants.KBUCKET_OLD_AND_STALE_TIME < u64 (now - lastSeen (obj e))).
Proof.
  intros Hok. unfold _onTimeout. destruct (signal_first _ _ _) as [[r k]|] eqn:E; [|by left]. right.
  destruct (signal_first_Some _ _ _ _ _ E) as (l1 & e & l2 & El & Hid & -> & ->).
  exists l1, e, l2. split_and!; [done..|]. cbn [set_entries entries].
  unfold removeIfBad_list. case_if; [right|by left].
  rewrite El in Hok. pose proof Hok as (_ & _ & _ & Hp & Hr).
  apply Forall_app in Hr as [_ [Hr _]%Forall_cons].
  match goal with H : _ && _ = true |- _ => apply andb_true_iff in H as [Hn _] end. simpl in Hn.
  split.
  - rewrite update2_remove. apply (remove_ptr_cons (sp_map signalRequestTimeout e)).
    by rewrite fmap_app, fmap_cons in *.
  - apply needsReplacement_reachable in Hn; [done|]. by apply Hr.
Qed.

Lemma onTimeout_removal_witness :
  let e := MkSp 1 (MkEntry (MkNodeInfo zero SA_unspec 0) 0 0 0 true 5) in
  let b := set_entries (KBucket_new 1 Prefix_all true) [e] in
  entries_ok (entries b) /\
  (entries (_onTimeout 1000000 zero b) = [] -> 1000000 > Constants.KBUCKET_OLD_AND_STALE_TIME).
Proof.
  intros e b. assert (entries_ok (entries b)) as H.
  { subst b e. split_and!; [simpl; unfold Constants.MAX_ENTRIES_PER_BUCKET; lia|apply NoDup_singleton..|by repeat constructor]. }
  split; [exact H|]. intros _. destruct (onTimeout_removal 1000000 zero b H) as [_|_]; reflexivity.
Defined.
End KBucket.
