(* ===== verification/RoutingTables.v ===== *)
(** * The routing table: [RoutingTable] of [src/core/routing_table.h] and
    [src/core/routing_table.cc]

    The table is a list of buckets whose prefixes cut the key space into
    consecutive intervals ([tiles]).  A bucket is found by binary search
    ([indexOf]), a full bucket is split on insertion and sibling buckets are
    merged by the maintenance.  [table_ok] is the invariant of the table.

    [None] stands for reading outside a list or for a loop that has not ended
    when its fuel is used up; the theorems show that neither happens. *)

From S2P Require Import Prelude Constants Ids Prefixes Addresses Entries KBuckets.

Record RoutingTable := MkTable {
  buckets : list KBucket;
  next_ptr : positive;            (* the next free object address *)
  timeOfLastPingCheck : Z;
  maintenanceTasks : gset positive  (* buckets with a running ping task *)
}.

(** [list_get] *)
Definition list_get {A} (l : list A) (i : Z) : option A := if i <? 0 then None else l !! Z.to_nat i.

(** [list_removeAll] and [list_addAll] on buckets, by object. *)
Fixpoint erase_bucket (p : positive) (l : list KBucket) : list KBucket :=
  match l with
  | [] => []
  | b :: l' => if (b_ptr b =? p)%positive then l' else b :: erase_bucket p l'
  end.

Definition list_removeAll (l toRemove : list KBucket) : list KBucket :=
  foldl (fun l b => erase_bucket (b_ptr b) l) l toRemove.

Definition list_addAll (l toAdd : list KBucket) : list KBucket := foldl (fun l b => l ++ [b]) l toAdd.

(** A change of the bucket object at an address, seen by every holder. *)
Definition upd_bucket (p : positive) (f : KBucket -> KBucket) (l : list KBucket) : list KBucket :=
  (fun b => if (b_ptr b =? p)%positive then f b else b) <$> l.

(** The ping tasks of [task/ping_refresh_task.h], as far as the table starts
    them: their options, the bucket and the entries to ping. *)
Inductive Options := checkAll_opt | removeOnTimeout_opt | probeCache_opt.

#[export] Instance Options_eq_dec : EqDecision Options.
Proof. solve_decision. Defined.

Record PingRefreshTask := MkPing {
  pt_bucket : positive;
  todo : list SpE;
  checkAll : bool;
  probeCache : bool;
  removeOnTimeout : bool
}.

(** The constructor and [addBucket], which restarts the bucket's refresh timer. *)
Definition PingRefreshTask_new (now : Z) (bucket : KBucket) (options : list Options) : PingRefreshTask * KBucket :=
  let checkAll := bool_decide (checkAll_opt ∈ options) in
  let removeOnTimeout := bool_decide (removeOnTimeout_opt ∈ options) in
  let probeCache := bool_decide (probeCache_opt ∈ options) in
  (MkPing (b_ptr bucket)
     (filter (fun e => needsPing now (obj e) || checkAll || removeOnTimeout) (entries bucket))
     checkAll probeCache removeOnTimeout,
   KBucket.updateRefreshTimer now bucket).

Module RoutingTable.

#[local] Existing Instance KBucket.entries_ok_perm.

(** ** Definitions *)

Definition set_buckets (rt : RoutingTable) (l : list KBucket) : RoutingTable :=
  MkTable l (next_ptr rt) (timeOfLastPingCheck rt) (maintenanceTasks rt).

(** [RoutingTable::RoutingTable]: one home bucket for the whole key space. *)
Definition RoutingTable_new : RoutingTable :=
  MkTable [KBucket.KBucket_new 1 Prefix_all true] 2 0 ∅.

(** [RoutingTable::indexOf] *)
Fixpoint indexOf_loop (fuel : nat) (bs : list KBucket) (id : Id) (low high mid cmp : Z) : option Z :=
  match fuel with
  | O => None
  | S fuel =>
      if low <=? high then
        let mid := Z.shiftr (low + high) 1 in
        bucket ← list_get bs mid;
        let cmp := compareTo id (p_id (prefix bucket)) in
        if 0 <? cmp then indexOf_loop fuel bs id (mid + 1) high mid cmp
        else if cmp <? 0 then indexOf_loop fuel bs id low (mid - 1) mid cmp
        else Some mid
      else Some (if cmp <? 0 then mid - 1 else mid)
  end.

Definition indexOf (bs : list KBucket) (id : Id) : option Z :=
  indexOf_loop (S (length bs)) bs id 0 (Z.of_nat (length bs) - 1) 0 0.

Definition getBucket (rt : RoutingTable) (id : Id) : option KBucket :=
  i ← indexOf (buckets rt) id; list_get (buckets rt) i.

Definition getEntry (rt : RoutingTable) (id : Id) : option (option SpE) :=
  b ← getBucket rt id; Some (KBucket.get b id).

Definition all_entries (bs : list KBucket) : list SpE := bs ≫= entries.

Definition getNumBucketEntries (rt : RoutingTable) : Z :=
  foldl (fun num b => num + Z.of_nat (length (entries b))) 0 (buckets rt).

Section operations.
(** [dht.getNode().getId()] and the clock. *)
Variables (localId : Id) (now : Z).

Definition isHomeBucket (p : Prefix) : bool := isPrefixOf p localId.

Definition _needsSplit (bucket : KBucket) (newEntry : SpE) : bool :=
  if negb (isSplittable (prefix bucket)) || negb (KBucket.isFull bucket) || negb (reachable (obj newEntry))
     || KBucket.exists_ bucket (eid newEntry) || KBucket.b_needsReplacement now bucket
  then false
  else isPrefixOf (splitBranch (prefix bucket) true) (eid newEntry).

Definition bucket_before (a b : KBucket) : bool := compareTo (p_id (prefix a)) (p_id (prefix b)) <? 0.

Definition _modify (toRemove toAdd bs : list KBucket) : list KBucket :=
  let newBuckets := list_removeAll bs toRemove in
  let newBuckets := list_addAll newBuckets toAdd in
  sort_by bucket_before newBuckets.

(** The loop of [_split] over the entries of the bucket. *)
Definition distribute (l h : KBucket) (es : list SpE) : KBucket * KBucket :=
  foldl (fun '(l, h) e =>
    if isPrefixOf (prefix l) (eid e) then (KBucket._put now (Some e) l, h) else (l, KBucket._put now (Some e) h))
    (l, h) es.

Definition _split (bucket : KBucket) (rt : RoutingTable) : RoutingTable :=
  let pl := splitBranch (prefix bucket) false in
  let l := KBucket.KBucket_new (next_ptr rt) pl (isHomeBucket pl) in
  let ph := splitBranch (prefix bucket) true in
  let h := KBucket.KBucket_new (Pos.succ (next_ptr rt)) ph (isHomeBucket ph) in
  let '(l, h) := distribute l h (entries bucket) in
  MkTable (_modify [bucket] [l; h] (buckets rt)) (Pos.succ (Pos.succ (next_ptr rt)))
    (timeOfLastPingCheck rt) (maintenanceTasks rt).

(** [RoutingTable::_put]: every turn of the loop lowers the covering bucket by
    one level, so 257 turns are enough. *)
Fixpoint put_loop (fuel : nat) (entry : SpE) (rt : RoutingTable) : option RoutingTable :=
  match fuel with
  | O => None
  | S fuel =>
      bucket ← getBucket rt (eid entry);
      if _needsSplit bucket entry then put_loop fuel entry (_split bucket rt)
      else Some (set_buckets rt (upd_bucket (b_ptr bucket) (KBucket._put now (Some entry)) (buckets rt)))
  end.

Definition _put (entry : SpE) (rt : RoutingTable) : option RoutingTable := put_loop 257 entry rt.

Definition _remove (id : Id) (rt : RoutingTable) : option RoutingTable :=
  bucket ← getBucket rt id;
  match KBucket.get bucket id with
  | Some toRemove =>
      Some (set_buckets rt (upd_bucket (b_ptr bucket) (KBucket._removeIfBad now toRemove true) (buckets rt)))
  | None => Some rt
  end.

Definition _onTimeout (id : Id) (rt : RoutingTable) : option RoutingTable :=
  bucket ← getBucket rt id;
  Some (set_buckets rt (upd_bucket (b_ptr bucket) (KBucket._onTimeout now id) (buckets rt))).

Definition _onSend (id : Id) (rt : RoutingTable) : option RoutingTable :=
  bucket ← getBucket rt id;
  Some (set_buckets rt (upd_bucket (b_ptr bucket) (KBucket._onSend now id) (buckets rt))).

Definition _refreshOnly (toRefresh : SpE) (rt : RoutingTable) : option RoutingTable :=
  bucket ← getBucket rt (eid toRefresh);
  Some (set_buckets rt (upd_bucket (b_ptr bucket) (KBucket._update toRefresh) (buckets rt))).

(** [getEffectiveSize] of [_mergeBuckets] *)
Definition getEffectiveSize (b : KBucket) : nat :=
  length (filter (fun e => removableWithoutReplacement (obj e) = false) (entries b)).

Definition put_all (b : KBucket) (es : list SpE) : KBucket :=
  foldl (fun b e => KBucket._put now (Some e) b) b es.

Definition merge_pair (b1 b2 : KBucket) (rt : RoutingTable) : RoutingTable :=
  let parent := getParent (prefix b1) in
  let newBucket := KBucket.KBucket_new (next_ptr rt) parent (isHomeBucket parent) in
  let newBucket := put_all newBucket (entries b1) in
  let newBucket := put_all newBucket (entries b2) in
  MkTable (_modify [b1; b2] [newBucket] (buckets rt)) (Pos.succ (next_ptr rt))
    (timeOfLastPingCheck rt) (maintenanceTasks rt).

(** The loop of [_mergeBuckets]; [i] is the counter before its increment. *)
Fixpoint merge_loop (fuel : nat) (i : Z) (rt : RoutingTable) : option RoutingTable :=
  match fuel with
  | O => None
  | S fuel =>
      let i := i + 1 in
      if i <? 1 then merge_loop fuel i rt
      else if Z.of_nat (length (buckets rt)) <=? i then Some rt
      else
        b1 ← list_get (buckets rt) (i - 1);
        b2 ← list_get (buckets rt) i;
        if isSiblingOf (prefix b1) (prefix b2)
           && (getEffectiveSize b1 + getEffectiveSize b2 <=? Constants.MAX_ENTRIES_PER_BUCKET)%nat
        then merge_loop fuel (i - 2) (merge_pair b1 b2 rt)
        else merge_loop fuel i rt
  end.

Definition _mergeBuckets (rt : RoutingTable) : option RoutingTable :=
  merge_loop (3 * length (buckets rt) + 2) 0 rt.

(** [RoutingTable::tryPingMaintenance]; [None] in place of a task when one is
    running for the bucket. *)
Definition tryPingMaintenance (bucket : KBucket) (options : list Options) (rt : RoutingTable)
    : RoutingTable * option PingRefreshTask :=
  if bool_decide (b_ptr bucket ∈ maintenanceTasks rt) then (rt, None)
  else
    let '(task, bucket') := PingRefreshTask_new now bucket options in
    (MkTable (upd_bucket (b_ptr bucket) (fun _ => bucket') (buckets rt)) (next_ptr rt) (timeOfLastPingCheck rt)
       ({[b_ptr bucket]} ∪ maintenanceTasks rt),
     Some task).

(** The listener that [tryPingMaintenance] adds to the task. *)
Definition pingMaintenance_ended (task : PingRefreshTask) (rt : RoutingTable) : RoutingTable :=
  MkTable (buckets rt) (next_ptr rt) (timeOfLastPingCheck rt) (maintenanceTasks rt ∖ {[pt_bucket task]}).

Definition find_bucket (p : positive) (bs : list KBucket) : option KBucket :=
  List.find (fun b => (b_ptr b =? p)%positive) bs.

Section maintenance.
Variable bootstrapIds : list Id.

(** The body of the inner loop of [_maintenance].  When [put] splits a bucket
    it replaces the list that the outer loop runs over, which ends its
    iterators: [None]. *)
Definition maintain_entry (bp : positive) (wasFull : bool) (rt : RoutingTable) (entry : SpE) : option RoutingTable :=
  bucket ← find_bucket bp (buckets rt);
  let removed := set_buckets rt (upd_bucket bp (KBucket._removeIfBad now entry true) (buckets rt)) in
  if bool_decide (eid entry = localId) || (wasFull && bool_decide (eid entry ∈ bootstrapIds)) then Some removed
  else if negb (isPrefixOf (prefix bucket) (eid entry)) then
    rt' ← _put entry removed;
    if bool_decide (b_ptr <$> buckets rt' = b_ptr <$> buckets rt) then Some rt' else None
  else Some rt.

Fixpoint maintain_entries (bp : positive) (wasFull : bool) (es : list SpE) (rt : RoutingTable) : option RoutingTable :=
  match es with
  | [] => Some rt
  | e :: es => rt' ← maintain_entry bp wasFull rt e; maintain_entries bp wasFull es rt'
  end.

(** The outer loop, over the buckets of the list. *)
Fixpoint maintain_buckets (bps : list positive) (rt : RoutingTable) : option (RoutingTable * list PingRefreshTask) :=
  match bps with
  | [] => Some (rt, [])
  | bp :: bps =>
      bucket ← find_bucket bp (buckets rt);
      let wasFull := (Constants.MAX_ENTRIES_PER_BUCKET <=? length (entries bucket))%nat in
      rt1 ← maintain_entries bp wasFull (entries bucket) rt;
      bucket1 ← find_bucket bp (buckets rt1);
      let '(rt2, task) :=
        if KBucket.needsToBeRefreshed now bucket1 then tryPingMaintenance bucket1 [probeCache_opt] rt1
        else (rt1, None) in
      '(rt3, tasks) ← maintain_buckets bps rt2;
      Some (rt3, option_list task ++ tasks)
  end.

(** [RoutingTable::_maintenance]: the table and the ping tasks it starts. *)
Definition _maintenance (rt : RoutingTable) : option (RoutingTable * list PingRefreshTask) :=
  if u64 (now - timeOfLastPingCheck rt) <? Constants.ROUTING_TABLE_MAINTENANCE_INTERVAL then Some (rt, [])
  else
    let rt := MkTable (buckets rt) (next_ptr rt) now (maintenanceTasks rt) in
    rt ← _mergeBuckets rt;
    maintain_buckets (b_ptr <$> buckets rt) rt.
End maintenance.

(** [RoutingTable::fillBuckets]: the table and the ids looked up, for the
    [i]-th id that [Id::random()] returned. *)
Fixpoint fill_loop (random : nat -> Id) (i : nat) (bs : list KBucket) : list KBucket * list (Prefix * Id) :=
  match bs with
  | [] => ([], [])
  | b :: bs =>
      if (length (entries b) <? Constants.MAX_ENTRIES_PER_BUCKET)%nat then
        let '(bs', targets) := fill_loop random (S i) bs in
        (KBucket.updateRefreshTimer now b :: bs', (prefix b, createRandomId (prefix b) (random i)) :: targets)
      else
        let '(bs', targets) := fill_loop random i bs in (b :: bs', targets)
  end.

Definition fillBuckets (random : nat -> Id) (rt : RoutingTable) : RoutingTable * list (Prefix * Id) :=
  let '(bs, targets) := fill_loop random 0 (buckets rt) in (set_buckets rt bs, targets).

(** The loop of [RoutingTable::load] over the decoded entries, and the entries
    that [RoutingTable::save] writes. *)
Fixpoint load_entries (es : list SpE) (rt : RoutingTable) : option RoutingTable :=
  match es with
  | [] => Some rt
  | e :: es => rt' ← _put e rt; load_entries es rt'
  end.

Definition save_entries (rt : RoutingTable) : option (list SpE) :=
  if getNumBucketEntries rt =? 0 then None else Some (all_entries (buckets rt)).
End operations.

(** ** The invariant *)

(** [tiles s bs e]: the prefixes of the buckets are consecutive intervals that
    cover the ids from [s] up to [e]. *)
Fixpoint tiles (s : Z) (bs : list KBucket) (e : Z) : Prop :=
  match bs with
  | [] => s = e
  | b :: bs => prefix_wf (prefix b) /\ pval (prefix b) = s /\ tiles (s + psize (prefix b)) bs e
  end.

Definition bval (b : KBucket) : Z := pval (prefix b).

Lemma tiles_app (s e : Z) (l k : list KBucket) : tiles s (l ++ k) e <-> exists m, tiles s l m /\ tiles m k e.
Proof.
  revert s. induction l as [|b l IH]; intros s; simpl.
  - split; [eauto|]. by intros (m & -> & ?).
  - rewrite IH. naive_solver.
Qed.

Lemma tiles_le (s e : Z) (l : list KBucket) : tiles s l e -> s <= e.
Proof.
  revert s. induction l as [|b l IH]; simpl; intros s; [lia|].
  intros (Hw & _ & H%IH). pose proof (psize_pos _ Hw). lia.
Qed.

Lemma tiles_range (s e : Z) (l : list KBucket) (b : KBucket) :
  tiles s l e -> b ∈ l -> prefix_wf (prefix b) /\ s <= bval b /\ bval b + psize (prefix b) <= e.
Proof.
  intros Ht (l1 & l2 & ->)%list_elem_of_split. apply tiles_app in Ht as (m & H1 & H2 & H3 & H4).
  apply tiles_le in H1, H4. unfold bval. split; [done|lia].
Qed.

(** The buckets of a tiling are in strictly increasing order. *)
Lemma tiles_sorted (s e : Z) (l : list KBucket) :
  tiles s l e -> StronglySorted (fun x y => bval x < bval y) l.
Proof.
  revert s. induction l as [|b l IH]; simpl; intros s; [constructor|].
  intros (Hw & Hs & Ht). constructor; [by eapply IH|]. apply Forall_forall. intros y Hy.
  pose proof (tiles_range _ _ _ y Ht Hy). pose proof (psize_pos _ Hw). unfold bval in *. lia.
Qed.

Lemma tiles_inj (s e : Z) (l : list KBucket) (x y : KBucket) :
  tiles s l e -> x ∈ l -> y ∈ l -> bval x = bval y -> x = y.
Proof.
  revert s. induction l as [|b l IH]; simpl; intros s; [set_solver|].
  intros (Hw & Hs & Ht) Hx Hy E. pose proof (psize_pos _ Hw) as Hp.
  assert (forall z, z ∈ l -> bval b < bval z) as Hlt.
  { intros z Hz. pose proof (tiles_range _ _ _ z Ht Hz). unfold bval in *. lia. }
  apply elem_of_cons in Hx as [->|Hx], Hy as [->|Hy]; [done|..].
  - specialize (Hlt _ Hy). lia.
  - specialize (Hlt _ Hx). lia.
  - by eapply IH.
Qed.

(** ** Binary search *)

Lemma list_get_Some {A} (l : list A) (i : Z) (x : A) :
  list_get l i = Some x <-> 0 <= i /\ l !! Z.to_nat i = Some x.
Proof. unfold list_get. destruct (Z.ltb_spec i 0); [|tauto]. split; [done|]. intros []. lia. Qed.

Lemma list_get_range {A} (l : list A) (i : Z) :
  0 <= i < Z.of_nat (length l) -> exists x, list_get l i = Some x.
Proof.
  intros Hi. destruct (lookup_lt_is_Some_2 l (Z.to_nat i)) as [x Hx]; [lia|].
  exists x. apply list_get_Some. split; [lia|done].
Qed.

Lemma list_get_bound {A} (l : list A) (i : Z) (x : A) :
  list_get l i = Some x -> 0 <= i < Z.of_nat (length l).
Proof. intros [? H%lookup_lt_Some]%list_get_Some. lia. Qed.

Lemma bucket_order (s e : Z) (bs : list KBucket) (i j : Z) (x y : KBucket) :
  tiles s bs e -> list_get bs i = Some x -> list_get bs j = Some y -> i < j -> bval x < bval y.
Proof.
  intros Ht%tiles_sorted [? Hx]%list_get_Some [? Hy]%list_get_Some Hij.
  apply list_elem_of_split_length in Hx as (l1 & l2 & -> & Hl). rewrite lookup_app_r in Hy by lia.
  destruct (Z.to_nat j - length l1)%nat as [|k] eqn:Ek; [lia|]. simpl in Hy.
  apply StronglySorted_app in Ht as (_ & _ & [_ Ht]%StronglySorted_inv).
  rewrite Forall_forall in Ht. apply Ht. by eapply list_elem_of_lookup_2.
Qed.

Lemma indexOf_loop_correct (fuel : nat) (s e : Z) (bs : list KBucket) (id : Id) (low high mid cmp : Z) :
  tiles s bs e -> s <= id_val id ->
  0 <= low <= high + 1 -> high < Z.of_nat (length bs) -> (high - low + 1 < Z.of_nat fuel) ->
  (low <= high \/ (0 < cmp /\ mid = low - 1) \/ (cmp < 0 /\ mid - 1 = high)) ->
  (forall i b, list_get bs i = Some b -> i < low -> bval b < id_val id) ->
  (forall i b, list_get bs i = Some b -> high < i -> id_val id < bval b) ->
  exists r, indexOf_loop fuel bs id low high mid cmp = Some r /\ -1 <= r < Z.of_nat (length bs) /\
    (forall i b, list_get bs i = Some b -> i <= r -> bval b <= id_val id) /\
    (forall i b, list_get bs i = Some b -> r < i -> id_val id < bval b).
Proof.
  intros Ht Hs. revert low high mid cmp. induction fuel as [|fuel IH]; intros low high mid cmp Hl Hh Hf Hm Hlo Hhi; [lia|].
  simpl. destruct (Z.leb_spec low high) as [Hle|Hgt].
  - assert (low <= Z.shiftr (low + high) 1 <= high) as Hmid.
    { rewrite Z.shiftr_div_pow2 by lia. change (2 ^ 1) with 2. pose proof (Z.div_mod (low + high) 2 ltac:(lia)).
      pose proof (Z.mod_pos_bound (low + high) 2 ltac:(lia)). lia. }
    set (m := Z.shiftr (low + high) 1) in *.
    destruct (list_get_range bs m ltac:(lia)) as [b Hb]. rewrite Hb. simpl.
    rewrite compareTo_val. fold (pval (prefix b)). fold (bval b).
    destruct (Z.compare_spec (id_val id) (bval b)) as [E|Hlt|Hlt].
    + replace (Z.sgn (id_val id - bval b)) with 0 by (rewrite E, Z.sub_diag; done). simpl.
      exists m. split_and!; [done|lia..| |].
      * intros i x Hx Hi. destruct (decide (i = m)) as [->|]; [simplify_eq; lia|].
        pose proof (bucket_order s e bs i m x b Ht Hx Hb). lia.
      * intros i x Hx Hi. pose proof (bucket_order s e bs m i b x Ht Hb Hx). lia.
    + replace (Z.sgn (id_val id - bval b)) with (-1) by (symmetry; apply Z.sgn_neg; lia). simpl.
      apply IH; [lia..|done|].
      intros i x Hx Hi. destruct (decide (i = m)) as [->|]; [simplify_eq; lia|].
      pose proof (bucket_order s e bs m i b x Ht Hb Hx). lia.
    + replace (Z.sgn (id_val id - bval b)) with 1 by (symmetry; apply Z.sgn_pos; lia). simpl.
      apply IH; [lia..| |done].
      intros i x Hx Hi. destruct (decide (i = m)) as [->|]; [simplify_eq; lia|].
      pose proof (bucket_order s e bs i m x b Ht Hx Hb). lia.
  - exists high. assert (low = high + 1) as -> by lia. split_and!; [|lia..| |].
    + f_equal. destruct Hm as [?|[[? ->]|[? ?]]]; [lia|..]; destruct (Z.ltb_spec cmp 0); lia.
    + intros i x Hx Hi. pose proof (Hlo i x Hx). lia.
    + intros i x Hx Hi. apply (Hhi i x Hx). lia.
Qed.

(** In a tiling the binary search finds the one bucket that covers the id. *)
Lemma indexOf_correct (bs : list KBucket) (id : Id) :
  tiles 0 bs (2 ^ 256) ->
  exists r bs1 b bs2, indexOf bs id = Some r /\ list_get bs r = Some b /\ bs = bs1 ++ b :: bs2 /\ covers (prefix b) id.
Proof.
  intros Ht. pose proof (id_val_bound id) as B.
  assert (0 < length bs)%nat as Hlen. { destruct bs; simpl in *; [done|lia]. }
  destruct (indexOf_loop_correct (S (length bs)) 0 (2 ^ 256) bs id 0 (Z.of_nat (length bs) - 1) 0 0)
    as (r & Hr & Hb & Hlo & Hhi); [done|lia..| | |].
  { intros i b Hi%list_get_bound. lia. }
  { intros i b Hi%list_get_bound. lia. }
  destruct (list_get_range bs 0 ltac:(lia)) as [b0 Hb0].
  assert (0 <= r) as H0.
  { destruct (Z.lt_ge_cases r 0) as [?|?]; [|done]. specialize (Hhi 0 b0 Hb0 ltac:(lia)).
    destruct bs; [done|]. apply list_get_Some in Hb0 as [_ [= <-]]. simpl in Ht. unfold bval in *. lia. }
  destruct (list_get_range bs r ltac:(lia)) as [b Hrb]. pose proof Hrb as [_ Hn]%list_get_Some.
  apply list_elem_of_split_length in Hn as (bs1 & bs2 & -> & Hl).
  exists r, bs1, b, bs2. split_and!; [done..|]. specialize (Hlo r b Hrb ltac:(lia)). split; [done|].
  apply tiles_app in Ht as (m & _ & Hw & Hv & Ht). unfold bval in *. destruct bs2 as [|b2 bs2].
  - simpl in Ht. lia.
  - simpl in Ht. destruct Ht as (_ & Hv2 & _). rewrite Hv, <- Hv2. apply (Hhi (r + 1)); [|lia].
    apply list_get_Some. split; [lia|]. rewrite lookup_app_r by lia.
    replace (Z.to_nat (r + 1) - length bs1)%nat with 1%nat by lia. done.
Qed.

Lemma covers_unique (s e : Z) (bs1 bs2 : list KBucket) (b x : KBucket) (id : Id) :
  tiles s (bs1 ++ b :: bs2) e -> covers (prefix b) id -> x ∈ bs1 ++ b :: bs2 -> covers (prefix x) id -> x = b.
Proof.
  intros Ht Hb Hx Hc. apply tiles_app in Ht as (m & T1 & Hw & Hv & T2). unfold covers in *.
  apply elem_of_app in Hx as [Hx|[->|Hx]%elem_of_cons]; [|done|].
  - pose proof (tiles_range _ _ _ _ T1 Hx). unfold bval in *. lia.
  - pose proof (tiles_range _ _ _ _ T2 Hx). unfold bval in *. lia.
Qed.

(** ** Replacing a run of buckets *)

Lemma bucket_before_key (a b : KBucket) : bucket_before a b = ltb_key bval a b.
Proof.
  unfold bucket_before, ltb_key. rewrite compareTo_val. fold (pval (prefix a)) (pval (prefix b)).
  fold (bval a) (bval b). apply eq_bool_prop_intro. rewrite !Is_true_true, !Z.ltb_lt.
  pose proof (Z.sgn_spec (bval a - bval b)). lia.
Qed.

Lemma erase_bucket_perm (b : KBucket) (l1 l2 : list KBucket) :
  NoDup (b_ptr <$> l1 ++ b :: l2) -> erase_bucket (b_ptr b) (l1 ++ b :: l2) = l1 ++ l2.
Proof.
  induction l1 as [|x l1 IH]; simpl; [by rewrite Pos.eqb_refl|].
  rewrite NoDup_cons. intros [Hx Hn]. destruct (Pos.eqb_spec (b_ptr x) (b_ptr b)) as [E|_].
  - exfalso. apply Hx. rewrite E. apply list_elem_of_fmap_2. set_solver.
  - f_equal. by apply IH.
Qed.

Lemma list_removeAll_run (l1 mid l2 : list KBucket) :
  NoDup (b_ptr <$> l1 ++ mid ++ l2) -> list_removeAll (l1 ++ mid ++ l2) mid = l1 ++ l2.
Proof.
  revert l1. induction mid as [|b mid IH]; intros l1; [done|]. simpl. intros Hn.
  rewrite erase_bucket_perm by done. apply IH.
  eapply sublist_NoDup; [exact Hn|]. apply fmap_sublist, sublist_app; [done|by constructor].
Qed.

Lemma list_addAll_app (l k : list KBucket) : list_addAll l k = l ++ k.
Proof.
  unfold list_addAll. revert l. induction k as [|b k IH]; intros l; simpl; [by rewrite app_nil_r|].
  by rewrite IH, <- app_assoc.
Qed.

(** When the run [mid] is replaced by buckets that tile the same interval,
    sorting puts the new buckets where the old ones were. *)
Lemma modify_run (l1 mid mid' l2 : list KBucket) (s e : Z) :
  NoDup (b_ptr <$> l1 ++ mid ++ l2) -> tiles s (l1 ++ mid' ++ l2) e ->
  _modify mid mid' (l1 ++ mid ++ l2) = l1 ++ mid' ++ l2.
Proof.
  intros Hn Ht. unfold _modify. rewrite list_removeAll_run, list_addAll_app by done.
  rewrite (sort_by_ext _ (ltb_key bval)) by apply bucket_before_key.
  assert (sort_by (ltb_key bval) ((l1 ++ l2) ++ mid') ≡ₚ l1 ++ mid' ++ l2) as Hp.
  { rewrite sort_by_perm, <- app_assoc. by rewrite (Permutation_app_comm l2). }
  apply (sorted_key_unique bval); [|done|apply (sort_by_sorted (ltb_key bval))|].
  - intros x y. rewrite Hp. by apply (tiles_inj s e).
  - by eapply sorted_by_strict, tiles_sorted.
Qed.

Section invariant.
Variable localId : Id.

Definition bucket_home_ok (b : KBucket) : Prop :=
  KBucket.bucket_ok b /\ homeBucket b = isHomeBucket localId (prefix b).

(** The invariant of the table, for the buckets and the next free address. *)
Definition buckets_ok (np : positive) (bs : list KBucket) : Prop :=
  tiles 0 bs (2 ^ 256) /\ Forall bucket_home_ok bs /\
  NoDup (b_ptr <$> bs) /\ Forall (fun b => b_ptr b < np)%positive bs /\
  NoDup (ptr <$> all_entries bs).

Definition table_ok (rt : RoutingTable) : Prop := buckets_ok (next_ptr rt) (buckets rt).

Lemma all_entries_app (l k : list KBucket) : all_entries (l ++ k) = all_entries l ++ all_entries k.
Proof. apply bind_app. Qed.

Lemma buckets_ok_splice (np np' : positive) (l1 mid mid' l2 : list KBucket) :
  buckets_ok np (l1 ++ mid ++ l2) ->
  (forall s e, tiles s mid e -> tiles s mid' e) ->
  Forall bucket_home_ok mid' ->
  NoDup (b_ptr <$> mid') -> (np <= np')%positive ->
  Forall (fun b => b_ptr b ∈ b_ptr <$> mid \/ (np <= b_ptr b < np')%positive) mid' ->
  NoDup (ptr <$> all_entries mid') ->
  (forall p, p ∈ ptr <$> all_entries mid' -> p ∈ ptr <$> all_entries mid \/
     p ∉ ptr <$> all_entries (l1 ++ mid ++ l2)) ->
  buckets_ok np' (l1 ++ mid' ++ l2).
Proof.
  intros (Ht & Hb & Hn & Hp & He) Hm Hb' Hn' Hnp Hp' He' Hs. unfold buckets_ok.
  rewrite !Forall_app in Hb, Hp. destruct Hb as (? & _ & ?), Hp as (P1 & P2 & P3).
  rewrite !all_entries_app, !fmap_app, !NoDup_app in *.
  setoid_rewrite elem_of_app in Hs. setoid_rewrite elem_of_app in Hn. setoid_rewrite elem_of_app in He.
  setoid_rewrite elem_of_app. rewrite Forall_forall in Hp'.
  assert (forall l p, Forall (fun b => b_ptr b < np)%positive l -> p ∈ b_ptr <$> l -> (p < np)%positive) as Hlt.
  { intros l p Hl (b & -> & ?)%list_elem_of_fmap. rewrite Forall_forall in Hl. auto. }
  assert (forall p, p ∈ b_ptr <$> mid' -> p ∈ b_ptr <$> mid \/ (np <= p)%positive) as Hin.
  { intros p (b & -> & ?)%list_elem_of_fmap. destruct (Hp' b) as [?|[??]]; auto. }
  split_and!.
  - apply tiles_app in Ht as (a & T1 & (c & T2 & T3)%tiles_app). apply tiles_app. exists a. split; [done|].
    apply tiles_app. exists c. auto.
  - by rewrite !Forall_app.
  - apply Hn.
  - intros p H1 [H2|H2]; [|by apply (proj1 (proj2 Hn) p H1); right].
    destruct (Hin p H2) as [H3|H3]; [by apply (proj1 (proj2 Hn) p H1); left|].
    specialize (Hlt l1 p P1 H1). lia.
  - done.
  - intros p H2 H1. destruct (Hin p H2) as [H3|H3]; [by apply (proj1 (proj2 (proj2 (proj2 Hn))) p H3)|].
    specialize (Hlt l2 p P3 H1). lia.
  - apply Hn.
  - rewrite !Forall_app. split_and!.
    + apply (Forall_impl _ _ _ P1). lia.
    + apply Forall_forall. intros b Hbm. destruct (Hp' b Hbm) as [H4|H4]; [|lia].
      specialize (Hlt mid _ P2 H4). lia.
    + apply (Forall_impl _ _ _ P3). lia.
  - apply He.
  - intros p H1 [H2|H2]; [|by apply (proj1 (proj2 He) p H1); right].
    destruct (Hs p H2) as [H3|H3]; [by apply (proj1 (proj2 He) p H1); left|set_solver].
  - done.
  - intros p H2 H1. destruct (Hs p H2) as [H3|H3]; [by apply (proj1 (proj2 (proj2 (proj2 He))) p H3)|set_solver].
  - apply He.
Qed.
End invariant.

Section operations_ok.
Variables (localId : Id) (now : Z).
Implicit Types (rt : RoutingTable) (b : KBucket) (l : list KBucket) (n : SpE).

Lemma upd_bucket_run l1 l2 b (f : KBucket -> KBucket) :
  NoDup (b_ptr <$> l1 ++ b :: l2) -> upd_bucket (b_ptr b) f (l1 ++ b :: l2) = l1 ++ f b :: l2.
Proof.
  intros Hn. rewrite fmap_app, fmap_cons, NoDup_app, NoDup_cons in Hn. destruct Hn as (_ & H1 & H2 & _).
  assert (forall l, b_ptr b ∉ b_ptr <$> l -> upd_bucket (b_ptr b) f l = l) as Hid.
  { intros l Hl. induction l as [|x l IH]; [done|]. rewrite fmap_cons, not_elem_of_cons in Hl.
    destruct Hl as [Hx Hl]. simpl. destruct (Pos.eqb_spec (b_ptr x) (b_ptr b)); [by destruct Hx|].
    f_equal. by apply IH. }
  unfold upd_bucket. rewrite fmap_app, fmap_cons, Pos.eqb_refl.
  fold (upd_bucket (b_ptr b) f l1) (upd_bucket (b_ptr b) f l2). rewrite !Hid; [done|done|].
  intros Hin. apply (H1 _ Hin). by left.
Qed.

Definition frame b b' : Prop := b_ptr b' = b_ptr b /\ prefix b' = prefix b /\ homeBucket b' = homeBucket b.

(** One bucket changes in place. *)
Lemma buckets_ok_update (np : positive) l1 l2 b b' :
  buckets_ok localId np (l1 ++ b :: l2) -> frame b b' -> KBucket.bucket_ok b' ->
  (forall x, x ∈ entries b' -> ptr x ∈ ptr <$> entries b \/ ptr x ∉ ptr <$> all_entries (l1 ++ b :: l2)) ->
  buckets_ok localId np (l1 ++ b' :: l2).
Proof.
  intros Hok (F1 & F2 & F3) Hb Hp. apply (buckets_ok_splice localId np np l1 [b] [b'] l2); try done.
  - simpl. by rewrite F2.
  - constructor; [|done]. split; [done|]. destruct Hok as (_ & H & _).
    apply Forall_app in H as [_ [[_ H] _]%Forall_cons]. by rewrite F3, F2.
  - apply NoDup_singleton.
  - constructor; [left; rewrite F1; by apply list_elem_of_singleton|done].
  - unfold all_entries. simpl. rewrite app_nil_r. apply Hb.
  - unfold all_entries at 1 2. simpl. rewrite !app_nil_r. intros p (x & -> & Hx)%list_elem_of_fmap. by apply Hp.
Qed.

(** Finding the bucket of an id in a table. *)
Lemma getBucket_correct rt (id : Id) :
  table_ok localId rt -> exists l1 b l2,
    getBucket rt id = Some b /\ buckets rt = l1 ++ b :: l2 /\ covers (prefix b) id /\
    KBucket.bucket_ok b /\ (forall x, x ∈ buckets rt -> covers (prefix x) id -> x = b).
Proof.
  intros (Ht & Hb & _). destruct (indexOf_correct (buckets rt) id Ht) as (r & l1 & b & l2 & Hi & Hg & El & Hc).
  exists l1, b, l2. unfold getBucket. rewrite Hi. split_and!; [done..| |].
  - rewrite El in Hb. by apply Forall_app in Hb as [_ [[H _] _]%Forall_cons].
  - intros x. rewrite El in *. by eapply covers_unique.
Qed.

Lemma all_entries_elem (l : list KBucket) (e : SpE) : e ∈ all_entries l <-> exists b, b ∈ l /\ e ∈ entries b.
Proof. unfold all_entries. rewrite list_elem_of_bind. naive_solver. Qed.

(** An entry sits in the bucket that covers its id. *)
Lemma entry_bucket rt (id : Id) (e : SpE) l1 b l2 :
  table_ok localId rt -> buckets rt = l1 ++ b :: l2 -> covers (prefix b) id -> e ∈ all_entries (buckets rt) ->
  eid e = id -> e ∈ entries b /\ e ∉ all_entries (l1 ++ l2).
Proof.
  intros (Ht & Hb & Hn & _ & Hp) El Hc He <-. rewrite El in *. apply all_entries_elem in He as (x & Hx & He).
  assert (x = b) as ->.
  { eapply covers_unique; [exact Ht|exact Hc|exact Hx|]. rewrite Forall_forall in Hb.
    destruct (Hb x Hx) as [(_ & _ & H) _]. rewrite Forall_forall in H. auto. }
  split; [done|]. intros H. apply all_entries_elem in H as (y & Hy & Hey).
  assert (y = b) as ->.
  { eapply covers_unique; [exact Ht|exact Hc|set_solver|]. rewrite Forall_forall in Hb.
    destruct (Hb y) as [(_ & _ & H) _]; [set_solver|]. rewrite Forall_forall in H. auto. }
  rewrite fmap_app, fmap_cons, NoDup_app, NoDup_cons in Hn. destruct Hn as (_ & H1 & H2 & _).
  apply elem_of_app in Hy as [Hy|Hy]; [eapply (H1 (b_ptr b)); [|left]|apply H2]; by apply list_elem_of_fmap_2.
Qed.
End operations_ok.

Section split_put.
Variables (localId : Id) (now : Z).
Implicit Types (rt : RoutingTable) (b : KBucket) (n : SpE).

(** The loop of [_split] sorts the entries into the two branches. *)
Lemma distribute_perm (es : list SpE) b1 b2 :
  KBucket.entries_ok (es ++ entries b1 ++ entries b2) ->
  exists e1 e2, distribute now b1 b2 es = (KBucket.set_entries b1 e1, KBucket.set_entries b2 e2) /\
    e1 ++ e2 ≡ₚ es ++ entries b1 ++ entries b2 /\
    (forall x, x ∈ e1 -> x ∈ entries b1 \/ x ∈ es /\ isPrefixOf (prefix b1) (eid x) = true) /\
    (forall x, x ∈ e2 -> x ∈ entries b2 \/ x ∈ es /\ isPrefixOf (prefix b1) (eid x) = false).
Proof.
  revert b1 b2. induction es as [|e es IH]; intros b1 b2 Hok.
  { exists (entries b1), (entries b2). destruct b1, b2. simpl in *. by split_and!; [..|auto|auto]. }
  assert (KBucket.entries_ok (e :: entries b1)) as H1.
  { eapply KBucket.entries_ok_sublist; [|exact Hok]. simpl. constructor.
    apply sublist_inserts_l, sublist_inserts_r. done. }
  assert (KBucket.entries_ok (e :: entries b2)) as H2.
  { eapply KBucket.entries_ok_sublist; [|exact Hok]. simpl. constructor.
    by apply sublist_inserts_l, sublist_inserts_l. }
  apply (KBucket.put_list_room now) in H1, H2.
  cbn [distribute foldl]. unfold distribute in IH. destruct (isPrefixOf (prefix b1) (eid e)) eqn:E.
  - destruct (IH (KBucket._put now (Some e) b1) b2) as (e1 & e2 & -> & Hp & K1 & K2).
    { simpl. rewrite H1. eapply KBucket.entries_ok_perm; [|exact Hok]. simpl. by rewrite <- ?Permutation_middle. }
    exists e1, e2. split_and!; [done| | |].
    + rewrite Hp. simpl. rewrite H1. simpl. by rewrite <- Permutation_middle.
    + simpl in K1. intros x Hx. destruct (K1 x Hx) as [Hl|Hl]; [rewrite H1 in Hl|]; set_solver.
    + simpl in K2. intros x Hx. destruct (K2 x Hx); set_solver.
  - destruct (IH b1 (KBucket._put now (Some e) b2)) as (e1 & e2 & -> & Hp & K1 & K2).
    { simpl. rewrite H2. eapply KBucket.entries_ok_perm; [|exact Hok]. simpl. by rewrite <- ?Permutation_middle. }
    exists e1, e2. split_and!; [done| | |].
    + rewrite Hp. simpl. rewrite H2. simpl. by rewrite <- !Permutation_middle.
    + simpl in K1. intros x Hx. destruct (K1 x Hx); set_solver.
    + simpl in K2. intros x Hx. destruct (K2 x Hx) as [Hl|Hl]; [rewrite H2 in Hl|]; set_solver.
Qed.

(** [_split] puts the two branches in the place of the bucket and moves
    every entry into one of them. *)
Lemma split_ok rt l1 b l2 :
  table_ok localId rt -> buckets rt = l1 ++ b :: l2 -> isSplittable (prefix b) = true ->
  exists bl bh, buckets (_split localId now b rt) = l1 ++ bl :: bh :: l2 /\
    prefix bl = splitBranch (prefix b) false /\ prefix bh = splitBranch (prefix b) true /\
    entries bl ++ entries bh ≡ₚ entries b /\ table_ok localId (_split localId now b rt).
Proof.
  intros Hok El Hs. pose proof Hok as (Ht & Hb & Hn & Hp & He). rewrite El in *.
  apply Forall_app in Hb as [_ [[(Hw & Heo & Hc) _] _]%Forall_cons].
  set (bl := KBucket.KBucket_new (next_ptr rt) (splitBranch (prefix b) false)
    (isHomeBucket localId (splitBranch (prefix b) false))).
  set (bh := KBucket.KBucket_new (Pos.succ (next_ptr rt)) (splitBranch (prefix b) true)
    (isHomeBucket localId (splitBranch (prefix b) true))).
  assert (prefix bl = splitBranch (prefix b) false) as Pl by (apply KBucket.KBucket_new_prefix; by apply splitBranch_wf).
  assert (prefix bh = splitBranch (prefix b) true) as Ph by (apply KBucket.KBucket_new_prefix; by apply splitBranch_wf).
  destruct (distribute_perm (entries b) bl bh) as (e1 & e2 & Ed & Hperm & K1 & K2).
  { simpl. by rewrite app_nil_r. }
  simpl in Hperm. rewrite app_nil_r in Hperm.
  destruct (KBucket.split_entries_ok b e1 e2 (conj Hw (conj Heo Hc)) Hs Hperm) as [B1 B2].
  { intros x Hx. rewrite <- Pl. by destruct (K1 x Hx) as [[]%not_elem_of_nil|[_ H]]. }
  { intros x Hx. rewrite <- Pl. by destruct (K2 x Hx) as [[]%not_elem_of_nil|[_ H]]. }
  assert (forall s e, tiles s [b] e -> tiles s [KBucket.set_entries bl e1; KBucket.set_entries bh e2] e) as Htile.
  { cbn [tiles KBucket.set_entries prefix]. rewrite Pl, Ph. intros s e (_ & Hv & Hse). apply Z.ltb_lt in Hs as Hs'. unfold ID_BITS in Hs'.
    destruct (splitBranch_val (prefix b) false Hw ltac:(lia)) as (_ & V0 & S0).
    destruct (splitBranch_val (prefix b) true Hw ltac:(lia)) as (_ & V1 & S1).
    pose proof Hw as [Hd _].
    assert (psize (prefix b) = 2 * (psize (prefix b) / 2)) as Ep by (rewrite psize_half, (Z.mul_comm 2), Z.div_mul; lia).
    split_and!; [by apply splitBranch_wf|lia|by apply splitBranch_wf|lia|lia]. }
  assert (all_entries [KBucket.set_entries bl e1; KBucket.set_entries bh e2] = e1 ++ e2) as Ea
    by (unfold all_entries; simpl; by rewrite app_nil_r).
  assert (buckets_ok localId (Pos.succ (Pos.succ (next_ptr rt)))
    (l1 ++ [KBucket.set_entries bl e1; KBucket.set_entries bh e2] ++ l2)) as Hok'.
  { apply (buckets_ok_splice localId (next_ptr rt) _ l1 [b]); [unfold table_ok in Hok; by rewrite El in Hok|done|..].
    - rewrite !Forall_cons, Forall_nil. split_and!; [split; [by apply B1|exact (f_equal _ (eq_sym Pl))]| |done].
      split; [by apply B2|exact (f_equal _ (eq_sym Ph))].
    - apply NoDup_cons. split; [|apply NoDup_singleton]. simpl. rewrite list_elem_of_singleton. lia.
    - lia.
    - rewrite !Forall_cons, Forall_nil. simpl. split_and!; [right; lia..|done].
    - rewrite Ea, Hperm. apply Heo.
    - intros p. rewrite Ea, Hperm. left. unfold all_entries. simpl. by rewrite app_nil_r. }
  assert (buckets (_split localId now b rt) = l1 ++ [KBucket.set_entries bl e1; KBucket.set_entries bh e2] ++ l2) as Eb.
  { unfold _split. fold bl bh. rewrite Ed. cbn [buckets]. rewrite El.
    apply (modify_run l1 [b] _ l2 0 (2 ^ 256)); [done|]. apply Hok'. }
  exists (KBucket.set_entries bl e1), (KBucket.set_entries bh e2). split_and!; try done.
  unfold table_ok. rewrite Eb. unfold _split. fold bl bh. by rewrite Ed.
Qed.
End split_put.

Section put_correct.
Variables (localId : Id) (now : Z).
Implicit Types (rt : RoutingTable) (b : KBucket) (n : SpE).

Lemma set_buckets_ok rt l1 b b' l2 :
  table_ok localId rt -> buckets rt = l1 ++ b :: l2 -> frame b b' -> KBucket.bucket_ok b' ->
  (forall x, x ∈ entries b' -> ptr x ∈ ptr <$> entries b \/ ptr x ∉ ptr <$> all_entries (buckets rt)) ->
  buckets_ok localId (next_ptr rt) (l1 ++ b' :: l2).
Proof. intros Hok El. unfold table_ok in *. rewrite El in *. by apply buckets_ok_update. Qed.

Lemma put_loop_correct (fuel : nat) n rt l1 b l2 :
  table_ok localId rt -> ptr n ∉ ptr <$> all_entries (buckets rt) ->
  getBucket rt (eid n) = Some b -> buckets rt = l1 ++ b :: l2 -> covers (prefix b) (eid n) ->
  255 - depth (prefix b) < Z.of_nat fuel ->
  exists rt' k1 b' k2, put_loop localId now fuel n rt = Some rt' /\
    all_entries (k1 ++ b' :: k2) ≡ₚ all_entries (buckets rt) /\
    buckets rt' = k1 ++ KBucket._put now (Some n) b' :: k2 /\ table_ok localId rt' /\
    covers (prefix b') (eid n) /\ KBucket.bucket_ok b'.
Proof.
  revert rt l1 b l2. induction fuel as [|fuel IH]; intros rt l1 b l2 Hok Hn Hg El Hc Hf.
  { pose proof Hok as (Ht & _). rewrite El in Ht. apply tiles_app in Ht as (m & _ & [Hd _] & _). lia. }
  simpl. rewrite Hg. simpl. pose proof Hok as (Ht & Hb & Hnd & _). rewrite El in Hb.
  apply Forall_app in Hb as [_ [[Hb _] _]%Forall_cons]. destruct (_needsSplit now b n) eqn:Es.
  - assert (isSplittable (prefix b) = true) as Hs.
    { unfold _needsSplit in Es. by destruct (isSplittable (prefix b)). }
    destruct (split_ok localId now rt l1 b l2 Hok El Hs) as (bl & bh & Eb & Pl & Ph & Hp & Hok').
    assert (all_entries (buckets (_split localId now b rt)) ≡ₚ all_entries (buckets rt)) as Ha.
    { rewrite Eb, El, !all_entries_app. simpl. by rewrite <- Hp, <- !app_assoc. }
    destruct (getBucket_correct localId _ (eid n) Hok') as (k1 & x & k2 & Gx & Ex & Cx & Bx & Ux).
    apply isPrefixOf_interval in Hc as Hi; [|apply Hb].
    assert (depth (prefix x) = depth (prefix b) + 1) as Hd.
    { apply Z.ltb_lt in Hs as Hs'. unfold ID_BITS in Hs'.
      destruct (isPrefixOf (splitBranch (prefix b) false) (eid n)) eqn:E.
      - assert (x = bl) as ->; [symmetry; apply Ux|rewrite Pl; apply splitBranch_val; [apply Hb|lia]].
        + rewrite Eb. set_solver.
        + rewrite Pl. apply isPrefixOf_interval in E; [done|]. apply splitBranch_wf; [apply Hb|done].
      - assert (x = bh) as ->; [symmetry; apply Ux|rewrite Ph; apply splitBranch_val; [apply Hb|lia]].
        + rewrite Eb. set_solver.
        + rewrite Ph. apply branch_other in E; [|apply Hb|done|done].
          apply isPrefixOf_interval in E; [done|]. apply splitBranch_wf; [apply Hb|done]. }
    destruct (IH _ k1 x k2 Hok') as (rt' & j1 & b' & j2 & H1 & H2 & H3 & H4 & H5 & H6); [by rewrite Ha|done..|lia|].
    exists rt', j1, b', j2. split_and!; try done. by rewrite H2.
  - eexists _, l1, b, l2. split_and!; [reflexivity|by rewrite El| | |done|done].
    + simpl. rewrite El. rewrite El in Hnd. by apply upd_bucket_run.
    + rewrite El. rewrite El in Hnd. rewrite upd_bucket_run by done. unfold KBucket._put.
      apply (set_buckets_ok rt l1 b _ l2); [done..| |].
      * apply (KBucket.put_ok now n b); [done..|]. apply Forall_forall. intros e He E. exfalso. apply Hn.
        rewrite <- E. apply list_elem_of_fmap_2, all_entries_elem. exists b. rewrite El. set_solver.
      * intros x Hx. destruct Hb as (_ & Heo & _).
        destruct (KBucket.put_list_elem now n x (entries b) Heo Hx) as [->|(e & He & -> & _)]; [by right|left].
        by apply list_elem_of_fmap_2.
Qed.

Lemma put_correct n rt :
  table_ok localId rt -> ptr n ∉ ptr <$> all_entries (buckets rt) ->
  exists rt' k1 b' k2, _put localId now n rt = Some rt' /\
    all_entries (k1 ++ b' :: k2) ≡ₚ all_entries (buckets rt) /\
    buckets rt' = k1 ++ KBucket._put now (Some n) b' :: k2 /\ table_ok localId rt' /\
    covers (prefix b') (eid n) /\ KBucket.bucket_ok b'.
Proof.
  intros Hok Hn. destruct (getBucket_correct localId rt (eid n) Hok) as (l1 & b & l2 & Hg & El & Hc & Hb & _).
  apply (put_loop_correct 257 n rt l1 b l2); try done. destruct Hb as ([Hd _] & _). lia.
Qed.

(** An id occurs in one bucket only. *)
Lemma other_buckets rt l1 b l2 (id : Id) :
  table_ok localId rt -> buckets rt = l1 ++ b :: l2 -> covers (prefix b) id ->
  Forall (fun e => eid e <> id) (all_entries (l1 ++ l2)).
Proof.
  intros Hok El Hc. apply Forall_forall. intros e He E.
  assert (e ∈ all_entries (buckets rt)) as Hin.
  { rewrite El. rewrite all_entries_app in *. simpl. set_solver. }
  by destruct (entry_bucket localId rt id e l1 b l2 Hok El Hc Hin E).
Qed.
End put_correct.

Section merge_correct.
Variables (localId : Id) (now : Z).
Implicit Types (rt : RoutingTable) (b : KBucket) (n : SpE).

(** Putting the entries of other buckets into a bucket never adds anything
    else, and keeps the bucket's invariant. *)
Lemma put_all_ok (es : list SpE) b :
  KBucket.bucket_ok b -> Forall (fun e => covers (prefix b) (eid e)) es ->
  NoDup (eid <$> entries b ++ es) -> NoDup (ptr <$> entries b ++ es) ->
  exists es', put_all now b es = KBucket.set_entries b es' /\
    KBucket.bucket_ok (KBucket.set_entries b es') /\ (forall x, x ∈ es' -> x ∈ entries b ++ es).
Proof.
  revert b. induction es as [|n es IH]; intros b Hb Hc Hi Hp.
  { exists (entries b). rewrite app_nil_r. destruct b; done. }
  apply Forall_cons in Hc as [Hn Hc]. pose proof Hb as (_ & Heo & _).
  assert (forall x, x ∈ KBucket.put_list now n (entries b) -> x ∈ n :: entries b) as Hin.
  { rewrite fmap_app, fmap_cons, NoDup_app in Hi. destruct Hi as (_ & Hi & _). intros x.
    destruct (KBucket.put_list_result now n (entries b) Heo) as
      [k1 e k2 El He|e _ _ _|_ _|l' _ _ _ ->|k1 e k2 l' _ _ -> -> _ _|_ _ _ _]; [|set_solver..].
    apply equals_iff in He as [He _]. exfalso. apply (Hi (eid e)); [|unfold eid at 1; rewrite He; left].
    rewrite El. apply list_elem_of_fmap_2. set_solver. }
  assert (KBucket.bucket_ok (KBucket._put now (Some n) b)) as Hb'.
  { apply KBucket.put_ok; [done..|]. apply Forall_forall. intros e He E. exfalso.
    rewrite fmap_app, fmap_cons, NoDup_app in Hp. destruct Hp as (_ & Hp & _).
    apply (Hp (ptr e)); [by apply list_elem_of_fmap_2|rewrite E; left]. }
  assert (NoDup (eid <$> entries (KBucket._put now (Some n) b) ++ es) /\
          NoDup (ptr <$> entries (KBucket._put now (Some n) b) ++ es)) as [Hi' Hp'].
  { pose proof Hb' as (_ & (_ & N1 & _ & N2 & _) & _).
    assert (forall {B} (f : SpE -> B), NoDup (f <$> entries b ++ n :: es) -> NoDup (f <$> KBucket.put_list now n (entries b)) ->
      NoDup (f <$> KBucket.put_list now n (entries b) ++ es)) as Hgen; [|split; by apply Hgen].
    intros B f Hf Hf'. rewrite fmap_app, NoDup_app. rewrite fmap_app, fmap_cons, NoDup_app, NoDup_cons in Hf.
    destruct Hf as (_ & F1 & F2 & F3). split_and!; [done| |done].
    intros y (x & -> & [->|Hx]%Hin%elem_of_cons)%list_elem_of_fmap; [done|].
    intros H. apply (F1 (f x)); [by apply list_elem_of_fmap_2|by right]. }
  destruct (IH (KBucket._put now (Some n) b) Hb' Hc Hi' Hp') as (es' & E & Hb2 & Hs).
  exists es'. split_and!; [exact E|exact Hb2|].
  intros x Hx. specialize (Hs x Hx). simpl in Hs. apply elem_of_app in Hs as [Hs|Hs]; [apply Hin in Hs|]; set_solver.
Qed.

Lemma put_all_app b es1 es2 : put_all now (put_all now b es1) es2 = put_all now b (es1 ++ es2).
Proof. unfold put_all. by rewrite foldl_app. Qed.

Lemma tiles_disjoint s e l1 b l2 (x y : SpE) :
  tiles s (l1 ++ b :: l2) e -> Forall KBucket.bucket_ok (l1 ++ b :: l2) ->
  x ∈ entries b -> y ∈ all_entries l2 -> id_val (eid x) < id_val (eid y).
Proof.
  intros Ht Hb Hx Hy. apply all_entries_elem in Hy as (c & Hc & Hy).
  apply Forall_app in Hb as [_ [(_ & _ & Hb) Hb2]%Forall_cons]. rewrite Forall_forall in Hb. rewrite Forall_forall in Hb2.
  destruct (Hb2 c Hc) as (_ & _ & Hcc). rewrite Forall_forall in Hcc.
  specialize (Hb x Hx). specialize (Hcc y Hy). apply tiles_app in Ht as (m & _ & Hw & Hv & T2).
  pose proof (tiles_range _ _ _ _ T2 Hc). unfold covers, bval in *. lia.
Qed.

(** Merging two neighbouring siblings. *)
Lemma merge_pair_ok rt l1 b1 b2 l2 :
  table_ok localId rt -> buckets rt = l1 ++ b1 :: b2 :: l2 -> isSiblingOf (prefix b1) (prefix b2) = true ->
  exists nb, buckets (merge_pair localId now b1 b2 rt) = l1 ++ nb :: l2 /\
    prefix nb = getParent (prefix b1) /\ (forall x, x ∈ entries nb -> x ∈ entries b1 ++ entries b2) /\
    table_ok localId (merge_pair localId now b1 b2 rt).
Proof.
  intros Hok El Hs. pose proof Hok as (Ht & Hb & Hn & Hp & He). rewrite El in *.
  apply tiles_app in Ht as Ht'. destruct Ht' as (m & _ & W1 & V1 & W2 & V2 & _).
  pose proof (psize_pos _ W1) as Hp1.
  destruct (sibling_halves _ _ W1 W2 Hs ltac:(lia)) as (D1 & D2 & _ & G1 & G2 & G3).
  assert (psize (prefix b2) = psize (prefix b1)) as Es by (unfold psize; congruence).
  pose proof (getParent_wf _ W1) as Wg.
  set (nb := KBucket.KBucket_new (next_ptr rt) (getParent (prefix b1)) (isHomeBucket localId (getParent (prefix b1)))).
  assert (prefix nb = getParent (prefix b1)) as Pn by (by apply KBucket.KBucket_new_prefix).
  assert (Forall KBucket.bucket_ok (l1 ++ b1 :: b2 :: l2)) as Hb0 by (apply (Forall_impl _ _ _ Hb); by intros ? []).
  pose proof Hb0 as [_ [(_ & E1 & C1) [(_ & E2 & C2) _]%Forall_cons]%Forall_cons]%Forall_app.
  destruct (put_all_ok (entries b1 ++ entries b2) nb) as (es & Ee & Hbe & Hes).
  { split_and!; [by rewrite Pn| |constructor]. split_and!; [simpl; lia|constructor..]. }
  { rewrite Pn, Forall_app, !Forall_forall in *. unfold covers in *. split; intros x Hx; [specialize (C1 x Hx)|specialize (C2 x Hx)]; lia. }
  { simpl. rewrite fmap_app, NoDup_app. split_and!; [apply E1| |apply E2].
    intros i (x & -> & Hx)%list_elem_of_fmap (y & E & Hy)%list_elem_of_fmap.
    pose proof (tiles_disjoint 0 (2 ^ 256) l1 b1 (b2 :: l2) x y Ht Hb0 Hx) as Hlt.
    rewrite E in Hlt. specialize (Hlt ltac:(unfold all_entries; simpl; set_solver)). lia. }
  { simpl. rewrite all_entries_app, fmap_app, NoDup_app in He. destruct He as (_ & _ & He).
    unfold all_entries in He. simpl in He. rewrite app_assoc, fmap_app, NoDup_app in He. apply He. }
  assert (all_entries [KBucket.set_entries nb es] = es) as Ea by (unfold all_entries; simpl; by rewrite app_nil_r).
  assert (buckets_ok localId (Pos.succ (next_ptr rt)) (l1 ++ [KBucket.set_entries nb es] ++ l2)) as Hok'.
  { apply (buckets_ok_splice localId (next_ptr rt) _ l1 [b1; b2]); [unfold table_ok in Hok; by rewrite El in Hok|..].
    - cbn [tiles KBucket.set_entries prefix]. rewrite Pn. intros s e (_ & Hv & _ & _ & Hse).
      split_and!; [done|lia|lia].
    - apply Forall_singleton. split; [done|]. exact (f_equal _ (eq_sym Pn)).
    - apply NoDup_singleton.
    - lia.
    - apply Forall_singleton. right. simpl. lia.
    - rewrite Ea. apply Hbe.
    - intros p. rewrite Ea. intros (x & -> & Hx)%list_elem_of_fmap. left. apply list_elem_of_fmap_2.
      unfold all_entries. simpl. rewrite app_nil_r. by apply Hes. }
  assert (merge_pair localId now b1 b2 rt = MkTable (l1 ++ [KBucket.set_entries nb es] ++ l2) (Pos.succ (next_ptr rt))
    (timeOfLastPingCheck rt) (maintenanceTasks rt)) as Em.
  { unfold merge_pair. fold nb. rewrite put_all_app, Ee. f_equal. rewrite El.
    apply (modify_run l1 [b1; b2] _ l2 0 (2 ^ 256)); [done|]. apply Hok'. }
  rewrite Em. exists (KBucket.set_entries nb es). by split_and!.
Qed.

Definition mergeable b1 b2 : bool :=
  isSiblingOf (prefix b1) (prefix b2) &&
  (getEffectiveSize b1 + getEffectiveSize b2 <=? Constants.MAX_ENTRIES_PER_BUCKET)%nat.

Definition pairs_done (i : Z) (bs : list KBucket) : Prop :=
  forall j b1 b2, 1 <= j <= i -> list_get bs (j - 1) = Some b1 -> list_get bs j = Some b2 -> mergeable b1 b2 = false.

Lemma merge_loop_correct (fuel : nat) (i : Z) rt :
  table_ok localId rt -> -1 <= i < Z.of_nat (length (buckets rt)) ->
  3 * Z.of_nat (length (buckets rt)) - i < Z.of_nat fuel -> pairs_done i (buckets rt) ->
  exists rt', merge_loop localId now fuel i rt = Some rt' /\ table_ok localId rt' /\
    pairs_done (Z.of_nat (length (buckets rt'))) (buckets rt') /\
    (forall x, x ∈ all_entries (buckets rt') -> x ∈ all_entries (buckets rt)).
Proof.
  revert i rt. induction fuel as [|fuel IH]; intros i rt Hok Hi Hf Hd; [lia|].
  simpl. destruct (Z.ltb_spec (i + 1) 1).
  { apply IH; try done; [|lia|].
    - destruct Hok as (Ht & _). destruct (buckets rt); simpl in *; [discriminate|lia].
    - intros j ?? Hj. lia. }
  destruct (Z.leb_spec (Z.of_nat (length (buckets rt))) (i + 1)).
  { exists rt. split_and!; try done. intros j b1 b2 Hj G1 G2. apply (Hd j b1 b2); [|done..].
    apply list_get_bound in G2. lia. }
  destruct (list_get_range (buckets rt) (i + 1 - 1) ltac:(lia)) as [b1 G1]. rewrite G1. simpl.
  destruct (list_get_range (buckets rt) (i + 1) ltac:(lia)) as [b2 G2]. rewrite G2. simpl.
  fold (mergeable b1 b2). destruct (mergeable b1 b2) eqn:Em.
  - unfold mergeable in Em. apply andb_true_iff in Em as [Hs _].
    pose proof G1 as [_ (l1 & k & El & Hl)%list_elem_of_split_length]%list_get_Some.
    pose proof G2 as [_ Hk]%list_get_Some. rewrite El, lookup_app_r in Hk by lia.
    replace (Z.to_nat (i + 1) - length l1)%nat with 1%nat in Hk by lia. destruct k as [|c l2]; [done|].
    simpl in Hk. injection Hk as ->.
    destruct (merge_pair_ok rt l1 b1 b2 l2 Hok El Hs) as (nb & En & _ & Hin & Hok').
    destruct (IH (i + 1 - 2) (merge_pair localId now b1 b2 rt)) as (rt' & H1 & H2 & H3 & H4).
    + done.
    + rewrite En, length_app. simpl. lia.
    + rewrite En, length_app. rewrite El, length_app in Hf. simpl in *. lia.
    + rewrite En. intros j x y Hj [? Gx]%list_get_Some [? Gy]%list_get_Some.
      rewrite lookup_app_l in Gx, Gy by lia.
      apply (Hd j x y); [lia|apply list_get_Some..]; (split; [lia|]); rewrite El, lookup_app_l by lia; done.
    + exists rt'. split_and!; try done. intros x Hx. apply H4 in Hx. rewrite En, all_entries_app in Hx.
      rewrite El, all_entries_app. unfold all_entries in *. simpl in *.
      apply elem_of_app in Hx as [Hx|[Hx%Hin|Hx]%elem_of_app]; set_solver.
  - apply IH; [done|lia|lia|]. intros j x y Hj Gx Gy. destruct (decide (j = i + 1)) as [->|]; [|apply (Hd j x y); [lia|done..]].
    by simplify_eq.
Qed.
End merge_correct.

Section in_place.
Variables (localId : Id) (now : Z).
Implicit Types (rt : RoutingTable) (b : KBucket) (n : SpE).

(** A change of one bucket that keeps its objects or drops some. *)
Lemma upd_ok rt l1 b l2 (f : KBucket -> KBucket) :
  table_ok localId rt -> buckets rt = l1 ++ b :: l2 -> frame b (f b) -> KBucket.bucket_ok (f b) ->
  ptr <$> entries (f b) ⊆ ptr <$> entries b ->
  upd_bucket (b_ptr b) f (buckets rt) = l1 ++ f b :: l2 /\
  buckets_ok localId (next_ptr rt) (l1 ++ f b :: l2).
Proof.
  intros Hok El Hf Hb Hp. pose proof Hok as (_ & _ & Hn & _). split.
  - rewrite El in *. by apply upd_bucket_run.
  - eapply set_buckets_ok; [done..|]. intros x Hx. left. apply Hp. by apply list_elem_of_fmap_2.
Qed.

Lemma update_ptrs (t : SpE) (l : list SpE) : ptr <$> KBucket.update_existing t l = ptr <$> l.
Proof. induction l as [|e l IH]; [done|]. simpl. case_if; [done|]. simpl. by f_equal. Qed.

Lemma removeIfBad_ptrs (e : SpE) (force : bool) (l : list SpE) :
  ptr <$> KBucket.removeIfBad_list now e force l ⊆ ptr <$> l.
Proof. intros p Hp. eapply elem_of_submseteq; [exact Hp|]. apply fmap_submseteq, sublist_submseteq, KBucket.removeIfBad_sublist. Qed.

Lemma signal_ptrs (f : KBucketEntry -> KBucketEntry) (id : Id) (l k : list SpE) (r : SpE) :
  KBucket.signal_first f id l = Some (r, k) -> ptr <$> k = ptr <$> l.
Proof. intros (l1 & e & l2 & -> & _ & -> & ->)%KBucket.signal_first_Some. by rewrite !fmap_app, !fmap_cons. Qed.

Lemma onTimeout_ptrs (id : Id) b : ptr <$> entries (KBucket._onTimeout now id b) ⊆ ptr <$> entries b.
Proof.
  unfold KBucket._onTimeout. destruct (KBucket.signal_first _ _ _) as [[r k]|] eqn:E; [|done].
  rewrite <- (signal_ptrs _ _ _ _ _ E). apply removeIfBad_ptrs.
Qed.

Lemma onSend_ptrs (id : Id) b : ptr <$> entries (KBucket._onSend now id b) ⊆ ptr <$> entries b.
Proof.
  unfold KBucket._onSend. destruct (KBucket.signal_first _ _ _) as [[r k]|] eqn:E; [|done].
  by rewrite <- (signal_ptrs _ _ _ _ _ E).
Qed.

Lemma onTimeout_frame (id : Id) b : frame b (KBucket._onTimeout now id b).
Proof. unfold KBucket._onTimeout. by destruct (KBucket.signal_first _ _ _) as [[r k]|]. Qed.

Lemma onSend_frame (id : Id) b : frame b (KBucket._onSend now id b).
Proof. unfold KBucket._onSend. by destruct (KBucket.signal_first _ _ _) as [[r k]|]. Qed.

Lemma find_bucket_run (bs l1 l2 : list KBucket) b :
  bs = l1 ++ b :: l2 -> NoDup (b_ptr <$> bs) -> find_bucket (b_ptr b) bs = Some b.
Proof.
  intros ->. unfold find_bucket. induction l1 as [|x l1 IH]; simpl; [by rewrite Pos.eqb_refl|].
  rewrite NoDup_cons. intros [Hx Hn]. destruct (Pos.eqb_spec (b_ptr x) (b_ptr b)) as [E|_]; [|by apply IH].
  exfalso. apply Hx. rewrite E. apply list_elem_of_fmap_2. set_solver.
Qed.

(** [shrink bs bs']: the same buckets, with at most their entries. *)
Definition shrink1 b b' : Prop := frame b b' /\ entries b' `sublist_of` entries b.
Definition shrink : list KBucket -> list KBucket -> Prop := Forall2 shrink1.

#[local] Instance shrink1_preorder : PreOrder shrink1.
Proof.
  split; [done|]. intros a b c [(A1 & A2 & A3) A4] [(B1 & B2 & B3) B4].
  split; [unfold frame; split_and!; congruence|by etrans].
Qed.

#[local] Instance shrink_preorder : PreOrder shrink.
Proof. unfold shrink. apply _. Qed.

Lemma shrink_one l1 l2 b b' :
  frame b b' -> entries b' `sublist_of` entries b -> shrink (l1 ++ b :: l2) (l1 ++ b' :: l2).
Proof.
  intros. apply Forall2_app; [reflexivity|]. constructor; [done|reflexivity].
Qed.

Lemma shrink_ptrs bs bs' : shrink bs bs' -> b_ptr <$> bs' = b_ptr <$> bs.
Proof. induction 1 as [|b b' bs bs' [(E & _) _] _ IH]; [done|]. rewrite !fmap_cons. by f_equal. Qed.

Lemma shrink_entries bs bs' x : shrink bs bs' -> x ∈ all_entries bs' -> x ∈ all_entries bs.
Proof.
  induction 1 as [|b b' bs bs' [_ Hs] _ IH]; [done|]. unfold all_entries in *. simpl. rewrite !elem_of_app.
  intros [Hx|Hx]; [left|auto]. eapply elem_of_submseteq; [done|by apply sublist_submseteq].
Qed.

Lemma shrink_elem bs bs' b' : shrink bs bs' -> b' ∈ bs' -> exists b, b ∈ bs /\ frame b b' /\ entries b' `sublist_of` entries b.
Proof.
  intros Hs [i Hi]%list_elem_of_lookup. destruct (Forall2_lookup_r _ _ _ _ _ Hs Hi) as (b & Hb & ?).
  exists b. split; [by eapply list_elem_of_lookup_2|done].
Qed.
End in_place.

Section maintenance_correct.
Variables (localId : Id) (now : Z) (bootstrapIds : list Id).
Implicit Types (rt : RoutingTable) (b : KBucket) (n : SpE).
#[local] Existing Instances shrink1_preorder shrink_preorder.

Lemma removeIfBad_forced (e : SpE) (l : list SpE) : e ∉ KBucket.removeIfBad_list now e true l.
Proof.
  unfold KBucket.removeIfBad_list. simpl. destruct (KBucket.anyMatch _ l) eqn:E.
  - rewrite KBucket.update2_remove. unfold KBucket.remove_ptr. rewrite list_elem_of_filter. tauto.
  - apply KBucket.anyMatch_false in E. rewrite Forall_forall in E. intros He. specialize (E e He).
    unfold KBucket.id_is in E. by apply bool_decide_eq_false in E.
Qed.

(** On a correct table the inner loop only removes entries, and every entry
    with the local id among those it visits. *)
Lemma maintain_entries_correct (es : list SpE) (wasFull : bool) rt l1 b l2 :
  table_ok localId rt -> buckets rt = l1 ++ b :: l2 -> Forall (fun e => covers (prefix b) (eid e)) es ->
  exists es', maintain_entries localId now bootstrapIds (b_ptr b) wasFull es rt
      = Some (set_buckets rt (l1 ++ KBucket.set_entries b es' :: l2)) /\
    buckets_ok localId (next_ptr rt) (l1 ++ KBucket.set_entries b es' :: l2) /\
    es' `sublist_of` entries b /\ (forall x, x ∈ es -> eid x = localId -> x ∉ es').
Proof.
  revert rt b. induction es as [|e es IH]; intros rt b Hok El Hc.
  { exists (entries b). unfold table_ok in Hok. rewrite El in Hok. destruct rt, b. simpl in *. subst.
    split_and!; [done..|]. set_solver. }
  apply Forall_cons in Hc as [He Hc]. pose proof Hok as (_ & Hb & Hn & _).
  rewrite El in Hb. apply Forall_app in Hb as [_ [[Hb _] _]%Forall_cons].
  cbn [maintain_entries]. unfold maintain_entry at 1. rewrite (find_bucket_run _ _ _ _ El Hn). cbn [mbind option_bind].
  destruct (upd_ok localId rt l1 b l2 (KBucket._removeIfBad now e true) Hok El) as [Eu Hu].
  { done. } { apply KBucket.bucket_ok_sublist; [apply KBucket.removeIfBad_sublist|done]. }
  { apply removeIfBad_ptrs. }
  destruct (bool_decide (eid e = localId) || _) eqn:Ec.
  - rewrite Eu. cbn [mbind option_bind]. destruct (IH (set_buckets rt (l1 ++ KBucket._removeIfBad now e true b :: l2))
      (KBucket._removeIfBad now e true b)) as (es' & E & Hk & Hs & Hx); [done..|].
    exists es'. split_and!; [exact E|exact Hk| |].
    + etrans; [exact Hs|]. apply KBucket.removeIfBad_sublist.
    + intros x [->|Hx1]%elem_of_cons Hid; [|by apply Hx]. intros Hin. apply (removeIfBad_forced e (entries b)).
      eapply elem_of_submseteq; [exact Hin|]. by apply sublist_submseteq.
  - apply orb_false_iff in Ec as [Ec _]. apply bool_decide_eq_false in Ec.
    rewrite (proj2 (isPrefixOf_interval (prefix b) (eid e) (proj1 Hb)) He). cbn [negb mbind option_bind].
    destruct (IH rt b Hok El Hc) as (es' & E & Hk & Hs & Hx). exists es'. split_and!; try done.
    intros x [->|Hx1]%elem_of_cons Hid; [done|by apply Hx].
Qed.

Definition task_ok rt (t : PingRefreshTask) : Prop :=
  pt_bucket t ∈ b_ptr <$> buckets rt /\
  forall e, e ∈ todo t -> e ∈ all_entries (buckets rt) /\ needsPing now (obj e) = true.

Lemma tryPing_correct rt l1 b l2 :
  table_ok localId rt -> buckets rt = l1 ++ b :: l2 ->
  exists b' task rt', tryPingMaintenance now b [probeCache_opt] rt = (rt', task) /\
    buckets rt' = l1 ++ b' :: l2 /\ frame b b' /\ entries b' = entries b /\ table_ok localId rt' /\
    (forall t, task = Some t -> task_ok rt t).
Proof.
  intros Hok El. unfold tryPingMaintenance. case_bool_decide.
  { exists b, None, rt. split_and!; try done. }
  destruct (PingRefreshTask_new now b [probeCache_opt]) as [t b'] eqn:E.
  injection E as Et Eb. pose proof Hok as (_ & Hb & _). rewrite El in Hb.
  apply Forall_app in Hb as [_ [[Hb _] _]%Forall_cons].
  destruct (upd_ok localId rt l1 b l2 (fun _ => b') Hok El) as [Eu Hu]; [by subst b'..|].
  eexists b', (Some t), _. split_and!; [reflexivity|exact Eu|by subst b'|by subst b'|unfold table_ok; by rewrite Eu|].
  intros ? [= <-]. rewrite <- Et. split; simpl.
  - rewrite El. apply list_elem_of_fmap_2. set_solver.
  - intros e [He Hin]%list_elem_of_filter. split; [apply all_entries_elem; exists b; rewrite El; set_solver|].
    apply Is_true_eq_true in He. by rewrite !orb_false_r in He.
Qed.

(** Whatever its options, the task changes only the refresh time of its bucket. *)
Lemma tryPing_frame options b rt rt' task :
  table_ok localId rt -> b ∈ buckets rt -> tryPingMaintenance now b options rt = (rt', task) ->
  table_ok localId rt' /\ all_entries (buckets rt') = all_entries (buckets rt).
Proof.
  intros Hok (l1 & l2 & El)%list_elem_of_split. unfold tryPingMaintenance. case_bool_decide; [by intros [= <- <-]|].
  destruct (PingRefreshTask_new now b options) as [t b'] eqn:E. injection E as Et Eb.
  pose proof Hok as (_ & Hb & _). rewrite El in Hb. apply Forall_app in Hb as [_ [[Hb _] _]%Forall_cons].
  destruct (upd_ok localId rt l1 b l2 (fun _ => b') Hok El) as [Eu Hu]; [by subst b'..|].
  intros [= <- <-]. split; [unfold table_ok; simpl; by rewrite Eu|]. simpl. rewrite Eu, El, !all_entries_app.
  unfold all_entries. rewrite !bind_cons. by subst b'.
Qed.

Lemma maintain_buckets_correct (bps : list positive) rt :
  table_ok localId rt -> (forall p, p ∈ bps -> p ∈ b_ptr <$> buckets rt) ->
  exists rt' ts, maintain_buckets localId now bootstrapIds bps rt = Some (rt', ts) /\ table_ok localId rt' /\
    shrink (buckets rt) (buckets rt') /\
    (forall b x, b ∈ buckets rt' -> b_ptr b ∈ bps -> x ∈ entries b -> eid x <> localId) /\
    Forall (task_ok rt) ts.
Proof.
  revert rt. induction bps as [|p bps IH]; intros rt Hok Hp.
  { exists rt, []. split_and!; try done. set_solver. }
  destruct (proj1 (list_elem_of_fmap _ _ _) (Hp p ltac:(set_solver))) as (b & -> & (l1 & l2 & El)%list_elem_of_split).
  pose proof Hok as (_ & Hb & Hn & _). rewrite El in Hb. apply Forall_app in Hb as [_ [[Hb _] _]%Forall_cons].
  cbn [maintain_buckets]. rewrite (find_bucket_run _ _ _ _ El Hn). cbn [mbind option_bind].
  destruct (maintain_entries_correct (entries b) (Constants.MAX_ENTRIES_PER_BUCKET <=? length (entries b))%nat
    rt l1 b l2 Hok El (proj2 (proj2 Hb))) as (es & E1 & Hk & Hs & Hloc).
  rewrite E1. cbn [mbind option_bind]. set (rt1 := set_buckets rt (l1 ++ KBucket.set_entries b es :: l2)) in *.
  assert (find_bucket (b_ptr b) (buckets rt1) = Some (KBucket.set_entries b es)) as ->.
  { apply (find_bucket_run (buckets rt1) l1 l2 (KBucket.set_entries b es)); [done|]. apply Hk. }
  cbn [mbind option_bind].
  assert (exists b' task rt2, (if KBucket.needsToBeRefreshed now (KBucket.set_entries b es)
      then tryPingMaintenance now (KBucket.set_entries b es) [probeCache_opt] rt1 else (rt1, None)) = (rt2, task) /\
    buckets rt2 = l1 ++ b' :: l2 /\ frame b b' /\ entries b' = es /\ table_ok localId rt2 /\
    (forall t, task = Some t -> task_ok rt1 t)) as (b' & task & rt2 & -> & E2 & Hf & Ee & Hok2 & Ht).
  { destruct (KBucket.needsToBeRefreshed _ _).
    - by apply (tryPing_correct rt1 l1 (KBucket.set_entries b es) l2).
    - exists (KBucket.set_entries b es), None, rt1. by split_and!. }
  assert (shrink (buckets rt) (buckets rt2)) as Hsh.
  { rewrite El, E2. apply shrink_one; [done|by rewrite Ee]. }
  destruct (IH rt2 Hok2) as (rt3 & ts & -> & Hok3 & Hsh3 & Hl3 & Ht3).
  { intros q Hq. rewrite (shrink_ptrs _ _ Hsh). apply Hp. set_solver. }
  exists rt3, (option_list task ++ ts). split_and!; [done|done|by etrans| |].
  - intros c x Hc Hpc Hx Hid. apply elem_of_cons in Hpc as [Hpc|Hpc]; [|by eapply (Hl3 c)].
    destruct (shrink_elem _ _ _ Hsh3 Hc) as (c2 & Hc2 & (F1 & _) & Hsc).
    assert (c2 = b') as ->.
    { pose proof Hok2 as (_ & _ & Hn2 & _). rewrite E2 in Hn2, Hc2.
      apply (find_bucket_run _ _ _ _ eq_refl) in Hn2 as Hf2. apply list_elem_of_split in Hc2 as (k1 & k2 & Ek).
      pose proof (find_bucket_run _ _ _ _ Ek Hn2) as Hf3. destruct Hf as [Hf _]. congruence. }
    apply sublist_submseteq, (elem_of_submseteq _ _ _ Hx) in Hsc. rewrite Ee in Hsc.
    apply (Hloc x); [|done|done]. eapply elem_of_submseteq; [exact Hsc|by apply sublist_submseteq].
  - assert (forall t r, task_ok r t -> shrink (buckets rt) (buckets r) -> task_ok rt t) as Hmono.
    { intros t r [T1 T2] Hr. split; [by rewrite <- (shrink_ptrs _ _ Hr)|].
      intros e He. destruct (T2 e He). split; [by eapply shrink_entries|done]. }
    apply Forall_app. split; [|apply (Forall_impl _ _ _ Ht3); intros; by eapply Hmono].
    destruct task as [t|]; [|done]. apply Forall_singleton. eapply Hmono; [by apply Ht|].
    rewrite El. by apply shrink_one.
Qed.
End maintenance_correct.

(** ** The table as a state machine *)

Inductive table_op :=
  | op_put (n : SpE)
  | op_remove (id : Id)
  | op_timeout (id : Id)
  | op_send (id : Id)
  | op_refresh (e : SpE)
  | op_maintenance (bootstrapIds : list Id)
  | op_pingEnded (task : PingRefreshTask)
  | op_fill (random : nat -> Id).

Section machine.
Variable localId : Id.

Definition exec (now : Z) (o : table_op) (rt : RoutingTable) : option RoutingTable :=
  match o with
  | op_put n => _put localId now n rt
  | op_remove id => _remove now id rt
  | op_timeout id => _onTimeout now id rt
  | op_send id => _onSend now id rt
  | op_refresh e => _refreshOnly e rt
  | op_maintenance boot => fst <$> _maintenance localId now boot rt
  | op_pingEnded t => Some (pingMaintenance_ended t rt)
  | op_fill random => Some (fst (fillBuckets now random rt))
  end.

(** The entry given to [put] is a new object. *)
Definition op_fresh (o : table_op) (rt : RoutingTable) : Prop :=
  match o with
  | op_put n => ptr n ∉ ptr <$> all_entries (buckets rt)
  | _ => True
  end.

#[export] Instance op_fresh_dec o rt : Decision (op_fresh o rt).
Proof. destruct o; simpl; apply _. Defined.

Inductive reachable : RoutingTable -> Prop :=
  | reach_new : reachable RoutingTable_new
  | reach_step now o rt rt' :
      reachable rt -> op_fresh o rt -> exec now o rt = Some rt' -> reachable rt'.

Fixpoint run (ops : list (Z * table_op)) (rt : RoutingTable) : option RoutingTable :=
  match ops with
  | [] => Some rt
  | (now, o) :: ops => if decide (op_fresh o rt) then rt' ← exec now o rt; run ops rt' else None
  end.

Lemma run_reachable ops rt rt' : reachable rt -> run ops rt = Some rt' -> reachable rt'.
Proof.
  revert rt. induction ops as [|[now o] ops IH]; simpl; intros rt Hr H; [by simplify_eq|].
  case_decide; [|done]. destruct (exec now o rt) as [rt1|] eqn:E; [|done]. simpl in H.
  eapply IH; [|exact H]. by eapply reach_step.
Qed.

Lemma new_ok : table_ok localId RoutingTable_new.
Proof.
  split_and!.
  - by split_and!; [apply prefix_all_wf|..].
  - apply Forall_singleton. split; [|done]. split_and!; [apply prefix_all_wf| |constructor].
    split_and!; [simpl; lia|constructor..].
  - apply NoDup_singleton.
  - by apply Forall_singleton.
  - constructor.
Qed.

Lemma fill_loop_frame now random i bs :
  Forall2 (fun b b' => frame b b' /\ entries b' = entries b) bs (fst (fill_loop now random i bs)).
Proof.
  revert i. induction bs as [|b bs IH]; intros i; simpl; [done|].
  destruct (_ <? _)%nat; [specialize (IH (S i))|specialize (IH i)]; destruct (fill_loop _ _ _ _); simpl in *;
    by constructor.
Qed.

(** The invariant does not depend on anything but the frame and the entries. *)
Lemma buckets_ok_frame np bs bs' :
  Forall2 (fun b b' => frame b b' /\ entries b' = entries b) bs bs' ->
  buckets_ok localId np bs -> buckets_ok localId np bs'.
Proof.
  intros H (Ht & Hb & Hn & Hp & He).
  assert (b_ptr <$> bs' = b_ptr <$> bs /\ all_entries bs' = all_entries bs) as [E1 E2].
  { clear -H. induction H as [|b b' bs bs' [(F & _) E] _ [IH1 IH2]]; [done|]. unfold all_entries in *.
    rewrite !fmap_cons, !bind_cons. split; congruence. }
  unfold buckets_ok. rewrite E1, E2. split_and!; try done.
  - revert Ht. generalize 0. clear -H. induction H as [|b b' bs bs' [(_ & F & _) _] _ IH]; [done|]. simpl.
    intros s (? & ? & ?). rewrite F. auto.
  - clear -H Hb. induction H as [|b b' bs bs' [(_ & F1 & F2) E] _ IH]; [done|].
    apply Forall_cons in Hb as [[(B1 & B2 & B3) B4] Hb]. constructor; [|auto].
    unfold bucket_home_ok, KBucket.bucket_ok. by rewrite F1, F2, E.
  - clear -H Hp. induction H as [|b b' bs bs' [(F & _) _] _ IH]; [done|].
    apply Forall_cons in Hp as [? Hp]. constructor; [by rewrite F|auto].
Qed.

Lemma mergeBuckets_correct now rt :
  table_ok localId rt -> exists rt', _mergeBuckets localId now rt = Some rt' /\ table_ok localId rt' /\
    pairs_done (Z.of_nat (length (buckets rt'))) (buckets rt') /\
    (forall x, x ∈ all_entries (buckets rt') -> x ∈ all_entries (buckets rt)).
Proof.
  intros Hok. unfold _mergeBuckets. apply (merge_loop_correct localId now (3 * length (buckets rt) + 2)%nat 0 rt Hok); [|lia|].
  - destruct Hok as (Ht & _). destruct (buckets rt); simpl in *; [discriminate|lia].
  - intros j b1 b2 Hj. lia.
Qed.

Lemma maintenance_correct now boot rt :
  table_ok localId rt -> exists rt' ts, _maintenance localId now boot rt = Some (rt', ts) /\ table_ok localId rt' /\
    (forall x, x ∈ all_entries (buckets rt') -> x ∈ all_entries (buckets rt)) /\
    (Constants.ROUTING_TABLE_MAINTENANCE_INTERVAL <= u64 (now - timeOfLastPingCheck rt) ->
     (forall x, x ∈ all_entries (buckets rt') -> eid x <> localId)) /\
    (forall t e, t ∈ ts -> e ∈ todo t -> e ∈ all_entries (buckets rt) /\ needsPing now (obj e) = true).
Proof.
  intros Hok. unfold _maintenance. destruct (Z.ltb_spec (u64 (now - timeOfLastPingCheck rt)) Constants.ROUTING_TABLE_MAINTENANCE_INTERVAL) as [Hlt|Hge].
  { exists rt, []. split_and!; [done..|lia|set_solver]. }
  set (rt0 := MkTable (buckets rt) (next_ptr rt) now (maintenanceTasks rt)).
  destruct (mergeBuckets_correct now rt0 Hok) as (rt1 & -> & Hok1 & _ & Hin). cbn [mbind option_bind].
  destruct (maintain_buckets_correct localId now boot (b_ptr <$> buckets rt1) rt1 Hok1) as (rt2 & ts & -> & Hok2 & Hs & Hl & Ht); [done|].
  exists rt2, ts. split_and!; [done..| | |].
  - intros x Hx. apply Hin. by eapply shrink_entries.
  - intros _ x (b & Hb & Hx)%all_entries_elem. apply (Hl b x); [done| |done].
    rewrite <- (shrink_ptrs _ _ Hs). by apply list_elem_of_fmap_2.
  - intros t e Hti He. rewrite Forall_forall in Ht. destruct (Ht t Hti) as [_ H]. destruct (H e He). auto.
Qed.

(** An operation on the bucket of an id. *)
Lemma at_bucket rt id (f : KBucket -> KBucket) :
  table_ok localId rt ->
  (forall b, KBucket.bucket_ok b -> frame b (f b) /\ KBucket.bucket_ok (f b) /\ ptr <$> entries (f b) ⊆ ptr <$> entries b) ->
  exists l1 b l2, getBucket rt id = Some b /\ buckets rt = l1 ++ b :: l2 /\ covers (prefix b) id /\ KBucket.bucket_ok b /\
    upd_bucket (b_ptr b) f (buckets rt) = l1 ++ f b :: l2 /\ buckets_ok localId (next_ptr rt) (l1 ++ f b :: l2).
Proof.
  intros Hok Hf. destruct (getBucket_correct localId rt id Hok) as (l1 & b & l2 & Hg & El & Hc & Hb & _).
  destruct (Hf b Hb) as (F1 & F2 & F3). destruct (upd_ok localId rt l1 b l2 f Hok El F1 F2 F3). by exists l1, b, l2.
Qed.

Lemma exec_correct now o rt :
  table_ok localId rt -> op_fresh o rt -> exists rt', exec now o rt = Some rt' /\ table_ok localId rt'.
Proof.
  intros Hok Hf. destruct o as [n|id|id|id|e|boot|t|random]; simpl in *.
  - destruct (put_correct localId now n rt Hok Hf) as (rt' & k1 & b' & k2 & E & _ & _ & H & _). eauto.
  - destruct (getBucket_correct localId rt id Hok) as (l1 & b & l2 & Hg & El & Hc & Hb & _).
    unfold _remove. rewrite Hg. simpl. destruct (KBucket.get b id) as [r|]; [|by exists rt].
    destruct (upd_ok localId rt l1 b l2 (KBucket._removeIfBad now r true) Hok El) as [Eu Hu]; [done| | |].
    + apply KBucket.bucket_ok_sublist; [apply KBucket.removeIfBad_sublist|done].
    + apply removeIfBad_ptrs.
    + rewrite Eu. eexists. split; [done|exact Hu].
  - destruct (at_bucket rt id (KBucket._onTimeout now id) Hok) as (l1 & b & l2 & Hg & _ & _ & _ & Eu & Hu).
    { intros b Hb. split_and!; [apply onTimeout_frame|by apply KBucket.timeout_ok|apply onTimeout_ptrs]. }
    unfold _onTimeout. rewrite Hg. simpl. rewrite Eu. eexists. split; [done|exact Hu].
  - destruct (at_bucket rt id (KBucket._onSend now id) Hok) as (l1 & b & l2 & Hg & _ & _ & _ & Eu & Hu).
    { intros b Hb. split_and!; [apply onSend_frame|by apply KBucket.send_ok|apply onSend_ptrs]. }
    unfold _onSend. rewrite Hg. simpl. rewrite Eu. eexists. split; [done|exact Hu].
  - destruct (at_bucket rt (eid e) (KBucket._update e) Hok) as (l1 & b & l2 & Hg & _ & _ & _ & Eu & Hu).
    { intros b Hb. split_and!; [done|by apply KBucket.update_ok|]. simpl. by rewrite update_ptrs. }
    unfold _refreshOnly. rewrite Hg. simpl. rewrite Eu. eexists. split; [done|exact Hu].
  - destruct (maintenance_correct now boot rt Hok) as (rt' & ts & -> & H & _). by exists rt'.
  - by eexists.
  - eexists. split; [done|]. unfold fillBuckets. pose proof (fill_loop_frame now random 0 (buckets rt)) as H.
    destruct (fill_loop now random 0 (buckets rt)). by eapply buckets_ok_frame.
Qed.

Lemma reachable_ok rt : reachable rt -> table_ok localId rt.
Proof.
  induction 1 as [|now o rt rt' _ IH Hf E]; [apply new_ok|].
  destruct (exec_correct now o rt IH Hf) as (rt1 & E1 & H). congruence.
Qed.

Lemma run_ok ops rt : run ops RoutingTable_new = Some rt -> table_ok localId rt.
Proof. intros H. eapply reachable_ok, run_reachable, H. apply reach_new. Qed.
End machine.

(** A node with the number [v] and its own address, heard of at time [now]. *)
Definition sample (now : Z) (p : positive) (v : Z) : SpE :=
  MkSp p (signalResponse now (KBucketEntry_new now (id_of_val v) (SA_in 39001 [8; 8; 8; Zpos p]) 0)).

(** ** The claims *)

(** C1: a table that is reachable from the new table by any sequence of puts of
    new objects, removals, timeouts, sends, refreshes, maintenance runs, ends of
    ping tasks and bucket fillings is well formed (its buckets tile the key
    space in order, every bucket keeps its invariant and knows whether it is the
    home bucket, no object occurs twice), and every operation on it ends with a
    result: no search leaves the list, no split or merge loop runs on. *)
Theorem reachable_invariant (localId : Id) (rt : RoutingTable) :
  reachable localId rt ->
  table_ok localId rt /\ forall now o, op_fresh o rt -> is_Some (exec localId now o rt).
Proof.
  intros Hr%reachable_ok. split; [done|]. intros now o Hf. destruct (exec_correct localId now o rt Hr Hf) as (rt' & -> & _). eauto.
Qed.

Lemma reachable_invariant_witness :
  exists rt, run zero [(5, op_put (sample 5 1 7)); (6, op_timeout (id_of_val 7))] RoutingTable_new = Some rt /\
    table_ok zero rt.
Proof.
  destruct (run zero _ RoutingTable_new) as [rt|] eqn:E; [|vm_compute in E; discriminate E].
  exists rt. split; [reflexivity|]. apply (reachable_invariant zero rt).
  exact (run_reachable zero _ _ _ (reach_new zero) E).
Defined.

Lemma getEntry_spec (localId id : Id) (rt : RoutingTable) :
  table_ok localId rt ->
  exists b r, getBucket rt id = Some b /\ b ∈ buckets rt /\ isPrefixOf (prefix b) id = true /\
    (forall x, x ∈ buckets rt -> isPrefixOf (prefix x) id = true -> x = b) /\
    getEntry rt id = Some r /\ forall e, r = Some e <-> e ∈ all_entries (buckets rt) /\ eid e = id.
Proof.
  intros Hok. destruct (getBucket_correct localId rt id Hok) as (l1 & b & l2 & Hg & El & Hc & Hb & Hu).
  exists b, (KBucket.get b id). pose proof Hok as (_ & Hall & _). rewrite Forall_forall in Hall.
  split_and!; [done|rewrite El; set_solver|by apply isPrefixOf_interval; [apply Hb|]| |unfold getEntry; by rewrite Hg|].
  - intros x Hx Hp. apply Hu; [done|]. apply isPrefixOf_interval in Hp; [done|]. by apply (Hall x Hx).
  - intros e. split.
    + intros [He Hid]%KBucket.find_In. split; [|done]. apply all_entries_elem. exists b. rewrite El. set_solver.
    + intros [He <-]. apply KBucket.get_unique; [apply Hb|]. by eapply (entry_bucket localId rt (eid e) e l1 b l2).
Qed.

(** The binary search of [getBucket] finds the one bucket whose prefix
    covers the id, so [getEntry] returns exactly the entry with that id, if the
    table has one. *)
Theorem getEntry_lookup (localId id : Id) (rt : RoutingTable) :
  table_ok localId rt ->
  exists b r, getBucket rt id = Some b /\ b ∈ buckets rt /\ isPrefixOf (prefix b) id = true /\
    (forall x, x ∈ buckets rt -> isPrefixOf (prefix x) id = true -> x = b) /\
    getEntry rt id = Some r /\ forall e, r = Some e <-> e ∈ all_entries (buckets rt) /\ eid e = id.
Proof. apply getEntry_spec. Qed.

Lemma getEntry_lookup_witness : exists b, getBucket RoutingTable_new MAX_ID = Some b /\ isPrefixOf (prefix b) MAX_ID = true.
Proof.
  destruct (getEntry_lookup zero MAX_ID RoutingTable_new (new_ok zero)) as (b & _ & H1 & _ & H2 & _).
  exists b. split; [exact H1|exact H2].
Defined.

Lemma put_spec (localId : Id) (now : Z) (n : SpE) (rt : RoutingTable) :
  table_ok localId rt -> ptr n ∉ ptr <$> all_entries (buckets rt) ->
  exists rt' es rest, _put localId now n rt = Some rt' /\ table_ok localId rt' /\
    all_entries (buckets rt) ≡ₚ es ++ rest /\
    all_entries (buckets rt') ≡ₚ KBucket.put_list now n es ++ rest /\
    KBucket.put_result now n es (KBucket.put_list now n es) /\
    eid n ∉ eid <$> rest.
Proof.
  intros Hok Hn. destruct (put_correct localId now n rt Hok Hn) as (rt' & k1 & b & k2 & E & Ha & Eb & Hok' & Hc & Hb).
  exists rt', (entries b), (all_entries (k1 ++ k2)). split_and!; [done..| | | |].
  - rewrite <- Ha, !all_entries_app. unfold all_entries. rewrite bind_cons. apply Permutation_app_swap_app.
  - rewrite Eb, !all_entries_app. unfold all_entries. rewrite bind_cons. apply Permutation_app_swap_app.
  - apply KBucket.put_list_result, Hb.
  - intros (x & Ex & Hx)%list_elem_of_fmap.
    pose proof (other_buckets localId rt' k1 (KBucket._put now (Some n) b) k2 (eid n) Hok' Eb Hc) as H.
    rewrite Forall_forall in H. by apply (H x Hx).
Qed.

(** C27: [RoutingTable::_put] of a new object ends (after at most 256 splits),
    keeps the table well formed, and changes nothing but one bucket: up to the
    order, the entries of the table before are those of that bucket and the
    others, afterwards they are what [KBucket::_put] makes of the bucket and the
    same others.  No entry is lost by splitting, and no other entry has the id. *)
Theorem put_table (localId : Id) (now : Z) (n : SpE) (rt : RoutingTable) :
  table_ok localId rt -> ptr n ∉ ptr <$> all_entries (buckets rt) ->
  exists rt' es rest, _put localId now n rt = Some rt' /\ table_ok localId rt' /\
    all_entries (buckets rt) ≡ₚ es ++ rest /\
    all_entries (buckets rt') ≡ₚ KBucket.put_list now n es ++ rest /\
    KBucket.put_result now n es (KBucket.put_list now n es) /\
    eid n ∉ eid <$> rest.
Proof. apply put_spec. Qed.

Lemma put_table_witness :
  exists rt', _put zero 5 (sample 5 1 7) RoutingTable_new = Some rt' /\ table_ok zero rt'.
Proof.
  destruct (put_table zero 5 (sample 5 1 7) RoutingTable_new (new_ok zero)) as (rt' & _ & _ & H1 & H2 & _).
  - vm_compute. intros H. inversion H.
  - exists rt'. split; [exact H1|exact H2].
Defined.

Lemma remove_spec (localId id : Id) (now : Z) (rt : RoutingTable) :
  table_ok localId rt ->
  exists rt', _remove now id rt = Some rt' /\ table_ok localId rt' /\
    all_entries (buckets rt') = filter (fun e => eid e <> id) (all_entries (buckets rt)).
Proof.
  intros Hok. destruct (exec_correct localId now (op_remove id) rt Hok I) as (rt' & E & Hok'). simpl in E.
  exists rt'. split_and!; [done..|].
  destruct (getBucket_correct localId rt id Hok) as (l1 & b & l2 & Hg & El & Hc & Hb & _).
  pose proof (other_buckets localId rt l1 b l2 id Hok El Hc) as Ho. rewrite all_entries_app in Ho.
  apply Forall_app in Ho as [O1 O2]. pose proof Hok as (_ & _ & Hn & _). pose proof Hb as (_ & Heo & _).
  unfold _remove in E. rewrite Hg in E. simpl in E. destruct (KBucket.get b id) as [r|] eqn:Eg.
  - rewrite El in Hn, E. rewrite upd_bucket_run in E by done. injection E as <-. simpl.
    rewrite El, !all_entries_app. unfold all_entries. rewrite !bind_cons, !filter_app. fold (all_entries l1) (all_entries l2).
    rewrite (filter_id _ (all_entries l1)), (filter_id _ (all_entries l2)) by done. do 2 f_equal.
    apply KBucket.find_In in Eg as [Hr <-]. by apply KBucket.remove_forced.
  - injection E as <-. symmetry. apply filter_id. rewrite El, all_entries_app. unfold all_entries. rewrite bind_cons.
    rewrite !Forall_app. split_and!; [done| |done]. apply Forall_forall. intros x Hx <-.
    rewrite (KBucket.get_unique b x) in Eg; done.
Qed.

(** [RoutingTable::_remove] removes the entry with the id, whatever its
    state, and nothing else. *)
Theorem remove_table (localId id : Id) (now : Z) (rt : RoutingTable) :
  table_ok localId rt ->
  exists rt', _remove now id rt = Some rt' /\ table_ok localId rt' /\
    all_entries (buckets rt') = filter (fun e => eid e <> id) (all_entries (buckets rt)).
Proof. apply remove_spec. Qed.

Lemma remove_table_witness : exists rt', _remove 9 MAX_ID RoutingTable_new = Some rt' /\ table_ok zero rt'.
Proof.
  destruct (remove_table zero MAX_ID 9 RoutingTable_new (new_ok zero)) as (rt' & H1 & H2 & _).
  exists rt'. split; [exact H1|exact H2].
Defined.

(** C28: [_mergeBuckets] ends, keeps the table well formed, adds no entry, and
    leaves no pair of neighbours that are siblings with at most eight effective
    entries between them. *)
Theorem mergeBuckets_complete (localId : Id) (now : Z) (rt : RoutingTable) :
  table_ok localId rt ->
  exists rt', _mergeBuckets localId now rt = Some rt' /\ table_ok localId rt' /\
    (forall x, x ∈ all_entries (buckets rt') -> x ∈ all_entries (buckets rt)) /\
    forall i b1 b2, buckets rt' !! i = Some b1 -> buckets rt' !! S i = Some b2 ->
      isSiblingOf (prefix b1) (prefix b2) = true ->
      (Constants.MAX_ENTRIES_PER_BUCKET < getEffectiveSize b1 + getEffectiveSize b2)%nat.
Proof.
  intros Hok. destruct (mergeBuckets_correct localId now rt Hok) as (rt' & E & Hok' & Hd & Hin).
  exists rt'. split_and!; [done..|]. intros i b1 b2 H1 H2 Hs.
  apply lookup_lt_Some in H2 as Hl.
  specialize (Hd (Z.of_nat (S i)) b1 b2 ltac:(lia)). unfold mergeable in Hd. rewrite Hs in Hd.
  apply Nat.leb_gt, Hd; apply list_get_Some; (split; [lia|]); [|by rewrite Nat2Z.id].
  by replace (Z.to_nat (Z.of_nat (S i) - 1)) with i by lia.
Qed.

Lemma mergeBuckets_complete_witness :
  exists rt', _mergeBuckets zero 9 RoutingTable_new = Some rt' /\ table_ok zero rt'.
Proof.
  destruct (mergeBuckets_complete zero 9 RoutingTable_new (new_ok zero)) as (rt' & H1 & H2 & _).
  exists rt'. split; [exact H1|exact H2].
Defined.

(** The run that fills a bucket, splits it and lets one node of the full half
    miss six requests. *)
Definition lossy_run : list (Z * table_op) :=
  ((fun i => (100, op_put (sample 100 (Pos.of_succ_nat i) (Z.of_nat i)))) <$> seq 0 8) ++
  [(100, op_put (sample 100 9 (2 ^ 255)))] ++ [(200, op_send (id_of_val 0))] ++
  repeat (201, op_timeout (id_of_val 0)) 6.

Definition lost_effective (rt' : RoutingTable) (e : SpE) : bool :=
  negb (removableWithoutReplacement (obj e)) && bool_decide (ptr e ∉ ptr <$> all_entries (buckets rt')).

(** Merging can lose an effective entry, which the comment in
    [_mergeBuckets] rules out: the size test does not count an entry whose last
    six requests failed, but [KBucket::_put] does not replace that entry before
    it is a quarter of an hour old. *)
Theorem mergeBuckets_loses_effective :
  exists rt rt' e, reachable zero rt /\ _mergeBuckets zero 300 rt = Some rt' /\
    e ∈ all_entries (buckets rt) /\ removableWithoutReplacement (obj e) = false /\
    e ∉ all_entries (buckets rt').
Proof.
  assert (match run zero lossy_run RoutingTable_new with
    | Some rt => match _mergeBuckets zero 300 rt with
        | Some rt' => existsb (lost_effective rt') (all_entries (buckets rt))
        | None => false end
    | None => false end = true) as H by (vm_compute; reflexivity).
  destruct (run zero lossy_run RoutingTable_new) as [rt|] eqn:E; [|done].
  destruct (_mergeBuckets zero 300 rt) as [rt'|] eqn:Em; [|done].
  apply existsb_exists in H as (e & He%list_elem_of_In & [H1 H2]%andb_true_iff).
  exists rt, rt', e. split_and!; [exact (run_reachable zero _ _ _ (reach_new zero) E)|done..|by apply negb_true_iff|].
  intros Hin. apply bool_decide_eq_true in H2. apply H2. by apply list_elem_of_fmap_2.
Qed.

(** C38: [_maintenance] ends and keeps the table well formed, only ever removes
    entries, leaves no entry with the local node's own id when it is due, and
    every ping task it starts asks only nodes of the table that need a ping. *)
Theorem maintenance_effect (localId : Id) (now : Z) (boot : list Id) (rt : RoutingTable) :
  table_ok localId rt -> exists rt' ts, _maintenance localId now boot rt = Some (rt', ts) /\ table_ok localId rt' /\
    (forall x, x ∈ all_entries (buckets rt') -> x ∈ all_entries (buckets rt)) /\
    (Constants.ROUTING_TABLE_MAINTENANCE_INTERVAL <= u64 (now - timeOfLastPingCheck rt) ->
     forall x, x ∈ all_entries (buckets rt') -> eid x <> localId) /\
    (forall t e, t ∈ ts -> e ∈ todo t -> e ∈ all_entries (buckets rt) /\ needsPing now (obj e) = true).
Proof. apply maintenance_correct. Qed.

Lemma maintenance_effect_witness :
  exists rt' ts, _maintenance zero 300000 [] RoutingTable_new = Some (rt', ts) /\ table_ok zero rt'.
Proof.
  destruct (maintenance_effect zero 300000 [] RoutingTable_new (new_ok zero)) as (rt' & ts & H1 & H2 & _).
  exists rt', ts. split; [exact H1|exact H2].
Defined.
End RoutingTable.
