(* ===== verification/KClosest.v ===== *)
(** * The closest known nodes: [KClosestNodes] of [src/core/kclosest_nodes.cc]

    [fill] collects the eligible entries of the bucket of the target and of the
    buckets next to it, nearest neighbour first, until there are enough, and
    [shave] keeps the closest of what was collected. *)

From S2P Require Import Prelude Constants Ids Prefixes Addresses Entries KBuckets RoutingTables.

(** The elements of the result: entries of the table, plain nodes (the bootstrap nodes of the
    configuration), and the entry made for the local node. *)
Inductive KNode :=
  | KN_entry (e : SpE)
  | KN_info (n : NodeInfo)
  | KN_self (n : NodeInfo).

Definition kn_id (k : KNode) : Id :=
  match k with KN_entry e => eid e | KN_info n | KN_self n => nodeId n end.

Definition kn_info (k : KNode) : NodeInfo :=
  match k with KN_entry e => node (obj e) | KN_info n | KN_self n => n end.

(** What [CandidateNode]'s constructor finds by its [dynamic_cast]: only an entry
    of a bucket can be reachable. *)
Definition kn_reachable (k : KNode) : bool :=
  match k with KN_entry e => reachable (obj e) | KN_info _ | KN_self _ => false end.

(** [DHT::Type] and [DHT::canUseSocketAddress] *)
Inductive DHT_Type := DHT_IPV4 | DHT_IPV6.

#[export] Instance DHT_Type_eq_dec : EqDecision DHT_Type.
Proof. solve_decision. Defined.

Definition canUseSocketAddress (type : DHT_Type) (addr : SocketAddress) : bool :=
  family addr =? match type with DHT_IPV4 => AF_INET | DHT_IPV6 => AF_INET6 end.

Section KClosestNodes.
Variables (type : DHT_Type) (bootstrapNodes : list NodeInfo) (self : NodeInfo).
Variables (target : Id) (maxEntries : nat) (elig : SpE -> bool).
Implicit Types (bs : list KBucket) (es : list KNode).

(** ** Definitions *)

Definition insertEntries (bucket : KBucket) es : list KNode :=
  es ++ (KN_entry <$> filter (fun e => elig e = true) (entries bucket)).

Definition kn_closer (a b : KNode) : bool := threeWayCompare target (kn_id a) (kn_id b) <? 0.

Definition shave es : list KNode :=
  let overshoot := Z.of_nat (length es) - Z.of_nat maxEntries in
  if overshoot <=? 0 then es
  else take (length es - Z.to_nat overshoot) (sort_by kn_closer es).

(** The loop of [fill]; every turn takes in at least one more bucket. *)
Fixpoint fill_loop (fuel : nat) bs (low high : Z) es : option (list KNode) :=
  match fuel with
  | O => None
  | S fuel =>
      if (length es <? maxEntries)%nat then
        let lowBucket := if 0 <? low then list_get bs (low - 1) else None in
        let highBucket := if high <? Z.of_nat (length bs) - 1 then list_get bs (high + 1) else None in
        match lowBucket, highBucket with
        | None, None => Some es
        | None, Some h => fill_loop fuel bs low (high + 1) (insertEntries h es)
        | Some l, None => fill_loop fuel bs (low - 1) high (insertEntries l es)
        | Some l, Some h =>
            let dir := threeWayCompare target (last (prefix l)) (first (prefix h)) in
            if dir <? 0 then fill_loop fuel bs (low - 1) high (insertEntries l es)
            else if 0 <? dir then fill_loop fuel bs low (high + 1) (insertEntries h es)
            else fill_loop fuel bs (low - 1) (high + 1) (insertEntries h (insertEntries l es))
        end
      else Some es
  end.

Definition fill_bootstraps es : list KNode :=
  if (length es <? maxEntries)%nat
  then es ++ (KN_info <$> filter (fun n => canUseSocketAddress type (sockaddr n) = true) bootstrapNodes)
  else es.

Definition fill_self (includeSelf : bool) es : list KNode :=
  if (length es <? maxEntries)%nat && includeSelf then es ++ [KN_self self] else es.

Definition fill (includeSelf : bool) (rt : RoutingTable) : option (list KNode) :=
  let bs := buckets rt in
  idx ← RoutingTable.indexOf bs target;
  kb ← list_get bs idx;
  es ← fill_loop (S (length bs)) bs idx idx (insertEntries kb []);
  Some (shave (fill_self includeSelf (fill_bootstraps es))).

(** ** Lemmas *)

(** The eligible entries of a run of buckets. *)
Definition eligible bs : list SpE := filter (fun e => elig e = true) (RoutingTable.all_entries bs).

Lemma eligible_app bs1 bs2 : eligible (bs1 ++ bs2) = eligible bs1 ++ eligible bs2.
Proof. unfold eligible. by rewrite RoutingTable.all_entries_app, filter_app. Qed.

Lemma insertEntries_perm b bs1 bs2 es :
  es ≡ₚ KN_entry <$> eligible (bs1 ++ bs2) -> insertEntries b es ≡ₚ KN_entry <$> eligible (bs1 ++ b :: bs2).
Proof.
  intros E. unfold insertEntries. rewrite E. rewrite !eligible_app, !fmap_app.
  change (b :: bs2) with ([b] ++ bs2). rewrite eligible_app, fmap_app.
  replace (eligible [b]) with (filter (fun e => elig e = true) (entries b))
    by (unfold eligible, RoutingTable.all_entries; simpl; by rewrite app_nil_r).
  by rewrite <- app_assoc, (Permutation_app_comm (KN_entry <$> eligible bs2)).
Qed.

(** The neighbours the loop looks at, when [l1] and [l2] are the buckets below and above those visited. *)
Lemma low_bucket (l1 k : list KBucket) (low : Z) :
  low = Z.of_nat (length l1) -> (if 0 <? low then list_get (l1 ++ k) (low - 1) else None) = list.last l1.
Proof.
  intros Hl. destruct l1 as [|x l1 _] using rev_ind; [simpl in Hl; by subst low|].
  rewrite length_app in Hl. simpl in Hl. destruct (Z.ltb_spec 0 low); [|lia]. rewrite last_snoc.
  apply RoutingTable.list_get_Some. split; [lia|]. rewrite <- app_assoc, lookup_app_r by lia.
  by replace (Z.to_nat (low - 1) - length l1)%nat with 0%nat by lia.
Qed.

Lemma high_bucket (k l2 : list KBucket) (high : Z) :
  high + 1 = Z.of_nat (length k) ->
  (if high <? Z.of_nat (length (k ++ l2)) - 1 then list_get (k ++ l2) (high + 1) else None) = head l2.
Proof.
  intros Hh. rewrite length_app. destruct l2 as [|x l2]; simpl.
  - destruct (Z.ltb_spec high (Z.of_nat (length k + 0) - 1)); [lia|done].
  - destruct (Z.ltb_spec high (Z.of_nat (length k + S (length l2)) - 1)); [|lia].
    apply RoutingTable.list_get_Some. split; [lia|]. rewrite lookup_app_r by lia.
    by replace (Z.to_nat (high + 1) - length k)%nat with 0%nat by lia.
Qed.

(** The loop ended with [r] after it took in a run of buckets around those visited. *)
Definition filled l1 vis l2 (r : option (list KNode)) : Prop :=
  exists k1 k2 l1' l2' es', l1 = l1' ++ k1 /\ l2 = k2 ++ l2' /\ r = Some es' /\
    es' ≡ₚ KN_entry <$> eligible (k1 ++ vis ++ k2) /\ ((maxEntries <= length es')%nat \/ (l1' = [] /\ l2' = [])).

Lemma filled_below l1 x vis l2 r : filled l1 (x :: vis) l2 r -> filled (l1 ++ [x]) vis l2 r.
Proof.
  intros (k1 & k2 & m1 & m2 & es' & -> & -> & -> & Hp & Hd). exists (k1 ++ [x]), k2, m1, m2, es'.
  rewrite <- !app_assoc in *. by split_and!.
Qed.

Lemma filled_above l1 vis y l2 r : filled l1 (vis ++ [y]) l2 r -> filled l1 vis (y :: l2) r.
Proof.
  intros (k1 & k2 & m1 & m2 & es' & -> & -> & -> & Hp & Hd). exists k1, (y :: k2), m1, m2, es'.
  rewrite <- !app_assoc in *. by split_and!.
Qed.

Lemma fill_loop_filled (fuel : nat) l1 vis l2 es (low high : Z) :
  low = Z.of_nat (length l1) -> high + 1 = Z.of_nat (length (l1 ++ vis)) ->
  (length l1 + length l2 < fuel)%nat -> es ≡ₚ KN_entry <$> eligible vis ->
  filled l1 vis l2 (fill_loop fuel (l1 ++ vis ++ l2) low high es).
Proof.
  revert l1 vis l2 es low high. induction fuel as [|fuel IH]; intros l1 vis l2 es low high Hl Hh Hf He; [lia|].
  simpl. destruct (Nat.ltb_spec (length es) maxEntries) as [Hlt|Hge].
  2:{ exists [], [], l1, l2, es. rewrite !app_nil_r. split_and!; auto. }
  rewrite low_bucket by done. rewrite (app_assoc l1 vis l2), high_bucket by done. rewrite <- (app_assoc l1 vis l2).
  assert (forall m x, l1 = m ++ [x] ->
    filled l1 vis l2 (fill_loop fuel (l1 ++ vis ++ l2) (low - 1) high (insertEntries x es))) as GL.
  { intros m x ->. rewrite !length_app in *. simpl in *. apply filled_below. rewrite <- (app_assoc m [x]).
    apply (IH m (x :: vis) l2); rewrite ?length_app; simpl; try lia. by apply (insertEntries_perm x [] vis). }
  assert (forall m y, l2 = y :: m ->
    filled l1 vis l2 (fill_loop fuel (l1 ++ vis ++ l2) low (high + 1) (insertEntries y es))) as GH.
  { intros m y ->. rewrite !length_app in *. simpl in *. apply filled_above.
    replace (vis ++ y :: m) with ((vis ++ [y]) ++ m) by by rewrite <- app_assoc.
    apply (IH l1 (vis ++ [y]) m); rewrite ?length_app; simpl; try lia.
    apply (insertEntries_perm y vis []). by rewrite app_nil_r. }
  destruct (list.last l1) as [x|] eqn:El; [apply last_Some in El as (m1 & El)|apply last_None in El];
    (destruct l2 as [|y m2]; simpl); [by eapply GL| |subst l1|by eapply GH].
  - destruct (threeWayCompare _ _ _ <? 0); [by eapply GL|destruct (0 <? threeWayCompare _ _ _); [by eapply GH|]].
    subst l1. rewrite !length_app in *. simpl in *. apply filled_below, (filled_above m1 (x :: vis)).
    replace ((m1 ++ [x]) ++ vis ++ y :: m2) with (m1 ++ (x :: vis ++ [y]) ++ m2) by (simpl; rewrite <- !app_assoc; simpl; done).
    apply (IH m1 (x :: vis ++ [y]) m2); rewrite ?length_app; simpl; rewrite ?length_app; simpl; try lia.
    apply (insertEntries_perm y (x :: vis) []). rewrite app_nil_r. by apply (insertEntries_perm x [] vis).
  - exists [], [], [], [], es. rewrite !app_nil_r. split_and!; auto.
Qed.

Lemma fill_loop_correct (fuel : nat) l1 vis l2 es (low high : Z) :
  low = Z.of_nat (length l1) -> high + 1 = Z.of_nat (length (l1 ++ vis)) ->
  (length l1 + length l2 < fuel)%nat -> es ≡ₚ KN_entry <$> eligible vis ->
  exists k1 k2 l1' l2' es', l1 = l1' ++ k1 /\ l2 = k2 ++ l2' /\
    fill_loop fuel (l1 ++ vis ++ l2) low high es = Some es' /\ es' ≡ₚ KN_entry <$> eligible (k1 ++ vis ++ k2) /\
    ((maxEntries <= length es')%nat \/ (l1' = [] /\ l2' = [])) /\ ((maxEntries <= length es)%nat -> k1 = [] /\ k2 = []).
Proof.
  intros Hl Hh Hf He. destruct (Nat.le_gt_cases maxEntries (length es)) as [Hge|Hlt].
  - exists [], [], l1, l2, es. rewrite !app_nil_r. destruct fuel as [|fuel]; [lia|]. simpl.
    destruct (Nat.ltb_spec (length es) maxEntries); [lia|]. split_and!; auto.
  - destruct (fill_loop_filled fuel l1 vis l2 es low high Hl Hh Hf He) as (k1 & k2 & m1 & m2 & es' & ? & ? & ? & ? & ?).
    exists k1, k2, m1, m2, es'. split_and!; try done. lia.
Qed.
End KClosestNodes.

Section correctness.
Variables (type : DHT_Type) (bootstrapNodes : list NodeInfo) (self : NodeInfo).
Variables (target : Id) (maxEntries : nat) (elig : SpE -> bool).

Definition kn_dist (k : KNode) : Z := dist target (kn_id k).

(** [shave] keeps the closest nodes. *)
Lemma shave_closest (es : list KNode) :
  length (shave target maxEntries es) = Nat.min maxEntries (length es) /\
  (forall k, k ∈ shave target maxEntries es -> k ∈ es) /\
  (forall k e, k ∈ shave target maxEntries es -> e ∈ es -> e ∉ shave target maxEntries es -> kn_dist k <= kn_dist e).
Proof.
  unfold shave. destruct (Z.leb_spec (Z.of_nat (length es) - Z.of_nat maxEntries) 0) as [Hle|Hgt].
  { split_and!; [lia|done|done]. }
  replace (length es - Z.to_nat (Z.of_nat (length es) - Z.of_nat maxEntries))%nat with maxEntries by lia.
  rewrite (sort_by_ext _ (ltb_key kn_dist)) by (intros; apply closer_key).
  pose proof (sort_by_perm (ltb_key kn_dist) es) as Hp. pose proof (sort_by_sorted (ltb_key kn_dist) es) as Hs.
  set (s := sort_by (ltb_key kn_dist) es) in *. rewrite <- (take_drop maxEntries s) in Hs.
  apply StronglySorted_app in Hs as (Hs & _ & _). split_and!.
  - rewrite length_take, Hp. done.
  - intros k Hk. rewrite <- Hp. by eapply elem_of_take in Hk as (i & Hi & _); apply list_elem_of_lookup_2 in Hi.
  - intros k e Hk He Hn. rewrite <- Hp, <- (take_drop maxEntries s), elem_of_app in He.
    destruct He as [He|He]; [done|]. specialize (Hs k e Hk He). unfold ltb_key in Hs. by apply Z.ltb_ge.
Qed.

Lemma fill_extra_perm (includeSelf : bool) (es : list KNode) :
  exists ex, fill_self self maxEntries includeSelf (fill_bootstraps type bootstrapNodes maxEntries es) = es ++ ex /\
    Forall (fun k => match k with KN_entry _ => False | _ => True end) ex /\
    ((maxEntries <= length es)%nat -> ex = []).
Proof.
  unfold fill_self, fill_bootstraps.
  destruct (Nat.ltb_spec (length es) maxEntries) as [Hlt|Hge].
  - set (bt := KN_info <$> _). assert (Forall (fun k => match k with KN_entry _ => False | _ => True end) bt) as Hbt.
    { apply Forall_fmap, Forall_true. done. }
    destruct (_ && _).
    + exists (bt ++ [KN_self self]). rewrite app_assoc. split_and!; [done| |lia]. apply Forall_app. by repeat constructor.
    + exists bt. split_and!; [done..|lia].
  - exists []. destruct (Nat.ltb_spec (length es) maxEntries); [lia|]. simpl. rewrite app_nil_r. by split_and!.
Qed.

Lemma fill_correct (localId : Id) (includeSelf : bool) (rt : RoutingTable) :
  RoutingTable.table_ok localId rt ->
  exists l1 b l2 k1 k2 l1' l2' es ex, buckets rt = l1 ++ b :: l2 /\ covers (prefix b) target /\
    KBucket.bucket_ok b /\ l1 = l1' ++ k1 /\ l2 = k2 ++ l2' /\
    es ≡ₚ KN_entry <$> eligible elig (k1 ++ b :: k2) /\
    fill type bootstrapNodes self target maxEntries elig includeSelf rt = Some (shave target maxEntries (es ++ ex)) /\
    Forall (fun k => match k with KN_entry _ => False | _ => True end) ex /\
    ((maxEntries <= length es)%nat -> ex = []) /\
    ((maxEntries <= length es)%nat \/ l1' = [] /\ l2' = []) /\
    ((maxEntries <= length (eligible elig [b]))%nat -> k1 = [] /\ k2 = []).
Proof.
  intros Hok. pose proof Hok as (Ht & Hb & _).
  destruct (RoutingTable.indexOf_correct (buckets rt) target Ht) as (r & l1 & b & l2 & Hi & Hg & El & Hc).
  rewrite El in Hb. apply Forall_app in Hb as [_ [[Hb _] _]%Forall_cons].
  assert (length l1 = Z.to_nat r /\ 0 <= r) as [Hl Hr].
  { apply RoutingTable.list_get_Some in Hg as [Hr Hg]. split; [|done]. rewrite El in Hg.
    pose proof Hok as (_ & _ & Hn & _). rewrite El in Hn. apply NoDup_fmap_1 in Hn.
    eapply NoDup_lookup; [exact Hn| |exact Hg]. by rewrite lookup_app_r, Nat.sub_diag by lia. }
  assert (insertEntries elig b [] ≡ₚ KN_entry <$> eligible elig [b]) as Hins by (by apply (insertEntries_perm elig b [] [])).
  destruct (fill_loop_correct target maxEntries elig (S (length (buckets rt))) l1 [b] l2 (insertEntries elig b []) r r)
    as (k1 & k2 & l1' & l2' & es & E1 & E2 & Ef & Hp & Hd & Hfull).
  { lia. } { rewrite length_app. simpl. lia. } { rewrite El, length_app. simpl. lia. } { done. }
  destruct (fill_extra_perm includeSelf es) as (ex & Ex & Hex & Hex0).
  exists l1, b, l2, k1, k2, l1', l2', es, ex. split_and!; try done.
  - unfold fill. rewrite Hi. simpl. rewrite Hg. simpl. simpl in Ef. rewrite El in *. rewrite Ef. simpl. by rewrite Ex.
  - intros Hm. apply Hfull. by rewrite Hins, length_fmap.
Qed.
End correctness.

(** ** The claims *)

(** [KClosestNodes::fill] ends with at most [maxEntries] nodes.  The table
    entries among them are eligible; there is a run of neighbouring buckets
    around the target's bucket such that no eligible entry of the run that was
    left out is closer to the target than a node of the result; and the run is
    the whole table or has enough eligible entries for a full result without
    bootstrap nodes. *)
Theorem fill_closest_of_run (type : DHT_Type) (boot : list NodeInfo) (self : NodeInfo) (target localId : Id)
    (maxEntries : nat) (elig : SpE -> bool) (includeSelf : bool) (rt : RoutingTable) :
  RoutingTable.table_ok localId rt ->
  exists res vis l1 l2 b, fill type boot self target maxEntries elig includeSelf rt = Some res /\
    (length res <= maxEntries)%nat /\
    (forall e, KN_entry e ∈ res -> e ∈ RoutingTable.all_entries (buckets rt) /\ elig e = true) /\
    buckets rt = l1 ++ vis ++ l2 /\ b ∈ vis /\ isPrefixOf (prefix b) target = true /\
    (forall e k, e ∈ RoutingTable.all_entries vis -> elig e = true -> KN_entry e ∉ res -> k ∈ res ->
       dist target (kn_id k) <= dist target (eid e)) /\
    (l1 = [] /\ l2 = [] \/ length res = maxEntries /\ forall k, k ∈ res -> exists e, k = KN_entry e).
Proof.
  intros Hok. destruct (fill_correct type boot self target maxEntries elig localId includeSelf rt Hok)
    as (l1 & b & l2 & k1 & k2 & l1' & l2' & es & ex & El & Hc & Hb & -> & -> & Hp & Ef & Hex & Hex0 & Hd & _).
  destruct (shave_closest target maxEntries (es ++ ex)) as (Hlen & Hin & Hcl).
  set (res := shave target maxEntries (es ++ ex)) in *.
  assert (forall e, KN_entry e ∈ es ++ ex <-> e ∈ eligible elig (k1 ++ b :: k2)) as Hes.
  { intros e. rewrite elem_of_app, Hp, list_elem_of_fmap. split; [|by left; eauto].
    intros [(x & [= ->] & ?)|H]; [done|]. rewrite Forall_forall in Hex. by apply Hex in H. }
  exists res, (k1 ++ b :: k2), l1', l2', b. split_and!; [done|lia| | |set_solver|by apply isPrefixOf_interval; [apply Hb|]| |].
  - intros e He%Hin%Hes. apply list_elem_of_filter in He as [He1 He2]. split; [|done].
    apply RoutingTable.all_entries_elem in He2 as (x & Hx & He). apply RoutingTable.all_entries_elem.
    exists x. rewrite El. split; [set_solver|done].
  - rewrite El. by rewrite <- !app_assoc.
  - intros e k He Hel Hn Hk. apply (Hcl k (KN_entry e) Hk); [|done]. apply Hes, list_elem_of_filter. done.
  - destruct Hd as [Hd|[-> ->]]; [right|by left]. rewrite (Hex0 Hd), app_nil_r in *. split; [lia|].
    intros k Hk%Hin. rewrite Hp in Hk. apply list_elem_of_fmap in Hk as (e & -> & _). eauto.
Qed.

Lemma fill_closest_of_run_witness :
  exists res, fill DHT_IPV4 [] (MkNodeInfo zero SA_unspec 0) MAX_ID 8 (fun _ => true) true RoutingTable.RoutingTable_new
    = Some res /\ (length res <= 8)%nat.
Proof.
  destruct (fill_closest_of_run DHT_IPV4 [] (MkNodeInfo zero SA_unspec 0) MAX_ID zero 8 (fun _ => true) true
    RoutingTable.RoutingTable_new (RoutingTable.new_ok zero)) as (res & _ & _ & _ & _ & H1 & H2 & _).
  exists res. split; [exact H1|exact H2].
Defined.

(** When the bucket of the target has enough eligible entries, the result
    is exact: it is full, and no eligible entry of the whole table that was left
    out is closer to the target than any node of the result. *)
Theorem fill_exact (type : DHT_Type) (boot : list NodeInfo) (self : NodeInfo) (target localId : Id)
    (maxEntries : nat) (elig : SpE -> bool) (includeSelf : bool) (rt : RoutingTable) (b : KBucket) :
  RoutingTable.table_ok localId rt -> RoutingTable.getBucket rt target = Some b ->
  (maxEntries <= length (filter (fun e => elig e = true) (entries b)))%nat ->
  exists res, fill type boot self target maxEntries elig includeSelf rt = Some res /\ length res = maxEntries /\
    forall e k, e ∈ RoutingTable.all_entries (buckets rt) -> elig e = true -> KN_entry e ∉ res -> k ∈ res ->
      dist target (kn_id k) <= dist target (eid e).
Proof.
  intros Hok Hg Hm. destruct (fill_correct type boot self target maxEntries elig localId includeSelf rt Hok)
    as (l1 & b' & l2 & k1 & k2 & l1' & l2' & es & ex & El & Hc & Hb & E1 & E2 & Hp & Ef & Hex & Hex0 & Hd & Hfull).
  assert (b' = b) as ->.
  { destruct (RoutingTable.getBucket_correct localId rt target Hok) as (? & x & ? & Hg' & _ & _ & _ & Hu).
    rewrite Hg in Hg'. injection Hg' as <-. apply Hu; [rewrite El; set_solver|done]. }
  assert (eligible elig [b] = filter (fun e => elig e = true) (entries b)) as Eb
    by (unfold eligible, RoutingTable.all_entries; simpl; by rewrite app_nil_r).
  destruct Hfull as [-> ->]; [by rewrite Eb|]. simpl in Hp. rewrite Eb in Hp.
  assert (maxEntries <= length es)%nat as Hle by (by rewrite Hp, length_fmap).
  rewrite (Hex0 Hle), app_nil_r in *. destruct (shave_closest target maxEntries es) as (Hlen & Hin & Hcl).
  set (res := shave target maxEntries es) in *. exists res. split_and!; [done|lia|].
  intros e k He Hel Hn Hk. destruct (decide (e ∈ entries b)) as [Heb|Heb].
  - apply (Hcl k (KN_entry e) Hk); [|done]. rewrite Hp. by apply list_elem_of_fmap_2, list_elem_of_filter.
  - apply Hin in Hk. rewrite Hp in Hk. apply list_elem_of_fmap in Hk as (x & -> & [_ Hx]%list_elem_of_filter).
    apply Z.lt_le_incl, (prefix_closer (prefix b)); [apply Hb|done| |].
    + destruct Hb as (_ & _ & Hb). rewrite Forall_forall in Hb. by apply Hb.
    + intros Hce. apply Heb. by apply (RoutingTable.entry_bucket localId rt (eid e) e l1 b l2 Hok El Hce He).
Qed.

Lemma fill_exact_witness :
  exists rt b res, RoutingTable.run zero [(5, RoutingTable.op_put (RoutingTable.sample 5 1 7));
      (5, RoutingTable.op_put (RoutingTable.sample 5 2 9))] RoutingTable.RoutingTable_new = Some rt /\
    RoutingTable.getBucket rt (id_of_val 6) = Some b /\
    fill DHT_IPV4 [] (MkNodeInfo zero SA_unspec 0) (id_of_val 6) 1 (fun _ => true) false rt = Some res /\ length res = 1%nat.
Proof.
  destruct (RoutingTable.run zero _ RoutingTable.RoutingTable_new) as [rt|] eqn:E; [|vm_compute in E; discriminate E].
  pose proof (RoutingTable.run_ok zero _ _ E) as Hok.
  destruct (RoutingTable.getBucket rt (id_of_val 6)) as [b|] eqn:Eb; [|exfalso; vm_compute in E; injection E as <-; vm_compute in Eb; discriminate Eb].
  destruct (fill_exact DHT_IPV4 [] (MkNodeInfo zero SA_unspec 0) (id_of_val 6) zero 1 (fun _ => true) false rt b Hok Eb) as (res & H1 & H2 & _).
  - vm_compute in E. injection E as <-. vm_compute in Eb. injection Eb as <-. vm_compute. lia.
  - exists rt, b, res. split; [reflexivity|]. split; [exact Eb|]. split; [exact H1|exact H2].
Defined.

(** Three full buckets: the lower half of the key space and the two quarters of
    the upper half. *)
Definition three_buckets : list (Z * RoutingTable.table_op) :=
  (fun i => (100, RoutingTable.op_put (RoutingTable.sample 100 (Pos.of_succ_nat i)
     (Z.of_nat i + (if (i <? 8)%nat then 0 else if (i <? 16)%nat then 2 ^ 255 else 2 ^ 255 + 2 ^ 254))))) <$> seq 0 24.

Definition missed_closer (target : Id) (res : list KNode) (e : SpE) : bool :=
  forallb (fun k => match k with KN_entry x => negb (ptr x =? ptr e)%positive | _ => true end) res &&
  existsb (fun k => dist target (eid e) <? dist target (kn_id k)) res.

(** In general the result is not exact: in a reachable table with three
    full buckets, the sixteen nodes found for a target of the first bucket
    leave out an eligible node that is closer than one of them, because the
    buckets are visited in the order of their ranges and not of their distance. *)
Theorem fill_not_exact :
  exists rt target res e k, RoutingTable.reachable zero rt /\
    fill DHT_IPV4 [] (MkNodeInfo zero SA_unspec 0) target 16 (fun e => isEligibleForNodesList (obj e)) false rt = Some res /\
    e ∈ RoutingTable.all_entries (buckets rt) /\ isEligibleForNodesList (obj e) = true /\
    KN_entry e ∉ res /\ k ∈ res /\ (dist target (eid e) < dist target (kn_id k)).
Proof.
  set (target := id_of_val (2 ^ 254)). set (el := fun e : SpE => isEligibleForNodesList (obj e)).
  assert (match RoutingTable.run zero three_buckets RoutingTable.RoutingTable_new with
    | Some rt => match fill DHT_IPV4 [] (MkNodeInfo zero SA_unspec 0) target 16 el false rt with
        | Some res => existsb (fun e => el e && missed_closer target res e) (RoutingTable.all_entries (buckets rt))
        | None => false end
    | None => false end = true) as H by (vm_compute; reflexivity).
  destruct (RoutingTable.run zero three_buckets RoutingTable.RoutingTable_new) as [rt|] eqn:E; [|done].
  destruct (fill DHT_IPV4 _ _ target 16 el false rt) as [res|] eqn:Em; [|done].
  apply existsb_exists in H as (e & He%list_elem_of_In & [H1 [H2 H3]%andb_true_iff]%andb_true_iff).
  apply existsb_exists in H3 as (k & Hk%list_elem_of_In & H3%Z.ltb_lt).
  exists rt, target, res, e, k. split_and!; [|exact Em|exact He|exact H1| |exact Hk|exact H3].
  - exact (RoutingTable.run_reachable zero _ _ _ (RoutingTable.reach_new zero) E).
  - intros Hin%list_elem_of_In. rewrite forallb_forall in H2. specialize (H2 _ Hin). simpl in H2.
    rewrite Pos.eqb_refl in H2. discriminate H2.
Qed.
