(* ===== verification/Candidates.v ===== *)
(** * The state of a lookup: [CandidateNode], [ClosestCandidates] and [ClosestSet]
    of [src/core/task]

    A lookup keeps the nodes it still has to ask in [ClosestCandidates], sorted
    by their distance to the target, and the nodes that answered in
    [ClosestSet].  The candidate objects are shared between these two and the
    calls in flight; a lookup makes at most one object per id (a theorem of this
    file), so the model identifies an object with the id of its node. *)

From S2P Require Import Prelude Constants Ids Prefixes Addresses Entries KBuckets RoutingTables KClosest.

#[export] Instance Id_countable : Countable Id := inj_countable' id_val id_of_val id_of_val_id_val.

Record CandidateNode := MkCandidate {
  cn_info : NodeInfo;
  lastSent : Z;
  lastReply : Z;
  cn_reachable : bool;
  acked : bool;
  pinged : Z;
  cn_token : Z
}.

#[export] Instance CandidateNode_eq_dec : EqDecision CandidateNode.
Proof. solve_decision. Defined.

Definition cn_id (c : CandidateNode) : Id := nodeId (cn_info c).

Module CandidateNode.

(** ** Definitions *)

Definition CandidateNode_new (k : KNode) : CandidateNode := MkCandidate (kn_info k) 0 0 (kn_reachable k) false 0 0.

Definition setSent (now : Z) (c : CandidateNode) : CandidateNode :=
  MkCandidate (cn_info c) now (lastReply c) (cn_reachable c) (acked c) (pinged c + 1) (cn_token c).

Definition clearSent (c : CandidateNode) : CandidateNode :=
  MkCandidate (cn_info c) 0 (lastReply c) (cn_reachable c) (acked c) (pinged c) (cn_token c).

Definition setReplied (now : Z) (c : CandidateNode) : CandidateNode :=
  MkCandidate (cn_info c) (lastSent c) now (cn_reachable c) (acked c) (pinged c) (cn_token c).

Definition setToken (token : Z) (c : CandidateNode) : CandidateNode :=
  MkCandidate (cn_info c) (lastSent c) (lastReply c) (cn_reachable c) (acked c) (pinged c) token.

Definition isUnreachable (c : CandidateNode) : bool := 3 <=? pinged c.

Definition isInFlight (c : CandidateNode) : bool := negb (lastSent c =? 0).

Definition isEligible (c : CandidateNode) : bool := (lastSent c =? 0) && (pinged c <? 3).
End CandidateNode.

(** [SocketAddress::IpCompare] *)
Definition IpCompare (a b : SocketAddress) : bool :=
  if sa_empty a && sa_empty b then true
  else if negb (family a =? family b) then family a <? family b
  else lexicographical_compare (inaddr a) (inaddr b).

(** The order of the set of addresses: [operator<] in the development build ([CARRIER_DEVELOPMENT]). *)
Definition addr_less (development : bool) (a b : SocketAddress) : bool := if development then sa_ltb a b else IpCompare a b.

Record ClosestCandidates := MkCandidates {
  cc_development : bool;
  cc_target : Id;
  cc_capacity : nat;
  dedup_ids : gset Id;
  dedups_addrs : list SocketAddress;   (* a [std::set] with [addr_less] *)
  closest : list CandidateNode
}.

Module ClosestCandidates.
Import CandidateNode.

Definition set_closest (cc : ClosestCandidates) (l : list CandidateNode) : ClosestCandidates :=
  MkCandidates (cc_development cc) (cc_target cc) (cc_capacity cc) (dedup_ids cc) (dedups_addrs cc) l.

Definition ClosestCandidates_new (development : bool) (target : Id) (capacity : nat) : ClosestCandidates :=
  MkCandidates development target capacity ∅ [] [].

Definition reachedCapacity (cc : ClosestCandidates) : bool := (cc_capacity cc <=? length (closest cc))%nat.

Definition find_id (id : Id) (l : list CandidateNode) : option CandidateNode :=
  List.find (fun c => bool_decide (id = cn_id c)) l.

Definition get (id : Id) (cc : ClosestCandidates) : option CandidateNode := find_id id (closest cc).

Fixpoint remove_id (id : Id) (l : list CandidateNode) : list CandidateNode :=
  match l with
  | [] => []
  | c :: l => if bool_decide (id = cn_id c) then l else c :: remove_id id l
  end.

Definition remove (id : Id) (cc : ClosestCandidates) : option CandidateNode * ClosestCandidates :=
  (find_id id (closest cc), set_closest cc (remove_id id (closest cc))).

Definition candidateOrder (target : Id) (a b : CandidateNode) : Z :=
  let comparison := pinged a - pinged b in
  if negb (comparison =? 0) then (if comparison <? 0 then -1 else 1)
  else threeWayCompare target (cn_id a) (cn_id b).

Definition order_before (target : Id) (a b : CandidateNode) : bool := candidateOrder target a b <? 0.

Definition closer (target : Id) (a b : CandidateNode) : bool := threeWayCompare target (cn_id a) (cn_id b) <? 0.

Definition next (cc : ClosestCandidates) : option CandidateNode :=
  let candidates := filter (fun c => isEligible c = true) (closest cc) in
  head (sort_by (order_before (cc_target cc)) candidates).

Definition cc_head (cc : ClosestCandidates) : Id :=
  match head (closest cc) with Some c => cn_id c | None => distance (cc_target cc) MAX_ID end.

Definition cc_tail (cc : ClosestCandidates) : Id :=
  match list.last (closest cc) with Some c => cn_id c | None => distance (cc_target cc) MAX_ID end.

(** [dedups_addrs.insert(addr).second]: no equivalent element is in the set. *)
Definition addr_is_new (development : bool) (addr : SocketAddress) (s : list SocketAddress) : bool :=
  forallb (fun a => addr_less development a addr || addr_less development addr a) s.

(** The first loop of [add]. *)
Fixpoint filter_new (development : bool) (items : list KNode) (ids : gset Id) (addrs : list SocketAddress)
    : gset Id * list SocketAddress * list CandidateNode :=
  match items with
  | [] => (ids, addrs, [])
  | item :: items =>
      if bool_decide (kn_id item ∈ ids) then filter_new development items ids addrs
      else
        let ids := {[kn_id item]} ∪ ids in
        if negb (addr_is_new development (sockaddr (kn_info item)) addrs) then filter_new development items ids addrs
        else
          let '(ids, addrs, filtered) := filter_new development items ids (sockaddr (kn_info item) :: addrs) in
          (ids, addrs, CandidateNode_new item :: filtered)
  end.

(** The end of [add]: bring the list back to its capacity. *)
Definition trim (target : Id) (capacity : nat) (l : list CandidateNode) : list CandidateNode :=
  if (capacity <? length l)%nat then
    let toRemove := filter (fun c => isInFlight c = false) l in
    if (capacity <? length toRemove)%nat
    then foldl (fun l c => remove_id (cn_id c) l) l (drop capacity (sort_by (order_before target) toRemove))
    else l
  else l.

Definition add (candidates : list KNode) (cc : ClosestCandidates) : ClosestCandidates :=
  let '(ids, addrs, filtered) := filter_new (cc_development cc) candidates (dedup_ids cc) (dedups_addrs cc) in
  let filtered := sort_by (closer (cc_target cc)) filtered in
  let closest := merge_by (closer (cc_target cc)) (closest cc) filtered in
  MkCandidates (cc_development cc) (cc_target cc) (cc_capacity cc) ids addrs (trim (cc_target cc) (cc_capacity cc) closest).

(** ** The invariant *)

Definition cn_addr (c : CandidateNode) : SocketAddress := sockaddr (cn_info c).

(** The part of an address that the order of the set looks at. *)
Definition ip_key (development : bool) (a : SocketAddress) : Z * list Z := (family a, if development then raw a else inaddr a).

Lemma addr_is_new_key (development : bool) (a : SocketAddress) (s : list SocketAddress) :
  sa_empty a = false -> addr_is_new development a s = true -> ip_key development a ∉ ip_key development <$> s.
Proof.
  intros Ha Hn (b & E & Hb)%list_elem_of_fmap. unfold addr_is_new in Hn. rewrite forallb_forall in Hn.
  specialize (Hn b (proj1 (list_elem_of_In _ _) Hb)). injection E as Ef Ei. unfold addr_less, sa_ltb, IpCompare in Hn.
  destruct development; rewrite ?Ha, ?andb_false_r, Ef, Z.eqb_refl, Ei, lexicographical_compare_irrefl in Hn; done.
Qed.

Definition cdist (target : Id) (c : CandidateNode) : Z := dist target (cn_id c).

Definition cc_ok (cc : ClosestCandidates) : Prop :=
  sorted_by (closer (cc_target cc)) (closest cc) /\ NoDup (cn_id <$> closest cc) /\
  Forall (fun c => cn_id c ∈ dedup_ids cc) (closest cc) /\
  NoDup (ip_key (cc_development cc) <$> filter (fun a => sa_empty a = false) (cn_addr <$> closest cc)) /\
  Forall (fun c => cn_addr c ∈ dedups_addrs cc) (closest cc).

Lemma closer_alt (target : Id) (a b : CandidateNode) : closer target a b = ltb_key (cdist target) a b.
Proof. apply closer_key. Qed.

#[export] Instance closer_swo (target : Id) : StrictWeakOrder (closer target).
Proof. split; intros *; rewrite !closer_alt; [apply (swo_asym (ltb := ltb_key _))|apply (swo_neg_trans (ltb := ltb_key _))]. Qed.

(** [candidateOrder] is the lexicographic order of the number of requests and
    the distance. *)
Lemma order_before_iff (target : Id) (a b : CandidateNode) :
  order_before target a b = true <->
  pinged a < pinged b \/ pinged a = pinged b /\ cdist target a < cdist target b.
Proof.
  unfold order_before, candidateOrder. destruct (Z.eqb_spec (pinged a - pinged b) 0) as [E|E]; simpl.
  - rewrite closer_key, Z.ltb_lt. fold (cdist target a) (cdist target b). lia.
  - destruct (Z.ltb_spec (pinged a - pinged b) 0); rewrite Z.ltb_lt; lia.
Qed.

#[export] Instance order_swo (target : Id) : StrictWeakOrder (order_before target).
Proof.
  assert (forall a b, order_before target a b = false <-> ~ (pinged a < pinged b \/ pinged a = pinged b /\ cdist target a < cdist target b)) as H.
  { intros a b. rewrite <- order_before_iff. by destruct (order_before target a b). }
  split; intros *; rewrite ?H, ?order_before_iff; lia.
Qed.
(** ** Lemmas *)

Definition ip_keys (development : bool) (l : list SocketAddress) : list (Z * list Z) := ip_key development <$> filter (fun a => sa_empty a = false) l.

Lemma ip_keys_elem (development : bool) (k : Z * list Z) (l : list SocketAddress) :
  k ∈ ip_keys development l <-> exists a, k = ip_key development a /\ sa_empty a = false /\ a ∈ l.
Proof. unfold ip_keys. rewrite list_elem_of_fmap. setoid_rewrite list_elem_of_filter. done. Qed.

Lemma filter_new_spec (dv : bool) (items : list KNode) (ids ids' : gset Id) (addrs addrs' : list SocketAddress) (f : list CandidateNode) :
  filter_new dv items ids addrs = (ids', addrs', f) ->
  ids ⊆ ids' /\ addrs ⊆ addrs' /\ NoDup (cn_id <$> f) /\ NoDup (ip_keys dv (cn_addr <$> f)) /\
  (forall c, c ∈ f -> cn_id c ∉ ids /\ cn_id c ∈ ids' /\ cn_addr c ∈ addrs' /\
     (sa_empty (cn_addr c) = false -> ip_key dv (cn_addr c) ∉ ip_key dv <$> addrs) /\
     exists k, k ∈ items /\ c = CandidateNode_new k).
Proof.
  revert ids addrs ids' addrs' f. induction items as [|it items IH]; simpl; intros ids addrs ids' addrs' f.
  { intros [= <- <- <-]. split_and!; [done|done|constructor|constructor|]. set_solver. }
  case_bool_decide as Hin.
  { intros H. destruct (IH _ _ _ _ _ H) as (? & ? & ? & ? & Hc). split_and!; try done.
    intros c Hcf. destruct (Hc c Hcf) as (? & ? & ? & ? & k & ? & ?). split_and!; try done. exists k. set_solver. }
  destruct (addr_is_new dv (sockaddr (kn_info it)) addrs) eqn:Hn; simpl.
  - destruct (filter_new dv items _ _) as [[ids1 addrs1] f1] eqn:E. intros [= <- <- <-].
    destruct (IH _ _ _ _ _ E) as (H1 & H2 & H3 & H4 & Hc).
    assert (cn_id (CandidateNode_new it) = kn_id it) as Eid by (by destruct it).
    split_and!; [set_solver|set_solver| | |].
    + rewrite fmap_cons. apply NoDup_cons. split; [|done]. rewrite Eid.
      intros (c & Ec & Hcf)%list_elem_of_fmap. destruct (Hc c Hcf) as (H5 & _). set_solver.
    + rewrite fmap_cons. unfold ip_keys. rewrite filter_cons. case_decide as He; [|done].
      rewrite fmap_cons. apply NoDup_cons. split; [|done]. fold (ip_keys dv (cn_addr <$> f1)).
      intros (a & Ea & Hae & (c & -> & Hcf)%list_elem_of_fmap)%ip_keys_elem. destruct (Hc c Hcf) as (_ & _ & _ & H5 & _).
      apply (H5 Hae). rewrite <- Ea. simpl. left.
    + intros c [->|Hcf]%elem_of_cons.
      * split_and!; [by rewrite Eid|rewrite Eid; set_solver|apply H2; left| |exists it; set_solver].
        intros He. by apply addr_is_new_key.
      * destruct (Hc c Hcf) as (? & ? & ? & Hk & k & ? & ?). split_and!; [set_solver|done|done| |exists k; set_solver].
        intros He Hx. apply (Hk He). simpl. by right.
  - intros H. destruct (IH _ _ _ _ _ H) as (? & ? & ? & ? & Hc). split_and!; try done; [set_solver|].
    intros c Hcf. destruct (Hc c Hcf) as (? & ? & ? & ? & k & ? & ?). split_and!; try done; [set_solver|]. exists k. set_solver.
Qed.

Lemma remove_id_filter (id : Id) (l : list CandidateNode) :
  NoDup (cn_id <$> l) -> remove_id id l = filter (fun c => cn_id c <> id) l.
Proof.
  induction l as [|c l IH]; [done|]. rewrite fmap_cons, NoDup_cons. intros [Hc Hn]. simpl.
  case_bool_decide as E.
  - rewrite filter_cons_False by (intros H; by apply H). symmetry. apply filter_id, Forall_forall.
    intros x Hx Ex. apply Hc. rewrite <- E, <- Ex. by apply list_elem_of_fmap_2.
  - rewrite filter_cons_True by congruence. f_equal. by apply IH.
Qed.

Lemma nodup_ids_filter (P : CandidateNode -> Prop) `{!forall x, Decision (P x)} (l : list CandidateNode) :
  NoDup (cn_id <$> l) -> NoDup (cn_id <$> filter P l).
Proof. intros Hl. eapply sublist_NoDup; [exact Hl|]. apply fmap_sublist, sublist_filter. Qed.

Lemma remove_ids_filter (R l : list CandidateNode) :
  NoDup (cn_id <$> l) -> foldl (fun l c => remove_id (cn_id c) l) l R = filter (fun c => cn_id c ∉ cn_id <$> R) l.
Proof.
  revert l. induction R as [|r R IH]; intros l Hn; simpl.
  { symmetry. apply filter_id, Forall_forall. intros x _. apply not_elem_of_nil. }
  rewrite remove_id_filter by done. rewrite IH by (by apply nodup_ids_filter). rewrite list_filter_filter.
  apply list_filter_iff. intros x. rewrite not_elem_of_cons. tauto.
Qed.

Lemma id_unique (l : list CandidateNode) (c d : CandidateNode) :
  NoDup (cn_id <$> l) -> c ∈ l -> d ∈ l -> cn_id c = cn_id d -> c = d.
Proof.
  intros Hn [i Hi]%list_elem_of_lookup [j Hj]%list_elem_of_lookup E.
  assert (i = j) as ->; [|congruence]. eapply NoDup_lookup; [exact Hn|by rewrite list_lookup_fmap, Hi|].
  rewrite list_lookup_fmap, Hj. simpl. by rewrite E.
Qed.

(** What [add] drops is never in flight and never better than what it keeps. *)
Lemma trim_spec (target : Id) (capacity : nat) (l : list CandidateNode) :
  NoDup (cn_id <$> l) ->
  trim target capacity l `sublist_of` l /\
  (length (filter (fun c => isInFlight c = false) (trim target capacity l)) <= capacity)%nat /\
  (forall c, c ∈ l -> c ∉ trim target capacity l -> isInFlight c = false /\
     forall d, d ∈ trim target capacity l -> isInFlight d = false -> order_before target c d = false).
Proof.
  intros Hn. unfold trim. destruct (Nat.ltb_spec capacity (length l)) as [H1|H1].
  2:{ split_and!; [done| |done]. pose proof (length_filter (fun c => isInFlight c = false) l). lia. }
  destruct (Nat.ltb_spec capacity (length (filter (fun c => isInFlight c = false) l))) as [H2|H2]; [|by split_and!].
  set (tr := filter (fun c => isInFlight c = false) l) in *. set (s := sort_by (order_before target) tr).
  assert (s ≡ₚ tr) as Hp by apply sort_by_perm.
  assert (sorted_by (order_before target) s) as Hs by apply (sort_by_sorted (order_before target)).
  rewrite remove_ids_filter by done. set (R := drop capacity s).
  assert (s = take capacity s ++ R) as Es by (symmetry; apply take_drop).
  assert (forall x, x ∈ R -> x ∈ l /\ isInFlight x = false) as HR.
  { intros x Hx. assert (x ∈ tr) as Ht by (rewrite <- Hp, Es; set_solver). apply list_elem_of_filter in Ht. tauto. }
  assert (forall x, x ∈ l -> cn_id x ∈ cn_id <$> R -> x ∈ R) as Hid.
  { intros x Hx (y & E & Hy)%list_elem_of_fmap. destruct (HR y Hy) as [Hyl _]. by rewrite (id_unique l x y Hn Hx Hyl E). }
  split_and!; [apply sublist_filter| |].
  - rewrite list_filter_filter.
    replace (filter _ l) with (filter (fun c => cn_id c ∉ cn_id <$> R) tr)
      by (unfold tr; rewrite list_filter_filter; apply list_filter_iff; tauto).
    rewrite <- Hp. rewrite Es at 1. rewrite filter_app, length_app.
    rewrite (filter_none _ R), Nat.add_0_r.
    + etrans; [apply length_filter|]. rewrite length_take. lia.
    + apply Forall_forall. intros x Hx Hno. apply Hno. by apply list_elem_of_fmap_2.
  - intros c Hc Hno. assert (cn_id c ∈ cn_id <$> R) as HcR.
    { destruct (decide (cn_id c ∈ cn_id <$> R)); [done|]. destruct Hno. by apply list_elem_of_filter. }
    apply (Hid c Hc) in HcR. split; [by apply HR|]. intros d [Hd Hdl]%list_elem_of_filter Hfl.
    assert (d ∈ take capacity s) as Hdt.
    { assert (d ∈ s) as Hds by (rewrite Hp; by apply list_elem_of_filter). rewrite Es in Hds.
      apply elem_of_app in Hds as [?|?]; [done|]. destruct Hd. by apply list_elem_of_fmap_2. }
    unfold sorted_by in Hs. rewrite Es in Hs. apply StronglySorted_app in Hs as (Hs & _). by apply Hs.
Qed.

Lemma merged_ids (cc : ClosestCandidates) (f : list CandidateNode) (s : list CandidateNode) :
  cc_ok cc -> s ≡ₚ closest cc ++ f -> NoDup (cn_id <$> f) -> NoDup (ip_keys (cc_development cc) (cn_addr <$> f)) ->
  (forall c, c ∈ f -> cn_id c ∉ dedup_ids cc /\
     (sa_empty (cn_addr c) = false -> ip_key (cc_development cc) (cn_addr c) ∉ ip_key (cc_development cc) <$> dedups_addrs cc)) ->
  NoDup (cn_id <$> s) /\ NoDup (ip_keys (cc_development cc) (cn_addr <$> s)).
Proof.
  intros (_ & N1 & D1 & N2 & D2) Hs F1 F2 Hf. rewrite Forall_forall in D1. rewrite Forall_forall in D2.
  unfold ip_keys in *. rewrite Hs, !fmap_app, filter_app, fmap_app, !NoDup_app.
  split_and!; [done| |done|done| |done].
  - intros i (c & -> & Hc)%list_elem_of_fmap (d & E & Hd)%list_elem_of_fmap. destruct (Hf d Hd) as [Hno _].
    apply Hno. rewrite <- E. by apply D1.
  - intros k (a & -> & He & (c & -> & Hc)%list_elem_of_fmap)%ip_keys_elem
      (b & E & Hb & (d & -> & Hd)%list_elem_of_fmap)%ip_keys_elem.
    destruct (Hf d Hd) as [_ Hno]. apply (Hno Hb). rewrite <- E. apply list_elem_of_fmap_2. by apply D2.
Qed.

Lemma sublist_sorted (target : Id) (l k : list CandidateNode) :
  k `sublist_of` l -> sorted_by (closer target) l -> sorted_by (closer target) k.
Proof. apply sublist_StronglySorted. Qed.

Lemma sublist_ip_keys (dv : bool) (l k : list CandidateNode) :
  k `sublist_of` l -> NoDup (ip_keys dv (cn_addr <$> l)) -> NoDup (ip_keys dv (cn_addr <$> k)).
Proof.
  intros Hs. assert (ip_keys dv (cn_addr <$> k) `sublist_of` ip_keys dv (cn_addr <$> l)) as H.
  - induction Hs as [|x l k Hs IH|x l k Hs IH]; [done| |].
    + unfold ip_keys in *. rewrite !fmap_cons, !filter_cons. case_decide; [rewrite !fmap_cons; by constructor|done].
    + etrans; [exact IH|]. unfold ip_keys. rewrite fmap_cons, filter_cons. case_decide; [rewrite fmap_cons; by constructor|done].
  - intros Hn. by eapply sublist_NoDup.
Qed.

(** ** The claims *)

Lemma add_spec (items : list KNode) (cc : ClosestCandidates) :
  cc_ok cc ->
  let cc' := add items cc in
  cc_ok cc' /\ dedup_ids cc ⊆ dedup_ids cc' /\
  (forall c, c ∈ closest cc' -> c ∈ closest cc \/
     cn_id c ∉ dedup_ids cc /\ exists k, k ∈ items /\ c = CandidateNode_new k) /\
  (length (filter (fun c => isInFlight c = false) (closest cc')) <= cc_capacity cc)%nat /\
  (forall c, c ∈ closest cc -> c ∉ closest cc' -> isInFlight c = false /\
     forall d, d ∈ closest cc' -> isInFlight d = false -> order_before (cc_target cc) c d = false).
Proof.
  intros Hok cc'. pose proof Hok as (S1 & N1 & D1 & N2 & D2). unfold cc', add.
  destruct (filter_new (cc_development cc) items (dedup_ids cc) (dedups_addrs cc)) as [[ids addrs] f] eqn:E.
  destruct (filter_new_spec _ _ _ _ _ _ _ E) as (I1 & I2 & F1 & F2 & Hf).
  set (m := merge_by (closer (cc_target cc)) (closest cc) (sort_by (closer (cc_target cc)) f)).
  assert (m ≡ₚ closest cc ++ f) as Hm by (unfold m; by rewrite merge_by_perm, sort_by_perm).
  assert (sorted_by (closer (cc_target cc)) m) as Hs
    by (apply (merge_by_sorted (closer (cc_target cc))); [done|apply (sort_by_sorted (closer (cc_target cc)))]).
  destruct (merged_ids cc f m Hok Hm F1 F2) as [Mi Ma].
  { intros c Hc. destruct (Hf c Hc) as (? & _ & _ & ? & _). done. }
  destruct (trim_spec (cc_target cc) (cc_capacity cc) m Mi) as (T1 & T2 & T3). simpl.
  set (t := trim (cc_target cc) (cc_capacity cc) m) in *.
  assert (forall c, c ∈ t -> c ∈ closest cc \/ c ∈ f) as Ht.
  { intros c Hc. apply elem_of_app. rewrite <- Hm. eapply elem_of_submseteq; [exact Hc|by apply sublist_submseteq]. }
  split_and!; [unfold cc_ok; split_and!; simpl|done| |done|].
  - by eapply sublist_sorted.
  - eapply sublist_NoDup; [exact Mi|]. by apply fmap_sublist.
  - apply Forall_forall. intros c [Hc|Hc]%Ht; [rewrite Forall_forall in D1; auto|by apply Hf].
  - by eapply sublist_ip_keys.
  - apply Forall_forall. intros c [Hc|Hc]%Ht; [rewrite Forall_forall in D2; auto|by apply Hf].
  - intros c [Hc|Hc]%Ht; [by left|right]. destruct (Hf c Hc) as (? & _ & _ & _ & ?). done.
  - intros c Hc. apply T3. rewrite Hm. set_solver.
Qed.

(** [ClosestCandidates::add] keeps its invariant (candidates sorted by
    distance, one per id and one per IP address, or address in the development build) and adds only ids that it has
    never seen before, so no node becomes a candidate twice.  Afterwards at most
    [capacity] candidates are not in flight; what was dropped was not in flight
    and no better than any candidate not in flight that was kept. *)
Theorem candidates_add (items : list KNode) (cc : ClosestCandidates) :
  cc_ok cc ->
  let cc' := add items cc in
  cc_ok cc' /\ dedup_ids cc ⊆ dedup_ids cc' /\
  (forall c, c ∈ closest cc' -> c ∈ closest cc \/
     cn_id c ∉ dedup_ids cc /\ exists k, k ∈ items /\ c = CandidateNode_new k) /\
  (length (filter (fun c => isInFlight c = false) (closest cc')) <= cc_capacity cc)%nat /\
  (forall c, c ∈ closest cc -> c ∉ closest cc' -> isInFlight c = false /\
     forall d, d ∈ closest cc' -> isInFlight d = false -> order_before (cc_target cc) c d = false).
Proof. apply add_spec. Qed.

Lemma candidates_add_witness :
  cc_ok (add [KN_info (MkNodeInfo zero (SA_in 1 [8; 8; 8; 8]) 0); KN_info (MkNodeInfo MAX_ID (SA_in 1 [8; 8; 8; 9]) 0)]
    (ClosestCandidates_new false MAX_ID 1)).
Proof.
  refine (proj1 (candidates_add [KN_info _; KN_info _] (ClosestCandidates_new false MAX_ID 1) _)).
  split_and!; constructor.
Defined.

Lemma next_spec (cc : ClosestCandidates) :
  match next cc with
  | Some c => c ∈ closest cc /\ isEligible c = true /\
      forall d, d ∈ closest cc -> isEligible d = true ->
        pinged c < pinged d \/ pinged c = pinged d /\ (cdist (cc_target cc) c <= cdist (cc_target cc) d)
  | None => Forall (fun c => isEligible c = false) (closest cc)
  end.
Proof.
  unfold next. set (e := filter _ (closest cc)).
  pose proof (sort_by_perm (order_before (cc_target cc)) e) as Hp.
  pose proof (sort_by_sorted (order_before (cc_target cc)) e) as Hs.
  destruct (sort_by (order_before (cc_target cc)) e) as [|c s]; simpl.
  - apply Forall_forall. intros c Hc. destruct (isEligible c) eqn:E; [|done].
    assert (c ∈ e) as H by (by apply list_elem_of_filter). rewrite <- Hp in H. by apply not_elem_of_nil in H.
  - assert (c ∈ e) as [Hc Hin]%list_elem_of_filter by (rewrite <- Hp; left). split_and!; [done..|].
    intros d Hd He. assert (d ∈ e) as Hde by (by apply list_elem_of_filter). rewrite <- Hp in Hde.
    apply elem_of_cons in Hde as [->|Hds]; [lia|]. apply StronglySorted_inv in Hs as [_ Hs].
    rewrite Forall_forall in Hs. specialize (Hs d Hds). apply not_true_iff_false in Hs. rewrite order_before_iff in Hs. lia.
Qed.

(** [ClosestCandidates::next] returns a candidate that is not in flight and
    was asked fewer than three times; among those it has been asked least often
    and is closest to the target.  It returns nothing only when there is none. *)
Theorem candidates_next (cc : ClosestCandidates) :
  match next cc with
  | Some c => c ∈ closest cc /\ isEligible c = true /\
      forall d, d ∈ closest cc -> isEligible d = true ->
        pinged c < pinged d \/ pinged c = pinged d /\ (cdist (cc_target cc) c <= cdist (cc_target cc) d)
  | None => Forall (fun c => isEligible c = false) (closest cc)
  end.
Proof. apply next_spec. Qed.
End ClosestCandidates.
Record ClosestSet := MkClosestSet {
  cs_target : Id;
  cs_capacity : nat;
  cs_closest : list (Id * option CandidateNode);   (* a [std::map], in the order of its keys *)
  insertAttemptsSinceTailModification : Z;
  insertAttemptsSinceHeadModification : Z
}.

Module ClosestSet.

(** ** Definitions *)

Definition ClosestSet_new (target : Id) (capacity : nat) : ClosestSet := MkClosestSet target capacity [] 0 0.

(** [std::map<Id, ...>] orders its keys by [Id::operator<]. *)
Fixpoint map_find (id : Id) (m : list (Id * option CandidateNode)) : option (option CandidateNode) :=
  match m with
  | [] => None
  | (k, v) :: m => if bool_decide (k = id) then Some v else map_find id m
  end.

Fixpoint map_set (id : Id) (v : option CandidateNode) (m : list (Id * option CandidateNode)) : list (Id * option CandidateNode) :=
  match m with
  | [] => [(id, v)]
  | (k, x) :: m => if id_ltb id k then (id, v) :: (k, x) :: m
                   else if id_ltb k id then (k, x) :: map_set id v m
                   else (k, v) :: m
  end.

Definition set_map (cs : ClosestSet) (m : list (Id * option CandidateNode)) : ClosestSet :=
  MkClosestSet (cs_target cs) (cs_capacity cs) m (insertAttemptsSinceTailModification cs) (insertAttemptsSinceHeadModification cs).

Definition reachedCapacity (cs : ClosestSet) : bool := (cs_capacity cs <=? length (cs_closest cs))%nat.

(** [closest[id]] inserts a null pointer for a missing key. *)
Definition get (id : Id) (cs : ClosestSet) : option CandidateNode * ClosestSet :=
  match map_find id (cs_closest cs) with
  | Some v => (v, cs)
  | None => (None, set_map cs (map_set id None (cs_closest cs)))
  end.

Definition contains (id : Id) (cs : ClosestSet) : bool :=
  match map_find id (cs_closest cs) with Some _ => true | None => false end.

(** [last->second] is read after the element was erased, which is undefined; the value is taken
    to be the one that was erased.  It only decides whether the counter of the tail is reset. *)
Definition add (cn : CandidateNode) (cs : ClosestSet) : ClosestSet :=
  let m := map_set (cn_id cn) (Some cn) (cs_closest cs) in
  let '(m, tailMod) :=
    if (cs_capacity cs <? length m)%nat then
      (removelast m,
       match list.last m with
       | Some (k, _) =>
           if bool_decide (k = cn_id cn) then insertAttemptsSinceTailModification cs + 1 else 0
       | None => insertAttemptsSinceTailModification cs
       end)
    else (m, insertAttemptsSinceTailModification cs) in
  let headMod :=
    match m with
    | (k, _) :: _ => if bool_decide (k = cn_id cn) then 0 else insertAttemptsSinceHeadModification cs + 1
    | [] => insertAttemptsSinceHeadModification cs
    end in
  MkClosestSet (cs_target cs) (cs_capacity cs) m tailMod headMod.

Definition removeCandidate (id : Id) (cs : ClosestSet) : ClosestSet :=
  set_map cs (filter (fun kv => fst kv <> id) (cs_closest cs)).

Definition getEntries (cs : ClosestSet) : list (option CandidateNode) := snd <$> cs_closest cs.

Definition cs_tail (cs : ClosestSet) : Id :=
  match list.last (cs_closest cs) with Some (k, _) => k | None => distance (cs_target cs) MAX_ID end.

Definition cs_head (cs : ClosestSet) : Id :=
  match head (cs_closest cs) with Some (k, _) => k | None => distance (cs_target cs) MAX_ID end.

Definition isEligible (cs : ClosestSet) : bool :=
  reachedCapacity cs && (Z.of_nat (cs_capacity cs) <? insertAttemptsSinceTailModification cs).

(** ** The invariant *)

Definition keys (cs : ClosestSet) : list Id := fst <$> cs_closest cs.

Definition keys_sorted (l : list Id) : Prop := StronglySorted (fun i j => id_val i < id_val j) l.

Definition cs_ok (cs : ClosestSet) : Prop :=
  keys_sorted (keys cs) /\ (length (cs_closest cs) <= cs_capacity cs)%nat /\ (0 < cs_capacity cs)%nat.

Lemma map_set_keys (id : Id) (v : option CandidateNode) (m : list (Id * option CandidateNode)) :
  keys_sorted (fst <$> m) ->
  keys_sorted (fst <$> map_set id v m) /\ (forall k, k ∈ fst <$> map_set id v m <-> k = id \/ k ∈ fst <$> m) /\
  (length m <= length (map_set id v m) <= S (length m))%nat.
Proof.
  induction m as [|[k x] m IH]; simpl; intros Hs.
  { split_and!; [repeat constructor| |lia..]. intros k. rewrite list_elem_of_singleton. split; [by left|]. intros [?|[]%not_elem_of_nil]; done. }
  apply StronglySorted_inv in Hs as [Hs Hk]. destruct (IH Hs) as (I1 & I2 & I3). rewrite !id_ltb_val.
  destruct (Z.ltb_spec (id_val id) (id_val k)) as [H1|H1]; [|destruct (Z.ltb_spec (id_val k) (id_val id)) as [H2|H2]]; simpl.
  - split_and!; [|intros y; rewrite !elem_of_cons; tauto|lia..]. constructor; [by constructor|]. constructor; [done|].
    apply (Forall_impl _ _ _ Hk). lia.
  - split_and!; [|intros y; rewrite !elem_of_cons, I2; tauto|lia..]. constructor; [done|]. rewrite Forall_forall in *.
    intros y [->|Hy]%I2; [done|by apply Hk].
  - assert (k = id) as -> by (apply id_val_inj; lia). split_and!; [by constructor|intros y; rewrite !elem_of_cons; tauto|lia..].
Qed.

Lemma removelast_split {A} (l : list A) : l <> [] -> exists x, l = removelast l ++ [x] /\ list.last l = Some x.
Proof.
  intros H. destruct l as [|x l _] using rev_ind; [done|]. exists x. rewrite removelast_last. by rewrite last_snoc.
Qed.

(** ** The claims *)

Lemma cs_add_spec (cn : CandidateNode) (cs : ClosestSet) :
  cs_ok cs ->
  let cs' := add cn cs in
  cs_ok cs' /\ (forall k, k ∈ keys cs' -> k = cn_id cn \/ k ∈ keys cs) /\
  (forall k, k = cn_id cn \/ k ∈ keys cs -> k ∉ keys cs' ->
     reachedCapacity cs = true /\ (forall j, j ∈ keys cs' -> id_val j < id_val k) /\
     insertAttemptsSinceTailModification cs' =
       if bool_decide (k = cn_id cn) then insertAttemptsSinceTailModification cs + 1 else 0).
Proof.
  intros (Hs & Hl & Hc) cs'. unfold cs', add, keys.
  destruct (map_set_keys (cn_id cn) (Some cn) (cs_closest cs) Hs) as (M1 & M2 & M3).
  set (m := map_set (cn_id cn) (Some cn) (cs_closest cs)) in *.
  destruct (Nat.ltb_spec (cs_capacity cs) (length m)) as [Hlt|Hge].
  - destruct (removelast_split m) as ([k v] & Em & El); [intros E; rewrite E in Hlt; simpl in Hlt; lia|]. rewrite El.
    rewrite Em, fmap_app in M1. unfold keys_sorted in M1. apply StronglySorted_app in M1 as (S1 & S2 & _).
    assert (length m = S (length (removelast m))) as Hlen by (rewrite Em at 1; rewrite length_app; simpl; lia).
    split_and!; simpl.
    + split_and!; simpl; [done|lia|done].
    + intros j Hj. apply M2. rewrite Em, fmap_app. apply elem_of_app. by left.
    + intros j Hj Hno. apply M2 in Hj. rewrite Em, fmap_app in Hj. apply elem_of_app in Hj as [Hj|Hj]; [done|].
      apply list_elem_of_singleton in Hj. simpl in Hj. subst j. split_and!; [apply Nat.leb_le; lia| |done].
      intros j Hj. apply S1; [done|]. left.
  - split_and!; simpl.
    + split_and!; simpl; [done|lia|done].
    + intros j Hj. by apply M2.
    + intros j Hj Hno. destruct Hno. by apply M2.
Qed.

(** [ClosestSet::add] keeps the map sorted by id and within its capacity,
    and what it keeps are the smallest ids: the only key that can be missing
    afterwards is larger than every key that is left.  The counter of attempts
    since the tail changed goes up when the new node is the one dropped, and is
    reset when another is. *)
Theorem closestSet_add (cn : CandidateNode) (cs : ClosestSet) :
  cs_ok cs ->
  let cs' := add cn cs in
  cs_ok cs' /\ (forall k, k ∈ keys cs' -> k = cn_id cn \/ k ∈ keys cs) /\
  (forall k, k = cn_id cn \/ k ∈ keys cs -> k ∉ keys cs' ->
     reachedCapacity cs = true /\ (forall j, j ∈ keys cs' -> id_val j < id_val k) /\
     insertAttemptsSinceTailModification cs' =
       if bool_decide (k = cn_id cn) then insertAttemptsSinceTailModification cs + 1 else 0).
Proof. apply cs_add_spec. Qed.

Lemma closestSet_add_witness :
  cs_ok (add (CandidateNode.CandidateNode_new (KN_info (MkNodeInfo zero SA_unspec 0))) (ClosestSet_new MAX_ID 8)).
Proof.
  refine (proj1 (closestSet_add (CandidateNode.CandidateNode_new (KN_info (MkNodeInfo zero SA_unspec 0))) (ClosestSet_new MAX_ID 8) _)).
  split_and!; simpl; [constructor|lia|lia].
Defined.

Definition answer (v : Z) : CandidateNode :=
  CandidateNode.CandidateNode_new (KN_info (MkNodeInfo (id_of_val v) (SA_in 39001 [8; 8; 8; v mod 256]) 0)).

(** The set is not the set of the closest nodes: the keys are compared by
    [Id::operator<] and not by their distance to the target, so a full set drops
    a node that is closer to the target than all eight nodes that it keeps. *)
Theorem closestSet_drops_closest :
  exists target cn l, let cs := foldl (fun cs c => add c cs) (ClosestSet_new target 8) l in
    reachedCapacity cs = true /\ cn_id cn ∉ keys (add cn cs) /\
    (forall j, j ∈ keys (add cn cs) -> (dist target (cn_id cn) < dist target j)).
Proof.
  exists (id_of_val 255), (answer 254), (answer <$> seqZ 0 8). cbv zeta.
  set (cs := foldl _ _ _). split_and!; [vm_compute; reflexivity| |].
  - apply (bool_decide_eq_true (cn_id (answer 254) ∉ keys (add (answer 254) cs))). vm_compute. reflexivity.
  - intros j Hj. apply Z.ltb_lt.
    assert (forallb (fun j => dist (id_of_val 255) (cn_id (answer 254)) <? dist (id_of_val 255) j) (keys (add (answer 254) cs)) = true) as H
      by (vm_compute; reflexivity).
    exact (proj1 (forallb_forall _ _) H j (proj1 (list_elem_of_In _ _) Hj)).
Qed.
End ClosestSet.
