(* ===== verification/Tokens.v ===== *)
(** * Write tokens: [TokenManager] of [src/core/token_manager.cc]

    A node hands out a token with the answer to a lookup and asks for it back
    before it stores anything.  The token is taken from a SHA-256 digest, whose
    function is a parameter of the model; no property of it is assumed. *)

From S2P Require Import Prelude Ids Addresses.

Definition TOKEN_TIMEOUT : Z := 5 * 60 * 1000.

Record TokenManager := MkTokens {
  timestamp : Z;
  previousTimestamp : Z;
  sessionSecret : list Z
}.

(** [htons] and [htonll] on a little-endian machine: the bytes in network order. *)
Definition be16 (v : Z) : list Z := [v / 256 mod 256; v mod 256].
Definition be64 (v : Z) : list Z := (fun i => u64 v / 2 ^ (8 * i) mod 256) <$> [7; 6; 5; 4; 3; 2; 1; 0].

Section tokens.
Variable SHA256 : list Z -> list Z.

(** ** Definitions *)

(** [updateTokenTimestamps]; nobody else changes the timestamp, so the
    exchange succeeds at the first turn of the loop or after a spurious
    failure that changes nothing. *)
Definition updateTokenTimestamps (now : Z) (tm : TokenManager) : TokenManager :=
  if TOKEN_TIMEOUT <? u64 (now - timestamp tm)
  then MkTokens now (timestamp tm) (sessionSecret tm)
  else tm.

Definition digest_byte (digest : list Z) (i : Z) : Z := Z.land (nth (Z.to_nat i) digest 0) 0xff.

Definition generateToken_at (nodeId : Id) (addr : SocketAddress) (targetId : Id) (stamp : Z) (secret : list Z) : Z :=
  let digest := SHA256 (bytes nodeId ++ inaddr addr ++ be16 (port addr) ++ bytes targetId ++ be64 stamp ++ secret) in
  let pos := Z.land (digest_byte digest 0) 0x1f in
  i32 (Z.lor (Z.lor (Z.lor (Z.shiftl (digest_byte digest pos) 24)
                           (Z.shiftl (digest_byte digest (Z.land (pos + 1) 0x1f)) 16))
                    (Z.shiftl (digest_byte digest (Z.land (pos + 2) 0x1f)) 8))
             (digest_byte digest (Z.land (pos + 3) 0x1f))).

Definition generateToken (now : Z) (nodeId : Id) (addr : SocketAddress) (targetId : Id) (tm : TokenManager)
    : Z * TokenManager :=
  let tm := updateTokenTimestamps now tm in
  (generateToken_at nodeId addr targetId (timestamp tm) (sessionSecret tm), tm).

Definition verifyToken (now token : Z) (nodeId : Id) (addr : SocketAddress) (targetId : Id) (tm : TokenManager)
    : bool * TokenManager :=
  let tm := updateTokenTimestamps now tm in
  let currentToken := generateToken_at nodeId addr targetId (timestamp tm) (sessionSecret tm) in
  if token =? currentToken then (true, tm)
  else
    let previousToken := generateToken_at nodeId addr targetId (previousTimestamp tm) (sessionSecret tm) in
    (token =? previousToken, tm).

(** The state after operations at the given times: each of them does nothing
    to the state but update the timestamps. *)
Definition after (times : list Z) (tm : TokenManager) : TokenManager :=
  foldl (fun tm t => updateTokenTimestamps t tm) tm times.

(** ** Lemmas *)

(** [holds ts tm]: tokens of the timestamp [ts] are accepted. *)
Definition holds (ts : Z) (tm : TokenManager) : Prop := timestamp tm = ts \/ previousTimestamp tm = ts.

Lemma verify_holds (now token ts : Z) (nodeId : Id) (addr : SocketAddress) (targetId : Id) (tm : TokenManager) :
  holds ts (updateTokenTimestamps now tm) -> token = generateToken_at nodeId addr targetId ts (sessionSecret tm) ->
  fst (verifyToken now token nodeId addr targetId tm) = true.
Proof.
  intros Hh ->. unfold verifyToken.
  assert (sessionSecret (updateTokenTimestamps now tm) = sessionSecret tm) as Es
    by (unfold updateTokenTimestamps; by case_if).
  destruct (Z.eqb_spec (generateToken_at nodeId addr targetId ts (sessionSecret tm))
    (generateToken_at nodeId addr targetId (timestamp (updateTokenTimestamps now tm)) (sessionSecret (updateTokenTimestamps now tm)))) as [E|E];
    [done|]. simpl. apply Z.eqb_eq. destruct Hh as [<-|<-]; rewrite Es in *; congruence.
Qed.

Lemma after_secret (times : list Z) (tm : TokenManager) : sessionSecret (after times tm) = sessionSecret tm.
Proof.
  revert tm. induction times as [|t times IH]; intros tm; [done|]. simpl. rewrite IH.
  unfold updateTokenTimestamps. by case_if.
Qed.

(** Within the timeout after [t0] the timestamp changes at most once: it is
    still [ts], or it is a later time and [ts] is the previous one. *)
Definition fresh (ts t0 : Z) (tm : TokenManager) : Prop :=
  timestamp tm = ts \/ previousTimestamp tm = ts /\ t0 <= timestamp tm.

Lemma after_fresh (times : list Z) (ts t0 : Z) (tm : TokenManager) :
  0 <= t0 -> t0 + TOKEN_TIMEOUT < 2 ^ 64 ->
  Forall (fun t => t0 <= t <= t0 + TOKEN_TIMEOUT) times -> timestamp tm <= t0 + TOKEN_TIMEOUT ->
  StronglySorted Z.le times -> (forall t, t ∈ times -> t0 <= timestamp tm -> timestamp tm <= t) ->
  fresh ts t0 tm -> fresh ts t0 (after times tm).
Proof.
  intros Ht0 Hb. revert tm. induction times as [|t times IH]; intros tm Hf Hts Hs Hmono Hfr; [done|].
  apply Forall_cons in Hf as [Ht Hf]. apply StronglySorted_inv in Hs as [Hs Hle]. simpl.
  unfold updateTokenTimestamps. destruct (Z.ltb_spec TOKEN_TIMEOUT (u64 (t - timestamp tm))) as [Hup|Hno].
  - apply IH; simpl; [done|lia|done| |].
    + intros x Hx _. rewrite Forall_forall in Hle. by apply Hle.
    + destruct Hfr as [E|[E1 E2]]; [right; simpl; split; [done|lia]|].
      exfalso. specialize (Hmono t (list_elem_of_here _ _) E2).
      rewrite wrap_small in Hup by lia. unfold TOKEN_TIMEOUT in *. lia.
  - apply IH; try done. intros x Hx. apply Hmono. by right.
Qed.
End tokens.

(** ** The claims *)

Lemma token_accepted (SHA256 : list Z -> list Z) (t0 t1 : Z) (times : list Z) (nodeId : Id) (addr : SocketAddress)
    (targetId : Id) (tm : TokenManager) :
  0 <= timestamp tm <= t0 -> t0 <= t1 <= t0 + TOKEN_TIMEOUT -> t0 + TOKEN_TIMEOUT < 2 ^ 64 ->
  StronglySorted Z.le times -> Forall (fun t => t0 <= t <= t1) times ->
  let '(token, tm1) := generateToken SHA256 t0 nodeId addr targetId tm in
  fst (verifyToken SHA256 t1 token nodeId addr targetId (after times tm1)) = true.
Proof.
  intros Hts Ht1 Hb Hs Hf. unfold generateToken. set (tm1 := updateTokenTimestamps t0 tm).
  assert (0 <= timestamp tm1 <= t0 /\ t0 - timestamp tm1 <= TOKEN_TIMEOUT) as [Htm1 Hup].
  { unfold tm1, updateTokenTimestamps. destruct (Z.ltb_spec TOKEN_TIMEOUT (u64 (t0 - timestamp tm))) as [H|H]; simpl; [unfold TOKEN_TIMEOUT; lia|].
    rewrite wrap_small in H; lia. }
  pose proof (after_fresh (times ++ [t1]) (timestamp tm1) t0 tm1 ltac:(lia) Hb) as Ha.
  eapply verify_holds with (ts := timestamp tm1); [|by rewrite after_secret].
  assert (updateTokenTimestamps t1 (after times tm1) = after (times ++ [t1]) tm1) as ->
    by (unfold after; by rewrite foldl_app).
  assert (fresh (timestamp tm1) t0 (after (times ++ [t1]) tm1)) as [H|[H _]]; [|by left|by right].
  apply Ha.
  - apply Forall_app. split; [|repeat constructor; lia]. apply (Forall_impl _ _ _ Hf). lia.
  - unfold TOKEN_TIMEOUT. lia.
  - apply StronglySorted_app. split_and!; [|done|repeat constructor]. rewrite Forall_forall in Hf.
    intros x y Hx Hy%list_elem_of_singleton. subst y. by apply Hf.
  - intros t Ht Hge. rewrite Forall_forall in Hf. apply elem_of_app in Ht as [Ht|Ht]; [specialize (Hf t Ht); lia|].
    apply list_elem_of_singleton in Ht. lia.
  - by left.
Qed.

(** A token is accepted, for the same node, address and target, during the
    five minutes after it was handed out, whatever other tokens are made or
    checked in between. *)
Theorem token_valid (SHA256 : list Z -> list Z) (t0 t1 : Z) (times : list Z) (nodeId : Id) (addr : SocketAddress)
    (targetId : Id) (tm : TokenManager) :
  0 <= timestamp tm <= t0 -> t0 <= t1 <= t0 + TOKEN_TIMEOUT -> t0 + TOKEN_TIMEOUT < 2 ^ 64 ->
  StronglySorted Z.le times -> Forall (fun t => t0 <= t <= t1) times ->
  let '(token, tm1) := generateToken SHA256 t0 nodeId addr targetId tm in
  fst (verifyToken SHA256 t1 token nodeId addr targetId (after times tm1)) = true.
Proof. apply token_accepted. Qed.

Lemma token_valid_witness :
  let '(token, tm1) := generateToken (fun l => take 32 (l ++ replicate 32 7)) 1000000 zero (SA_in 80 [1; 2; 3; 4]) MAX_ID (MkTokens 0 0 [1; 2; 3]) in
  fst (verifyToken (fun l => take 32 (l ++ replicate 32 7)) 1300000 token zero (SA_in 80 [1; 2; 3; 4]) MAX_ID (after [1100000; 1300000] tm1)) = true.
Proof.
  apply (token_valid (fun l => take 32 (l ++ replicate 32 7)) 1000000 1300000 [1100000; 1300000]);
    unfold TOKEN_TIMEOUT; simpl; [lia|lia|lia|repeat constructor; lia|repeat constructor; lia].
Defined.

(** A token does not expire on an idle node: however long ago it was made,
    the first operation after it still accepts it, since the update keeps the
    last timestamp as the previous one without looking at its age. *)
Theorem token_idle_accepted (SHA256 : list Z -> list Z) (t0 t1 : Z) (nodeId : Id) (addr : SocketAddress)
    (targetId : Id) (tm : TokenManager) :
  let '(token, tm1) := generateToken SHA256 t0 nodeId addr targetId tm in
  fst (verifyToken SHA256 t1 token nodeId addr targetId tm1) = true.
Proof.
  unfold generateToken. set (tm1 := updateTokenTimestamps t0 tm).
  eapply verify_holds with (ts := timestamp tm1); [|done].
  unfold updateTokenTimestamps at 1, holds. case_if; simpl; auto.
Qed.
