(* ===== verification/Values.v ===== *)
(** * Values and peers: [Value] of [src/core/value.cc] and [PeerInfo] of
    [src/core/peer_info.cc]

    What the network stores: immutable values named by the hash of their data,
    signed (and possibly encrypted) values named by their key and nonce, and
    signed announcements of peers.  The functions of libsodium and utf8proc they
    use are the interface [Sodium], with the documented behaviour the code
    relies on as its laws. *)

From S2P Require Import Prelude Ids Tokens.

(** The exceptions of the constructors and of [update], of the storage, of the
    classes over libsodium, and of the messages; [Out_of_bounds] is not an exception
    but an access behind the end of an array. *)
Inductive error :=
  | Invalid_private_key | Invalid_nonce | Invalid_sequence_number | Invalid_signature | Invalid_data
  | Invalid_id | Invalid_peer_id | Invalid_node_id | Invalid_origin_id | Invalid_port
  | Immutable_value | Not_the_owner
  | Validation_failed | Replaces_mutable | Not_the_owner_of_value | Sequence_number_less | CAS_failure
  | Invalid_size | Buffer_too_small | Length_error | Crypto_error
  | Message_error | Json_error | Invalid_argument | Bad_optional | Out_of_bounds
  | Domain_error | Out_of_range | Illegal_state | Future_error | Runtime_error | Dht_error
  | Bad_any_cast | Undefined_behaviour.

Inductive result (A : Type) := Ok (a : A) | Throw (e : error).
Arguments Ok {A} a.
Arguments Throw {A} e.

(** An exception leaves the function. *)
Notation "x <-! m ; k" := (match m with Ok x => k | Throw e => Throw e end)
  (at level 100, m at next level, k at level 200, right associativity) : carrier_scope.

(** Member functions that may throw: the result, and the object as it is then. *)
Definition SM (S A : Type) : Type := S -> result A * S.
Definition sm_ret {S A} (a : A) : SM S A := fun s => (Ok a, s).
Definition sm_lift {S A} (r : result A) : SM S A := fun s => (r, s).
Definition sm_modify {S} (f : S -> S) : SM S unit := fun s => (Ok (), f s).
Definition sm_bind {S A B} (m : SM S A) (f : A -> SM S B) : SM S B :=
  fun s => match m s with (Ok a, s) => f a s | (Throw e, s) => (Throw e, s) end.

(** What holds when it does not throw. *)
Definition sm_post {S A} (P : S -> Prop) (m : SM S A) (Q : A -> S -> Prop) : Prop :=
  forall s, P s -> match m s with (Ok a, s') => Q a s' | (Throw _, _) => True end.

Lemma sm_post_bind {S A B} P (m : SM S A) R (f : A -> SM S B) Q :
  sm_post P m R -> (forall a, sm_post (R a) (f a) Q) -> sm_post P (sm_bind m f) Q.
Proof. intros Hm Hf s Hs. unfold sm_bind. specialize (Hm s Hs). destruct (m s) as [[a|e] s1]; [by apply Hf|done]. Qed.

Lemma sm_post_ret {S A} (P : S -> Prop) (a : A) Q : (forall s, P s -> Q a s) -> sm_post P (sm_ret a) Q.
Proof. intros H s Hs. by apply H. Qed.

Lemma sm_post_modify {S} (P : S -> Prop) f Q : (forall s, P s -> Q () (f s)) -> sm_post P (sm_modify f) Q.
Proof. intros H s Hs. by apply H. Qed.

Lemma sm_post_lift {S A} (P : S -> Prop) (r : result A) Q : (forall a s, r = Ok a -> P s -> Q a s) -> sm_post P (sm_lift r) Q.
Proof. intros H s Hs. unfold sm_lift. destruct r; [by apply H|done]. Qed.

Lemma sm_keep_bind {S A B} (P : S -> Prop) (m : SM S A) (f : A -> SM S B) :
  sm_post P m (fun _ => P) -> (forall a, sm_post P (f a) (fun _ => P)) -> sm_post P (sm_bind m f) (fun _ => P).
Proof. intros Hm Hf. by eapply sm_post_bind. Qed.

Lemma sm_bind_throws {S A B} (m : SM S A) (f : A -> SM S B) s :
  (forall a s, exists e s', f a s = (Throw e, s')) -> exists e s', sm_bind m f s = (Throw e, s').
Proof. intros H. unfold sm_bind. destruct (m s) as [[a|e] s1]; [apply H|by eexists _, _]. Qed.

Notation "x <~ m ; k" := (sm_bind m (fun x => k)) (at level 20, m at level 100, k at level 200, right associativity) : carrier_scope.
Notation "m ;~ k" := (sm_bind m (fun _ => k)) (at level 65, k at level 65, right associativity) : carrier_scope.

Definition PRIVATE_KEY_BYTES : nat := 64.
Definition NONCE_BYTES : nat := 24.
Definition SIGNATURE_BYTES : nat := 64.
Definition SEED_BYTES : nat := 32.

(** libsodium's Ed25519 signatures, SHA-256 and boxes, and utf8proc's
    normalisation.  A box carries its authentication tag, so it is never empty. *)
Class Sodium := {
  crypto_sign : list Z -> list Z -> list Z;               (* data, private key *)
  crypto_verify : list Z -> list Z -> list Z -> bool;     (* signature, data, public key *)
  sk_to_pk : list Z -> list Z;
  sha256 : list Z -> list Z;
  box_encrypt : list Z -> list Z -> Id -> list Z -> list Z;   (* data, nonce, recipient, private key *)
  sign_seed_keypair : list Z -> list Z * list Z;          (* seed; private and public key *)
  utf8proc_NFC : list Z -> option (list Z);               (* [None] is a null pointer *)
  crypto_sign_length data sk : length (crypto_sign data sk) = SIGNATURE_BYTES;
  sk_to_pk_length sk : length (sk_to_pk sk) = ID_BYTES;
  sk_to_pk_bytes sk : Forall is_byte (sk_to_pk sk);
  sha256_length data : length (sha256 data) = ID_BYTES;
  box_nonempty data nonce recipient sk : box_encrypt data nonce recipient sk <> [];
  sign_seed_pk seed : length seed = SEED_BYTES -> sk_to_pk (fst (sign_seed_keypair seed)) = snd (sign_seed_keypair seed);
  crypto_verify_sign seed data : length seed = SEED_BYTES ->
    crypto_verify (crypto_sign data (fst (sign_seed_keypair seed))) data (snd (sign_seed_keypair seed)) = true;
  utf8proc_NFC_idem s t : utf8proc_NFC s = Some t -> utf8proc_NFC t = Some t
}.

(** The private keys that libsodium makes.  Any other 64 bytes can be used as a private key as well, but
    nothing is known about their signatures. *)
Definition secret_key {sodium : Sodium} (sk : list Z) : Prop := exists seed, length seed = SEED_BYTES /\ sk = fst (sign_seed_keypair seed).

Lemma verify_signed {sodium : Sodium} data sk : secret_key sk -> crypto_verify (crypto_sign data sk) data (sk_to_pk sk) = true.
Proof. intros (seed & Hl & ->). rewrite sign_seed_pk by done. by apply crypto_verify_sign. Qed.

Record Value := MkValue {
  v_publicKey : option Id;
  v_recipient : option Id;
  v_privateKey : option (list Z);
  v_nonce : option (list Z);
  v_signature : option (list Z);
  v_data : list Z;
  sequenceNumber : Z
}.

#[export] Instance Value_eq_dec : EqDecision Value.
Proof. solve_decision. Defined.

Record PeerInfo := MkPeer {
  p_publicKey : Id;
  p_privateKey : option (list Z);
  p_nodeId : Id;
  p_origin : Id;
  p_port : Z;
  alternativeURL : option (list Z);
  p_signature : list Z
}.

#[export] Instance PeerInfo_eq_dec : EqDecision PeerInfo.
Proof. solve_decision. Defined.

(** [Id(const Blob&)] *)
Definition Id_of_blob (b : list Z) : result Id :=
  if bool_decide (b = []) || negb (length b =? ID_BYTES)%nat then Throw Invalid_id else Ok (mk_id b).

(** The four bytes of an [int32_t] in memory on a little-endian machine. *)
Definition le32 (v : Z) : list Z := (fun i => wrap 32 v / 2 ^ (8 * i) mod 256) <$> [0; 1; 2; 3].

Module Value.

Section value.
Context {sodium : Sodium}.

(** ** Definitions *)

Definition isEncrypted (v : Value) : bool := bool_decide (is_Some (v_recipient v)).
Definition isSigned (v : Value) : bool := bool_decide (is_Some (v_signature v)).
Definition isMutable (v : Value) : bool := bool_decide (is_Some (v_publicKey v)).
Definition hasPrivateKey (v : Value) : bool := bool_decide (is_Some (v_privateKey v)).

(** [Value::of]: the constructor from the parts of a received or stored value. *)
Definition Value_of (publicKey privateKey recipient nonce : list Z) (seq : Z) (signature data : list Z) : result Value :=
  if bool_decide (publicKey = []) then
    if bool_decide (data = []) then Throw Invalid_data
    else Ok (MkValue None None None None None data 0)
  else if negb (bool_decide (privateKey = [])) && negb (length privateKey =? PRIVATE_KEY_BYTES)%nat then Throw Invalid_private_key
  else if negb (length nonce =? NONCE_BYTES)%nat then Throw Invalid_nonce
  else if seq <? 0 then Throw Invalid_sequence_number
  else if negb (length signature =? SIGNATURE_BYTES)%nat then Throw Invalid_signature
  else match Id_of_blob publicKey with
  | Throw e => Throw e
  | Ok pk =>
      let sk := if bool_decide (privateKey = []) then None else Some privateKey in
      match (if bool_decide (recipient = []) then Ok None
             else match Id_of_blob recipient with Ok i => Ok (Some i) | Throw e => Throw e end) with
      | Throw e => Throw e
      | Ok rec =>
          if bool_decide (data = []) then Throw Invalid_data
          else Ok (MkValue (Some pk) rec sk (Some nonce) (Some signature) data seq)
      end
  end.

(** [Value::getSignData]; only called when there is a nonce. *)
Definition getSignData (v : Value) : list Z :=
  match v_recipient v with Some r => bytes r | None => [] end ++
  default [] (v_nonce v) ++ le32 (sequenceNumber v) ++ v_data v.

(** The constructor that signs, from a key pair. *)
Definition Value_signed (sk : list Z) (recipient : option Id) (nonce : list Z) (seq : Z) (data : list Z) : result Value :=
  if seq <? 0 then Throw Invalid_sequence_number
  else if bool_decide (data = []) then Throw Invalid_data
  else
    let pk := mk_id (sk_to_pk sk) in
    let data := match recipient with Some r => box_encrypt data nonce r sk | None => data end in
    let v := MkValue (Some pk) recipient (Some sk) (Some nonce) None data seq in
    Ok (MkValue (Some pk) recipient (Some sk) (Some nonce) (Some (crypto_sign (getSignData v) sk)) data seq).

Definition createValue (data : list Z) : result Value := Value_of [] [] [] [] (-1) [] data.
Definition createSignedValue (sk nonce : list Z) (seq : Z) (data : list Z) : result Value := Value_signed sk None nonce seq data.
Definition createEncryptedValue (sk : list Z) (recipient : Id) (nonce : list Z) (seq : Z) (data : list Z) : result Value :=
  Value_signed sk (Some recipient) nonce seq data.

Definition calculateId (publicKey : option Id) (nonce : option (list Z)) (data : list Z) : Id :=
  match publicKey with
  | Some pk => mk_id (sha256 (bytes pk ++ default [] nonce))
  | None => mk_id (sha256 data)
  end.

Definition getId (v : Value) : Id := calculateId (v_publicKey v) (v_nonce v) (v_data v).

Definition isValid (v : Value) : bool :=
  if bool_decide (v_data v = []) then false
  else match v_publicKey v with
  | Some pk => crypto_verify (default [] (v_signature v)) (getSignData v) (bytes pk)
  | None => true
  end.

(** [Value::update]; [sequenceNumber + 1] is signed 32-bit arithmetic. *)
Definition update (data : list Z) (v : Value) : result Value :=
  if negb (isMutable v) then Throw Immutable_value
  else match v_privateKey v with
  | None => Throw Not_the_owner
  | Some sk => Value_signed sk (v_recipient v) (default [] (v_nonce v)) (i32 (sequenceNumber v + 1)) data
  end.

(** [Value::operator==] *)
Definition value_eqb (a b : Value) : bool :=
  bool_decide (v_publicKey a = v_publicKey b) && bool_decide (v_recipient a = v_recipient b) &&
  bool_decide (v_signature a = v_signature b) && bool_decide (v_nonce a = v_nonce b) &&
  bool_decide (v_data a = v_data b) && (sequenceNumber a =? sequenceNumber b).

(** What is sent of a value: [FindValueResponse::setValue] and
    [StoreValueRequest::setValue], and [getValue] of both. *)
Record SentValue := MkSent {
  s_publicKey : option Id;
  s_recipient : option Id;
  s_nonce : option (list Z);
  s_signature : option (list Z);
  s_sequenceNumber : Z;
  s_value : list Z
}.

Definition setValue (v : Value) (initial_seq : Z) : SentValue :=
  if isMutable v
  then MkSent (v_publicKey v) (v_recipient v) (v_nonce v) (v_signature v) (sequenceNumber v) (v_data v)
  else MkSent None None None None initial_seq (v_data v).

Definition blob_of (o : option Id) : list Z := match o with Some i => bytes i | None => [] end.

Definition getValue (s : SentValue) : result Value :=
  Value_of (blob_of (s_publicKey s)) [] (blob_of (s_recipient s)) (default [] (s_nonce s)) (s_sequenceNumber s)
    (default [] (s_signature s)) (s_value s).

(** ** Lemmas *)

(** The values the constructors make. *)
Definition value_ok (v : Value) : Prop :=
  v_data v <> [] /\
  match v_publicKey v with
  | None => v = MkValue None None None None None (v_data v) 0
  | Some _ => 0 <= sequenceNumber v /\
      (exists n, v_nonce v = Some n /\ length n = NONCE_BYTES) /\
      (exists s, v_signature v = Some s /\ length s = SIGNATURE_BYTES)
  end.

Lemma id_blob_ok (i : Id) : Id_of_blob (bytes i) = Ok i.
Proof.
  unfold Id_of_blob. rewrite id_length. case_bool_decide as E; [pose proof (id_length i) as Hl; by rewrite E in Hl|].
  simpl. f_equal. apply id_eq, bytes_mk_id; auto with carrier.
Qed.

Lemma bytes_nonempty (i : Id) : bytes i <> [].
Proof. intros E. pose proof (id_length i) as Hl. by rewrite E in Hl. Qed.

Lemma mk_id_pk sk : bytes (mk_id (sk_to_pk sk)) = sk_to_pk sk.
Proof. apply bytes_mk_id; [apply sk_to_pk_length|apply sk_to_pk_bytes]. Qed.

Lemma value_of_ok pk sk rec n seq sig d v : Value_of pk sk rec n seq sig d = Ok v -> value_ok v.
Proof.
  unfold Value_of. intros H0. case_bool_decide as E1.
  - case_bool_decide as E2; [done|]. injection H0 as <-. by split.
  - destruct (negb _ && negb _); [done|]. destruct (Nat.eqb_spec (length n) NONCE_BYTES) as [Hn|]; [|done]. simpl in H0.
    destruct (Z.ltb_spec seq 0); [done|]. destruct (Nat.eqb_spec (length sig) SIGNATURE_BYTES) as [Hs|]; [|done]. simpl in H0.
    destruct (Id_of_blob pk); [|done]. destruct (if bool_decide (rec = []) then _ else _); [|done].
    case_bool_decide as E3; [done|]. injection H0 as <-. split; [done|]. simpl. eauto 10.
Qed.

Lemma value_signed_inv sk rec n seq d v :
  Value_signed sk rec n seq d = Ok v ->
  value_eqb v v = true /\ (secret_key sk -> isValid v = true) /\ v_publicKey v = Some (mk_id (sk_to_pk sk)) /\ v_recipient v = rec /\
  v_privateKey v = Some sk /\ v_nonce v = Some n /\ sequenceNumber v = seq /\ 0 <= seq /\
  (length n = NONCE_BYTES -> value_ok v).
Proof.
  unfold Value_signed. destruct (Z.ltb_spec seq 0); [done|]. case_bool_decide as Ed; [done|]. intros [= <-].
  set (d' := match rec with Some _ => _ | None => _ end).
  assert (d' <> []) as Hd by (unfold d'; destruct rec; [apply box_nonempty|done]).
  split_and!; try done.
  - unfold value_eqb. simpl. rewrite !bool_decide_eq_true_2 by done. by rewrite Z.eqb_refl.
  - intros Hk. unfold isValid. cbn [v_data v_publicKey v_signature default]. rewrite bool_decide_eq_false_2 by done.
    rewrite mk_id_pk. by apply verify_signed.
  - intros Hn. split; [done|]. simpl. split; [done|]. split; [by eexists|]. eexists. split; [done|]. apply crypto_sign_length.
Qed.

(** The parts a value has travel; its private key does not. *)
Definition without_key (v : Value) : Value :=
  MkValue (v_publicKey v) (v_recipient v) None (v_nonce v) (v_signature v) (v_data v) (sequenceNumber v).

Lemma sent_roundtrip v s0 : value_ok v -> getValue (setValue v s0) = Ok (without_key v).
Proof.
  intros [Hd Hv]. unfold setValue, isMutable, getValue. destruct (v_publicKey v) as [pk|] eqn:Ep.
  - destruct Hv as (Hs & (n & En & Ln) & (s & Es & Ls)). rewrite bool_decide_eq_true_2 by done. cbn [s_publicKey s_recipient s_nonce s_signature s_sequenceNumber s_value].
    rewrite En, Es. unfold Value_of. cbn [blob_of default].
    rewrite bool_decide_eq_false_2 by apply bytes_nonempty. rewrite bool_decide_eq_true_2 by done. simpl negb. cbn [andb].
    unfold id. rewrite Ln, Ls, !Nat.eqb_refl. simpl negb. cbn iota. destruct (Z.ltb_spec (sequenceNumber v) 0); [lia|].
    rewrite id_blob_ok. unfold without_key. destruct (v_recipient v) as [r|]; cbn [blob_of].
    + rewrite bool_decide_eq_false_2 by apply bytes_nonempty. rewrite id_blob_ok.
      rewrite bool_decide_eq_false_2 by done. by rewrite Ep, En, Es.
    + rewrite bool_decide_eq_true_2 by done. rewrite bool_decide_eq_false_2 by done. by rewrite Ep, En, Es.
  - rewrite bool_decide_eq_false_2 by (by intros [? [=]]). unfold Value_of. simpl.
    rewrite bool_decide_eq_false_2 by done. f_equal. rewrite Hv. done.
Qed.

Lemma without_key_valid v : isValid (without_key v) = isValid v /\ getId (without_key v) = getId v.
Proof. done. Qed.

(** ** Theorems *)

(** The life of a signed or encrypted value.  A value made with a key pair
    is valid; what the object of a store request or of a lookup response holds of
    it (behind [setValue]) is read back by [getValue] as the same value without
    the private key, and so is valid, equal to it and has the same id; and the owner
    can update it to any new non-empty data, which gives a valid value with the
    same id and the next sequence number.  A receiver has no private key and cannot
    update it.  (The bytes of the two messages are the subject of [Messages].) *)
Theorem signed_value_roundtrip sk recipient nonce seq data data' v s0 :
  secret_key sk -> Value_signed sk recipient nonce seq data = Ok v -> length nonce = NONCE_BYTES -> seq < 2 ^ 31 - 1 -> data' <> [] ->
  isValid v = true /\
  getValue (setValue v s0) = Ok (without_key v) /\ isValid (without_key v) = true /\
  value_eqb v (without_key v) = true /\ getId (without_key v) = getId v /\
  update data' (without_key v) = Throw Not_the_owner /\
  exists v', update data' v = Ok v' /\ isValid v' = true /\ getId v' = getId v /\
    sequenceNumber v' = sequenceNumber v + 1 /\ v_recipient v' = v_recipient v.
Proof.
  intros Hk Hv Hn Hs Hd. destruct (value_signed_inv _ _ _ _ _ _ Hv) as (H1 & H2%(fun H => H Hk) & H3 & H4 & H5 & H6 & H7 & H8 & H9).
  destruct (without_key_valid v) as [K1 K2].
  split; [done|]. split; [by apply sent_roundtrip, H9|]. split; [by rewrite K1|]. split; [exact H1|]. split; [done|].
  assert (isMutable v = true) as Hm by (unfold isMutable; rewrite H3; by apply bool_decide_eq_true_2).
  unfold update. change (isMutable (without_key v)) with (isMutable v). rewrite Hm. split; [done|]. simpl negb. cbn iota.
  rewrite H5, H4, H6, H7. cbn [default]. unfold id.
  assert (i32 (seq + 1) = seq + 1) as -> by (apply (swrap_small 32); lia).
  destruct (Value_signed sk recipient nonce (seq + 1) data') as [v'|e] eqn:Ev.
  - destruct (value_signed_inv _ _ _ _ _ _ Ev) as (_ & L2%(fun H => H Hk) & L3 & L4 & _ & L6 & L7 & _).
    exists v'. split_and!; try done; try congruence. unfold getId, calculateId. by rewrite L3, L6, H3, H6.
  - exfalso. unfold Value_signed in Ev. destruct (Z.ltb_spec (seq + 1) 0); [lia|]. by rewrite bool_decide_eq_false_2 in Ev.
Qed.
End value.
End Value.

#[local] Open Scope carrier_scope.

Module PeerInfo.

Section peer.
Context {sodium : Sodium}.

(** ** Definitions *)

Definition isDelegated (p : PeerInfo) : bool := negb (bool_decide (p_nodeId p = p_origin p)).

(** The assignment of the URL.  A text that is not UTF-8 has no normal form, and a string is then made of a null
    pointer. *)
Definition normal_url (url : list Z) : result (option (list Z)) :=
  if bool_decide (url = []) then Ok None
  else match utf8proc_NFC url with Some u => Ok (Some u) | None => Throw Undefined_behaviour end.

(** [PeerInfo::of]: the constructor from the parts of a received or stored peer. *)
Definition PeerInfo_of (peerId privateKey nodeId origin : list Z) (port : Z) (url signature : list Z) : result PeerInfo :=
  if negb (length peerId =? ID_BYTES)%nat then Throw Invalid_peer_id
  else if negb (bool_decide (privateKey = [])) && negb (length privateKey =? PRIVATE_KEY_BYTES)%nat then Throw Invalid_private_key
  else if negb (length nodeId =? ID_BYTES)%nat then Throw Invalid_node_id
  else if negb (bool_decide (origin = [])) && negb (length origin =? ID_BYTES)%nat then Throw Invalid_origin_id
  else if (u16 port <=? 0) || (65535 <? u16 port) then Throw Invalid_port
  else if negb (length signature =? SIGNATURE_BYTES)%nat then Throw Invalid_signature
  else
    url <-! normal_url url;
    Ok (MkPeer (mk_id peerId) (if bool_decide (privateKey = []) then None else Some privateKey) (mk_id nodeId)
          (mk_id (if bool_decide (origin = []) then nodeId else origin)) (u16 port) url signature).

(** [PeerInfo::getSignData] *)
Definition getSignData (p : PeerInfo) : list Z :=
  bytes (p_nodeId p) ++ bytes (p_origin p) ++ be16 (p_port p) ++ default [] (alternativeURL p).

(** [PeerInfo::create] with a key pair: the constructor that signs. *)
Definition PeerInfo_create (sk : list Z) (nodeId origin : Id) (port : Z) (url : list Z) : result PeerInfo :=
  if (u16 port <=? 0) || (65535 <? u16 port) then Throw Invalid_port
  else
    url <-! normal_url url;
    let p := MkPeer (mk_id (sk_to_pk sk)) (Some sk) nodeId (if bool_decide (origin = MIN_ID) then nodeId else origin) (u16 port) url [] in
    Ok (MkPeer (p_publicKey p) (p_privateKey p) (p_nodeId p) (p_origin p) (p_port p) (alternativeURL p)
          (crypto_sign (getSignData p) sk)).

Definition isValid (p : PeerInfo) : bool :=
  if negb (length (p_signature p) =? SIGNATURE_BYTES)%nat then false
  else crypto_verify (p_signature p) (getSignData p) (bytes (p_publicKey p)).

(** [PeerInfo::operator==] and [operator<] *)
Definition peer_eqb (a b : PeerInfo) : bool :=
  bool_decide (p_publicKey a = p_publicKey b) && bool_decide (p_signature a = p_signature b).

Definition peer_ltb (a b : PeerInfo) : bool :=
  let rc := compareTo (p_publicKey a) (p_publicKey b) in
  if negb (rc =? 0) then rc <? 0
  else let rc := compareTo (p_nodeId a) (p_nodeId b) in
  if negb (rc =? 0) then rc <? 0
  else compareTo (p_origin a) (p_origin b) <? 0.

(** The parts of a peer as [FindPeerResponse] sends them: the origin only of a
    delegated peer, and the alternative URL only when there is one. *)
Definition sent_peer (p : PeerInfo) : result PeerInfo :=
  PeerInfo_of (bytes (p_publicKey p)) [] (bytes (p_nodeId p)) (if isDelegated p then bytes (p_origin p) else [])
    (p_port p) (default [] (alternativeURL p)) (p_signature p).

(** ** Lemmas *)

Definition peer_without_key (p : PeerInfo) : PeerInfo :=
  MkPeer (p_publicKey p) None (p_nodeId p) (p_origin p) (p_port p) (alternativeURL p) (p_signature p).

(** The peers the constructors make. *)
Definition peer_ok (p : PeerInfo) : Prop :=
  0 < p_port p < 65536 /\ length (p_signature p) = SIGNATURE_BYTES /\
  (forall u, alternativeURL p = Some u -> u <> [] /\ utf8proc_NFC u = Some u).

Lemma mk_id_bytes (i : Id) : mk_id (bytes i) = i.
Proof. apply id_eq, bytes_mk_id; auto with carrier. Qed.

Lemma normal_url_ok p : peer_ok p -> normal_url (default [] (alternativeURL p)) = Ok (alternativeURL p).
Proof.
  intros (_ & _ & Hu). unfold normal_url. destruct (alternativeURL p) as [u|] eqn:Eu; [|done]. destruct (Hu u eq_refl) as [Hne Hn].
  cbn [default]. unfold id. rewrite bool_decide_eq_false_2 by done. by rewrite Hn.
Qed.

Lemma sent_peer_ok p : peer_ok p -> sent_peer p = Ok (peer_without_key p).
Proof.
  intros Hok. pose proof Hok as (Hp & Hs & _). unfold sent_peer, PeerInfo_of. rewrite !id_length, Hs, !Nat.eqb_refl. cbn [negb].
  rewrite bool_decide_eq_true_2 by done. cbn [negb andb].
  assert (u16 (p_port p) = p_port p) as -> by (apply (wrap_small 16); lia).
  destruct (Z.leb_spec (p_port p) 0); [lia|]. destruct (Z.ltb_spec 65535 (p_port p)); [lia|]. cbn [orb].
  assert (negb (bool_decide ((if isDelegated p then bytes (p_origin p) else []) = [])) &&
    negb (length (if isDelegated p then bytes (p_origin p) else []) =? ID_BYTES)%nat = false) as ->.
  { destruct (isDelegated p); [by rewrite id_length, Nat.eqb_refl, andb_false_r|done]. }
  rewrite (normal_url_ok p Hok).
  f_equal. unfold peer_without_key. rewrite !mk_id_bytes. f_equal.
  - unfold isDelegated. destruct (decide (p_nodeId p = p_origin p)) as [E|E].
    + rewrite (bool_decide_eq_true_2 (p_nodeId p = p_origin p)) by done. cbn [negb].
      rewrite bool_decide_eq_true_2 by done. by rewrite mk_id_bytes.
    + rewrite (bool_decide_eq_false_2 (p_nodeId p = p_origin p)) by done. cbn [negb].
      rewrite bool_decide_eq_false_2 by apply Value.bytes_nonempty. apply mk_id_bytes.
Qed.

Lemma create_valid sk nodeId origin port url p :
  PeerInfo_create sk nodeId origin port url = Ok p ->
  (secret_key sk -> isValid p = true) /\ p_publicKey p = mk_id (sk_to_pk sk) /\ p_privateKey p = Some sk /\
  p_origin p = if bool_decide (origin = MIN_ID) then nodeId else origin.
Proof.
  unfold PeerInfo_create. destruct (_ || _); [done|]. destruct (normal_url url) as [u|]; [|done]. intros [= <-]. split; [|done].
  intros Hk. unfold isValid. cbn [p_signature p_publicKey]. rewrite crypto_sign_length, Nat.eqb_refl, Value.mk_id_pk. by apply verify_signed.
Qed.

(** ** Theorems *)

(** A peer made with a key pair is valid (an origin of zero means the node
    itself), and sending its parts in a lookup response and building a peer from
    them gives the same peer without the private key, again valid. *)
Theorem peer_roundtrip sk nodeId origin port url p :
  secret_key sk -> PeerInfo_create sk nodeId origin port url = Ok p -> (url <> [] -> utf8proc_NFC url <> Some []) ->
  isValid p = true /\ sent_peer p = Ok (peer_without_key p) /\ isValid (peer_without_key p) = true /\
  peer_eqb p (peer_without_key p) = true /\
  (isDelegated p = true <-> origin <> MIN_ID /\ origin <> nodeId).
Proof.
  intros Hk Hc Hu. pose proof (proj1 (create_valid _ _ _ _ _ _ Hc) Hk) as Hv. unfold PeerInfo_create in Hc.
  destruct (Z.leb_spec (u16 port) 0) as [|H1]; [done|]. destruct (Z.ltb_spec 65535 (u16 port)) as [|H2]; [done|].
  cbn [orb] in Hc. destruct (normal_url url) as [nu|] eqn:En; [|done]. injection Hc as <-.
  split; [exact Hv|]. split.
  { apply sent_peer_ok. split; [simpl; lia|]. split; [apply crypto_sign_length|]. cbn [alternativeURL].
    intros u Eu0. rewrite Eu0 in En. clear Eu0. unfold normal_url in En. destruct (bool_decide_reflect (url = [])) as [E|E]; [discriminate En|]. destruct (utf8proc_NFC url) as [u'|] eqn:Eu; [|done].
    injection En as ->. split; [intros ->; by apply Hu|by eapply utf8proc_NFC_idem]. }
  split; [exact Hv|]. split; [unfold peer_eqb; simpl; by rewrite !bool_decide_eq_true_2|].
  unfold isDelegated. cbn [p_nodeId p_origin]. rewrite negb_true_iff, bool_decide_eq_false.
  destruct (decide (origin = MIN_ID)) as [E|E].
  - rewrite bool_decide_eq_true_2 by done. tauto.
  - rewrite bool_decide_eq_false_2 by done. split; [by split|intros [_ Hn] ->]. done.
Qed.
End peer.
End PeerInfo.

(** ** Witnesses *)

Lemma norm_bytes_idem l : norm_bytes (norm_bytes l) = norm_bytes l.
Proof. apply (bytes_mk_id (norm_bytes l)); apply id_okb_spec, norm_bytes_ok. Qed.

Lemma norm_bytes_twice l : norm_bytes (norm_bytes l ++ norm_bytes l) = norm_bytes l.
Proof.
  assert (length (u8 <$> norm_bytes l) = ID_BYTES) as Hl by (rewrite length_fmap; apply length_resize).
  rewrite <- (norm_bytes_idem l) at 3. unfold norm_bytes at 1 4. rewrite fmap_app, resize_app_le by lia. done.
Qed.

(** A stand-in for libsodium with the laws of the interface: the signature is
    the start of the key, cut to its length. *)
#[local, refine] Instance toy_sodium : Sodium := {
  crypto_sign data sk := resize SIGNATURE_BYTES 0 (norm_bytes sk);
  crypto_verify sig data pk := bool_decide (sig = resize SIGNATURE_BYTES 0 pk);
  sk_to_pk sk := norm_bytes sk;
  sha256 data := norm_bytes data;
  box_encrypt data nonce r sk := 0 :: data;
  sign_seed_keypair seed := (norm_bytes seed ++ norm_bytes seed, norm_bytes seed);
  utf8proc_NFC s := Some s
}.
Proof.
  - intros. apply length_resize.
  - intros. apply length_resize.
  - intros. exact (proj2 (proj1 (id_okb_spec _) (norm_bytes_ok sk))).
  - intros. apply length_resize.
  - done.
  - intros. apply norm_bytes_twice.
  - intros. apply bool_decide_eq_true_2. simpl. by rewrite norm_bytes_twice.
  - by intros s t [= <-].
Defined.

(** A private key of the stand-in. *)
Definition toy_key (n : Z) : list Z := norm_bytes [n] ++ norm_bytes [n].

Lemma toy_key_secret n : secret_key (toy_key n).
Proof.
  exists (norm_bytes [n]). split; [apply length_resize|]. unfold toy_key.
  change (fst (sign_seed_keypair (norm_bytes [n]))) with (norm_bytes (norm_bytes [n]) ++ norm_bytes (norm_bytes [n])).
  by rewrite norm_bytes_idem.
Qed.

Lemma signed_value_roundtrip_witness :
  exists v, Value.Value_signed (toy_key 1) (Some MAX_ID) (replicate 24 7) 5 [42] = Ok v /\ Value.isValid v = true /\
    exists v', Value.update [43] v = Ok v' /\ sequenceNumber v' = 6.
Proof.
  eexists. split; [reflexivity|].
  destruct (Value.signed_value_roundtrip (toy_key 1) (Some MAX_ID) (replicate 24 7) 5 [42] [43] _ (-1) (toy_key_secret 1) eq_refl)
    as (H1 & _ & _ & _ & _ & _ & v' & H2 & _ & _ & H3 & _); [reflexivity|reflexivity|discriminate|].
  split; [exact H1|]. exists v'. split; [exact H2|exact H3].
Defined.

Lemma peer_roundtrip_witness :
  exists p, PeerInfo.PeerInfo_create (toy_key 1) MAX_ID MIN_ID 39001 [104; 116] = Ok p /\ PeerInfo.isValid p = true /\
    PeerInfo.sent_peer p = Ok (PeerInfo.peer_without_key p).
Proof.
  eexists. split; [reflexivity|].
  destruct (PeerInfo.peer_roundtrip (toy_key 1) MAX_ID MIN_ID 39001 [104; 116] _ (toy_key_secret 1) eq_refl) as (H1 & H2 & _); [discriminate|].
  split; [exact H1|exact H2].
Defined.
