(* ===== verification/Schedulers.v ===== *)
(** * The scheduler: [Scheduler] of [src/core/scheduler.h]

    Jobs wait in a multimap by the time they are due; the receiving thread runs the
    due ones between two datagrams ([RPCServer::periodic]).  A [std::shared_ptr] to a
    job is its address: the multimap and the owners of a job share the object, which
    is how a job is cancelled.  What a job does is a parameter, [perform]: a job may
    add jobs and cancel jobs, but not run the scheduler. *)

From S2P Require Import Prelude.

Record Job (A : Type) := MkJob { do_ : option A; fixedDelay : Z }.
Arguments MkJob {A} _ _.
Arguments do_ {A} _.
Arguments fixedDelay {A} _.

Record Scheduler (A : Type) := MkScheduler {
  sc_now : Z;
  timers : list (Z * positive);        (* in the order of the multimap *)
  jobs : gmap positive (Job A);        (* the job objects *)
  sc_next : positive                   (* the address of the next object *)
}.
Arguments MkScheduler {A} _ _ _ _.
Arguments sc_now {A} _.
Arguments timers {A} _.
Arguments jobs {A} _.
Arguments sc_next {A} _.

Module Scheduler.

Section scheduler.
Context {A W : Type}.
Implicit Types (s : Scheduler A) (p : positive).

(** ** Definitions *)

Definition TIME_MAX : Z := 2 ^ 64 - 1.

Definition set_job p (j : Job A) s : Scheduler A := MkScheduler (sc_now s) (timers s) (<[p := j]> (jobs s)) (sc_next s).
Definition set_timers (l : list (Z * positive)) s : Scheduler A := MkScheduler (sc_now s) l (jobs s) (sc_next s).

Definition job_of p s : Job A := default (MkJob None 0) (jobs s !! p).

Definition setFixedDelay p (delay : Z) s : Scheduler A := set_job p (MkJob (do_ (job_of p s)) delay) s.
Definition cancel p s : Scheduler A := set_job p (MkJob None 0) s.

(** [std::multimap::emplace]: behind the entries with the same key. *)
Fixpoint emplace (time : Z) p (l : list (Z * positive)) : list (Z * positive) :=
  match l with
  | [] => [(time, p)]
  | e :: r => if time <? fst e then (time, p) :: l else e :: emplace time p r
  end.

Definition add_job (clock : Z) p (delay fixed : Z) s : Scheduler A :=
  let s := setFixedDelay p fixed s in
  let time := u64 (clock + delay) in
  if time =? TIME_MAX then s else set_timers (emplace time p (timers s)) s.

(** A new job, from a function that may be empty. *)
Definition add_function (clock : Z) (f : option A) (delay fixed : Z) s : positive * Scheduler A :=
  let p := sc_next s in
  (p, add_job clock p delay fixed (MkScheduler (sc_now s) (timers s) (<[p := MkJob f 0]> (jobs s)) (Pos.succ p))).

Definition add (clock : Z) (f : A) (delay fixed : Z) s : positive * Scheduler A := add_function clock (Some f) delay fixed s.

Definition edit (clock : Z) p (delay fixed : Z) s : positive * Scheduler A :=
  let task := do_ (job_of p s) in
  add_function clock task delay fixed (cancel p s).

(** [timers.erase] of the entry of a job. *)
Fixpoint erase (e : Z * positive) (l : list (Z * positive)) : list (Z * positive) :=
  match l with [] => [] | x :: r => if bool_decide (x = e) then r else x :: erase e r end.

Definition getNextJobTime s : Z := match timers s with [] => TIME_MAX | e :: _ => fst e end.

Definition syncTime (n : Z) s : Scheduler A := MkScheduler n (timers s) (jobs s) (sc_next s).

Section run.
Variable clock : W -> Z.
Variable perform : A -> W -> Scheduler A -> W * Scheduler A.

(** The first half of a turn: the function of the job runs, if it has one. *)
Definition run_job p (w : W) s : W * Scheduler A * list A :=
  match do_ (job_of p s) with Some a => (perform a w s, [a]) | None => (w, s, []) end.

(** The second half: a periodic job is replaced by a new one. *)
Definition reschedule p (w : W) s : Scheduler A :=
  let delay := fixedDelay (job_of p s) in if 0 <? delay then snd (edit (clock w) p delay delay s) else s.

(** One turn of the loop of [run], for the first entry; the result has what was run. *)
Definition run_turn (time : Z) p (w : W) s : W * Scheduler A * list A :=
  let '(w, s, tr) := run_job p w s in
  let s := reschedule p w s in
  (w, set_timers (erase (time, p) (timers s)) s, tr).

Fixpoint run (fuel : nat) (w : W) s : option (W * Scheduler A * list A) :=
  match fuel with
  | O => None
  | S fuel =>
      match timers s with
      | [] => Some (w, s, [])
      | (time, p) :: _ =>
          if sc_now s <? time then Some (w, s, []) else
          let '(w, s, tr) := run_turn time p w s in
          '(w, s, tr') ← run fuel w s;
          Some (w, s, tr ++ tr')
      end
  end.

End run.

(** ** The invariant *)

Definition due s : list (Z * positive) := filter (fun e => e.1 <= sc_now s) (timers s).

Record sched_ok s : Prop := {
  so_sorted : StronglySorted (fun e e' => e.1 <= e'.1) (timers s);
  so_nodup : NoDup (timers s).*2;
  so_known e : e ∈ timers s -> (e.2 < sc_next s)%positive /\ is_Some (jobs s !! e.2);
  so_jobs p j : jobs s !! p = Some j -> (p < sc_next s)%positive /\ 0 <= fixedDelay j < 2 ^ 63
}.

Lemma emplace_perm time p l : emplace time p l ≡ₚ (time, p) :: l.
Proof. induction l as [|e l IH]; [done|]. simpl. destruct (time <? e.1); [done|]. rewrite IH. apply Permutation_swap. Qed.

Lemma emplace_sorted time p l :
  StronglySorted (fun e e' : Z * positive => e.1 <= e'.1) l -> StronglySorted (fun e e' => e.1 <= e'.1) (emplace time p l).
Proof.
  induction 1 as [|e l Hs IH He]; simpl; [repeat constructor|]. destruct (Z.ltb_spec time e.1) as [Hlt|Hle].
  - constructor; [by constructor|]. constructor; [simpl; lia|]. eapply Forall_impl; [exact He|]. simpl. intros; lia.
  - constructor; [done|]. rewrite emplace_perm. constructor; [done|done].
Qed.

Lemma emplace_due now time p l :
  now < time -> filter (fun e : Z * positive => e.1 <= now) (emplace time p l) = filter (fun e => e.1 <= now) l.
Proof.
  intros Hn. induction l as [|e l IH]; simpl.
  - rewrite filter_cons_False by (simpl; lia). done.
  - destruct (time <? e.1); [by rewrite filter_cons_False by (simpl; lia)|].
    destruct (decide (e.1 <= now)); [rewrite !filter_cons_True by done|rewrite !filter_cons_False by done]; congruence.
Qed.

(** In a sorted list the due entries come first. *)
Lemma due_head s e l : sched_ok s -> timers s = e :: l -> e.1 <= sc_now s -> due s = e :: filter (fun e => e.1 <= sc_now s) l.
Proof. intros _ E He. unfold due. by rewrite E, filter_cons_True. Qed.

Lemma due_none s e l : sched_ok s -> timers s = e :: l -> sc_now s < e.1 -> Forall (fun e => sc_now s < e.1) (timers s).
Proof.
  intros [Hs _ _ _] E He. rewrite E in *. inversion_clear Hs as [|? ? _ Hf]. constructor; [done|].
  eapply Forall_impl; [exact Hf|]. simpl. intros; lia.
Qed.

(** ** What a job may do *)

Inductive job_step : Scheduler A -> Scheduler A -> Prop :=
  | js_add clock f delay fixed s :
      sc_now s < u64 (clock + delay) -> 0 <= fixed < 2 ^ 63 -> job_step s (snd (add_function clock f delay fixed s))
  | js_cancel p s : is_Some (jobs s !! p) -> job_step s (cancel p s).

(** The due entries stay, and a job that is there only loses its function. *)
Record extends s s' : Prop := {
  ex_ok : sched_ok s';
  ex_now : sc_now s' = sc_now s;
  ex_due : due s' = due s;
  ex_next : (sc_next s <= sc_next s')%positive;
  ex_weaker p a : (p < sc_next s)%positive -> do_ (job_of p s') = Some a -> do_ (job_of p s) = Some a
}.

Lemma extends_refl s : sched_ok s -> extends s s.
Proof. intros H. split; [done|done|done|lia|done]. Qed.

Lemma extends_trans s1 s2 s3 : extends s1 s2 -> extends s2 s3 -> extends s1 s3.
Proof.
  intros [H1 H2 H3 H4 H5] [K1 K2 K3 K4 K5]. split; [done|congruence|congruence|lia|]. intros p a Hp E. apply H5, K5; [done|lia|done].
Qed.

(** Adding leaves the jobs that are there as they are. *)
Lemma add_function_spec clock f delay fixed s :
  sched_ok s -> sc_now s < u64 (clock + delay) -> 0 <= fixed < 2 ^ 63 ->
  let r := add_function clock f delay fixed s in
  extends s r.2 /\ r.1 = sc_next s /\ jobs r.2 = <[sc_next s := MkJob f fixed]> (jobs s) /\
  (u64 (clock + delay) <> TIME_MAX -> (u64 (clock + delay), sc_next s) ∈ timers r.2).
Proof.
  intros Hok Ht Hf. unfold add_function, add_job, setFixedDelay, set_job, job_of. cbn [fst snd jobs timers sc_now sc_next].
  rewrite lookup_insert_eq, insert_insert_eq. cbn [default from_option do_ id]. set (time := u64 (clock + delay)) in *.
  assert (forall j q, jobs s !! q = Some j -> q <> sc_next s) as Hfresh.
  { intros j q Hq ->. apply (so_jobs s Hok) in Hq as [Hq _]. lia. }
  set (s' := if time =? TIME_MAX then _ else _).
  assert (jobs s' = <[sc_next s := MkJob f fixed]> (jobs s)) as Ej by (unfold s'; by destruct (time =? TIME_MAX)).
  assert (sc_next s' = Pos.succ (sc_next s)) as En by (unfold s'; by destruct (time =? TIME_MAX)).
  assert (sc_now s' = sc_now s) as Ew by (unfold s'; by destruct (time =? TIME_MAX)).
  split; [|split; [done|split; [done|]]].
  - split; [split| | | |].
    + unfold s'. destruct (time =? TIME_MAX); [apply Hok|]. apply emplace_sorted, Hok.
    + unfold s'. destruct (time =? TIME_MAX); [apply Hok|]. simpl. rewrite emplace_perm. simpl. apply NoDup_cons. split; [|apply Hok].
      intros (e & E & He)%list_elem_of_fmap. apply (so_known s Hok) in He as [He _]. lia.
    + intros e He. rewrite En, Ej. assert (e = (time, sc_next s) \/ e ∈ timers s) as [-> | He'].
      { unfold s' in He. destruct (time =? TIME_MAX); [by right|]. simpl in He. rewrite emplace_perm in He. by apply elem_of_cons in He. }
      * simpl. split; [lia|]. rewrite lookup_insert_eq. by eexists.
      * destruct (so_known s Hok e He') as [? ?]. split; [lia|]. apply lookup_insert_is_Some'. by right.
    + intros q j. rewrite En, Ej. intros [[<- <-]|[_ Hq]]%lookup_insert_Some; [split; [lia|exact Hf]|].
      apply (so_jobs s Hok) in Hq as [? ?]. split; [lia|done].
    + done.
    + unfold due. rewrite Ew. unfold s'. destruct (time =? TIME_MAX); [done|]. by apply emplace_due.
    + rewrite En. lia.
    + intros q a Hq. unfold job_of. rewrite Ej, lookup_insert_ne by lia. done.
  - intros Hm. unfold s'. apply Z.eqb_neq in Hm as ->. simpl. rewrite emplace_perm. by left.
Qed.

Lemma cancel_extends p s : sched_ok s -> is_Some (jobs s !! p) -> extends s (cancel p s).
Proof.
  intros [H1 H2 H3 H4] [j Hj]. split; [split; try done| | |simpl; lia|].
  - intros e He. destruct (H3 e He) as [? ?]. split; [done|]. simpl. apply lookup_insert_is_Some'. by right.
  - intros q j'. simpl. intros [[<- <-]|[_ Hq]]%lookup_insert_Some; [|by apply H4]. apply H4 in Hj as [? _]. simpl. lia.
  - done.
  - done.
  - intros q a _. unfold job_of. simpl. destruct (decide (q = p)) as [-> |Hq]; [by rewrite lookup_insert_eq|by rewrite lookup_insert_ne].
Qed.

Lemma job_steps_extend s s' : rtc job_step s s' -> sched_ok s -> extends s s'.
Proof.
  induction 1 as [s|s s1 s2 Hs _ IH]; intros Hok; [by apply extends_refl|].
  assert (extends s s1) as He by (destruct Hs; [by apply add_function_spec|by apply cancel_extends]).
  eapply extends_trans; [exact He|]. apply IH, He.
Qed.

Lemma erase_sublist e l : sublist (erase e l) l.
Proof. induction l as [|x l IH]; simpl; [constructor|]. destruct (bool_decide (x = e)); by constructor. Qed.

Lemma erase_filter (P : Z * positive -> Prop) `{!forall x, Decision (P x)} e l :
  P e -> filter P (erase e l) = erase e (filter P l).
Proof.
  intros He. induction l as [|x l IH]; [done|]. simpl. destruct (bool_decide (x = e)) eqn:E.
  - apply bool_decide_eq_true in E as ->. rewrite filter_cons_True by done. simpl. by rewrite bool_decide_eq_true_2.
  - destruct (decide (P x)) as [Hx|Hx]; [rewrite !filter_cons_True by done|rewrite !filter_cons_False by done; done].
    simpl. by rewrite E, IH.
Qed.

Lemma erase_ok e s : sched_ok s -> sched_ok (set_timers (erase e (timers s)) s).
Proof.
  intros [H1 H2 H3 H4]. pose proof (erase_sublist e (timers s)) as Hs. split; simpl; [ | | |done].
  - by eapply sublist_StronglySorted.
  - eapply sublist_NoDup; [done|by apply fmap_sublist].
  - intros x Hx. apply H3. by eapply elem_of_sublist.
Qed.

(** ** Running the due jobs *)

Section theorems.
Variable clock : W -> Z.
Variable perform : A -> W -> Scheduler A -> W * Scheduler A.

(** A job only adds jobs for later, and the clock does not go back. *)
Hypothesis perform_steps : forall a w s, sched_ok s -> sc_now s <= clock w ->
  rtc job_step s (snd (perform a w s)) /\ clock w <= clock (fst (perform a w s)).
Hypothesis clock_range : forall w, 0 <= clock w < 2 ^ 63.

Definition live s (e : Z * positive) : option A := do_ (job_of e.2 s).

(** No job changes a job that is due. *)
Definition gentle : Prop := forall a w s e, e ∈ due s -> jobs (snd (perform a w s)) !! e.2 = jobs s !! e.2.

Lemma edit_extends p (delay c : Z) s :
  sched_ok s -> is_Some (jobs s !! p) -> 0 < delay < 2 ^ 63 -> sc_now s <= c -> 0 <= c < 2 ^ 63 ->
  let r := edit c p delay delay s in
  extends s r.2 /\ r.1 = sc_next s /\
  jobs r.2 = <[sc_next s := MkJob (do_ (job_of p s)) delay]> (<[p := MkJob None 0]> (jobs s)) /\ (c + delay, sc_next s) ∈ timers r.2.
Proof.
  intros Hok Hp Hd Hc Hr. pose proof (cancel_extends p s Hok Hp) as He. assert (u64 (c + delay) = c + delay) as Eu by (apply wrap_small; lia).
  destruct (add_function_spec c (do_ (job_of p s)) delay delay (cancel p s) (ex_ok _ _ He)) as (Ha & E1 & E2 & E3); [rewrite Eu; simpl; lia|lia|].
  rewrite Eu in E3. split; [by eapply extends_trans|]. split; [done|]. split; [done|]. apply E3. unfold TIME_MAX. lia.
Qed.

Lemma perform_extends a w s : sched_ok s -> sc_now s <= clock w -> extends s (snd (perform a w s)).
Proof. intros Hok Hc. apply job_steps_extend; [by apply perform_steps|done]. Qed.

Lemma due_elem s e : e ∈ due s -> e ∈ timers s /\ e.1 <= sc_now s.
Proof. intros [H1 H2]%list_elem_of_filter. by split. Qed.

Lemma run_job_spec p w s :
  sched_ok s -> sc_now s <= clock w ->
  let r := run_job perform p w s in
  extends s r.1.2 /\ clock w <= clock r.1.1 /\ r.2 = option_list (do_ (job_of p s)) /\
  (gentle -> forall e, e ∈ due s -> jobs r.1.2 !! e.2 = jobs s !! e.2).
Proof.
  intros Hok Hc. unfold run_job. destruct (do_ (job_of p s)) as [a|]; simpl.
  - split; [by apply perform_extends|]. split; [by apply perform_steps|]. split; [done|]. intros Hg e He. by apply Hg.
  - split; [by apply extends_refl|]. split; [lia|]. by split.
Qed.

Lemma reschedule_spec p w s :
  sched_ok s -> sc_now s <= clock w -> is_Some (jobs s !! p) ->
  extends s (reschedule clock p w s) /\ (forall q, q <> p -> (q < sc_next s)%positive -> jobs (reschedule clock p w s) !! q = jobs s !! q).
Proof.
  intros Hok Hc [j Hj]. unfold reschedule. assert (job_of p s = j) as -> by (unfold job_of; by rewrite Hj).
  destruct (Z.ltb_spec 0 (fixedDelay j)) as [Hd|_]; [|split; [by apply extends_refl|done]].
  destruct (edit_extends p (fixedDelay j) (clock w) s) as (He & _ & Ej & _); [done|by exists j|pose proof (so_jobs s Hok p j Hj); lia|done|apply clock_range|].
  split; [done|]. intros q Hq Hn. by rewrite Ej, lookup_insert_ne, lookup_insert_ne by (done || lia).
Qed.

(** A turn takes the first due entry away. *)
Lemma run_turn_spec time p w s l :
  sched_ok s -> sc_now s <= clock w -> due s = (time, p) :: l ->
  let r := run_turn clock perform time p w s in
  sched_ok r.1.2 /\ sc_now r.1.2 = sc_now s /\ sc_now s <= clock r.1.1 /\ due r.1.2 = l /\ r.2 = option_list (live s (time, p)) /\
  (forall e a, e ∈ l -> live r.1.2 e = Some a -> live s e = Some a) /\ (gentle -> forall e, e ∈ l -> live r.1.2 e = live s e).
Proof.
  intros Hok Hc Ed. assert ((time, p) ∈ due s) as (Hin & Ht)%due_elem by (rewrite Ed; by left).
  assert (forall e, e ∈ l -> e.2 <> p /\ (e.2 < sc_next s)%positive) as Hl.
  { intros e He. assert (e ∈ due s) as (He' & _)%due_elem by (rewrite Ed; by right). split; [|by apply (so_known s Hok)].
    intros E. assert (NoDup (due s).*2) as Hnd by (eapply sublist_NoDup; [apply Hok|apply fmap_sublist, sublist_filter]).
    rewrite Ed in Hnd. apply NoDup_cons in Hnd as [Hnd _]. apply Hnd, list_elem_of_fmap. by exists e. }
  destruct (run_job_spec p w s Hok Hc) as (He & Hw & Htr & Hg). unfold run_turn.
  destruct (run_job perform p w s) as [[w1 s1] tr] eqn:Ej. cbn [fst snd] in He, Hw, Htr, Hg |- *.
  assert (sc_now s1 = sc_now s) as En by apply He.
  assert ((time, p) ∈ due s1) as (Hin1 & _)%due_elem by (rewrite (ex_due _ _ He), Ed; by left).
  destruct (reschedule_spec p w1 s1 (ex_ok _ _ He)) as [Hr Hq]; [lia|apply (so_known s1 (ex_ok _ _ He) _ Hin1)|].
  pose proof (extends_trans _ _ _ He Hr) as Hx. set (s2 := reschedule clock p w1 s1) in *.
  split; [apply erase_ok, Hx|]. split; [apply Hx|]. split; [lia|]. split.
  { unfold due. change (sc_now (set_timers (erase (time, p) (timers s2)) s2)) with (sc_now s2). cbn [timers set_timers].
    rewrite (ex_now _ _ Hx), erase_filter by done. pose proof (ex_due _ _ Hx) as E. rewrite Ed in E.
    unfold due in E. rewrite (ex_now _ _ Hx) in E. rewrite E. simpl. by rewrite bool_decide_eq_true_2. }
  split; [done|]. split; [intros e a Hel; by apply Hx, Hl|].
  intros Hgn e Hel. unfold live, job_of. cbn [jobs set_timers]. destruct (Hl e Hel) as [Hne Hlt].
  rewrite Hq, Hg; [done|done|rewrite Ed; by right|done|]. pose proof (ex_next _ _ He). lia.
Qed.

Lemma run_due l w s :
  sched_ok s -> sc_now s <= clock w -> due s = l ->
  exists w' s' tr, run clock perform (S (length l)) w s = Some (w', s', tr) /\ sched_ok s' /\
    Forall (fun e => sc_now s < e.1) (timers s') /\ tr `sublist_of` omap (live s) l /\ (gentle -> tr = omap (live s) l).
Proof.
  revert w s. induction l as [|[time p] l IH]; intros w s Hok Hc Ed.
  - exists w, s, []. cbn [length run]. assert (Forall (fun e => sc_now s < e.1) (timers s)) as Hf.
    { apply Forall_forall. intros e He. destruct (Z.lt_ge_cases (sc_now s) e.1); [done|]. exfalso.
      assert (e ∈ due s) as Hx by (by apply list_elem_of_filter). rewrite Ed in Hx. by apply not_elem_of_nil in Hx. }
    destruct (timers s) as [|[time p] r]; [done|]. inversion_clear Hf as [|? ? H1 H2]. simpl in H1.
    rewrite (proj2 (Z.ltb_lt _ _)) by done. split; [done|]. split; [done|]. by split; [constructor|].
  - destruct (run_turn_spec time p w s l Hok Hc Ed) as (H1 & H2 & H3 & H4 & H5 & H6 & H7).
    assert (exists r, timers s = (time, p) :: r) as [r Er].
    { pose proof (so_sorted s Hok) as Hs. unfold due in Ed. destruct (timers s) as [|e r]; [done|].
      destruct (decide (e.1 <= sc_now s)) as [He|He]; [rewrite filter_cons_True in Ed by done; injection Ed as -> _; by exists r|].
      rewrite filter_cons_False in Ed by done. exfalso. apply StronglySorted_inv in Hs as [_ Hs]. rewrite Forall_forall in Hs.
      assert ((time, p) ∈ filter (fun e => e.1 <= sc_now s) r) as [Hx1 Hx2]%list_elem_of_filter by (rewrite Ed; by left).
      specialize (Hs _ Hx2). simpl in *. lia. }
    assert (time <= sc_now s) as Ht by (assert ((time, p) ∈ due s) as [_ ?]%due_elem by (rewrite Ed; by left); done).
    remember (S (length l)) as fuel eqn:Ef. cbn [length]. rewrite <- Ef. cbn [run]. rewrite Er, (proj2 (Z.ltb_ge _ _)) by done.
    destruct (run_turn clock perform time p w s) as [[w1 s1] tr1]. cbn [fst snd] in *.
    destruct (IH w1 s1 H1 ltac:(lia) H4) as (w2 & s2 & tr2 & E & K1 & K2 & K3 & K4). rewrite E. cbn [mbind option_bind].
    exists w2, s2, (tr1 ++ tr2). split; [done|]. split; [done|]. rewrite H2 in K2. split; [done|].
    assert (omap (live s) ((time, p) :: l) = option_list (live s (time, p)) ++ omap (live s) l) as ->.
    { simpl. by destruct (live s (time, p)). }
    subst tr1. split.
    + apply sublist_app; [done|]. etrans; [exact K3|]. clear -H6. induction l as [|e l IH]; [done|]. simpl.
      assert (sublist (omap (live s1) l) (omap (live s) l)) as Hs by (apply IH; intros e' a He'; apply H6; by right).
      destruct (live s1 e) as [a|] eqn:Ea; [rewrite (H6 e a ltac:(by left) Ea); by constructor|]. destruct (live s e); [by constructor|done].
    + intros Hg. rewrite K4 by done. f_equal. specialize (H7 Hg). clear -H7. induction l as [|e l IH]; [done|]. simpl.
      rewrite (H7 e) by (by left). destruct (live s e); [f_equal|]; apply IH; intros e' He'; apply H7; by right.
Qed.


Lemma erase_other e x l : e ∈ l -> e <> x -> e ∈ erase x l.
Proof.
  induction l as [|y l IH]; [done|]. simpl. intros [-> |He]%elem_of_cons Hx; [by rewrite bool_decide_eq_false_2; [left|]|].
  destruct (bool_decide (y = x)); [done|]. right. by apply IH.
Qed.

(** A periodic job runs again after its delay, but as a new object: the one its
    owner has is empty, and cancelling it changes nothing. *)
Theorem periodic_job_detached time p w s a (delay : Z) :
  sched_ok s -> sc_now s <= clock w -> (time, p) ∈ due s -> jobs s !! p = Some (MkJob (Some a) delay) -> 0 < delay -> gentle ->
  let r := run_turn clock perform time p w s in
  r.2 = [a] /\ cancel p r.1.2 = r.1.2 /\
  exists p', p' <> p /\ (clock r.1.1 + delay, p') ∈ timers r.1.2 /\ jobs r.1.2 !! p' = Some (MkJob (Some a) delay).
Proof.
  intros Hok Hc Hin Hj Hd Hg. destruct (run_job_spec p w s Hok Hc) as (He & Hw & Htr & Hk).
  unfold run_turn. destruct (run_job perform p w s) as [[w1 s1] tr]. cbn [fst snd] in *.
  assert (jobs s1 !! p = Some (MkJob (Some a) delay)) as Hj1 by (rewrite <- Hj; exact (Hk Hg (time, p) Hin)).
  assert (job_of p s = MkJob (Some a) delay) as E0 by (unfold job_of; by rewrite Hj).
  assert (job_of p s1 = MkJob (Some a) delay) as E1 by (unfold job_of; by rewrite Hj1).
  pose proof (so_jobs s1 (ex_ok _ _ He) p _ Hj1) as [Hp Hr]. simpl in Hr.
  destruct (edit_extends p delay (clock w1) s1) as (_ & _ & Ej & Hin'); [apply He|by eexists|lia|rewrite (ex_now _ _ He); lia|apply clock_range|].
  unfold reschedule. rewrite E1. cbn [fixedDelay]. rewrite (proj2 (Z.ltb_lt 0 delay)) by done.
  rewrite E1 in Ej. cbn [do_] in Ej. set (s2 := snd (edit (clock w1) p delay delay s1)) in *. split; [rewrite Htr, E0; done|]. split.
  - unfold cancel, set_job. cbn [jobs set_timers sc_now timers sc_next]. unfold set_timers. f_equal. apply insert_id.
    rewrite Ej, lookup_insert_ne by lia. by rewrite lookup_insert_eq.
  - exists (sc_next s1). split; [lia|]. cbn [timers set_timers jobs]. split.
    + apply erase_other; [done|]. intros [= _ E]. lia.
    + by rewrite Ej, lookup_insert_eq.
Qed.
End theorems.

End scheduler.
End Scheduler.

(** ** A concrete scheduler

    Job 1 runs once, after five milliseconds; job 2 after three and then every ten. *)

Definition scheduler0 : Scheduler Z :=
  Scheduler.syncTime 104 (snd (Scheduler.add 100 2 3 10 (snd (Scheduler.add 100 1 5 0 (MkScheduler 100 [] ∅ 1))))).

Definition clock0 (w : unit) : Z := 104.
Definition perform0 (a : Z) (w : unit) (s : Scheduler Z) : unit * Scheduler Z := (w, s).

Lemma syncTime_ok {A} n (s : Scheduler A) : Scheduler.sched_ok s -> Scheduler.sched_ok (Scheduler.syncTime n s).
Proof. intros [H1 H2 H3 H4]. by split. Qed.

Lemma scheduler0_ok : Scheduler.sched_ok scheduler0.
Proof.
  apply syncTime_ok, (Scheduler.ex_ok (snd (Scheduler.add 100 1 5 0 (MkScheduler 100 [] ∅ 1)))), Scheduler.add_function_spec; [|done..].
  apply (Scheduler.ex_ok (MkScheduler 100 [] ∅ 1)), Scheduler.add_function_spec; [|done..].
  split; simpl; [constructor|constructor|by intros e ?%not_elem_of_nil|]. intros p j. by rewrite lookup_empty.
Qed.

Lemma perform0_steps a w (s : Scheduler Z) :
  Scheduler.sched_ok s -> sc_now s <= clock0 w ->
  rtc Scheduler.job_step s (snd (perform0 a w s)) /\ clock0 w <= clock0 (fst (perform0 a w s)).
Proof. intros _ _. split; [constructor|]. by unfold clock0. Qed.

Lemma clock0_range w : 0 <= clock0 w < 2 ^ 63.
Proof. by unfold clock0. Qed.


Lemma periodic_job_detached_witness :
  let r := Scheduler.run_turn clock0 perform0 103 2%positive () scheduler0 in
  r.2 = [2] /\ Scheduler.cancel 2%positive r.1.2 = r.1.2.
Proof.
  destruct (Scheduler.periodic_job_detached clock0 perform0 perform0_steps clock0_range 103 2 () scheduler0 2 10 scheduler0_ok) as (H1 & H2 & _).
  - done.
  - change (Scheduler.due scheduler0) with [(103, 2%positive)]. by left.
  - by vm_compute.
  - done.
  - by intros a w s e He.
  - by split.
Defined.
