(* ===== verification/RpcServer.v ===== *)
(** * Remote calls: [RPCCall] of [src/core/rpccall.cc], the timers of
    [src/core/scheduler.h] as far as calls use them, and the message handling of
    [RPCServer] of [src/core/rpcserver.cc]

    The server keeps the outstanding calls by transaction id.  What it does to
    the outside is the list of its effects in order: datagrams given to the
    socket, calls of the DHT ([onSend], [onTimeout], [onMessage]) and the state
    changes that the owner of a call is told about.  Decryption and parsing of a
    datagram, with the text for the log that is made of its message, and how [sendData]
    ends, which is the part of [Transport], are parameters. *)

From S2P Require Import Prelude Constants Ids Addresses Entries Values.

#[local] Open Scope carrier_scope.

Inductive MsgType := REQUEST | RESPONSE | ERR_MSG.

#[export] Instance MsgType_eq_dec : EqDecision MsgType.
Proof. solve_decision. Defined.

(** The part of [Message] that the server looks at. *)
Record Message := MkMessage {
  m_type : MsgType;
  m_method : Z;
  m_txid : Z;
  m_id : Id;
  m_remoteId : Id;
  m_origin : SocketAddress;
  m_remote : SocketAddress
}.

Inductive CallState := UNSENT | SENT | STALLED | TIMEOUT | CANCELED | ERR | RESPONDED.

#[export] Instance CallState_eq_dec : EqDecision CallState.
Proof. solve_decision. Defined.

Record RPCCall := MkCall {
  c_target : NodeInfo;
  c_request : Message;
  c_state : CallState;
  sentTime : Z;
  responseTime : Z;
  timeoutTimer : option Z   (* when the pending [checkTimeout] job is due *)
}.

(** What the server and its calls do to their environment. *)
Inductive Effect :=
  | Ev_onSend (id : Id)
  | Ev_stateChange (txid : Z) (prev cur : CallState)
  | Ev_onTimeout (id : Id)
  | Ev_onMessage (m : Message)
  | Ev_sendData (m : Message).

Definition UINT64_MAX : Z := 2 ^ 64 - 1.

Module RPCCall.

(** ** Definitions *)

Definition RPCCall_new (target : NodeInfo) (request : Message) : RPCCall :=
  let request := MkMessage (m_type request) (m_method request) (m_txid request) (m_id request)
    (nodeId target) (m_origin request) (sockaddr target) in
  MkCall target request UNSENT UINT64_MAX UINT64_MAX None.

Definition set_state (c : RPCCall) (s : CallState) : RPCCall :=
  MkCall (c_target c) (c_request c) s (sentTime c) (responseTime c) (timeoutTimer c).

Definition set_timer (c : RPCCall) (t : option Z) : RPCCall :=
  MkCall (c_target c) (c_request c) (c_state c) (sentTime c) (responseTime c) t.

Definition set_txid (c : RPCCall) (txid : Z) : RPCCall :=
  let r := c_request c in
  MkCall (c_target c) (MkMessage (m_type r) (m_method r) txid (m_id r) (m_remoteId r) (m_origin r) (m_remote r))
    (c_state c) (sentTime c) (responseTime c) (timeoutTimer c).

Definition txid_of (c : RPCCall) : Z := m_txid (c_request c).

(** [RPCCall::updateState]: the new state, and the notification of the owner.
    The timeout handler is the one [RPCServer::dispatchCall] sets; it is the
    server's part ([server_timeout]). *)
Definition updateState (s : CallState) (c : RPCCall) : RPCCall * list Effect :=
  (set_state c s, [Ev_stateChange (txid_of c) (c_state c) s]).

(** [RPCCall::sent] *)
Definition sent (now : Z) (c : RPCCall) : RPCCall * list Effect :=
  let c := MkCall (c_target c) (c_request c) (c_state c) now (responseTime c) (timeoutTimer c) in
  let '(c, ev) := updateState SENT c in
  (set_timer c (Some (u64 (now + 2000))), ev).

(** [RPCCall::responsed], for a response or an error message. *)
Definition responsed (now : Z) (m : Message) (c : RPCCall) : option (RPCCall * list Effect) :=
  let c := MkCall (c_target c) (c_request c) (c_state c) (sentTime c) now None in
  match m_type m with
  | RESPONSE => Some (updateState RESPONDED c)
  | ERR_MSG => Some (updateState ERR c)
  | REQUEST => None
  end.

Definition stall (c : RPCCall) : RPCCall * list Effect :=
  if bool_decide (c_state c = SENT) then updateState STALLED c else (c, []).

(** [RPCCall::checkTimeout]; the job that runs it is used up.  The third
    component says whether the call ended. *)
Definition checkTimeout (now : Z) (c : RPCCall) : RPCCall * list Effect * bool :=
  let c := set_timer c None in
  if negb (bool_decide (c_state c = SENT)) && negb (bool_decide (c_state c = STALLED)) then (c, [], false)
  else
    let elapsed := i32 (now - sentTime c) in
    let remaining := i32 (Constants.RPC_CALL_TIMEOUT_MAX - elapsed) in
    if 0 <? remaining then
      let '(c, ev) := updateState STALLED c in
      (set_timer c (Some (u64 (now + remaining))), ev, false)
    else let '(c, ev) := updateState TIMEOUT c in (c, ev, true).
End RPCCall.

Record RPCServer := MkServer {
  calls : gmap Z RPCCall;
  nextTxid : Z;
  receivedMessages : Z;
  messagesAtLastReachableCheck : Z;
  lastReachableCheck : Z;
  isReachable : bool;
  serverStart : Z
}.

Module RPCServer.
Import RPCCall.

Section server.
(** The local node's id, whether an IPv6 DHT runs, and [node.decrypt] with
    [Message::parse]: the message in a datagram of a sender; whether [sendData] returns
    for a message, or which exception leaves it. *)
Variables (localId : Id) (dht6 : bool) (open : Id -> list Z -> option (result Message)) (send : Message -> result unit).

(** ** Definitions *)

Definition set_calls (s : RPCServer) (m : gmap Z RPCCall) : RPCServer :=
  MkServer m (nextTxid s) (receivedMessages s) (messagesAtLastReachableCheck s) (lastReachableCheck s) (isReachable s) (serverStart s).

Definition updateReachability (now : Z) (s : RPCServer) : RPCServer :=
  if negb (receivedMessages s =? messagesAtLastReachableCheck s)
  then MkServer (calls s) (nextTxid s) (receivedMessages s) (receivedMessages s) now true (serverStart s)
  else
    MkServer (calls s) (nextTxid s) (receivedMessages s) (messagesAtLastReachableCheck s) (lastReachableCheck s)
      (if Constants.RPC_SERVER_REACHABILITY_TIMEOUT <? u64 (now - lastReachableCheck s) then false else isReachable s)
      (serverStart s).

Definition stamp (m : Message) : Message :=
  MkMessage (m_type m) (m_method m) (m_txid m) localId (m_remoteId m) (m_origin m) (m_remote m).

(** [sendMessage] of a message without a call, and of the request of a call:
    the DHT and the owner are told before the datagram goes out, also when [sendData]
    throws then. *)
Definition sendMessage (m : Message) : result (list Effect) := _ <-! send (stamp m); Ok [Ev_sendData (stamp m)].

Definition sendMessage_call (now : Z) (c : RPCCall) : RPCCall * list Effect * result unit :=
  let '(c', ev) := sent now c in
  (c', Ev_onSend (nodeId (c_target c)) :: ev ++ [Ev_sendData (stamp (c_request c))], send (stamp (c_request c))).

(** [sendError]: the error goes back to the sender of the message. *)
Definition sendError (m : Message) : result (list Effect) :=
  sendMessage (MkMessage ERR_MSG (m_method m) (m_txid m) localId (m_id m) SA_unspec (m_origin m)).

(** [nextTxid++] *)
Definition fetch_txid (s : RPCServer) : Z * RPCServer :=
  (nextTxid s, MkServer (calls s) (i32 (nextTxid s + 1)) (receivedMessages s) (messagesAtLastReachableCheck s)
     (lastReachableCheck s) (isReachable s) (serverStart s)).

(** [sendCall] with [dispatchCall]: it throws for a transaction id in use, and when
    [sendData] throws; the call is in the table then. *)
Definition sendCall (now : Z) (c : RPCCall) (s : RPCServer) : RPCServer * list Effect * result unit :=
  let '(txid, s) := fetch_txid s in
  let '(txid, s) := if txid =? 0 then fetch_txid s else (txid, s) in
  match calls s !! txid with
  | Some _ => (s, [], Throw Runtime_error)
  | None =>
      let c := set_txid c txid in
      let '(c', ev, r) := sendMessage_call now c in
      (set_calls s (<[txid := c']> (calls s)), ev, r)
  end.

(** The job of a call: [checkTimeout] and, when it ends the call, the timeout
    handler of [dispatchCall]. *)
Definition server_timeout (now txid : Z) (s : RPCServer) : RPCServer * list Effect :=
  match calls s !! txid with
  | Some c =>
      let '(c', ev, ended) := checkTimeout now c in
      if ended then (set_calls s (delete txid (calls s)), ev ++ [Ev_onTimeout (nodeId (c_target c))])
      else (set_calls s (<[txid := c']> (calls s)), ev)
  | None => (s, [])
  end.

Definition handleMessage (m : Message) : list Effect := [Ev_onMessage m].

Definition with_source (m : Message) (sender : Id) (from : SocketAddress) : Message :=
  MkMessage (m_type m) (m_method m) (m_txid m) sender (m_remoteId m) from (m_remote m).

(** The part of [handlePacket] behind the checks of the transaction id. *)
Definition handle_parsed (now : Z) (msg : Message) : SM RPCServer (list Effect) := fun s =>
  match m_type msg with
  | REQUEST => (Ok (handleMessage msg), s)
  | _ =>
      match calls s !! m_txid msg with
      | Some call =>
          if sa_eqb (m_remote (c_request call)) (m_origin msg) then
            match responsed now msg call with
            | Some (_, ev) => (Ok (ev ++ handleMessage msg), set_calls s (delete (m_txid msg) (calls s)))
            | None => (Ok [], s)
            end
          else
            match (if bool_decide (m_type msg = RESPONSE) && dht6
                   then sendMessage (MkMessage ERR_MSG (m_method msg) (m_txid msg) localId (m_id msg) SA_unspec (m_remote (c_request call)))
                   else Ok []) with
            | Throw e => (Throw e, s)
            | Ok errs => let '(call', ev) := stall call in (Ok (errs ++ ev), set_calls s (<[m_txid msg := call']> (calls s)))
            end
      | None =>
          if bool_decide (m_type msg = RESPONSE) && (2 * 60 * 1000 <? u64 (now - serverStart s))
          then (sendError msg, s)
          else if bool_decide (m_type msg = ERR_MSG) then (Ok (handleMessage msg), s)
          else (Ok [], s)
      end
  end.

(** [receivedMessages++] *)
Definition count_received (s : RPCServer) : RPCServer :=
  MkServer (calls s) (nextTxid s) (u64 (receivedMessages s + 1)) (messagesAtLastReachableCheck s) (lastReachableCheck s)
    (isReachable s) (serverStart s).

(** [handlePacket].  A datagram that is shorter than an id is read behind its end; a message
    that cannot be decrypted or parsed is ignored ([None]); when the text of the message cannot
    be made, or an error cannot be sent, the exception leaves the function. *)
Definition handlePacket (now : Z) (buf : list Z) (from : SocketAddress) : SM RPCServer (list Effect) := fun s =>
  if (length buf <? 32)%nat then (Throw Out_of_bounds, s)
  else
    let sender := mk_id (take 32 buf) in
    match open sender (drop 32 buf) with
    | None => (Ok [], s)
    | Some (Throw e) => (Throw e, count_received s)
    | Some (Ok msg) =>
        let msg := with_source msg sender from in
        let invalid := negb (bool_decide (m_type msg = ERR_MSG)) && (m_txid msg =? 0) in
        match (if invalid then sendError msg else Ok []) with
        | Throw e => (Throw e, count_received s)
        | Ok errs =>
            match handle_parsed now msg (count_received s) with
            | (Ok ev, s) => (Ok (errs ++ ev), s)
            | (Throw e, s) => (Throw e, s)
            end
        end
    end.
End server.

(** ** The server as a state machine *)

#[local] Set Default Proof Using "Type".

Lemma change_only t p q t0 p0 q0 e :
  (forall t p q, e <> Ev_stateChange t p q) ->
  Ev_stateChange t p q ∈ [Ev_stateChange t0 p0 q0; e] <-> t = t0 /\ p = p0 /\ q = q0.
Proof.
  intros He. rewrite !elem_of_cons. split.
  - intros [[= -> -> ->]|[H|[]%not_elem_of_nil]]; [done|]. by destruct (He t p q).
  - intros (-> & -> & ->). by left.
Qed.

Section machine.
Variables (localId : Id) (dht6 : bool) (open : Id -> list Z -> option (result Message)) (send : Message -> result unit).

Definition effects (r : result (list Effect)) : list Effect := match r with Ok ev => ev | Throw _ => [] end.

(** One event of the receiving thread: a call is handed in, a timer that is
    due runs, a datagram arrives. *)
Inductive srv_step : RPCServer -> list Effect -> RPCServer -> Prop :=
  | step_send now target request s s' ev r :
      sendCall localId send now (RPCCall_new target request) s = (s', ev, r) -> srv_step s ev s'
  | step_timer now txid c due s s' ev :
      calls s !! txid = Some c -> timeoutTimer c = Some due -> due <= now ->
      server_timeout now txid s = (s', ev) -> srv_step s ev s'
  | step_packet now buf from s s' r :
      handlePacket localId dht6 open send now buf from s = (r, s') -> srv_step s (effects r) s'.

Definition pending (st : CallState) : Prop := st = SENT \/ st = STALLED.
Definition final (st : CallState) : Prop := st = TIMEOUT \/ st = ERR \/ st = RESPONDED.

(** Every call of the table is under its transaction id, is waiting for its
    answer and has a timer. *)
Definition srv_ok (s : RPCServer) : Prop :=
  forall txid c, calls s !! txid = Some c ->
    txid <> 0 /\ txid_of c = txid /\ pending (c_state c) /\ is_Some (timeoutTimer c).

(** The state changes that an owner can be told about. *)
Inductive transition : CallState -> CallState -> Prop :=
  | tr_send : transition UNSENT SENT
  | tr_stall st : pending st -> transition st STALLED
  | tr_final st st' : pending st -> final st' -> transition st st'.

(** What a step does: changes follow [transition], and a call leaves the table
    exactly when its owner is told its final state. *)
Definition step_ok (s : RPCServer) (ev : list Effect) (s' : RPCServer) : Prop :=
  srv_ok s' /\
  (forall txid p c, Ev_stateChange txid p c ∈ ev -> transition p c) /\
  (forall txid, (is_Some (calls s !! txid) /\ calls s' !! txid = None) <->
     exists p c, Ev_stateChange txid p c ∈ ev /\ final c).

Lemma final_not_pending st : final st -> ~ pending st.
Proof. intros [->|[->| ->]] [|]; done. Qed.

(** A step without a final state change that keeps the keys. *)
Lemma step_ok_keep s ev s' :
  srv_ok s' -> (forall txid p c, Ev_stateChange txid p c ∈ ev -> transition p c /\ ~ final c) ->
  (forall txid, is_Some (calls s !! txid) -> is_Some (calls s' !! txid)) -> step_ok s ev s'.
Proof.
  intros Hok Hev Hk. split_and!; [done| |].
  - intros txid p c H. by apply (Hev txid).
  - intros txid. split.
    + intros [H1 H2]. destruct (Hk txid H1) as [x Hx]. congruence.
    + intros (p & c & H & Hf). by destruct (Hev txid p c H).
Qed.

Lemma step_ok_end s ev s' txid c st :
  srv_ok s -> calls s !! txid = Some c -> calls s' = delete txid (calls s) -> final st ->
  (forall t p q, Ev_stateChange t p q ∈ ev <-> t = txid /\ p = c_state c /\ q = st) -> step_ok s ev s'.
Proof.
  intros Hok Hc Es Hf Hev. split_and!.
  - intros t x Hx. rewrite Es in Hx. apply lookup_delete_Some in Hx as [_ Hx]. by apply Hok.
  - intros t p q (-> & -> & ->)%Hev. apply tr_final; [by apply (Hok _ _ Hc)|done].
  - intros t. rewrite Es. split.
    + intros [H1 H2]. destruct (decide (txid = t)) as [<-|Hne].
      * exists (c_state c), st. split; [by apply Hev|done].
      * rewrite lookup_delete_ne in H2 by done. destruct H1 as [x Hx]. congruence.
    + intros (p & q & (-> & _ & _)%Hev & _). split; [eauto|apply lookup_delete_eq].
Qed.

Lemma stall_ok c c' ev :
  stall c = (c', ev) -> pending (c_state c) ->
  txid_of c' = txid_of c /\ pending (c_state c') /\ timeoutTimer c' = timeoutTimer c /\
  (forall t p q, Ev_stateChange t p q ∈ ev -> transition p q /\ ~ final q).
Proof.
  unfold stall. case_bool_decide as E; intros [= <- <-] Hp.
  - split_and!; [done|by right|done|].
    intros t p q [= _ -> ->]%list_elem_of_singleton. split; [by apply tr_stall|]. by intros [|[|]].
  - split_and!; [done..|]. intros t p q []%not_elem_of_nil.
Qed.

Lemma srv_ok_insert s txid c :
  srv_ok s -> txid <> 0 -> txid_of c = txid -> pending (c_state c) -> is_Some (timeoutTimer c) ->
  srv_ok (set_calls s (<[txid := c]> (calls s))).
Proof.
  intros Hok H1 H2 H3 H4 t x Hx. simpl in Hx. apply lookup_insert_Some in Hx as [[<- <-]|[_ Hx]]; [done|].
  by apply Hok.
Qed.

Lemma insert_keeps s txid c t :
  is_Some (calls s !! t) -> is_Some (calls (set_calls s (<[txid := c]> (calls s))) !! t).
Proof. simpl. intros H. destruct (decide (txid = t)) as [<-|?]; [rewrite lookup_insert_eq; eauto|by rewrite lookup_insert_ne]. Qed.

Lemma sendCall_ok now target request s s' ev r :
  srv_ok s -> sendCall localId send now (RPCCall_new target request) s = (s', ev, r) -> step_ok s ev s'.
Proof.
  intros Hok. unfold sendCall. destruct (fetch_txid s) as [t0 s0] eqn:E0.
  assert (calls s0 = calls s /\ nextTxid s0 = i32 (t0 + 1)) as [C0 N0] by (unfold fetch_txid in E0; by simplify_eq).
  destruct (if t0 =? 0 then fetch_txid s0 else (t0, s0)) as [t1 s1] eqn:E1.
  assert (calls s1 = calls s /\ t1 <> 0) as [C1 H1].
  { destruct (Z.eqb_spec t0 0) as [->|Hne].
    - unfold fetch_txid in E1. rewrite N0 in E1. injection E1 as <- <-. done.
    - by simplify_eq. }
  assert (srv_ok s1) as Hok1 by (intros t x Hx; rewrite C1 in Hx; by apply Hok).
  destruct (calls s1 !! t1) as [c|] eqn:Ec; intros [= <- <- <-].
  - apply step_ok_keep; [done|by intros ??? []%not_elem_of_nil|by rewrite C1].
  - apply step_ok_keep.
    + apply srv_ok_insert; [done|done|done|by left|by eexists].
    + intros t p q H. simpl in H. set_unfold in H. destruct H as [?|[[= _ -> ->]|[?|[]]]]; try done.
      split; [constructor|by intros [|[|]]].
    + intros t H. apply insert_keeps. by rewrite C1.
Qed.

Lemma server_timeout_ok now txid s s' ev :
  srv_ok s -> server_timeout now txid s = (s', ev) -> step_ok s ev s'.
Proof.
  intros Hok. unfold server_timeout. destruct (calls s !! txid) as [c|] eqn:Ec.
  2:{ intros [= <- <-]. apply step_ok_keep; [done|by intros ??? []%not_elem_of_nil|done]. }
  destruct (Hok _ _ Ec) as (H1 & H2 & H3 & H4). unfold checkTimeout. simpl.
  assert (negb (bool_decide (c_state c = SENT)) && negb (bool_decide (c_state c = STALLED)) = false) as ->
    by (destruct H3 as [->| ->]; done).
  destruct (0 <? _); simpl; intros [= <- <-].
  - apply step_ok_keep.
    + apply srv_ok_insert; [done..|by right|by eexists].
    + intros t p q [= _ -> ->]%list_elem_of_singleton. split; [by apply tr_stall|by intros [|[|]]].
    + intros t. apply insert_keeps.
  - apply (step_ok_end s _ _ txid c TIMEOUT); [done..|by left|].
    intros t p q. rewrite <- H2. by apply change_only.
Qed.

(** A message to the outside is no state change. *)
Lemma sendMessage_silent m ev t p q : sendMessage localId send m = Ok ev -> Ev_stateChange t p q ∉ ev.
Proof. unfold sendMessage. destruct (send _); [|done]. intros [= <-] [=]%list_elem_of_singleton. Qed.

Lemma step_ok_silent s s' r :
  srv_ok s' -> calls s' = calls s -> (forall t p q, Ev_stateChange t p q ∉ effects r) -> step_ok s (effects r) s'.
Proof. intros H1 H2 H3. apply step_ok_keep; [done|intros t p q []%H3|by rewrite H2]. Qed.

Lemma handle_parsed_ok now msg s s' r :
  srv_ok s -> handle_parsed localId dht6 send now msg s = (r, s') -> step_ok s (effects r) s'.
Proof.
  intros Hok. unfold handle_parsed.
  assert (forall t p q, Ev_stateChange t p q ∉ effects (Ok (handleMessage msg))) as Hm by (intros t p q [=]%list_elem_of_singleton).
  assert (forall t p q, Ev_stateChange t p q ∉ effects (Ok [])) as Hn by (intros t p q []%not_elem_of_nil).
  assert (forall x t p q, Ev_stateChange t p q ∉ effects (sendMessage localId send x)) as Hx.
  { intros x t p q. destruct (sendMessage localId send x) as [ev|e] eqn:E; [by apply (sendMessage_silent x)|apply not_elem_of_nil]. }
  destruct (decide (m_type msg = REQUEST)) as [Et|Et]; [rewrite Et; intros [= <- <-]; by apply step_ok_silent|].
  assert (forall A (x y : A), match m_type msg with REQUEST => x | _ => y end = y) as Hy by (intros; by destruct (m_type msg)).
  rewrite Hy. clear Hy. destruct (calls s !! m_txid msg) as [c|] eqn:Ec.
  - destruct (Hok _ _ Ec) as (H1 & H2 & H3 & H4). destruct (sa_eqb _ _).
    + destruct (responsed now msg c) as [[c' ev']|] eqn:Er; [|unfold responsed in Er; by destruct (m_type msg)].
      intros [= <- <-]. apply (step_ok_end s _ _ (m_txid msg) c (c_state c')); [done..| |].
      { unfold responsed, updateState in Er. destruct (m_type msg); simplify_eq/=; unfold final; auto. }
      intros t p q. unfold responsed, updateState in Er.
      destruct (m_type msg); simplify_eq/=; rewrite <- H2; by apply change_only.
    + destruct (if _ : bool then sendMessage _ _ _ else Ok []) as [errs|e] eqn:Ee; [|intros [= <- <-]; by apply step_ok_silent].
      destruct (stall c) as [c' ev'] eqn:Es. intros [= <- <-].
      destruct (stall_ok c c' ev' Es H3) as (S1 & S2 & S3 & S4).
      apply step_ok_keep; [apply srv_ok_insert; [done|done|congruence|done|by rewrite S3]| |intros t; apply insert_keeps].
      intros t p q [H|H]%elem_of_app; [|by apply (S4 t)].
      destruct (_ && _); [by apply (sendMessage_silent _ _ _ _ _ Ee) in H|injection Ee as <-; by apply not_elem_of_nil in H].
  - destruct (_ && _); [|destruct (bool_decide _)]; intros [= <- <-]; apply step_ok_silent; try done. apply Hx.
Qed.
End machine.

Section correctness.
Variables (localId : Id) (dht6 : bool) (open : Id -> list Z -> option (result Message)) (send : Message -> result unit).

Lemma handlePacket_ok now buf from s s' r :
  srv_ok s -> handlePacket localId dht6 open send now buf from s = (r, s') -> step_ok s (effects r) s'.
Proof.
  intros Hok. unfold handlePacket. assert (srv_ok (count_received s)) as Hok1 by (intros t x Hx; by apply Hok).
  assert (forall s', srv_ok s' -> calls s' = calls s -> step_ok s [] s') as Hnone.
  { intros s1 H1 H2. apply step_ok_keep; [done|by intros ??? []%not_elem_of_nil|by rewrite H2]. }
  destruct (_ <? _)%nat; [intros [= <- <-]; by apply Hnone|].
  destruct (open _ _) as [[m|e]|]; [|intros [= <- <-]; by apply Hnone..].
  set (s1 := count_received s) in *. set (msg := with_source m _ from).
  destruct (if _ : bool then sendError _ _ _ else Ok []) as [errs|e] eqn:Ee; [|intros [= <- <-]; by apply Hnone].
  assert (forall t p q, Ev_stateChange t p q ∉ errs) as Herr.
  { intros t p q. destruct (_ && _); [by apply (sendMessage_silent _ _ _ _ _ _ _ Ee)|injection Ee as <-; apply not_elem_of_nil]. }
  destruct (handle_parsed localId dht6 send now msg s1) as [r2 s2] eqn:E.
  destruct (handle_parsed_ok localId dht6 send now msg s1 s2 r2 Hok1 E) as (H1 & H2 & H3).
  destruct r2 as [ev2|e]; intros [= <- <-]; cbn [effects] in *; [|by split_and!].
  assert (forall t p q, Ev_stateChange t p q ∈ errs ++ ev2 <-> Ev_stateChange t p q ∈ ev2) as Hev.
  { intros t p q. rewrite elem_of_app. split; [|by right]. by intros [[]%Herr|H]. }
  split_and!; [done| |].
  - intros t p q H%Hev. by apply (H2 t).
  - intros t. split.
    + intros H. apply H3 in H as (p & c & ? & ?). exists p, c. split; [by apply Hev|done].
    + intros (p & c & H%Hev & Hf). apply H3. eauto.
Qed.

Lemma srv_step_ok s ev s' : srv_ok s -> srv_step localId dht6 open send s ev s' -> step_ok s ev s'.
Proof.
  intros Hok Hs. inversion Hs; subst.
  - eapply sendCall_ok; eassumption.
  - eapply server_timeout_ok; eassumption.
  - eapply handlePacket_ok; eassumption.
Qed.

(** The states of the server with the effects so far. *)
Inductive srv_run (s0 : RPCServer) : list Effect -> RPCServer -> Prop :=
  | run_start : srv_run s0 [] s0
  | run_step ev1 s1 ev2 s2 :
      srv_run s0 ev1 s1 -> srv_step localId dht6 open send s1 ev2 s2 -> srv_run s0 (ev1 ++ ev2) s2.

Lemma checkTimeout_cases now txid c s :
  calls s !! txid = Some c -> pending (c_state c) ->
  0 <= now - sentTime c < 2 ^ 31 ->
  let remaining := Constants.RPC_CALL_TIMEOUT_MAX - (now - sentTime c) in
  if 0 <? remaining
  then exists s' ev, server_timeout now txid s = (s', ev) /\
    exists c', calls s' !! txid = Some c' /\ sentTime c' = sentTime c /\ c_target c' = c_target c /\ txid_of c' = txid_of c /\
      c_state c' = STALLED /\ timeoutTimer c' = Some (u64 (now + remaining))
  else exists s' ev, server_timeout now txid s = (s', ev) /\ calls s' !! txid = None /\
    Ev_stateChange (txid_of c) (c_state c) TIMEOUT ∈ ev /\ Ev_onTimeout (nodeId (c_target c)) ∈ ev.
Proof.
  intros Hc Hp Hr. simpl. unfold server_timeout. rewrite Hc. unfold checkTimeout. simpl.
  assert (negb (bool_decide (c_state c = SENT)) && negb (bool_decide (c_state c = STALLED)) = false) as ->
    by (destruct Hp as [->| ->]; done).
  change (2 ^ 31) with (2 ^ (32 - 1)) in Hr.
  rewrite (swrap_small 32 (now - sentTime c)) by lia.
  rewrite (swrap_small 32 (Constants.RPC_CALL_TIMEOUT_MAX - _)) by (unfold Constants.RPC_CALL_TIMEOUT_MAX; lia).
  destruct (0 <? Constants.RPC_CALL_TIMEOUT_MAX - (now - sentTime c)); simpl; eexists _, _; (split; [reflexivity|]).
  - simpl. rewrite lookup_insert_eq. eexists. split; [reflexivity|]. done.
  - simpl. rewrite lookup_delete_eq. split_and!; [done|left|right; left].
Qed.
End correctness.

(** ** The claims *)

(** C37: in every reachable state of the server each outstanding call is filed
    under its own non-zero transaction id, is [SENT] or [STALLED] and has a
    timer.  Owners only see the changes [UNSENT] to [SENT], a pending state to
    [STALLED], and a pending state to [TIMEOUT], [ERR] or [RESPONDED]; and a
    step takes a call out of the table exactly when it tells the owner a final
    state, so no call ends twice and none is forgotten. *)
Theorem calls_lifecycle (localId : Id) (dht6 : bool) (open : Id -> list Z -> option (result Message)) (send : Message -> result unit) (s0 s s' : RPCServer)
    (trace ev : list Effect) :
  calls s0 = ∅ -> srv_run localId dht6 open send s0 trace s -> srv_step localId dht6 open send s ev s' ->
  srv_ok s /\ step_ok s ev s'.
Proof.
  intros H0 Hr Hs. assert (srv_ok s) as Hok.
  { clear Hs. induction Hr as [|ev1 s1 ev2 s2 _ IH H]; [intros t c Hc; by rewrite H0 in Hc|].
    by apply (srv_step_ok localId dht6 open send s1 ev2 s2 IH). }
  split; [done|]. by eapply srv_step_ok.
Qed.

Definition server0 : RPCServer := MkServer ∅ 1 0 0 0 false 0.
Definition request0 : Message := MkMessage REQUEST 1 0 zero zero SA_unspec SA_unspec.

Lemma calls_lifecycle_witness :
  exists s' ev, sendCall zero (fun _ => Ok ()) 5 (RPCCall_new (MkNodeInfo MAX_ID (SA_in 80 [8; 8; 8; 8]) 0) request0) server0 = (s', ev, Ok ()) /\
    step_ok server0 ev s'.
Proof.
  eexists _, _. split; [reflexivity|].
  refine (proj2 (calls_lifecycle zero false (fun _ _ => None) (fun _ => Ok ()) server0 server0 _ [] _ _ _ _)).
  - reflexivity.
  - constructor.
  - eapply (step_send _ _ _ _ 5 (MkNodeInfo MAX_ID (SA_in 80 [8; 8; 8; 8]) 0) request0). reflexivity.
Defined.

(** An outstanding call whose answer does not come is ended by its timer:
    a check before ten seconds have passed since it was sent marks it as stalled
    and sets the timer to the end of the ten seconds, and the check at or after
    that moment takes it out of the table, tells its owner [TIMEOUT] and reports
    the node to the routing table. *)
Theorem call_times_out (t1 t2 txid : Z) (c : RPCCall) (s : RPCServer) :
  calls s !! txid = Some c -> pending (c_state c) ->
  sentTime c <= t1 < sentTime c + Constants.RPC_CALL_TIMEOUT_MAX ->
  sentTime c + Constants.RPC_CALL_TIMEOUT_MAX <= t2 < sentTime c + 2 ^ 31 -> 0 <= sentTime c < 2 ^ 63 ->
  exists s1 ev1 c1 s2 ev2, server_timeout t1 txid s = (s1, ev1) /\ calls s1 !! txid = Some c1 /\
    c_state c1 = STALLED /\ timeoutTimer c1 = Some (sentTime c + Constants.RPC_CALL_TIMEOUT_MAX) /\
    server_timeout t2 txid s1 = (s2, ev2) /\ calls s2 !! txid = None /\
    Ev_stateChange (txid_of c) STALLED TIMEOUT ∈ ev2 /\ Ev_onTimeout (nodeId (c_target c)) ∈ ev2.
Proof.
  intros Hc Hp H1 H2 H0. unfold Constants.RPC_CALL_TIMEOUT_MAX in *.
  pose proof (checkTimeout_cases t1 txid c s Hc Hp ltac:(lia)) as K. cbv zeta in K. unfold Constants.RPC_CALL_TIMEOUT_MAX in K.
  destruct (Z.ltb_spec 0 (10 * 1000 - (t1 - sentTime c))) as [_|?]; [|lia].
  destruct K as (s1 & ev1 & E1 & c1 & Hc1 & S1 & T1 & X1 & St1 & Tm1).
  pose proof (checkTimeout_cases t2 txid c1 s1 Hc1 (or_intror St1) ltac:(lia)) as K. cbv zeta in K.
  unfold Constants.RPC_CALL_TIMEOUT_MAX in K. rewrite S1 in K.
  destruct (Z.ltb_spec 0 (10 * 1000 - (t2 - sentTime c))) as [?|_]; [lia|].
  destruct K as (s2 & ev2 & E2 & N2 & I1 & I2). exists s1, ev1, c1, s2, ev2.
  rewrite St1, X1 in I1. rewrite T1 in I2. split_and!; try done.
  rewrite Tm1. f_equal. rewrite wrap_small; lia.
Qed.

Lemma call_times_out_witness :
  let c := fst (sent 0 (set_txid (RPCCall_new (MkNodeInfo MAX_ID (SA_in 80 [8; 8; 8; 8]) 0) request0) 1)) in
  exists (s2 : RPCServer) (ev2 : list Effect), calls s2 !! 1 = None /\ Ev_stateChange 1 STALLED TIMEOUT ∈ ev2.
Proof.
  intros c. destruct (call_times_out 2000 10000 1 c (set_calls server0 {[1 := c]})) as (_ & _ & _ & s2 & ev2 & _ & _ & _ & _ & _ & H1 & H2 & _).
  - reflexivity.
  - left. reflexivity.
  - simpl. unfold Constants.RPC_CALL_TIMEOUT_MAX. lia.
  - simpl. unfold Constants.RPC_CALL_TIMEOUT_MAX. lia.
  - simpl. lia.
  - exists s2, ev2. split; [exact H1|exact H2].
Defined.

(** A request with the invalid transaction id 0 is answered with an error
    and then handled all the same, since [handlePacket] does not return after
    sending the error; only when the error cannot be sent it is not. *)
Theorem zero_txid_handled (localId : Id) (dht6 : bool) (open : Id -> list Z -> option (result Message)) (send : Message -> result unit)
    (now : Z) (buf : list Z) (from : SocketAddress) (m : Message) (s : RPCServer) :
  (32 <= length buf)%nat -> open (mk_id (take 32 buf)) (drop 32 buf) = Some (Ok m) -> m_type m = REQUEST -> m_txid m = 0 ->
  let msg := with_source m (mk_id (take 32 buf)) from in
  exists s', handlePacket localId dht6 open send now buf from s =
    (errs <-! sendError localId send msg; Ok (errs ++ [Ev_onMessage msg]), s').
Proof.
  intros Hl Ho Ht Hx msg. unfold handlePacket. destruct (Nat.ltb_spec (length buf) 32); [lia|]. rewrite Ho.
  cbv zeta. unfold handle_parsed. fold msg.
  change (m_type msg) with (m_type m). change (m_txid msg) with (m_txid m). rewrite Ht, Hx. simpl.
  destruct (sendError localId send msg); by eexists.
Qed.

Lemma zero_txid_handled_witness :
  exists s' ev, handlePacket zero false (fun _ _ => Some (Ok request0)) (fun _ => Ok ()) 5 (replicate 40 0) (SA_in 80 [8; 8; 8; 8]) server0 = (Ok ev, s') /\ ev <> [].
Proof.
  destruct (zero_txid_handled zero false (fun _ _ => Some (Ok request0)) (fun _ => Ok ()) 5 (replicate 40 0) (SA_in 80 [8; 8; 8; 8]) request0 server0) as (s' & E);
    [simpl; lia|reflexivity|reflexivity|reflexivity|].
  eexists s', _. split; [exact E|discriminate].
Defined.
End RPCServer.
