(* ===== verification/Tasks.v ===== *)
(** * Tasks: [Task] of [src/core/task/task.cc] and [TaskManager] of
    [src/core/task/task_manager.cc]

    A task runs through its states once and calls its listeners once when it
    ended.  What a particular task does ([prepare], [update], [isDone] and the
    handlers of its calls) is the interface [TaskBehaviour]; the theorems hold
    for every implementation of it.  The manager keeps the tasks in a store by
    task id, since the queues, the nested tasks and the calls share the task
    objects, and starts queued tasks in order.

    Calls are named by their hash.  Updates that are asked for while an update
    runs (by other threads or by the code the update calls) are the list [env]:
    how many arrive during each turn of the loop of [serializedUpdate]; none
    arrive after its end.  Listeners are names; what they do is not modelled. *)

From S2P Require Import Prelude Constants Ids.

Inductive TaskState := INITIAL | QUEUED | RUNNING | FINISHED | CANCELED.

#[export] Instance TaskState_eq_dec : EqDecision TaskState.
Proof. solve_decision. Defined.

(** The base class.  [inFlight] gives the target id of each call in flight,
    [called] the listeners that have been called, in order. *)
Record TaskBase := MkTask {
  t_state : TaskState;
  nested : option Z;
  startTime : Z;
  finishTime : Z;
  inFlight : gmap Z Id;
  listeners : list Z;
  lock : Z;
  called : list Z
}.

(** What the state change handler of a call is told. *)
Inductive CallEvent (R : Type) := CallSent | CallStalled | CallResponded (response : R) | CallErr | CallTimeout.
Arguments CallSent {R}.
Arguments CallStalled {R}.
Arguments CallResponded {R} response.
Arguments CallErr {R}.
Arguments CallTimeout {R}.

Module Task.

(** ** Definitions *)

Definition Task_new : TaskBase := MkTask INITIAL None 0 0 ∅ [] 0 [].

Definition with_state (t : TaskBase) (s : TaskState) : TaskBase :=
  MkTask s (nested t) (startTime t) (finishTime t) (inFlight t) (listeners t) (lock t) (called t).

Definition with_lock (t : TaskBase) (l : Z) : TaskBase :=
  MkTask (t_state t) (nested t) (startTime t) (finishTime t) (inFlight t) (listeners t) l (called t).

Definition with_inFlight (t : TaskBase) (m : gmap Z Id) : TaskBase :=
  MkTask (t_state t) (nested t) (startTime t) (finishTime t) m (listeners t) (lock t) (called t).

(** [Task::setState]: [None] when the current state is not expected. *)
Definition setState (expected : list TaskState) (newState : TaskState) (t : TaskBase) : option TaskBase :=
  if existsb (fun s => bool_decide (s = t_state t)) expected then Some (with_state t newState) else None.

Definition setNestedTask (n : Z) (t : TaskBase) : TaskBase :=
  MkTask (t_state t) (Some n) (startTime t) (finishTime t) (inFlight t) (listeners t) (lock t) (called t).

Definition isTerminal (t : TaskBase) : bool :=
  bool_decide (t_state t = FINISHED) || bool_decide (t_state t = CANCELED).

Definition addListener (l : Z) (t : TaskBase) : TaskBase :=
  MkTask (t_state t) (nested t) (startTime t) (finishTime t) (inFlight t) (listeners t ++ [l]) (lock t)
    (if isTerminal t then called t ++ [l] else called t).

Definition notifyCompletionListeners (t : TaskBase) : TaskBase :=
  MkTask (t_state t) (nested t) (startTime t) (finishTime t) (inFlight t) (listeners t) (lock t) (called t ++ listeners t).

Definition canDoRequest (t : TaskBase) : bool := (size (inFlight t) <? Constants.MAX_CONCURRENT_TASK_REQUESTS)%nat.

Definition base_isDone (t : TaskBase) : bool := bool_decide (inFlight t = ∅) || isTerminal t.

Definition end_task (now : Z) (s : TaskState) (t : TaskBase) : TaskBase :=
  match setState [INITIAL; QUEUED; RUNNING] s t with
  | Some t => notifyCompletionListeners
      (MkTask (t_state t) (nested t) (startTime t) now (inFlight t) (listeners t) (lock t) (called t))
  | None => t
  end.

(** [Task::cancel] without the nested task, which the manager's store has. *)
Definition cancel_self (now : Z) (t : TaskBase) : TaskBase := end_task now CANCELED t.
Definition finish (now : Z) (t : TaskBase) : TaskBase := end_task now FINISHED t.

(** [Task::sendCall]: [None] is its result [false]. *)
Definition sendCall (hash : Z) (target : Id) (t : TaskBase) : option TaskBase :=
  if canDoRequest t then Some (with_inFlight t (<[hash := target]> (inFlight t))) else None.

Definition removeCall (hash : Z) (t : TaskBase) : TaskBase := with_inFlight t (delete hash (inFlight t)).

Definition clearInFlight (t : TaskBase) : TaskBase := with_inFlight t ∅.

(** ** The invariant of the base class *)

(** Every listener has been called once, in order, when the task has ended, and
    none before; at most ten calls are in flight. *)
Definition task_ok (t : TaskBase) : Prop :=
  called t = (if isTerminal t then listeners t else []) /\
  (size (inFlight t) <= Constants.MAX_CONCURRENT_TASK_REQUESTS)%nat.

Definition rank (s : TaskState) : nat :=
  match s with INITIAL => 0 | QUEUED => 1 | RUNNING => 2 | FINISHED | CANCELED => 3 end%nat.

(** A task only moves forward, and an ended task stays as it ended. *)
Definition progress (t t' : TaskBase) : Prop :=
  (rank (t_state t) <= rank (t_state t'))%nat /\ (isTerminal t = true -> t_state t' = t_state t).

(** What the update of a task and the handlers of its calls do to its state:
    they leave it, or end the task. *)
Definition settles (t t' : TaskBase) : Prop :=
  (t_state t' = t_state t \/ isTerminal t = false /\ isTerminal t' = true) /\ nested t' = nested t.

(** A step of the base class that keeps the invariant. *)
Definition base_step (t t' : TaskBase) : Prop :=
  (task_ok t -> task_ok t') /\ settles t t' /\ lock t' = lock t.

#[export] Instance progress_preorder : PreOrder progress.
Proof.
  split; [done|]. intros a b c [H1 H2] [H3 H4]. split; [lia|]. intros Ha. specialize (H2 Ha).
  rewrite <- H2. apply H4. unfold isTerminal in *. by rewrite H2.
Qed.

#[export] Instance settles_preorder : PreOrder settles.
Proof.
  split; [split; [by left|done]|]. intros a b c [H1 H2] [H3 H4]. split; [|congruence].
  unfold isTerminal in *. destruct H1 as [H1|H1], H3 as [H3|H3]; [left; congruence| | |].
  - right. by rewrite <- H1.
  - right. by rewrite H3.
  - destruct H1, H3. congruence.
Qed.

#[export] Instance base_step_preorder : PreOrder base_step.
Proof.
  split; [done|]. intros a b c (H1 & H2 & H3) (H4 & H5 & H6).
  split; [auto|]. split; [by etrans|congruence].
Qed.

Lemma terminal_rank t : isTerminal t = true <-> rank (t_state t) = 3%nat.
Proof. unfold isTerminal. by destruct (t_state t). Qed.

Lemma settles_progress t t' : settles t t' -> progress t t'.
Proof.
  intros [[E|[E1 E2]] _]; [by split; rewrite E|]. split; [|congruence].
  apply terminal_rank in E2. rewrite E2. destruct (t_state t); simpl; lia.
Qed.
End Task.
#[export] Existing Instances Task.progress_preorder Task.settles_preorder Task.base_step_preorder.

(** The virtual methods, on the state [S] of a kind of task together with the
    base; [R] is what a response says.  They may send calls, cancel the task
    and change its own data, but do not touch the counter of the updates and do
    not move the task backwards. *)
Class TaskBehaviour (S R : Type) := {
  prepare : Z -> TaskBase * S -> TaskBase * S;
  update : Z -> TaskBase * S -> TaskBase * S;
  isDone : TaskBase * S -> bool;
  callSent : Z -> Id -> TaskBase * S -> TaskBase * S;
  callResponsed : Z -> Id -> R -> TaskBase * S -> TaskBase * S;
  callError : Z -> Id -> TaskBase * S -> TaskBase * S;
  callTimeout : Z -> Id -> TaskBase * S -> TaskBase * S;
  prepare_step now p : Task.base_step (fst p) (fst (prepare now p));
  update_step now p : Task.base_step (fst p) (fst (update now p));
  callSent_step now id p : Task.base_step (fst p) (fst (callSent now id p));
  callResponsed_step now id r p : Task.base_step (fst p) (fst (callResponsed now id r p));
  callError_step now id p : Task.base_step (fst p) (fst (callError now id p));
  callTimeout_step now id p : Task.base_step (fst p) (fst (callTimeout now id p))
}.

Module TaskRun.
Import Task.

Section behaviour.
Context {St R : Type} `{!TaskBehaviour St R}.
Implicit Types (p : TaskBase * St).

(** ** Definitions *)

Definition on_base (f : TaskBase -> TaskBase) p : TaskBase * St := (f (fst p), snd p).

Definition finish_if_done (now : Z) p : TaskBase * St := if isDone p then on_base (finish now) p else p.

(** One turn of the loop of [serializedUpdate]. *)
Definition update_turn (now : Z) p : TaskBase * St :=
  let p := finish_if_done now p in
  if canDoRequest (fst p) && negb (isTerminal (fst p)) then finish_if_done now (update now p) else p.

(** The loop: [lock] counts the updates asked for since it began. *)
Fixpoint update_loop (env : list nat) (now current : Z) p : TaskBase * St :=
  let p := update_turn now p in
  let l := lock (fst p) + Z.of_nat (hd 0%nat env) - current in
  let p := on_base (fun t => with_lock t l) p in
  if 0 <? l then match env with [] => p | _ :: env => update_loop env now l p end else p.

(** [Task::serializedUpdate], but for the removal of the ended task from its
    manager ([TaskManager.serializedUpdate]).  The result says whether the
    update ran, or was left to the one that is running. *)
Definition serializedUpdate (env : list nat) (now : Z) p : TaskBase * St * bool :=
  let current := lock (fst p) + 1 in
  let p := on_base (fun t => with_lock t current) p in
  if 1 <? current then (p, false) else (update_loop env now current p, true).

(** [Task::start]; the result says whether an update ran. *)
Definition start (env : list nat) (now : Z) p : TaskBase * St * bool :=
  match setState [INITIAL; QUEUED] RUNNING (fst p) with
  | Some t =>
      let t := MkTask (t_state t) (nested t) now (finishTime t) (inFlight t) (listeners t) (lock t) (called t) in
      serializedUpdate env now (prepare now (t, snd p))
  | None => (p, false)
  end.

(** The state change handler that [sendCall] gives to a call.  The target is the
    one of the call in flight with the hash; a call that is not in flight has
    no handler. *)
Definition call_handler (now : Z) (target : Id) (hash : Z) (ev : CallEvent R) p : TaskBase * St :=
  let p' := on_base (removeCall hash) p in
  match ev with
  | CallSent => callSent now target p
  | CallStalled => p
  | CallResponded r => if isTerminal (fst p') then p' else callResponsed now target r p'
  | CallErr => if isTerminal (fst p') then p' else callError now target p'
  | CallTimeout => if isTerminal (fst p') then p' else callTimeout now target p'
  end.

Definition onCallState (env : list nat) (now hash : Z) (ev : CallEvent R) p : TaskBase * St * bool :=
  match inFlight (fst p) !! hash with
  | Some target =>
      let p' := call_handler now target hash ev p in
      match ev with CallSent => (p', false) | _ => serializedUpdate env now p' end
  | None => (p, false)
  end.

(** ** Lemmas *)

Lemma end_task_step now s t :
  s = FINISHED \/ s = CANCELED -> base_step t (end_task now s t) /\ isTerminal (end_task now s t) = true.
Proof.
  unfold end_task, setState, base_step, task_ok, settles, isTerminal. intros Hs.
  destruct t as [[] n st ft f l k c]; simpl in *; destruct Hs as [->| ->]; simpl; split_and!; try done; try lia; auto;
    intros [-> ?]; by split.
Qed.

Lemma end_task_inFlight now s t : inFlight (end_task now s t) = inFlight t.
Proof. unfold end_task, setState. by destruct (existsb _ _). Qed.

Lemma removeCall_step hash t : base_step t (removeCall hash t).
Proof.
  split; [|split; [split; [by left|done]|done]]. intros [H1 H2]. split; [exact H1|]. simpl.
  rewrite map_size_delete. destruct (inFlight t !! hash); simpl; lia.
Qed.

Lemma finish_if_done_step now p : base_step (fst p) (fst (finish_if_done now p)).
Proof. unfold finish_if_done. destruct (isDone p); [|done]. simpl. apply end_task_step. auto. Qed.

Lemma update_turn_step now p : base_step (fst p) (fst (update_turn now p)).
Proof.
  unfold update_turn. set (q := finish_if_done now p). assert (base_step (fst p) (fst q)) as H by apply finish_if_done_step.
  destruct (canDoRequest (fst q) && negb (isTerminal (fst q))); [|done].
  etrans; [exact H|]. etrans; [apply (update_step now)|apply finish_if_done_step].
Qed.

Lemma update_loop_step env now current p :
  lock (fst p) = current ->
  (task_ok (fst p) -> task_ok (fst (update_loop env now current p))) /\
  settles (fst p) (fst (update_loop env now current p)) /\ lock (fst (update_loop env now current p)) = 0.
Proof.
  revert current p. induction env as [|k env IH]; intros current p Hc; simpl;
    destruct (update_turn_step now p) as (H1 & H2 & H3); rewrite H3, Hc.
  - destruct (Z.ltb_spec 0 (current + Z.of_nat 0 - current)); [lia|]. split; [exact H1|]. split; [exact H2|]. simpl. lia.
  - set (l := current + Z.of_nat k - current). destruct (Z.ltb_spec 0 l).
    + destruct (IH l (on_base (fun t => with_lock t l) (update_turn now p)) eq_refl) as (K1 & K2 & K3).
      split; [|split; [etrans; [exact H2|exact K2]|exact K3]]. intros Hok. apply K1, H1, Hok.
    + split; [exact H1|]. split; [exact H2|]. simpl. unfold l in *. lia.
Qed.

(** Whoever runs the update leaves the counter at zero; whoever finds one
    running only counts. *)
Lemma serializedUpdate_step env now p q ran :
  serializedUpdate env now p = (q, ran) -> lock (fst p) = 0 ->
  (task_ok (fst p) -> task_ok (fst q)) /\ settles (fst p) (fst q) /\ lock (fst q) = 0 /\ ran = true.
Proof.
  unfold serializedUpdate. intros E Hl. rewrite Hl in E. simpl in E. injection E as <- <-.
  destruct (update_loop_step env now 1 (on_base (fun t => with_lock t 1) p) eq_refl) as (H1 & H2 & H3).
  split; [exact H1|]. split; [exact H2|]. by split.
Qed.

Lemma call_handler_step now target hash ev p : base_step (fst p) (fst (call_handler now target hash ev p)).
Proof.
  assert (base_step (fst p) (fst (on_base (removeCall hash) p))) as H by apply removeCall_step.
  unfold call_handler. destruct ev as [| |r| |]; [apply callSent_step|done| | |];
    (destruct (isTerminal _); [done|]; etrans; [exact H|]);
    [apply (callResponsed_step now)|apply (callError_step now)|apply (callTimeout_step now)].
Qed.

(** A task between two steps: its invariant holds and no update is running. *)
Definition idle_ok p : Prop := task_ok (fst p) /\ lock (fst p) = 0.

Lemma start_step env now p q ran :
  start env now p = (q, ran) -> idle_ok p -> idle_ok q /\ progress (fst p) (fst q) /\ nested (fst q) = nested (fst p) /\
  (t_state (fst p) = INITIAL \/ t_state (fst p) = QUEUED -> ran = true /\ (2 <= rank (t_state (fst q)))%nat).
Proof.
  unfold start, setState. intros E [Hok Hl].
  destruct (existsb _ [INITIAL; QUEUED]) eqn:Ex.
  2:{ injection E as <- <-. split; [by split|]. split; [done|]. split; [done|]. intros [H|H]; rewrite H in Ex; done. }
  set (t := MkTask _ _ now _ _ _ _ _) in E.
  assert (t_state (fst p) = INITIAL \/ t_state (fst p) = QUEUED) as Hs.
  { destruct (t_state (fst p)); [by left|by right|discriminate Ex..]. }
  assert (task_ok t) as Ht.
  { destruct Hok as [H1 H2]. split; [|exact H2]. simpl. unfold isTerminal in H1. destruct Hs as [Hs|Hs]; rewrite Hs in H1; exact H1. }
  assert (progress (fst p) t) as Hp.
  { split; [simpl; destruct Hs as [-> | ->]; simpl; lia|]. unfold isTerminal. destruct Hs as [-> | ->]; done. }
  destruct (prepare_step now (t, snd p)) as (P1 & P2 & P3). simpl in P1, P2, P3.
  destruct (serializedUpdate_step env now _ _ _ E) as (H1 & H2 & H3 & H4); [rewrite P3; exact Hl|].
  assert (settles t (fst q)) as Hpq by (etrans; [exact P2|exact H2]).
  split; [split; [by apply H1, P1|exact H3]|]. split; [etrans; [exact Hp|by apply settles_progress]|].
  split; [apply Hpq|]. intros _. split; [done|]. apply settles_progress in Hpq as [Hr _]. exact Hr.
Qed.

Lemma onCallState_step env now hash ev p q ran :
  onCallState env now hash ev p = (q, ran) -> idle_ok p -> idle_ok q /\ settles (fst p) (fst q).
Proof.
  unfold onCallState. destruct (inFlight (fst p) !! hash) as [tg|]; [|by intros [= <- <-]].
  destruct (call_handler_step now tg hash ev p) as (H1 & H2 & H3). intros E [Hok Hl].
  assert (idle_ok (call_handler now tg hash ev p)) as [I1 I2] by (split; [by apply H1|by rewrite H3]).
  destruct ev as [| |r| |]; [by injection E as <- <-|..];
    (destruct (serializedUpdate_step env now _ _ _ E I2) as (K1 & K2 & K3 & _); split; [split; [by apply K1|done]|by etrans]).
Qed.

(** ** Runs of one task: its start, the events of its calls and cancelling it *)

Inductive run p0 : TaskBase * St -> Prop :=
  | run_start env now : 0 < now -> run p0 (fst (start env now p0))
  | run_call env now hash ev p : run p0 p -> 0 < now -> run p0 (fst (onCallState env now hash ev p))
  | run_cancel now p : run p0 p -> run p0 (on_base (cancel_self now) p).

(** A task that has not ended waits for a call: something will wake it up. *)
Definition live (t : TaskBase) : Prop := isTerminal t = true \/ inFlight t <> ∅.

Lemma run_idle p0 p : run p0 p -> idle_ok p0 -> idle_ok p.
Proof.
  intros Hr H0. induction Hr as [env now _|env now hash ev p _ IH _|now p _ IH].
  - destruct (start env now p0) as [q ran] eqn:E. by apply (start_step env now p0 q ran E H0).
  - destruct (onCallState env now hash ev p) as [q ran] eqn:E. by apply (onCallState_step env now hash ev p q ran E IH).
  - destruct (end_task_step now CANCELED (fst p)) as [(B1 & _ & B3) _]; [auto|]. destruct IH as [I1 I2].
    split; [by apply B1|]. simpl. by rewrite <- I2.
Qed.

(** An invariant of the update and the handlers holds on every run.  It may
    depend on the base class only through the calls in flight and on how the
    task ended, and must not be lost when the task ends. *)
Section invariant.
Variable I : TaskBase * St -> Prop.
Hypothesis I_end : forall now s p, I p -> s = CANCELED \/ s = FINISHED /\ isDone p = true -> I (on_base (end_task now s) p).
Hypothesis I_same : forall p t, I p -> inFlight t = inFlight (fst p) ->
  t_state t = t_state (fst p) \/ isTerminal t = false /\ isTerminal (fst p) = false -> I (t, snd p).
Hypothesis I_prepare : forall now p, 0 < now -> I p -> I (prepare now p).
Hypothesis I_update : forall now p, 0 < now -> isTerminal (fst p) = false -> I p -> I (update now p).
Hypothesis I_handler : forall now target hash ev p,
  0 < now -> inFlight (fst p) !! hash = Some target -> I p -> I (call_handler now target hash ev p).

Lemma finish_inv now p : I p -> I (finish_if_done now p).
Proof.
  intros Hp. unfold finish_if_done. destruct (isDone p) eqn:E; [|done]. apply I_end; auto.
Qed.

Lemma update_turn_inv now p : 0 < now -> I p -> I (update_turn now p).
Proof.
  intros Hn Hp. unfold update_turn. pose proof (finish_inv now p Hp) as Hq. set (q := finish_if_done now p) in *.
  destruct (canDoRequest (fst q) && negb (isTerminal (fst q))) eqn:E; [|done].
  apply finish_inv, I_update; [done| |done]. by apply andb_true_iff in E as [_ E%negb_true_iff].
Qed.

(** The loop ends with a turn. *)
Lemma update_loop_inv env now current p :
  0 < now -> I p -> exists q l, I q /\ update_loop env now current p = on_base (fun t => with_lock t l) (update_turn now q).
Proof.
  intros Hn. revert current p. induction env as [|k env IH]; intros current p Hp; simpl.
  - exists p. destruct (0 <? _); eexists; done.
  - set (l := lock _ + _ - _). destruct (0 <? l); [|by exists p, l]. apply IH.
    apply (I_same (update_turn now p)); [by apply update_turn_inv|done|by left].
Qed.

Lemma serializedUpdate_inv env now p :
  0 < now -> I p -> lock (fst p) = 0 ->
  I (fst (serializedUpdate env now p)) /\
  exists q l, I q /\ fst (serializedUpdate env now p) = on_base (fun t => with_lock t l) (update_turn now q).
Proof.
  intros Hn Hp Hl. unfold serializedUpdate. rewrite Hl. change (1 <? 0 + 1) with false. cbn iota.
  change (fst (update_loop env now (0 + 1) (on_base (fun t => with_lock t (0 + 1)) p), true))
    with (update_loop env now 1 (on_base (fun t => with_lock t 1) p)).
  destruct (update_loop_inv env now 1 (on_base (fun t => with_lock t 1) p) Hn) as (q & l & Hq & ->).
  { apply (I_same p); [done|done|by left]. }
  split; [|by exists q, l]. apply (I_same (update_turn now q)); [by apply update_turn_inv|done|by left].
Qed.

Hypothesis callSent_none : forall now id p, callSent now id p = p.

Definition turn_live : Prop := forall now p, 0 < now -> I p -> live (fst (update_turn now p)).

Lemma run_inv p0 p :
  run p0 p -> idle_ok p0 -> t_state (fst p0) = INITIAL -> I p0 -> I p /\ (turn_live -> live (fst p)).
Proof.
  intros Hr Hi Hs H0. induction Hr as [env now Hn|env now hash ev p Hr [Hp Hl] Hn|now p Hr [Hp Hl]].
  - unfold start, setState in *. rewrite Hs. simpl. set (t := MkTask RUNNING _ _ _ _ _ _ _).
    assert (I (prepare now (t, snd p0))) as Hp.
    { apply I_prepare; [done|]. apply (I_same p0); [done|done|right]. unfold isTerminal. by rewrite Hs. }
    destruct (prepare_step now (t, snd p0)) as (_ & _ & P3).
    destruct (serializedUpdate_inv env now _ Hn Hp) as (H1 & q & l & Hq & E); [rewrite P3; apply Hi|].
    split; [done|]. intros HL. rewrite E. exact (HL now q Hn Hq).
  - unfold onCallState in *. destruct (inFlight (fst p) !! hash) as [tg|] eqn:Eh; [|done].
    pose proof (I_handler now tg hash ev p Hn Eh Hp) as Hq.
    assert (lock (fst (call_handler now tg hash ev p)) = 0) as Hk.
    { destruct (call_handler_step now tg hash ev p) as (_ & _ & ->). apply (run_idle p0 p Hr Hi). }
    destruct ev as [| |r| |]; [simpl in *; rewrite callSent_none in *; done|..];
      (destruct (serializedUpdate_inv env now _ Hn Hq Hk) as (H1 & q & l & Hq' & E); split; [done|]; intros HL; rewrite E;
       exact (HL now q Hn Hq')).
  - destruct (end_task_step now CANCELED (fst p)) as [_ Ht]; [auto|]. split; [|by left]. apply I_end; auto.
Qed.
End invariant.

End behaviour.
End TaskRun.

(** [TaskManager], with the store of all task objects. *)
Record TaskManager (St : Type) := MkManager {
  queued : list Z;
  running : list Z;
  canceling : bool;
  tasks : gmap Z (TaskBase * St);
  nextTaskId : Z
}.
Arguments MkManager {St}.
Arguments queued {St}.
Arguments running {St}.
Arguments canceling {St}.
Arguments tasks {St}.
Arguments nextTaskId {St}.

Module TaskManager.
Import Task TaskRun.

Section behaviour.
Context {St R : Type} `{!TaskBehaviour St R}.
Implicit Types (p q : TaskBase * St) (tm : TaskManager St).

(** ** Definitions *)

Definition set_lists tm (qs rs : list Z) : TaskManager St := MkManager qs rs (canceling tm) (tasks tm) (nextTaskId tm).
Definition set_canceling tm (b : bool) : TaskManager St := MkManager (queued tm) (running tm) b (tasks tm) (nextTaskId tm).
Definition set_task tm (id : Z) p : TaskManager St :=
  MkManager (queued tm) (running tm) (canceling tm) (<[id := p]> (tasks tm)) (nextTaskId tm).

(** The constructor of a task takes the next task id. *)
Definition new_task tm (s : St) : TaskManager St :=
  MkManager (queued tm) (running tm) (canceling tm) (<[nextTaskId tm := (Task_new, s)]> (tasks tm)) (nextTaskId tm + 1).

Definition canStartTask tm : bool := negb (canceling tm) && (length (running tm) <=? Constants.MAX_ACTIVE_TASKS)%nat.

Definition add tm (id : Z) (prior : bool) : TaskManager St :=
  if canceling tm then tm else
  match tasks tm !! id with
  | None => tm
  | Some p =>
      if bool_decide (t_state (fst p) = RUNNING) then set_lists tm (queued tm) (running tm ++ [id])
      else match setState [INITIAL] QUEUED (fst p) with
           | None => tm
           | Some t =>
               let tm := set_task tm id (t, snd p) in
               if prior then set_lists tm (id :: queued tm) (running tm)
               else set_lists tm (queued tm ++ [id]) (running tm)
           end
  end.

Definition removeTask tm (id : Z) : TaskManager St :=
  set_lists tm (filter (fun i => i <> id) (queued tm)) (filter (fun i => i <> id) (running tm)).

(** The end of [Task::serializedUpdate], for the task and whether it updated. *)
Definition store_updated tm (id : Z) (r : TaskBase * St * bool) : TaskManager St :=
  let '(p, ran) := r in
  let tm := set_task tm id p in
  if ran && isTerminal (fst p) then removeTask tm id else tm.

(** [TaskManager::dequeue]; the loop takes a queued task in every turn. *)
Fixpoint dequeue_loop (fuel : nat) (env : Z -> list nat) (now : Z) tm : option (TaskManager St) :=
  match fuel with
  | O => None
  | S fuel =>
      if negb (canStartTask tm) then Some tm else
      match queued tm with
      | [] => Some tm
      | id :: qs =>
          let tm := set_lists tm qs (running tm) in
          match tasks tm !! id with
          | None => None
          | Some p =>
              if isTerminal (fst p) then dequeue_loop fuel env now tm
              else
                let tm := set_lists tm qs (running tm ++ [id]) in
                dequeue_loop fuel env now (store_updated tm id (start (env id) now p))
          end
      end
  end.

Definition dequeue (env : Z -> list nat) (now : Z) tm : option (TaskManager St) :=
  dequeue_loop (S (length (queued tm))) env now tm.

(** [Task::cancel] with the nested task; a nested task is younger. *)
Fixpoint cancel_loop (fuel : nat) (now id : Z) tm : option (TaskManager St) :=
  match fuel with
  | O => None
  | S fuel =>
      match tasks tm !! id with
      | None => None
      | Some p =>
          let tm := set_task tm id (cancel_self now (fst p), snd p) in
          match nested (fst p) with Some n => cancel_loop fuel now n tm | None => Some tm end
      end
  end.

Definition cancel (now id : Z) tm : option (TaskManager St) := cancel_loop (S (Z.to_nat (nextTaskId tm - id))) now id tm.

Fixpoint cancel_list (now : Z) (ids : list Z) tm : option (TaskManager St) :=
  match ids with
  | [] => Some tm
  | id :: ids => match cancel now id tm with Some tm => cancel_list now ids tm | None => None end
  end.

Definition cancelAll (now : Z) tm : option (TaskManager St) :=
  let tm := set_canceling tm true in
  match cancel_list now (running tm) tm with
  | Some tm => match cancel_list now (queued tm) tm with Some tm => Some (set_canceling tm false) | None => None end
  | None => None
  end.

(** The steps of a manager and its tasks. *)
Inductive tm_op :=
  | TmNew (s : St)
  | TmSetNested (id n : Z)
  | TmAddListener (id l : Z)
  | TmAdd (id : Z) (prior : bool)
  | TmDequeue
  | TmCallState (id hash : Z) (ev : CallEvent R)
  | TmCancel (id : Z)
  | TmCancelAll.

Definition on_task tm (id : Z) (f : TaskBase * St -> TaskManager St) : option (TaskManager St) :=
  match tasks tm !! id with Some p => Some (f p) | None => None end.

Definition exec (env : Z -> list nat) (now : Z) (op : tm_op) tm : option (TaskManager St) :=
  match op with
  | TmNew s => Some (new_task tm s)
  | TmSetNested id n => on_task tm id (fun p => set_task tm id (on_base (setNestedTask n) p))
  | TmAddListener id l => on_task tm id (fun p => set_task tm id (on_base (addListener l) p))
  | TmAdd id prior => Some (add tm id prior)
  | TmDequeue => dequeue env now tm
  | TmCallState id hash ev => on_task tm id (fun p => store_updated tm id (onCallState (env id) now hash ev p))
  | TmCancel id => cancel now id tm
  | TmCancelAll => cancelAll now tm
  end.

(** A step is about tasks that exist, and a nested task is younger than the task
    that has it ([DHT::storeValue] makes it when the task has ended). *)
Definition op_ok tm (op : tm_op) : Prop :=
  match op with
  | TmSetNested id n => is_Some (tasks tm !! id) /\ is_Some (tasks tm !! n) /\ id < n
  | TmAddListener id _ | TmCallState id _ _ | TmCancel id => is_Some (tasks tm !! id)
  | _ => True
  end.

Definition TaskManager_new : TaskManager St := MkManager [] [] false ∅ 0.

Inductive reachable : TaskManager St -> Prop :=
  | reach_new : reachable TaskManager_new
  | reach_step tm env now op tm' : reachable tm -> op_ok tm op -> exec env now op tm = Some tm' -> reachable tm'.

(** ** The invariant *)

Definition q_state (s : TaskState) : Prop := s <> INITIAL /\ s <> RUNNING.

Record tm_ok tm : Prop := {
  tm_dom : forall id, is_Some (tasks tm !! id) <-> 0 <= id < nextTaskId tm;
  tm_next : 0 <= nextTaskId tm;
  tm_idle : forall id p, tasks tm !! id = Some p -> idle_ok p;
  tm_nested : forall id p n, tasks tm !! id = Some p -> nested (fst p) = Some n -> id < n < nextTaskId tm;
  tm_nodup : NoDup (queued tm);
  tm_disj : forall id, id ∈ queued tm -> id ∉ running tm;
  tm_queued : forall id, id ∈ queued tm -> exists p, tasks tm !! id = Some p /\ q_state (t_state (fst p));
  tm_running : forall id, id ∈ running tm -> exists p, tasks tm !! id = Some p /\ (2 <= rank (t_state (fst p)))%nat
}.

(** Every task of [tm] is in [tm'] and has only moved forward. *)
Definition tasks_progress tm tm' : Prop :=
  forall id p, tasks tm !! id = Some p -> exists q, tasks tm' !! id = Some q /\ progress (fst p) (fst q).

#[local] Instance tasks_progress_preorder : PreOrder tasks_progress.
Proof.
  split; [intros tm id p Hp; by exists p|]. intros a b c H1 H2 id p Hp.
  destruct (H1 id p Hp) as (q & Hq & Hpq). destruct (H2 id q Hq) as (r & Hr & Hqr). exists r. split; [done|by etrans].
Qed.

(** ** Lemmas *)

Lemma set_task_progress tm id p q :
  tasks tm !! id = Some p -> progress (fst p) (fst q) -> tasks_progress tm (set_task tm id q).
Proof.
  intros Hp Hq i r Hr. simpl. destruct (decide (i = id)) as [->|Hn].
  - exists q. rewrite lookup_insert_eq. split; [done|]. congruence.
  - exists r. by rewrite lookup_insert_ne by congruence.
Qed.

Lemma set_task_ok tm id p q :
  tm_ok tm -> tasks tm !! id = Some p -> idle_ok q -> progress (fst p) (fst q) ->
  (forall n, nested (fst q) = Some n -> id < n < nextTaskId tm) ->
  (id ∈ queued tm -> q_state (t_state (fst q))) -> tm_ok (set_task tm id q).
Proof.
  intros [H1 H2 H3 H4 H5 H6 H7 H8] Hp Hi Hpr Hn Hq. split; simpl; try done.
  - intros i. rewrite <- H1. destruct (decide (i = id)) as [->|Hne].
    + rewrite lookup_insert_eq, Hp. done.
    + by rewrite lookup_insert_ne by congruence.
  - intros i r. rewrite lookup_insert_Some. intros [[<- <-]|[_ Hr]]; [done|by apply (H3 i)].
  - intros i r n. rewrite lookup_insert_Some. intros [[<- <-]|[_ Hr]]; [by apply Hn|by apply (H4 i r)].
  - intros i Hin. destruct (decide (i = id)) as [->|Hne].
    + exists q. rewrite lookup_insert_eq. auto.
    + destruct (H7 i Hin) as (r & ? & ?). exists r. by rewrite lookup_insert_ne by congruence.
  - intros i Hin. destruct (H8 i Hin) as (r & Hr & Hrk). destruct (decide (i = id)) as [->|Hne].
    + exists q. rewrite lookup_insert_eq. split; [done|]. destruct Hpr as [Hle _]. assert (r = p) as -> by congruence. lia.
    + exists r. by rewrite lookup_insert_ne by congruence.
Qed.

(** Storing what an update or a handler made of a task. *)
Lemma settle_ok tm id p q :
  tm_ok tm -> tasks tm !! id = Some p -> idle_ok q -> settles (fst p) (fst q) -> tm_ok (set_task tm id q).
Proof.
  intros Htm Hp Hi Hs. eapply set_task_ok; eauto using settles_progress.
  - intros n En. destruct Hs as [_ E]. rewrite E in En. by eapply tm_nested.
  - intros Hin. destruct (tm_queued tm Htm id Hin) as (r & Hr & Hq). assert (r = p) as -> by congruence.
    destruct Hs as [[E|[_ E]] _]; [by rewrite E|]. apply terminal_rank in E. split; intros X; by rewrite X in E.
Qed.

Lemma removeTask_ok tm id : tm_ok tm -> tm_ok (removeTask tm id).
Proof.
  intros [H1 H2 H3 H4 H5 H6 H7 H8]. split; simpl; try done.
  - by apply NoDup_filter.
  - intros i [_ Hi]%list_elem_of_filter. rewrite list_elem_of_filter. intros [_ Hr]. by apply (H6 i).
  - intros i [_ Hi]%list_elem_of_filter. auto.
  - intros i [_ Hi]%list_elem_of_filter. auto.
Qed.

Lemma store_updated_ok tm id p q ran :
  tm_ok tm -> tasks tm !! id = Some p -> idle_ok q -> settles (fst p) (fst q) ->
  tm_ok (store_updated tm id (q, ran)) /\ tasks_progress tm (store_updated tm id (q, ran)).
Proof.
  intros Htm Hp Hi Hs. pose proof (settle_ok tm id p q Htm Hp Hi Hs) as Hok.
  pose proof (set_task_progress tm id p q Hp (settles_progress _ _ Hs)) as Hpr.
  unfold store_updated. destruct (ran && isTerminal (fst q)); [|done]. split; [by apply removeTask_ok|exact Hpr].
Qed.

(** A task that leaves the queue and has been started. *)
Lemma started_ok tm id qs p q :
  tm_ok tm -> queued tm = id :: qs -> tasks tm !! id = Some p -> idle_ok q -> progress (fst p) (fst q) ->
  nested (fst q) = nested (fst p) -> (2 <= rank (t_state (fst q)))%nat ->
  tm_ok (set_task (set_lists tm qs (running tm ++ [id])) id q).
Proof.
  intros [H1 H2 H3 H4 H5 H6 H7 H8] Hq Hp Hi Hpr Hn Hrk. rewrite Hq in *. apply NoDup_cons in H5 as [H5 H5'].
  assert (forall i (r : TaskBase * St), i <> id -> tasks tm !! i = Some r -> <[id:=q]> (tasks tm) !! i = Some r) as Hne
    by (intros; by rewrite lookup_insert_ne by congruence).
  split; simpl; try done.
  - intros i. rewrite <- H1. destruct (decide (i = id)) as [->|Hx]; [by rewrite lookup_insert_eq, Hp|].
    by rewrite lookup_insert_ne by congruence.
  - intros i r. rewrite lookup_insert_Some. intros [[<- <-]|[_ Hr]]; [done|by apply (H3 i)].
  - intros i r n. rewrite lookup_insert_Some. intros [[<- <-]|[_ Hr]]; [|by apply (H4 i r)].
    rewrite Hn. by apply (H4 id p).
  - intros i Hi' [Hr|Hr]%elem_of_app; [by apply (H6 i); [right|]|]. apply list_elem_of_singleton in Hr as ->. done.
  - intros i Hi'. destruct (H7 i) as (r & Hr & Hs); [by right|]. exists r. split; [|done]. apply Hne; [|done].
    intros ->. done.
  - intros i [Hr|Hr]%elem_of_app.
    + destruct (H8 i Hr) as (r & Hr' & Hs). exists r. split; [|done]. apply Hne; [|done]. intros ->. by apply (H6 id); [left|].
    + apply list_elem_of_singleton in Hr as ->. exists q. by rewrite lookup_insert_eq.
Qed.

Lemma filter_ne_notin (id : Z) (l : list Z) : id ∉ l -> filter (fun i => i <> id) l = l.
Proof. intros H. apply filter_id, Forall_forall. intros i Hi ->. done. Qed.

(** One started task: its place in the lists and the store. *)
Lemma start_turn env now tm id qs p :
  tm_ok tm -> queued tm = id :: qs -> tasks tm !! id = Some p -> isTerminal (fst p) = false ->
  let tm' := store_updated (set_lists tm qs (running tm ++ [id])) id (start env now p) in
  tm_ok tm' /\ tasks_progress tm tm' /\ queued tm' = qs /\ canceling tm' = canceling tm /\
  (length (running tm') <= S (length (running tm)))%nat /\ running tm' `sublist_of` running tm ++ [id] /\
  (forall i, i <> id -> tasks tm' !! i = tasks tm !! i) /\
  exists q, tasks tm' !! id = Some q /\ (2 <= rank (t_state (fst q)))%nat /\ (isTerminal (fst q) = false -> id ∈ running tm').
Proof.
  intros Htm Hq Hp Ht. destruct (start env now p) as [q ran] eqn:Es.
  destruct (start_step env now p q ran Es (tm_idle tm Htm id p Hp)) as (Hi & Hpr & Hn & Hr).
  assert (t_state (fst p) = INITIAL \/ t_state (fst p) = QUEUED) as Hst.
  { destruct (tm_queued tm Htm id) as (r & Hr' & Hs1 & Hs2); [rewrite Hq; left|]. assert (r = p) as -> by congruence.
    unfold isTerminal in Ht. destruct (t_state (fst p)); auto; done. }
  destruct (Hr Hst) as [-> Hrk].
  pose proof (started_ok tm id qs p q Htm Hq Hp Hi Hpr Hn Hrk) as Hok.
  assert (id ∉ qs) as Hnq by (pose proof (tm_nodup tm Htm) as Hd; rewrite Hq in Hd; by apply NoDup_cons in Hd as [? _]).
  assert (tasks_progress tm (set_task (set_lists tm qs (running tm ++ [id])) id q)) as Hpg.
  { by apply (set_task_progress (set_lists tm qs (running tm ++ [id])) id p q). }
  unfold store_updated. simpl (true && _). destruct (isTerminal (fst q)) eqn:Eq.
  - split; [by apply removeTask_ok|]. split; [exact Hpg|]. simpl. split; [by apply filter_ne_notin|]. split; [done|].
    split. { etrans; [apply length_filter|]. rewrite length_app. simpl. lia. }
    split; [apply sublist_filter|]. split; [intros; by rewrite lookup_insert_ne by congruence|].
    exists q. rewrite lookup_insert_eq. split_and!; [done|done|congruence].
  - split; [done|]. split; [exact Hpg|]. simpl. split; [done|]. split; [done|]. rewrite length_app. simpl. split; [lia|].
    split; [done|]. split; [intros; by rewrite lookup_insert_ne by congruence|].
    exists q. rewrite lookup_insert_eq. split_and!; try done. intros _. set_solver.
Qed.

Lemma pop_ok tm id qs : tm_ok tm -> queued tm = id :: qs -> tm_ok (set_lists tm qs (running tm)).
Proof.
  intros [H1 H2 H3 H4 H5 H6 H7 H8] Hq. rewrite Hq in *. apply NoDup_cons in H5 as [_ H5]. split; simpl; try done.
  - intros i Hi. apply H6. by right.
  - intros i Hi. apply H7. by right.
Qed.

(** What [dequeue] does: [pre] is the part of the queue it took. *)
Definition dequeued tm tm' (pre : list Z) : Prop :=
  queued tm = pre ++ queued tm' /\ canceling tm' = canceling tm /\
  (queued tm' = [] \/ canStartTask tm' = false) /\
  (length (running tm') <= Nat.max (length (running tm)) (S Constants.MAX_ACTIVE_TASKS))%nat /\
  running tm' `sublist_of` running tm ++ pre /\
  (forall i, i ∉ pre -> tasks tm' !! i = tasks tm !! i) /\
  (forall i, i ∈ pre -> exists q, tasks tm' !! i = Some q /\ (2 <= rank (t_state (fst q)))%nat).

Lemma dequeue_loop_ok fuel env now tm :
  tm_ok tm -> (length (queued tm) < fuel)%nat ->
  exists tm' pre, dequeue_loop fuel env now tm = Some tm' /\ tm_ok tm' /\ tasks_progress tm tm' /\ dequeued tm tm' pre.
Proof.
  revert tm. induction fuel as [|fuel IH]; intros tm Htm Hf; [lia|]. simpl.
  assert (forall tm', tm' = tm -> queued tm' = [] \/ canStartTask tm' = false -> dequeued tm tm' []) as Hdone.
  { intros tm' -> Hc. unfold dequeued. rewrite app_nil_r. split; [done|]. split; [done|]. split; [exact Hc|]. split; [lia|].
    split; [done|]. split; [done|]. intros i Hi. by apply not_elem_of_nil in Hi. }
  destruct (canStartTask tm) eqn:Ec; simpl; [|exists tm, []; split; [done|]; split; [done|]; split; [reflexivity|]; apply Hdone; auto].
  destruct (queued tm) as [|id qs] eqn:Eq; [exists tm, []; split; [done|]; split; [done|]; split; [reflexivity|]; apply Hdone; auto|].
  destruct (tm_queued tm Htm id) as (p & Hp & Hs); [rewrite Eq; left|]. simpl in Hf. rewrite Hp.
  destruct (isTerminal (fst p)) eqn:Et.
  - destruct (IH (set_lists tm qs (running tm))) as (tm' & pre & E & Hok & Hpr & D1 & D2 & D3 & D4 & D5 & D6 & D7).
    { by eapply pop_ok. } { simpl. lia. }
    exists tm', (id :: pre). split; [done|]. split; [done|]. split; [exact Hpr|]. simpl in *.
    assert (forall i, i ∈ id :: pre -> exists q, tasks tm' !! i = Some q /\ (2 <= rank (t_state (fst q)))%nat) as D7'.
    { intros i [->|Hi]%elem_of_cons; [|by apply D7]. destruct (Hpr id p Hp) as (q & Hq & [Hr _]). exists q. split; [done|].
      apply terminal_rank in Et. lia. }
    split_and!; [by rewrite Eq, D1|done|done|done| | |exact D7'].
    + etrans; [exact D5|]. apply sublist_app; [done|]. by constructor.
    + intros i Hi. apply D6. set_solver.
  - destruct (start_turn (env id) now tm id qs p Htm Eq Hp Et) as (T1 & T2 & T3 & T4 & T5 & T6 & T7 & q & Hq & Hrk & _).
    set (tm1 := store_updated _ _ _) in *.
    destruct (IH tm1 T1) as (tm' & pre & E & Hok & Hpr & D1 & D2 & D3 & D4 & D5 & D6 & D7); [rewrite T3; lia|].
    exists tm', (id :: pre). split; [done|]. split; [done|]. split; [by etrans|].
    assert (forall i, i ∈ id :: pre -> exists q, tasks tm' !! i = Some q /\ (2 <= rank (t_state (fst q)))%nat) as D7'.
    { intros i [->|Hi]%elem_of_cons; [|by apply D7]. destruct (Hpr id q Hq) as (r & Hr & [Hle _]). exists r. split; [done|lia]. }
    unfold canStartTask in Ec. apply andb_true_iff in Ec as [_ Ec]. apply Nat.leb_le in Ec.
    split_and!; [by rewrite Eq, <- T3, D1|by rewrite D2|done|lia| | |exact D7'].
    + etrans; [exact D5|]. etrans; [apply sublist_app; [exact T6|reflexivity]|]. by rewrite <- app_assoc.
    + intros i Hi. rewrite D6 by set_solver. apply T7. set_solver.
Qed.

Lemma set_canceling_ok tm b : tm_ok tm -> tm_ok (set_canceling tm b).
Proof. intros []. by split. Qed.

(** Cancelling changes no list and ends the task and the tasks nested in it. *)
Definition canceled tm tm' : Prop :=
  tm_ok tm' /\ tasks_progress tm tm' /\ queued tm' = queued tm /\ running tm' = running tm /\
  canceling tm' = canceling tm /\ nextTaskId tm' = nextTaskId tm.

Definition ended tm (id : Z) : Prop := exists q, tasks tm !! id = Some q /\ isTerminal (fst q) = true.

Lemma ended_progress tm tm' id : tasks_progress tm tm' -> ended tm id -> ended tm' id.
Proof.
  intros Hp (q & Hq & Ht). destruct (Hp id q Hq) as (r & Hr & [_ E]). exists r. split; [done|].
  unfold isTerminal in *. by rewrite (E Ht).
Qed.

Lemma canceled_trans tm1 tm2 tm3 : canceled tm1 tm2 -> canceled tm2 tm3 -> canceled tm1 tm3.
Proof.
  intros (H1 & H2 & H3 & H4 & H5 & H6) (K1 & K2 & K3 & K4 & K5 & K6). split; [exact K1|]. split; [by etrans|].
  split_and!; congruence.
Qed.

Lemma cancel_loop_ok fuel now id tm :
  tm_ok tm -> 0 <= id < nextTaskId tm -> nextTaskId tm - id < Z.of_nat fuel ->
  exists tm', cancel_loop fuel now id tm = Some tm' /\ canceled tm tm' /\ ended tm' id.
Proof.
  revert id tm. induction fuel as [|fuel IH]; intros id tm Htm Hid Hf; [lia|]. simpl.
  destruct (proj2 (tm_dom tm Htm id) Hid) as [p Hp]. rewrite Hp.
  destruct (end_task_step now CANCELED (fst p)) as [(B1 & B2 & B3) Ht]; [auto|].
  destruct (tm_idle tm Htm id p Hp) as [I1 I2]. fold (cancel_self now (fst p)) in *.
  set (q := (cancel_self now (fst p), snd p)).
  assert (tm_ok (set_task tm id q)) as Hok.
  { apply (settle_ok tm id p); [done|done| |exact B2]. split; [by apply B1|]. simpl. by rewrite B3. }
  assert (tasks_progress tm (set_task tm id q)) as Hpr by (by apply (set_task_progress tm id p), settles_progress).
  assert (ended (set_task tm id q) id) as He by (exists q; simpl; by rewrite lookup_insert_eq).
  assert (canceled tm (set_task tm id q)) as Hc by (split; [done|]; by split).
  destruct (nested (fst p)) as [n|] eqn:En; [|by eexists].
  destruct (tm_nested tm Htm id p n Hp En) as [Hn1 Hn2].
  destruct (IH n (set_task tm id q)) as (tm' & E & Hc' & He'); [done|simpl; lia|simpl; lia|].
  exists tm'. split; [done|]. split; [by eapply canceled_trans|]. eapply ended_progress; [|exact He]. apply Hc'.
Qed.

Lemma cancel_ok now id tm :
  tm_ok tm -> is_Some (tasks tm !! id) -> exists tm', cancel now id tm = Some tm' /\ canceled tm tm' /\ ended tm' id.
Proof. intros Htm Hid%(tm_dom tm Htm). apply cancel_loop_ok; [done|done|lia]. Qed.

Lemma cancel_list_ok now ids tm :
  tm_ok tm -> (forall id, id ∈ ids -> is_Some (tasks tm !! id)) ->
  exists tm', cancel_list now ids tm = Some tm' /\ canceled tm tm' /\ (forall id, id ∈ ids -> ended tm' id).
Proof.
  revert tm. induction ids as [|id ids IH]; intros tm Htm Hids.
  { exists tm. split; [done|]. split; [split; [done|by split]|]. intros i Hi. by apply not_elem_of_nil in Hi. }
  simpl. destruct (cancel_ok now id tm Htm) as (tm1 & E1 & C1 & He1); [apply Hids; left|]. rewrite E1.
  pose proof C1 as (Hok1 & Hpr1 & _).
  destruct (IH tm1 Hok1) as (tm2 & E2 & C2 & He2).
  { intros i Hi. destruct (Hids i) as [p Hp]; [by right|]. destruct (Hpr1 i p Hp) as (q & Hq & _). by exists q. }
  exists tm2. split; [done|]. split; [by eapply canceled_trans|].
  intros i [->|Hi]%elem_of_cons; [|by apply He2]. eapply ended_progress; [apply C2|done].
Qed.

Lemma cancelAll_ok now tm :
  tm_ok tm -> canceling tm = false ->
  exists tm', cancelAll now tm = Some tm' /\ canceled tm tm' /\ (forall id, id ∈ running tm ++ queued tm -> ended tm' id).
Proof.
  intros Htm Hc. unfold cancelAll. set (tm0 := set_canceling tm true).
  destruct (cancel_list_ok now (running tm0) tm0) as (tm1 & E1 & C1 & He1).
  { by apply set_canceling_ok. } { intros i Hi. destruct (tm_running tm Htm i Hi) as (p & Hp & _). by exists p. }
  rewrite E1. pose proof C1 as (Hok1 & Hpr1 & Q1 & R1 & G1 & N1).
  destruct (cancel_list_ok now (queued tm1) tm1 Hok1) as (tm2 & E2 & C2 & He2).
  { intros i Hi. destruct (tm_queued tm1 Hok1 i Hi) as (p & Hp & _). by exists p. }
  rewrite E2. eexists. split; [reflexivity|].
  pose proof (canceled_trans _ _ _ C1 C2) as (Hok & Hpr & Q & Rr & G & N). split.
  - split; [by apply set_canceling_ok|]. split; [exact Hpr|]. split_and!; done.
  - intros i [Hi|Hi]%elem_of_app; [eapply ended_progress; [apply C2|by apply He1]|apply He2].
    rewrite Q1. exact Hi.
Qed.

Lemma new_task_ok tm s : tm_ok tm -> tm_ok (new_task tm s) /\ tasks_progress tm (new_task tm s).
Proof.
  intros [H1 H2 H3 H4 H5 H6 H7 H8].
  assert (tasks tm !! nextTaskId tm = None) as Hn.
  { apply eq_None_not_Some. intros H%H1. lia. }
  assert (forall i (p : TaskBase * St), tasks tm !! i = Some p -> <[nextTaskId tm := (Task_new, s)]> (tasks tm) !! i = Some p) as Hm.
  { intros i p Hi. rewrite lookup_insert_ne; [done|]. intros E. by rewrite E, Hi in Hn. }
  split; [split; simpl; try done|].
  - intros i. destruct (decide (i = nextTaskId tm)) as [->|Hx].
    + rewrite lookup_insert_eq. split; [lia|]. intros _. by exists (Task_new, s).
    + rewrite lookup_insert_ne by congruence. rewrite H1. lia.
  - lia.
  - intros i p. rewrite lookup_insert_Some. intros [[<- <-]|[_ Hr]]; [|by apply (H3 i)]. split; [split; [done|]|done].
    simpl. rewrite map_size_empty. lia.
  - intros i p n. rewrite lookup_insert_Some. intros [[<- <-]|[_ Hr]] En; [done|]. specialize (H4 i p n Hr En). lia.
  - intros i Hi. destruct (H7 i Hi) as (p & Hp & Hs). exists p. split; [by apply Hm|done].
  - intros i Hi. destruct (H8 i Hi) as (p & Hp & Hs). exists p. split; [by apply Hm|done].
  - intros i p Hp. exists p. split; [by apply Hm|done].
Qed.

Lemma enqueue_ok tm id p (qs : list Z) :
  tm_ok tm -> tasks tm !! id = Some p -> t_state (fst p) = INITIAL -> qs ≡ₚ id :: queued tm ->
  tm_ok (set_lists (set_task tm id (with_state (fst p) QUEUED, snd p)) qs (running tm)).
Proof.
  intros Htm Hp Hs Hqs. set (q := (with_state (fst p) QUEUED, snd p)).
  assert (forall i, i ∈ queued tm \/ i ∈ running tm -> i <> id) as Hni.
  { intros i Hi ->. destruct Hi as [Hi|Hi].
    - destruct (tm_queued tm Htm id Hi) as (r & Hr & Hx & _). congruence.
    - destruct (tm_running tm Htm id Hi) as (r & Hr & Hx). assert (r = p) as -> by congruence. rewrite Hs in Hx. simpl in Hx. lia. }
  assert (tm_ok (set_task tm id q)) as [H1 H2 H3 H4 H5 H6 H7 H8].
  { eapply set_task_ok; [done|done| | | |].
    - destruct (tm_idle tm Htm id p Hp) as [[I1 I2] I3]. split; [split|]; [|done|done]. simpl. unfold isTerminal in I1. by rewrite Hs in I1.
    - split; [rewrite Hs; simpl; lia|]. unfold isTerminal. by rewrite Hs.
    - intros n. simpl. by apply (tm_nested tm Htm).
    - by split. }
  split; simpl in *; try done.
  - rewrite Hqs. apply NoDup_cons. split; [|done]. intros Hi. by apply (Hni id); [left|].
  - intros i. rewrite Hqs. intros [->|Hi]%elem_of_cons; [|by apply H6]. intros Hi. by apply (Hni id); [right|].
  - intros i. rewrite Hqs. intros [->|Hi]%elem_of_cons; [|by apply H7]. exists q. by rewrite lookup_insert_eq.
Qed.

Lemma add_ok tm id prior : tm_ok tm -> tm_ok (add tm id prior) /\ tasks_progress tm (add tm id prior).
Proof.
  intros Htm. unfold add. destruct (canceling tm); [done|]. destruct (tasks tm !! id) as [p|] eqn:Hp; [|done].
  case_bool_decide as Hs.
  - split; [|by intros i r Hr; exists r]. destruct Htm as [H1 H2 H3 H4 H5 H6 H7 H8]. split; simpl; try done.
    + intros i Hi [Hr|Hr]%elem_of_app; [by apply (H6 i)|]. apply list_elem_of_singleton in Hr as ->.
      destruct (H7 id Hi) as (r & Hr & _ & Hx). congruence.
    + intros i [Hr|Hr]%elem_of_app; [by apply H8|]. apply list_elem_of_singleton in Hr as ->. exists p. rewrite Hs. simpl. auto.
  - unfold setState. simpl. case_bool_decide as Hi; simpl; [|done].
    assert (tasks_progress tm (set_task tm id (with_state (fst p) QUEUED, snd p))) as Hpr.
    { apply (set_task_progress tm id p); [done|]. unfold progress, isTerminal. rewrite <- Hi. split; simpl; [lia|done]. }
    destruct prior; (split; [|exact Hpr]); apply (enqueue_ok tm id p _ Htm Hp (eq_sym Hi)); [done|].
    simpl. by rewrite Permutation_app_comm.
Qed.

Lemma on_base_ok tm id p (f : TaskBase -> TaskBase) :
  tm_ok tm -> tasks tm !! id = Some p -> t_state (f (fst p)) = t_state (fst p) -> idle_ok (on_base f p) ->
  (forall n, nested (f (fst p)) = Some n -> id < n < nextTaskId tm) ->
  tm_ok (set_task tm id (on_base f p)) /\ tasks_progress tm (set_task tm id (on_base f p)).
Proof.
  intros Htm Hp Hs Hi Hn.
  assert (progress (fst p) (fst (on_base f p))) as Hpr by (by split; simpl; rewrite Hs).
  split; [|by apply (set_task_progress tm id p)]. eapply set_task_ok; [done|done|done|done|done|].
  intros Hin. simpl. rewrite Hs. destruct (tm_queued tm Htm id Hin) as (r & Hr & Hq). congruence.
Qed.

Lemma exec_ok env now op tm :
  tm_ok tm -> canceling tm = false -> op_ok tm op ->
  exists tm', exec env now op tm = Some tm' /\ tm_ok tm' /\ tasks_progress tm tm' /\ canceling tm' = false.
Proof.
  intros Htm Hc Hop. destruct op as [s|id n|id l|id prior| |id hash ev|id|]; simpl in *.
  - eexists. split; [reflexivity|]. destruct (new_task_ok tm s Htm). by split_and!.
  - destruct Hop as ([p Hp] & Hn & Hlt). unfold on_task. rewrite Hp. eexists. split; [reflexivity|].
    destruct (tm_idle tm Htm id p Hp) as [I1 I2]. apply (tm_dom tm Htm) in Hn.
    destruct (on_base_ok tm id p (setNestedTask n) Htm Hp eq_refl) as [H1 H2]; [by split| |by split_and!].
    intros m [= <-]. lia.
  - destruct Hop as [p Hp]. unfold on_task. rewrite Hp. eexists. split; [reflexivity|].
    destruct (tm_idle tm Htm id p Hp) as [[I0 I1] I2].
    destruct (on_base_ok tm id p (addListener l) Htm Hp eq_refl) as [H1 H2]; [| |by split_and!].
    + split; [split; [|done]|done]. simpl. change (isTerminal (addListener l (fst p))) with (isTerminal (fst p)).
      destruct (isTerminal (fst p)); by rewrite I0.
    + intros m. by apply (tm_nested tm Htm).
  - eexists. split; [reflexivity|]. destruct (add_ok tm id prior Htm) as [H1 H2]. split_and!; [done|done|].
    unfold add. rewrite Hc. destruct (tasks tm !! id); [|done]. case_bool_decide; [done|].
    destruct (setState _ _ _); [|done]. by destruct prior.
  - destruct (dequeue_loop_ok (S (length (queued tm))) env now tm Htm) as (tm' & pre & E & H1 & H2 & D); [lia|].
    exists tm'. split; [exact E|]. split_and!; [done|done|]. destruct D as (_ & -> & _). done.
  - destruct Hop as [p Hp]. unfold on_task. rewrite Hp. eexists. split; [reflexivity|].
    destruct (onCallState (env id) now hash ev p) as [q ran] eqn:E.
    destruct (onCallState_step _ _ _ _ _ _ _ E (tm_idle tm Htm id p Hp)) as [Hi Hs].
    destruct (store_updated_ok tm id p q ran Htm Hp Hi Hs) as [H1 H2]. split_and!; [done|done|].
    unfold store_updated. by destruct (ran && isTerminal (fst q)).
  - destruct (cancel_ok now id tm Htm Hop) as (tm' & E & (H1 & H2 & _ & _ & H5 & _) & _). exists tm'.
    split_and!; [done|done|done|congruence].
  - destruct (cancelAll_ok now tm Htm Hc) as (tm' & E & (H1 & H2 & _ & _ & H5 & _) & _). exists tm'.
    split_and!; [done|done|done|congruence].
Qed.

Lemma manager_reachable_ok tm : reachable tm -> tm_ok tm /\ canceling tm = false.
Proof.
  induction 1 as [|tm env now op tm' _ [Htm Hc] Hop E].
  - split; [|done]. split; simpl; try done.
    + intros id. rewrite lookup_empty. split; [by intros []|lia].
    + constructor.
    + intros id Hi. by apply not_elem_of_nil in Hi.
    + intros id Hi. by apply not_elem_of_nil in Hi.
    + intros id Hi. by apply not_elem_of_nil in Hi.
  - destruct (exec_ok env now op tm Htm Hc Hop) as (tm2 & E2 & H1 & _ & H2). assert (tm2 = tm') as -> by congruence. done.
Qed.

(** ** Theorems *)

(** C11: The life of tasks, for every kind of task.  Whatever the manager, the
    calls of the tasks and concurrent updates do, a task has called every
    listener exactly once, in the order they were added, when it has ended, and
    none before; it has at most MAX_CONCURRENT_TASK_REQUESTS calls in flight and
    no update is left marked as running.  A queued task is queued once and is
    neither initial nor running.  Every step ends with a result, and it moves
    each task only forward through its states and never out of a final state. *)
Theorem task_lifecycle tm env now op :
  reachable tm -> op_ok tm op ->
  (forall id p, tasks tm !! id = Some p ->
     called (fst p) = (if isTerminal (fst p) then listeners (fst p) else []) /\
     (size (inFlight (fst p)) <= Constants.MAX_CONCURRENT_TASK_REQUESTS)%nat /\ lock (fst p) = 0) /\
  NoDup (queued tm) /\
  (forall id, id ∈ queued tm -> id ∉ running tm /\ exists p, tasks tm !! id = Some p /\ q_state (t_state (fst p))) /\
  exists tm', exec env now op tm = Some tm' /\
    forall id p, tasks tm !! id = Some p -> exists q, tasks tm' !! id = Some q /\
      (rank (t_state (fst p)) <= rank (t_state (fst q)))%nat /\ (isTerminal (fst p) = true -> t_state (fst q) = t_state (fst p)).
Proof.
  intros [Htm Hc]%manager_reachable_ok Hop. split_and!; [|apply Htm| |].
  - intros id p Hp. destruct (tm_idle tm Htm id p Hp) as [[H1 H2] H3]. by split_and!.
  - intros id Hi. split; [by apply (tm_disj tm Htm)|by apply (tm_queued tm Htm)].
  - destruct (exec_ok env now op tm Htm Hc Hop) as (tm' & E & _ & Hp & _). exists tm'. split; [done|].
    intros id p Hip. destruct (Hp id p Hip) as (q & Hq & Hpq). by exists q.
Qed.

(** Dequeue ends, takes a front part of the queue in order, leaves all
    other tasks as they are, and every task it took is running or has ended.  It
    stops only when the queue is empty or no further task may start.  It makes
    at most MAX_ACTIVE_TASKS + 1 tasks run, one more than the constant says,
    and keeps the order of the running tasks. *)
Theorem dequeue_order tm env now :
  reachable tm ->
  exists tm' pre, dequeue env now tm = Some tm' /\ queued tm = pre ++ queued tm' /\
    (queued tm' = [] \/ canStartTask tm' = false) /\
    (length (running tm') <= Nat.max (length (running tm)) (S Constants.MAX_ACTIVE_TASKS))%nat /\
    running tm' `sublist_of` running tm ++ pre /\
    (forall i, i ∉ pre -> tasks tm' !! i = tasks tm !! i) /\
    (forall i, i ∈ pre -> exists q, tasks tm' !! i = Some q /\ (2 <= rank (t_state (fst q)))%nat).
Proof.
  intros [Htm _]%manager_reachable_ok.
  destruct (dequeue_loop_ok (S (length (queued tm))) env now tm Htm) as (tm' & pre & E & _ & _ & D); [lia|].
  exists tm', pre. destruct D as (D1 & _ & D3 & D4 & D5 & D6 & D7). split; [exact E|]. by split_and!.
Qed.
End behaviour.
End TaskManager.
