(* ===== verification/PingTasks.v ===== *)
(** * The ping tasks: [PingRefreshTask] of [src/core/task/ping_refresh_task.cc] as a task

    [RoutingTables] makes the task (the entries to ping and its options); here it runs
    as an instance of [TaskBehaviour].  The entries are shared with the routing table:
    what one of them says at a time is the parameter [deref].  The task records what it
    did with each entry and when, and the nodes it took out of the routing table. *)

From S2P Require Import Prelude Constants Ids Addresses Entries KBuckets RoutingTables Tasks.

(** What was done with an entry, and when. *)
Record PingDone := MkPingDone { pd_entry : SpE; pd_time : Z; pd_pinged : bool }.

Record PingTask := MkPingTask {
  pg_task : PingRefreshTask;
  pg_nextCall : Z;
  pg_done : list PingDone;
  pg_removed : list Id           (* the calls of [RoutingTable::remove] *)
}.

Module PingTask.
Implicit Types (p : TaskBase * PingTask).

Section ping.
Variable deref : Z -> SpE -> KBucketEntry.

(** ** Definitions *)

Definition set_todo (l : list SpE) (t : PingRefreshTask) : PingRefreshTask :=
  MkPing (pt_bucket t) l (checkAll t) (probeCache t) (removeOnTimeout t).

(** Whether the entry in front is pinged. *)
Definition wants_ping (now : Z) (e : SpE) (t : PingRefreshTask) : bool := checkAll t || needsPing now (deref now e).

(** The entry in front is taken off. *)
Definition taken (now : Z) (e : SpE) (l : list SpE) (pinged : bool) (g : PingTask) : PingTask :=
  MkPingTask (set_todo l (pg_task g)) (pg_nextCall g + (if pinged then 1 else 0)) (pg_done g ++ [MkPingDone e now pinged]) (pg_removed g).

(** The loop of [update]; the handler of the sent call takes the entry off. *)
Fixpoint ping_loop (now : Z) (l : list SpE) p : TaskBase * PingTask :=
  match l with
  | [] => p
  | e :: l =>
      if negb (Task.canDoRequest (fst p)) then p
      else if negb (wants_ping now e (pg_task (snd p))) then ping_loop now l (fst p, taken now e l false (snd p))
      else match Task.sendCall (pg_nextCall (snd p)) (eid e) (fst p) with
           | Some t => ping_loop now l (t, taken now e l true (snd p))
           | None => p
           end
  end.

Definition ping_update (now : Z) p : TaskBase * PingTask := ping_loop now (todo (pg_task (snd p))) p.

Definition ping_isDone p : bool := bool_decide (todo (pg_task (snd p)) = []) && Task.base_isDone (fst p).

Definition ping_timeout (id : Id) p : TaskBase * PingTask :=
  if removeOnTimeout (pg_task (snd p))
  then (fst p, MkPingTask (pg_task (snd p)) (pg_nextCall (snd p)) (pg_done (snd p)) (pg_removed (snd p) ++ [id]))
  else p.

(** ** Lemmas *)

Lemma sends_one hash id t t' : Task.sendCall hash id t = Some t' -> Task.base_step t t' /\ t' = Task.with_inFlight t (<[hash := id]> (inFlight t)).
Proof.
  unfold Task.sendCall. destruct (Task.canDoRequest t) eqn:Ec; [|done]. intros [= <-]. split; [|done].
  split; [|split; [split; [by left|done]|done]]. intros [H1 H2]. split; [exact H1|]. simpl.
  unfold Task.canDoRequest in Ec. apply Nat.ltb_lt in Ec. rewrite map_size_insert. destruct (inFlight t !! hash); simpl; lia.
Qed.

Lemma ping_loop_step now l p : Task.base_step (fst p) (fst (ping_loop now l p)).
Proof.
  revert p. induction l as [|e l IH]; intros p; simpl; [reflexivity|]. destruct (negb _); [reflexivity|].
  destruct (negb _); [exact (IH (fst p, _))|]. destruct (Task.sendCall _ _ _) as [t|] eqn:E; [|reflexivity].
  etrans; [by eapply sends_one|]. exact (IH (t, _)).
Qed.

#[refine] Instance ping_behaviour : TaskBehaviour PingTask unit := {
  prepare now p := p;
  update now p := ping_update now p;
  isDone p := ping_isDone p;
  callSent now id p := p;
  callResponsed now id r p := p;
  callError now id p := p;
  callTimeout now id p := ping_timeout id p
}.
Proof.
  - reflexivity.
  - intros now p. apply ping_loop_step.
  - reflexivity.
  - reflexivity.
  - reflexivity.
  - intros now id p. unfold ping_timeout. destruct (removeOnTimeout _); reflexivity.
Defined.

(** What the task has done: all entries in order, each pinged if it had to be; the
    calls in flight and the removed nodes are among the pinged. *)
Definition pinged_ids (g : PingTask) : list Id := (fun d => eid (pd_entry d)) <$> List.filter pd_pinged (pg_done g).

Record ping_inv (task : PingRefreshTask) p : Prop := {
  pi_all : (pd_entry <$> pg_done (snd p)) ++ todo (pg_task (snd p)) = todo task;
  pi_options : checkAll (pg_task (snd p)) = checkAll task /\ removeOnTimeout (pg_task (snd p)) = removeOnTimeout task;
  pi_done : Forall (fun d => pd_pinged d = checkAll task || needsPing (pd_time d) (deref (pd_time d) (pd_entry d))) (pg_done (snd p));
  pi_calls : map_Forall (fun _ id => id ∈ pinged_ids (snd p)) (inFlight (fst p));
  pi_removed : Forall (fun id => id ∈ pinged_ids (snd p) /\ removeOnTimeout task = true) (pg_removed (snd p));
  pi_finished : t_state (fst p) = FINISHED -> todo (pg_task (snd p)) = []
}.

Lemma pinged_taken now e l b g : pinged_ids (taken now e l b g) = pinged_ids g ++ (if b then [eid e] else []).
Proof. unfold pinged_ids. simpl. rewrite List.filter_app, fmap_app. simpl. by destruct b. Qed.

Lemma taken_inv task now e l b t p :
  todo (pg_task (snd p)) = e :: l -> b = wants_ping now e (pg_task (snd p)) ->
  (t = fst p \/ b = true /\ exists hash, t = Task.with_inFlight (fst p) (<[hash := eid e]> (inFlight (fst p)))) ->
  t_state (fst p) <> FINISHED -> ping_inv task p -> ping_inv task (t, taken now e l b (snd p)).
Proof.
  intros Hl Hb Ht Hs [H1 H2 H3 H4 H5 H6]. split; simpl.
  - rewrite fmap_app, <- app_assoc, <- H1, Hl. done.
  - done.
  - apply Forall_app. split; [done|]. constructor; [|constructor]. simpl. rewrite Hb. unfold wants_ping. by rewrite (proj1 H2).
  - rewrite pinged_taken. destruct Ht as [->|[-> [hash ->]]].
    + intros k id E. specialize (H4 k id E). simpl in H4. set_solver.
    + apply map_Forall_insert_2; [set_solver|]. intros k id E. specialize (H4 k id E). simpl in H4. set_solver.
  - eapply Forall_impl; [exact H5|]. intros id [? ?]. rewrite pinged_taken. split; [set_solver|done].
  - destruct Ht as [->|[_ [hash ->]]]; done.
Qed.

Lemma ping_loop_inv task now l p :
  todo (pg_task (snd p)) = l -> t_state (fst p) <> FINISHED -> ping_inv task p -> ping_inv task (ping_loop now l p).
Proof.
  revert p. induction l as [|e l IH]; intros p Hl Hs Hi; simpl; [done|]. destruct (negb (Task.canDoRequest _)); [done|].
  destruct (wants_ping now e (pg_task (snd p))) eqn:W; simpl.
  - destruct (Task.sendCall _ _ _) as [t|] eqn:E; [|done]. apply sends_one in E as [_ E].
    apply IH; [done|by rewrite E|]. apply taken_inv; try done. right. split; [done|]. by eexists.
  - apply IH; [done|done|]. apply taken_inv; try done. by left.
Qed.

(** The loop stops with nothing to do, or with a call in flight. *)
Lemma ping_loop_progress now l p :
  todo (pg_task (snd p)) = l -> todo (pg_task (snd (ping_loop now l p))) = [] \/ inFlight (fst (ping_loop now l p)) <> ∅.
Proof.
  revert p. induction l as [|e l IH]; intros p Hl; simpl; [by left|].
  destruct (Task.canDoRequest (fst p)) eqn:Ec; simpl.
  2:{ right. intros Hf. unfold Task.canDoRequest in Ec. by rewrite Hf, map_size_empty in Ec. }
  destruct (negb _); [by apply IH|]. unfold Task.sendCall. rewrite Ec. by apply IH.
Qed.

Lemma ping_turn_live now p : TaskRun.live (fst (TaskRun.update_turn now p)).
Proof.
  unfold TaskRun.update_turn. set (q := TaskRun.finish_if_done now p).
  destruct (Task.isTerminal (fst q)) eqn:Et; [rewrite andb_false_r; by left|].
  destruct (Task.canDoRequest (fst q)) eqn:Ec; simpl.
  2:{ right. intros Hf. unfold Task.canDoRequest in Ec. by rewrite Hf, map_size_empty in Ec. }
  unfold TaskRun.finish_if_done. simpl. set (q' := ping_update now q).
  destruct (ping_isDone q') eqn:D; [left; apply (TaskRun.end_task_step now FINISHED); auto|].
  destruct (ping_loop_progress now _ q eq_refl) as [Hn|Hf]; [|by right]. right. intros Hf.
  unfold ping_isDone, Task.base_isDone in D. unfold q', ping_update in *. by rewrite Hn, Hf in D.
Qed.

(** ** Theorems *)

(** C18: A ping task goes through its entries in order; it pings an entry exactly if it is to
    check all, or if the entry needs a ping at the time its turn comes.  It never hangs,
    and has gone through all entries when it finishes.  It removes a node from the
    routing table only if it was made to do so and the node was pinged. *)
Theorem ping_complete task p :
  TaskRun.run (Task.Task_new, MkPingTask task 0 [] []) p ->
  (pd_entry <$> pg_done (snd p)) ++ todo (pg_task (snd p)) = todo task /\
  Forall (fun d => pd_pinged d = checkAll task || needsPing (pd_time d) (deref (pd_time d) (pd_entry d))) (pg_done (snd p)) /\
  (Task.isTerminal (fst p) = true \/ inFlight (fst p) <> ∅) /\
  (t_state (fst p) = FINISHED -> pd_entry <$> pg_done (snd p) = todo task) /\
  Forall (fun id => id ∈ pinged_ids (snd p) /\ removeOnTimeout task = true) (pg_removed (snd p)).
Proof.
  intros Hr. assert (ping_inv task p /\ TaskRun.live (fst p)) as [[H1 H2 H3 H4 H5 H6] Hlive].
  - refine ((fun H => conj (proj1 H) (proj2 H _)) (TaskRun.run_inv (ping_inv task) _ _ _ _ _ _ _ _ Hr _ eq_refl _)).
    + intros now q Hn _. apply ping_turn_live.
    + intros now s q [I1 I2 I3 I4 I5 I6] Hs. split; simpl; try done; [by rewrite TaskRun.end_task_inFlight|].
      intros Hf. unfold Task.end_task, Task.setState in Hf. destruct (existsb _ _) in Hf; [|by apply I6]. simpl in Hf.
      destruct Hs as [->|[_ Hd]]; [done|]. simpl in Hd. unfold ping_isDone in Hd. bool_to_prop. done.
    + intros q t [I1 I2 I3 I4 I5 I6] E Hs. split; simpl; try done; [by rewrite E|]. intros Hf. apply I6.
      destruct Hs as [<-|[Ht _]]; [done|]. unfold Task.isTerminal in Ht. by rewrite Hf in Ht.
    + done.
    + intros now q _ Ht Hq. apply ping_loop_inv; [done| |done]. intros E. unfold Task.isTerminal in Ht. by rewrite E in Ht.
    + intros now tg h ev q _ Eh [I1 I2 I3 I4 I5 I6].
      assert (ping_inv task (TaskRun.on_base (Task.removeCall h) q)) as J.
      { split; simpl; try done. by apply map_Forall_delete. }
      pose proof (I4 _ _ Eh) as Hin. simpl in Hin.
      unfold TaskRun.call_handler. destruct ev; [by split|by split|destruct (Task.isTerminal _); exact J..|].
      destruct (Task.isTerminal _); [exact J|]. simpl. unfold ping_timeout. simpl. destruct (removeOnTimeout (pg_task (snd q))) eqn:Er; [|exact J].
      destruct J as [J1 J2 J3 J4 J5 J6]. split; simpl in *; try done. apply Forall_app. split; [done|]. constructor; [|constructor].
      split; [done|]. by destruct I2.
    + done.
    + split; [split|]; [done| |done]. simpl. rewrite map_size_empty. lia.
    + split; simpl; try done; apply map_Forall_empty.
  - split; [done|]. split; [done|]. split; [done|]. split; [|done]. intros Hf. rewrite <- H1, (H6 Hf). by rewrite app_nil_r.
Qed.

End ping.
End PingTask.

(** ** Witnesses: a bucket with two entries, of which the first does not answer *)

Section examples.

Definition bucket2 : list SpE := [RoutingTable.sample 1 2 9; RoutingTable.sample 5 3 10].
Definition ping0 : TaskBase * PingTask := (Task.Task_new, MkPingTask (MkPing 1 bucket2 true false true) 0 [] []).

#[local] Instance example_ping : TaskBehaviour PingTask unit := PingTask.ping_behaviour (fun _ e => obj e).

Definition ping1 : TaskBase * PingTask := fst (TaskRun.start [] 1 ping0).
Definition ping2 : TaskBase * PingTask := fst (TaskRun.onCallState [] 2 0 CallTimeout ping1).
Definition ping3 : TaskBase * PingTask := fst (TaskRun.onCallState [] 3 1 (CallResponded ()) ping2).

Lemma ping_complete_witness :
  t_state (fst ping3) = FINISHED /\ pd_entry <$> pg_done (snd ping3) = bucket2 /\ length (pg_removed (snd ping3)) = 1%nat.
Proof.
  assert (TaskRun.run ping0 ping3) as Hr by (do 2 (apply TaskRun.run_call; [|lia]); apply TaskRun.run_start; lia).
  assert (t_state (fst ping3) = FINISHED) as Hf by (vm_compute; reflexivity).
  split; [exact Hf|]. split; [|vm_compute; reflexivity].
  exact (proj1 (proj2 (proj2 (proj2 (PingTask.ping_complete (fun _ e => obj e) _ ping3 Hr)))) Hf).
Defined.
End examples.
