(* ===== verification/Texts.v ===== *)
(** * Texts: Base58 and hexadecimal forms of bytes and ids

    [base58_encode] and [base58_decode] of [src/core/crypto/base58.cc], [Hex] of
    [src/core/crypto/hex.h] and [hex.cc], and the text forms of [Id]
    ([src/core/id.cc]).  A text is the list of its characters as bytes; a C string
    ends before its first NUL.  Both directions of Base58 are one conversion
    between two radices in a buffer of estimated size ([process]), with the buffer
    kept here in the order of the iterator, the least significant digit first.

    The result [None] is a failed assertion, or a size that does not fit [int]. *)

From S2P Require Import Prelude Ids Values.

#[local] Open Scope carrier_scope.

Definition chars (s : string) : list Z := (fun c => Z.of_N (Ascii.N_of_ascii c)) <$> String.list_ascii_of_string s.

(** The characters before the first NUL. *)
Fixpoint c_string (s : list Z) : list Z :=
  match s with [] => [] | b :: s => if b =? 0 then [] else b :: c_string s end.

Fixpoint skip_while (f : Z -> bool) (s : list Z) : list Z :=
  match s with [] => [] | c :: r => if f c then skip_while f r else s end.

Fixpoint count_while (f : Z -> bool) (s : list Z) : nat :=
  match s with [] => 0 | c :: r => if f c then S (count_while f r) else 0 end%nat.

Module Base58.

Definition pszBase58 : list Z := chars "123456789ABCDEFGHJKLMNPQRSTUVWXYZabcdefghijkmnopqrstuvwxyz".

Definition mapBase58 : list Z := [
  -1; -1; -1; -1; -1; -1; -1; -1; -1; -1; -1; -1; -1; -1; -1; -1;
  -1; -1; -1; -1; -1; -1; -1; -1; -1; -1; -1; -1; -1; -1; -1; -1;
  -1; -1; -1; -1; -1; -1; -1; -1; -1; -1; -1; -1; -1; -1; -1; -1;
  -1; 0; 1; 2; 3; 4; 5; 6; 7; 8; -1; -1; -1; -1; -1; -1;
  -1; 9; 10; 11; 12; 13; 14; 15; 16; -1; 17; 18; 19; 20; 21; -1;
  22; 23; 24; 25; 26; 27; 28; 29; 30; 31; 32; -1; -1; -1; -1; -1;
  -1; 33; 34; 35; 36; 37; 38; 39; 40; 41; 42; 43; -1; 44; 45; 46;
  47; 48; 49; 50; 51; 52; 53; 54; 55; 56; 57; -1; -1; -1; -1; -1;
  -1; -1; -1; -1; -1; -1; -1; -1; -1; -1; -1; -1; -1; -1; -1; -1;
  -1; -1; -1; -1; -1; -1; -1; -1; -1; -1; -1; -1; -1; -1; -1; -1;
  -1; -1; -1; -1; -1; -1; -1; -1; -1; -1; -1; -1; -1; -1; -1; -1;
  -1; -1; -1; -1; -1; -1; -1; -1; -1; -1; -1; -1; -1; -1; -1; -1;
  -1; -1; -1; -1; -1; -1; -1; -1; -1; -1; -1; -1; -1; -1; -1; -1;
  -1; -1; -1; -1; -1; -1; -1; -1; -1; -1; -1; -1; -1; -1; -1; -1;
  -1; -1; -1; -1; -1; -1; -1; -1; -1; -1; -1; -1; -1; -1; -1; -1;
  -1; -1; -1; -1; -1; -1; -1; -1; -1; -1; -1; -1; -1; -1; -1; -1
].

Definition is_space (c : Z) : bool :=
  (c =? 32) || (c =? 12) || (c =? 10) || (c =? 13) || (c =? 9) || (c =? 11).

(** The inner loop: multiply the number in the buffer by [mult] and add [carry].
    [length] counts the digits in use that the iterator has not passed; the result
    has the carry and the number of digits the loop passed. *)
Fixpoint mul_add (mult base carry : Z) (length : nat) (buf : list Z) : list Z * Z * nat :=
  match buf with
  | [] => ([], carry, 0%nat)
  | d :: rest =>
      if negb (carry =? 0) || (0 <? length)%nat then
        let carry := carry + mult * d in
        let '(r, c, i) := mul_add mult base (carry / base) (pred length) rest in
        (carry mod base :: r, c, S i)
      else (buf, carry, 0%nat)
  end.

(** [int size = n * num / den + 1]: [None] when it does not fit. *)
Definition buffer_size (n num den : Z) : option nat :=
  let size := i32 (u64 (u64 (n * num) / den + 1)) in
  if size <? 0 then None else Some (Z.to_nat size).

(** The loop of [base58_encode]. *)
Fixpoint encode_loop (input : list Z) (length : nat) (b58 : list Z) : option (list Z * nat) :=
  match input with
  | [] => Some (b58, length)
  | ch :: input =>
      let '(b58, carry, i) := mul_add 256 58 ch length b58 in
      if carry =? 0 then encode_loop input i b58 else None
  end.

Definition base58_encode (input : list Z) : option (list Z) :=
  let zeroes := count_while (fun b => b =? 0) input in
  let input := skip_while (fun b => b =? 0) input in
  size ← buffer_size (Z.of_nat (length input)) 138 100;
  '(b58, len) ← encode_loop input 0 (replicate size 0);
  let it := skip_while (fun b => b =? 0) (reverse (take len b58)) in
  Some (replicate zeroes 49 ++ ((fun d => nth (Z.to_nat d) pszBase58 0) <$> it)).

(** The loop of [base58_decode]: it stops at the end and at a space. *)
Inductive Decoding := Rejected | Asserted | Decoded (psz b256 : list Z) (length : nat).

Fixpoint decode_loop (psz : list Z) (length : nat) (b256 : list Z) : Decoding :=
  match psz with
  | [] => Decoded [] b256 length
  | c :: rest =>
      if is_space c then Decoded psz b256 length else
      let carry := nth (Z.to_nat c) mapBase58 (-1) in
      if carry =? -1 then Rejected else
      let '(b256, carry, i) := mul_add 58 256 carry length b256 in
      if carry =? 0 then decode_loop rest i b256 else Asserted
  end.

(** [base58_decode of a C string]; the empty result is also the one for a text
    that is not Base58. *)
Definition base58_decode (str : list Z) : option (list Z) :=
  let psz := skip_while is_space (c_string str) in
  let zeroes := count_while (fun c => c =? 49) psz in
  let psz := skip_while (fun c => c =? 49) psz in
  size ← buffer_size (Z.of_nat (length psz)) 733 1000;
  match decode_loop psz 0 (replicate size 0) with
  | Rejected => Some []
  | Asserted => None
  | Decoded psz b256 len =>
      if negb (bool_decide (skip_while is_space psz = [])) then Some [] else
      Some (replicate zeroes 0 ++ reverse (take len b256))
  end.

(** [base58_decode(const std::string&)] *)
Definition valid_as_cstring (str : list Z) : bool := (length str =? length (c_string str))%nat.
Definition base58_decode_string (str : list Z) : option (list Z) :=
  if valid_as_cstring str then base58_decode str else Some [].

(** ** Numbers in a radix *)

Fixpoint le_value (b : Z) (l : list Z) : Z := match l with [] => 0 | d :: l => d + b * le_value b l end.

Definition be_value (b acc : Z) (l : list Z) : Z := foldl (fun a d => a * b + d) acc l.

Definition digits (b : Z) (l : list Z) : Prop := Forall (fun d => 0 <= d < b) l.

(** [len] digits are no more than the number [v] needs. *)
Definition tight (b : Z) (len : nat) (v : Z) : Prop :=
  match len with O => v = 0 | S n => b ^ Z.of_nat n <= v end.

Lemma le_value_bound b l : 1 < b -> digits b l -> 0 <= le_value b l < b ^ Z.of_nat (length l).
Proof.
  intros Hb. induction 1 as [|d l Hd _ IH]; simpl; [lia|].
  rewrite Nat2Z.inj_succ, Z.pow_succ_r by lia. nia.
Qed.

Lemma le_value_app b l l' : le_value b (l ++ l') = le_value b l + b ^ Z.of_nat (length l) * le_value b l'.
Proof.
  induction l as [|d l IH]; [by rewrite Z.mul_1_l|].
  rewrite <- app_comm_cons. cbn [le_value length]. rewrite Nat2Z.inj_succ, Z.pow_succ_r by lia. rewrite IH. lia.
Qed.

Lemma le_value_zeros b l : Forall (fun d => d = 0) l -> le_value b l = 0.
Proof. induction 1 as [|d l -> _ IH]; simpl; lia. Qed.

Lemma le_value_inj b l l' :
  1 < b -> digits b l -> digits b l' -> length l = length l' -> le_value b l = le_value b l' -> l = l'.
Proof.
  intros Hb H. revert l'. induction H as [|d l Hd _ IH]; intros [|d' l'] H' Hl E; try done.
  inversion_clear H' as [|? ? Hd' H'']. cbn [le_value] in E. injection Hl as Hl.
  assert (le_value b l = le_value b l') as Hv by nia. assert (d = d') as -> by (rewrite Hv in E; lia).
  f_equal. by apply IH.
Qed.

(** A number has one shortest form. *)
Lemma tight_unique b l l' :
  1 < b -> digits b l -> digits b l' -> le_value b l = le_value b l' ->
  tight b (length l) (le_value b l) -> tight b (length l') (le_value b l) -> l = l'.
Proof.
  intros Hb H H' E T T'. apply (le_value_inj b); try done.
  pose proof (le_value_bound b l Hb H) as B. pose proof (le_value_bound b l' Hb H') as B'. rewrite <- E in B'.
  destruct (length l) as [|n], (length l') as [|n']; simpl in T, T'; try done.
  - rewrite T in T'. pose proof (Z.pow_pos_nonneg b (Z.of_nat n')). lia.
  - rewrite T' in T. pose proof (Z.pow_pos_nonneg b (Z.of_nat n)). lia.
  - assert (Z.of_nat n < Z.of_nat (S n')) by (apply (Z.pow_lt_mono_r_iff b); lia).
    assert (Z.of_nat n' < Z.of_nat (S n)) by (apply (Z.pow_lt_mono_r_iff b); lia). lia.
Qed.

Lemma be_le_value b l : be_value b 0 l = le_value b (reverse l).
Proof.
  induction l as [|d l IH] using rev_ind; [done|]. unfold be_value in *. rewrite foldl_app, reverse_app. simpl. rewrite IH. lia.
Qed.

Lemma be_value_acc b acc l : be_value b acc l = acc * b ^ Z.of_nat (length l) + be_value b 0 l.
Proof.
  revert acc. induction l as [|d l IH]; intros acc; simpl; [lia|].
  change (be_value b (acc * b + d) l = acc * b ^ Z.of_nat (S (length l)) + be_value b (0 * b + d) l).
  rewrite (IH (acc * b + d)), (IH (0 * b + d)), Nat2Z.inj_succ, Z.pow_succ_r by lia. lia.
Qed.

(** A text without superfluous leading zeros is the shortest form of its number. *)
Lemma tight_head b d l : 1 < b -> digits b (d :: l) -> d <> 0 -> tight b (length (d :: l)) (le_value b (reverse (d :: l))).
Proof.
  intros Hb H Hd. inversion_clear H as [|? ? H1 H2]. simpl. rewrite reverse_cons, le_value_app, length_reverse. simpl.
  assert (0 <= le_value b (reverse l)) by (apply le_value_bound; [done|by apply Forall_reverse]).
  pose proof (Z.pow_pos_nonneg b (Z.of_nat (length l))). nia.
Qed.

Lemma tight_last b l : 1 < b -> digits b l -> tight b (length l) (le_value b l) -> l = [] \/ exists d r, reverse l = d :: r /\ d <> 0.
Proof.
  intros Hb H T. destruct l as [|d l _] using rev_ind; [by left|]. right. exists d, (reverse l). rewrite reverse_app. split; [done|].
  intros ->. rewrite le_value_app, length_app in T. simpl in T. rewrite Nat.add_1_r in T. simpl in T.
  apply Forall_app in H as [H _]. pose proof (le_value_bound b l Hb H). lia.
Qed.

(** ** The conversion between radices *)

Lemma mul_add_spec mult base carry len buf :
  1 < base -> 1 <= mult -> digits base buf -> 0 <= carry -> Forall (fun d => d = 0) (drop len buf) ->
  tight base len (le_value base buf) -> le_value base buf * mult + carry < base ^ Z.of_nat (length buf) ->
  exists r i, mul_add mult base carry len buf = (r, 0, i) /\ length r = length buf /\ digits base r /\
    le_value base r = le_value base buf * mult + carry /\ Forall (fun d => d = 0) (drop i r) /\
    tight base i (le_value base r).
Proof.
  intros Hb Hm H. revert carry len. induction H as [|d rest Hd H IH]; intros carry len Hc Hz T Hv.
  - simpl in *. exists [], 0%nat. assert (carry = 0) as -> by lia. split; [done|]. split; [done|]. split; [constructor|]. by split; [|split; [constructor|]].
  - cbn [mul_add]. pose proof (le_value_bound base rest Hb H) as B. cbn [le_value] in *.
    destruct (negb (carry =? 0) || (0 <? len)%nat) eqn:E.
    + destruct (IH ((carry + mult * d) / base) (pred len)) as (r & i & -> & Hl & Hr & V & Z' & T').
      * apply Z.div_pos; nia.
      * destruct len; [by inversion_clear Hz|exact Hz].
      * destruct len as [|[|n]]; simpl in T |- *; [nia| |].
        -- apply le_value_zeros. exact Hz.
        -- rewrite Nat2Z.inj_succ, Z.pow_succ_r in T by lia. nia.
      * cbn [length] in Hv. rewrite Nat2Z.inj_succ, Z.pow_succ_r in Hv by lia.
        pose proof (Z.div_mod (carry + mult * d) base ltac:(lia)). pose proof (Z.mod_pos_bound (carry + mult * d) base ltac:(lia)). nia.
      * pose proof (Z.div_mod (carry + mult * d) base ltac:(lia)). pose proof (Z.mod_pos_bound (carry + mult * d) base ltac:(lia)) as Hb'.
        exists ((carry + mult * d) mod base :: r), (S i). cbn [length le_value drop].
        split; [done|]. split; [lia|]. split; [by constructor|]. split; [rewrite V; nia|]. split; [exact Z'|].
        rewrite V in T' |- *. simpl. destruct i as [|i]; simpl in T' |- *.
        -- destruct len as [|n]; simpl in T; [|pose proof (Z.pow_pos_nonneg base (Z.of_nat n)); nia].
           rewrite orb_false_r in E. apply negb_true_iff, Z.eqb_neq in E. nia.
        -- rewrite Nat2Z.inj_succ, Z.pow_succ_r by lia. nia.
    + apply orb_false_iff in E as [E1 E2]. apply negb_false_iff, Z.eqb_eq in E1 as ->. apply Nat.ltb_ge in E2.
      assert (len = 0%nat) as -> by lia. simpl in T. exists (d :: rest), 0%nat. cbn [le_value length]. simpl.
      split; [done|]. split; [done|]. split; [by constructor|]. rewrite T. split; [lia|]. by split.
Qed.

(** Both loops: the digits of one radix go into the buffer of the other. *)
Fixpoint process (mult base : Z) (ds : list Z) (len : nat) (buf : list Z) : option (list Z * nat) :=
  match ds with
  | [] => Some (buf, len)
  | d :: ds =>
      let '(buf, carry, i) := mul_add mult base d len buf in
      if carry =? 0 then process mult base ds i buf else None
  end.

Lemma encode_process input len buf : encode_loop input len buf = process 256 58 input len buf.
Proof.
  revert len buf. induction input as [|ch input IH]; intros len buf; [done|]. cbn [encode_loop process].
  destruct (mul_add 256 58 ch len buf) as [[b c] i]. by destruct (c =? 0).
Qed.

Lemma process_spec mult base ds len buf :
  1 < base -> 1 <= mult -> digits mult ds -> digits base buf -> Forall (fun d => d = 0) (drop len buf) ->
  tight base len (le_value base buf) -> be_value mult (le_value base buf) ds < base ^ Z.of_nat (length buf) ->
  exists r i, process mult base ds len buf = Some (r, i) /\ length r = length buf /\ digits base r /\
    Forall (fun d => d = 0) (drop i r) /\ le_value base r = be_value mult (le_value base buf) ds /\ tight base i (le_value base r).
Proof.
  intros Hb Hm H. revert len buf. induction H as [|d ds Hd H IH]; intros len buf Hbuf Hz T Hv; [by exists buf, len|].
  assert (0 <= le_value base buf) by (by apply le_value_bound).
  change (be_value mult (le_value base buf) (d :: ds)) with (be_value mult (le_value base buf * mult + d) ds) in *.
  assert (0 <= be_value mult 0 ds).
  { destruct (decide (mult = 1)) as [->|]; [|rewrite be_le_value; apply le_value_bound; [lia|by apply Forall_reverse]].
    clear -H. rewrite be_le_value. induction ds as [|x ds IHl]; [done|]. inversion_clear H as [|? ? H1 H2].
    rewrite reverse_cons, le_value_app, Z.pow_1_l by lia. simpl. specialize (IHl H2). lia. }
  destruct (mul_add_spec mult base d len buf) as (r & i & E & Hl & Hr & V & Z' & T'); try done; [lia| |].
  { rewrite be_value_acc in Hv. pose proof (Z.pow_pos_nonneg mult (Z.of_nat (length ds))). nia. }
  cbn [process]. rewrite E. change (0 =? 0) with true. cbn iota. rewrite <- V, <- Hl. apply IH; try done. rewrite V, Hl. exact Hv.
Qed.

(** The estimated size of the buffer suffices. *)
Lemma radix_fits (mult base num den n : Z) :
  1 < base -> 0 < mult -> 0 < den -> 0 <= num -> 0 <= n -> mult ^ den <= base ^ num -> mult ^ n <= base ^ (n * num / den + 1).
Proof.
  intros Hb Hm Hden Hnum Hn H. assert (0 <= n * num / den) by (apply Z.div_pos; nia).
  destruct (Z.le_gt_cases (mult ^ n) (base ^ (n * num / den + 1))) as [?|Hlt]; [done|exfalso].
  assert (0 <= base ^ (n * num / den + 1)) as Hp by (apply Z.pow_nonneg; lia).
  pose proof (Z.pow_lt_mono_l _ _ den Hden (conj Hp Hlt)) as Hlt'. clear Hlt. rename Hlt' into Hlt.
  rewrite <- (Z.pow_mul_r base) in Hlt by lia.
  assert ((mult ^ n) ^ den = (mult ^ den) ^ n) as Hc by (rewrite <- !Z.pow_mul_r by lia; f_equal; lia). rewrite Hc in Hlt.
  assert ((mult ^ den) ^ n <= (base ^ num) ^ n) by (apply Z.pow_le_mono_l; split; [apply Z.pow_nonneg; lia|done]).
  assert ((base ^ num) ^ n <= base ^ ((n * num / den + 1) * den)); [|lia].
  rewrite <- Z.pow_mul_r by lia. apply Z.pow_le_mono_r; [lia|]. pose proof (Z.div_mod (n * num) den). pose proof (Z.mod_pos_bound (n * num) den). nia.
Qed.

Lemma buffer_size_spec n num den :
  0 <= n < 2 ^ 31 -> 0 < num < 2 ^ 10 -> 0 < den -> n * num / den + 1 < 2 ^ 31 ->
  buffer_size n num den = Some (Z.to_nat (n * num / den + 1)).
Proof.
  intros Hn Hnum Hden Hs. assert (0 <= n * num / den) by (apply Z.div_pos; nia). unfold buffer_size.
  rewrite (wrap_small 64 (n * num)), (wrap_small 64 (n * num / den + 1)), (swrap_small 32) by nia.
  by destruct (Z.ltb_spec (n * num / den + 1) 0); [lia|].
Qed.

(** A whole number goes through: the result has its value and no digit too many. *)
Lemma convert_spec mult base num den ds :
  1 < base -> 1 < mult -> 0 < den -> 0 < num -> mult ^ den <= base ^ num -> digits mult ds ->
  let size := Z.to_nat (Z.of_nat (length ds) * num / den + 1) in
  exists r i, process mult base ds 0 (replicate size 0) = Some (r, i) /\ (length (take i r) <= size)%nat /\ digits base (take i r) /\
    le_value base (take i r) = le_value mult (reverse ds) /\ tight base (length (take i r)) (le_value base (take i r)).
Proof.
  intros Hb Hm Hden Hnum Hf H size. assert (Forall (fun d => d = 0) (replicate size 0)) as Hz by (by apply Forall_replicate).
  destruct (process_spec mult base ds 0 (replicate size 0)) as (r & i & E & Hl & Hr & Z' & V & T); try done; [lia| | | |].
  - apply Forall_replicate. lia.
  - by apply le_value_zeros.
  - rewrite (le_value_zeros _ _ Hz), be_le_value, length_replicate.
    pose proof (le_value_bound mult (reverse ds) Hm ltac:(by apply Forall_reverse)) as B. rewrite length_reverse in B.
    assert (0 <= Z.of_nat (length ds) * num / den) by (apply Z.div_pos; nia).
    unfold size. rewrite Z2Nat.id by lia. pose proof (radix_fits mult base num den (Z.of_nat (length ds))). lia.
  - rewrite (le_value_zeros _ _ Hz), be_le_value in V. exists r, i.
    assert (le_value base r = le_value base (take i r)) as Ev.
    { rewrite <- (take_drop i r) at 1. rewrite le_value_app, (le_value_zeros _ _ Z'). lia. }
    split; [done|]. split; [rewrite length_replicate in Hl; rewrite length_take; lia|]. split; [by apply Forall_take|]. rewrite <- Ev, V. split; [done|]. rewrite V in T.
    destruct (Nat.le_gt_cases i (length r)) as [Hi|Hi]; [by rewrite length_take, Nat.min_l|].
    exfalso. pose proof (le_value_bound base r Hb Hr) as B. rewrite V in B. destruct i as [|i]; [lia|]. simpl in T.
    assert (base ^ Z.of_nat (length r) <= base ^ Z.of_nat i) by (apply Z.pow_le_mono_r; lia). lia.
Qed.

(** ** Texts *)

Definition char (d : Z) : Z := nth (Z.to_nat d) pszBase58 0.

Lemma alphabet (d : Z) : 0 <= d < 58 ->
  is_space (char d) = false /\ nth (Z.to_nat (char d)) mapBase58 (-1) = d /\ (char d =? 0) = false /\ (char d =? 49) = (d =? 0).
Proof.
  intros Hd. assert (forallb (fun d => negb (is_space (char d)) && (nth (Z.to_nat (char d)) mapBase58 (-1) =? d) &&
    negb (char d =? 0) && Bool.eqb (char d =? 49) (d =? 0)) (seqZ 0 58) = true) as H by by vm_compute.
  rewrite forallb_forall in H. specialize (H d). rewrite <- list_elem_of_In, elem_of_seqZ in H. specialize (H ltac:(lia)). bool_to_prop.
  split; [done|]. split; [done|]. split; [by apply Z.eqb_neq|]. by apply eqb_prop.
Qed.

Lemma skip_while_app f l l' : Forall (fun c => f c = true) l -> skip_while f (l ++ l') = skip_while f l'.
Proof. induction 1 as [|c l Hc _ IH]; [done|]. simpl. by rewrite Hc. Qed.

Lemma count_while_app f l l' : Forall (fun c => f c = true) l -> count_while f (l ++ l') = (length l + count_while f l')%nat.
Proof. induction 1 as [|c l Hc _ IH]; [done|]. simpl. by rewrite Hc, IH. Qed.

Lemma skip_while_stop f c l : f c = false -> skip_while f (c :: l) = c :: l /\ count_while f (c :: l) = 0%nat.
Proof. simpl. by intros ->. Qed.

(** The two parts of a text or of bytes: zeros, and a number without leading zeros. *)
Definition headed (l : list Z) : Prop := match l with [] => True | d :: _ => d <> 0 end.

Lemma skip_zeros l : exists z y, l = replicate z 0 ++ y /\ headed y.
Proof.
  induction l as [|d l (z & y & -> & H)]; [by exists 0%nat, []|].
  destruct (decide (d = 0)) as [->|Hd]; [by exists (S z), y|]. by exists 0%nat, (d :: replicate z 0 ++ y).
Qed.

Lemma headed_tight b ds : 1 < b -> digits b ds -> headed ds -> tight b (length ds) (le_value b (reverse ds)).
Proof. intros Hb H Hd. destruct ds as [|d ds]; [done|]. by apply tight_head. Qed.

Lemma tight_headed b l : 1 < b -> digits b l -> tight b (length l) (le_value b l) -> headed (reverse l).
Proof. intros Hb H T. destruct (tight_last b l Hb H T) as [->|(d & r & -> & Hd)]; done. Qed.

Lemma headed_unique b l l' :
  1 < b -> digits b l -> digits b l' -> headed l -> headed l' -> le_value b (reverse l) = le_value b (reverse l') -> l = l'.
Proof.
  intros Hb H H' Hl Hl' E. apply (inj reverse), (tight_unique b); try by apply Forall_reverse.
  - done.
  - done.
  - rewrite length_reverse. by apply headed_tight.
  - rewrite length_reverse, E. by apply headed_tight.
Qed.

Lemma skip_headed y : headed y -> skip_while (fun b => b =? 0) y = y /\ count_while (fun b => b =? 0) y = 0%nat.
Proof. destruct y as [|d y]; [done|]. simpl. intros Hd. by destruct (Z.eqb_spec d 0). Qed.

Lemma encode_fits : 256 ^ 100 <= 58 ^ 138.
Proof. apply Z.leb_le. by vm_compute. Qed.

Lemma decode_fits : 58 ^ 1000 <= 256 ^ 733.
Proof. apply Z.leb_le. by vm_compute. Qed.

Lemma encode_spec z y :
  digits 256 y -> headed y -> Z.of_nat (length y) < 2 ^ 30 ->
  exists ds, base58_encode (replicate z 0 ++ y) = Some (replicate z 49 ++ (char <$> ds)) /\ digits 58 ds /\ headed ds /\
    le_value 58 (reverse ds) = le_value 256 (reverse y) /\ Z.of_nat (length ds) <= Z.of_nat (length y) * 138 / 100 + 1.
Proof.
  intros Hy Hh Hl. destruct (skip_headed y Hh) as [Es Ec].
  assert (0 <= Z.of_nat (length y) * 138 / 100 < 2 ^ 31 - 1) as Hs by (split; [apply Z.div_pos|apply Z.div_lt_upper_bound]; lia).
  destruct (convert_spec 256 58 138 100 y ltac:(lia) ltac:(lia) ltac:(lia) ltac:(lia) encode_fits Hy) as (r & i & E & Hi & Hr & V & T).
  pose proof (tight_headed 58 (take i r) ltac:(lia) Hr T) as Hd. destruct (skip_headed _ Hd) as [Ed _].
  exists (reverse (take i r)). unfold base58_encode.
  assert (Forall (fun c => (c =? 0) = true) (replicate z 0)) as Hz by (by apply Forall_replicate).
  rewrite (count_while_app _ _ _ Hz), (skip_while_app _ _ _ Hz), Es, Ec, length_replicate, Nat.add_0_r, buffer_size_spec by lia. simpl.
  rewrite encode_process, E. simpl. rewrite Ed. split; [done|]. split; [by apply Forall_reverse|]. split; [done|].
  rewrite reverse_involutive, length_reverse. split; [done|]. lia.
Qed.

Lemma decode_process ds len buf :
  digits 58 ds ->
  decode_loop (char <$> ds) len buf = match process 58 256 ds len buf with Some (b, i) => Decoded [] b i | None => Asserted end.
Proof.
  intros H. revert len buf. induction H as [|d ds Hd _ IH]; intros len buf; [done|]. destruct (alphabet d Hd) as (E1 & E2 & _).
  cbn [fmap list_fmap decode_loop process]. rewrite E1, E2. destruct (Z.eqb_spec d (-1)); [lia|].
  destruct (mul_add 58 256 d len buf) as [[b c] i]. destruct (c =? 0); [apply IH|done].
Qed.

Lemma c_string_id l : Forall (fun c => (c =? 0) = false) l -> c_string l = l.
Proof. induction 1 as [|c l Hc _ IH]; [done|]. simpl. by rewrite Hc, IH. Qed.

Lemma char_string z ds : digits 58 ds -> c_string (replicate z 49 ++ (char <$> ds)) = replicate z 49 ++ (char <$> ds).
Proof.
  intros H. apply c_string_id, Forall_app. split; [by apply Forall_replicate|]. apply Forall_fmap.
  eapply Forall_impl; [exact H|]. intros d Hd. by apply alphabet.
Qed.

Lemma decode_spec z ds :
  digits 58 ds -> headed ds -> Z.of_nat (length ds) < 2 ^ 31 ->
  exists y, base58_decode (replicate z 49 ++ (char <$> ds)) = Some (replicate z 0 ++ y) /\ digits 256 y /\ headed y /\
    le_value 256 (reverse y) = le_value 58 (reverse ds) /\ Z.of_nat (length y) <= Z.of_nat (length ds) * 733 / 1000 + 1.
Proof.
  intros Hds Hh Hl.
  assert (0 <= Z.of_nat (length ds) * 733 / 1000 < 2 ^ 31 - 1) as Hs by (split; [apply Z.div_pos|apply Z.div_lt_upper_bound]; lia).
  destruct (convert_spec 58 256 733 1000 ds ltac:(lia) ltac:(lia) ltac:(lia) ltac:(lia) decode_fits Hds) as (r & i & E & Hi & Hr & V & T).
  pose proof (tight_headed 256 (take i r) ltac:(lia) Hr T) as Hd. exists (reverse (take i r)). unfold base58_decode. rewrite (char_string z ds Hds).
  assert (skip_while is_space (replicate z 49 ++ (char <$> ds)) = replicate z 49 ++ (char <$> ds)) as ->.
  { destruct z as [|z]; [|done]. destruct Hds as [|d ds Hd' _]; [done|]. simpl. by destruct (alphabet d Hd') as (-> & _). }
  assert (Forall (fun c => (c =? 49) = true) (replicate z 49)) as Hz by (by apply Forall_replicate).
  assert (skip_while (fun c => c =? 49) (char <$> ds) = char <$> ds /\ count_while (fun c => c =? 49) (char <$> ds) = 0%nat) as [Es Ec].
  { destruct Hds as [|d ds Hd' _]; [done|]. destruct (alphabet d Hd') as (_ & _ & _ & E'). simpl in Hh |- *. rewrite E'. by destruct (Z.eqb_spec d 0). }
  rewrite (count_while_app _ _ _ Hz), (skip_while_app _ _ _ Hz), Es, Ec, length_replicate, Nat.add_0_r, length_fmap, buffer_size_spec by lia. simpl.
  rewrite (decode_process ds 0 _ Hds), E. simpl. split; [done|]. split; [by apply Forall_reverse|]. split; [done|].
  rewrite reverse_involutive, length_reverse. split; [done|]. lia.
Qed.

Lemma chars_alphabet z ds : digits 58 ds -> Forall (fun c => c ∈ pszBase58) (replicate z 49 ++ (char <$> ds)).
Proof.
  intros H. apply Forall_app. split; [apply Forall_replicate; by left|]. apply Forall_fmap. eapply Forall_impl; [exact H|].
  intros d Hd. unfold compose, char. apply list_elem_of_In, nth_In. change (length pszBase58) with 58%nat. cbn beta in Hd. lia.
Qed.

Lemma alphabet_digit c : c ∈ pszBase58 -> exists d, 0 <= d < 58 /\ c = char d.
Proof.
  intros (i & Hi)%list_elem_of_lookup. exists (Z.of_nat i). pose proof (lookup_lt_Some _ _ _ Hi) as L.
  change (length pszBase58) with 58%nat in L. split; [lia|]. unfold char. rewrite Nat2Z.id. symmetry. by apply nth_lookup_Some.
Qed.

Lemma text_digits s :
  Forall (fun c => c ∈ pszBase58) s -> exists z ds, s = replicate z 49 ++ (char <$> ds) /\ digits 58 ds /\ headed ds.
Proof.
  induction 1 as [|c s Hc _ (z & ds & -> & Hd & Hh)]; [exists 0%nat, []; split; [done|]; split; [constructor|done]|].
  destruct (alphabet_digit c Hc) as (d & Hb & ->). destruct (decide (d = 0)) as [->|Hn]; [exists (S z), ds; split; [reflexivity|done]|].
  exists 0%nat, (d :: replicate z 0 ++ ds). simpl. rewrite fmap_app, fmap_replicate. split; [done|]. split; [|done].
  constructor; [done|]. apply Forall_app. split; [by apply Forall_replicate|done].
Qed.

Lemma decode_encode l :
  Forall is_byte l -> Z.of_nat (length l) < 2 ^ 30 ->
  exists s, base58_encode l = Some s /\ base58_decode s = Some l /\ Forall (fun c => c ∈ pszBase58) s.
Proof.
  intros H Hl. destruct (skip_zeros l) as (z & y & -> & Hy). apply Forall_app in H as [_ H]. rewrite length_app in Hl.
  destruct (encode_spec z y H Hy) as (ds & E & Hd & Hh & V & L); [lia|].
  assert (Z.of_nat (length y) * 138 / 100 < 2 ^ 31 - 1) by (apply Z.div_lt_upper_bound; lia).
  destruct (decode_spec z ds Hd Hh) as (y' & D & Hy' & Hh' & V' & _); [lia|].
  exists (replicate z 49 ++ (char <$> ds)). split; [done|]. split; [|by apply chars_alphabet]. rewrite D. do 2 f_equal.
  apply (headed_unique 256); try done; congruence.
Qed.

Lemma encode_decode s :
  Forall (fun c => c ∈ pszBase58) s -> Z.of_nat (length s) < 2 ^ 30 ->
  exists l, base58_decode s = Some l /\ base58_encode l = Some s /\ Forall is_byte l.
Proof.
  intros H Hl. destruct (text_digits s H) as (z & ds & -> & Hd & Hh). rewrite length_app, length_fmap in Hl.
  destruct (decode_spec z ds Hd Hh) as (y & D & Hy & Hh' & V & L); [lia|].
  assert (Z.of_nat (length ds) * 733 / 1000 < 2 ^ 30 - 1) by (apply Z.div_lt_upper_bound; lia).
  destruct (encode_spec z y Hy Hh') as (ds' & E & Hd' & Hh'' & V' & _); [lia|].
  exists (replicate z 0 ++ y). split; [done|]. split; [|apply Forall_app; split; [by apply Forall_replicate|done]].
  rewrite E. do 3 f_equal. apply (headed_unique 58); try done; congruence.
Qed.

(** Base58 is a one to one correspondence of bytes and texts over its alphabet,
    leading zeros included: both functions end, no assertion fails and the buffers
    suffice. *)
Theorem base58_roundtrip (l s : list Z) :
  Forall is_byte l -> Z.of_nat (length l) < 2 ^ 30 -> Forall (fun c => c ∈ pszBase58) s -> Z.of_nat (length s) < 2 ^ 30 ->
  (exists t, base58_encode l = Some t /\ base58_decode t = Some l /\ Forall (fun c => c ∈ pszBase58) t) /\
  (exists k, base58_decode s = Some k /\ base58_encode k = Some s /\ Forall is_byte k).
Proof. intros Hl Ll Hs Ls. split; [by apply decode_encode|by apply encode_decode]. Qed.

End Base58.

(** ** Hexadecimal text *)

(** What is used of libsodium: [sodium_bin2hex] writes two lower case digits for
    each byte, and [sodium_hex2bin], with the size of its buffer, reads them back. *)
Class SodiumHex := {
  bin2hex : list Z -> list Z;
  hex2bin : nat -> list Z -> option (list Z);
  bin2hex_length l : length (bin2hex l) = (2 * length l)%nat;
  bin2hex_digits l : Forall is_byte l -> Forall (fun c => c ∈ chars "0123456789abcdef") (bin2hex l);
  hex2bin_bin2hex n l : Forall is_byte l -> (length l <= n)%nat -> hex2bin n (bin2hex l) = Some l
}.

Module Hex.
Section hex.
Context {sodiumHex : SodiumHex}.

(** [None] is the result -1: the buffer is too small. *)
Definition encode_ptr (data : list Z) (bufLen : nat) : option (list Z) :=
  if (bufLen <? length data * 2 + 1)%nat then None else Some (bin2hex data).

(** [None]: the assertion on the length fails, or the buffer has no text. *)
Definition encode (data : list Z) (needPrefix : bool) : option (list Z) :=
  match data with
  | [] => None
  | _ =>
      let prefix := if needPrefix then chars "0x" else [] in
      buf ← encode_ptr data (length data * 2 + 4 - length prefix);
      Some (c_string (prefix ++ buf))
  end.

(** The result is the returned number and the contents of the buffer. *)
Definition decode_ptr (data buf : list Z) : result (Z * list Z) :=
  let bufLen := length buf in
  if negb (bufLen mod 2 =? 0)%nat || (bufLen <? length data / 2)%nat then Ok (-1, buf) else
  match hex2bin bufLen data with
  | None => Throw Domain_error
  | Some l => Ok (Z.of_nat (length data / 2), l ++ drop (length l) buf)
  end.

(** The result [None] is the failed assertion on the length. *)
Definition decode (str : list Z) : option (result (list Z)) :=
  match str with
  | [] => None
  | _ => Some (r <-! decode_ptr str (replicate (length str / 2) 0); Ok r.2)
  end.

Lemma hex_nul l : Forall is_byte l -> c_string (bin2hex l) = bin2hex l /\ c_string (chars "0x" ++ bin2hex l) = chars "0x" ++ bin2hex l.
Proof.
  intros H. assert (Forall (fun c => (c =? 0) = false) (bin2hex l)) as Hd.
  { eapply Forall_impl; [by apply bin2hex_digits|]. intros c Hc. cbn beta in Hc.
    assert (Forall (fun c => (c =? 0) = false) (chars "0123456789abcdef")) as Ha by (repeat constructor).
    by apply (proj1 (Forall_forall _ _) Ha). }
  split; apply Base58.c_string_id; [done|]. apply Forall_app. split; [repeat constructor|done].
Qed.

Lemma half_double n : (2 * n / 2 = n)%nat.
Proof. by rewrite Nat.mul_comm, Nat.div_mul. Qed.

Lemma decode_ptr_spec l buf :
  Forall is_byte l -> length buf = length l -> Nat.even (length l) = true -> decode_ptr (bin2hex l) buf = Ok (Z.of_nat (length l), l).
Proof.
  intros H Hl He. unfold decode_ptr. rewrite Hl, bin2hex_length, half_double, Nat.ltb_irrefl.
  apply Nat.even_spec in He as [k Hk]. assert ((length l mod 2)%nat = 0%nat) as -> by (rewrite Hk, Nat.mul_comm; by apply Nat.Div0.mod_mul).
  simpl. rewrite hex2bin_bin2hex by done. by rewrite drop_ge, app_nil_r by lia.
Qed.

(** Bytes survive the hexadecimal form when their number is even; the text of an odd
    number of bytes is read as zeros, without an error. *)
Theorem hex_roundtrip l :
  Forall is_byte l -> l <> [] ->
  exists h, encode l false = Some h /\ length h = (2 * length l)%nat /\
    decode h = Some (Ok (if Nat.even (length l) then l else replicate (length l) 0)).
Proof.
  intros H Hn. exists (bin2hex l). unfold encode, encode_ptr. destruct l as [|b l']; [done|]. set (l := b :: l') in *.
  rewrite (proj2 (Nat.ltb_ge _ _)) by (simpl; lia). simpl mbind. rewrite (proj1 (hex_nul l H)). split; [done|]. split; [apply bin2hex_length|].
  unfold decode. assert (bin2hex l <> []) as Hb by (intros E; pose proof (bin2hex_length l) as L; rewrite E in L; discriminate L).
  destruct (bin2hex l) as [|c h] eqn:E; [done|]. rewrite <- E. f_equal.
  rewrite bin2hex_length, half_double. destruct (Nat.even (length l)) eqn:He.
  - by rewrite decode_ptr_spec by (done || apply length_replicate).
  - unfold decode_ptr. rewrite length_replicate.
    assert ((length l mod 2)%nat = 1%nat) as ->.
    { assert (Nat.odd (length l) = true) as [k Hk]%Nat.odd_spec by (unfold Nat.odd; by rewrite He).
      rewrite Hk, Nat.add_comm, Nat.mul_comm. by rewrite Nat.Div0.mod_add. }
    done.
Qed.
End hex.
End Hex.

(** ** The text forms of ids *)

Module IdText.
Section id_text.
Context {sodiumHex : SodiumHex}.

Definition toHexString (i : Id) : option (list Z) := Hex.encode (bytes i) true.
Definition toBase58String (i : Id) : option (list Z) := Base58.base58_encode (bytes i).
Definition toString (i : Id) : option (list Z) := toBase58String i.

Definition fromBase58String (str : list Z) : option (result Id) :=
  data ← Base58.base58_decode str;
  Some (if negb (length data =? 32)%nat then Throw Out_of_range else Ok (mk_id data)).

Definition fromHexString (str : list Z) : result Id :=
  let prefix := bool_decide (take 2 str = chars "0x") in
  let pos := if prefix then 2%nat else 0%nat in
  if negb (length str =? 32 * 2 + pos)%nat then Throw Out_of_range else
  r <-! Hex.decode_ptr (take (32 * 2) (drop pos str)) (bytes zero);
  Ok (mk_id r.2).

Definition ofHex (str : list Z) : result Id := fromHexString str.
Definition ofBase58 (str : list Z) : option (result Id) := fromBase58String str.

(** [Id(const std::string&)] *)
Definition Id_of_string (str : list Z) : option (result Id) :=
  if bool_decide (take 2 str = chars "0x") then Some (fromHexString str) else fromBase58String str.

Lemma not_base58_0x s : Forall (fun c => c ∈ Base58.pszBase58) s -> take 2 s <> chars "0x".
Proof.
  intros H E. destruct s as [|c s]; [done|]. injection E as -> _. inversion_clear H as [|? ? Hc _].
  assert (48 ∉ Base58.pszBase58) as Hn by (apply (bool_decide_unpack _); by vm_compute). by apply Hn.
Qed.

(** The Base58 and the hexadecimal text of an id are read back as the id, by the
    functions of each form and by the constructor, which tells them apart. *)
Theorem id_text_roundtrip (i : Id) :
  exists s h, toString i = Some s /\ ofBase58 s = Some (Ok i) /\ Id_of_string s = Some (Ok i) /\
    toHexString i = Some h /\ ofHex h = Ok i /\ Id_of_string h = Some (Ok i).
Proof.
  destruct (Base58.decode_encode (bytes i) (id_bytes i)) as (s & E & D & Hs); [rewrite id_length; lia|].
  assert (fromBase58String s = Some (Ok i)) as Hf.
  { unfold fromBase58String. rewrite D. simpl. rewrite id_length. simpl. by rewrite PeerInfo.mk_id_bytes. }
  assert (Hex.encode (bytes i) true = Some (chars "0x" ++ bin2hex (bytes i))) as He.
  { unfold Hex.encode, Hex.encode_ptr. pose proof (id_length i) as Hl. destruct (bytes i) as [|b l] eqn:Eb; [done|]. rewrite <- Eb in Hl |- *.
    rewrite Hl. change (32 * 2 + 4 - length (chars "0x") <? 32 * 2 + 1)%nat with false. cbn [mbind option_bind].
    by rewrite (proj2 (Hex.hex_nul (bytes i) (id_bytes i))). }
  assert (fromHexString (chars "0x" ++ bin2hex (bytes i)) = Ok i) as Hx.
  { unfold fromHexString. change (take 2 (chars "0x" ++ bin2hex (bytes i))) with (chars "0x"). rewrite bool_decide_eq_true_2 by done.
    rewrite length_app, bin2hex_length, id_length. simpl.
    rewrite drop_0, take_ge by (rewrite bin2hex_length, id_length; lia).
    rewrite Hex.decode_ptr_spec by (apply id_bytes || by rewrite !id_length || by rewrite id_length). simpl. by rewrite PeerInfo.mk_id_bytes. }
  exists s, (chars "0x" ++ bin2hex (bytes i)). split; [exact E|]. split; [exact Hf|]. split.
  { unfold Id_of_string. by rewrite bool_decide_eq_false_2 by by apply not_base58_0x. }
  split; [exact He|]. split; [exact Hx|]. unfold Id_of_string.
  change (take 2 (chars "0x" ++ bin2hex (bytes i))) with (chars "0x"). rewrite bool_decide_eq_true_2 by done. by rewrite Hx.
Qed.
End id_text.
End IdText.

(** ** Concrete texts *)

Definition hex_digit (d : Z) : Z := nth (Z.to_nat d) (chars "0123456789abcdef") 0.
Definition hex_value (c : Z) : option Z := (fun p => Z.of_nat (fst p)) <$> list_find (eq c) (chars "0123456789abcdef").

Fixpoint to_hex (l : list Z) : list Z := match l with [] => [] | b :: l => hex_digit (b / 16) :: hex_digit (b mod 16) :: to_hex l end.

Fixpoint of_hex (n : nat) (s : list Z) : option (list Z) :=
  match s with
  | [] => Some []
  | [_] => None
  | h :: l :: s =>
      match n with
      | O => None
      | S n => a ← hex_value h; b ← hex_value l; r ← of_hex n s; Some (16 * a + b :: r)
      end
  end.

Lemma hex_value_digit d : 0 <= d < 16 -> hex_value (hex_digit d) = Some d.
Proof.
  intros Hd. apply (forallb_below (fun d => bool_decide (hex_value (hex_digit d) = Some d)) 16) in Hd; [by apply bool_decide_eq_true in Hd|by vm_compute].
Qed.

#[local] Instance hex : SodiumHex.
Proof.
  refine (Build_SodiumHex to_hex of_hex _ _ _).
  - intros l. induction l as [|b l IH]; [done|]. simpl. rewrite IH. lia.
  - induction 1 as [|b l Hb _ IH]; [constructor|]. unfold is_byte in Hb. simpl.
    assert (0 <= b / 16 < 16) by (split; [apply Z.div_pos|apply Z.div_lt_upper_bound]; lia).
    assert (0 <= b mod 16 < 16) by (apply Z.mod_pos_bound; lia).
    constructor; [|constructor; [|exact IH]]; apply list_elem_of_In, nth_In; change (length (chars "0123456789abcdef")) with 16%nat; lia.
  - intros n l H. revert n. induction H as [|b l Hb _ IH]; intros n Hn; [by destruct n|]. unfold is_byte in Hb. destruct n as [|n]; [simpl in Hn; lia|].
    assert (0 <= b / 16 < 16) by (split; [apply Z.div_pos|apply Z.div_lt_upper_bound]; lia).
    assert (0 <= b mod 16 < 16) by (apply Z.mod_pos_bound; lia).
    simpl. rewrite !hex_value_digit by done. simpl. rewrite IH by (simpl in Hn; lia). simpl. do 2 f_equal. pose proof (Z.div_mod b 16). lia.
Defined.

Lemma base58_roundtrip_witness :
  Base58.base58_encode [0; 0; 1; 2; 255] = Some (chars "11LiA") /\ exists k, Base58.base58_decode (chars "1A1z") = Some k.
Proof.
  destruct (Base58.base58_roundtrip [0; 0; 1; 2; 255] (chars "1A1z")) as [(t & E & _) (k & D & _)].
  - repeat constructor; lia.
  - done.
  - repeat (constructor; [apply (bool_decide_unpack _); by vm_compute|]). constructor.
  - done.
  - split; [by vm_compute|by exists k].
Defined.

Lemma hex_roundtrip_witness : exists h, Hex.encode [1; 2; 3] false = Some h /\ Hex.decode h = Some (Ok [0; 0; 0]).
Proof.
  destruct (Hex.hex_roundtrip [1; 2; 3]) as (h & E & _ & D); [repeat constructor; lia|done|]. exists h. by split.
Defined.

Lemma id_text_roundtrip_witness : exists s, IdText.toString MAX_ID = Some s /\ IdText.ofBase58 s = Some (Ok MAX_ID).
Proof. destruct (IdText.id_text_roundtrip MAX_ID) as (s & h & E & D & _). exists s. split; [exact E|exact D]. Defined.
