(* ===== verification/Crypto.v ===== *)
(** * Cryptography: the classes over libsodium

    [CryptoBox] of [include/carrier/crypto_box.h] and [src/core/crypto/crypto_box.cc],
    [Signature] of [include/carrier/signature.h] and [src/core/crypto/signature.cc],
    [CryptoContext] of [src/core/crypto_context.cc], [LocadingCache] of
    [src/core/utils/loading_cache.h], [CryptoCache] of [src/core/crypto_cache.h] and the
    operations of [Node] that encrypt, decrypt, sign and verify
    ([src/core/node.cc]).

    Keys, nonces and boxes are the bytes of their arrays.  libsodium is the
    interface [SodiumBox], with the laws the code relies on: the key agreement is
    symmetric, the conversion of keys commutes with taking the public key, and a
    box opens with the key and nonce it was sealed with.  An [assert] that repeats
    the check behind it is left out. *)

From S2P Require Import Prelude Constants Ids Candidates Values.

Definition BOX_KEY_BYTES : nat := 32.
Definition MAC_BYTES : nat := 16.

(** The functions [crypto_box_*], [crypto_scalarmult_base] and
    [crypto_sign_ed25519_*_to_curve25519]; [None] is a return code that is not 0. *)
Class SodiumBox `{Sodium} := {
  box_beforenm : list Z -> list Z -> option (list Z);          (* public key, private key *)
  box_seal : list Z -> list Z -> list Z -> option (list Z);    (* key, nonce, data *)
  box_open : list Z -> list Z -> list Z -> option (list Z);    (* key, nonce, cipher *)
  scalarmult_base : list Z -> list Z;
  sk_to_curve25519 : list Z -> list Z;
  pk_to_curve25519 : list Z -> option (list Z);
  scalarmult_base_length sk : length (scalarmult_base sk) = BOX_KEY_BYTES;
  sk_to_curve25519_length sk : length (sk_to_curve25519 sk) = BOX_KEY_BYTES;
  beforenm_symmetric sk1 sk2 : box_beforenm (scalarmult_base sk1) sk2 = box_beforenm (scalarmult_base sk2) sk1;
  curve25519_commutes seed : length seed = SEED_BYTES ->
    pk_to_curve25519 (snd (sign_seed_keypair seed)) = Some (scalarmult_base (sk_to_curve25519 (fst (sign_seed_keypair seed))));
  box_seal_length k n d c : box_seal k n d = Some c -> length c = (length d + MAC_BYTES)%nat;
  box_open_seal k n d c : box_seal k n d = Some c -> box_open k n c = Some d
}.

Lemma converted_keys `{SodiumBox} sk : secret_key sk -> pk_to_curve25519 (sk_to_pk sk) = Some (scalarmult_base (sk_to_curve25519 sk)).
Proof. intros (seed & Hl & ->). rewrite sign_seed_pk by done. by apply curve25519_commutes. Qed.

Record KeyPair := MkKeyPair { kp_sk : list Z; kp_pk : list Z }.

(** [PrivateKey(const Blob&)], [PublicKey(const Blob&)], [Nonce(const Blob&)] of both classes. *)
Definition of_blob (size : nat) (b : list Z) : result (list Z) :=
  if (length b =? size)%nat then Ok b else Throw Invalid_size.

#[local] Open Scope carrier_scope.

Module Signature.

Section signature.
Context {sodium : Sodium} {sodiumBox : SodiumBox}.

Definition PrivateKey_of (b : list Z) : result (list Z) := of_blob PRIVATE_KEY_BYTES b.
Definition PublicKey_of (b : list Z) : result (list Z) := of_blob ID_BYTES b.

(** [KeyPair(const PrivateKey&)] and [KeyPair(const Blob&)] *)
Definition KeyPair_copy (sk : list Z) : KeyPair := MkKeyPair sk (sk_to_pk sk).
Definition KeyPair_blob (b : list Z) : result KeyPair :=
  if (length b =? PRIVATE_KEY_BYTES)%nat then Ok (MkKeyPair b (sk_to_pk b)) else Throw Invalid_size.

(** [clear] of a private key. *)
Definition cleared : list Z := replicate PRIVATE_KEY_BYTES 0.

(** [KeyPair(PrivateKey&&)]: the member is moved from the parameter, which that
    clears; the name [sk] in the body is the parameter. *)
Definition KeyPair_move (sk : list Z) : KeyPair * list Z :=
  let member := sk in
  let parameter := cleared in
  (MkKeyPair member (sk_to_pk parameter), parameter).

Definition fromSeed (seed : list Z) : result KeyPair :=
  if (length seed =? SEED_BYTES)%nat then let '(sk, pk) := sign_seed_keypair seed in Ok (MkKeyPair sk pk)
  else Throw Invalid_size.

(** [PrivateKey::sign] into a buffer of a size, and into a new one. *)
Definition sign_into (size : nat) (data sk : list Z) : result (list Z) :=
  if (size =? SIGNATURE_BYTES)%nat then Ok (crypto_sign data sk) else Throw Invalid_size.
Definition sign (data sk : list Z) : result (list Z) := sign_into SIGNATURE_BYTES data sk.

(** [PublicKey::verify] *)
Definition verify (data signature pk : list Z) : result bool :=
  if (length signature =? SIGNATURE_BYTES)%nat then Ok (crypto_verify signature data pk) else Throw Invalid_size.
End signature.
End Signature.

Module CryptoBox.

Section box.
Context {sodium : Sodium} {sodiumBox : SodiumBox}.

(** [KeyPair(const PrivateKey&)], [KeyPair(PrivateKey&&)] (which copies) and [KeyPair(const Blob&)]. *)
Definition KeyPair_copy (sk : list Z) : KeyPair := MkKeyPair sk (scalarmult_base sk).
Definition KeyPair_blob (b : list Z) : result KeyPair :=
  if (length b =? BOX_KEY_BYTES)%nat then Ok (MkKeyPair b (scalarmult_base b)) else Throw Invalid_size.

Definition PublicKey_fromSignatureKey (signPk : list Z) : result (list Z) :=
  match pk_to_curve25519 signPk with Some pk => Ok pk | None => Throw Crypto_error end.
Definition PrivateKey_fromSignatureKey (signSk : list Z) : list Z := sk_to_curve25519 signSk.

Definition fromSignatureKeyPair (kp : KeyPair) : result KeyPair := KeyPair_blob (sk_to_curve25519 (kp_sk kp)).

(** [CryptoBox(const PublicKey&, const PrivateKey&)] *)
Definition CryptoBox_new (pk sk : list Z) : result (list Z) :=
  match box_beforenm pk sk with Some k => Ok k | None => Throw Crypto_error end.

(** [encrypt] into a buffer of a size, and into a new one. *)
Definition encrypt_into (size : nat) (plain nonce key : list Z) : result (list Z) :=
  if (size <? length plain + MAC_BYTES)%nat then Throw Buffer_too_small
  else match box_seal key nonce plain with Some c => Ok c | None => Throw Crypto_error end.
Definition encrypt (plain nonce key : list Z) : result (list Z) := encrypt_into (length plain + MAC_BYTES) plain nonce key.

(** [decrypt] into a buffer of a size, and into a new one.  The sizes are
    [size_t], so a cipher text shorter than its tag asks for a buffer that is far
    too large. *)
Definition decrypt_into (size : Z) (cipher nonce key : list Z) : result (list Z) :=
  if size <? u64 (Z.of_nat (length cipher) - Z.of_nat MAC_BYTES) then Throw Buffer_too_small
  else match box_open key nonce cipher with Some d => Ok d | None => Throw Crypto_error end.
Definition decrypt (cipher nonce key : list Z) : result (list Z) :=
  let size := u64 (Z.of_nat (length cipher) - Z.of_nat MAC_BYTES) in
  if 2 ^ 63 <=? size then Throw Length_error else decrypt_into size cipher nonce key.
End box.
End CryptoBox.

(** ** The context of a pair of nodes *)

Record CryptoContext := MkContext { cc_box : list Z; cc_nonce : list Z }.

Module CryptoContext.
Section context.
Context {sodium : Sodium} {sodiumBox : SodiumBox}.

(** The nonce is the first 24 bytes of the distance of the two keys. *)
Definition CryptoContext_new (pk : list Z) (keypair : KeyPair) : result CryptoContext :=
  box <-! CryptoBox.CryptoBox_new pk (kp_sk keypair);
  receiver <-! Id_of_blob pk;
  sender <-! Id_of_blob (kp_pk keypair);
  nonce <-! of_blob NONCE_BYTES (take NONCE_BYTES (bytes (distance sender receiver)));
  Ok (MkContext box nonce).

Definition encrypt (plain : list Z) (cc : CryptoContext) : result (list Z) := CryptoBox.encrypt plain (cc_nonce cc) (cc_box cc).
Definition decrypt (cipher : list Z) (cc : CryptoContext) : result (list Z) := CryptoBox.decrypt cipher (cc_nonce cc) (cc_box cc).
Definition encrypt_into (size : nat) (plain : list Z) (cc : CryptoContext) : result (list Z) :=
  CryptoBox.encrypt_into size plain (cc_nonce cc) (cc_box cc).
Definition decrypt_into (size : Z) (cipher : list Z) (cc : CryptoContext) : result (list Z) :=
  CryptoBox.decrypt_into size cipher (cc_nonce cc) (cc_box cc).
End context.
End CryptoContext.

(** ** The cache of contexts *)

Module LoadingCache.

Section cache.
Context {K V : Type} `{Countable K}.
Variables (load : K -> result V) (ttl : Z).

Record Entry := MkEntry { e_value : V; expiration_time : Z }.

Definition Entry_new (now : Z) (v : V) : Entry := MkEntry v (u64 (now + ttl)).
Definition expired (now : Z) (e : Entry) : bool := expiration_time e <=? now.

(** [get]: the value is loaded when it is missing, else its time is set anew.
    When [load] throws, nothing is inserted. *)
Definition get (now : Z) (k : K) (cache : gmap K Entry) : result V * gmap K Entry :=
  match cache !! k with
  | None =>
      match load k with
      | Ok v => (Ok v, <[k := Entry_new now v]> cache)
      | Throw e => (Throw e, cache)
      end
  | Some e => (Ok (e_value e), <[k := MkEntry (e_value e) (u64 (now + ttl))]> cache)
  end.

Definition handleExpiration (now : Z) (cache : gmap K Entry) : gmap K Entry :=
  filter (fun ke => expired now ke.2 = false) cache.
End cache.

Arguments Entry V : clear implicits.
Arguments MkEntry {V} _ _.
Arguments e_value {V} _.
Arguments expiration_time {V} _.
Arguments expired {V} _ _.
Arguments handleExpiration {K V _ _} _ _.
End LoadingCache.

(** ** The keys of a node *)

Record NodeKeys := MkNodeKeys {
  keyPair : KeyPair;
  encryptionKeyPair : KeyPair;
  cryptoContexts : gmap Id (LoadingCache.Entry CryptoContext)
}.

Module NodeCrypto.

Section node.
Context {sodium : Sodium} {sodiumBox : SodiumBox}.

(** [CryptoCache::load] with [Id::toEncryptionKey] *)
Definition load (keypair : KeyPair) (id : Id) : result CryptoContext :=
  pk <-! CryptoBox.PublicKey_fromSignatureKey (bytes id);
  CryptoContext.CryptoContext_new pk keypair.

(** The part of the constructor of [Node] that derives the id and the keys. *)
Definition NodeKeys_new (kp : KeyPair) : result (Id * NodeKeys) :=
  id <-! Id_of_blob (kp_pk kp);
  ekp <-! CryptoBox.fromSignatureKeyPair kp;
  Ok (id, MkNodeKeys kp ekp ∅).

Definition context (now : Z) (id : Id) (n : NodeKeys) : result CryptoContext * NodeKeys :=
  let '(cc, m) := LoadingCache.get (load (encryptionKeyPair n)) Constants.KBUCKET_OLD_AND_STALE_TIME now id (cryptoContexts n) in
  (cc, MkNodeKeys (keyPair n) (encryptionKeyPair n) m).

(** [Node::encrypt] and [Node::decrypt], with the new state of the cache. *)
Definition encrypt (now : Z) (recipient : Id) (plain : list Z) (n : NodeKeys) : result (list Z) * NodeKeys :=
  let '(cc, n) := context now recipient n in
  (cc <-! cc; CryptoContext.encrypt plain cc, n).
Definition decrypt (now : Z) (sender : Id) (cipher : list Z) (n : NodeKeys) : result (list Z) * NodeKeys :=
  let '(cc, n) := context now sender n in
  (cc <-! cc; CryptoContext.decrypt cipher cc, n).
Definition encrypt_into (now : Z) (recipient : Id) (size : nat) (plain : list Z) (n : NodeKeys) : result (list Z) * NodeKeys :=
  let '(cc, n) := context now recipient n in
  (cc <-! cc; CryptoContext.encrypt_into size plain cc, n).
Definition decrypt_into (now : Z) (sender : Id) (size : Z) (cipher : list Z) (n : NodeKeys) : result (list Z) * NodeKeys :=
  let '(cc, n) := context now sender n in
  (cc <-! cc; CryptoContext.decrypt_into size cipher cc, n).

(** [Node::sign] and [Node::verify] *)
Definition sign (data : list Z) (n : NodeKeys) : result (list Z) := Signature.sign data (kp_sk (keyPair n)).
Definition verify (data signature : list Z) (n : NodeKeys) : result bool := Signature.verify signature data (kp_pk (keyPair n)).

(** ** Lemmas *)

(** The cache holds nothing but what [load] gives. *)
Definition keys_ok (n : NodeKeys) : Prop :=
  forall id e, cryptoContexts n !! id = Some e -> load (encryptionKeyPair n) id = Ok (LoadingCache.e_value e).

Lemma context_spec now id n :
  keys_ok n -> exists n', context now id n = (load (encryptionKeyPair n) id, n') /\ keys_ok n' /\
    keyPair n' = keyPair n /\ encryptionKeyPair n' = encryptionKeyPair n.
Proof.
  intros Hok. unfold context, LoadingCache.get. destruct (cryptoContexts n !! id) as [e|] eqn:E.
  - eexists. split; [by rewrite (Hok _ _ E)|]. split_and!; [|done..]. intros k x Hx. simpl in *.
    apply lookup_insert_Some in Hx as [[<- <-]|[_ Hx]]; [exact (Hok _ _ E)|by apply Hok].
  - destruct (load (encryptionKeyPair n) id) as [v|err] eqn:El; eexists; (split; [done|]); [|by split_and!].
    split_and!; [|done..]. intros k x Hx. simpl in *.
    apply lookup_insert_Some in Hx as [[<- <-]|[_ Hx]]; [done|by apply Hok].
Qed.

Lemma distance_comm (a b : Id) : distance a b = distance b a.
Proof. apply id_val_inj. by rewrite !distance_val, Z.lxor_comm. Qed.

(** What [Node] derives from its private key. *)
Lemma node_keys (sk : list Z) id n :
  NodeKeys_new (Signature.KeyPair_copy sk) = Ok (id, n) ->
  bytes id = sk_to_pk sk /\ kp_sk (keyPair n) = sk /\ kp_pk (keyPair n) = sk_to_pk sk /\
  encryptionKeyPair n = CryptoBox.KeyPair_copy (sk_to_curve25519 sk) /\ keys_ok n.
Proof.
  unfold NodeKeys_new, Id_of_blob, CryptoBox.fromSignatureKeyPair, CryptoBox.KeyPair_blob. simpl.
  rewrite sk_to_curve25519_length, Nat.eqb_refl. destruct (_ || _); [done|]. intros [= <- <-].
  split_and!; try done. apply bytes_mk_id; [apply sk_to_pk_length|apply sk_to_pk_bytes].
Qed.

(** Both ends of a conversation compute the same key and the same nonce. *)
Lemma contexts_agree (ska skb : list Z) ida idb na nb :
  secret_key ska -> secret_key skb ->
  NodeKeys_new (Signature.KeyPair_copy ska) = Ok (ida, na) ->
  NodeKeys_new (Signature.KeyPair_copy skb) = Ok (idb, nb) ->
  load (encryptionKeyPair na) idb = load (encryptionKeyPair nb) ida.
Proof.
  intros Sa Sb (Ea & _ & _ & Ka & _)%node_keys (Eb & _ & _ & Kb & _)%node_keys.
  unfold load, CryptoBox.PublicKey_fromSignatureKey. rewrite Ea, Eb, !converted_keys, Ka, Kb by done.
  unfold CryptoContext.CryptoContext_new, CryptoBox.CryptoBox_new, CryptoBox.KeyPair_copy, Id_of_blob. cbn [kp_sk kp_pk].
  rewrite (beforenm_symmetric (sk_to_curve25519 skb)). destruct (box_beforenm _ _); [|done].
  rewrite !scalarmult_base_length. change (negb (BOX_KEY_BYTES =? ID_BYTES)%nat) with false. rewrite !orb_false_r.
  destruct (bool_decide (scalarmult_base (sk_to_curve25519 skb) = [])), (bool_decide (scalarmult_base (sk_to_curve25519 ska) = []));
    [done..|]. by rewrite (distance_comm (mk_id (scalarmult_base (sk_to_curve25519 ska)))).
Qed.

Lemma decrypt_encrypt cc plain cipher :
  Z.of_nat (length plain) < 2 ^ 63 -> CryptoContext.encrypt plain cc = Ok cipher -> CryptoContext.decrypt cipher cc = Ok plain.
Proof.
  intros Hl. unfold CryptoContext.encrypt, CryptoContext.decrypt, CryptoBox.encrypt, CryptoBox.decrypt, CryptoBox.encrypt_into, CryptoBox.decrypt_into.
  rewrite Nat.ltb_irrefl. destruct (box_seal _ _ _) as [c|] eqn:E; [|done]. intros [= <-].
  rewrite (box_seal_length _ _ _ _ E), (box_open_seal _ _ _ _ E), wrap_small by lia.
  destruct (Z.leb_spec (2 ^ 63) (Z.of_nat (length plain + MAC_BYTES) - Z.of_nat MAC_BYTES)); [lia|].
  by rewrite Z.ltb_irrefl.
Qed.

(** The operations of a node that touch the cache. *)
Inductive keys_step : NodeKeys -> NodeKeys -> Prop :=
  | ks_encrypt now id plain n : keys_step n (encrypt now id plain n).2
  | ks_decrypt now id cipher n : keys_step n (decrypt now id cipher n).2
  | ks_encrypt_into now id size plain n : keys_step n (encrypt_into now id size plain n).2
  | ks_decrypt_into now id size cipher n : keys_step n (decrypt_into now id size cipher n).2
  | ks_expire now n :
      keys_step n (MkNodeKeys (keyPair n) (encryptionKeyPair n) (LoadingCache.handleExpiration now (cryptoContexts n))).

Definition same_keys (n n' : NodeKeys) : Prop :=
  keys_ok n' /\ keyPair n' = keyPair n /\ encryptionKeyPair n' = encryptionKeyPair n.

Lemma keys_step_ok n n' : keys_step n n' -> keys_ok n -> same_keys n n'.
Proof.
  intros [now id plain m|now id cipher m|now id size plain m|now id size cipher m|now m] Hok.
  1-4: destruct (context_spec now id m Hok) as (m' & E & H);
    unfold encrypt, decrypt, encrypt_into, decrypt_into; by rewrite E.
  split_and!; [|done..]. intros id e He. simpl in He. apply map_lookup_filter_Some in He as [He _]. by apply Hok.
Qed.

Lemma keys_run_ok n n' : rtc keys_step n n' -> keys_ok n -> same_keys n n'.
Proof.
  induction 1 as [n|n m n' Hs _ IH]; intros Hok; [by split_and!|].
  destruct (keys_step_ok _ _ Hs Hok) as (Hm & Ek & Ee). destruct (IH Hm) as (? & ? & ?). split_and!; [done|congruence..].
Qed.

Lemma nodes_decrypt (ska skb plain cipher : list Z) ida idb a0 b0 a b (now now' : Z) :
  secret_key ska -> NodeKeys_new (Signature.KeyPair_copy ska) = Ok (ida, a0) -> rtc keys_step a0 a ->
  secret_key skb -> NodeKeys_new (Signature.KeyPair_copy skb) = Ok (idb, b0) -> rtc keys_step b0 b ->
  Z.of_nat (length plain) < 2 ^ 63 -> fst (encrypt now idb plain a) = Ok cipher ->
  fst (decrypt now' ida cipher b) = Ok plain /\
  fst (context now idb a) = fst (context now' ida b).
Proof.
  intros Sa Ha Ra Sb Hb Rb Hl He. pose proof (contexts_agree _ _ _ _ _ _ Sa Sb Ha Hb) as Hc.
  apply node_keys in Ha as (_ & _ & _ & _ & Oa), Hb as (_ & _ & _ & _ & Ob).
  apply keys_run_ok in Ra as (Ka & _ & Ea); [|done]. apply keys_run_ok in Rb as (Kb & _ & Eb); [|done].
  destruct (context_spec now idb a Ka) as (a' & Ca & _). destruct (context_spec now' ida b Kb) as (b' & Cb & _).
  unfold encrypt in He. unfold decrypt. rewrite Ca in He |- *. rewrite Cb. rewrite Ea, Eb in *.
  rewrite <- Hc. simpl in He |- *. split; [|done].
  destruct (load (encryptionKeyPair a0) idb) as [cc|]; [|done]. by apply (decrypt_encrypt cc).
Qed.

(** ** Theorems *)

(** C26: What a node encrypts for another node, the other decrypts, if libsodium made the
    private keys of both, and whatever both did before (so whatever their caches hold); both use the same key and the
    same nonce, in both directions. *)
Theorem node_encryption_roundtrip (ska skb plain cipher : list Z) ida idb a0 b0 a b (now now' : Z) :
  secret_key ska -> NodeKeys_new (Signature.KeyPair_copy ska) = Ok (ida, a0) -> rtc keys_step a0 a ->
  secret_key skb -> NodeKeys_new (Signature.KeyPair_copy skb) = Ok (idb, b0) -> rtc keys_step b0 b ->
  Z.of_nat (length plain) < 2 ^ 63 -> fst (encrypt now idb plain a) = Ok cipher ->
  fst (decrypt now' ida cipher b) = Ok plain /\
  fst (context now idb a) = fst (context now' ida b).
Proof. apply nodes_decrypt. Qed.

(** C31: The cache of contexts cannot be observed: the operations give what a
    context loaded for the occasion gives; an entry stays for
    [KBUCKET_OLD_AND_STALE_TIME] after its last use and is removed by the first
    expiry behind that time. *)
Theorem crypto_cache_transparent kp id0 n0 n (now now' : Z) (id : Id) (plain : list Z) :
  NodeKeys_new kp = Ok (id0, n0) -> rtc keys_step n0 n -> 0 <= now -> now + Constants.KBUCKET_OLD_AND_STALE_TIME < 2 ^ 64 ->
  fst (encrypt now id plain n) = (cc <-! load (encryptionKeyPair n) id; CryptoContext.encrypt plain cc) /\
  fst (decrypt now id plain n) = (cc <-! load (encryptionKeyPair n) id; CryptoContext.decrypt plain cc) /\
  forall cc, load (encryptionKeyPair n) id = Ok cc ->
    (is_Some (LoadingCache.handleExpiration now' (cryptoContexts (encrypt now id plain n).2) !! id) <->
     now' < now + Constants.KBUCKET_OLD_AND_STALE_TIME).
Proof.
  intros Hn Hr H0 Ht. assert (keys_ok n0) as O0.
  { unfold NodeKeys_new in Hn. destruct (Id_of_blob _); [|done]. destruct (CryptoBox.fromSignatureKeyPair _); [|done].
    injection Hn as <- <-. intros k e He. simpl in He. by rewrite lookup_empty in He. }
  destruct (keys_run_ok _ _ Hr O0) as (Ok_ & _). destruct (context_spec now id n Ok_) as (n' & E & _ & _ & Ek).
  unfold encrypt, decrypt. rewrite E. split_and!; [done..|]. intros cc Hcc. simpl.
  assert (exists v, cryptoContexts n' !! id = Some (LoadingCache.MkEntry v (u64 (now + Constants.KBUCKET_OLD_AND_STALE_TIME)))) as [v Hv].
  { revert E. unfold context, LoadingCache.get. rewrite Hcc.
    destruct (cryptoContexts n !! id); intros; simplify_eq/=; rewrite lookup_insert_eq; eauto. }
  unfold LoadingCache.handleExpiration. rewrite wrap_small in Hv by (unfold Constants.KBUCKET_OLD_AND_STALE_TIME in *; lia).
  split.
  - intros [x Hx]. apply map_lookup_filter_Some in Hx as [Hx Hf]. rewrite Hv in Hx. injection Hx as <-.
    unfold LoadingCache.expired in Hf. simpl in Hf. by apply Z.leb_gt.
  - intros Hlt. eexists. apply map_lookup_filter_Some. split; [exact Hv|]. by apply Z.leb_gt.
Qed.

(** [Node::verify] hands the signature to [PublicKey::verify] as the data and
    the data as the signature: it throws for data of any other length than 64
    bytes, so also for the data and the signature [Node::sign] made of it. *)
Theorem node_verify_swapped sk id n (data sig : list Z) :
  secret_key sk -> NodeKeys_new (Signature.KeyPair_copy sk) = Ok (id, n) -> sign data n = Ok sig -> length data <> SIGNATURE_BYTES ->
  verify data sig n = Throw Invalid_size /\ Signature.verify data sig (kp_pk (keyPair n)) = Ok true.
Proof.
  intros Hk (_ & Es & Ep & _)%node_keys. unfold sign, Signature.sign, Signature.sign_into. simpl. rewrite Es. intros [= <-] Hl.
  unfold verify, Signature.verify. rewrite Ep, crypto_sign_length, verify_signed by done. simpl.
  split; [|done]. by destruct (Nat.eqb_spec (length data) SIGNATURE_BYTES).
Qed.

(** The public key of a pair made by moving a private key does not depend on it. *)
Lemma moved_key_pair (sk sk' : list Z) :
  kp_pk (fst (Signature.KeyPair_move sk)) = kp_pk (fst (Signature.KeyPair_move sk')) /\
  kp_sk (fst (Signature.KeyPair_move sk)) = sk.
Proof. done. Qed.
End node.
End NodeCrypto.

(** ** Witnesses *)

#[local] Existing Instance toy_sodium.

(** A stand-in for libsodium with the laws of the interface. *)
#[local, refine] Instance toy_box : @SodiumBox toy_sodium := {
  box_beforenm pk sk := Some (zip_with Z.lxor (norm_bytes pk) (norm_bytes sk));
  box_seal k n d := Some (replicate MAC_BYTES 0 ++ d);
  box_open k n c := if (MAC_BYTES <=? length c)%nat then Some (drop MAC_BYTES c) else None;
  scalarmult_base sk := norm_bytes sk;
  sk_to_curve25519 sk := norm_bytes sk;
  pk_to_curve25519 pk := Some (norm_bytes pk)
}.
Proof.
  - intros. apply length_resize.
  - intros. apply length_resize.
  - intros sk1 sk2. f_equal. rewrite !norm_bytes_idem, <- (zip_with_flip Z.lxor (norm_bytes sk1)).
    apply zip_with_ext; [|done..]. intros x y. apply Z.lxor_comm.
  - intros. simpl. by rewrite norm_bytes_twice, norm_bytes_idem.
  - intros k n d c [= <-]. cbn [length]. unfold MAC_BYTES. lia.
  - intros k n d c [= <-]. done.
Defined.

Lemma node_encryption_roundtrip_witness :
  exists ida a idb b cipher, NodeCrypto.NodeKeys_new (Signature.KeyPair_copy (toy_key 1)) = Ok (ida, a) /\
    NodeCrypto.NodeKeys_new (Signature.KeyPair_copy (toy_key 2)) = Ok (idb, b) /\
    fst (NodeCrypto.encrypt 5 idb [7; 8] a) = Ok cipher /\ fst (NodeCrypto.decrypt 9 ida cipher b) = Ok [7; 8].
Proof.
  do 5 eexists. split; [reflexivity|]. split; [reflexivity|]. split; [reflexivity|].
  eapply (NodeCrypto.node_encryption_roundtrip (toy_key 1) (toy_key 2) _ _ _ _ _ _ _ _ 5);
    [apply toy_key_secret|reflexivity|apply rtc_refl|apply toy_key_secret|reflexivity|apply rtc_refl|reflexivity|reflexivity].
Defined.

Lemma crypto_cache_transparent_witness :
  exists id0 n, NodeCrypto.NodeKeys_new (Signature.KeyPair_copy (toy_key 1)) = Ok (id0, n) /\
    fst (NodeCrypto.encrypt 5 MAX_ID [7] n) =
      match NodeCrypto.load (encryptionKeyPair n) MAX_ID with Ok cc => CryptoContext.encrypt [7] cc | Throw e => Throw e end.
Proof.
  do 2 eexists. split; [reflexivity|].
  refine (proj1 (NodeCrypto.crypto_cache_transparent (Signature.KeyPair_copy (toy_key 1)) _ _ _ 5 0 MAX_ID [7] eq_refl (rtc_refl _ _) _ _)).
  - lia.
  - reflexivity.
Defined.

Lemma node_verify_swapped_witness :
  exists id n sig, NodeCrypto.NodeKeys_new (Signature.KeyPair_copy (toy_key 1)) = Ok (id, n) /\ NodeCrypto.sign [7; 8] n = Ok sig /\
    NodeCrypto.verify [7; 8] sig n = Throw Invalid_size.
Proof.
  do 3 eexists. split; [reflexivity|]. split; [reflexivity|].
  eapply (NodeCrypto.node_verify_swapped (toy_key 1)); [apply toy_key_secret|reflexivity|reflexivity|discriminate].
Defined.
