(* ===== verification/Keys.v ===== *)
(** * Keys as objects: the classes of [include/carrier/crypto_box.h] and
    [include/carrier/signature.h], and the streams of [Signature] and [SHA256]

    [Crypto] has keys as values.  Here a key, a nonce or the shared key of a box is an
    object with an array of its own: copies, moves, assignments and destructors work on
    a store of objects ([Store]).  The store also keeps what the memory of a destroyed
    object holds at its end, since the destructors are there to wipe it.

    The six classes of keys have the same operations, written out six times in the
    headers; [key_ops] is what they share, given the size of the array.  The functions
    of libsodium that work in steps, on nonces and on key pairs are the interface
    [SodiumStream]. *)

From S2P Require Import Prelude Constants Ids Values Texts Crypto.

#[local] Open Scope Z_scope.
#[local] Open Scope carrier_scope.

Record Object := MkObject { o_size : nat; o_key : list Z }.

Record Store := MkStore {
  s_objects : gmap positive Object;
  s_next : positive;
  s_released : list Object           (* the memory of destroyed objects and local arrays *)
}.

#[local] Abbreviation M := (SM Store).

(** The number that an array of bytes stands for, the last byte the highest. *)
Definition le_value (l : list Z) : Z := foldr (fun b x => b + 256 * x) 0 l.

Class SodiumStream `{SodiumBox} := {
  sign_state : Type;
  sign_init : sign_state;
  sign_update : list Z -> sign_state -> sign_state;
  sign_final_create : list Z -> sign_state -> list Z * sign_state;                 (* private key *)
  sign_final_verify : list Z -> list Z -> sign_state -> bool * sign_state;         (* signature, public key *)
  sha_state : Type;
  sha_init : sha_state;
  sha_update : list Z -> sha_state -> sha_state;
  sha_final : sha_state -> list Z * sha_state;
  sodium_increment : list Z -> list Z;
  box_easy : list Z -> list Z -> list Z -> list Z -> option (list Z);              (* public key, private key, nonce, data *)
  box_open_easy : list Z -> list Z -> list Z -> list Z -> option (list Z);
  box_seed_keypair : list Z -> list Z * list Z;                                    (* private and public key *)
  sign_update_nil s : sign_update [] s = s;
  sign_update_app a b s : sign_update (a ++ b) s = sign_update b (sign_update a s);
  sign_final_length sk s : length (fst (sign_final_create sk s)) = SIGNATURE_BYTES;
  sign_final_verifies sk s : secret_key sk -> fst (sign_final_verify (fst (sign_final_create sk s)) (sk_to_pk sk) s) = true;
  sha_update_nil s : sha_update [] s = s;
  sha_update_app a b s : sha_update (a ++ b) s = sha_update b (sha_update a s);
  sha_final_whole data : fst (sha_final (sha_update data sha_init)) = sha256 data;
  sodium_increment_value l : Forall is_byte l -> le_value (sodium_increment l) = (le_value l + 1) mod 256 ^ Z.of_nat (length l);
  sodium_increment_bytes l : Forall is_byte l -> Forall is_byte (sodium_increment l);
  sodium_increment_length l : length (sodium_increment l) = length l;
  box_easy_split pk sk n d : box_easy pk sk n d = k ← box_beforenm pk sk; box_seal k n d;
  box_open_easy_split pk sk n c : box_open_easy pk sk n c = k ← box_beforenm pk sk; box_open k n c;
  pk_to_curve25519_length pk k : pk_to_curve25519 pk = Some k -> length k = BOX_KEY_BYTES;
  sign_seed_sizes seed : length (fst (sign_seed_keypair seed)) = PRIVATE_KEY_BYTES /\ length (snd (sign_seed_keypair seed)) = ID_BYTES;
  box_seed_sizes seed : length (fst (box_seed_keypair seed)) = BOX_KEY_BYTES /\ length (snd (box_seed_keypair seed)) = BOX_KEY_BYTES
}.

(** ** Definitions: the store *)

Module Keys.

Definition zeros (n : nat) : list Z := replicate n 0.

Definition create (n : nat) (key : list Z) : M positive :=
  fun s => (Ok (s_next s), MkStore (<[s_next s := MkObject n key]> (s_objects s)) (Pos.succ (s_next s)) (s_released s)).

(** The array of a living object of the size. *)
Definition read (n : nat) (l : positive) : M (list Z) :=
  fun s => match s_objects s !! l with
           | Some o => if (o_size o =? n)%nat then (Ok (o_key o), s) else (Throw Undefined_behaviour, s)
           | None => (Throw Undefined_behaviour, s)
           end.

Definition write (n : nat) (l : positive) (key : list Z) : M unit :=
  read n l;~ (fun s => (Ok (), MkStore (<[l := MkObject n key]> (s_objects s)) (s_next s) (s_released s))).

(** The memory of an object or of a local array is given back. *)
Definition release (n : nat) (l : positive) : M unit :=
  key <~ read n l;
  (fun s => (Ok (), MkStore (delete l (s_objects s)) (s_next s) (MkObject n key :: s_released s))).
Definition leave_array (key : list Z) : M unit :=
  fun s => (Ok (), MkStore (s_objects s) (s_next s) (MkObject (length key) key :: s_released s)).

(** ** A class of keys *)

Section key.
Variable n : nat.                      (* [BYTES] *)

Definition Key_new : M positive := create n (zeros n).
Definition Key_of_blob (b : list Z) : M positive := if (length b =? n)%nat then create n b else sm_lift (Throw Invalid_size).
Definition blob (l : positive) : M (list Z) := read n l.
Definition clear (l : positive) : M unit := write n l (zeros n).

Definition Key_copy (o : positive) : M positive := b <~ blob o; Key_of_blob b.
Definition Key_move (o : positive) : M positive := l <~ Key_copy o; clear o;~ sm_ret l.
Definition assign (l o : positive) : M unit := b <~ read n o; write n l b.
Definition move_assign (l o : positive) : M unit := assign l o;~ clear o.
Definition equal (l o : positive) : M bool := a <~ read n l; b <~ read n o; sm_ret (bool_decide (a = b)).
Definition destroy (l : positive) : M unit := clear l;~ release n l.

Definition to_text `{SodiumHex} (l : positive) : M (list Z) :=
  b <~ read n l; match Hex.encode b true with Some t => sm_ret t | None => sm_lift (Throw Undefined_behaviour) end.
End key.

Record KeyOps := MkKeyOps {
  k_bytes : nat;
  k_new : M positive;
  k_of_blob : list Z -> M positive;
  k_copy : positive -> M positive;
  k_move : positive -> M positive;
  k_assign : positive -> positive -> M unit;
  k_move_assign : positive -> positive -> M unit;
  k_equal : positive -> positive -> M bool;
  k_clear : positive -> M unit;
  k_destroy : positive -> M unit;
  k_blob : positive -> M (list Z)
}.

Definition key_ops (n : nat) : KeyOps :=
  MkKeyOps n (Key_new n) (Key_of_blob n) (Key_copy n) (Key_move n) (assign n) (move_assign n) (equal n) (clear n) (destroy n) (blob n).

Definition SignPrivateKey : KeyOps := key_ops PRIVATE_KEY_BYTES.
Definition SignPublicKey : KeyOps := key_ops ID_BYTES.
Definition BoxPrivateKey : KeyOps := key_ops BOX_KEY_BYTES.
Definition BoxPublicKey : KeyOps := key_ops BOX_KEY_BYTES.
Definition BoxNonce : KeyOps := key_ops NONCE_BYTES.
(** [CryptoBox]: its bytes come from the key agreement and from copies only. *)
Definition BoxKey : KeyOps := key_ops BOX_KEY_BYTES.

(** ** Pairs of keys *)

Record Pair := MkPair { pr_sk : positive; pr_pk : positive }.

Section pair.
Variables sk pk : KeyOps.

Definition Pair_copy (o : Pair) : M Pair := s <~ k_copy sk (pr_sk o); p <~ k_copy pk (pr_pk o); sm_ret (MkPair s p).
Definition Pair_move (o : Pair) : M Pair := s <~ k_move sk (pr_sk o); p <~ k_move pk (pr_pk o); sm_ret (MkPair s p).
Definition pair_clear (o : Pair) : M unit := k_clear sk (pr_sk o);~ k_clear pk (pr_pk o).
Definition pair_assign (l o : Pair) : M unit := k_assign sk (pr_sk l) (pr_sk o);~ k_assign pk (pr_pk l) (pr_pk o).
Definition pair_move_assign (l o : Pair) : M unit := pair_assign l o;~ pair_clear o.
Definition pair_equal (l o : Pair) : M bool := k_equal sk (pr_sk l) (pr_sk o).
Definition pair_destroy (o : Pair) : M unit := k_destroy pk (pr_pk o);~ k_destroy sk (pr_sk o).

(** The members of a pair that is made, and what libsodium writes into them. *)
Definition Pair_default : M Pair := s <~ k_new sk; p <~ k_new pk; sm_ret (MkPair s p).
Definition fill (o : Pair) (keys : list Z * list Z) : M unit :=         (* private and public key *)
  write (k_bytes pk) (pr_pk o) (snd keys);~ write (k_bytes sk) (pr_sk o) (fst keys).

(** A constructor that throws in its body destroys the members it has made. *)
Definition refuse (o : Pair) : M Pair := pair_destroy o;~ sm_lift (Throw Invalid_size).

(** [KeyPair(const PrivateKey&)]; [public] is the function that takes the public key. *)
Definition Pair_of_key (public : list Z -> list Z) (o : positive) : M Pair :=
  s <~ k_copy sk o; p <~ k_new pk; b <~ k_blob sk o; write (k_bytes pk) p (public b);~ sm_ret (MkPair s p).

Definition Pair_of_blob (public : list Z -> list Z) (b : list Z) : M Pair :=
  o <~ Pair_default;
  if negb (length b =? k_bytes sk)%nat then refuse o
  else write (k_bytes sk) (pr_sk o) b;~ write (k_bytes pk) (pr_pk o) (public b);~ sm_ret o.
End pair.

Record PairOps := MkPairOps {
  p_copy : Pair -> M Pair;
  p_move : Pair -> M Pair;
  p_assign : Pair -> Pair -> M unit;
  p_move_assign : Pair -> Pair -> M unit;
  p_equal : Pair -> Pair -> M bool;
  p_clear : Pair -> M unit;
  p_destroy : Pair -> M unit
}.

Definition pair_ops (sk pk : KeyOps) : PairOps :=
  MkPairOps (Pair_copy sk pk) (Pair_move sk pk) (pair_assign sk pk) (pair_move_assign sk pk) (pair_equal sk) (pair_clear sk pk) (pair_destroy sk pk).

Definition SignKeyPair : PairOps := pair_ops SignPrivateKey SignPublicKey.
Definition BoxKeyPair : PairOps := pair_ops BoxPrivateKey BoxPublicKey.

Section sodium.
Context {sodium : Sodium} {sodiumBox : SodiumBox} {sodiumHex : SodiumHex} {sodiumStream : SodiumStream}.

(** *** [Signature::KeyPair]; [random] are the private and the public key that libsodium makes *)

Definition SignKeyPair_new (random : list Z * list Z) : M Pair :=
  o <~ Pair_default SignPrivateKey SignPublicKey; fill SignPrivateKey SignPublicKey o random;~ sm_ret o.
Definition SignKeyPair_of_key : positive -> M Pair := Pair_of_key SignPrivateKey SignPublicKey sk_to_pk.
(** [KeyPair(PrivateKey&&)]: the name [sk] in the body is the parameter, which the
    initializer has moved from. *)
Definition SignKeyPair_of_moved_key (o : positive) : M Pair :=
  s <~ k_move SignPrivateKey o; p <~ k_new SignPublicKey; b <~ k_blob SignPrivateKey o;
  write (k_bytes SignPublicKey) p (sk_to_pk b);~ sm_ret (MkPair s p).
Definition SignKeyPair_of_blob : list Z -> M Pair := Pair_of_blob SignPrivateKey SignPublicKey sk_to_pk.
Definition SignKeyPair_fromSeed (random : list Z * list Z) (seed : list Z) : M Pair :=
  if (length seed =? SEED_BYTES)%nat
  then o <~ SignKeyPair_new random; fill SignPrivateKey SignPublicKey o (sign_seed_keypair seed);~ sm_ret o
  else sm_lift (Throw Invalid_size).

(** *** [CryptoBox::KeyPair] *)

Definition BoxKeyPair_new (random : list Z * list Z) : M Pair :=
  o <~ Pair_default BoxPrivateKey BoxPublicKey; fill BoxPrivateKey BoxPublicKey o random;~ sm_ret o.
(** Both constructors from a private key copy it. *)
Definition BoxKeyPair_of_key : positive -> M Pair := Pair_of_key BoxPrivateKey BoxPublicKey scalarmult_base.
Definition BoxKeyPair_of_blob : list Z -> M Pair := Pair_of_blob BoxPrivateKey BoxPublicKey scalarmult_base.
Definition BoxKeyPair_fromSeed (random : list Z * list Z) (seed : list Z) : M Pair :=
  if (length seed =? SEED_BYTES)%nat
  then o <~ BoxKeyPair_new random; fill BoxPrivateKey BoxPublicKey o (box_seed_keypair seed);~ sm_ret o
  else sm_lift (Throw Invalid_size).

(** [fromSignatureKeyPair]: the private key goes through a local array. *)
Definition BoxKeyPair_fromSignatureKeyPair (kp : Pair) : M Pair :=
  sk <~ k_blob SignPrivateKey (pr_sk kp);
  let x25519 := sk_to_curve25519 sk in
  o <~ BoxKeyPair_of_blob x25519;
  leave_array x25519;~ sm_ret o.

(** *** Keys of boxes and nonces *)

Definition BoxPrivateKey_fromSignatureKey (signSk : positive) : M positive :=
  sk <~ k_new BoxPrivateKey; b <~ k_blob SignPrivateKey signSk; write (k_bytes BoxPrivateKey) sk (sk_to_curve25519 b);~ sm_ret sk.
Definition BoxPublicKey_fromSignatureKey (signPk : positive) : M positive :=
  pk <~ k_new BoxPublicKey; b <~ k_blob SignPublicKey signPk;
  match pk_to_curve25519 b with
  | Some k => write (k_bytes BoxPublicKey) pk k;~ sm_ret pk
  | None => k_destroy BoxPublicKey pk;~ sm_lift (Throw Crypto_error)
  end.
Definition increment (l : positive) : M unit := b <~ k_blob BoxNonce l; write (k_bytes BoxNonce) l (sodium_increment b).
Definition Nonce_random (random : list Z) : M positive :=
  l <~ k_new BoxNonce; write (k_bytes BoxNonce) l random;~ sm_ret l.
End sodium.

(** ** Signatures and hashes in steps

    The object is the state of libsodium.  [sign] and [verify] are [const] members, but
    what they call ends the state. *)

Section stream.
Context {sodium : Sodium} {sodiumBox : SodiumBox} {sodiumStream : SodiumStream}.

Definition Signature_reset : SM sign_state unit := fun _ => (Ok (), sign_init).
Definition Signature_update (part : list Z) : SM sign_state unit := sm_modify (sign_update part).
Definition Signature_sign_into (size : nat) (sk : list Z) : SM sign_state (list Z) :=
  if (size =? SIGNATURE_BYTES)%nat then fun s => let '(sig, s) := sign_final_create sk s in (Ok sig, s)
  else sm_lift (Throw Invalid_size).
Definition Signature_sign (sk : list Z) : SM sign_state (list Z) := Signature_sign_into SIGNATURE_BYTES sk.
Definition Signature_verify (sig pk : list Z) : SM sign_state bool :=
  if (length sig =? SIGNATURE_BYTES)%nat then fun s => let '(b, s) := sign_final_verify sig pk s in (Ok b, s)
  else sm_lift (Throw Invalid_size).

Definition SHA256_reset : SM sha_state unit := fun _ => (Ok (), sha_init).
Definition SHA256_update (part : list Z) : SM sha_state unit := sm_modify (sha_update part).
Definition SHA256_digest_into (size : nat) : SM sha_state (list Z) :=
  if (size =? ID_BYTES)%nat then fun s => let '(h, s) := sha_final s in (Ok h, s) else sm_lift (Throw Invalid_size).
Definition SHA256_digest : SM sha_state (list Z) := SHA256_digest_into ID_BYTES.
Definition SHA256_digest_of (size : nat) (data : list Z) : result (list Z) :=
  if (size =? ID_BYTES)%nat then Ok (sha256 data) else Throw Invalid_size.

(** A list of parts, one after the other. *)
Fixpoint each {S} (f : list Z -> SM S unit) (parts : list (list Z)) : SM S unit :=
  match parts with [] => sm_ret () | p :: parts => f p;~ each f parts end.

(** ** Boxes with both keys given for each use *)

Definition encrypt_into_with (size : nat) (plain nonce pk sk : list Z) : result (list Z) :=
  if (size <? length plain + MAC_BYTES)%nat then Throw Buffer_too_small
  else match box_easy pk sk nonce plain with Some c => Ok c | None => Throw Crypto_error end.
Definition encrypt_with (plain nonce pk sk : list Z) : result (list Z) := encrypt_into_with (length plain + MAC_BYTES) plain nonce pk sk.

Definition decrypt_into_with (size : Z) (cipher nonce pk sk : list Z) : result (list Z) :=
  if size <? u64 (Z.of_nat (length cipher) - Z.of_nat MAC_BYTES) then Throw Buffer_too_small
  else match box_open_easy pk sk nonce cipher with Some d => Ok d | None => Throw Crypto_error end.
Definition decrypt_with (cipher nonce pk sk : list Z) : result (list Z) :=
  let size := u64 (Z.of_nat (length cipher) - Z.of_nat MAC_BYTES) in
  if 2 ^ 63 <=? size then Throw Length_error else decrypt_into_with size cipher nonce pk sk.
End stream.

(** ** Specifications *)

(** The arrays of living objects have the size of their class, and the memory that was
    given back is wiped. *)
Record store_ok (s : Store) : Prop := {
  so_sizes l o : s_objects s !! l = Some o -> length (o_key o) = o_size o;
  so_fresh l : is_Some (s_objects s !! l) -> (l < s_next s)%positive;
  so_wiped : Forall (fun o => o_key o = zeros (o_size o)) (s_released s)
}.

Definition classes : list KeyOps := [SignPrivateKey; SignPublicKey; BoxPrivateKey; BoxPublicKey; BoxNonce; BoxKey].
Definition pair_classes : list (KeyOps * KeyOps) := [(SignPrivateKey, SignPublicKey); (BoxPrivateKey, BoxPublicKey)].

Section specification.
Context {sodium : Sodium} {sodiumBox : SodiumBox} {sodiumStream : SodiumStream}.

(** Keys of the sizes of a pair. *)
Definition pair_sized (sk pk : nat) (keys : list Z * list Z) : Prop := length (fst keys) = sk /\ length (snd keys) = pk.

(** The operations of the program on keys; the conversion of a whole pair is looked at
    below. *)
Inductive key_op : forall A, M A -> Prop :=
  | op_new k : k ∈ classes -> key_op _ (k_new k)
  | op_of_blob k b : k ∈ classes -> key_op _ (k_of_blob k b)
  | op_copy k o : k ∈ classes -> key_op _ (k_copy k o)
  | op_move k o : k ∈ classes -> key_op _ (k_move k o)
  | op_assign k l o : k ∈ classes -> key_op _ (k_assign k l o)
  | op_move_assign k l o : k ∈ classes -> key_op _ (k_move_assign k l o)
  | op_clear k o : k ∈ classes -> key_op _ (k_clear k o)
  | op_destroy k o : k ∈ classes -> key_op _ (k_destroy k o)
  | op_pair_copy c o : c ∈ pair_classes -> key_op _ (p_copy (pair_ops c.1 c.2) o)
  | op_pair_move c o : c ∈ pair_classes -> key_op _ (p_move (pair_ops c.1 c.2) o)
  | op_pair_assign c l o : c ∈ pair_classes -> key_op _ (p_assign (pair_ops c.1 c.2) l o)
  | op_pair_move_assign c l o : c ∈ pair_classes -> key_op _ (p_move_assign (pair_ops c.1 c.2) l o)
  | op_pair_clear c o : c ∈ pair_classes -> key_op _ (p_clear (pair_ops c.1 c.2) o)
  | op_pair_destroy c o : c ∈ pair_classes -> key_op _ (p_destroy (pair_ops c.1 c.2) o)
  | op_sign_new r : pair_sized PRIVATE_KEY_BYTES ID_BYTES r -> key_op _ (SignKeyPair_new r)
  | op_sign_key o : key_op _ (SignKeyPair_of_key o)
  | op_sign_moved o : key_op _ (SignKeyPair_of_moved_key o)
  | op_sign_blob b : key_op _ (SignKeyPair_of_blob b)
  | op_sign_seed r b : pair_sized PRIVATE_KEY_BYTES ID_BYTES r -> key_op _ (SignKeyPair_fromSeed r b)
  | op_box_new r : pair_sized BOX_KEY_BYTES BOX_KEY_BYTES r -> key_op _ (BoxKeyPair_new r)
  | op_box_key o : key_op _ (BoxKeyPair_of_key o)
  | op_box_blob b : key_op _ (BoxKeyPair_of_blob b)
  | op_box_seed r b : pair_sized BOX_KEY_BYTES BOX_KEY_BYTES r -> key_op _ (BoxKeyPair_fromSeed r b)
  | op_private_key o : key_op _ (BoxPrivateKey_fromSignatureKey o)
  | op_public_key o : key_op _ (BoxPublicKey_fromSignatureKey o)
  | op_increment l : key_op _ (increment l)
  | op_random r : length r = NONCE_BYTES -> key_op _ (Nonce_random r).

Inductive reachable : Store -> Prop :=
  | reach_empty : reachable (MkStore ∅ 1 [])
  | reach_op A (m : M A) s : reachable s -> key_op A m -> reachable (snd (m s)).

(** ** Lemmas *)

(** An operation that keeps the store in order, also when it throws. *)
Definition keeps {A} (m : M A) : Prop := forall s, store_ok s -> store_ok (snd (m s)).

Lemma keeps_store_bind {A B} (m : M A) (f : A -> M B) : keeps m -> (forall a, keeps (f a)) -> keeps (sm_bind m f).
Proof. intros Hm Hf s Hs. unfold sm_bind. specialize (Hm s Hs). destruct (m s) as [[a|e] s1]; [by apply Hf|done]. Qed.

Lemma keeps_store_ret {A} (a : A) : keeps (sm_ret a).
Proof. by intros s. Qed.

Lemma keeps_store_lift {A} (r : result A) : keeps (sm_lift r).
Proof. by intros s. Qed.

(** What is read has the size of the class. *)
Lemma keeps_read {B} n l (f : list Z -> M B) : (forall b, length b = n -> keeps (f b)) -> keeps (b <~ read n l; f b).
Proof.
  intros H s Hs. unfold sm_bind, read. destruct (s_objects s !! l) as [o|] eqn:E; [|done].
  destruct (Nat.eqb_spec (o_size o) n) as [<-|]; [|done]. apply H; [by eapply so_sizes|done].
Qed.

Lemma keeps_create n key : length key = n -> keeps (create n key).
Proof.
  intros Hn s [H1 H2 H3]. split; simpl; [| |done].
  - intros l o. rewrite lookup_insert_Some. intros [[_ <-]|[_ ?]]; [done|by eapply H1].
  - intros l. destruct (decide (l = s_next s)) as [->|]; [lia|]. rewrite lookup_insert_ne by done. intros ?%H2. lia.
Qed.

Lemma keeps_write n l key : length key = n -> keeps (write n l key).
Proof.
  intros Hn s [H1 H2 H3]. unfold write, sm_bind, read. destruct (s_objects s !! l) as [o|] eqn:E; [|done].
  destruct (Nat.eqb_spec (o_size o) n) as [<-|]; [|done]. split; simpl; [| |done].
  - intros l' o'. rewrite lookup_insert_Some. intros [[_ <-]|[_ ?]]; [done|by eapply H1].
  - intros l'. destruct (decide (l' = l)) as [->|]; [intros _; apply H2; by eexists|]. by rewrite lookup_insert_ne; [apply H2|].
Qed.

Lemma zeros_length n : length (zeros n) = n.
Proof. apply length_replicate. Qed.

Lemma keeps_destroy n l : keeps (destroy n l).
Proof.
  intros s Hs. pose proof (keeps_write n l (zeros n) (zeros_length n) s Hs) as [H1 H2 H3].
  unfold destroy, clear, release, write, sm_bind, read in *. destruct (s_objects s !! l) as [o|] eqn:E; [|done].
  destruct (o_size o =? n)%nat; [|done]. simpl in *. rewrite lookup_insert_eq. simpl. rewrite Nat.eqb_refl. simpl.
  split; simpl; [| |by constructor].
  - intros l' o' [_ ?]%lookup_delete_Some. by eapply H1.
  - intros l' [o' [_ ?]%lookup_delete_Some]. apply H2. by eexists.
Qed.
End specification.

(** A chain of operations keeps the store in order when each of them does. *)
Ltac keeps_step :=
  lazymatch goal with
  | |- keeps (sm_bind (read _ _) _) => apply keeps_read; intros
  | |- keeps (sm_bind _ _) => apply keeps_store_bind; [|intros]
  | |- keeps (sm_ret _) => apply keeps_store_ret
  | |- keeps (sm_lift _) => apply keeps_store_lift
  | |- keeps (create _ _) => apply keeps_create
  | |- keeps (write _ _ _) => apply keeps_write
  | |- keeps (destroy _ _) => apply keeps_destroy
  | |- keeps (if (?a =? ?b)%nat then _ else _) => destruct (Nat.eqb_spec a b)
  | |- keeps (if negb (?a =? ?b)%nat then _ else _) => destruct (Nat.eqb_spec a b); simpl
  | |- keeps (match ?o with Some _ => _ | None => _ end) => destruct o eqn:?
  end.
Ltac keeps_chain := repeat keeps_step; try done.

Section theorems.
Context {sodium : Sodium} {sodiumBox : SodiumBox} {sodiumStream : SodiumStream}.

#[local] Hint Resolve zeros_length : core.

Lemma keeps_key n :
  keeps (Key_new n) /\ (forall b, keeps (Key_of_blob n b)) /\ (forall o, keeps (Key_copy n o)) /\ (forall o, keeps (Key_move n o))
  /\ (forall l o, keeps (assign n l o)) /\ (forall l o, keeps (move_assign n l o)) /\ (forall l, keeps (clear n l)).
Proof.
  unfold Key_new, Key_move, Key_copy, blob, Key_of_blob, move_assign, assign, clear. split_and!; intros; keeps_chain.
Qed.

Lemma class_is_key_ops k : k ∈ classes -> exists n, k = key_ops n.
Proof. unfold classes. intros H. set_unfold in H. destruct_or! H; subst; by eexists. Qed.

Lemma keeps_class k : k ∈ classes ->
  keeps (k_new k) /\ (forall b, keeps (k_of_blob k b)) /\ (forall o, keeps (k_copy k o)) /\ (forall o, keeps (k_move k o))
  /\ (forall l o, keeps (k_assign k l o)) /\ (forall l o, keeps (k_move_assign k l o)) /\ (forall l, keeps (k_clear k l))
  /\ (forall l, keeps (k_destroy k l)).
Proof.
  intros [n ->]%class_is_key_ops. simpl. destruct (keeps_key n) as (? & ? & ? & ? & ? & ? & ?).
  repeat (split; [done|]). apply keeps_destroy.
Qed.

Lemma keeps_pair c : c ∈ pair_classes ->
  (forall o, keeps (Pair_copy c.1 c.2 o)) /\ (forall o, keeps (Pair_move c.1 c.2 o)) /\ (forall l o, keeps (pair_assign c.1 c.2 l o))
  /\ (forall l o, keeps (pair_move_assign c.1 c.2 l o)) /\ (forall l, keeps (pair_clear c.1 c.2 l)) /\ (forall l, keeps (pair_destroy c.1 c.2 l)).
Proof.
  intros Hc. assert (c.1 ∈ classes /\ c.2 ∈ classes) as [H1%keeps_class H2%keeps_class]
    by (unfold pair_classes in Hc; set_unfold in Hc; destruct_or! Hc; subst; simpl; unfold classes; set_solver).
  destruct H1 as (? & ? & ? & ? & ? & ? & ? & ?), H2 as (? & ? & ? & ? & ? & ? & ? & ?).
  unfold Pair_copy, Pair_move, pair_move_assign, pair_assign, pair_clear, pair_destroy. split_and!; intros; keeps_chain.
Qed.

Lemma keeps_key_op A (m : M A) : key_op A m -> keeps m.
Proof.
  intros []; try (by apply keeps_class); try (by apply keeps_pair).
  all: unfold SignKeyPair_new, SignKeyPair_of_key, SignKeyPair_of_moved_key, SignKeyPair_of_blob, SignKeyPair_fromSeed, BoxKeyPair_new,
    BoxKeyPair_of_key, BoxKeyPair_of_blob, BoxKeyPair_fromSeed, BoxPrivateKey_fromSignatureKey, BoxPublicKey_fromSignatureKey, increment,
    Nonce_random, Pair_of_key, Pair_of_blob, Pair_default, fill, refuse, pair_destroy, SignKeyPair_new, BoxKeyPair_new, Pair_default, fill; simpl;
    unfold Key_new, Key_move, Key_copy, blob, Key_of_blob, clear; keeps_chain.
  all: first [match goal with H : pair_sized _ _ _ |- _ => apply H end|apply sign_seed_sizes|apply box_seed_sizes|apply sk_to_pk_length
    |apply scalarmult_base_length|apply sk_to_curve25519_length|by eapply pk_to_curve25519_length|by rewrite sodium_increment_length].
Qed.

(** ** Theorems *)

(** C19: Whatever the program does with its keys (making, copying, moving, assigning,
    clearing and destroying keys, nonces and pairs, also when an operation throws), the
    memory of every destroyed key holds zeros only, every living key has the size of its
    class, and moving a key leaves its bytes in one place: the new object. *)
Theorem keys_wiped s :
  reachable s ->
  Forall (fun o => o_key o = zeros (o_size o)) (s_released s) /\
  (forall l o, s_objects s !! l = Some o -> length (o_key o) = o_size o) /\
  (forall k l b, k ∈ classes -> s_objects s !! l = Some (MkObject (k_bytes k) b) ->
     exists s', k_move k l s = (Ok (s_next s), s') /\
       s_objects s' !! s_next s = Some (MkObject (k_bytes k) b) /\
       s_objects s' !! l = Some (MkObject (k_bytes k) (zeros (k_bytes k))) /\
       (forall l', l' <> l -> l' <> s_next s -> s_objects s' !! l' = s_objects s !! l')).
Proof.
  intros Hr. assert (store_ok s) as Hs.
  { induction Hr as [|A m s Hr IH Hm]; [split; [done|by intros l [? ?]|done]|by eapply keeps_key_op]. }
  split_and!; [apply Hs|apply Hs|]. intros k l b [n ->]%class_is_key_ops Hl. simpl in *.
  pose proof (so_sizes s Hs _ _ Hl) as Hb. simpl in Hb. pose proof (so_fresh s Hs l ltac:(by eexists)).
  eexists. unfold Key_move, Key_copy, blob, clear, write, Key_of_blob, create, sm_bind, sm_ret, read. rewrite Hl. simpl.
  rewrite Nat.eqb_refl, Hb, Nat.eqb_refl. simpl. rewrite lookup_insert_ne by lia. rewrite Hl. simpl. rewrite Nat.eqb_refl.
  split; [reflexivity|]. simpl. split_and!.
  - by rewrite lookup_insert_ne, lookup_insert_eq by lia.
  - by rewrite lookup_insert_eq.
  - intros l' ??. by rewrite !lookup_insert_ne.
Qed.

(** The exception is the conversion of a pair of keys: it leaves the private key it makes
    in the memory of its local array. *)
Theorem conversion_leaves_key s kp sk o s' :
  store_ok s ->
  s_objects s !! pr_sk kp = Some (MkObject PRIVATE_KEY_BYTES sk) ->
  BoxKeyPair_fromSignatureKeyPair kp s = (Ok o, s') ->
  s_released s' = MkObject BOX_KEY_BYTES (sk_to_curve25519 sk) :: s_released s.
Proof.
  intros Hs Hl. unfold BoxKeyPair_fromSignatureKeyPair, BoxKeyPair_of_blob, Pair_of_blob, Pair_default, sm_bind, leave_array, sm_ret. simpl.
  unfold blob, read. rewrite Hl. simpl. rewrite sk_to_curve25519_length. simpl.
  unfold Key_new, create, write, sm_bind, read. simpl. rewrite lookup_insert_ne by lia. rewrite lookup_insert_eq. simpl.
  rewrite lookup_insert_ne by lia. rewrite lookup_insert_eq. simpl. by intros [= <- <-].
Qed.

(** *** Streams *)

Lemma each_update {S} (f : list Z -> S -> S) (Hnil : forall s, f [] s = s) (Happ : forall a b s, f (a ++ b) s = f b (f a s)) parts s :
  each (fun p => sm_modify (f p)) parts s = (Ok (), f (concat parts) s).
Proof.
  revert s. induction parts as [|p parts IH]; intros s; simpl; [by rewrite Hnil|].
  unfold sm_bind. simpl. by rewrite IH, Happ.
Qed.

(** A signature made in steps is accepted for the same bytes however they are cut
    into parts, and so is a hash: it is the hash of all the bytes.  Other sizes of the
    buffers are refused and leave the state alone. *)
Theorem stream_parts_irrelevant parts parts' sk st st' :
  secret_key sk -> concat parts = concat parts' ->
  (exists sig st1, (Signature_reset;~ each Signature_update parts;~ Signature_sign sk) st = (Ok sig, st1) /\ length sig = SIGNATURE_BYTES /\
     fst ((Signature_reset;~ each Signature_update parts';~ Signature_verify sig (sk_to_pk sk)) st') = Ok true) /\
  (forall h, fst ((SHA256_reset;~ each SHA256_update parts;~ SHA256_digest) h) = SHA256_digest_of ID_BYTES (concat parts')) /\
  (forall size, size <> SIGNATURE_BYTES -> Signature_sign_into size sk st = (Throw Invalid_size, st)).
Proof.
  intros Hk Hp. split_and!.
  - unfold sm_bind, Signature_reset, Signature_sign, Signature_sign_into, Signature_verify, Signature_update. simpl.
    rewrite !each_update by (apply sign_update_nil || apply sign_update_app). rewrite <-Hp.
    set (s := sign_update (concat parts) sign_init). destruct (sign_final_create sk s) as [sig st1] eqn:E.
    pose proof (sign_final_length sk s) as Hl. pose proof (sign_final_verifies sk s Hk) as Hv. rewrite E in Hl, Hv. simpl in Hl, Hv.
    exists sig, st1. split; [done|]. split; [done|]. rewrite Hl. simpl. by destruct (sign_final_verify sig (sk_to_pk sk) s); simpl in *; subst.
  - intros h. unfold sm_bind, SHA256_reset, SHA256_digest, SHA256_digest_into, SHA256_update, SHA256_digest_of. simpl.
    rewrite each_update by (apply sha_update_nil || apply sha_update_app). rewrite Hp.
    pose proof (sha_final_whole (concat parts')) as H. by destruct (sha_final _); simpl in *; subst.
  - intros size Hs. unfold Signature_sign_into. by rewrite (proj2 (Nat.eqb_neq _ _)).
Qed.

(** *** Nonces *)

(** A nonce that is incremented a number of times. *)
Fixpoint increments (i : nat) (l : positive) : M unit := match i with O => sm_ret () | S i => increments i l;~ increment l end.

Lemma increments_value s l b i : Forall is_byte b -> length b = NONCE_BYTES -> s_objects s !! l = Some (MkObject NONCE_BYTES b) ->
  exists s' b', increments i l s = (Ok (), s') /\ s_objects s' !! l = Some (MkObject NONCE_BYTES b') /\ Forall is_byte b' /\
    length b' = NONCE_BYTES /\ le_value b' mod 2 ^ 192 = (le_value b + Z.of_nat i) mod 2 ^ 192.
Proof.
  intros Hb Hn Hl. induction i as [|i (s1 & b1 & E & Hl1 & Hb1 & Hn1 & Hv)]; [eexists _, _; split_and!; try done; by rewrite Z.add_0_r|].
  simpl. unfold sm_bind at 1. rewrite E. unfold increment, sm_bind. simpl. unfold blob, write, sm_bind, read. rewrite Hl1. simpl. rewrite Hl1. simpl.
  eexists _, _. split; [reflexivity|]. simpl. split; [by rewrite lookup_insert_eq|]. split_and!.
  - by apply sodium_increment_bytes.
  - by rewrite sodium_increment_length.
  - rewrite sodium_increment_value, Hn1 by done. change (256 ^ Z.of_nat NONCE_BYTES) with (2 ^ 192).
    rewrite Z.mod_mod by lia. rewrite <-Zplus_mod_idemp_l, Hv, Zplus_mod_idemp_l. f_equal. lia.
Qed.

(** Incrementing a nonce again and again gives no nonce twice in 2^192 steps. *)
Theorem nonces_distinct s l b i j :
  Forall is_byte b -> length b = NONCE_BYTES -> s_objects s !! l = Some (MkObject NONCE_BYTES b) ->
  Z.of_nat i < 2 ^ 192 -> Z.of_nat j < 2 ^ 192 -> i <> j ->
  exists bi bj, fst ((increments i l;~ k_blob BoxNonce l) s) = Ok bi /\ fst ((increments j l;~ k_blob BoxNonce l) s) = Ok bj /\ bi <> bj.
Proof.
  intros Hb Hn Hl Hi Hj Hij.
  destruct (increments_value s l b i Hb Hn Hl) as (si & bi & Ei & Li & _ & _ & Vi), (increments_value s l b j Hb Hn Hl) as (sj & bj & Ej & Lj & _ & _ & Vj).
  exists bi, bj. unfold sm_bind. rewrite Ei, Ej. simpl. unfold blob, read. rewrite Li, Lj. simpl. split; [done|]. split; [done|]. intros ->.
  rewrite Vi in Vj. assert ((Z.of_nat i - Z.of_nat j) mod 2 ^ 192 = 0) as H0.
  { replace (Z.of_nat i - Z.of_nat j) with ((le_value b + Z.of_nat i) - (le_value b + Z.of_nat j)) by lia.
    rewrite Zminus_mod, Vj. by rewrite Z.sub_diag. }
  apply Z.mod_divide in H0 as [q Hq]; [|lia]. assert (q = 0) by nia. lia.
Qed.

(** *** Boxes *)

(** Encrypting and decrypting with both keys given is the same as with a box made of
    them, and what one side encrypts the other decrypts. *)
Theorem static_boxes sk1 sk2 key plain nonce :
  CryptoBox.CryptoBox_new (scalarmult_base sk2) sk1 = Ok key ->
  encrypt_with plain nonce (scalarmult_base sk2) sk1 = CryptoBox.encrypt plain nonce key /\
  (forall cipher, decrypt_with cipher nonce (scalarmult_base sk2) sk1 = CryptoBox.decrypt cipher nonce key) /\
  (forall cipher, Z.of_nat (length plain) < 2 ^ 62 -> encrypt_with plain nonce (scalarmult_base sk2) sk1 = Ok cipher ->
     decrypt_with cipher nonce (scalarmult_base sk1) sk2 = Ok plain).
Proof.
  unfold CryptoBox.CryptoBox_new. destruct (box_beforenm (scalarmult_base sk2) sk1) as [k|] eqn:Ek; [|done]. intros [= <-].
  assert (forall cipher, decrypt_with cipher nonce (scalarmult_base sk2) sk1 = CryptoBox.decrypt cipher nonce k) as Hd.
  { intros cipher. unfold decrypt_with, decrypt_into_with, CryptoBox.decrypt, CryptoBox.decrypt_into. by rewrite box_open_easy_split, Ek. }
  split_and!; [|done|].
  - unfold encrypt_with, encrypt_into_with, CryptoBox.encrypt, CryptoBox.encrypt_into. by rewrite box_easy_split, Ek.
  - intros cipher Hlen. unfold encrypt_with, encrypt_into_with. rewrite Nat.ltb_irrefl, box_easy_split, Ek. simpl.
    destruct (box_seal k nonce plain) as [c|] eqn:Ec; [|done]. intros [= <-].
    pose proof (box_seal_length _ _ _ _ Ec) as Hc. unfold decrypt_with, decrypt_into_with. rewrite Hc.
    replace (Z.of_nat (length plain + MAC_BYTES) - Z.of_nat MAC_BYTES) with (Z.of_nat (length plain)) by lia.
    rewrite wrap_small by lia. rewrite (proj2 (Z.leb_gt _ _)) by lia. rewrite Z.ltb_irrefl.
    rewrite box_open_easy_split, beforenm_symmetric, Ek. simpl. by rewrite (box_open_seal _ _ _ _ Ec).
Qed.
End theorems.
End Keys.

(** ** Witnesses *)

Section examples.
#[local] Existing Instance toy_sodium.
#[local] Existing Instance toy_box.

Fixpoint inc (l : list Z) : list Z := match l with [] => [] | b :: l => if b =? 255 then 0 :: inc l else b + 1 :: l end.

Lemma inc_length l : length (inc l) = length l.
Proof. induction l as [|b l IH]; [done|]. simpl. destruct (b =? 255); simpl; by rewrite ?IH. Qed.

Lemma le_value_range l : Forall is_byte l -> 0 <= le_value l < 256 ^ Z.of_nat (length l).
Proof.
  induction 1 as [|b l Hb H IH]; [done|]. cbn [le_value foldr length]. fold (le_value l). rewrite Nat2Z.inj_succ, Z.pow_succ_r by lia.
  unfold is_byte in Hb. lia.
Qed.

Lemma inc_bytes l : Forall is_byte l -> Forall is_byte (inc l).
Proof.
  induction 1 as [|b l Hb H IH]; [by constructor|]. simpl. destruct (Z.eqb_spec b 255); constructor; try done; unfold is_byte in *; lia.
Qed.

Lemma inc_value l : Forall is_byte l -> le_value (inc l) = (le_value l + 1) mod 256 ^ Z.of_nat (length l).
Proof.
  induction 1 as [|b l Hb H IH]; [done|]. pose proof (le_value_range l H) as Hl. simpl inc. cbn [length]. rewrite Nat2Z.inj_succ, Z.pow_succ_r by lia.
  destruct (Z.eqb_spec b 255) as [->|].
  - cbn [le_value foldr]. fold (le_value (inc l)) (le_value l). rewrite IH.
    replace (255 + 256 * le_value l + 1) with (256 * (le_value l + 1)) by lia. by rewrite Zmult_mod_distr_l.
  - cbn [le_value foldr]. fold (le_value l). unfold is_byte in Hb. rewrite Z.mod_small by lia. lia.
Qed.

#[local, refine] Instance toy_stream : @SodiumStream toy_sodium toy_box := {
  sign_state := list Z;
  sign_init := [];
  sign_update p s := s ++ p;
  sign_final_create sk s := (crypto_sign s sk, []);
  sign_final_verify sig pk s := (crypto_verify sig s pk, []);
  sha_state := list Z;
  sha_init := [];
  sha_update p s := s ++ p;
  sha_final s := (sha256 s, []);
  sodium_increment := inc;
  box_easy pk sk n d := k ← box_beforenm pk sk; box_seal k n d;
  box_open_easy pk sk n c := k ← box_beforenm pk sk; box_open k n c;
  box_seed_keypair seed := (norm_bytes seed, norm_bytes seed)
}.
Proof.
  - apply app_nil_r.
  - intros. apply app_assoc.
  - intros. apply crypto_sign_length.
  - intros. by apply verify_signed.
  - apply app_nil_r.
  - intros. apply app_assoc.
  - done.
  - apply inc_value.
  - apply inc_bytes.
  - apply inc_length.
  - done.
  - done.
  - intros pk k [= <-]. apply length_resize.
  - intros seed. cbn. split; [rewrite length_app|]; by rewrite !length_resize.
  - intros seed. cbn. by rewrite length_resize.
Defined.

(** A private key that is made of bytes, moved, and both objects destroyed. *)
Definition store1 : Store := snd (Keys.k_of_blob Keys.SignPrivateKey (replicate 64 7) (MkStore ∅ 1 [])).
Definition store2 : Store := snd (Keys.k_move Keys.SignPrivateKey 1 store1).
Definition store3 : Store := snd (Keys.k_destroy Keys.SignPrivateKey 1 (snd (Keys.k_destroy Keys.SignPrivateKey 2 store2))).

Lemma keys_wiped_witness : Keys.reachable store3 /\ length (s_released store3) = 2%nat /\ Forall (fun o => o_key o = Keys.zeros (o_size o)) (s_released store3).
Proof.
  assert (Keys.reachable store3) as Hr.
  { assert (Keys.SignPrivateKey ∈ Keys.classes) as Hc by (unfold Keys.classes; set_solver).
    do 4 (eapply Keys.reach_op; [|by constructor]). constructor. }
  split; [exact Hr|]. split; [vm_compute; reflexivity|]. exact (proj1 (Keys.keys_wiped store3 Hr)).
Defined.

Lemma store1_ok : Keys.store_ok store1.
Proof. apply (Keys.keeps_class Keys.SignPrivateKey); [unfold Keys.classes; set_solver|]. split; [done|by intros l [? ?]|done]. Qed.

Lemma conversion_leaves_key_witness :
  exists o s', Keys.BoxKeyPair_fromSignatureKeyPair (Keys.MkPair 1 2) store1 = (Ok o, s') /\
    s_released s' = [MkObject BOX_KEY_BYTES (norm_bytes (replicate 64 7))].
Proof.
  do 2 eexists. split; [vm_compute; reflexivity|].
  refine (Keys.conversion_leaves_key store1 (Keys.MkPair 1 2) (replicate 64 7) _ _ store1_ok _ _); vm_compute; reflexivity.
Defined.

Lemma stream_parts_irrelevant_witness :
  exists sig st1, (Keys.Signature_reset;~ Keys.each Keys.Signature_update [[1; 2]; [3]];~ Keys.Signature_sign (toy_key 5)) sign_init = (Ok sig, st1) /\
    fst ((Keys.Signature_reset;~ Keys.each Keys.Signature_update [[]; [1]; [2; 3]];~ Keys.Signature_verify sig (sk_to_pk (toy_key 5))) sign_init) = Ok true.
Proof.
  destruct (proj1 (Keys.stream_parts_irrelevant [[1; 2]; [3]] [[]; [1]; [2; 3]] (toy_key 5) sign_init sign_init (toy_key_secret 5) eq_refl)) as (sig & st1 & E & _ & H).
  exists sig, st1. split; [exact E|exact H].
Defined.

Lemma nonces_distinct_witness :
  exists b1 b2, fst ((Keys.increments 1 1;~ Keys.k_blob Keys.BoxNonce 1%positive) (snd (Keys.k_new Keys.BoxNonce (MkStore ∅ 1 [])))) = Ok b1 /\
    fst ((Keys.increments 300 1;~ Keys.k_blob Keys.BoxNonce 1%positive) (snd (Keys.k_new Keys.BoxNonce (MkStore ∅ 1 [])))) = Ok b2 /\ b1 <> b2.
Proof.
  refine (Keys.nonces_distinct _ 1%positive (replicate 24 0) 1 300 _ eq_refl _ _ _ _).
  - repeat constructor; unfold is_byte; lia.
  - vm_compute; reflexivity.
  - lia.
  - lia.
  - lia.
Defined.

Lemma static_boxes_witness :
  exists cipher, Keys.encrypt_with [7; 8] [1] (scalarmult_base [2]) [3] = Ok cipher /\
    Keys.decrypt_with cipher [1] (scalarmult_base [3]) [2] = Ok [7; 8].
Proof.
  eexists. split; [vm_compute; reflexivity|].
  refine (proj2 (proj2 (Keys.static_boxes [3] [2] _ [7; 8] [1] _)) _ _ _); [vm_compute; reflexivity|simpl; lia|vm_compute; reflexivity].
Defined.
End examples.
