(* ===== verification/PacketTypes.v ===== *)
(** * The packets of the active proxy: [PacketType] and [ConnectionState] of
    [src/addons/activeproxy/packettype.h] and [connection.h]

    A packet type is sent as a byte chosen at random from the range of the type,
    with the highest bit set for an acknowledgement; [valueOf] reads the type back.
    The random number is an argument: the result of [randombytes_uniform]. *)

From S2P Require Import Prelude.

Definition ACK_MASK : Z := 128.
Definition TYPE_MASK : Z := 127.

Module PacketType.

Inductive PacketType :=
  | AUTH | AUTH_ACK | ATTACH | ATTACH_ACK | PING | PING_ACK | CONNECT | CONNECT_ACK
  | DISCONNECT | DISCONNECT_ACK | DATA | ERROR.

#[export] Instance PacketType_eq_dec : EqDecision PacketType.
Proof. solve_decision. Defined.

(** The constants [AUTH_MIN], [AUTH_MAX] and so on. *)
Definition type_min (t : PacketType) : Z :=
  match t with
  | AUTH | AUTH_ACK => 0x00 | ATTACH | ATTACH_ACK => 0x08 | PING | PING_ACK => 0x10 | CONNECT | CONNECT_ACK => 0x20
  | DISCONNECT | DISCONNECT_ACK => 0x30 | DATA => 0x40 | ERROR => 0x70
  end.
Definition type_max (t : PacketType) : Z :=
  match t with
  | AUTH | AUTH_ACK => 0x07 | ATTACH | ATTACH_ACK => 0x0F | PING | PING_ACK => 0x1F | CONNECT | CONNECT_ACK => 0x2F
  | DISCONNECT | DISCONNECT_ACK => 0x3F | DATA => 0x6F | ERROR => 0x7F
  end.

(** The value of the enumerator, and [isAck]. *)
Definition enum (t : PacketType) : Z :=
  match t with
  | AUTH | ATTACH | PING | CONNECT | DISCONNECT | DATA | ERROR => type_min t
  | _ => Z.lor ACK_MASK (type_min t)
  end.
Definition isAck (t : PacketType) : bool := negb (Z.land (enum t) ACK_MASK =? 0).

(** [random(min, max)]: the argument of [Random::uint8], and what is made of its result [r]. *)
Definition random_bound (t : PacketType) : Z := u8 (type_max t - type_min t + 1).
Definition random (t : PacketType) (r : Z) : Z := u8 (u8 r + type_min t).

Definition value (t : PacketType) (r : Z) : Z :=
  match t with
  | AUTH | ATTACH | PING | CONNECT | DISCONNECT | DATA => random t r
  | AUTH_ACK | ATTACH_ACK | PING_ACK | CONNECT_ACK | DISCONNECT_ACK | ERROR => Z.lor (random t r) ACK_MASK
  end.

(** [valueOf]; [None] is the exception. *)
Definition valueOf (v : Z) : option PacketType :=
  let ack := negb (Z.land v ACK_MASK =? 0) in
  let type := Z.land v TYPE_MASK in
  match Z.shiftr type 4 with
  | 0 => if type <=? type_max AUTH then Some (if ack then AUTH_ACK else AUTH) else Some (if ack then ATTACH_ACK else ATTACH)
  | 1 => Some (if ack then PING_ACK else PING)
  | 2 => Some (if ack then CONNECT_ACK else CONNECT)
  | 3 => Some (if ack then DISCONNECT_ACK else DISCONNECT)
  | 4 | 5 | 6 => if ack then None else Some DATA
  | 7 => if ack then None else Some ERROR
  | _ => None
  end.

(** The bytes that stand for a type. *)
Definition in_range (t : PacketType) (v : Z) : bool :=
  let m := if isAck t then ACK_MASK else 0 in (m + type_min t <=? v) && (v <=? m + type_max t).

Lemma valueOf_range (v : Z) (t : PacketType) : is_byte v -> (valueOf v = Some t <-> in_range t v = true).
Proof.
  intros Hv.
  assert (bool_decide (valueOf v = Some t) = in_range t v) as E.
  { revert v Hv. destruct t; (intros v Hv; apply eqb_true_iff; revert v Hv;
      apply (forallb_below (fun v => eqb (bool_decide (valueOf v = Some _)) (in_range _ v)) 256); vm_compute; reflexivity). }
  rewrite <- E. by rewrite bool_decide_eq_true.
Qed.

Lemma packet_type_spec (t : PacketType) (r : Z) :
  0 <= r < random_bound t ->
  is_byte (value t r) /\ valueOf (value t r) = (if decide (t = ERROR) then None else Some t) /\
  forall v, is_byte v -> (valueOf v = Some t <-> in_range t v = true).
Proof.
  intros Hr.
  assert (forallb (fun r => byteb (value t r) && bool_decide (valueOf (value t r) = (if decide (t = ERROR) then None else Some t)))
    (seqZ 0 (random_bound t)) = true) as E by (destruct t; vm_compute; reflexivity).
  pose proof (forallb_below _ _ E r Hr) as E0. cbn beta in E0.
  destruct (andb_prop _ _ E0) as [E1 E2]. split; [by apply byteb_spec|]. split; [by apply bool_decide_eq_true in E2|].
  intros v Hv. by apply valueOf_range.
Qed.

(** The byte of a packet is read back as its type, and as no other type; the
    types cover the bytes without a mark and the acknowledgements of five of them,
    each byte once.  Only an ERROR cannot be read back: it is sent with the mark of
    an acknowledgement, which [valueOf] rejects. *)
Theorem packet_type_roundtrip (t : PacketType) (r : Z) :
  0 <= r < random_bound t ->
  is_byte (value t r) /\ valueOf (value t r) = (if decide (t = ERROR) then None else Some t) /\
  forall v, is_byte v -> (valueOf v = Some t <-> in_range t v = true).
Proof. apply packet_type_spec. Qed.

Lemma packet_type_roundtrip_witness : valueOf (value CONNECT_ACK 3) = Some CONNECT_ACK.
Proof. refine (proj1 (proj2 (packet_type_roundtrip CONNECT_ACK 3 _))). done. Defined.
End PacketType.

Export PacketType(PacketType).
#[export] Existing Instance PacketType.PacketType_eq_dec.

Module ConnectionState.

Inductive ConnectionState := Initializing | Authenticating | Attaching | Idling | Relaying | Disconnecting | Closed.

#[export] Instance ConnectionState_eq_dec : EqDecision ConnectionState.
Proof. solve_decision. Defined.

Definition enum (s : ConnectionState) : Z :=
  match s with
  | Initializing => 0 | Authenticating => 1 | Attaching => 2 | Idling => 3 | Relaying => 4 | Disconnecting => 5 | Closed => 6
  end.

(** [accept]: the packets that are in order in a state. *)
Definition accept (s : ConnectionState) (t : PacketType) : bool :=
  match s with
  | Initializing => false
  | Authenticating => bool_decide (t = PacketType.AUTH_ACK)
  | Attaching => bool_decide (t = PacketType.ATTACH_ACK)
  | Idling => bool_decide (t = PacketType.PING_ACK) || bool_decide (t = PacketType.CONNECT)
  | Relaying => bool_decide (t = PacketType.PING_ACK) || bool_decide (t = PacketType.DATA) || bool_decide (t = PacketType.DISCONNECT)
  | Disconnecting =>
      bool_decide (t = PacketType.DISCONNECT) || bool_decide (t = PacketType.DISCONNECT_ACK) || bool_decide (t = PacketType.DATA)
  | Closed => false
  end.
End ConnectionState.

Export ConnectionState(ConnectionState(..)).
#[export] Existing Instance ConnectionState.ConnectionState_eq_dec.
