(* ===== verification/Frames.v ===== *)
(** * Reassembly of packets: [ProxyConnection::onRelayRead] of
    [src/addons/activeproxy/connection.cc]

    The server's packets arrive in pieces of any size.  A packet starts with its
    length (two bytes, the length included); bytes of a packet that is not
    complete are kept in [stickyBuffer].  The abstract specification is the byte
    stream cut into packets ([stream]); the theorem of this file is that the
    pieces do not matter: any cutting of the stream into reads processes the
    packets of the stream, in order.

    [processRelayPacket] is a parameter here: it gets the bytes from the packet's
    start and the packet's size; its result [None] is the end of the process by an
    exception that leaves a [noexcept] function. *)

From S2P Require Import Prelude.

Definition PACKET_HEADER_BYTES : nat := 3.

(** The length field at the start of a buffer: [ntohs] of its first two bytes. *)
Definition ntohs (l : list Z) : Z := match l with b0 :: b1 :: _ => 256 * u8 b0 + u8 b1 | _ => 0 end.

(** What a call of a function with a loop does: it returns, it ends the
    process, or it is still in its loop when the fuel is used up. *)
Inductive run (A : Type) := Returned (a : A) | Terminated | Unfinished.
Arguments Returned {A} a.
Arguments Terminated {A}.
Arguments Unfinished {A}.

Section frames.
Context {S : Type} (process : list Z -> Z -> S -> option S).
Implicit Types (data sb : list Z) (s : S).

(** ** Definitions *)

(** The loop over the bytes that are left; it starts with an empty buffer. *)
Fixpoint read_loop (fuel : nat) data s : run (list Z * S) :=
  match fuel with
  | O => Unfinished
  | Datatypes.S fuel =>
      if bool_decide (data = []) then Returned ([], s)
      else if (length data <? PACKET_HEADER_BYTES)%nat then Returned (data, s)
      else
        let packetSize := ntohs data in
        if Z.of_nat (length data) <? packetSize then Returned (data, s)
        else match process data packetSize s with
        | None => Terminated
        | Some s => read_loop fuel (drop (Z.to_nat packetSize) data) s
        end
  end.

(** Completing the header from the new bytes; [None] when they do not suffice. *)
Definition complete_header sb data : list Z * option (list Z) :=
  if (length sb <? PACKET_HEADER_BYTES)%nat then
    let rs := (PACKET_HEADER_BYTES - length sb)%nat in
    if (length data <? rs)%nat then (sb ++ data, None) else (sb ++ take rs data, Some (drop rs data))
  else (sb, Some data).

(** The packet started in [stickyBuffer] and then the loop.  The number of missing bytes is an
    [int] that is compared as a [size_t]. *)
Definition onRelayRead (fuel : nat) sb data s : run (list Z * S) :=
  if bool_decide (sb = []) then read_loop fuel data s
  else
    match complete_header sb data with
    | (sb, None) => Returned (sb, s)
    | (sb, Some data) =>
        let packetSize := ntohs sb in
        let rs := u64 (packetSize - Z.of_nat (length sb)) in
        if Z.of_nat (length data) <? rs then Returned (sb ++ data, s)
        else
          let sb := sb ++ take (Z.to_nat rs) data in
          match process sb (Z.of_nat (length sb)) s with
          | None => Terminated
          | Some s => read_loop fuel (drop (Z.to_nat rs) data) s
          end
    end.

(** The reads of a connection one after the other, each with fuel for its bytes. *)
Fixpoint read_all (chunks : list (list Z)) sb s : run (list Z * S) :=
  match chunks with
  | [] => Returned (sb, s)
  | data :: chunks =>
      match onRelayRead (Datatypes.S (length data)) sb data s with
      | Returned (sb, s) => read_all chunks sb s
      | Terminated => Terminated
      | Unfinished => Unfinished
      end
  end.

(** ** The abstract specification *)

Definition incomplete (l : list Z) : Prop := (length l < PACKET_HEADER_BYTES)%nat \/ Z.of_nat (length l) < ntohs l.

(** A byte stream is its packets and the start of the next one. *)
Inductive stream : list Z -> list (list Z) -> list Z -> Prop :=
  | stream_rest l : incomplete l -> stream l [] l
  | stream_packet p l ps r :
      Z.of_nat (length p) = ntohs p -> (PACKET_HEADER_BYTES <= length p)%nat -> stream l ps r -> stream (p ++ l) (p :: ps) r.

(** The packets processed one after the other. *)
Fixpoint process_all (ps : list (list Z)) s : option S :=
  match ps with
  | [] => Some s
  | p :: ps => match process p (Z.of_nat (length p)) s with Some s => process_all ps s | None => None end
  end.

(** ** Lemmas *)

Lemma ntohs_app (p l : list Z) : (2 <= length p)%nat -> ntohs (p ++ l) = ntohs p.
Proof. destruct p as [|a [|b p]]; simpl; [lia..|done]. Qed.

Lemma ntohs_bound (l : list Z) : 0 <= ntohs l < 65536.
Proof.
  destruct l as [|a [|b l]]; simpl; [lia..|]. pose proof (wrap_bound 8 a). pose proof (wrap_bound 8 b). lia.
Qed.

(** The packets of the bytes read so far are the first packets of the stream. *)
Lemma stream_cut a b ps r :
  stream (a ++ b) ps r -> exists ps1 r1 ps2, ps = ps1 ++ ps2 /\ stream a ps1 r1 /\ stream (r1 ++ b) ps2 r.
Proof.
  remember (a ++ b) as l eqn:El. intros H. revert a b El.
  induction H as [l Hl|p l ps r Hp H3 H IH]; intros a b E; subst.
  - exists [], a, []. split_and!; [done| |by constructor]. constructor. unfold incomplete in *.
    destruct (decide (length a < PACKET_HEADER_BYTES)%nat) as [|Ha]; [by left|]. right.
    rewrite length_app, ntohs_app in Hl by (unfold PACKET_HEADER_BYTES in *; lia). lia.
  - destruct (decide (length p <= length a)%nat) as [Hle|Hgt].
    + assert (a = p ++ drop (length p) a) as Ea.
      { rewrite <- (take_drop (length p) a) at 1. f_equal.
        apply (f_equal (take (length p))) in E. rewrite take_app_length, take_app_le in E by done. done. }
      rewrite Ea in E. rewrite <- app_assoc in E. apply app_inv_head in E.
      destruct (IH (drop (length p) a) b E) as (ps1 & r1 & ps2 & -> & H1 & H2).
      exists (p :: ps1), r1, ps2. split_and!; [done| |done]. rewrite Ea. by constructor.
    + exists [], a, (p :: ps). split_and!; [done| |rewrite <- E; by constructor]. constructor.
      destruct (decide (length a < PACKET_HEADER_BYTES)%nat) as [|Ha]; [by left|]. right.
      apply (f_equal ntohs) in E. rewrite !ntohs_app in E by (unfold PACKET_HEADER_BYTES in *; lia). lia.
Qed.

Lemma stream_nil ps r : stream [] ps r -> ps = [] /\ r = [].
Proof.
  remember [] as l eqn:E. destruct 1 as [l H|p l ps r Hp H3 H]; [by subst|].
  apply app_nil in E as [-> ->]. simpl in H3. unfold PACKET_HEADER_BYTES in H3. lia.
Qed.

Lemma stream_incomplete l ps r : stream l ps r -> incomplete l -> ps = [] /\ r = l.
Proof.
  destruct 1 as [l H|p l ps r Hp H3 H]; [done|]. intros [Hi|Hi]; rewrite length_app in Hi; [lia|].
  rewrite ntohs_app in Hi by (unfold PACKET_HEADER_BYTES in *; lia). lia.
Qed.

(** What every packet keeps, every read keeps. *)
Lemma read_loop_keeps (I : S -> Prop) fuel data s sb' s' :
  (forall buf size s s', I s -> process buf size s = Some s' -> I s') ->
  I s -> read_loop fuel data s = Returned (sb', s') -> I s'.
Proof.
  intros HI. revert data s. induction fuel as [|fuel IH]; intros data s Hs; simpl; [done|].
  case_bool_decide; [by intros [= <- <-]|]. destruct (_ <? _)%nat; [by intros [= <- <-]|].
  destruct (_ <? _); [by intros [= <- <-]|]. destruct (process data (ntohs data) s) eqn:E; [|done]. eauto.
Qed.

Lemma onRelayRead_keeps (I : S -> Prop) fuel sb data s sb' s' :
  (forall buf size s s', I s -> process buf size s = Some s' -> I s') ->
  I s -> onRelayRead fuel sb data s = Returned (sb', s') -> I s'.
Proof.
  intros HI Hs. unfold onRelayRead. case_bool_decide; [by apply read_loop_keeps|].
  destruct (complete_header sb data) as [sb1 [data1|]]; [|by intros [= <- <-]].
  destruct (_ <? _); [by intros [= <- <-]|]. destruct (process _ _ s) eqn:E; [|done]. apply read_loop_keeps; eauto.
Qed.

(** A packet that is processed out of a larger buffer depends on its own bytes only. *)
Hypothesis process_local : forall p l s,
  (PACKET_HEADER_BYTES <= length p)%nat -> Z.of_nat (length p) = ntohs p ->
  process (p ++ l) (Z.of_nat (length p)) s = process p (Z.of_nat (length p)) s.

Definition outcome_of (r : list Z) (o : option S) : run (list Z * S) :=
  match o with Some s => Returned (r, s) | None => Terminated end.

Lemma read_loop_stream data ps r : stream data ps r ->
  forall fuel s, (length data < fuel)%nat -> read_loop fuel data s = outcome_of r (process_all ps s).
Proof using process_local.
  induction 1 as [l Hl|p l ps r Hp H3 H IH]; intros [|fuel] s Hf; try lia; simpl.
  - case_bool_decide as E; [by subst|]. destruct (Nat.ltb_spec (length l) PACKET_HEADER_BYTES); [done|].
    destruct Hl as [Hl|Hl]; [lia|]. by rewrite (proj2 (Z.ltb_lt _ _) Hl).
  - rewrite bool_decide_eq_false_2 by (destruct p; simpl in *; unfold PACKET_HEADER_BYTES in *; [lia|done]).
    rewrite ntohs_app, <- Hp, process_local, length_app in * by (done || unfold PACKET_HEADER_BYTES in *; lia).
    destruct (Nat.ltb_spec (length p + length l) PACKET_HEADER_BYTES); [lia|].
    destruct (Z.ltb_spec (Z.of_nat (length p + length l)) (Z.of_nat (length p))); [lia|].
    destruct (process p (Z.of_nat (length p)) s); [|done]. rewrite Nat2Z.id, drop_app_length. apply IH.
    unfold PACKET_HEADER_BYTES in *. lia.
Qed.

Lemma complete_header_spec sb data :
  incomplete sb ->
  match complete_header sb data with
  | (sb', None) => sb' = sb ++ data /\ incomplete sb'
  | (sb', Some data') =>
      sb' ++ data' = sb ++ data /\ (PACKET_HEADER_BYTES <= length sb')%nat /\
      (length sb' = PACKET_HEADER_BYTES \/ Z.of_nat (length sb') <= ntohs sb') /\ (length data' <= length data)%nat
  end.
Proof.
  intros Hi. unfold complete_header. destruct (Nat.ltb_spec (length sb) PACKET_HEADER_BYTES) as [Hl|Hl].
  - destruct (Nat.ltb_spec (length data) (PACKET_HEADER_BYTES - length sb)) as [Hd|Hd].
    + split; [done|]. left. rewrite length_app. lia.
    + rewrite <- app_assoc, take_drop, length_app, length_take, length_drop. split_and!; [done|lia|left; lia|lia].
  - destruct Hi as [Hi|Hi]; [lia|]. split_and!; [done..|right; lia|lia].
Qed.

(** A read with some bytes kept from before processes the packets of all of them. *)
Lemma onRelayRead_stream sb data ps r fuel s :
  incomplete sb -> stream (sb ++ data) ps r -> (length data < fuel)%nat ->
  onRelayRead fuel sb data s = outcome_of r (process_all ps s).
Proof using process_local.
  intros Hi Hs Hf. unfold onRelayRead. case_bool_decide as E; [subst sb; by apply read_loop_stream|].
  pose proof (complete_header_spec sb data Hi) as Hc. destruct (complete_header sb data) as [sb' [data'|]].
  2:{ destruct Hc as [-> Hc]. by destruct (stream_incomplete _ _ _ Hs Hc) as [-> ->]. }
  destruct Hc as (Ec & H3 & Hn & Hd). rewrite <- Ec in Hs. clear E Hi Ec sb.
  pose proof (ntohs_bound sb'). inversion Hs as [l Hl|p l ps' r' Hp Hp3 Hs' El]; subst.
  - destruct Hl as [Hl|Hl]; rewrite length_app in Hl; [lia|]. rewrite ntohs_app in Hl by (unfold PACKET_HEADER_BYTES in *; lia).
    rewrite wrap_small by lia. by destruct (Z.ltb_spec (Z.of_nat (length data')) (ntohs sb' - Z.of_nat (length sb'))); [|lia].
  - assert (ntohs sb' = Z.of_nat (length p)) as En.
    { apply (f_equal ntohs) in El. rewrite !ntohs_app in El by (unfold PACKET_HEADER_BYTES in *; lia). congruence. }
    assert (length sb' <= length p)%nat as Hle by lia.
    assert (p = sb' ++ take (length p - length sb') data') as Ep.
    { apply (f_equal (take (length p))) in El. rewrite take_app_length, take_app_ge in El by done. done. }
    assert (l = drop (length p - length sb') data') as ->.
    { apply (f_equal (drop (length p))) in El. rewrite drop_app_length, drop_app_ge in El by done. done. }
    apply (f_equal length) in El. rewrite !length_app, length_drop in El.
    rewrite En, wrap_small by lia. destruct (Z.ltb_spec (Z.of_nat (length data')) (Z.of_nat (length p) - Z.of_nat (length sb'))); [lia|].
    replace (Z.to_nat (Z.of_nat (length p) - Z.of_nat (length sb'))) with (length p - length sb')%nat by lia.
    rewrite <- Ep. simpl. destruct (process p (Z.of_nat (length p)) s); [|done].
    apply read_loop_stream; [done|]. rewrite length_drop. lia.
Qed.

Lemma stream_rest_incomplete l ps r : stream l ps r -> incomplete r.
Proof. by induction 1. Qed.

Lemma process_all_app ps1 ps2 s :
  process_all (ps1 ++ ps2) s = match process_all ps1 s with Some s => process_all ps2 s | None => None end.
Proof. revert s. induction ps1 as [|p ps1 IH]; intros s; simpl; [done|]. by destruct (process p _ s). Qed.

Lemma read_all_stream chunks sb ps r s :
  incomplete sb -> stream (sb ++ concat chunks) ps r -> read_all chunks sb s = outcome_of r (process_all ps s).
Proof using process_local.
  revert sb ps s. induction chunks as [|data chunks IH]; intros sb ps s Hi Hs; simpl in *.
  - rewrite app_nil_r in Hs. by destruct (stream_incomplete _ _ _ Hs Hi) as [-> ->].
  - rewrite app_assoc in Hs. destruct (stream_cut _ _ _ _ Hs) as (ps1 & r1 & ps2 & -> & H1 & H2).
    rewrite (onRelayRead_stream _ _ _ _ _ s Hi H1), process_all_app by lia.
    destruct (process_all ps1 s) as [s'|]; [|done]. simpl. apply IH; [|done]. by eapply stream_rest_incomplete.
Qed.

(** A length field of 0 is never left behind. *)
Lemma read_loop_zero fuel data s x :
  (PACKET_HEADER_BYTES <= length data)%nat -> ntohs data = 0 -> read_loop fuel data s <> Returned x.
Proof.
  intros Hl Hn. revert s. induction fuel as [|fuel IH]; intros s; simpl; [done|].
  rewrite bool_decide_eq_false_2 by (destruct data; simpl in *; unfold PACKET_HEADER_BYTES in *; [lia|done]).
  destruct (Nat.ltb_spec (length data) PACKET_HEADER_BYTES); [lia|]. rewrite Hn.
  destruct (Z.ltb_spec (Z.of_nat (length data)) 0); [lia|]. destruct (process data 0 s); [|done]. apply IH.
Qed.

Lemma short_frame_blocks fuel sb data s :
  (PACKET_HEADER_BYTES <= length sb)%nat -> ntohs sb < Z.of_nat (length sb) -> Z.of_nat (length sb + length data) < 2 ^ 63 ->
  onRelayRead fuel sb data s = Returned (sb ++ data, s).
Proof.
  intros H3 Hn Hl. unfold onRelayRead, complete_header.
  rewrite bool_decide_eq_false_2 by (destruct sb; simpl in *; unfold PACKET_HEADER_BYTES in *; [lia|done]).
  destruct (Nat.ltb_spec (length sb) PACKET_HEADER_BYTES); [lia|]. pose proof (ntohs_bound sb).
  replace (u64 (ntohs sb - Z.of_nat (length sb))) with (2 ^ 64 + ntohs sb - Z.of_nat (length sb)).
  2:{ unfold wrap. rewrite <- (Z.mod_unique _ (2 ^ 64) (-1) (2 ^ 64 + ntohs sb - Z.of_nat (length sb))); lia. }
  by destruct (Z.ltb_spec (Z.of_nat (length data)) (2 ^ 64 + ntohs sb - Z.of_nat (length sb))); [|lia].
Qed.
End frames.

(** Two functions that agree on what ends in a state of a kind give reads that agree on it. *)
Section agree.
Context {S : Type} (p1 p2 : list Z -> Z -> S -> option S) (P : S -> Prop).
Hypothesis agree : forall buf size s s', p1 buf size s = Some s' -> P s' -> P s /\ p2 buf size s = Some s'.

Lemma read_loop_agree fuel data s sb' s' :
  read_loop p1 fuel data s = Returned (sb', s') -> P s' -> P s /\ read_loop p2 fuel data s = Returned (sb', s').
Proof.
  revert data s. induction fuel as [|fuel IH]; intros data s; simpl; [done|].
  case_bool_decide as Hd; [by intros [= <- <-]|]. destruct (_ <? _)%nat; [by intros [= <- <-]|].
  destruct (_ <? _); [by intros [= <- <-]|]. destruct (p1 data (ntohs data) s) as [s1|] eqn:E; [|done].
  intros Hr HP. destruct (IH _ _ Hr HP) as [H1 H2]. destruct (agree _ _ _ _ E H1) as [H3 ->]. done.
Qed.

Lemma onRelayRead_agree fuel sb data s sb' s' :
  onRelayRead p1 fuel sb data s = Returned (sb', s') -> P s' -> P s /\ onRelayRead p2 fuel sb data s = Returned (sb', s').
Proof.
  unfold onRelayRead. case_bool_decide as Hd; [apply read_loop_agree|]. destruct (complete_header sb data) as [sb1 [data1|]]; [|by intros [= <- <-]].
  destruct (_ <? _); [by intros [= <- <-]|]. destruct (p1 _ _ s) as [s1|] eqn:E; [|done]. intros Hr HP.
  destruct (read_loop_agree _ _ _ _ _ Hr HP) as [H1 H2]. destruct (agree _ _ _ _ E H1) as [H3 ->]. done.
Qed.
End agree.
