(* ===== verification/Json.v ===== *)
(** * The JSON values of the messages

    The messages of the network are objects of the library nlohmann/json, which is
    not part of the repository.  Its data model is [json]: an object is the list of
    its members in the order of their keys, as [std::map] has them; the library's
    signed and unsigned numbers compare by value and are one constructor.  The
    conversions to numbers and the CBOR encoding are the interface [Nlohmann], with
    the documented behaviour as its laws. *)

From Stdlib Require Import String Ascii.
From stdpp Require Import strings.
From S2P Require Import Prelude Values.

#[local] Open Scope Z_scope.

Inductive json :=
  | JNull
  | JBoolean (b : bool)
  | JNumber (z : Z)
  | JFloat (bits : Z)
  | JString (s : list Z)
  | JBinary (b : list Z)
  | JArray (l : list json)
  | JObject (l : list (string * json)).

(** ** Access *)

Definition is_object (j : json) : bool := match j with JObject _ => true | _ => false end.
Definition is_array (j : json) : bool := match j with JArray _ => true | _ => false end.
Definition is_null (j : json) : bool := match j with JNull => true | _ => false end.

Definition get_binary (j : json) : result (list Z) := match j with JBinary b => Ok b | _ => Throw Json_error end.
Definition get_string (j : json) : result (list Z) := match j with JString s => Ok s | _ => Throw Json_error end.

(** [at] checks the index; [operator[]] of a constant value checks only that the value is an array. *)
Definition json_at (i : nat) (j : json) : result json :=
  match j with
  | JArray l => match l !! i with Some x => Ok x | None => Throw Json_error end
  | _ => Throw Json_error
  end.
Definition json_index (i : nat) (j : json) : result json :=
  match j with
  | JArray l => match l !! i with Some x => Ok x | None => Throw Out_of_bounds end
  | _ => Throw Json_error
  end.

Definition items (j : json) : list (string * json) := match j with JObject l => l | _ => [] end.

(** [find] and the assignment [object[key] = value] of an object. *)
Fixpoint json_find (k : string) (l : list (string * json)) : option json :=
  match l with [] => None | (k', v) :: l => if String.eqb k k' then Some v else json_find k l end.

Fixpoint json_set (k : string) (v : json) (l : list (string * json)) : list (string * json) :=
  match l with
  | [] => [(k, v)]
  | (k', v') :: l' =>
      match String.compare k k' with
      | Lt => (k, v) :: l
      | Eq => (k, v) :: l'
      | Gt => (k', v') :: json_set k v l'
      end
  end.

Lemma json_find_set k k' v l : json_find k (json_set k' v l) = if String.eqb k k' then Some v else json_find k l.
Proof.
  induction l as [|[k1 v1] l IH]; simpl; [done|]. destruct (String.compare k' k1) eqn:E; simpl.
  - apply String.compare_eq_iff in E as <-. by destruct (String.eqb k k').
  - done.
  - rewrite IH. destruct (String.eqb_spec k k1) as [->|]; [|done]. destruct (String.eqb_spec k1 k') as [->|]; [|done].
    pose proof (String.compare_antisym k' k') as A. rewrite E in A. done.
Qed.

(** An object from a list of members. *)
Definition json_object (l : list (string * json)) : list (string * json) := foldl (fun o kv => json_set kv.1 kv.2 o) [] l.

(** ** The values that exist: keys in order, numbers of 64 bits, strings of bytes *)

Definition byteb (z : Z) : bool := (0 <=? z) && (z <? 256).

Fixpoint keys_sorted (l : list (string * json)) : bool :=
  match l with
  | (k, _) :: (((k', _) :: _) as l') => match String.compare k k' with Lt => keys_sorted l' | _ => false end
  | _ => true
  end.

Fixpoint json_ok (j : json) : bool :=
  match j with
  | JNull | JBoolean _ => true
  | JNumber z => (- 2 ^ 63 <=? z) && (z <? 2 ^ 64)
  | JFloat _ => false
  | JString s => forallb byteb s
  | JBinary b => forallb byteb b
  | JArray l => forallb json_ok l
  | JObject l => keys_sorted l && forallb (fun kv => json_ok kv.2) l
  end.

(** Objects that were made by assignments are in order. *)
Lemma json_set_sorted k v l : keys_sorted l = true -> keys_sorted (json_set k v l) = true.
Proof.
  assert (forall a b, String.compare a b = Gt -> String.compare b a = Lt) as Hgt.
  { intros a b E. rewrite String.compare_antisym, E. done. }
  induction l as [|[k1 v1] l IH]; [done|]. simpl. intros H. destruct (String.compare k k1) eqn:E.
  - apply String.compare_eq_iff in E as <-. by destruct l as [|[k2 v2] l].
  - simpl. by rewrite E.
  - destruct l as [|[k2 v2] l]; [simpl; by rewrite (Hgt _ _ E)|]. destruct (String.compare k1 k2) eqn:E12; [done| |done].
    specialize (IH H). simpl in IH |- *. destruct (String.compare k k2) eqn:E2; simpl in *; rewrite ?(Hgt _ _ E), ?E12; done.
Qed.

Lemma json_object_ok l : Forall (fun kv => json_ok kv.2 = true) l -> json_ok (JObject (json_object l)) = true.
Proof.
  intros H. unfold json_object. assert (forall acc, keys_sorted acc = true -> Forall (fun kv => json_ok kv.2 = true) acc ->
    json_ok (JObject (foldl (fun o kv => json_set kv.1 kv.2 o) acc l)) = true) as G; [|apply G; [done|constructor]].
  induction H as [|[k v] l Hv _ IH]; intros acc Hs Ha; simpl.
  - rewrite Hs. simpl. induction Ha as [|kv acc Hkv _ IHa]; [done|]. simpl. rewrite Hkv. apply IHa. destruct acc as [|[k1 v1] acc]; [done|].
    destruct kv as [k0 v0]. simpl in Hs. by destruct (String.compare k0 k1).
  - apply IH; [by apply json_set_sorted|]. clear -Ha Hv. induction Ha as [|[k1 v1] acc H1 Ha IHa]; simpl; [by constructor|].
    destruct (String.compare k k1); repeat (constructor; try done).
Qed.

Lemma number_ok z : - 2 ^ 63 <= z < 2 ^ 64 -> json_ok (JNumber z) = true.
Proof. intros H. simpl. apply andb_true_iff. split; [apply Z.leb_le|apply Z.ltb_lt]; lia. Qed.

Lemma binary_ok l : Forall is_byte l -> json_ok (JBinary l) = true.
Proof.
  simpl. induction 1 as [|x l [H1 H2] _ IH]; [done|]. simpl. unfold byteb at 1.
  rewrite (proj2 (Z.leb_le 0 x)), (proj2 (Z.ltb_lt x 256)) by done. exact IH.
Qed.

(** [get] of the arithmetic types converts a number as a cast does; [from_cbor] throws when the bytes
    are not one CBOR value. *)
Class Nlohmann := {
  get_int : json -> result Z;
  get_uint16 : json -> result Z;
  get_uint8 : json -> result Z;
  get_uint64 : json -> result Z;
  get_int64 : json -> result Z;
  to_cbor : json -> list Z;
  from_cbor : list Z -> option json;
  get_int_number z : get_int (JNumber z) = Ok (i32 z);
  get_uint16_number z : get_uint16 (JNumber z) = Ok (u16 z);
  get_uint8_number z : get_uint8 (JNumber z) = Ok (u8 z);
  get_uint64_number z : get_uint64 (JNumber z) = Ok (u64 z);
  get_int64_number z : get_int64 (JNumber z) = Ok (i64 z);
  get_int_range j z : get_int j = Ok z -> - 2 ^ 31 <= z < 2 ^ 31;
  get_uint16_range j z : get_uint16 j = Ok z -> 0 <= z < 2 ^ 16;
  get_uint8_range j z : get_uint8 j = Ok z -> 0 <= z < 2 ^ 8;
  to_cbor_nonempty j : to_cbor j <> [];
  from_cbor_to_cbor j : json_ok j = true -> from_cbor (to_cbor j) = Some j
}.

(** ** A stand-in for the library, with its laws *)

Fixpoint json_tree (j : json) : gen_tree (Z + list Z + string) :=
  match j with
  | JNull => GenNode 0 []
  | JBoolean b => GenNode 1 [GenLeaf (inl (inl (Z.b2z b)))]
  | JNumber z => GenNode 2 [GenLeaf (inl (inl z))]
  | JFloat z => GenNode 3 [GenLeaf (inl (inl z))]
  | JString s => GenNode 4 [GenLeaf (inl (inr s))]
  | JBinary s => GenNode 5 [GenLeaf (inl (inr s))]
  | JArray l => GenNode 6 (json_tree <$> l)
  | JObject l => GenNode 7 ((fun kv => GenNode 8 [GenLeaf (inr kv.1); json_tree kv.2]) <$> l)
  end.

Definition key_of (t : gen_tree (Z + list Z + string)) : string := match t with GenLeaf (inr k) => k | _ => ""%string end.

Fixpoint tree_json (t : gen_tree (Z + list Z + string)) : json :=
  match t with
  | GenNode 1 [GenLeaf (inl (inl z))] => JBoolean (z =? 1)
  | GenNode 2 [GenLeaf (inl (inl z))] => JNumber z
  | GenNode 3 [GenLeaf (inl (inl z))] => JFloat z
  | GenNode 4 [GenLeaf (inl (inr s))] => JString s
  | GenNode 5 [GenLeaf (inl (inr s))] => JBinary s
  | GenNode 6 l => JArray (tree_json <$> l)
  | GenNode 7 l => JObject ((fun t => match t with GenNode 8 [k; v] => (key_of k, tree_json v) | _ => (""%string, JNull) end) <$> l)
  | _ => JNull
  end.

Section json_ind.
Variable (P : json -> Prop).
Hypotheses (Pnull : P JNull) (Pbool : forall b, P (JBoolean b)) (Pnum : forall z, P (JNumber z)) (Pfloat : forall z, P (JFloat z))
  (Pstr : forall s, P (JString s)) (Pbin : forall b, P (JBinary b)) (Parr : forall l, Forall P l -> P (JArray l))
  (Pobj : forall l, Forall (fun kv => P kv.2) l -> P (JObject l)).

Fixpoint json_nested_ind (j : json) : P j :=
  match j with
  | JNull => Pnull | JBoolean b => Pbool b | JNumber z => Pnum z | JFloat z => Pfloat z | JString s => Pstr s | JBinary b => Pbin b
  | JArray l => Parr l ((fix go l := match l return Forall P l with [] => List.Forall_nil _ | x :: l => List.Forall_cons _ _ _ (json_nested_ind x) (go l) end) l)
  | JObject l => Pobj l ((fix go l := match l return Forall (fun kv => P kv.2) l with
                                      | [] => List.Forall_nil _ | x :: l => List.Forall_cons _ _ _ (json_nested_ind x.2) (go l) end) l)
  end.
End json_ind.

Lemma tree_json_tree (j : json) : tree_json (json_tree j) = j.
Proof.
  induction j as [|b| | | | |l IH|l IH] using json_nested_ind; simpl; try done.
  - by destruct b.
  - f_equal. induction IH as [|x l Hx _ IH]; [done|]. simpl. f_equal; [exact Hx|exact IH].
  - f_equal. induction IH as [|[k x] l Hx _ IH]; [done|]. simpl in *. f_equal; [by rewrite Hx|exact IH].
Qed.

#[local] Instance json_eq_dec : EqDecision json.
Proof.
  intros j j'. destruct (decide (json_tree j = json_tree j')) as [E|E]; [left|right; by intros ->].
  rewrite <- (tree_json_tree j), <- (tree_json_tree j'). by rewrite E.
Defined.

#[local, refine] Instance json_countable : Countable json := inj_countable' json_tree tree_json _.
Proof. apply tree_json_tree. Defined.

Definition toy_get (w : Z -> Z) (j : json) : result Z := match j with JNumber z => Ok (w z) | _ => Throw Json_error end.

#[local, refine] Instance toy_json : Nlohmann := {
  get_int := toy_get i32;
  get_uint16 := toy_get u16;
  get_uint8 := toy_get u8;
  get_uint64 := toy_get u64;
  get_int64 := toy_get i64;
  to_cbor j := [Zpos (encode j)];
  from_cbor l := match l with [Zpos p] => decode p | _ => None end
}.
Proof.
  - done.
  - done.
  - done.
  - done.
  - done.
  - intros j z. destruct j; simpl; try done. intros [= <-]. by apply (swrap_bound 32).
  - intros j z. destruct j; simpl; try done. intros [= <-]. by apply wrap_bound.
  - intros j z. destruct j; simpl; try done. intros [= <-]. by apply wrap_bound.
  - done.
  - intros j _. apply decode_encode.
Defined.
