(* ===== verification/TableFiles.v ===== *)
(** * The file of the routing table: [load] and [save] of [src/core/routing_table.cc], and
    [fromJson] and [toJson] of [src/core/kbucket_entry.cc]

    The file is its contents, or missing; whether it can be opened is an argument.
    The encoding is CBOR through [Nlohmann].  The entries that are loaded are new
    objects. *)

From Stdlib Require Import String.
From stdpp Require Import strings.
From S2P Require Import Prelude Ids Addresses Constants Entries KBuckets RoutingTables Values Json.

#[local] Open Scope Z_scope.
#[local] Open Scope carrier_scope.

Module TableFile.
Section file.
Context {nlohmann : Nlohmann}.

(** ** Entries as JSON *)

Definition toJson (e : KBucketEntry) : json :=
  JObject (json_object
    [("id", JBinary (bytes (getId e))); ("addr", JBinary (take (inaddrLength (getAddress e)) (inaddr (getAddress e))));
     ("port", JNumber (port (getAddress e))); ("created", JNumber (created e)); ("lastSeen", JNumber (lastSeen e));
     ("lastSend", JNumber (lastSend e)); ("failedRequests", JNumber (failedRequests e)); ("reachable", JBoolean (reachable e));
     ("version", JNumber (version (node e)))]%string).

(** [at] of an object: a key that is missing and another value are errors. *)
Definition at_key (k : string) (j : json) : result json :=
  match json_find k (items j) with Some x => Ok x | None => Throw Json_error end.

Definition get_bool (j : json) : result bool := match j with JBoolean b => Ok b | _ => Throw Json_error end.

Definition fromJson (root : json) : result KBucketEntry :=
  id <-! (j <-! at_key "id" root; b <-! get_binary j; Id_of_blob b);
  ip <-! (j <-! at_key "addr" root; get_binary j);
  port <-! (j <-! at_key "port" root; get_uint16 j);
  match SocketAddress_of_blob ip port with
  | None => Throw Invalid_argument
  | Some addr =>
      version <-! (j <-! at_key "version" root; get_int j);
      created <-! (j <-! at_key "created" root; get_uint64 j);
      lastSeen <-! (j <-! at_key "lastSeen" root; get_uint64 j);
      lastSend <-! (j <-! at_key "lastSend" root; get_uint64 j);
      failedRequests <-! (j <-! at_key "failedRequests" root; get_int j);
      reachable <-! (j <-! at_key "reachable" root; get_bool j);
      Ok (MkEntry (MkNodeInfo id addr version) created lastSeen lastSend reachable failedRequests)
  end.

(** ** The file *)

(** Opening the file for writing empties it. *)
Definition save (now : Z) (is_open : bool) (rt : RoutingTable) (disk : option (list Z)) : option (list Z) :=
  if negb is_open then disk
  else if RoutingTable.getNumBucketEntries rt =? 0 then Some []
  else Some (to_cbor (JObject (json_object
         [("timestamp", JNumber now); ("entries", JArray ((fun e => toJson (obj e)) <$> RoutingTable.all_entries (buckets rt)))]%string))).

(** The values that a range-based loop over a JSON value goes through. *)
Definition elements_of (j : json) : list json :=
  match j with JArray l => l | JObject l => snd <$> l | JNull => [] | j => [j] end.

Section load.
Variables (localId : Id) (now : Z).

(** The loop of [load]; an exception leaves it, with what was put so far. *)
Fixpoint load_nodes (next : positive) (l : list json) (rt : RoutingTable) : option RoutingTable :=
  match l with
  | [] => Some rt
  | j :: l =>
      match fromJson j with
      | Throw _ => Some rt
      | Ok e => rt' ← RoutingTable._put localId now (MkSp next e) rt; load_nodes (Pos.succ next) l rt'
      end
  end.

Definition load (next : positive) (disk : option (list Z)) (rt : RoutingTable) : option RoutingTable :=
  match disk with
  | None | Some [] => Some rt
  | Some data =>
      match from_cbor data with
      | None => Some rt
      | Some root =>
          match (j <-! at_key "timestamp" root; get_int64 j), at_key "entries" root with
          | Ok _, Ok nodes => load_nodes next (elements_of nodes) rt
          | _, _ => Some rt
          end
      end
  end.

(** ** Lemmas *)

(** An entry whose members fit their types, and what the file keeps of it: not the flow
    and the scope of an address of IPv6. *)
Record entry_fits (e : KBucketEntry) : Prop := {
  fits_address : address_wf (getAddress e) /\ sa_empty (getAddress e) = false;
  fits_version : - 2 ^ 31 <= version (node e) < 2 ^ 31;
  fits_times : 0 <= created e < 2 ^ 64 /\ 0 <= lastSeen e < 2 ^ 64 /\ 0 <= lastSend e < 2 ^ 64;
  fits_failed : - 2 ^ 31 <= failedRequests e < 2 ^ 31
}.

Definition kept_address (a : SocketAddress) : SocketAddress :=
  match a with SA_in6 p _ ip _ => SA_in6 p 0 ip 0 | a => a end.

Definition kept (e : KBucketEntry) : KBucketEntry :=
  MkEntry (MkNodeInfo (getId e) (kept_address (getAddress e)) (version (node e))) (created e) (lastSeen e) (lastSend e) (reachable e) (failedRequests e).

Lemma json_find_object k l : json_find k (json_object l) = json_find k (reverse l).
Proof.
  unfold json_object. assert (forall acc, json_find k (foldl (fun o kv => json_set kv.1 kv.2 o) acc l) =
    match json_find k (reverse l) with Some v => Some v | None => json_find k acc end) as H.
  { induction l as [|[k' v] l IH]; intros acc; [done|]. simpl. rewrite IH, reverse_cons, json_find_set.
    assert (forall l1 l2, json_find k (l1 ++ l2) = match json_find k l1 with Some v => Some v | None => json_find k l2 end) as Happ.
    { induction l1 as [|[k1 v1] l1 IH1]; intros l2; [done|]. simpl. by destruct (String.eqb k k1). }
    rewrite Happ. destruct (json_find k (reverse l)); [done|]. simpl. by destruct (String.eqb k k'). }
  rewrite H. simpl. by destruct (json_find k (reverse l)).
Qed.

Lemma fromJson_toJson e : entry_fits e -> fromJson (toJson e) = Ok (kept e).
Proof.
  intros [[(Hp & Hb & Hl) Ha] Hv (Hc & Hs & Hd) Hf]. unfold fromJson, at_key, toJson. cbn [items]. rewrite !json_find_object. cbn.
  rewrite Value.id_blob_ok, get_uint16_number, !get_int_number, !get_uint64_number.
  rewrite !wrap_small by lia. rewrite !swrap_small by lia. rewrite <- Hl, firstn_all.
  unfold SocketAddress_of_blob, kept. destruct (getAddress e); [done| |]; simpl in *; rewrite Hl; done.
Qed.

Lemma toJson_ok e : entry_fits e -> json_ok (toJson e) = true.
Proof.
  intros [[(Hp & Hb & Hl) Ha] Hv (Hc & Hs & Hd) Hf]. apply json_object_ok.
  repeat apply Forall_cons_2; try (apply number_ok; simpl; lia); try done.
  - apply binary_ok, id_bytes.
  - by apply binary_ok, Forall_take.
Qed.

(** The entries as new objects. *)
Fixpoint numbered (next : positive) (es : list KBucketEntry) : list SpE :=
  match es with [] => [] | e :: es => MkSp next e :: numbered (Pos.succ next) es end.

Lemma load_nodes_entries next es rt :
  Forall entry_fits es -> load_nodes next (toJson <$> es) rt = RoutingTable.load_entries localId now (numbered next (kept <$> es)) rt.
Proof.
  intros H. revert next rt. induction H as [|e es He _ IH]; intros next rt; [done|]. simpl. rewrite fromJson_toJson by done.
  destruct (RoutingTable._put _ _ _ rt); [apply IH|done].
Qed.

Lemma numbered_spec next es x : x ∈ numbered next es -> (next <= ptr x)%positive /\ obj x ∈ es.
Proof.
  revert next. induction es as [|e es IH]; intros next; [by intros ?%elem_of_nil|]. simpl. rewrite elem_of_cons.
  intros [->|Hx]; [split; [done|by left]|]. apply IH in Hx as [H1 H2]. split; [lia|by right].
Qed.

(** Loading entries of different nodes, which are not in the table, ends and leaves
    nothing in the table but what was there and what was loaded. *)
Lemma load_entries_spec es : forall next rt,
  RoutingTable.table_ok localId rt -> NoDup (getId <$> es) ->
  (forall x, x ∈ RoutingTable.all_entries (buckets rt) -> (ptr x < next)%positive /\ eid x ∉ getId <$> es) ->
  exists rt', RoutingTable.load_entries localId now (numbered next es) rt = Some rt' /\ RoutingTable.table_ok localId rt' /\
    forall x, x ∈ RoutingTable.all_entries (buckets rt') -> x ∈ RoutingTable.all_entries (buckets rt) \/ obj x ∈ es.
Proof.
  induction es as [|e es IH]; intros next rt Hok Hn Hx; simpl; [exists rt; auto|]. apply NoDup_cons in Hn as [Hn1 Hn2].
  destruct (RoutingTable.put_spec localId now (MkSp next e) rt Hok) as (rt1 & l & rest & E & Hok1 & Hl & Hl1 & Hr & _).
  { intros (x & Ep & Hin)%list_elem_of_fmap. specialize (Hx x Hin) as [Hx _]. simpl in Ep. subst next. lia. }
  rewrite E. simpl. assert (forall x, x ∈ KBucket.put_list now (MkSp next e) l -> x = MkSp next e \/ x ∈ l) as Hput.
  { clear -Hr Hl Hx. destruct Hr as [l1 a l2 -> Heq|a _ _ _|_ _|l' _ _ _ Hp|l1 a l2 l' _ _ -> Hp _ _|_ _ _ _]; intros x Hin; [exfalso|by right|by right| | |by right].
    - apply andb_true_iff in Heq as [Hid%bool_decide_eq_true _].
      destruct (Hx a) as [_ Hbad]; [rewrite Hl, !elem_of_app, elem_of_cons; auto|]. apply Hbad. apply elem_of_cons. left. exact Hid.
    - rewrite Hp in Hin. by apply elem_of_cons in Hin.
    - rewrite Hp in Hin. rewrite elem_of_cons, elem_of_app in Hin. rewrite elem_of_app, elem_of_cons. tauto. }
  assert (forall x, x ∈ RoutingTable.all_entries (buckets rt1) -> x = MkSp next e \/ x ∈ RoutingTable.all_entries (buckets rt)) as Hsub.
  { intros x. rewrite Hl1, Hl, !elem_of_app. intros [H|H]; [apply Hput in H as [?|?]|]; auto. }
  destruct (IH (Pos.succ next) rt1 Hok1 Hn2) as (rt' & E' & Hok' & Hs).
  - intros x [->|H]%Hsub; [split; [simpl; lia|exact Hn1]|]. apply Hx in H as [H1 H2]. split; [lia|]. intros H. apply H2. by right.
  - exists rt'. split; [done|]. split; [done|]. intros x [H|H]%Hs; [|right; by right]. apply Hsub in H as [->|H]; [right; by left|by left].
Qed.

Lemma table_ids_distinct rt : RoutingTable.table_ok localId rt -> NoDup (getId ∘ obj <$> RoutingTable.all_entries (buckets rt)).
Proof.
  intros (Ht & Hb & _). assert (Forall KBucket.bucket_ok (buckets rt)) as Hb' by (eapply Forall_impl; [exact Hb|by intros b []]).
  clear Hb. revert Ht Hb'. generalize 0 (2 ^ 256) (buckets rt). intros s e bs. revert s.
  induction bs as [|b bs IH]; intros s Ht Hb; [constructor|]. unfold RoutingTable.all_entries. rewrite bind_cons, fmap_app.
  pose proof Hb as [(_ & Hent & _) Hb2]%Forall_cons. apply NoDup_app. split; [apply Hent|]. split.
  - intros i (x & -> & Hx)%list_elem_of_fmap (y & Exy & Hy)%list_elem_of_fmap.
    pose proof (RoutingTable.tiles_disjoint s e [] b bs x y Ht Hb Hx Hy) as H. unfold eid in H. simpl in Exy. rewrite Exy in H. lia.
  - eapply IH; [apply Ht|done].
Qed.

Lemma no_conflict_distinct (n : SpE) l :
  eid n ∉ eid <$> l -> eaddr n ∉ eaddr <$> l -> KBucket.no_conflict n l.
Proof.
  intros H1 H2. apply Forall_forall. intros x Hx. unfold matches, ni_matches. apply orb_false_iff. split.
  - apply bool_decide_eq_false. intros E. apply H1. change (eid n) with (nodeId (node (obj n))). rewrite <- E. by apply (list_elem_of_fmap_2 eid).
  - unfold sa_eqb. apply bool_decide_eq_false. intros E. apply H2. change (eaddr n) with (sockaddr (node (obj n))). rewrite <- E.
    by apply (list_elem_of_fmap_2 eaddr).
Qed.

(** As long as one bucket could hold them all, reachable entries of different nodes and
    addresses are all taken. *)
Lemma load_entries_all es : forall next rt,
  RoutingTable.table_ok localId rt -> Forall (fun e => reachable e = true) es ->
  (forall x, x ∈ RoutingTable.all_entries (buckets rt) -> (ptr x < next)%positive) ->
  NoDup ((getId <$> (obj <$> RoutingTable.all_entries (buckets rt))) ++ (getId <$> es)) ->
  NoDup ((getAddress <$> (obj <$> RoutingTable.all_entries (buckets rt))) ++ (getAddress <$> es)) ->
  (length (RoutingTable.all_entries (buckets rt)) + length es <= Constants.MAX_ENTRIES_PER_BUCKET)%nat ->
  exists rt', RoutingTable.load_entries localId now (numbered next es) rt = Some rt' /\
    obj <$> RoutingTable.all_entries (buckets rt') ≡ₚ (obj <$> RoutingTable.all_entries (buckets rt)) ++ es.
Proof.
  induction es as [|e es IH]; intros next rt Hok Hr Hx Hi Ha Hl; simpl; [exists rt; by rewrite app_nil_r|]. apply Forall_cons in Hr as [Hre Hr].
  destruct (RoutingTable.put_spec localId now (MkSp next e) rt Hok) as (rt1 & l & rest & E & Hok1 & Hl0 & Hl1 & Hp & _).
  { intros (x & Ep & Hin)%list_elem_of_fmap. specialize (Hx x Hin). simpl in Ep. subst next. lia. }
  rewrite E. simpl. simpl in Hi, Ha.
  assert (forall x, x ∈ l -> x ∈ RoutingTable.all_entries (buckets rt)) as Hsub by (intros x H; rewrite Hl0; apply elem_of_app; by left).
  assert (length l <= length (RoutingTable.all_entries (buckets rt)))%nat as Hll by (rewrite Hl0, length_app; lia).
  assert (KBucket.no_conflict (MkSp next e) l) as Hnc.
  { apply no_conflict_distinct.
    - intros (x & Ex & Hin)%list_elem_of_fmap. apply NoDup_app in Hi as (_ & Hi & _). apply (Hi (getId e)); [|by left].
      rewrite <-list_fmap_compose. change (getId e) with (eid (MkSp next e)). rewrite Ex. by apply (list_elem_of_fmap_2 eid), Hsub.
    - intros (x & Ex & Hin)%list_elem_of_fmap. apply NoDup_app in Ha as (_ & Ha & _). apply (Ha (getAddress e)); [|by left].
      rewrite <-list_fmap_compose. change (getAddress e) with (eaddr (MkSp next e)). rewrite Ex. by apply (list_elem_of_fmap_2 eaddr), Hsub. }
  assert (KBucket.put_list now (MkSp next e) l ≡ₚ MkSp next e :: l) as Hput.
  { unfold KBucket.put_list. rewrite (proj2 (KBucket.put_existing_None _ _) Hnc). simpl. rewrite Hre.
    rewrite (proj2 (Nat.ltb_lt _ _)) by (simpl in Hl; lia). apply (KBucket.update2_insert None); [done|simpl in Hl; lia]. }
  assert (RoutingTable.all_entries (buckets rt1) ≡ₚ MkSp next e :: RoutingTable.all_entries (buckets rt)) as Hall by (by rewrite Hl1, Hput, Hl0).
  destruct (IH (Pos.succ next) rt1 Hok1 Hr) as (rt' & E' & Hs).
  - intros x. rewrite Hall, elem_of_cons. intros [->|H]; [simpl; lia|]. apply Hx in H. lia.
  - rewrite Hall. simpl. rewrite <-Permutation_middle in Hi. exact Hi.
  - rewrite Hall. simpl. rewrite <-Permutation_middle in Ha. exact Ha.
  - rewrite Hall. simpl in *. lia.
  - exists rt'. split; [done|]. rewrite Hs, Hall. simpl. by rewrite Permutation_middle.
Qed.

Lemma table_reachable rt : RoutingTable.table_ok localId rt -> Forall (fun x => reachable (obj x) = true) (RoutingTable.all_entries (buckets rt)).
Proof.
  intros (_ & Hb & _). unfold RoutingTable.all_entries. apply Forall_bind. eapply Forall_impl; [exact Hb|]. intros b [(_ & He & _) _]. apply He.
Qed.

(** ** Theorems *)

(** C16: A routing table that was saved and loaded into a new node is well formed, and each of
    its entries is one that was saved, with its times, its failures and its version.  All
    entries of a table of up to eight come back when their addresses differ. *)
Theorem table_file_roundtrip saved_at rt disk next :
  RoutingTable.table_ok localId rt -> Forall (fun e => entry_fits (obj e)) (RoutingTable.all_entries (buckets rt)) ->
  RoutingTable.getNumBucketEntries rt <> 0 -> 0 <= saved_at < 2 ^ 63 ->
  exists rt', load next (save saved_at true rt disk) RoutingTable.RoutingTable_new = Some rt' /\ RoutingTable.table_ok localId rt' /\
    (forall x, x ∈ RoutingTable.all_entries (buckets rt') ->
      exists y, y ∈ RoutingTable.all_entries (buckets rt) /\ obj x = kept (obj y)) /\
    (NoDup (kept_address ∘ eaddr <$> RoutingTable.all_entries (buckets rt)) ->
     (length (RoutingTable.all_entries (buckets rt)) <= Constants.MAX_ENTRIES_PER_BUCKET)%nat ->
     obj <$> RoutingTable.all_entries (buckets rt') ≡ₚ kept ∘ obj <$> RoutingTable.all_entries (buckets rt)).
Proof.
  intros Hok Hf Hn Ht. set (es := obj <$> RoutingTable.all_entries (buckets rt)).
  assert (Forall entry_fits es) as Hes by (by apply Forall_fmap).
  unfold save. simpl. rewrite (proj2 (Z.eqb_neq _ _) Hn). set (root := JObject _).
  assert (json_ok root = true) as Hr.
  { apply json_object_ok. repeat apply Forall_cons_2; [apply number_ok; simpl; lia| |constructor]. cbn. apply forallb_forall.
    intros j Hj%list_elem_of_In. apply list_elem_of_fmap in Hj as (x & -> & Hx). apply toJson_ok. rewrite Forall_forall in Hf. by apply Hf. }
  pose proof (to_cbor_nonempty root) as Hne. pose proof (from_cbor_to_cbor root Hr) as Hc. unfold load.
  destruct (to_cbor root) as [|b data]; [done|]. rewrite Hc. unfold root, at_key. cbn [items]. rewrite !json_find_object. cbn.
  rewrite get_int64_number. cbn. rewrite (list_fmap_compose obj toJson). fold es. rewrite load_nodes_entries by done.
  assert (NoDup (getId <$> (kept <$> es))) as Hd.
  { rewrite <- list_fmap_compose. unfold es. rewrite <- list_fmap_compose. exact (table_ids_distinct rt Hok). }
  destruct (load_entries_spec (kept <$> es) next RoutingTable.RoutingTable_new (RoutingTable.new_ok localId) Hd) as (rt' & E & Hok' & Hx).
  { intros x Hx. cbn in Hx. by apply elem_of_nil in Hx. }
  exists rt'. split; [exact E|]. split; [done|]. split.
  - intros x [H|H]%Hx; [cbn in H; by apply elem_of_nil in H|].
    apply list_elem_of_fmap in H as (e & E1 & He). apply list_elem_of_fmap in He as (y & -> & Hy). by exists y.
  - intros Ha Hlen. destruct (load_entries_all (kept <$> es) next RoutingTable.RoutingTable_new (RoutingTable.new_ok localId)) as (rt2 & E2 & Hp).
    + apply Forall_fmap, Forall_fmap. exact (table_reachable rt Hok).
    + intros x H. cbn in H. by apply elem_of_nil in H.
    + exact Hd.
    + cbn [RoutingTable.RoutingTable_new buckets]. change (NoDup (getAddress <$> (kept <$> es))). unfold es. rewrite <- !list_fmap_compose. exact Ha.
    + unfold es. rewrite !length_fmap. exact Hlen.
    + rewrite E in E2. injection E2 as <-. rewrite Hp. unfold es. rewrite <- list_fmap_compose. reflexivity.
Qed.

(** Saving a table without entries, as after a start without a network, destroys the file
    of the table that was saved before: what is loaded then has no entries. *)
Theorem empty_save_destroys saved_at rt data next :
  RoutingTable.getNumBucketEntries rt = 0 ->
  save saved_at true rt (Some data) = Some [] /\ load next (save saved_at true rt (Some data)) RoutingTable.RoutingTable_new = Some RoutingTable.RoutingTable_new.
Proof. intros E. unfold save. by rewrite E. Qed.

(** A put adds no object but its own. *)
Lemma put_objects next e rt :
  RoutingTable.table_ok localId rt -> (forall x, x ∈ RoutingTable.all_entries (buckets rt) -> (ptr x < next)%positive) ->
  exists rt', RoutingTable._put localId now (MkSp next e) rt = Some rt' /\ RoutingTable.table_ok localId rt' /\
    forall x, x ∈ RoutingTable.all_entries (buckets rt') -> (ptr x < Pos.succ next)%positive.
Proof.
  intros Hok Hx. destruct (RoutingTable.put_spec localId now (MkSp next e) rt Hok) as (rt1 & l & rest & E & Hok1 & Hl & Hl1 & Hr & _).
  { intros (x & Ep & Hin)%list_elem_of_fmap. specialize (Hx x Hin). simpl in Ep. subst next. lia. }
  exists rt1. split; [done|]. split; [done|].
  assert (forall y, y ∈ l \/ y ∈ rest -> (ptr y < Pos.succ next)%positive) as Ho.
  { intros y Hy. assert (y ∈ RoutingTable.all_entries (buckets rt)) as H by (by rewrite Hl, elem_of_app). apply Hx in H. lia. }
  intros x. rewrite Hl1, elem_of_app. intros [H|H]; [|by apply Ho; right].
  destruct Hr as [l1 a l2 -> _|a _ _ _|_ _|l' _ _ _ Hp|l1 a l2 l' _ _ -> Hp _ _|_ _ _ _]; try (by apply Ho; left).
  - rewrite elem_of_app, elem_of_cons in H. destruct H as [H|[->|H]]; [apply Ho; left; rewrite elem_of_app; auto| |apply Ho; left; rewrite elem_of_app, elem_of_cons; auto].
    simpl. apply (Ho a). left. rewrite elem_of_app, elem_of_cons. auto.
  - rewrite Hp, elem_of_cons in H. destruct H as [->|H]; [simpl; lia|by apply Ho; left].
  - rewrite Hp, elem_of_cons in H. destruct H as [->|H]; [simpl; lia|]. apply Ho. left. rewrite elem_of_app in H |- *. rewrite elem_of_cons. tauto.
Qed.

Lemma load_nodes_ok l : forall next rt,
  RoutingTable.table_ok localId rt -> (forall x, x ∈ RoutingTable.all_entries (buckets rt) -> (ptr x < next)%positive) ->
  exists rt', load_nodes next l rt = Some rt' /\ RoutingTable.table_ok localId rt'.
Proof.
  induction l as [|j l IH]; intros next rt Hok Hx; simpl; [by exists rt|]. destruct (fromJson j) as [e|]; [|by exists rt].
  destruct (put_objects next e rt Hok Hx) as (rt1 & E & Hok1 & Hx1). rewrite E. by apply IH.
Qed.

(** Whatever bytes the file has, loading it ends and leaves a well-formed table. *)
Theorem load_any_file data next rt :
  RoutingTable.table_ok localId rt -> (forall x, x ∈ RoutingTable.all_entries (buckets rt) -> (ptr x < next)%positive) ->
  exists rt', load next data rt = Some rt' /\ RoutingTable.table_ok localId rt'.
Proof.
  intros Hok Hx. unfold load. destruct data as [[|b data]|]; [by exists rt| |by exists rt].
  destruct (from_cbor _) as [root|]; [|by exists rt]. destruct (at_key "timestamp" root) as [j|]; [|by exists rt].
  destruct (get_int64 j); [|by exists rt]. destruct (at_key "entries" root) as [nodes|]; [|by exists rt]. by apply load_nodes_ok.
Qed.

End load.
End file.
End TableFile.

(** ** Witnesses *)

Section examples.
#[local] Existing Instance toy_json.

(** A table with two entries. *)
Definition table2 : RoutingTable :=
  default RoutingTable.RoutingTable_new (RoutingTable.run zero
    [(5, RoutingTable.op_put (RoutingTable.sample 1 2 9)); (5, RoutingTable.op_put (RoutingTable.sample 5 3 10))] RoutingTable.RoutingTable_new).

Lemma table2_ok : RoutingTable.table_ok zero table2.
Proof.
  unfold table2. destruct (RoutingTable.run zero _ RoutingTable.RoutingTable_new) as [rt|] eqn:E; simpl; [by eapply RoutingTable.run_ok|apply RoutingTable.new_ok].
Qed.

Lemma table_file_roundtrip_witness :
  exists rt, TableFile.load zero 7 1 (TableFile.save 6 true table2 None) RoutingTable.RoutingTable_new = Some rt /\ RoutingTable.table_ok zero rt /\
    length (RoutingTable.all_entries (buckets rt)) = 2%nat.
Proof.
  destruct (TableFile.table_file_roundtrip zero 7 6 table2 None 1 table2_ok) as (rt & H1 & H2 & _ & H3).
  - assert (obj <$> RoutingTable.all_entries (buckets table2) = obj <$> [RoutingTable.sample 1 2 9; RoutingTable.sample 5 3 10]) as E by (vm_compute; reflexivity).
    apply (Forall_fmap obj TableFile.entry_fits). rewrite E. repeat constructor; vm_compute; first [done|lia].
  - vm_compute. discriminate.
  - lia.
  - exists rt. split; [exact H1|]. split; [exact H2|].
    assert (eaddr <$> RoutingTable.all_entries (buckets table2) = eaddr <$> [RoutingTable.sample 1 2 9; RoutingTable.sample 5 3 10]) as E by (vm_compute; reflexivity).
    assert (length (RoutingTable.all_entries (buckets table2)) = 2%nat) as El by (vm_compute; reflexivity).
    rewrite <-(length_fmap obj), H3, length_fmap; [exact El| |rewrite El; vm_compute; lia].
    rewrite list_fmap_compose, E. apply NoDup_cons. split; [|apply NoDup_singleton].
    intros H%list_elem_of_singleton. vm_compute in H. discriminate H.
Defined.

Lemma empty_save_destroys_witness :
  TableFile.save 6 true RoutingTable.RoutingTable_new (TableFile.save 5 true table2 None) = Some [].
Proof. exact (proj1 (TableFile.empty_save_destroys zero 7 6 RoutingTable.RoutingTable_new _ 1 eq_refl)). Defined.

Lemma load_any_file_witness : exists rt, TableFile.load zero 7 9 (Some [1; 2; 3]) table2 = Some rt /\ RoutingTable.table_ok zero rt.
Proof.
  apply (TableFile.load_any_file zero 7 (Some [1; 2; 3]) 9 table2 table2_ok).
  assert (ptr <$> RoutingTable.all_entries (buckets table2) = [2; 3]%positive) as E by (vm_compute; reflexivity).
  intros x Hx%(list_elem_of_fmap_2 ptr). rewrite E, !elem_of_cons in Hx. destruct Hx as [->|[->|?%elem_of_nil]]; [lia|lia|done].
Defined.
End examples.
