(* ===== verification/Messages.v ===== *)
(** * Messages: [src/core/messages] and [src/core/serializers.cc]

    Every class of messages with its members, [serialize] and [parse].  A message is
    what goes over the network: the members of [Message] that are set from the
    datagram (the ids and addresses of sender and receiver) and the call it belongs
    to are those of [RpcServer].  An exception is an error of [result]; so is an
    access behind the end of an array.  [uninit_token] and [uninit_port] are the
    members of a new [AnnouncePeerRequest], which its constructor leaves as they are. *)

From Stdlib Require Import String.
From stdpp Require Import strings.
From S2P Require Import Prelude Ids Addresses Entries Values Crypto Json.
Import Value.

#[local] Open Scope Z_scope.
#[local] Open Scope carrier_scope.

Create HintDb wire discriminated.

Module Message.

(** ** Types, methods and keys *)

Inductive Method := UNKNOWN | PING | FIND_NODE | ANNOUNCE_PEER | FIND_PEER | STORE_VALUE | FIND_VALUE.
Inductive MsgType := ERR | REQUEST | RESPONSE.

#[export] Instance Method_eq_dec : EqDecision Method.
Proof. solve_decision. Defined.
#[export] Instance MsgType_eq_dec : EqDecision MsgType.
Proof. solve_decision. Defined.

Definition method_value (m : Method) : Z :=
  match m with
  | UNKNOWN => 0x00 | PING => 0x01 | FIND_NODE => 0x02 | ANNOUNCE_PEER => 0x03 | FIND_PEER => 0x04 | STORE_VALUE => 0x05 | FIND_VALUE => 0x06
  end.
Definition type_value (t : MsgType) : Z := match t with ERR => 0x00 | REQUEST => 0x20 | RESPONSE => 0x40 end.

Definition MSG_TYPE_MASK : Z := 0xE0.
Definition MSG_METHOD_MASK : Z := 0x1F.

Definition ofType (messageType : Z) : result MsgType :=
  let type := Z.land messageType MSG_TYPE_MASK in
  if type =? 0x20 then Ok REQUEST else if type =? 0x40 then Ok RESPONSE else if type =? 0x00 then Ok ERR else Throw Invalid_argument.

Definition ofMethod (messageType : Z) : result Method :=
  let method := Z.land messageType MSG_METHOD_MASK in
  if method =? 0x01 then Ok PING else if method =? 0x02 then Ok FIND_NODE else if method =? 0x03 then Ok ANNOUNCE_PEER
  else if method =? 0x04 then Ok FIND_PEER else if method =? 0x05 then Ok STORE_VALUE else if method =? 0x06 then Ok FIND_VALUE
  else if method =? 0x00 then Ok UNKNOWN else Throw Message_error.

Definition KEY_TYPE : string := "y".
Definition KEY_TXID : string := "t".
Definition KEY_VERSION : string := "v".
Definition KEY_REQUEST : string := "q".
Definition KEY_REQ_TARGET : string := "t".
Definition KEY_REQ_WANT : string := "w".
Definition KEY_REQ_PORT : string := "p".
Definition KEY_REQ_TOKEN : string := "tok".
Definition KEY_REQ_PUBLICKEY : string := "k".
Definition KEY_REQ_RECIPIENT : string := "rec".
Definition KEY_REQ_NONCE : string := "n".
Definition KEY_REQ_SIGNATURE : string := "sig".
Definition KEY_REQ_VALUE : string := "v".
Definition KEY_REQ_CAS : string := "cas".
Definition KEY_REQ_SEQ : string := "seq".
Definition KEY_REQ_PROXY_ID : string := "x".
Definition KEY_REQ_ALT : string := "alt".
Definition KEY_RESPONSE : string := "r".
Definition KEY_RES_NODES4 : string := "n4".
Definition KEY_RES_NODES6 : string := "n6".
Definition KEY_RES_TOKEN : string := "tok".
Definition KEY_RES_PEERS : string := "p".
Definition KEY_RES_PUBLICKEY : string := "k".
Definition KEY_RES_RECIPIENT : string := "rec".
Definition KEY_RES_NONCE : string := "n".
Definition KEY_RES_SIGNATURE : string := "sig".
Definition KEY_RES_VALUE : string := "v".
Definition KEY_RES_SEQ : string := "seq".
Definition KEY_ERROR : string := "e".
Definition KEY_ERR_CODE : string := "c".
Definition KEY_ERR_MESSAGE : string := "m".

(** ** The classes of messages *)

Record LookupRequest := MkLookupRequest { target : Id; want4 : bool; want6 : bool; wantToken : bool }.

Record LookupResponse := MkLookupResponse { nodes4 : list NodeInfo; nodes6 : list NodeInfo; lr_token : Z }.

Record AnnouncePeerRequest := MkAnnounce {
  an_token : Z; peerId : Id; an_nodeId : option Id; an_port : Z; an_alternativeURL : list Z; an_signature : list Z
}.

Record StoreValueRequest := MkStore { sv_token : Z; sv_value : SentValue; expectedSequenceNumber : Z }.

Inductive Body :=
  | PingRequest | PingResponse
  | FindNodeRequest (q : LookupRequest)
  | FindNodeResponse (r : LookupResponse)
  | AnnouncePeerRequest_ (a : AnnouncePeerRequest) | AnnouncePeerResponse
  | FindPeerRequest (q : LookupRequest)
  | FindPeerResponse (r : LookupResponse) (peers : list PeerInfo)
  | StoreValueRequest_ (s : StoreValueRequest) | StoreValueResponse
  | FindValueRequest (q : LookupRequest) (sequenceNumber : Z)
  | FindValueResponse (r : LookupResponse) (v : SentValue)
  | ErrorMessage (method : Method) (message : list Z) (code : Z).

Record Message := MkMessage { txid : Z; version : Z; body : Body }.

(** The arguments of the constructor of [Message]. *)
Definition class_of (b : Body) : MsgType * Method :=
  match b with
  | PingRequest => (REQUEST, PING) | PingResponse => (RESPONSE, PING)
  | FindNodeRequest _ => (REQUEST, FIND_NODE) | FindNodeResponse _ => (RESPONSE, FIND_NODE)
  | AnnouncePeerRequest_ _ => (REQUEST, ANNOUNCE_PEER) | AnnouncePeerResponse => (RESPONSE, ANNOUNCE_PEER)
  | FindPeerRequest _ => (REQUEST, FIND_PEER) | FindPeerResponse _ _ => (RESPONSE, FIND_PEER)
  | StoreValueRequest_ _ => (REQUEST, STORE_VALUE) | StoreValueResponse => (RESPONSE, STORE_VALUE)
  | FindValueRequest _ _ => (REQUEST, FIND_VALUE) | FindValueResponse _ _ => (RESPONSE, FIND_VALUE)
  | ErrorMessage m _ _ => (ERR, m)
  end.

Definition type (b : Body) : Z := Z.lor (type_value (class_of b).1) (method_value (class_of b).2).

Definition getType (b : Body) : result MsgType := ofType (type b).
Definition getMethod (b : Body) : result Method := ofMethod (type b).

Definition key_of_type (t : MsgType) : string := match t with REQUEST => KEY_REQUEST | RESPONSE => KEY_RESPONSE | ERR => KEY_ERROR end.
Definition getKeyString (b : Body) : result string := t <-! getType b; Ok (key_of_type t).

Definition getWant (q : LookupRequest) : Z :=
  Z.lor (Z.lor (if want4 q then 0x01 else 0) (if want6 q then 0x02 else 0)) (if wantToken q then 0x04 else 0).

Definition setWant (want : Z) (q : LookupRequest) : LookupRequest :=
  MkLookupRequest (target q) (negb (Z.land want 0x01 =? 0)) (negb (Z.land want 0x02 =? 0)) (negb (Z.land want 0x04 =? 0)).

Definition set_target (i : Id) (q : LookupRequest) : LookupRequest := MkLookupRequest i (want4 q) (want6 q) (wantToken q).

(** The constructors with a target. *)
Definition FindNodeRequest_new (i : Id) (token : bool) : Body := FindNodeRequest (MkLookupRequest i false false token).
Definition FindPeerRequest_new (i : Id) : Body := FindPeerRequest (MkLookupRequest i false false true).
Definition FindValueRequest_new (i : Id) : Body := FindValueRequest (MkLookupRequest i false false true) (-1).

(** [AnnouncePeerRequest::setPeer] and [getPeer]; [id] is the sender of the request. *)
Definition setPeer (p : PeerInfo) (a : AnnouncePeerRequest) : AnnouncePeerRequest :=
  MkAnnounce (an_token a) (p_publicKey p) (if PeerInfo.isDelegated p then Some (p_nodeId p) else an_nodeId a) (p_port p)
    (match alternativeURL p with Some u => u | None => an_alternativeURL a end) (p_signature p).

Definition getPeer `{Sodium} (id : Id) (a : AnnouncePeerRequest) : result PeerInfo :=
  let nodeId := default id (an_nodeId a) in
  PeerInfo.PeerInfo_of (bytes (peerId a)) [] (bytes nodeId) (bytes id) (an_port a) (an_alternativeURL a) (an_signature a).

(** [StoreValueRequest(const Value&, int)] and [StoreValueRequest::getValueId] *)
Definition StoreValueRequest_new (v : Value) (token : Z) : StoreValueRequest := MkStore token (setValue v (-1)) (-1).
Definition getValueId `{Sodium} (s : StoreValueRequest) : Id :=
  calculateId (s_publicKey (sv_value s)) (s_nonce (sv_value s)) (s_value (sv_value s)).

Section wire.
Context {sodium : Sodium} {nlohmann : Nlohmann}.
Variables (uninit_token uninit_port : Z).

(** ** Serialisation *)

Definition need {A} (o : option A) : result A := match o with Some a => Ok a | None => Throw Bad_optional end.

Definition json_of_id (i : Id) : json := JBinary (bytes i).

Definition json_of_node (n : NodeInfo) : json :=
  JArray [json_of_id (nodeId n); JBinary (take (inaddrLength (sockaddr n)) (inaddr (sockaddr n))); JNumber (port (sockaddr n))].

Definition json_of_peer (p : PeerInfo) : json :=
  JArray [json_of_id (p_nodeId p); if PeerInfo.isDelegated p then json_of_id (p_origin p) else JNull; JNumber (p_port p);
          match alternativeURL p with Some u => JString u | None => JNull end; JBinary (p_signature p)].

Definition members := list (string * json).

Definition set_when (b : bool) (k : string) (v : json) (o : members) : members := if b then json_set k v o else o.
Definition set_option {A} (k : string) (f : A -> json) (x : option A) (o : members) : members :=
  match x with Some a => json_set k (f a) o | None => o end.

Definition serialize_lookup_request (q : LookupRequest) : members :=
  json_object [(KEY_REQ_TARGET, json_of_id (target q)); (KEY_REQ_WANT, JNumber (getWant q))].

Definition serialize_nodes (k : string) (l : list NodeInfo) (o : members) : members :=
  set_when (negb (bool_decide (l = []))) k (JArray (json_of_node <$> l)) o.

Definition serialize_lookup_response (r : LookupResponse) : members :=
  set_when (negb (lr_token r =? 0)) KEY_RES_TOKEN (JNumber (lr_token r))
    (serialize_nodes KEY_RES_NODES6 (nodes6 r) (serialize_nodes KEY_RES_NODES4 (nodes4 r) [])).

Definition serialize_peers (peers : list PeerInfo) (o : members) : members :=
  match peers with
  | [] => o
  | p :: _ => json_set KEY_RES_PEERS (JArray (json_of_id (p_publicKey p) :: (json_of_peer <$> peers))) o
  end.

Definition serialize_announce (a : AnnouncePeerRequest) : members :=
  set_when (negb (bool_decide (an_alternativeURL a = []))) KEY_REQ_ALT (JString (an_alternativeURL a))
    (set_option KEY_REQ_PROXY_ID json_of_id (an_nodeId a)
      (json_object [(KEY_REQ_TOKEN, JNumber (an_token a)); (KEY_REQ_TARGET, json_of_id (peerId a)); (KEY_REQ_PORT, JNumber (an_port a));
                    (KEY_REQ_SIGNATURE, JBinary (an_signature a))])).

Definition serialize_store (s : StoreValueRequest) : result members :=
  let v := sv_value s in
  let o := json_set KEY_REQ_TOKEN (JNumber (sv_token s)) [] in
  o <-! match s_publicKey v with
        | None => Ok o
        | Some pk =>
            let o := set_option KEY_REQ_RECIPIENT json_of_id (s_recipient v) (json_set KEY_REQ_PUBLICKEY (json_of_id pk) o) in
            nonce <-! need (s_nonce v);
            let o := json_set KEY_REQ_NONCE (JBinary nonce) o in
            sig <-! need (s_signature v);
            let o := json_set KEY_REQ_SIGNATURE (JBinary sig) o in
            let o := set_when (0 <=? s_sequenceNumber v) KEY_REQ_SEQ (JNumber (s_sequenceNumber v)) o in
            Ok (set_when (0 <=? expectedSequenceNumber s) KEY_REQ_CAS (JNumber (expectedSequenceNumber s)) o)
        end;
  Ok (json_set KEY_REQ_VALUE (JBinary (s_value v)) o).

Definition serialize_value (v : SentValue) (o : members) : result members :=
  o <-! match s_publicKey v with
        | None => Ok o
        | Some pk =>
            let o := set_option KEY_RES_RECIPIENT json_of_id (s_recipient v) (json_set KEY_RES_PUBLICKEY (json_of_id pk) o) in
            nonce <-! need (s_nonce v);
            let o := json_set KEY_RES_NONCE (JBinary nonce) o in
            let o := set_when (0 <=? s_sequenceNumber v) KEY_RES_SEQ (JNumber (s_sequenceNumber v)) o in
            sig <-! need (s_signature v);
            Ok (json_set KEY_RES_SIGNATURE (JBinary sig) o)
        end;
  Ok (set_when (negb (bool_decide (s_value v = []))) KEY_RES_VALUE (JBinary (s_value v)) o).

(** What the [serializeInternal] of a class stores under the key of its type; the plain messages store nothing. *)
Definition serialize_body (b : Body) : result (option members) :=
  match b with
  | PingRequest | PingResponse | AnnouncePeerResponse | StoreValueResponse => Ok None
  | FindNodeRequest q | FindPeerRequest q => Ok (Some (serialize_lookup_request q))
  | FindNodeResponse r => Ok (Some (serialize_lookup_response r))
  | AnnouncePeerRequest_ a => Ok (Some (serialize_announce a))
  | FindPeerResponse r peers => Ok (Some (serialize_peers peers (serialize_lookup_response r)))
  | StoreValueRequest_ s => o <-! serialize_store s; Ok (Some o)
  | FindValueRequest q seq => Ok (Some (set_when (0 <=? seq) KEY_RES_SEQ (JNumber seq) (serialize_lookup_request q)))
  | FindValueResponse r v => o <-! serialize_value v (serialize_lookup_response r); Ok (Some o)
  | ErrorMessage _ message code => Ok (Some (json_object [(KEY_ERR_CODE, JNumber code); (KEY_ERR_MESSAGE, JString message)]))
  end.

Definition serializeInternal (m : Message) : result members :=
  o <-! serialize_body (body m);
  let root := json_set KEY_VERSION (JNumber (version m)) (json_set KEY_TXID (JNumber (txid m)) (json_set KEY_TYPE (JNumber (type (body m))) [])) in
  match o with
  | None => Ok root
  | Some o => key <-! getKeyString (body m); Ok (json_set key (JObject o) root)
  end.

Definition serialize (m : Message) : result (list Z) := root <-! serializeInternal m; Ok (to_cbor (JObject root)).

(** ** Parsing *)

Fixpoint for_items {S} (step : string -> json -> S -> result S) (l : members) (s : S) : result S :=
  match l with [] => Ok s | (k, v) :: l => s <-! step k v s; for_items step l s end.

Definition get_id (j : json) : result Id := b <-! get_binary j; Id_of_blob b.

(** [from_json] of a [NodeInfo] *)
Definition get_node (j : json) : result NodeInfo :=
  x <-! json_index 0 j; id <-! get_binary x;
  x <-! json_index 1 j; ip <-! get_binary x;
  x <-! json_index 2 j; p <-! get_int x;
  id <-! Id_of_blob id;
  match SocketAddress_of_blob ip (u16 p) with Some a => Ok (MkNodeInfo id a 0) | None => Throw Invalid_argument end.

Fixpoint get_nodes (l : list json) : result (list NodeInfo) :=
  match l with [] => Ok [] | j :: l => n <-! get_node j; ns <-! get_nodes l; Ok (n :: ns) end.

Definition parseNodes (j : json) (nodes : list NodeInfo) : result (list NodeInfo) :=
  match j with JArray l => ns <-! get_nodes l; Ok (nodes ++ ns) | _ => Throw Message_error end.

(** A [parse] that takes the members of its object one by one. *)
Definition parse_fields {S} (name : string) (step : string -> json -> S -> result S) (key : string) (j : json) (s : S) : result S :=
  if negb (String.eqb key name) || negb (is_object j) then Throw Message_error else for_items step (items j) s.

Definition lookup_request_field {S} (_parse : string -> json -> S -> result S) (k : string) (v : json) (s : LookupRequest * S) :
  result (LookupRequest * S) :=
  if String.eqb k KEY_REQ_TARGET then i <-! get_id v; Ok (set_target i s.1, s.2)
  else if String.eqb k KEY_REQ_WANT then w <-! get_int v; Ok (setWant w s.1, s.2)
  else x <-! _parse k v s.2; Ok (s.1, x).

Definition lookup_response_field {S} (_parse : string -> json -> S -> result S) (k : string) (v : json) (s : LookupResponse * S) :
  result (LookupResponse * S) :=
  if String.eqb k KEY_RES_NODES4 then l <-! parseNodes v (nodes4 s.1); Ok (MkLookupResponse l (nodes6 s.1) (lr_token s.1), s.2)
  else if String.eqb k KEY_RES_NODES6 then l <-! parseNodes v (nodes6 s.1); Ok (MkLookupResponse (nodes4 s.1) l (lr_token s.1), s.2)
  else if String.eqb k KEY_RES_TOKEN then t <-! get_int v; Ok (MkLookupResponse (nodes4 s.1) (nodes6 s.1) t, s.2)
  else x <-! _parse k v s.2; Ok (s.1, x).

Definition parse_lookup_request {S} (_parse : string -> json -> S -> result S) :
  string -> json -> LookupRequest * S -> result (LookupRequest * S) := parse_fields KEY_REQUEST (lookup_request_field _parse).

Definition parse_lookup_response {S} (_parse : string -> json -> S -> result S) :
  string -> json -> LookupResponse * S -> result (LookupResponse * S) := parse_fields KEY_RESPONSE (lookup_response_field _parse).

(** [_parse] of [LookupRequest] and [LookupResponse] themselves *)
Definition no_parse (k : string) (v : json) (s : unit) : result unit := Ok s.

Definition parse_sequence (k : string) (v : json) (seq : Z) : result Z :=
  if negb (String.eqb k KEY_RES_SEQ) then Throw Message_error else get_int v.

(** The loop of [FindPeerResponse::_parse]; [peerId] is the last element that was not an array. *)
Fixpoint parse_peers (l : list json) (peerId : list Z) (peers : list PeerInfo) : result (list PeerInfo) :=
  match l with
  | [] => Ok peers
  | j :: l =>
      if negb (is_array j) then peerId <-! get_binary j; parse_peers l peerId peers
      else
        x <-! json_at 0 j; id <-! get_binary x;
        x <-! json_at 1 j; origin <-! (if is_null x then Ok [] else get_binary x);
        x <-! json_at 2 j; port <-! get_uint16 x;
        x <-! json_at 3 j; alt <-! (if is_null x then Ok [] else get_string x);
        x <-! json_at 4 j; sig <-! get_binary x;
        p <-! PeerInfo.PeerInfo_of peerId [] id origin port alt sig;
        parse_peers l peerId (peers ++ [p])
  end.

Definition parse_peers_field (k : string) (v : json) (peers : list PeerInfo) : result (list PeerInfo) :=
  match v with
  | JArray l => if negb (String.eqb k KEY_RES_PEERS) then Throw Message_error else parse_peers l [] peers
  | _ => Throw Message_error
  end.

Definition get_nonce (j : json) : result (list Z) := b <-! get_binary j; of_blob NONCE_BYTES b.

(** The members of a value in [FindValueResponse::_parse]. *)
Definition parse_value (k : string) (j : json) (v : SentValue) : result SentValue :=
  if String.eqb k KEY_RES_PUBLICKEY then
    i <-! get_id j; Ok (MkSent (Some i) (s_recipient v) (s_nonce v) (s_signature v) (s_sequenceNumber v) (s_value v))
  else if String.eqb k KEY_RES_RECIPIENT then
    i <-! get_id j; Ok (MkSent (s_publicKey v) (Some i) (s_nonce v) (s_signature v) (s_sequenceNumber v) (s_value v))
  else if String.eqb k KEY_RES_NONCE then
    n <-! get_nonce j; Ok (MkSent (s_publicKey v) (s_recipient v) (Some n) (s_signature v) (s_sequenceNumber v) (s_value v))
  else if String.eqb k KEY_RES_SEQ then
    n <-! get_int j; Ok (MkSent (s_publicKey v) (s_recipient v) (s_nonce v) (s_signature v) n (s_value v))
  else if String.eqb k KEY_RES_SIGNATURE then
    g <-! get_binary j; Ok (MkSent (s_publicKey v) (s_recipient v) (s_nonce v) (Some g) (s_sequenceNumber v) (s_value v))
  else if String.eqb k KEY_RES_VALUE then
    d <-! get_binary j; Ok (MkSent (s_publicKey v) (s_recipient v) (s_nonce v) (s_signature v) (s_sequenceNumber v) d)
  else Throw Message_error.

Definition set_value (v : SentValue) (s : StoreValueRequest) : StoreValueRequest := MkStore (sv_token s) v (expectedSequenceNumber s).

(** [StoreValueRequest::parse]: the sequence number is read as a [uint16_t]. *)
Definition parse_store_field (k : string) (j : json) (s : StoreValueRequest) : result StoreValueRequest :=
  let v := sv_value s in
  if String.eqb k KEY_REQ_PUBLICKEY then
    i <-! get_id j; Ok (set_value (MkSent (Some i) (s_recipient v) (s_nonce v) (s_signature v) (s_sequenceNumber v) (s_value v)) s)
  else if String.eqb k KEY_REQ_RECIPIENT then
    i <-! get_id j; Ok (set_value (MkSent (s_publicKey v) (Some i) (s_nonce v) (s_signature v) (s_sequenceNumber v) (s_value v)) s)
  else if String.eqb k KEY_REQ_NONCE then
    n <-! get_nonce j; Ok (set_value (MkSent (s_publicKey v) (s_recipient v) (Some n) (s_signature v) (s_sequenceNumber v) (s_value v)) s)
  else if String.eqb k KEY_REQ_SIGNATURE then
    g <-! get_binary j; Ok (set_value (MkSent (s_publicKey v) (s_recipient v) (s_nonce v) (Some g) (s_sequenceNumber v) (s_value v)) s)
  else if String.eqb k KEY_REQ_SEQ then
    n <-! get_uint16 j; Ok (set_value (MkSent (s_publicKey v) (s_recipient v) (s_nonce v) (s_signature v) n (s_value v)) s)
  else if String.eqb k KEY_REQ_CAS then n <-! get_int j; Ok (MkStore (sv_token s) v n)
  else if String.eqb k KEY_REQ_TOKEN then n <-! get_int j; Ok (MkStore n v (expectedSequenceNumber s))
  else if String.eqb k KEY_RES_VALUE then
    d <-! get_binary j; Ok (set_value (MkSent (s_publicKey v) (s_recipient v) (s_nonce v) (s_signature v) (s_sequenceNumber v) d) s)
  else Throw Message_error.

Definition parse_announce_field (k : string) (j : json) (a : AnnouncePeerRequest) : result AnnouncePeerRequest :=
  if String.eqb k KEY_REQ_TARGET then
    i <-! get_id j; Ok (MkAnnounce (an_token a) i (an_nodeId a) (an_port a) (an_alternativeURL a) (an_signature a))
  else if String.eqb k KEY_REQ_PROXY_ID then
    i <-! get_id j; Ok (MkAnnounce (an_token a) (peerId a) (Some i) (an_port a) (an_alternativeURL a) (an_signature a))
  else if String.eqb k KEY_REQ_PORT then
    p <-! get_uint16 j; Ok (MkAnnounce (an_token a) (peerId a) (an_nodeId a) p (an_alternativeURL a) (an_signature a))
  else if String.eqb k KEY_REQ_ALT then
    u <-! get_string j; Ok (MkAnnounce (an_token a) (peerId a) (an_nodeId a) (an_port a) u (an_signature a))
  else if String.eqb k KEY_REQ_SIGNATURE then
    g <-! get_binary j; Ok (MkAnnounce (an_token a) (peerId a) (an_nodeId a) (an_port a) (an_alternativeURL a) g)
  else if String.eqb k KEY_REQ_TOKEN then
    t <-! get_int j; Ok (MkAnnounce t (peerId a) (an_nodeId a) (an_port a) (an_alternativeURL a) (an_signature a))
  else Throw Message_error.

Definition parse_error_field (k : string) (j : json) (e : list Z * Z) : result (list Z * Z) :=
  if String.eqb k KEY_ERR_CODE then c <-! get_int j; Ok (e.1, c)
  else if String.eqb k KEY_ERR_MESSAGE then m <-! get_string j; Ok (m, e.2)
  else Throw Message_error.

(** The virtual [parse]; that of [Message] itself does nothing. *)
Definition parse_body (key : string) (j : json) (b : Body) : result Body :=
  match b with
  | PingRequest | PingResponse | AnnouncePeerResponse | StoreValueResponse => Ok b
  | FindNodeRequest q => x <-! parse_lookup_request no_parse key j (q, tt); Ok (FindNodeRequest x.1)
  | FindPeerRequest q => x <-! parse_lookup_request no_parse key j (q, tt); Ok (FindPeerRequest x.1)
  | FindValueRequest q seq => x <-! parse_lookup_request parse_sequence key j (q, seq); Ok (FindValueRequest x.1 x.2)
  | FindNodeResponse r => x <-! parse_lookup_response no_parse key j (r, tt); Ok (FindNodeResponse x.1)
  | FindPeerResponse r l => x <-! parse_lookup_response parse_peers_field key j (r, l); Ok (FindPeerResponse x.1 x.2)
  | FindValueResponse r v => x <-! parse_lookup_response parse_value key j (r, v); Ok (FindValueResponse x.1 x.2)
  | AnnouncePeerRequest_ a => a <-! parse_fields KEY_REQUEST parse_announce_field key j a; Ok (AnnouncePeerRequest_ a)
  | StoreValueRequest_ s => s <-! parse_fields KEY_REQUEST parse_store_field key j s; Ok (StoreValueRequest_ s)
  | ErrorMessage m text code => e <-! parse_fields KEY_ERROR parse_error_field key j (text, code); Ok (ErrorMessage m e.1 e.2)
  end.

(** ** New messages *)

Definition lookup_request0 : LookupRequest := MkLookupRequest MIN_ID false false false.
Definition lookup_response0 : LookupResponse := MkLookupResponse [] [] 0.
Definition sent0 : SentValue := MkSent None None None None (-1) [].

Definition new_request (m : Method) : result Body :=
  match m with
  | PING => Ok PingRequest
  | FIND_NODE => Ok (FindNodeRequest lookup_request0)
  | ANNOUNCE_PEER => Ok (AnnouncePeerRequest_ (MkAnnounce uninit_token MIN_ID None uninit_port [] []))
  | FIND_PEER => Ok (FindPeerRequest lookup_request0)
  | STORE_VALUE => Ok (StoreValueRequest_ (MkStore 0 sent0 (-1)))
  | FIND_VALUE => Ok (FindValueRequest lookup_request0 (-1))
  | UNKNOWN => Throw Message_error
  end.

Definition new_response (m : Method) : result Body :=
  match m with
  | PING => Ok PingResponse
  | FIND_NODE => Ok (FindNodeResponse lookup_response0)
  | ANNOUNCE_PEER => Ok AnnouncePeerResponse
  | FIND_PEER => Ok (FindPeerResponse lookup_response0 [])
  | STORE_VALUE => Ok StoreValueResponse
  | FIND_VALUE => Ok (FindValueResponse lookup_response0 sent0)
  | UNKNOWN => Throw Message_error
  end.

Definition createMessage (messageType : Z) : result Body :=
  t <-! ofType messageType;
  m <-! ofMethod messageType;
  match t with
  | REQUEST => new_request m
  | RESPONSE => new_response m
  | ERR => Ok (ErrorMessage m [] 0)
  end.

Definition parse_field (k : string) (v : json) (m : Message) : result Message :=
  if String.eqb k KEY_TXID then t <-! get_int v; Ok (MkMessage t (version m) (body m))
  else if String.eqb k KEY_VERSION then n <-! get_int v; Ok (MkMessage (txid m) n (body m))
  else if String.eqb k KEY_REQUEST || String.eqb k KEY_RESPONSE || String.eqb k KEY_ERROR
  then b <-! parse_body k v (body m); Ok (MkMessage (txid m) (version m) b)
  else Ok m.

Definition parse_root (root : json) : result Message :=
  if negb (is_object root) then Throw Message_error
  else match json_find KEY_TYPE (items root) with
  | None => Throw Message_error
  | Some t => t <-! get_uint8 t; b <-! createMessage t; for_items parse_field (items root) (MkMessage 0 0 b)
  end.

Definition parse (buf : list Z) : result Message :=
  match from_cbor buf with None => Throw Json_error | Some root => parse_root root end.

(** ** What arrives of a message

    A node loses its version and the flow and scope of its address, a peer its
    private key, a value what belongs to a signature when it is not signed, and the
    sequence number of a value to be stored all but 16 bits. *)

Definition address_received (a : SocketAddress) : SocketAddress :=
  match a with SA_in6 p _ ip _ => SA_in6 p 0 ip 0 | _ => a end.
Definition node_received (n : NodeInfo) : NodeInfo := MkNodeInfo (nodeId n) (address_received (sockaddr n)) 0.
Definition response_received (r : LookupResponse) : LookupResponse :=
  MkLookupResponse (node_received <$> nodes4 r) (node_received <$> nodes6 r) (lr_token r).
Definition value_received (seq : Z -> Z) (v : SentValue) : SentValue :=
  match s_publicKey v with
  | None => MkSent None None None None (-1) (s_value v)
  | Some pk => MkSent (Some pk) (s_recipient v) (s_nonce v) (s_signature v) (if 0 <=? s_sequenceNumber v then seq (s_sequenceNumber v) else -1) (s_value v)
  end.
Definition sequence_received (seq : Z) : Z := if 0 <=? seq then seq else -1.
Definition store_received (s : StoreValueRequest) : StoreValueRequest :=
  MkStore (sv_token s) (value_received u16 (sv_value s))
    (if bool_decide (is_Some (s_publicKey (sv_value s))) then sequence_received (expectedSequenceNumber s) else -1).

Definition received_body (b : Body) : Body :=
  match b with
  | FindNodeResponse r => FindNodeResponse (response_received r)
  | FindPeerResponse r peers => FindPeerResponse (response_received r) (PeerInfo.peer_without_key <$> peers)
  | StoreValueRequest_ s => StoreValueRequest_ (store_received s)
  | FindValueRequest q seq => FindValueRequest q (sequence_received seq)
  | FindValueResponse r v => FindValueResponse (response_received r) (value_received id v)
  | _ => b
  end.
Definition received (m : Message) : Message := MkMessage (txid m) (version m) (received_body (body m)).

(** The messages the program makes: the widths of their members, and what the constructors of peers and values check. *)
Definition int32 (z : Z) : Prop := - 2 ^ 31 <= z < 2 ^ 31.
Definition node_wf (n : NodeInfo) : Prop := address_wf (sockaddr n) /\ sockaddr n <> SA_unspec.
Definition response_wf (r : LookupResponse) : Prop := Forall node_wf (nodes4 r) /\ Forall node_wf (nodes6 r) /\ int32 (lr_token r).
Definition sent_wf (v : SentValue) : Prop :=
  Forall is_byte (s_value v) /\ int32 (s_sequenceNumber v) /\
  forall pk, s_publicKey v = Some pk -> exists nonce sig, s_nonce v = Some nonce /\ length nonce = NONCE_BYTES /\ Forall is_byte nonce /\
    s_signature v = Some sig /\ Forall is_byte sig.
Definition peer_wf (i : Id) (p : PeerInfo) : Prop :=
  PeerInfo.peer_ok p /\ p_publicKey p = i /\ Forall is_byte (p_signature p) /\ forall u, alternativeURL p = Some u -> Forall is_byte u.

Definition body_wf (b : Body) : Prop :=
  match b with
  | FindNodeResponse r => response_wf r
  | FindPeerResponse r peers => response_wf r /\ exists i, Forall (peer_wf i) peers
  | AnnouncePeerRequest_ a => int32 (an_token a) /\ 0 <= an_port a < 2 ^ 16 /\ Forall is_byte (an_alternativeURL a) /\ Forall is_byte (an_signature a)
  | StoreValueRequest_ s => int32 (sv_token s) /\ int32 (expectedSequenceNumber s) /\ sent_wf (sv_value s)
  | FindValueRequest q seq => int32 seq
  | FindValueResponse r v => response_wf r /\ sent_wf v
  | ErrorMessage _ text code => Forall is_byte text /\ int32 code
  | _ => True
  end.
Definition message_wf (m : Message) : Prop := int32 (txid m) /\ int32 (version m) /\ body_wf (body m).

(** ** Lemmas on the parts *)

Lemma bytes_okb (l : list Z) : Forall is_byte l -> forallb byteb l = true.
Proof. intros H. apply forallb_forall. intros x Hx%list_elem_of_In. rewrite Forall_forall in H. specialize (H x Hx). unfold is_byte in H. unfold byteb. lia. Qed.

Lemma int32_okb (z : Z) : int32 z -> (- 2 ^ 63 <=? z) && (z <? 2 ^ 64) = true.
Proof. unfold int32. intros Hz. lia. Qed.

Lemma get_int_int32 z : int32 z -> get_int (JNumber z) = Ok z.
Proof. intros Hz. rewrite get_int_number. f_equal. by apply (swrap_small 32). Qed.

Lemma get_id_json i : get_id (json_of_id i) = Ok i.
Proof. apply id_blob_ok. Qed.

Lemma id_okb i : json_ok (json_of_id i) = true.
Proof. apply bytes_okb. apply id_bytes. Qed.

Lemma json_of_node_spec n : node_wf n -> get_node (json_of_node n) = Ok (node_received n) /\ json_ok (json_of_node n) = true.
Proof.
  intros [(Hp & Hb & Hl) Hs]. unfold get_node, json_of_node. cbn [json_index lookup list_lookup get_binary].
  rewrite <- Hl, firstn_all, get_int_int32 by (unfold int32; lia). cbn [json_of_id get_binary]. rewrite id_blob_ok.
  rewrite wrap_small by lia. split.
  - destruct n as [i [|p ip|p f ip s] v]; simpl in *; [done|..]; unfold SocketAddress_of_blob; by rewrite Hl.
  - cbn [json_ok forallb]. rewrite !bytes_okb by (apply id_bytes || done). cbn [andb]. by rewrite id_okb, int32_okb by (unfold int32; lia).
Qed.

Lemma json_of_nodes_spec l : Forall node_wf l -> get_nodes (json_of_node <$> l) = Ok (node_received <$> l) /\ json_ok (JArray (json_of_node <$> l)) = true.
Proof.
  induction 1 as [|n l Hn _ [IH1 IH2]]; [done|]. destruct (json_of_node_spec n Hn) as [H1 H2].
  cbn [fmap list_fmap get_nodes json_ok forallb] in *. rewrite H1, IH1, H2. by split.
Qed.

Lemma setWant_getWant q q' : target q' = target q -> setWant (getWant q) q' = q.
Proof. destruct q as [t [] [] []], q' as [t' ? ? ?]; simpl; intros ->; done. Qed.

Lemma getWant_int32 q : int32 (getWant q).
Proof. by destruct q as [t [] [] []]. Qed.

Lemma parseNodes_json l ns : Forall node_wf l -> parseNodes (JArray (json_of_node <$> l)) ns = Ok (ns ++ (node_received <$> l)).
Proof. intros H. unfold parseNodes. by rewrite (proj1 (json_of_nodes_spec l H)). Qed.

Lemma nodes_okb l : Forall node_wf l -> json_ok (JArray (json_of_node <$> l)) = true.
Proof. apply json_of_nodes_spec. Qed.

Lemma get_nonce_json n : length n = NONCE_BYTES -> get_nonce (JBinary n) = Ok n.
Proof. intros H. unfold get_nonce, of_blob. simpl. by rewrite H. Qed.

Lemma binary_okb l : Forall is_byte l -> json_ok (JBinary l) = true.
Proof. apply bytes_okb. Qed.
Lemma string_okb l : Forall is_byte l -> json_ok (JString l) = true.
Proof. apply bytes_okb. Qed.
Lemma number_okb z : int32 z -> json_ok (JNumber z) = true.
Proof. apply int32_okb. Qed.

(** ** Objects as sequences of members *)

Definition one (b : bool) (k : string) (v : json) : members := if b then [(k, v)] else [].
Definition opt {A} (k : string) (f : A -> json) (x : option A) : members := match x with Some a => [(k, f a)] | None => [] end.

Lemma for_items_app {S} (step : string -> json -> S -> result S) l l' s :
  for_items step (l ++ l') s = (s' <-! for_items step l s; for_items step l' s').
Proof. revert s. induction l as [|[k v] l IH]; intros s; [done|]. simpl. destruct (step k v s); [apply IH|done]. Qed.

Lemma for_items_one {S} (step : string -> json -> S -> result S) b k v s :
  for_items step (one b k v) s = if b then step k v s else Ok s.
Proof. destruct b; [|done]. simpl. by destruct (step k v s). Qed.

Lemma for_items_opt {S A} (step : string -> json -> S -> result S) k (f : A -> json) x s :
  for_items step (opt k f x) s = match x with Some a => step k (f a) s | None => Ok s end.
Proof. destruct x as [a|]; [|done]. simpl. by destruct (step k (f a) s). Qed.

(** The objects in the order of their keys. *)
Definition nodes_member (k : string) (l : list NodeInfo) : members := one (negb (bool_decide (l = []))) k (JArray (json_of_node <$> l)).
Definition token_member (t : Z) : members := one (negb (t =? 0)) KEY_RES_TOKEN (JNumber t).

Lemma lookup_response_members r :
  serialize_lookup_response r = nodes_member KEY_RES_NODES4 (nodes4 r) ++ nodes_member KEY_RES_NODES6 (nodes6 r) ++ token_member (lr_token r).
Proof.
  unfold serialize_lookup_response, serialize_nodes, nodes_member, token_member.
  destruct (negb (bool_decide (nodes4 r = []))), (negb (bool_decide (nodes6 r = []))), (negb (lr_token r =? 0)); reflexivity.
Qed.

Lemma peers_members r p peers :
  serialize_peers (p :: peers) (serialize_lookup_response r) =
  nodes_member KEY_RES_NODES4 (nodes4 r) ++ nodes_member KEY_RES_NODES6 (nodes6 r) ++
  [(KEY_RES_PEERS, JArray (json_of_id (p_publicKey p) :: (json_of_peer <$> p :: peers)))] ++ token_member (lr_token r).
Proof.
  rewrite lookup_response_members. unfold serialize_peers, nodes_member, token_member.
  destruct (negb (bool_decide (nodes4 r = []))), (negb (bool_decide (nodes6 r = []))), (negb (lr_token r =? 0)); reflexivity.
Qed.

Lemma value_members r v pk nonce sig :
  s_publicKey v = Some pk -> s_nonce v = Some nonce -> s_signature v = Some sig ->
  serialize_value v (serialize_lookup_response r) = Ok ([(KEY_RES_PUBLICKEY, json_of_id pk); (KEY_RES_NONCE, JBinary nonce)] ++
    nodes_member KEY_RES_NODES4 (nodes4 r) ++ nodes_member KEY_RES_NODES6 (nodes6 r) ++ opt KEY_RES_RECIPIENT json_of_id (s_recipient v) ++
    one (0 <=? s_sequenceNumber v) KEY_RES_SEQ (JNumber (s_sequenceNumber v)) ++ [(KEY_RES_SIGNATURE, JBinary sig)] ++
    token_member (lr_token r) ++ one (negb (bool_decide (s_value v = []))) KEY_RES_VALUE (JBinary (s_value v))).
Proof.
  intros E1 E2 E3. rewrite lookup_response_members. unfold serialize_value, nodes_member, token_member. rewrite E1, E2, E3. cbn [need].
  destruct (negb (bool_decide (nodes4 r = []))), (negb (bool_decide (nodes6 r = []))), (negb (lr_token r =? 0)), (s_recipient v),
    (0 <=? s_sequenceNumber v), (negb (bool_decide (s_value v = []))); reflexivity.
Qed.

Lemma unsigned_value_members r v :
  s_publicKey v = None ->
  serialize_value v (serialize_lookup_response r) = Ok (nodes_member KEY_RES_NODES4 (nodes4 r) ++ nodes_member KEY_RES_NODES6 (nodes6 r) ++
    token_member (lr_token r) ++ one (negb (bool_decide (s_value v = []))) KEY_RES_VALUE (JBinary (s_value v))).
Proof.
  intros E1. rewrite lookup_response_members. unfold serialize_value, nodes_member, token_member. rewrite E1.
  destruct (negb (bool_decide (nodes4 r = []))), (negb (bool_decide (nodes6 r = []))), (negb (lr_token r =? 0)),
    (negb (bool_decide (s_value v = []))); reflexivity.
Qed.

Lemma store_members s pk nonce sig :
  s_publicKey (sv_value s) = Some pk -> s_nonce (sv_value s) = Some nonce -> s_signature (sv_value s) = Some sig ->
  serialize_store s = Ok (one (0 <=? expectedSequenceNumber s) KEY_REQ_CAS (JNumber (expectedSequenceNumber s)) ++
    [(KEY_REQ_PUBLICKEY, json_of_id pk); (KEY_REQ_NONCE, JBinary nonce)] ++ opt KEY_REQ_RECIPIENT json_of_id (s_recipient (sv_value s)) ++
    one (0 <=? s_sequenceNumber (sv_value s)) KEY_REQ_SEQ (JNumber (s_sequenceNumber (sv_value s))) ++
    [(KEY_REQ_SIGNATURE, JBinary sig); (KEY_REQ_TOKEN, JNumber (sv_token s)); (KEY_REQ_VALUE, JBinary (s_value (sv_value s)))]).
Proof.
  intros E1 E2 E3. unfold serialize_store. rewrite E1, E2, E3. cbn [need].
  destruct (0 <=? expectedSequenceNumber s), (s_recipient (sv_value s)), (0 <=? s_sequenceNumber (sv_value s)); reflexivity.
Qed.

Lemma unsigned_store_members s :
  s_publicKey (sv_value s) = None ->
  serialize_store s = Ok [(KEY_REQ_TOKEN, JNumber (sv_token s)); (KEY_REQ_VALUE, JBinary (s_value (sv_value s)))].
Proof. intros E1. unfold serialize_store. by rewrite E1. Qed.

Lemma announce_members a :
  serialize_announce a = one (negb (bool_decide (an_alternativeURL a = []))) KEY_REQ_ALT (JString (an_alternativeURL a)) ++
    [(KEY_REQ_PORT, JNumber (an_port a)); (KEY_REQ_SIGNATURE, JBinary (an_signature a)); (KEY_REQ_TARGET, json_of_id (peerId a)); (KEY_REQ_TOKEN, JNumber (an_token a))] ++
    opt KEY_REQ_PROXY_ID json_of_id (an_nodeId a).
Proof. unfold serialize_announce. destruct (negb (bool_decide (an_alternativeURL a = []))), (an_nodeId a); reflexivity. Qed.

(** ** Parsing what was serialised *)

Lemma parse_fields_ok {S} name (step : string -> json -> S -> result S) l s : parse_fields name step name (JObject l) s = for_items step l s.
Proof. unfold parse_fields. by rewrite String.eqb_refl. Qed.

Lemma lookup_request_spec {S} (_parse : string -> json -> S -> result S) q s :
  for_items (lookup_request_field _parse) (serialize_lookup_request q) (lookup_request0, s) = Ok (q, s).
Proof.
  change (serialize_lookup_request q) with [(KEY_REQ_TARGET, json_of_id (target q)); (KEY_REQ_WANT, JNumber (getWant q))].
  cbn [for_items]. unfold lookup_request_field at 1. cbn [String.eqb Ascii.eqb Bool.eqb KEY_REQ_TARGET].
  rewrite get_id_json. unfold lookup_request_field at 1. change (KEY_REQ_WANT =? KEY_REQ_TARGET)%string with false.
  change (KEY_REQ_WANT =? KEY_REQ_WANT)%string with true. cbv iota. rewrite get_int_int32 by apply getWant_int32.
  simpl. f_equal. f_equal. by apply setWant_getWant.
Qed.

Section response.
Context {S : Type} (_parse : string -> json -> S -> result S).

Lemma nodes4_parsed l r s : Forall node_wf l ->
  for_items (lookup_response_field _parse) (nodes_member KEY_RES_NODES4 l) (r, s) =
  Ok (MkLookupResponse (nodes4 r ++ (node_received <$> l)) (nodes6 r) (lr_token r), s).
Proof.
  intros Hl. unfold nodes_member. rewrite for_items_one. case_bool_decide as E; cbn [negb].
  - subst l. rewrite app_nil_r. by destruct r.
  - unfold lookup_response_field. rewrite String.eqb_refl, parseNodes_json by done. done.
Qed.

Lemma nodes6_parsed l r s : Forall node_wf l ->
  for_items (lookup_response_field _parse) (nodes_member KEY_RES_NODES6 l) (r, s) =
  Ok (MkLookupResponse (nodes4 r) (nodes6 r ++ (node_received <$> l)) (lr_token r), s).
Proof.
  intros Hl. unfold nodes_member. rewrite for_items_one. case_bool_decide as E; cbn [negb].
  - subst l. rewrite app_nil_r. by destruct r.
  - unfold lookup_response_field. change (KEY_RES_NODES6 =? KEY_RES_NODES4)%string with false.
    rewrite String.eqb_refl, parseNodes_json by done. done.
Qed.

Lemma token_parsed t r s : int32 t -> lr_token r = 0 ->
  for_items (lookup_response_field _parse) (token_member t) (r, s) = Ok (MkLookupResponse (nodes4 r) (nodes6 r) t, s).
Proof.
  intros Ht Hr. unfold token_member. rewrite for_items_one. destruct (Z.eqb_spec t 0) as [->|E]; cbn [negb].
  - destruct r; simpl in *. by subst.
  - unfold lookup_response_field. change (KEY_RES_TOKEN =? KEY_RES_NODES4)%string with false.
    change (KEY_RES_TOKEN =? KEY_RES_NODES6)%string with false. by rewrite String.eqb_refl, get_int_int32.
Qed.

(** A member that is not one of [LookupResponse]. *)
Lemma other_parsed k j r s : (k =? KEY_RES_NODES4)%string = false -> (k =? KEY_RES_NODES6)%string = false -> (k =? KEY_RES_TOKEN)%string = false ->
  lookup_response_field _parse k j (r, s) = (x <-! _parse k j s; Ok (r, x)).
Proof. intros H1 H2 H3. unfold lookup_response_field. by rewrite H1, H2, H3. Qed.

Lemma lookup_response_spec r s : response_wf r ->
  for_items (lookup_response_field _parse) (serialize_lookup_response r) (lookup_response0, s) = Ok (response_received r, s).
Proof.
  intros (H4 & H6 & Ht). rewrite lookup_response_members, for_items_app, nodes4_parsed by done. cbv beta iota.
  rewrite for_items_app, nodes6_parsed by done. cbv beta iota. by rewrite token_parsed.
Qed.
End response.

(** One more part of an object. *)
#[local] Ltac part H := rewrite for_items_app, H by done; cbv beta iota.

Lemma peer_parsed i p l peers : peer_wf i p ->
  parse_peers (json_of_peer p :: l) (bytes i) peers = parse_peers l (bytes i) (peers ++ [PeerInfo.peer_without_key p]).
Proof.
  intros ([[Hp1 Hp2] [Hs Hu]] & <- & _). pose proof (PeerInfo.sent_peer_ok p (conj (conj Hp1 Hp2) (conj Hs Hu))) as E.
  cbn [parse_peers json_of_peer is_array negb json_at lookup list_lookup get_binary json_of_id].
  unfold PeerInfo.sent_peer in E. rewrite get_uint16_number, (wrap_small 16) by lia.
  destruct (PeerInfo.isDelegated p); cbn [is_null get_binary json_of_id]; destruct (alternativeURL p) as [u|]; cbn [is_null get_string default id] in *;
    by rewrite E.
Qed.

Lemma peers_parsed i peers acc : Forall (peer_wf i) peers ->
  parse_peers (json_of_peer <$> peers) (bytes i) acc = Ok (acc ++ (PeerInfo.peer_without_key <$> peers)).
Proof.
  intros H. revert acc. induction H as [|p peers Hp _ IH]; intros acc; [simpl; by rewrite app_nil_r|].
  cbn [fmap list_fmap]. rewrite (peer_parsed i) by done. rewrite IH. by rewrite <- app_assoc.
Qed.

Lemma peers_spec i r p peers : response_wf r -> Forall (peer_wf i) (p :: peers) ->
  for_items (lookup_response_field parse_peers_field) (serialize_peers (p :: peers) (serialize_lookup_response r)) (lookup_response0, []) =
  Ok (response_received r, PeerInfo.peer_without_key <$> (p :: peers)).
Proof.
  intros (H4 & H6 & Ht) Hp. rewrite peers_members. part @nodes4_parsed. part @nodes6_parsed. rewrite for_items_app.
  cbn [for_items]. rewrite other_parsed by done. unfold parse_peers_field. rewrite String.eqb_refl. cbn [negb].
  assert (p_publicKey p = i) as Hi by (inversion Hp as [|? ? (_ & ? & _)]; done).
  change (parse_peers (json_of_id (p_publicKey p) :: (json_of_peer <$> p :: peers)) [] []) with
    (parse_peers (json_of_peer <$> p :: peers) (bytes (p_publicKey p)) []).
  rewrite (peers_parsed (p_publicKey p)) by (by rewrite Hi). cbv beta iota. by rewrite token_parsed.
Qed.

(** A member with its key known: the tests of the keys are computed. *)
#[local] Ltac keys := cbn [String.eqb Ascii.eqb Bool.eqb KEY_RES_PUBLICKEY KEY_RES_RECIPIENT KEY_RES_NONCE KEY_RES_SEQ KEY_RES_SIGNATURE KEY_RES_VALUE
  KEY_RES_TOKEN KEY_REQ_PUBLICKEY KEY_REQ_RECIPIENT KEY_REQ_NONCE KEY_REQ_SIGNATURE KEY_REQ_SEQ KEY_REQ_CAS KEY_REQ_TOKEN KEY_REQ_VALUE
  KEY_REQ_TARGET KEY_REQ_PROXY_ID KEY_REQ_PORT KEY_REQ_ALT KEY_RES_NODES4 KEY_RES_NODES6 KEY_REQ_WANT].
#[local] Ltac field := rewrite ?other_parsed by done; unfold parse_value at 1; keys.

Lemma recipient_parsed x r pk nonce sig seq data :
  for_items (lookup_response_field parse_value) (opt KEY_RES_RECIPIENT json_of_id x) (r, MkSent pk None nonce sig seq data) =
  Ok (r, MkSent pk x nonce sig seq data).
Proof. rewrite for_items_opt. destruct x as [i|]; [|done]. field. by rewrite get_id_json. Qed.

Lemma sequence_parsed seq r pk rec nonce sig data : int32 seq ->
  for_items (lookup_response_field parse_value) (one (0 <=? seq) KEY_RES_SEQ (JNumber seq)) (r, MkSent pk rec nonce sig (-1) data) =
  Ok (r, MkSent pk rec nonce sig (if 0 <=? seq then seq else -1) data).
Proof. intros Hs. rewrite for_items_one. destruct (0 <=? seq); [|done]. field. by rewrite get_int_int32. Qed.

Lemma data_parsed data r pk rec nonce sig seq :
  for_items (lookup_response_field parse_value) (one (negb (bool_decide (data = []))) KEY_RES_VALUE (JBinary data)) (r, MkSent pk rec nonce sig seq []) =
  Ok (r, MkSent pk rec nonce sig seq data).
Proof. rewrite for_items_one. case_bool_decide as E; cbn [negb]; [by rewrite E|]. by field. Qed.

Lemma key_nonce_parsed pk nonce r : length nonce = NONCE_BYTES ->
  for_items (lookup_response_field parse_value) [(KEY_RES_PUBLICKEY, json_of_id pk); (KEY_RES_NONCE, JBinary nonce)] (r, sent0) =
  Ok (r, MkSent (Some pk) None (Some nonce) None (-1) []).
Proof.
  intros Hn. cbn [for_items]. field. rewrite get_id_json. cbv beta iota. field. by rewrite get_nonce_json.
Qed.

Lemma signature_parsed g r pk rec nonce seq data :
  for_items (lookup_response_field parse_value) [(KEY_RES_SIGNATURE, JBinary g)] (r, MkSent pk rec nonce None seq data) =
  Ok (r, MkSent pk rec nonce (Some g) seq data).
Proof. cbn [for_items]. by field. Qed.

Lemma value_spec r v : response_wf r -> sent_wf v -> exists o,
  serialize_value v (serialize_lookup_response r) = Ok o /\
  for_items (lookup_response_field parse_value) o (lookup_response0, sent0) = Ok (response_received r, value_received id v).
Proof.
  intros (H4 & H6 & Ht) (Hv & Hs & Hk). unfold value_received. destruct (s_publicKey v) as [pk|] eqn:Epk.
  - destruct (Hk pk eq_refl) as (nonce & sig & E1 & E2 & E3 & E4 & E5).
    eexists. split; [by apply (value_members r v pk nonce sig)|]. rewrite E1, E4. part key_nonce_parsed.
    part @nodes4_parsed. part @nodes6_parsed. part recipient_parsed. part sequence_parsed. part signature_parsed. part @token_parsed.
    by rewrite data_parsed.
  - eexists. split; [by apply unsigned_value_members|]. part @nodes4_parsed. part @nodes6_parsed. part @token_parsed. unfold sent0.
    by rewrite data_parsed.
Qed.

#[local] Ltac store_field := unfold parse_store_field at 1; keys; cbn [set_value sv_value sv_token expectedSequenceNumber s_publicKey s_recipient s_nonce s_signature s_sequenceNumber s_value].

Lemma store_spec s : int32 (sv_token s) -> int32 (expectedSequenceNumber s) -> sent_wf (sv_value s) -> exists o,
  serialize_store s = Ok o /\ for_items parse_store_field o (MkStore 0 sent0 (-1)) = Ok (store_received s).
Proof.
  intros Ht Hc (Hv & Hs & Hk). unfold store_received, value_received. destruct (s_publicKey (sv_value s)) as [pk|] eqn:Epk.
  - destruct (Hk pk eq_refl) as (nonce & sig & E1 & E2 & E3 & E4 & E5).
    eexists. split; [by apply (store_members s pk nonce sig)|]. rewrite E1, E4, bool_decide_eq_true_2 by eauto.
    rewrite for_items_app, for_items_one. unfold sequence_received.
    assert (forall c, for_items parse_store_field ([(KEY_REQ_PUBLICKEY, json_of_id pk); (KEY_REQ_NONCE, JBinary nonce)] ++
        opt KEY_REQ_RECIPIENT json_of_id (s_recipient (sv_value s)) ++
        one (0 <=? s_sequenceNumber (sv_value s)) KEY_REQ_SEQ (JNumber (s_sequenceNumber (sv_value s))) ++
        [(KEY_REQ_SIGNATURE, JBinary sig); (KEY_REQ_TOKEN, JNumber (sv_token s)); (KEY_REQ_VALUE, JBinary (s_value (sv_value s)))]) (MkStore 0 sent0 c) =
      Ok (MkStore (sv_token s) (MkSent (Some pk) (s_recipient (sv_value s)) (Some nonce) (Some sig)
        (if 0 <=? s_sequenceNumber (sv_value s) then u16 (s_sequenceNumber (sv_value s)) else -1) (s_value (sv_value s))) c)) as H.
    { intros c. rewrite for_items_app. cbn [for_items]. store_field. rewrite get_id_json. store_field. rewrite get_nonce_json by done. cbv beta iota.
      rewrite for_items_app, for_items_opt. destruct (s_recipient (sv_value s)); [store_field; rewrite get_id_json|]; cbv beta iota;
        rewrite for_items_app, for_items_one; (destruct (0 <=? s_sequenceNumber (sv_value s)); [store_field; rewrite get_uint16_number|]); cbv beta iota;
        cbn [for_items]; store_field; cbn [get_binary]; store_field; rewrite get_int_int32 by done; by store_field. }
    destruct (0 <=? expectedSequenceNumber s); [store_field; rewrite get_int_int32 by done|]; cbv beta iota; apply H.
  - eexists. split; [by apply unsigned_store_members|]. rewrite bool_decide_eq_false_2 by (by intros []).
    cbn [for_items]. store_field. rewrite get_int_int32 by done. by store_field.
Qed.

#[local] Ltac announce_field := unfold parse_announce_field at 1; keys; cbn [an_token peerId an_nodeId an_port an_alternativeURL an_signature].

Lemma announce_spec a t p : int32 (an_token a) -> 0 <= an_port a < 2 ^ 16 ->
  for_items parse_announce_field (serialize_announce a) (MkAnnounce t MIN_ID None p [] []) = Ok a.
Proof.
  intros Ht Hp. rewrite announce_members, for_items_app, for_items_one. destruct a as [t0 i n p0 u g]; simpl in Ht, Hp.
  cbn [an_token peerId an_nodeId an_port an_alternativeURL an_signature].
  assert (forall u, for_items parse_announce_field ([(KEY_REQ_PORT, JNumber p0); (KEY_REQ_SIGNATURE, JBinary g); (KEY_REQ_TARGET, json_of_id i); (KEY_REQ_TOKEN, JNumber t0)] ++
    opt KEY_REQ_PROXY_ID json_of_id n) (MkAnnounce t MIN_ID None p u []) = Ok (MkAnnounce t0 i n p0 u g)) as H.
  { intros u'. rewrite for_items_app. cbn [for_items]. announce_field. rewrite get_uint16_number, wrap_small by lia. announce_field. cbn [get_binary].
    announce_field. rewrite get_id_json. announce_field. rewrite get_int_int32 by done. cbv beta iota.
    rewrite for_items_opt. destruct n; [announce_field; by rewrite get_id_json|done]. }
  case_bool_decide as E; cbn [negb].
  - subst u. apply H.
  - announce_field. cbn [get_string]. apply H.
Qed.

Lemma error_spec text code : int32 code ->
  for_items parse_error_field (json_object [(KEY_ERR_CODE, JNumber code); (KEY_ERR_MESSAGE, JString text)]) ([], 0) = Ok (text, code).
Proof.
  intros Hc. change (json_object _) with [(KEY_ERR_CODE, JNumber code); (KEY_ERR_MESSAGE, JString text)]. cbn [for_items].
  unfold parse_error_field at 1. rewrite String.eqb_refl, get_int_int32 by done. done.
Qed.

Lemma find_value_spec q seq : int32 seq ->
  for_items (lookup_request_field parse_sequence) (set_when (0 <=? seq) KEY_RES_SEQ (JNumber seq) (serialize_lookup_request q)) (lookup_request0, -1) =
  Ok (q, sequence_received seq).
Proof.
  intros Hs. unfold set_when, sequence_received. destruct (0 <=? seq); [|apply lookup_request_spec].
  change (json_set KEY_RES_SEQ (JNumber seq) (serialize_lookup_request q)) with ([(KEY_RES_SEQ, JNumber seq)] ++ serialize_lookup_request q).
  rewrite for_items_app. cbn [for_items]. unfold lookup_request_field at 1. keys. unfold parse_sequence. rewrite String.eqb_refl. cbn [negb].
  rewrite get_int_int32 by done. cbv beta iota. apply lookup_request_spec.
Qed.

(** ** The serialised objects are values the library has *)

Definition members_ok (o : members) : Prop := Forall (fun kv => json_ok kv.2 = true) o.

Lemma object_okb o : keys_sorted o = true -> members_ok o -> json_ok (JObject o) = true.
Proof.
  intros H1 H2. cbn [json_ok]. rewrite H1. cbn [andb]. apply forallb_forall. intros x Hx%list_elem_of_In. unfold members_ok in H2. rewrite Forall_forall in H2. auto.
Qed.

Lemma one_ok b k v : (b = true -> json_ok v = true) -> members_ok (one b k v).
Proof. intros H. destruct b; [|constructor]. by constructor; [apply H|constructor]. Qed.

Lemma opt_ok {A} k (f : A -> json) x : (forall a, json_ok (f a) = true) -> members_ok (opt k f x).
Proof. intros H. destruct x; [|constructor]. by constructor; [apply H|constructor]. Qed.

Lemma array_okb l : json_ok (JArray l) = forallb json_ok l.
Proof. done. Qed.

Lemma peer_okb i p : peer_wf i p -> json_ok (json_of_peer p) = true.
Proof.
  intros ([Hp _] & _ & Hs & Hu). unfold json_of_peer. rewrite array_okb. cbn [forallb].
  rewrite id_okb, binary_okb by done. rewrite number_okb by (unfold int32; lia).
  destruct (PeerInfo.isDelegated p); rewrite ?id_okb; (destruct (alternativeURL p) as [u|]; [rewrite (string_okb u) by auto|]); reflexivity.
Qed.

Lemma peers_okb i j peers : json_ok j = true -> Forall (peer_wf i) peers -> json_ok (JArray (j :: (json_of_peer <$> peers))) = true.
Proof.
  intros Hj H. rewrite array_okb. cbn [forallb]. rewrite Hj. cbn [andb]. induction H as [|p peers Hp _ IH]; [done|].
  cbn [fmap list_fmap forallb]. by rewrite (peer_okb i p Hp).
Qed.

#[local] Hint Resolve id_okb nodes_okb number_okb binary_okb string_okb peers_okb one_ok opt_ok : wire.
#[local] Ltac members_tac :=
  repeat first [apply Forall_app; split | apply Forall_cons; split; cbn [snd] | apply Forall_nil; exact I | apply one_ok; intros _ | apply opt_ok; intros ?];
  try solve [eauto with wire].

Lemma request_okb q : json_ok (JObject (serialize_lookup_request q)) = true.
Proof.
  change (serialize_lookup_request q) with [(KEY_REQ_TARGET, json_of_id (target q)); (KEY_REQ_WANT, JNumber (getWant q))].
  apply object_okb; [done|]. pose proof (getWant_int32 q). unfold members_ok. members_tac.
Qed.

Lemma find_value_okb q seq : int32 seq -> json_ok (JObject (set_when (0 <=? seq) KEY_RES_SEQ (JNumber seq) (serialize_lookup_request q))) = true.
Proof.
  intros Hs. unfold set_when. destruct (0 <=? seq); [|apply request_okb].
  change (json_set KEY_RES_SEQ (JNumber seq) (serialize_lookup_request q)) with
    [(KEY_RES_SEQ, JNumber seq); (KEY_REQ_TARGET, json_of_id (target q)); (KEY_REQ_WANT, JNumber (getWant q))].
  apply object_okb; [done|]. pose proof (getWant_int32 q). unfold members_ok. members_tac.
Qed.

Lemma response_okb r : response_wf r -> json_ok (JObject (serialize_lookup_response r)) = true.
Proof.
  intros (H4 & H6 & Ht). rewrite lookup_response_members. apply object_okb.
  - unfold nodes_member, token_member. destruct (negb (bool_decide (nodes4 r = []))), (negb (bool_decide (nodes6 r = []))), (negb (lr_token r =? 0)); reflexivity.
  - unfold members_ok, nodes_member, token_member. members_tac.
Qed.

Lemma peers_response_okb i r peers : response_wf r -> Forall (peer_wf i) peers -> json_ok (JObject (serialize_peers peers (serialize_lookup_response r))) = true.
Proof.
  intros Hr Hp. destruct peers as [|p peers]; [by apply response_okb|]. destruct Hr as (H4 & H6 & Ht). rewrite peers_members. apply object_okb.
  - unfold nodes_member, token_member. destruct (negb (bool_decide (nodes4 r = []))), (negb (bool_decide (nodes6 r = []))), (negb (lr_token r =? 0)); reflexivity.
  - unfold members_ok, nodes_member, token_member. members_tac.
Qed.

Lemma value_okb r v o : response_wf r -> sent_wf v -> serialize_value v (serialize_lookup_response r) = Ok o -> json_ok (JObject o) = true.
Proof.
  intros (H4 & H6 & Ht) (Hv & Hs & Hk). destruct (s_publicKey v) as [pk|] eqn:Epk.
  - destruct (Hk pk eq_refl) as (nonce & sig & E1 & E2 & E3 & E4 & E5). rewrite (value_members r v pk nonce sig) by done. intros [= <-]. apply object_okb.
    + unfold nodes_member, token_member. destruct (negb (bool_decide (nodes4 r = []))), (negb (bool_decide (nodes6 r = []))), (negb (lr_token r =? 0)), (s_recipient v),
        (0 <=? s_sequenceNumber v), (negb (bool_decide (s_value v = []))); reflexivity.
    + unfold members_ok, nodes_member, token_member. members_tac.
  - rewrite unsigned_value_members by done. intros [= <-]. apply object_okb.
    + unfold nodes_member, token_member. destruct (negb (bool_decide (nodes4 r = []))), (negb (bool_decide (nodes6 r = []))), (negb (lr_token r =? 0)),
        (negb (bool_decide (s_value v = []))); reflexivity.
    + unfold members_ok, nodes_member, token_member. members_tac.
Qed.

Lemma store_okb s o : int32 (sv_token s) -> int32 (expectedSequenceNumber s) -> sent_wf (sv_value s) -> serialize_store s = Ok o -> json_ok (JObject o) = true.
Proof.
  intros Ht Hc (Hv & Hs & Hk). destruct (s_publicKey (sv_value s)) as [pk|] eqn:Epk.
  - destruct (Hk pk eq_refl) as (nonce & sig & E1 & E2 & E3 & E4 & E5). rewrite (store_members s pk nonce sig) by done. intros [= <-]. apply object_okb.
    + destruct (0 <=? expectedSequenceNumber s), (s_recipient (sv_value s)), (0 <=? s_sequenceNumber (sv_value s)); reflexivity.
    + unfold members_ok. members_tac.
  - rewrite unsigned_store_members by done. intros [= <-]. apply object_okb; [done|]. unfold members_ok. members_tac.
Qed.

Lemma announce_okb a : int32 (an_token a) -> 0 <= an_port a < 2 ^ 16 -> Forall is_byte (an_alternativeURL a) -> Forall is_byte (an_signature a) ->
  json_ok (JObject (serialize_announce a)) = true.
Proof.
  intros Ht Hp Hu Hg. rewrite announce_members. apply object_okb.
  - destruct (negb (bool_decide (an_alternativeURL a = []))), (an_nodeId a); reflexivity.
  - assert (int32 (an_port a)) by (unfold int32; lia). unfold members_ok. members_tac.
Qed.

(** ** Whole messages *)

Lemma createMessage_type b b0 : createMessage (type b) = Ok b0 -> class_of b0 = class_of b.
Proof. destruct b as [| | | | | | | | | | | |[]]; intros [= <-]; reflexivity. Qed.

Lemma getKeyString_ok b : getKeyString b = Ok (key_of_type (class_of b).1).
Proof. destruct b as [| | | | | | | | | | | |[]]; reflexivity. Qed.

Lemma body_spec b : body_wf b -> exists o b0,
  serialize_body b = Ok o /\ createMessage (type b) = Ok b0 /\
  match o with
  | None => b0 = received_body b
  | Some l => json_ok (JObject l) = true /\ parse_body (key_of_type (class_of b).1) (JObject l) b0 = Ok (received_body b)
  end.
Proof.
  destruct b as [| |q|r|a| |q|r peers|s| |q seq|r v|m text code]; cbn [body_wf]; intros Hb;
    try (eexists None, _; split_and!; reflexivity); cbn [serialize_body].
  - eexists (Some _), _. split_and!; [reflexivity..|apply request_okb|]. cbn [parse_body class_of key_of_type fst].
    unfold parse_lookup_request. by rewrite parse_fields_ok, lookup_request_spec.
  - eexists (Some _), _. split_and!; [reflexivity..|by apply response_okb|]. cbn [parse_body class_of key_of_type fst].
    unfold parse_lookup_response. by rewrite parse_fields_ok, lookup_response_spec.
  - destruct Hb as (H1 & H2 & H3 & H4). eexists (Some _), _. split_and!; [reflexivity..|by apply announce_okb|]. cbn [parse_body class_of key_of_type fst].
    by rewrite parse_fields_ok, announce_spec.
  - eexists (Some _), _. split_and!; [reflexivity..|apply request_okb|]. cbn [parse_body class_of key_of_type fst].
    unfold parse_lookup_request. by rewrite parse_fields_ok, lookup_request_spec.
  - destruct Hb as [H1 [i H2]]. eexists (Some _), _. split_and!; [reflexivity..|by eapply peers_response_okb|]. cbn [parse_body class_of key_of_type fst].
    unfold parse_lookup_response. rewrite parse_fields_ok.
    destruct peers as [|p peers]; [by cbn [serialize_peers]; rewrite lookup_response_spec|by rewrite (peers_spec i)].
  - destruct Hb as (H1 & H2 & H3). destruct (store_spec s H1 H2 H3) as (o & E & Hp). rewrite E.
    eexists (Some _), _. split_and!; [reflexivity..|by eapply store_okb|]. cbn [parse_body class_of key_of_type fst]. by rewrite parse_fields_ok, Hp.
  - eexists (Some _), _. split_and!; [reflexivity..|by apply find_value_okb|]. cbn [parse_body class_of key_of_type fst].
    unfold parse_lookup_request. by rewrite parse_fields_ok, find_value_spec.
  - destruct Hb as [H1 H2]. destruct (value_spec r v H1 H2) as (o & E & Hp). rewrite E.
    eexists (Some _), _. split_and!; [reflexivity..|by eapply value_okb|]. cbn [parse_body class_of key_of_type fst].
    unfold parse_lookup_response. by rewrite parse_fields_ok, Hp.
  - destruct Hb as [H1 H2]. eexists (Some _), (ErrorMessage m [] 0). split_and!; [reflexivity|by destruct m|..].
    + change (json_object _) with [(KEY_ERR_CODE, JNumber code); (KEY_ERR_MESSAGE, JString text)]. apply object_okb; [done|]. unfold members_ok. members_tac.
    + cbn [parse_body class_of key_of_type fst]. by rewrite parse_fields_ok, error_spec.
Qed.

Lemma type_byte b : 0 <= type b < 256.
Proof. destruct b as [| | | | | | | | | | | |[]]; by compute. Qed.

Lemma parse_field_txid z m : int32 z -> parse_field KEY_TXID (JNumber z) m = Ok (MkMessage z (version m) (body m)).
Proof. intros Hz. unfold parse_field. by rewrite String.eqb_refl, get_int_int32. Qed.

Lemma parse_field_version z m : int32 z -> parse_field KEY_VERSION (JNumber z) m = Ok (MkMessage (txid m) z (body m)).
Proof. intros Hz. unfold parse_field. change (KEY_VERSION =? KEY_TXID)%string with false. by rewrite String.eqb_refl, get_int_int32. Qed.

Lemma parse_field_type j m : parse_field KEY_TYPE j m = Ok m.
Proof. done. Qed.

Lemma parse_field_body t j m b : parse_body (key_of_type t) j (body m) = Ok b ->
  parse_field (key_of_type t) j m = Ok (MkMessage (txid m) (version m) b).
Proof. intros H. unfold parse_field. destruct t; simpl in *; by rewrite H. Qed.

Lemma message_spec m : message_wf m -> exists root,
  serializeInternal m = Ok root /\ json_ok (JObject root) = true /\ parse_root (JObject root) = Ok (received m).
Proof.
  intros (Ht & Hv & Hb). destruct (body_spec (body m) Hb) as (o & b0 & E & E0 & H). unfold serializeInternal. rewrite E.
  set (rest := [(KEY_TXID, JNumber (txid m)); (KEY_VERSION, JNumber (version m)); (KEY_TYPE, JNumber (type (body m)))]).
  change (json_set KEY_VERSION _ _) with rest. pose proof (type_byte (body m)) as Hty.
  assert (members_ok rest) as Hrest. { assert (int32 (type (body m))) by (unfold int32; lia). unfold members_ok, rest. members_tac. }
  assert (forall b, for_items parse_field rest (MkMessage 0 0 b) = Ok (MkMessage (txid m) (version m) b)) as Hfor.
  { intros b. unfold rest. cbn [for_items]. rewrite parse_field_txid by done. cbv beta iota. by rewrite parse_field_version. }
  destruct o as [l|].
  - destruct H as [Hok Hp]. rewrite getKeyString_ok. set (k := key_of_type (class_of (body m)).1) in *. exists ((k, JObject l) :: rest). split_and!.
    + unfold k. by destruct (class_of (body m)).1.
    + apply object_okb; [unfold k; by destruct (class_of (body m)).1|]. by apply Forall_cons.
    + unfold parse_root. cbn [is_object negb items].
      assert (json_find KEY_TYPE ((k, JObject l) :: rest) = Some (JNumber (type (body m)))) as -> by (unfold k; by destruct (class_of (body m)).1).
      rewrite get_uint8_number, wrap_small by done. rewrite E0. cbn [for_items]. unfold k.
      erewrite parse_field_body by exact Hp. cbv beta iota. apply Hfor.
  - exists rest. split_and!; [done|by apply object_okb|]. unfold parse_root. cbn [is_object negb items].
    change (json_find KEY_TYPE rest) with (Some (JNumber (type (body m)))). cbv beta iota.
    rewrite get_uint8_number, wrap_small by done. rewrite E0, H. apply Hfor.
Qed.

Lemma wire_spec m : message_wf m -> exists buf, serialize m = Ok buf /\ parse buf = Ok (received m).
Proof.
  intros Hm. destruct (message_spec m Hm) as (root & E & Hok & Hp). unfold serialize, parse. rewrite E. eexists. split; [reflexivity|].
  by rewrite from_cbor_to_cbor.
Qed.

(** ** Values and peers over the wire *)

Definition bytes_of (o : option (list Z)) : Prop := match o with Some l => Forall is_byte l | None => True end.

(** What the members of a value hold, by their types. *)
Definition value_typed (v : Value) : Prop :=
  Forall is_byte (v_data v) /\ bytes_of (v_nonce v) /\ bytes_of (v_signature v) /\ int32 (sequenceNumber v).

Lemma setValue_wf v : value_ok v -> value_typed v -> sent_wf (setValue v (-1)).
Proof.
  intros [Hd Hv] (T1 & T2 & T3 & T4). unfold setValue, isMutable. destruct (v_publicKey v) as [pk|] eqn:Ep.
  - destruct Hv as (Hs & (n & En & Ln) & (g & Eg & Lg)). rewrite bool_decide_eq_true_2 by done. rewrite En, Eg in *.
    split; [done|]. split; [done|]. intros pk' _. by exists n, g.
  - rewrite bool_decide_eq_false_2 by (by intros [? [=]]). split; [done|]. by split.
Qed.

Definition with_sequence (seq : Z) (v : Value) : Value :=
  MkValue (v_publicKey v) (v_recipient v) None (v_nonce v) (v_signature v) (v_data v) seq.

Lemma value_received_ok f v : value_ok v -> (0 <= sequenceNumber v -> 0 <= f (sequenceNumber v)) -> f 0 = 0 ->
  getValue (value_received f (setValue v (-1))) = Ok (with_sequence (f (sequenceNumber v)) v).
Proof.
  intros Hok Hf Hf0. pose proof Hok as [Hd Hv]. destruct (v_publicKey v) as [pk|] eqn:Ep.
  - destruct Hv as (Hs & (n & En & Ln) & (g & Eg & Lg)).
    assert (value_ok (with_sequence (f (sequenceNumber v)) v)) as Hok'.
    { split; [done|]. simpl. rewrite Ep. split; [auto|]. split; [by exists n|by exists g]. }
    change (with_sequence (f (sequenceNumber v)) v) with (without_key (with_sequence (f (sequenceNumber v)) v)).
    rewrite <- (sent_roundtrip _ (-1) Hok'). unfold setValue, isMutable, value_received. simpl. rewrite Ep, bool_decide_eq_true_2 by done.
    simpl. by rewrite (proj2 (Z.leb_le _ _) Hs).
  - assert (sequenceNumber v = 0) as Hz by (by rewrite Hv). unfold setValue, isMutable, value_received.
    rewrite Ep, bool_decide_eq_false_2 by (by intros [? [=]]). unfold getValue, Value_of. cbn. rewrite bool_decide_eq_false_2 by done.
    rewrite Hz, Hf0. unfold with_sequence. by rewrite Hv.
Qed.

Lemma announced_peer_received p id : PeerInfo.peer_ok p -> p_origin p = id ->
  getPeer id (setPeer p (MkAnnounce 0 MIN_ID None 0 [] [])) = Ok (PeerInfo.peer_without_key p).
Proof.
  intros Hp <-. unfold getPeer, setPeer. cbn [an_nodeId peerId an_port an_alternativeURL an_signature].
  rewrite <- (PeerInfo.sent_peer_ok p Hp). unfold PeerInfo.sent_peer, PeerInfo.isDelegated.
  assert (default [] (alternativeURL p) = match alternativeURL p with Some u => u | None => [] end) as -> by (by destruct (alternativeURL p)).
  destruct (decide (p_nodeId p = p_origin p)) as [E|E].
  - rewrite bool_decide_eq_true_2 by done. cbn [negb default]. unfold PeerInfo.PeerInfo_of. rewrite E, !id_length, !Nat.eqb_refl.
    rewrite !(bool_decide_eq_true_2 ([] = [])) by done. rewrite (bool_decide_eq_false_2 (bytes (p_origin p) = [])) by apply bytes_nonempty. done.
  - rewrite bool_decide_eq_false_2 by done. cbn [negb default]. done.
Qed.

(** ** What every parsed message satisfies *)

Lemma for_items_keeps {S} (I : S -> Prop) (step : string -> json -> S -> result S) l s s' :
  (forall k v s s', I s -> step k v s = Ok s' -> I s') -> I s -> for_items step l s = Ok s' -> I s'.
Proof.
  intros HI. revert s. induction l as [|[k v] l IH]; intros s Hs; simpl; [by intros [= <-]|].
  destruct (step k v s) as [s1|] eqn:E; [|done]. eauto.
Qed.

Lemma parse_fields_keeps {S} (I : S -> Prop) name (step : string -> json -> S -> result S) key j s s' :
  (forall k v s s', I s -> step k v s = Ok s' -> I s') -> I s -> parse_fields name step key j s = Ok s' -> I s'.
Proof. intros HI Hs. unfold parse_fields. destruct (_ || _); [done|]. by apply for_items_keeps. Qed.

Definition node_typed (n : NodeInfo) : Prop :=
  0 <= port (sockaddr n) < 2 ^ 16 /\ length (inaddr (sockaddr n)) = inaddrLength (sockaddr n) /\ sockaddr n <> SA_unspec.
Definition response_typed (r : LookupResponse) : Prop := Forall node_typed (nodes4 r) /\ Forall node_typed (nodes6 r) /\ int32 (lr_token r).
Definition sent_typed (v : SentValue) : Prop :=
  int32 (s_sequenceNumber v) /\ forall nonce, s_nonce v = Some nonce -> length nonce = NONCE_BYTES.
Definition peer_typed (p : PeerInfo) : Prop :=
  0 < p_port p < 2 ^ 16 /\ length (p_signature p) = SIGNATURE_BYTES /\ p_privateKey p = None.
Definition store_typed (s : StoreValueRequest) : Prop := int32 (sv_token s) /\ int32 (expectedSequenceNumber s) /\ sent_typed (sv_value s).
Definition announce_typed (a : AnnouncePeerRequest) : Prop := int32 (an_token a) /\ 0 <= an_port a < 2 ^ 16.

Definition body_typed (b : Body) : Prop :=
  match b with
  | FindNodeResponse r => response_typed r
  | FindPeerResponse r peers => response_typed r /\ Forall peer_typed peers
  | AnnouncePeerRequest_ a => announce_typed a
  | StoreValueRequest_ s => store_typed s
  | FindValueRequest q seq => int32 seq
  | FindValueResponse r v => response_typed r /\ sent_typed v
  | ErrorMessage _ text code => int32 code
  | _ => True
  end.

(** Case analysis on the parts a parser takes. *)
#[local] Ltac parts :=
  repeat match goal with
  | H : context [if ?b then _ else _] |- _ => destruct b eqn:?
  | H : context [match ?m with Ok _ => _ | Throw _ => _ end] |- _ => destruct m eqn:?
  | H : Ok _ = Ok _ |- _ => progress simplify_eq
  | H : Throw _ = Ok _ |- _ => discriminate
  end.

Lemma get_int_typed j z : get_int j = Ok z -> int32 z.
Proof. apply get_int_range. Qed.

Lemma get_node_typed j n : get_node j = Ok n -> node_typed n.
Proof.
  unfold get_node. destruct (json_index 0 j) as [x0|]; [|done]. destruct (get_binary x0) as [id0|]; [|done].
  destruct (json_index 1 j) as [x1|]; [|done]. destruct (get_binary x1) as [ip|]; [|done].
  destruct (json_index 2 j) as [x2|]; [|done]. destruct (get_int x2) as [p|]; [|done]. destruct (Id_of_blob id0); [|done].
  pose proof (wrap_bound 16 p ltac:(lia)) as Hw. unfold SocketAddress_of_blob.
  destruct (Nat.eqb_spec (length ip) 4); [intros [= <-]; split; [exact Hw|by split]|].
  destruct (Nat.eqb_spec (length ip) 16); [intros [= <-]; split; [exact Hw|by split]|done].
Qed.

Lemma get_nodes_typed l ns : get_nodes l = Ok ns -> Forall node_typed ns.
Proof.
  revert ns. induction l as [|j l IH]; intros ns; simpl; [intros [= <-]; constructor|]. intros H. parts.
  constructor; [by eapply get_node_typed|by apply IH].
Qed.

Lemma parseNodes_typed j l ns : Forall node_typed l -> parseNodes j l = Ok ns -> Forall node_typed ns.
Proof. intros Hl. destruct j; try done. simpl. intros H. parts. apply Forall_app. split; [done|]. by eapply get_nodes_typed. Qed.

Lemma lookup_request_keeps {S} (I : S -> Prop) (_parse : string -> json -> S -> result S) key j q s q' s' :
  (forall k v s s', I s -> _parse k v s = Ok s' -> I s') -> I s -> parse_lookup_request _parse key j (q, s) = Ok (q', s') -> I s'.
Proof.
  intros HI Hs H. apply (parse_fields_keeps (fun x => I x.2)) in H; [done| |done]. intros k v [q1 s1] [q2 s2] H1 E.
  unfold lookup_request_field in E. simpl in *. parts; eauto.
Qed.

Lemma lookup_response_keeps {S} (I : S -> Prop) (_parse : string -> json -> S -> result S) key j r s r' s' :
  (forall k v s s', I s -> _parse k v s = Ok s' -> I s') -> response_typed r -> I s ->
  parse_lookup_response _parse key j (r, s) = Ok (r', s') -> response_typed r' /\ I s'.
Proof.
  intros HI Hr Hs H. apply (parse_fields_keeps (fun x => response_typed x.1 /\ I x.2)) in H; [done| |done].
  intros k v [r1 s1] [r2 s2] [(H1 & H2 & H3) H4] E. unfold lookup_response_field in E. simpl in *.
  parts; (split; [split_and!|]); simpl; eauto using parseNodes_typed, get_int_typed.
Qed.

Lemma peer_of_typed i n o p u g peer : PeerInfo.PeerInfo_of i [] n o p u g = Ok peer -> peer_typed peer.
Proof.
  unfold PeerInfo.PeerInfo_of. destruct (negb (length i =? _)%nat); [done|]. rewrite (bool_decide_eq_true_2 ([] = [])) by done. cbn [negb andb].
  destruct (negb (length n =? _)%nat); [done|]. destruct (negb (bool_decide (o = [])) && _); [done|].
  destruct (Z.leb_spec (u16 p) 0); [done|]. destruct (Z.ltb_spec 65535 (u16 p)); [done|]. cbn [orb].
  destruct (Nat.eqb_spec (length g) SIGNATURE_BYTES) as [Hg|]; [|done]. cbn [negb].
  destruct (PeerInfo.normal_url u); [|done]. intros [= <-]. split; simpl; [lia|done].
Qed.

Lemma parse_peers_typed l i acc peers : Forall peer_typed acc -> parse_peers l i acc = Ok peers -> Forall peer_typed peers.
Proof.
  revert i acc. induction l as [|j l IH]; intros i acc Ha; [by intros [= <-]|]. cbn [parse_peers]. destruct (negb (is_array j)).
  { destruct (get_binary j); [|done]. by apply IH. }
  intros H. repeat match type of H with context [match ?m with Ok _ => _ | Throw _ => _ end] => destruct m eqn:?; [|done] end.
  eapply IH; [|exact H]. apply Forall_app. split; [done|]. constructor; [|constructor]. by eapply peer_of_typed.
Qed.

Lemma parse_value_typed k j v v' : sent_typed v -> parse_value k j v = Ok v' -> sent_typed v'.
Proof.
  intros [H1 H2] H. unfold parse_value, get_nonce, of_blob in H. parts; split; simpl; eauto using get_int_typed.
  intros nonce [= <-]. by apply Nat.eqb_eq.
Qed.

Lemma uint16_int32 j z : get_uint16 j = Ok z -> int32 z.
Proof. intros H%get_uint16_range. unfold int32. lia. Qed.

Lemma parse_store_typed k j s s' : store_typed s -> parse_store_field k j s = Ok s' -> store_typed s'.
Proof.
  intros (H1 & H2 & H3 & H4) H. unfold parse_store_field, get_nonce, of_blob in H. cbv zeta in H. parts; (split; [|split; [|split]]); simpl; eauto using get_int_typed, uint16_int32.
  intros nonce [= <-]. by apply Nat.eqb_eq.
Qed.

Lemma parse_announce_typed k j a a' : announce_typed a -> parse_announce_field k j a = Ok a' -> announce_typed a'.
Proof.
  intros (H1 & H2) H. unfold parse_announce_field in H. parts; split; simpl; eauto using get_int_typed, get_uint16_range.
Qed.

Lemma parse_body_typed key j b b' : body_typed b -> parse_body key j b = Ok b' -> body_typed b' /\ class_of b' = class_of b.
Proof.
  intros Hb. destruct b as [| |q|r|a| |q|r peers|s| |q seq|r v|m text code]; simpl; try (by intros [= <-]); intros H.
  - destruct (parse_lookup_request _ _ _ _) as [[q' s']|]; [|done]. by injection H as <-.
  - destruct (parse_lookup_response _ _ _ _) as [[r' s']|] eqn:E; [|done]. injection H as <-.
    eapply (lookup_response_keeps (fun _ => True)) in E as [? _]; done.
  - destruct (parse_fields _ _ _ _ _) as [a'|] eqn:E; [|done]. injection H as <-. split; [|done].
    by eapply (parse_fields_keeps announce_typed); [apply parse_announce_typed| |exact E].
  - destruct (parse_lookup_request _ _ _ _) as [[q' s']|]; [|done]. by injection H as <-.
  - destruct (parse_lookup_response _ _ _ _) as [[r' s']|] eqn:E; [|done]. injection H as <-. destruct Hb as [Hr Hp].
    eapply (lookup_response_keeps (Forall peer_typed)) in E; [done| |done|done].
    intros k v l l' Hl. unfold parse_peers_field. destruct v; try done. destruct (negb _); [done|]. by apply parse_peers_typed.
  - destruct (parse_fields _ _ _ _ _) as [a'|] eqn:E; [|done]. injection H as <-. split; [|done].
    by eapply (parse_fields_keeps store_typed); [apply parse_store_typed| |exact E].
  - destruct (parse_lookup_request _ _ _ _) as [[q' s']|] eqn:E; [|done]. injection H as <-. split; [|done].
    eapply (lookup_request_keeps int32); [|exact Hb|exact E]. intros k v z z' Hz. unfold parse_sequence. destruct (negb _); [done|]. apply get_int_typed.
  - destruct (parse_lookup_response _ _ _ _) as [[r' s']|] eqn:E; [|done]. injection H as <-. destruct Hb as [Hr Hp].
    by eapply (lookup_response_keeps sent_typed) in E; [|apply parse_value_typed|..].
  - destruct (parse_fields _ _ _ _ _) as [[t' c']|] eqn:E; [|done]. injection H as <-. split; [|done].
    apply (parse_fields_keeps (fun e => int32 e.2)) in E; [done| |done]. intros k v [t1 c1] [t2 c2] Hc E1. unfold parse_error_field in E1. simpl in *.
    parts; eauto using get_int_typed.
Qed.

Lemma createMessage_spec t b : int32 uninit_token -> 0 <= uninit_port < 2 ^ 16 -> createMessage t = Ok b ->
  body_typed b /\ ofType t = Ok (class_of b).1 /\ ofMethod t = Ok (class_of b).2 /\ ((class_of b).1 <> ERR -> (class_of b).2 <> UNKNOWN).
Proof.
  intros Hu Hp. unfold createMessage. destruct (ofType t) as [ty|] eqn:E1; [|done]. destruct (ofMethod t) as [me|] eqn:E2; [|done].
  assert (response_typed lookup_response0) as Hr by (by repeat constructor).
  assert (sent_typed sent0) as Hs by (by split).
  destruct ty, me; simpl; intros H; try discriminate; injection H as <-; split_and!; try done; by split_and!.
Qed.

Lemma parse_field_typed k v m m' : int32 (txid m) -> int32 (version m) -> body_typed (body m) -> parse_field k v m = Ok m' ->
  int32 (txid m') /\ int32 (version m') /\ body_typed (body m') /\ class_of (body m') = class_of (body m).
Proof.
  intros H1 H2 H3 H. unfold parse_field in H. destruct (k =? KEY_TXID)%string.
  { destruct (get_int v) eqn:E; [|done]. injection H as <-. apply get_int_typed in E. by split_and!. }
  destruct (k =? KEY_VERSION)%string.
  { destruct (get_int v) eqn:E; [|done]. injection H as <-. apply get_int_typed in E. by split_and!. }
  destruct (_ || _); [|by injection H as <-]. destruct (parse_body k v (body m)) as [b|] eqn:E; [|done]. injection H as <-.
  apply parse_body_typed in E as [? ?]; [|done]. by split_and!.
Qed.

(** ** Properties *)

(** C5: Every message the program can make is serialised without an exception, and
    parsing the bytes gives the message of the same class, with everything in it
    but what the encoding leaves out ([received]). *)
Theorem message_roundtrip (m : Message) :
  message_wf m ->
  exists buf, serialize m = Ok buf /\ parse buf = Ok (received m) /\
    getType (body (received m)) = getType (body m) /\ getMethod (body (received m)) = getMethod (body m).
Proof.
  intros Hm. destruct (wire_spec m Hm) as (buf & E1 & E2). exists buf. split; [done|]. split; [done|].
  unfold received. cbn [body]. by destruct (body m).
Qed.

(** What a node gets of a value: a response to a lookup brings the value itself,
    without its private key; a request to store brings the value with the last 16
    bits of its sequence number, so that values with sequence numbers from 65536 on
    arrive changed. *)
Theorem value_transmission (v : Value) (r : LookupResponse) (token tx ver : Z) :
  value_ok v -> value_typed v -> response_wf r -> int32 token -> int32 tx -> int32 ver ->
  (exists buf s, serialize (MkMessage tx ver (StoreValueRequest_ (StoreValueRequest_new v token))) = Ok buf /\
    parse buf = Ok (MkMessage tx ver (StoreValueRequest_ s)) /\ sv_token s = token /\
    getValue (sv_value s) = Ok (with_sequence (u16 (sequenceNumber v)) v)) /\
  (exists buf s, serialize (MkMessage tx ver (FindValueResponse r (setValue v (-1)))) = Ok buf /\
    parse buf = Ok (MkMessage tx ver (FindValueResponse (response_received r) s)) /\ getValue s = Ok (without_key v)).
Proof.
  intros Hv Ht Hr Htok Htx Hver. pose proof (setValue_wf v Hv Ht) as Hs. split.
  - destruct (wire_spec (MkMessage tx ver (StoreValueRequest_ (StoreValueRequest_new v token)))) as (buf & E1 & E2); [by split_and!|].
    exists buf, (store_received (StoreValueRequest_new v token)). split_and!; [done..|].
    apply value_received_ok; [done| |done]. intros _. by apply wrap_bound.
  - destruct (wire_spec (MkMessage tx ver (FindValueResponse r (setValue v (-1))))) as (buf & E1 & E2); [by split_and!|].
    exists buf, (value_received id (setValue v (-1))). split_and!; [done..|]. by apply value_received_ok.
Qed.

(** A peer that a node announces for itself arrives complete but for its
    private key; whoever announces a peer is taken for its origin. *)
Theorem peer_announcement (p : PeerInfo) (id : Id) (token tx ver : Z) :
  PeerInfo.peer_ok p -> Forall is_byte (p_signature p) -> (forall u, alternativeURL p = Some u -> Forall is_byte u) ->
  int32 token -> int32 tx -> int32 ver ->
  exists buf a, serialize (MkMessage tx ver (AnnouncePeerRequest_ (setPeer p (MkAnnounce token MIN_ID None 0 [] [])))) = Ok buf /\
    parse buf = Ok (MkMessage tx ver (AnnouncePeerRequest_ a)) /\ an_token a = token /\
    (p_origin p = id -> getPeer id a = Ok (PeerInfo.peer_without_key p)) /\
    (forall q, getPeer id a = Ok q -> p_origin q = id /\ p_publicKey q = p_publicKey p).
Proof.
  intros Hp Hg Hu Ht Htx Hver. set (a := setPeer p (MkAnnounce token MIN_ID None 0 [] [])).
  destruct (wire_spec (MkMessage tx ver (AnnouncePeerRequest_ a))) as (buf & E1 & E2).
  { split_and!; [done..|]. destruct Hp as [Hp _]. split_and!; simpl; [done|lia..| |done].
    destruct (alternativeURL p) as [u|] eqn:Eu; [by apply Hu|constructor]. }
  exists buf, a. split_and!; [done..| |].
  - intros Ho. by apply (announced_peer_received p id Hp).
  - intros q. unfold getPeer, PeerInfo.PeerInfo_of. rewrite (bool_decide_eq_false_2 (bytes id = [])) by apply bytes_nonempty.
    rewrite !id_length, !Nat.eqb_refl. cbn [negb andb]. rewrite (bool_decide_eq_true_2 ([] = [])) by done. cbn [negb andb].
    destruct (_ || _); [done|]. destruct (negb _); [done|]. destruct (PeerInfo.normal_url _); [|done].
    intros [= <-]. simpl. by rewrite !PeerInfo.mk_id_bytes.
Qed.

(** C33: Whatever bytes arrive, a message that [parse] returns has the class its type
    byte names (an error message may have an unknown method, the others not), and all
    its numbers, addresses, nonces and peers fit their types. *)
Theorem parsed_messages_typed (buf : list Z) (m : Message) :
  int32 uninit_token -> 0 <= uninit_port < 2 ^ 16 -> parse buf = Ok m ->
  int32 (txid m) /\ int32 (version m) /\ body_typed (body m) /\
  exists root y t, from_cbor buf = Some (JObject root) /\ json_find KEY_TYPE root = Some y /\ get_uint8 y = Ok t /\
    ofType t = Ok (class_of (body m)).1 /\ ofMethod t = Ok (class_of (body m)).2 /\
    ((class_of (body m)).1 <> ERR -> (class_of (body m)).2 <> UNKNOWN).
Proof.
  intros Hu Hp. unfold parse. destruct (from_cbor buf) as [j|] eqn:Ej; [|done]. unfold parse_root.
  destruct j as [| | | | | | |root]; try done. cbn [is_object negb items]. destruct (json_find KEY_TYPE root) as [y|] eqn:Ey; [|done].
  destruct (get_uint8 y) as [t|] eqn:Et; [|done]. destruct (createMessage t) as [b|] eqn:Eb; [|done].
  destruct (createMessage_spec t b Hu Hp Eb) as (H1 & H2 & H3 & H4). intros H.
  apply (for_items_keeps (fun m => int32 (txid m) /\ int32 (version m) /\ body_typed (body m) /\ class_of (body m) = class_of b)) in H.
  - destruct H as (K1 & K2 & K3 & ->). split; [exact K1|]. split; [exact K2|]. split; [exact K3|]. by exists root, y, t.
  - intros k v m1 m2 (K1 & K2 & K3 & K4) E. destruct (parse_field_typed k v m1 m2 K1 K2 K3 E) as (? & ? & ? & ->). by split_and!.
  - by split_and!.
Qed.

(** A lookup response with a node of fewer than three elements makes the parser
    read behind the end of an array: the elements are taken without a check. *)
Theorem short_node_out_of_bounds (l : list (list Z)) (tx : Z) :
  (length l < 3)%nat -> Forall (Forall is_byte) l -> int32 tx ->
  let root := JObject [(KEY_RESPONSE, JObject [(KEY_RES_NODES4, JArray [JArray (JBinary <$> l)])]); (KEY_TXID, JNumber tx);
                       (KEY_TYPE, JNumber (type (FindNodeResponse lookup_response0)))] in
  json_ok root = true /\ parse (to_cbor root) = Throw Out_of_bounds.
Proof.
  intros Hl Hb Ht root. assert (json_ok root = true) as Hok.
  { unfold root. apply object_okb; [done|]. unfold members_ok. members_tac. apply object_okb; [done|]. unfold members_ok. members_tac.
    rewrite array_okb. cbn [forallb]. rewrite array_okb, andb_true_r. apply forallb_forall.
    intros x [b [-> Hb']]%list_elem_of_In%list_elem_of_fmap. apply binary_okb. rewrite Forall_forall in Hb. auto. }
  split; [done|]. unfold parse. rewrite from_cbor_to_cbor by done. unfold parse_root, root. cbn [is_object negb items].
  change (json_find KEY_TYPE _) with (Some (JNumber (type (FindNodeResponse lookup_response0)))). cbv beta iota. rewrite get_uint8_number.
  change (createMessage _) with (Ok (FindNodeResponse lookup_response0)). cbn [for_items].
  destruct l as [|x [|y [|z l]]]; [done..|simpl in Hl; lia].
Qed.

(** A request to announce a peer that lacks a member keeps what the memory held for it. *)
Lemma announce_uninitialised (tx : Z) : int32 tx ->
  parse (to_cbor (JObject [(KEY_REQUEST, JObject []); (KEY_TXID, JNumber tx); (KEY_TYPE, JNumber 0x23)])) =
  Ok (MkMessage tx 0 (AnnouncePeerRequest_ (MkAnnounce uninit_token MIN_ID None uninit_port [] []))).
Proof.
  intros Ht. unfold parse. rewrite from_cbor_to_cbor.
  - unfold parse_root. cbn [is_object negb items]. change (json_find KEY_TYPE _) with (Some (JNumber 0x23)). cbv beta iota.
    rewrite get_uint8_number. change (u8 35) with 35. change (createMessage 35) with (Ok (AnnouncePeerRequest_ (MkAnnounce uninit_token MIN_ID None uninit_port [] []))).
    cbn [for_items]. change (parse_field KEY_REQUEST _ _) with (Ok (MkMessage 0 0 (AnnouncePeerRequest_ (MkAnnounce uninit_token MIN_ID None uninit_port [] [])))).
    cbv beta iota. by rewrite parse_field_txid.
  - apply object_okb; [done|]. unfold members_ok. members_tac.
Qed.
End wire.
End Message.

(** ** Witnesses *)

#[local] Existing Instances toy_sodium toy_json.

(** A response with a node and a token. *)
Definition response0 : Message.LookupResponse :=
  Message.MkLookupResponse [MkNodeInfo MAX_ID (SA_in 39001 [192; 168; 8; 100]) 5] [] 77.

Lemma response0_wf : Message.response_wf response0.
Proof.
  split; [|by split; [constructor|]]. repeat constructor; simpl; try lia; done.
Qed.

Lemma message_roundtrip_witness :
  exists buf, Message.serialize (Message.MkMessage 9 1 (Message.FindNodeResponse response0)) = Ok buf /\
    Message.parse 0 0 buf = Ok (Message.received (Message.MkMessage 9 1 (Message.FindNodeResponse response0))).
Proof.
  destruct (Message.message_roundtrip 0 0 (Message.MkMessage 9 1 (Message.FindNodeResponse response0))) as (buf & H1 & H2 & _).
  - split; [by split|]. split; [by split|]. exact response0_wf.
  - exists buf. by split.
Defined.

Definition value0 : Value := MkValue (Some MAX_ID) None None (Some (replicate 24 7)) (Some (replicate 64 1)) [42] 65541.

Lemma value_transmission_witness :
  exists buf s, Message.parse 0 0 buf = Ok (Message.MkMessage 9 1 (Message.StoreValueRequest_ s)) /\
    Value.getValue (Message.sv_value s) = Ok (Message.with_sequence 5 value0).
Proof.
  destruct (Message.value_transmission 0 0 value0 response0 77 9 1) as [(buf & s & _ & H1 & _ & H2) _].
  - split; [done|]. simpl. split; [lia|]. split; [by eexists|by eexists].
  - split; [|split; [|split; [|by split]]]; simpl; repeat constructor; lia.
  - exact response0_wf.
  - by split.
  - by split.
  - by split.
  - exists buf, s. split; [exact H1|exact H2].
Defined.

Definition peer0 : PeerInfo := MkPeer MAX_ID None MAX_ID MIN_ID 39001 None (replicate 64 1).

Lemma peer_announcement_witness :
  exists buf a, Message.parse 0 0 buf = Ok (Message.MkMessage 9 1 (Message.AnnouncePeerRequest_ a)) /\
    Message.getPeer MIN_ID a = Ok (PeerInfo.peer_without_key peer0).
Proof.
  destruct (Message.peer_announcement 0 0 peer0 MIN_ID 77 9 1) as (buf & a & _ & H1 & _ & H2 & _).
  - split; [simpl; lia|]. split; [done|]. discriminate.
  - simpl. repeat constructor; lia.
  - discriminate.
  - by split.
  - by split.
  - by split.
  - exists buf, a. split; [exact H1|]. apply H2. reflexivity.
Defined.

Lemma parsed_messages_typed_witness :
  exists buf m, Message.parse 0 0 buf = Ok m /\ Message.body_typed (Message.body m).
Proof.
  destruct (Message.wire_spec 0 0 (Message.MkMessage 9 1 (Message.FindNodeResponse response0))) as (buf & _ & H).
  { split; [by split|]. split; [by split|]. exact response0_wf. }
  eexists buf, _. split; [exact H|].
  apply (Message.parsed_messages_typed 0 0 buf _); [by split|lia|exact H].
Defined.

Lemma short_node_out_of_bounds_witness :
  exists buf, Message.parse 0 0 buf = Throw Out_of_bounds.
Proof.
  eexists. apply (Message.short_node_out_of_bounds 0 0 [[1; 2]] 9); [simpl; lia|repeat constructor; lia|by split].
Defined.
