(* ===== verification/Configurations.v ===== *)
(** * Configuration: addresses as texts ([src/core/utils/socket_address.cc],
    [src/core/utils/addr.cc]), [jsonToAny] ([src/core/utils/json_to_any.cc]) and the
    builder of [src/core/default_configuration.cc]

    Texts are lists of characters as bytes.  The resolver and the printer of
    addresses of the C library, its list of network interfaces, the environment and
    the file system are interfaces.  [std::any] is the type [Any]: a value with the
    type it was made of.  The operations of the builder pass its state on, also when
    they throw: what was set before stays set.

    [Undefined_behaviour] is a failed assertion, a null pointer or the use of memory
    that was not written. *)

From Stdlib Require Import String.
From stdpp Require Import strings.
From S2P Require Import Prelude Ids Addresses Entries Values Texts Json.

#[local] Open Scope Z_scope.
#[local] Open Scope carrier_scope.

(** ** Numbers as texts: [std::to_string] *)

Fixpoint dec_digits (fuel : nat) (n : Z) (acc : list Z) : list Z :=
  match fuel with
  | O => acc
  | S fuel => let acc := (48 + n mod 10) :: acc in if n <? 10 then acc else dec_digits fuel (n / 10) acc
  end.

Definition to_string (n : Z) : list Z := if n <? 0 then 45 :: dec_digits 20 (- n) [] else dec_digits 20 n [].

(** Reading a number. *)
Definition read_digits (x : Z) (s : list Z) : Z := foldl (fun x d => x * 10 + (d - 48)) x s.

Lemma dec_digits_read fuel n acc : 0 <= n < 10 ^ Z.of_nat fuel -> read_digits 0 (dec_digits fuel n acc) = read_digits n acc.
Proof.
  revert n acc. induction fuel as [|fuel IH]; intros n acc H; [by assert (n = 0) as -> by (simpl in H; lia)|].
  rewrite Nat2Z.inj_succ, Z.pow_succ_r in H by lia. simpl. destruct (Z.ltb_spec n 10).
  - unfold read_digits. simpl. by rewrite Z.mod_small by lia; replace (0 * 10 + (48 + n - 48)) with n by lia.
  - rewrite IH by (split; [apply Z.div_pos; lia|apply Z.div_lt_upper_bound; lia]). unfold read_digits. simpl. f_equal.
    pose proof (Z.div_mod n 10). lia.
Qed.

Lemma to_string_read n : 0 <= n < 10 ^ 20 -> read_digits 0 (to_string n) = n.
Proof. intros H. unfold to_string. rewrite (proj2 (Z.ltb_ge n 0)) by lia. by rewrite dec_digits_read. Qed.

(** ** Addresses as texts *)

(** The address with a port, as the resolver makes it of a number. *)
Definition with_port (p : Z) (a : SocketAddress) : SocketAddress :=
  match a with SA_unspec => SA_unspec | SA_in _ ip => SA_in p ip | SA_in6 _ _ ip _ => SA_in6 p 0 ip 0 end.

(** [getaddrinfo], for numbers only or for all names: its result and the list; the
    text that [inet_ntop] writes; the addresses of [getifaddrs]. *)
Class NetDb := {
  getaddrinfo : bool -> list Z -> list Z -> Z * list SocketAddress;
  ntop : SocketAddress -> list Z;
  ifaddrs : list (option SocketAddress);
  ntop_nonempty a : ntop a <> [];
  getaddrinfo_ntop a p : address_wf a -> sa_empty a = false -> 0 <= p < 65536 ->
    getaddrinfo true (ntop a) (to_string p) = (0, [with_port p a])
}.

Module AddressText.
Section text.
Context {netdb : NetDb}.

Definition NA : list Z := chars "N/A".
Definition INET_ADDRSTRLEN : nat := 16.
Definition NI_MAXHOST : nat := 1025.

(** [inet_ntop] with the size of the buffer *)
Definition inet_ntop (a : SocketAddress) (size : nat) : option (list Z) :=
  if (length (ntop a) <? size)%nat then Some (ntop a) else None.

Definition resolve (host service : list Z) : result (list SocketAddress) :=
  if bool_decide (host = []) || bool_decide (service = []) then Throw Invalid_argument
  else let '(rc, ais) := getaddrinfo false host service in if rc <? 0 then Throw Runtime_error else Ok ais.

Definition resolve_port (host : list Z) (port : Z) : result (list SocketAddress) := resolve host (to_string (u16 port)).

Definition SocketAddress_of_text (ip service : list Z) : result SocketAddress :=
  if bool_decide (ip = []) || bool_decide (service = []) then Throw Invalid_argument
  else
    let '(rc, ais) := getaddrinfo true ip service in
    if negb (rc =? 0) then Throw Runtime_error
    else match ais with a :: _ => Ok a | [] => Throw Undefined_behaviour end.

(** [SocketAddress(const std::string&, in_port_t)]; the port is cut to 16 bits. *)
Definition SocketAddress_of_ip (ip : list Z) (port : Z) : result SocketAddress := SocketAddress_of_text ip (to_string (u16 port)).

Definition host (a : SocketAddress) : list Z := if sa_empty a then NA else default NA (inet_ntop a NI_MAXHOST).

Definition toString (a : SocketAddress) : list Z :=
  if sa_empty a then NA
  else match inet_ntop a NI_MAXHOST with
       | None => NA
       | Some host => host ++ (if port a =? 0 then [] else 58 :: to_string (port a))
       end.

(** [NodeInfo(const std::string&, const std::string&, int)] *)
Definition NodeInfo_of_text `{SodiumHex} (id ip : list Z) (port : Z) : result NodeInfo :=
  match IdText.Id_of_string id with
  | None => Throw Undefined_behaviour
  | Some i => i <-! i; a <-! SocketAddress_of_ip ip port; Ok (MkNodeInfo i a 0)
  end.

(** The loop of [getLocalIpAddresses]: the buffer has the size for IPv4 in both cases. *)
Fixpoint find_local (ipv4 : bool) (l : list (option SocketAddress)) : result (list Z) :=
  match l with
  | [] => Ok []
  | None :: l => find_local ipv4 l
  | Some a :: l =>
      if (ipv4 && (family a =? AF_INET)) || (negb ipv4 && (family a =? AF_INET6)) then
        match inet_ntop a INET_ADDRSTRLEN with
        | None => Throw Undefined_behaviour
        | Some addressBuffer =>
            a <-! SocketAddress_of_ip addressBuffer 0;
            match isAnyUnicast a with
            | None => Throw Undefined_behaviour
            | Some true => Ok addressBuffer
            | Some false => find_local ipv4 l
            end
        end
      else find_local ipv4 l
  end.

Definition getLocalIpAddresses (ipv4 : bool) : result (list Z) := find_local ipv4 ifaddrs.

End text.
End AddressText.

(** ** [std::any] *)

Inductive Any :=
  | A_empty
  | A_null
  | A_bool (b : bool)
  | A_int64 (z : Z)
  | A_uint64 (z : Z)
  | A_double (bits : Z)
  | A_string (s : list Z)
  | A_vector (l : list Any)
  | A_map (l : list (string * Any)).

Module Anys.

Definition is_number_integer (j : json) : bool := match j with JNumber _ => true | _ => false end.
(** Of the numbers without a sign also the first is true. *)
Definition is_number_unsigned (j : json) : bool := match j with JNumber z => 0 <=? z | _ => false end.

Fixpoint jsonToAny (j : json) : Any :=
  match j with
  | JObject l => A_map ((fun kv => (kv.1, jsonToAny kv.2)) <$> l)
  | JArray l => A_vector (jsonToAny <$> l)
  | JString s => A_string s
  | JNumber z =>
      if is_number_integer (JNumber z) then A_int64 (i64 z)
      else if is_number_unsigned (JNumber z) then A_uint64 (u64 z) else A_empty
  | JFloat b => A_double b
  | JBoolean b => A_bool b
  | JNull => A_null
  | JBinary _ => A_empty
  end.

(** [std::any_cast] *)
Definition cast_string (a : Any) : result (list Z) := match a with A_string s => Ok s | _ => Throw Bad_any_cast end.
Definition cast_int64 (a : Any) : result Z := match a with A_int64 z => Ok z | _ => Throw Bad_any_cast end.
Definition cast_map (a : Any) : result (list (string * Any)) := match a with A_map l => Ok l | _ => Throw Bad_any_cast end.

(** [count] and [at] of a map *)
Fixpoint any_find (k : string) (l : list (string * Any)) : option Any :=
  match l with [] => None | (k', v) :: l => if String.eqb k k' then Some v else any_find k l end.

Lemma any_find_json k (l : list (string * json)) :
  any_find k ((fun kv => (kv.1, jsonToAny kv.2)) <$> l) = jsonToAny <$> json_find k l.
Proof. induction l as [|[k' v] l IH]; [done|]. simpl. by destruct (String.eqb k k'). Qed.

End Anys.

(** ** [DefaultConfiguration] and its builder *)

Record DefaultConfiguration := MkConfiguration {
  cf_addr4 : SocketAddress;
  cf_addr6 : SocketAddress;
  cf_storagePath : list Z;
  cf_bootstrapNodes : list NodeInfo;
  cf_addons : gmap (list Z) Any
}.

Record Builder := MkBuilder {
  autoAddr4 : bool;
  autoAddr6 : bool;
  ip4 : list Z;
  ip6 : list Z;
  b_port : Z;
  storagePath : list Z;
  bootstrapNodes : list NodeInfo;
  addons : gmap (list Z) Any;
  b_logger : option Any            (* what [Logger::setDefaultSettings] was given and took *)
}.

(** The environment and the files: the text of the file as JSON, or why there is none. *)
Inductive File := F_missing | F_directory | F_unreadable | F_text (parsed : option json).

(** [open_log] is the constructor of the file sink of spdlog, which throws when the file cannot be opened. *)
Class System := { getenv_HOME : option (list Z); file : list Z -> File; open_log : list Z -> result unit }.

Module Configuration.

#[local] Abbreviation M := (SM Builder).
#[local] Abbreviation skip := (sm_ret ()).

Definition Builder_new : Builder := MkBuilder true false [] [] 39001 [] [] ∅ None.

Definition setAutoIPv4Address (automatic : bool) (b : Builder) : Builder :=
  MkBuilder automatic (autoAddr6 b) (ip4 b) (ip6 b) (b_port b) (storagePath b) (bootstrapNodes b) (addons b) (b_logger b).
Definition setAutoIPv6Address (automatic : bool) (b : Builder) : Builder :=
  MkBuilder (autoAddr4 b) automatic (ip4 b) (ip6 b) (b_port b) (storagePath b) (bootstrapNodes b) (addons b) (b_logger b).
Definition setIPv4Address (ip : list Z) (b : Builder) : Builder :=
  MkBuilder (autoAddr4 b) (autoAddr6 b) ip (ip6 b) (b_port b) (storagePath b) (bootstrapNodes b) (addons b) (b_logger b).
Definition setIPv6Address (ip : list Z) (b : Builder) : Builder :=
  MkBuilder (autoAddr4 b) (autoAddr6 b) (ip4 b) ip (b_port b) (storagePath b) (bootstrapNodes b) (addons b) (b_logger b).
Definition set_port (p : Z) (b : Builder) : Builder :=
  MkBuilder (autoAddr4 b) (autoAddr6 b) (ip4 b) (ip6 b) p (storagePath b) (bootstrapNodes b) (addons b) (b_logger b).
Definition set_path (path : list Z) (b : Builder) : Builder :=
  MkBuilder (autoAddr4 b) (autoAddr6 b) (ip4 b) (ip6 b) (b_port b) path (bootstrapNodes b) (addons b) (b_logger b).
Definition add_bootstrap (n : NodeInfo) (b : Builder) : Builder :=
  MkBuilder (autoAddr4 b) (autoAddr6 b) (ip4 b) (ip6 b) (b_port b) (storagePath b) (bootstrapNodes b ++ [n]) (addons b) (b_logger b).
Definition set_addon (name : list Z) (a : Any) (b : Builder) : Builder :=
  MkBuilder (autoAddr4 b) (autoAddr6 b) (ip4 b) (ip6 b) (b_port b) (storagePath b) (bootstrapNodes b) (<[name := a]> (addons b)) (b_logger b).
Definition set_logger (a : Any) (b : Builder) : Builder :=
  MkBuilder (autoAddr4 b) (autoAddr6 b) (ip4 b) (ip6 b) (b_port b) (storagePath b) (bootstrapNodes b) (addons b) (Some a).

Definition setAutoIPAddress (automatic : bool) (b : Builder) : Builder := setAutoIPv6Address automatic (setAutoIPv4Address automatic b).

Definition setListeningPort (port : Z) : M unit :=
  if (port <=? 0) || (65535 <? port) then sm_lift (Throw Invalid_argument) else sm_modify (set_port port).

Definition reset (b : Builder) : Builder := MkBuilder true false [] [] 39001 [] [] ∅ (b_logger b).

Section system.
Context {netdb : NetDb} {sodiumHex : SodiumHex} {nlohmann : Nlohmann} {system : System}.

(** A path with a tilde anywhere loses its first character. *)
Definition expanduser (path : list Z) : result (list Z) :=
  if bool_decide (126 ∈ path) then
    match getenv_HOME with None => Throw Undefined_behaviour | Some home => Ok (home ++ drop 1 path) end
  else Ok path.

Definition setStoragePath (path : list Z) : M unit :=
  if bool_decide (path = []) then sm_modify (set_path path)
  else path <~ sm_lift (expanduser path); sm_modify (set_path path).

Definition addBootstrap (idstr addr : list Z) (port : Z) : M unit :=
  n <~ sm_lift (AddressText.NodeInfo_of_text idstr addr port); sm_modify (add_bootstrap n).

(** [get<bool>] *)
Definition get_bool (j : json) : result bool := match j with JBoolean b => Ok b | _ => Throw Json_error end.

(** [if (root.contains(k)) ...] *)
Definition when_member (root : json) (k : string) (f : json -> M unit) : M unit :=
  match json_find k (items root) with Some j => f j | None => skip end.

Definition member_or_throw (j : json) (k : string) : M json :=
  match json_find k (items j) with Some x => sm_ret x | None => sm_lift (Throw Invalid_argument) end.

Fixpoint load_bootstraps (l : list json) : M unit :=
  match l with
  | [] => skip
  | j :: l =>
      id <~ member_or_throw j "id"; ip <~ member_or_throw j "address"; port <~ member_or_throw j "port";
      id <~ sm_lift (get_string id); ip <~ sm_lift (get_string ip); port <~ sm_lift (get_int port);
      addBootstrap id ip port;~ load_bootstraps l
  end.

Fixpoint load_addons (l : list json) : M unit :=
  match l with
  | [] => skip
  | j :: l =>
      name <~ member_or_throw j "name"; name <~ sm_lift (get_string name);
      configuration <~ member_or_throw j "configuration";
      sm_modify (set_addon name (Anys.jsonToAny configuration));~ load_addons l
  end.

(** One address family: the flag, and the address if it is enabled. *)
Definition load_family (root : json) (flag address : string) (dflt : bool) (setAuto : bool -> Builder -> Builder)
    (setIp : list Z -> Builder -> Builder) : M unit :=
  enabled <~ sm_lift (match json_find flag (items root) with Some j => get_bool j | None => Ok dflt end);
  sm_modify (setAuto enabled);~
  if enabled : bool then when_member root address (fun j => ip <~ sm_lift (get_string j); sm_modify (setIp ip)) else skip.

(** The exceptions of [Logger::setDefaultSettings]: the value is no map, a setting is no text, or the file of the log
    cannot be opened. *)
Definition logger_setting (k : string) (settings : list (string * Any)) (f : list Z -> result unit) : result unit :=
  match Anys.any_find k settings with Some a => t <-! Anys.cast_string a; f t | None => Ok () end.

Definition logger_settings (value : Any) : result unit :=
  settings <-! Anys.cast_map value;
  _ <-! logger_setting "level" settings (fun _ => Ok ());
  _ <-! logger_setting "logFile" settings (fun f => if bool_decide (f = []) then Ok () else open_log f);
  logger_setting "pattern" settings (fun _ => Ok ()).

(** The part of [load] behind the parsing of the file. *)
Definition load_json (root : json) : M unit :=
  load_family root "ipv4" "address4" true setAutoIPv4Address setIPv4Address;~
  load_family root "ipv6" "address6" false setAutoIPv6Address setIPv6Address;~
  when_member root "port" (fun j => p <~ sm_lift (get_int j); setListeningPort p);~
  when_member root "dataDir" (fun j => p <~ sm_lift (get_string j); setStoragePath p);~
  when_member root "logger" (fun j => sm_lift (logger_settings (Anys.jsonToAny j));~ sm_modify (set_logger (Anys.jsonToAny j)));~
  when_member root "bootstraps" (fun j => match j with JArray l => load_bootstraps l | _ => sm_lift (Throw Invalid_argument) end);~
  when_member root "addons" (fun j => match j with JArray l => load_addons l | _ => sm_lift (Throw Invalid_argument) end).

Definition load (filePath : list Z) : M unit :=
  path <~ sm_lift (expanduser filePath);
  if bool_decide (path = []) then sm_lift (Throw Invalid_argument)
  else match file path with
       | F_missing | F_directory | F_unreadable => sm_lift (Throw Invalid_argument)
       | F_text None => sm_lift (Throw Json_error)
       | F_text (Some root) => load_json root
       end.

(** [DefaultConfiguration::DefaultConfiguration]: one handler around both addresses. *)
Definition DefaultConfiguration_new (ip4 ip6 : list Z) (port : Z) (path : list Z) (nodes : list NodeInfo) (addons : gmap (list Z) Any) : DefaultConfiguration :=
  let none := MkConfiguration SA_unspec SA_unspec path nodes addons in
  match (if bool_decide (ip4 = []) then Ok SA_unspec else AddressText.SocketAddress_of_ip ip4 port) with
  | Throw _ => none
  | Ok a4 =>
      match (if bool_decide (ip6 = []) then Ok SA_unspec else AddressText.SocketAddress_of_ip ip6 port) with
      | Throw _ => MkConfiguration a4 SA_unspec path nodes addons
      | Ok a6 => MkConfiguration a4 a6 path nodes addons
      end
  end.

Definition listeningPort (c : DefaultConfiguration) : Z := if port (cf_addr4 c) =? 0 then port (cf_addr6 c) else port (cf_addr4 c).

Definition build : M DefaultConfiguration :=
  (fun b => if autoAddr4 b && bool_decide (ip4 b = [])
            then (ip <~ sm_lift (AddressText.getLocalIpAddresses true); sm_modify (setIPv4Address ip)) b else skip b);~
  (fun b => if autoAddr6 b && bool_decide (ip6 b = [])
            then (ip <~ sm_lift (AddressText.getLocalIpAddresses false); sm_modify (setIPv6Address ip)) b else skip b);~
  (fun b => (Ok (DefaultConfiguration_new (ip4 b) (ip6 b) (b_port b) (storagePath b) (bootstrapNodes b) (addons b)), b)).

(** ** Configuration files that are in order *)

(** The settings of the logger. *)
Record LoggerSettings := MkLoggerSettings { lg_level : option (list Z); lg_file : option (list Z); lg_pattern : option (list Z) }.

(** The settings of a file; a bootstrap node is its id and its address. *)
Record Settings := MkSettings {
  s_ipv4 : option bool;
  s_address4 : option (list Z);
  s_ipv6 : option bool;
  s_address6 : option (list Z);
  s_port : option Z;
  s_dataDir : option (list Z);
  s_logger : option LoggerSettings;
  s_bootstraps : option (list (Id * SocketAddress));
  s_addons : option (list (list Z * json))
}.

Definition set_opt (k : string) (o : option json) (l : list (string * json)) : list (string * json) :=
  match o with Some v => json_set k v l | None => l end.

Definition bootstrap_json (n : Id * SocketAddress) : json :=
  JObject (json_set "id" (JString (default [] (IdText.toString n.1)))
    (json_set "address" (JString (ntop n.2)) (json_set "port" (JNumber (port n.2)) []))).

Definition addon_json (a : list Z * json) : json := JObject (json_set "name" (JString a.1) (json_set "configuration" a.2 [])).

Definition logger_json (l : LoggerSettings) : json :=
  JObject (set_opt "level" (JString <$> lg_level l) (set_opt "logFile" (JString <$> lg_file l) (set_opt "pattern" (JString <$> lg_pattern l) []))).

Definition settings_json (s : Settings) : json :=
  JObject (set_opt "ipv4" (JBoolean <$> s_ipv4 s) (set_opt "address4" (JString <$> s_address4 s)
    (set_opt "ipv6" (JBoolean <$> s_ipv6 s) (set_opt "address6" (JString <$> s_address6 s)
    (set_opt "port" (JNumber <$> s_port s) (set_opt "dataDir" (JString <$> s_dataDir s)
    (set_opt "logger" (logger_json <$> s_logger s) (set_opt "bootstraps" ((fun l => JArray (bootstrap_json <$> l)) <$> s_bootstraps s)
    (set_opt "addons" ((fun l => JArray (addon_json <$> l)) <$> s_addons s) []))))))))).

Record settings_ok (s : Settings) : Prop := {
  ok_port p : s_port s = Some p -> 0 < p < 65536;
  ok_dataDir d : s_dataDir s = Some d -> 126 ∉ d;
  ok_logger l f : s_logger s = Some l -> lg_file l = Some f -> f <> [] -> open_log f = Ok ();
  ok_bootstraps l : s_bootstraps s = Some l -> Forall (fun n => address_wf n.2 /\ sa_empty n.2 = false) l
}.

Definition bootstrap_node (n : Id * SocketAddress) : NodeInfo := MkNodeInfo n.1 (with_port (port n.2) n.2) 0.

(** What the settings make of a builder. *)
Definition apply_settings (s : Settings) (b : Builder) : Builder :=
  let on4 := default true (s_ipv4 s) in
  let on6 := default false (s_ipv6 s) in
  MkBuilder on4 on6
    (if on4 then default (ip4 b) (s_address4 s) else ip4 b) (if on6 then default (ip6 b) (s_address6 s) else ip6 b)
    (default (b_port b) (s_port s)) (default (storagePath b) (s_dataDir s))
    (bootstrapNodes b ++ (bootstrap_node <$> default [] (s_bootstraps s)))
    (foldl (fun m a => <[a.1 := Anys.jsonToAny a.2]> m) (addons b) (default [] (s_addons s)))
    (match s_logger s with Some l => Some (Anys.jsonToAny (logger_json l)) | None => b_logger b end).

(** ** Lemmas *)

Lemma json_find_opt k k' o l :
  json_find k (set_opt k' o l) = if String.eqb k k' then match o with Some v => Some v | None => json_find k l end else json_find k l.
Proof. destruct o as [v|]; simpl; [by rewrite json_find_set; destruct (String.eqb k k')|by destruct (String.eqb k k')]. Qed.

Lemma to_string_u16 p : 0 <= p < 65536 -> u16 p = p.
Proof. intros H. by apply wrap_small. Qed.

Lemma of_ip_ntop a p : address_wf a -> sa_empty a = false -> 0 <= p < 65536 -> AddressText.SocketAddress_of_ip (ntop a) p = Ok (with_port p a).
Proof.
  intros Hw He Hp. unfold AddressText.SocketAddress_of_ip, AddressText.SocketAddress_of_text. rewrite to_string_u16 by done.
  rewrite bool_decide_eq_false_2 by apply ntop_nonempty.
  rewrite bool_decide_eq_false_2 by (unfold to_string; rewrite (proj2 (Z.ltb_ge p 0)) by lia; intros E; revert E; generalize p; clear;
    assert (forall n p acc, acc <> [] \/ n <> 0%nat -> dec_digits n p acc <> []) as H
      by (induction n as [|n IH]; intros p acc [H|H]; simpl; try done; destruct (p <? 10); try done; apply IH; by left);
    intros p; apply H; by right).
  simpl. by rewrite getaddrinfo_ntop.
Qed.

Lemma load_bootstraps_spec l b :
  Forall (fun n => address_wf n.2 /\ sa_empty n.2 = false) l ->
  load_bootstraps (bootstrap_json <$> l) b =
    (Ok (), MkBuilder (autoAddr4 b) (autoAddr6 b) (ip4 b) (ip6 b) (b_port b) (storagePath b) (bootstrapNodes b ++ (bootstrap_node <$> l)) (addons b) (b_logger b)).
Proof.
  intros H. revert b. induction H as [|[i a] l [Hw He] _ IH]; intros b; [by destruct b; simpl; rewrite app_nil_r|].
  destruct (IdText.id_text_roundtrip i) as (t & _ & Et & _ & Hr & _).
  assert (0 <= port a < 65536) as Hp by apply Hw.
  simpl. unfold member_or_throw, bootstrap_json. cbn [items fst snd]. rewrite !json_find_set. simpl. rewrite Et.
  unfold sm_bind at 1 2 3 4 5 6. simpl. rewrite get_int_number, swrap_small by lia.
  unfold addBootstrap, AddressText.NodeInfo_of_text. rewrite Hr. unfold sm_bind at 1 2, sm_lift. rewrite of_ip_ntop by done. simpl.
  rewrite IH. simpl. by rewrite <- app_assoc.
Qed.

Lemma load_addons_spec l b :
  load_addons (addon_json <$> l) b =
    (Ok (), MkBuilder (autoAddr4 b) (autoAddr6 b) (ip4 b) (ip6 b) (b_port b) (storagePath b) (bootstrapNodes b)
       (foldl (fun m a => <[a.1 := Anys.jsonToAny a.2]> m) (addons b) l) (b_logger b)).
Proof.
  revert b. induction l as [|[name j] l IH]; intros b; [by destruct b|].
  simpl. unfold member_or_throw, addon_json. cbn [items fst snd]. rewrite !json_find_set. simpl.
  unfold sm_bind at 1 2 3 4. simpl. rewrite IH. done.
Qed.

Lemma settings_find s k :
  json_find k (items (settings_json s)) =
    if String.eqb k "ipv4" then JBoolean <$> s_ipv4 s else if String.eqb k "address4" then JString <$> s_address4 s
    else if String.eqb k "ipv6" then JBoolean <$> s_ipv6 s else if String.eqb k "address6" then JString <$> s_address6 s
    else if String.eqb k "port" then JNumber <$> s_port s else if String.eqb k "dataDir" then JString <$> s_dataDir s
    else if String.eqb k "logger" then logger_json <$> s_logger s
    else if String.eqb k "bootstraps" then (fun l => JArray (bootstrap_json <$> l)) <$> s_bootstraps s
    else if String.eqb k "addons" then (fun l => JArray (addon_json <$> l)) <$> s_addons s else None.
Proof.
  unfold settings_json. cbn [items]. rewrite !json_find_opt. simpl json_find.
  repeat match goal with |- context [String.eqb k ?x] => destruct (String.eqb_spec k x) as [->|]; simpl end; try done.
  all: repeat match goal with |- context [match ?o with Some _ => _ | None => _ end] => destruct o end; done.
Qed.

Lemma load_family_spec s flag address dflt setAuto setIp (on : option bool) (ip : option (list Z)) b :
  json_find flag (items (settings_json s)) = JBoolean <$> on -> json_find address (items (settings_json s)) = JString <$> ip ->
  load_family (settings_json s) flag address dflt setAuto setIp b =
    (Ok (), if default dflt on then match ip with Some t => setIp t (setAuto true b) | None => setAuto true b end else setAuto false b).
Proof.
  intros E1 E2. unfold load_family, when_member. rewrite E1, E2. unfold sm_bind, sm_lift, sm_modify, sm_ret. simpl.
  destruct on as [[]|]; simpl; try destruct dflt; destruct ip; done.
Qed.

Lemma expanduser_plain path : 126 ∉ path -> expanduser path = Ok path.
Proof. intros H. unfold expanduser. by rewrite bool_decide_eq_false_2. Qed.

(** A section of the logger with texts only is taken when the file of the log can be opened. *)
Lemma logger_settings_ok l : (forall f, lg_file l = Some f -> f <> [] -> open_log f = Ok ()) -> logger_settings (Anys.jsonToAny (logger_json l)) = Ok ().
Proof.
  intros Hf. unfold logger_settings, logger_json. cbn [Anys.jsonToAny Anys.cast_map]. unfold logger_setting. rewrite !Anys.any_find_json, !json_find_opt. simpl.
  destruct (lg_level l), (lg_file l) as [f|], (lg_pattern l); simpl; try done; (case_bool_decide; [done|by rewrite Hf]).
Qed.

Lemma load_json_spec s b : settings_ok s -> load_json (settings_json s) b = (Ok (), apply_settings s b).
Proof.
  intros [Hp Hd Hg Hb]. unfold load_json.
  unfold sm_bind at 1. rewrite (load_family_spec s _ _ _ _ _ (s_ipv4 s) (s_address4 s)) by by rewrite settings_find.
  unfold sm_bind at 1. rewrite (load_family_spec s _ _ _ _ _ (s_ipv6 s) (s_address6 s)) by by rewrite settings_find.
  unfold when_member. rewrite !settings_find. simpl.
  assert (forall b, match JNumber <$> s_port s with Some j => sm_bind (sm_lift (get_int j)) (fun p => setListeningPort p) | None => skip end b =
    (Ok (), set_port (default (b_port b) (s_port s)) b)) as Ep.
  { intros b'. destruct (s_port s) as [q|] eqn:E; simpl; [|by destruct b']. specialize (Hp q eq_refl).
    unfold sm_bind, sm_lift. rewrite get_int_number, swrap_small by lia. unfold setListeningPort.
    by rewrite (proj2 (Z.leb_gt q 0)), (proj2 (Z.ltb_ge 65535 q)) by lia. }
  assert (forall b, match JString <$> s_dataDir s with Some j => sm_bind (sm_lift (get_string j)) (fun p => setStoragePath p) | None => skip end b =
    (Ok (), set_path (default (storagePath b) (s_dataDir s)) b)) as Ed.
  { intros b'. destruct (s_dataDir s) as [d|] eqn:E; simpl; [|by destruct b']. specialize (Hd d eq_refl).
    unfold sm_bind, sm_lift, setStoragePath. simpl. case_bool_decide; [done|]. unfold sm_bind, sm_lift. by rewrite expanduser_plain. }
  unfold sm_bind at 1. rewrite Ep. unfold sm_bind at 1. rewrite Ed.
  unfold sm_bind at 1. set (b1 := set_path _ _).
  assert (match logger_json <$> s_logger s with
          | Some j => sm_lift (logger_settings (Anys.jsonToAny j));~ sm_modify (set_logger (Anys.jsonToAny j)) | None => skip end b1 =
    (Ok (), match s_logger s with Some l => set_logger (Anys.jsonToAny (logger_json l)) b1 | None => b1 end)) as ->.
  { destruct (s_logger s) as [l|] eqn:E; simpl; [|done]. assert (logger_settings (Anys.jsonToAny (logger_json l)) = Ok ()) as El by (apply logger_settings_ok; intros f Hf Hn; by eapply Hg).
    unfold sm_bind, sm_lift. change (A_map _) with (Anys.jsonToAny (logger_json l)). by rewrite El. }
  unfold sm_bind at 1. set (b2 := match s_logger s with Some _ => _ | None => _ end).
  assert (match (fun l => JArray (bootstrap_json <$> l)) <$> s_bootstraps s with
          | Some j => match j with JArray l => load_bootstraps l | _ => sm_lift (Throw Invalid_argument) end | None => skip end b2 =
    (Ok (), MkBuilder (autoAddr4 b2) (autoAddr6 b2) (ip4 b2) (ip6 b2) (b_port b2) (storagePath b2)
       (bootstrapNodes b2 ++ (bootstrap_node <$> default [] (s_bootstraps s))) (addons b2) (b_logger b2))) as ->.
  { destruct (s_bootstraps s) as [l|] eqn:E; simpl; [by apply load_bootstraps_spec, Hb|]. rewrite app_nil_r. by destruct b2. }
  set (b3 := MkBuilder _ _ _ _ _ _ _ _ _).
  assert (match (fun l => JArray (addon_json <$> l)) <$> s_addons s with
          | Some j => match j with JArray l => load_addons l | _ => sm_lift (Throw Invalid_argument) end | None => skip end b3 =
    (Ok (), MkBuilder (autoAddr4 b3) (autoAddr6 b3) (ip4 b3) (ip6 b3) (b_port b3) (storagePath b3) (bootstrapNodes b3)
       (foldl (fun m a => <[a.1 := Anys.jsonToAny a.2]> m) (addons b3) (default [] (s_addons s))) (b_logger b3))) as ->.
  { destruct (s_addons s) as [l|]; simpl; [by apply load_addons_spec|done]. }
  f_equal. subst b3 b2 b1. unfold apply_settings.
  destruct (default true (s_ipv4 s)), (default false (s_ipv6 s)), (s_address4 s), (s_address6 s), (s_logger s); reflexivity.
Qed.

(** ** Theorems *)

(** The members of a file for an address family that is disabled, or has an address. *)
Definition family_set (flag : option bool) (address : option (list Z)) (a : option SocketAddress) : Prop :=
  match a with
  | None => flag = Some false
  | Some a => flag = Some true /\ address = Some (ntop a) /\ address_wf a /\ sa_empty a = false
  end.

Lemma family_built p ip flag address a (H : family_set flag address a) :
  0 <= p < 65536 -> ip = (if default true flag then default [] address else []) ->
  (if bool_decide (ip = []) then Ok SA_unspec else AddressText.SocketAddress_of_ip ip p) =
    Ok (match a with Some a => with_port p a | None => SA_unspec end).
Proof.
  intros Hp ->. destruct a as [a|]; simpl in H.
  - destruct H as (-> & -> & Hw & He). simpl. rewrite bool_decide_eq_false_2 by apply ntop_nonempty. by apply of_ip_ntop.
  - subst. done.
Qed.

(** A section of the logger that is no object is refused, and a section that is refused
    stops the loading of the file, whatever the rest of it is. *)
Lemma logger_not_object j : (forall l, j <> JObject l) -> logger_settings (Anys.jsonToAny j) = Throw Bad_any_cast.
Proof. destruct j; try done. intros H. by destruct (H l). Qed.

Theorem bad_logger_stops root j e b :
  json_find "logger" (items root) = Some j -> logger_settings (Anys.jsonToAny j) = Throw e -> fst (load_json root b) <> Ok ().
Proof.
  intros Hj He. unfold load_json. unfold when_member at 3. rewrite Hj.
  do 4 (unfold sm_bind at 1; match goal with |- context [match ?m with (_, _) => _ end] => destruct m as [[[]|] ?]; [|done] end).
  unfold sm_bind, sm_lift. by rewrite He.
Qed.

(** C21: A configuration file that is in order, with a section of the logger whose
    settings are texts and whose file can be opened, is loaded, and the configuration that
    is built has its addresses with its port, its data directory, its bootstrap nodes and
    the values of its addons. *)
Theorem config_file_builds path s a4 a6 :
  path <> [] -> 126 ∉ path -> file path = F_text (Some (settings_json s)) -> settings_ok s ->
  family_set (s_ipv4 s) (s_address4 s) a4 -> family_set (s_ipv6 s) (s_address6 s) a6 ->
  let p := default 39001 (s_port s) in
  exists b, load path Builder_new = (Ok (), b) /\
    build b = (Ok (MkConfiguration (match a4 with Some a => with_port p a | None => SA_unspec end)
                     (match a6 with Some a => with_port p a | None => SA_unspec end) (default [] (s_dataDir s))
                     (bootstrap_node <$> default [] (s_bootstraps s))
                     (foldl (fun m a => <[a.1 := Anys.jsonToAny a.2]> m) ∅ (default [] (s_addons s)))), b).
Proof.
  intros Hn Ht Hf Hok H4 H6 p. exists (apply_settings s Builder_new). split.
  { unfold load, sm_bind, sm_lift. rewrite expanduser_plain by done. rewrite bool_decide_eq_false_2, Hf by done. by apply load_json_spec. }
  assert (0 <= p < 65536) as Hp by (subst p; destruct (s_port s) as [q|] eqn:E; simpl; [pose proof (ok_port _ Hok _ E)|]; lia).
  unfold build, sm_bind at 1.
  assert (forall flag address a dflt, family_set flag address a ->
    default dflt flag && bool_decide ((if default dflt flag then default [] address else []) = []) = false) as Hauto.
  { intros flag address [a|] dflt; simpl; [intros (-> & -> & _); simpl; by rewrite bool_decide_eq_false_2 by apply ntop_nonempty|by intros ->]. }
  simpl. rewrite (Hauto _ _ _ _ H4). unfold sm_bind at 1. simpl. rewrite (Hauto _ _ _ _ H6). simpl. unfold DefaultConfiguration_new. fold p.
  assert (default true (s_ipv4 s) = default false (s_ipv4 s)) as E4 by (destruct a4; simpl in H4; [by destruct H4 as [-> _]|by rewrite H4]).
  assert (default true (s_ipv6 s) = default false (s_ipv6 s)) as E6 by (destruct a6; simpl in H6; [by destruct H6 as [-> _]|by rewrite H6]).
  rewrite (family_built p _ _ _ _ H4 Hp eq_refl), (family_built p _ _ _ _ H6 Hp) by by rewrite E6. done.
Qed.

(** An address of IPv4 that is not one leaves a configuration without any address, also
    when the address of IPv6 is in order, and without an error. *)
Theorem invalid_ip4_hides_ip6 b e :
  ip4 b <> [] -> AddressText.SocketAddress_of_ip (ip4 b) (b_port b) = Throw e -> ip6 b <> [] \/ autoAddr6 b = false ->
  exists c, build b = (Ok c, b) /\ cf_addr4 c = SA_unspec /\ cf_addr6 c = SA_unspec /\ listeningPort c = 0.
Proof.
  intros Hn He H6. unfold build, sm_bind. rewrite (bool_decide_eq_false_2 _ Hn), andb_false_r. simpl.
  assert (autoAddr6 b && bool_decide (ip6 b = []) = false) as E6.
  { destruct H6 as [H|H]; [rewrite (bool_decide_eq_false_2 _ H); apply andb_false_r|by rewrite H]. }
  rewrite E6. simpl. unfold DefaultConfiguration_new. rewrite (bool_decide_eq_false_2 _ Hn), He. eexists. split; [done|]. done.
Qed.

(** On a host with an address of IPv6 of sixteen characters or more as its first one the
    automatic address uses a text that was never written. *)
Theorem long_ipv6_unprintable a l b :
  ifaddrs = Some a :: l -> family a = AF_INET6 -> (16 <= length (ntop a))%nat ->
  autoAddr6 b = true -> ip6 b = [] -> autoAddr4 b = false \/ ip4 b <> [] -> build b = (Throw Undefined_behaviour, b).
Proof.
  intros Hi Hf Hl H6 E6 H4. unfold build, sm_bind at 1.
  assert (autoAddr4 b && bool_decide (ip4 b = []) = false) as E4.
  { destruct H4 as [H|H]; [by rewrite H|]. rewrite (bool_decide_eq_false_2 _ H). apply andb_false_r. }
  rewrite E4. unfold sm_ret, sm_bind at 1. rewrite H6, (bool_decide_eq_true_2 _ E6). simpl.
  unfold sm_bind at 1, sm_lift, AddressText.getLocalIpAddresses. rewrite Hi. simpl. rewrite Hf. simpl.
  unfold AddressText.inet_ntop, AddressText.INET_ADDRSTRLEN. by rewrite (proj2 (Nat.ltb_ge (length (ntop a)) 16)) by lia.
Qed.

(** The text of an address is read back as the address; the flow and the scope of an
    address of IPv6 are not part of the text. *)
Theorem address_text_roundtrip a :
  address_wf a -> sa_empty a = false -> (length (ntop a) < AddressText.NI_MAXHOST)%nat ->
  AddressText.SocketAddress_of_ip (AddressText.host a) (port a) = Ok (with_port (port a) a) /\
  (0 < port a -> AddressText.toString a = AddressText.host a ++ 58 :: to_string (port a) /\ read_digits 0 (to_string (port a)) = port a).
Proof.
  intros Hw He Hl. assert (0 <= port a < 65536) as Hp by apply Hw.
  assert (AddressText.inet_ntop a AddressText.NI_MAXHOST = Some (ntop a)) as E
    by (unfold AddressText.inet_ntop; by rewrite (proj2 (Nat.ltb_lt _ _) Hl)).
  unfold AddressText.host, AddressText.toString. rewrite He, E. simpl. split; [by apply of_ip_ntop|]. intros H.
  rewrite (proj2 (Z.eqb_neq (port a) 0)) by lia. split; [done|]. apply to_string_read. lia.
Qed.

End system.
End Configuration.

(** ** Witnesses *)

Section examples.

#[local, refine] Instance toy_netdb (l : list (option SocketAddress)) : NetDb := {
  getaddrinfo _ host service :=
    match host with
    | f :: ip => if f =? AF_INET then (0, [SA_in (read_digits 0 service) ip])
                 else if f =? AF_INET6 then (0, [SA_in6 (read_digits 0 service) 0 ip 0]) else (-2, [])
    | [] => (-2, [])
    end;
  ntop a := family a :: inaddr a;
  ifaddrs := l
}.
Proof.
  - done.
  - intros a p _ He Hp. rewrite to_string_read by lia. by destruct a.
Defined.

Definition config_path : list Z := chars "node.conf".
Definition address1 : SocketAddress := SA_in 8080 [192; 168; 8; 10].

#[local] Existing Instances toy_json hex.

(** A file with the address of IPv4, a port, settings of the logger and an addon. *)
Definition settings1 : Configuration.Settings :=
  Configuration.MkSettings (Some true) (Some (@ntop (toy_netdb []) address1)) (Some false) None (Some 39011) (Some (chars "/var/lib"))
    (Some (Configuration.MkLoggerSettings (Some (chars "debug")) (Some (chars "node.log")) None)) (Some [(MAX_ID, address1)])
    (Some [(chars "ActiveProxy", JObject [("upstreamPort", JNumber 8080)])]).

#[local] Instance toy_system : System := {
  getenv_HOME := Some (chars "/home/me");
  file path := if bool_decide (path = config_path) then F_text (Some (@Configuration.settings_json (toy_netdb []) settings1)) else F_missing;
  open_log f := if bool_decide (f = chars "node.log") then Ok () else Throw Runtime_error
}.

Lemma address1_wf : address_wf address1.
Proof. split; [by simpl|]. split; [|done]. by apply (bool_decide_unpack (Forall is_byte (inaddr address1))); vm_compute. Qed.

Lemma config_file_builds_witness :
  exists b c, @Configuration.load (toy_netdb []) _ _ _ config_path Configuration.Builder_new = (Ok (), b) /\
    @Configuration.build (toy_netdb []) b = (Ok c, b) /\ cf_addr4 c = SA_in 39011 [192; 168; 8; 10] /\ cf_addr6 c = SA_unspec /\
    cf_storagePath c = chars "/var/lib" /\ cf_bootstrapNodes c = [MkNodeInfo MAX_ID address1 0].
Proof.
  destruct (@Configuration.config_file_builds (toy_netdb []) _ _ _ config_path settings1 (Some address1) None) as (b & H1 & H2).
  - discriminate.
  - by apply (bool_decide_unpack (126 ∉ config_path)); vm_compute.
  - reflexivity.
  - split; [intros p [= <-]; lia|intros d [= <-]; by apply (bool_decide_unpack (126 ∉ chars "/var/lib")); vm_compute|intros l f [= <-] [= <-] _; reflexivity|].
    intros l [= <-]. constructor; [|constructor]. split; [exact address1_wf|reflexivity].
  - split; [reflexivity|]. split; [reflexivity|]. split; [exact address1_wf|reflexivity].
  - reflexivity.
  - eexists b, _. split; [exact H1|]. split; [exact H2|].
    split; [reflexivity|]. split; [reflexivity|]. split; reflexivity.
Defined.

Definition builder1 : Builder := MkBuilder true false [1; 2; 3] [AF_INET6] 39001 [] [] ∅ None.

Lemma invalid_ip4_hides_ip6_witness :
  exists c, @Configuration.build (toy_netdb []) builder1 = (Ok c, builder1) /\ cf_addr6 c = SA_unspec.
Proof.
  destruct (@Configuration.invalid_ip4_hides_ip6 (toy_netdb []) builder1 Runtime_error) as (c & H1 & _ & H2 & _);
    [discriminate|vm_compute; reflexivity|right; reflexivity|]. exists c. split; [exact H1|exact H2].
Defined.

Definition address2 : SocketAddress := SA_in6 0 0 (replicate 16 32) 0.

Lemma long_ipv6_unprintable_witness :
  let b := MkBuilder false true [] [] 39001 [] [] ∅ None in
  @Configuration.build (toy_netdb [Some address2]) b = (Throw Undefined_behaviour, b).
Proof.
  intros b. exact (@Configuration.long_ipv6_unprintable (toy_netdb [Some address2]) address2 [] b eq_refl eq_refl ltac:(simpl; lia) eq_refl eq_refl (or_introl eq_refl)).
Defined.

Lemma address_text_roundtrip_witness :
  @AddressText.SocketAddress_of_ip (toy_netdb []) (@AddressText.host (toy_netdb []) address1) 8080 = Ok address1.
Proof.
  exact (proj1 (@Configuration.address_text_roundtrip (toy_netdb []) address1 address1_wf eq_refl ltac:(vm_compute; lia))).
Defined.
End examples.
