(* ===== verification/Printers.v ===== *)
(** * Texts of objects: [toString] of the messages of [src/core/messages], of nodes, peers and values, of the
    entries, buckets and tables, and [Version] of [src/core/version.cc]

    The texts are made for the log, also when nothing is logged: the server makes the
    text of every message that it receives and of every message that it has sent, as an
    argument of [Logger::debug], and outside of its [try] blocks.  A text that cannot be
    made is an exception of the server.

    The texts are those of the default build, without [MSG_PRINT_DETAIL].
    [Undefined_behaviour] is the failed assertion of [Hex::encode] on empty data. *)

From Stdlib Require Import String.
From S2P Require Import Prelude Constants Ids Prefixes Addresses Entries KBuckets RoutingTables Values Tasks Texts Json Messages Configurations.

#[local] Open Scope Z_scope.
#[local] Open Scope carrier_scope.

Module Version.

Definition toupper (c : Z) : Z := if (97 <=? c) && (c <=? 122) then c - 32 else c.

(** [Version::build]; the name has two letters.  The code reads them from the storage of an empty vector. *)
Definition build (name : list Z) (version : Z) : Z :=
  let name := toupper <$> name in
  i32 (Z.lor (Z.lor (Z.lor (Z.shiftl (nth 0 name 0) 24) (Z.shiftl (nth 1 name 0) 16)) (Z.land version 0xFF00)) (Z.land version 0xFF)).

(** [NODE_SHORT_NAME] and [NODE_VERSION] of [constants.cc] *)
Definition NODE_SHORT_NAME : list Z := [77; 75].
Definition NODE_VERSION : Z := 1.

Definition names : list (list Z * list Z) := [(chars "OR", chars "Orca"); (chars "MK", chars "Meerkat")].

Definition find_name (n : list Z) : list Z := match list_find (fun x => fst x = n) names with Some (_, x) => snd x | None => n end.

Definition toString (version : Z) : list Z :=
  if version =? 0 then chars "N/A"
  else
    let n := c_string [u8 (Z.shiftr version 24); u8 (Z.shiftr (Z.land version 0xff0000) 16)] in
    find_name n ++ chars "/" ++ to_string (Z.lor (Z.land version 0xff00) (Z.land version 0xff)).

Lemma lor_shift_add b n v : 0 <= n -> 0 <= v < 2 ^ n -> Z.lor (Z.shiftl b n) v = b * 2 ^ n + v.
Proof.
  intros Hn Hv. assert (Z.land (Z.shiftl b n) v = 0) as H.
  { apply Z.bits_inj'. intros i Hi. rewrite Z.land_spec, Z.bits_0, Z.shiftl_spec by lia. destruct (Z.ltb_spec i n); [by rewrite Z.testbit_neg_r by lia|].
    rewrite <- (Z.mod_small v (2 ^ n)) by done. rewrite Z.mod_pow2_bits_high by lia. apply andb_false_r. }
  by rewrite <- Z.lxor_lor, <- Z.add_nocarry_lxor, Z.shiftl_mul_pow2 by done.
Qed.

Lemma low_bytes v : Z.lor (Z.land v 0xff00) (Z.land v 0xff) = v mod 2 ^ 16.
Proof. rewrite <- Z.land_lor_distr_r. change (Z.lor 0xff00 0xff) with (Z.ones 16). by apply mod_pow2_land. Qed.

(** The text of a version that was built of two capital letters has the name, or what it is short for, and the number. *)
Theorem version_text a b v :
  65 <= a <= 90 -> 65 <= b <= 90 -> 0 <= v < 2 ^ 16 -> toString (build [a; b] v) = find_name [a; b] ++ chars "/" ++ to_string v.
Proof.
  intros Ha Hb Hv. assert (build [a; b] v = a * 2 ^ 24 + b * 2 ^ 16 + v) as E.
  { unfold build. cbn [fmap list_fmap nth]. assert (toupper a = a /\ toupper b = b) as [-> ->].
    { unfold toupper. rewrite (proj2 (Z.leb_gt 97 a)), (proj2 (Z.leb_gt 97 b)) by lia. done. }
    rewrite <- Z.lor_assoc, low_bytes, Z.mod_small by lia. rewrite <- Z.lor_assoc, (lor_shift_add b 16 v), (lor_shift_add a 24) by lia.
    rewrite swrap_small by lia. lia. }
  rewrite E. unfold toString. rewrite (proj2 (Z.eqb_neq _ 0)) by lia. rewrite low_bytes, Z.shiftr_land.
  change (Z.shiftr 0xff0000 16) with (Z.ones 8). rewrite mod_pow2_land, !Z.shiftr_div_pow2 by lia.
  set (x := a * 2 ^ 24 + b * 2 ^ 16 + v). assert (x mod 2 ^ 16 = v /\ x / 2 ^ 24 = a /\ x / 2 ^ 16 mod 2 ^ 8 = b) as (-> & -> & ->).
  { subst x. split_and!; Z.div_mod_to_equations; lia. }
  rewrite !wrap_small by lia.
  cbn [c_string]. rewrite (proj2 (Z.eqb_neq a 0)), (proj2 (Z.eqb_neq b 0)) by lia. done.
Qed.

End Version.

(** ** Numbers and commas in texts *)

Lemma dec_digits_chars fuel n acc : Forall (fun c => 48 <= c <= 57) acc -> Forall (fun c => 48 <= c <= 57) (dec_digits fuel n acc).
Proof.
  revert n acc. induction fuel as [|fuel IH]; intros n acc H; [done|]. simpl.
  assert (Forall (fun c => 48 <= c <= 57) ((48 + n mod 10) :: acc)) by (constructor; [pose proof (Z.mod_pos_bound n 10); lia|done]).
  destruct (n <? 10); auto.
Qed.

Lemma to_string_chars n : Forall (fun c => c = 45 \/ 48 <= c <= 57) (to_string n).
Proof.
  assert (forall m, Forall (fun c => c = 45 \/ 48 <= c <= 57) (dec_digits 20 m [])) as H.
  { intros m. eapply Forall_impl; [by apply dec_digits_chars|]. intros c Hc. by right. }
  unfold to_string. destruct (n <? 0); [constructor; [by left|]|]; apply H.
Qed.

Lemma to_string_inj a b : - 2 ^ 63 <= a < 2 ^ 63 -> - 2 ^ 63 <= b < 2 ^ 63 -> to_string a = to_string b -> a = b.
Proof.
  assert (forall n, 0 <= n < 10 ^ 20 -> read_digits 0 (dec_digits 20 n []) = n) as Hr by (intros n Hn; by rewrite dec_digits_read).
  assert (forall m l, 45 :: l = dec_digits 20 m [] -> False) as Hm.
  { intros m l E. pose proof (dec_digits_chars 20 m [] ltac:(constructor)) as H. rewrite <- E in H. inversion H. lia. }
  intros Ha Hb E. unfold to_string in E. destruct (Z.ltb_spec a 0), (Z.ltb_spec b 0).
  - apply (f_equal (fun l => read_digits 0 (drop 1 l))) in E. cbn [drop] in E. rewrite !drop_0, !Hr in E by lia. lia.
  - by apply Hm in E.
  - symmetry in E. by apply Hm in E.
  - apply (f_equal (read_digits 0)) in E. by rewrite !Hr in E by lia.
Qed.

(** What begins with a separator, or is empty. *)
Definition sep_or_end (sep : Z) (l : list Z) : Prop := match l with [] => True | c :: _ => c = sep end.

Lemma sep_split sep a b x y : Forall (fun c => c <> sep) a -> Forall (fun c => c <> sep) b -> sep_or_end sep x -> sep_or_end sep y ->
  a ++ x = b ++ y -> a = b /\ x = y.
Proof.
  intros Ha. revert b. induction Ha as [|c a Hc Ha IH]; intros b Hb Hx Hy E.
  - destruct Hb as [|d b Hd Hb]; [done|]. simpl in E. subst x. by simpl in Hx.
  - destruct Hb as [|d b Hd Hb]; simpl in E; [subst y; by simpl in Hy|]. injection E as -> E.
    destruct (IH b Hb Hx Hy E) as [-> ->]. done.
Qed.

Module Printer.
Section printer.
Context {sodiumHex : SodiumHex} {netdb : NetDb}.

(** ** Ids, nodes, peers and values *)

Definition id_text (i : Id) : result (list Z) := match IdText.toString i with Some t => Ok t | None => Throw Undefined_behaviour end.
Definition hex_text (l : list Z) : result (list Z) := match Hex.encode l false with Some t => Ok t | None => Throw Undefined_behaviour end.

(** A text behind its name. *)
Definition label (name : string) (t : result (list Z)) : result (list Z) := t <-! t; Ok (chars name ++ t).

(** The parts of a text, from the left. *)
Fixpoint seq (l : list (result (list Z))) : result (list Z) :=
  match l with [] => Ok [] | t :: l => t <-! t; rest <-! seq l; Ok (t ++ rest) end.

Definition when (b : bool) (t : result (list Z)) : result (list Z) := if b then t else Ok [].
Definition when_some {A} (o : option A) (f : A -> result (list Z)) : result (list Z) := match o with Some a => f a | None => Ok [] end.
Definition str (s : string) : result (list Z) := Ok (chars s).
Definition num (n : Z) : result (list Z) := Ok (to_string n).

Definition NodeInfo_toString (n : NodeInfo) : result (list Z) :=
  seq [label "<" (id_text (nodeId n)); label "," (Ok (AddressText.host (sockaddr n))); label "," (num (port (sockaddr n))); str ">"].

Definition PeerInfo_toString (p : PeerInfo) : result (list Z) :=
  seq [label "<" (id_text (p_publicKey p)); label "," (id_text (p_nodeId p)); str ",";
       when (PeerInfo.isDelegated p) (seq [id_text (p_origin p); str ","]); num (p_port p);
       when_some (alternativeURL p) (fun u => label "," (Ok u)); str ">"].

Definition Value_toString `{Sodium} (v : Value) : result (list Z) :=
  seq [label "id:" (id_text (Value.getId v));
       when_some (v_publicKey v) (fun k => seq [label ",publicKey:" (id_text k);
         label ",nonce: " (n <-! Message.need (v_nonce v); hex_text n)]);
       when_some (v_recipient v) (fun r => label ",recipient:" (id_text r));
       when_some (v_signature v) (fun g => label ",sig:" (hex_text g));
       label ",seq:" (num (sequenceNumber v)); label ",data:" (hex_text (v_data v))].

(** ** Messages *)

Definition getTypeString (b : Message.Body) : result (list Z) :=
  t <-! Message.getType b; Ok (match t with Message.REQUEST => chars "q" | Message.RESPONSE => chars "r" | Message.ERR => chars "e" end).

Definition method_name (m : Message.Method) : string :=
  match m with
  | Message.UNKNOWN => "unknown" | Message.PING => "ping" | Message.FIND_NODE => "find_node" | Message.ANNOUNCE_PEER => "announce_peer"
  | Message.FIND_PEER => "find_peer" | Message.STORE_VALUE => "store_value" | Message.FIND_VALUE => "find_value"
  end.
Definition getMethodString (b : Message.Body) : result (list Z) := m <-! Message.getMethod b; str (method_name m).

(** The objects of a list in brackets, with commas between them. *)
Fixpoint bracketed {A} (f : A -> result (list Z)) (first : bool) (l : list A) : result (list Z) :=
  match l with
  | [] => Ok []
  | a :: l => seq [str (if first then "" else ","); label "[" (f a); str "]"; bracketed f false l]
  end.

(** [LookupRequest::toString], with the text of [_toString] *)
Definition lookup_request_text (q : Message.LookupRequest) (_toString : result (list Z)) : result (list Z) :=
  seq [label ",q:{t:" (id_text (Message.target q)); label ",w:" (num (Message.getWant q)); _toString; str "}"].

(** [LookupResponse::toString], with the text of [_toString] *)
Definition lookup_response_text (r : Message.LookupResponse) (_toString : result (list Z)) : result (list Z) :=
  let first_node4 := bool_decide (Message.nodes4 r = []) in
  seq [str ",r:{";
       when (negb first_node4) (label "n4:" (bracketed NodeInfo_toString true (Message.nodes4 r)));
       when (negb (bool_decide (Message.nodes6 r = [])))
         (seq [str (if first_node4 then "" else ","); label "n6:" (bracketed NodeInfo_toString true (Message.nodes6 r))]);
       when (negb (Message.lr_token r =? 0)) (label ",tok:" (num (Message.lr_token r)));
       _toString; str "}"].

(** [FindValueResponse::_toString] *)
Definition value_text (v : Value.SentValue) : result (list Z) :=
  seq [when_some (Value.s_publicKey v) (fun k =>
         seq [label ",k:" (id_text k); when_some (Value.s_recipient v) (fun r => label ",rec:" (id_text r));
              label ",n:" (n <-! Message.need (Value.s_nonce v); hex_text n);
              when (0 <=? Value.s_sequenceNumber v) (label ",seq:" (num (Value.s_sequenceNumber v)));
              label ",sig:" (g <-! Message.need (Value.s_signature v); hex_text g)]);
       when (negb (bool_decide (Value.s_value v = []))) (label ",v:" (hex_text (Value.s_value v)))].

(** [StoreValueRequest::toString] *)
Definition store_text (s : Message.StoreValueRequest) : result (list Z) :=
  let v := Message.sv_value s in
  seq [str ",q:{";
       when_some (Value.s_publicKey v) (fun k =>
         seq [label ",k:" (id_text k); when_some (Value.s_recipient v) (fun r => label ",rec:" (id_text r));
              label ",n:" (n <-! Message.need (Value.s_nonce v); hex_text n);
              when (0 <=? Value.s_sequenceNumber v) (label ",seq:" (num (Value.s_sequenceNumber v)));
              label ",sig:" (g <-! Message.need (Value.s_signature v); hex_text g);
              when (0 <=? Message.expectedSequenceNumber s) (label ",cas:" (num (Message.expectedSequenceNumber s))); str ","]);
       label "tok:" (num (Message.sv_token s)); label ",v:" (hex_text (Value.s_value v)); str "}"].

Definition announce_text (a : Message.AnnouncePeerRequest) : result (list Z) :=
  seq [label ",q:{t:" (id_text (Message.peerId a)); when_some (Message.an_nodeId a) (fun n => label ",n:" (id_text n));
       label ",p:" (num (Message.an_port a));
       when (negb (bool_decide (Message.an_alternativeURL a = []))) (label ",alt:" (Ok (Message.an_alternativeURL a)));
       label ",sig:" (hex_text (Message.an_signature a)); label ",tok:" (num (Message.an_token a)); str "}"].

Definition error_text (message : list Z) (code : Z) : result (list Z) :=
  seq [label ",e:{c:" (num code); label ".m:'" (Ok message); str "'}"].

(** [toString(std::stringstream&)] of the classes; that of the plain messages is empty. *)
Definition body_text (b : Message.Body) : result (list Z) :=
  match b with
  | Message.PingRequest | Message.PingResponse | Message.AnnouncePeerResponse | Message.StoreValueResponse => Ok []
  | Message.FindNodeRequest q | Message.FindPeerRequest q => lookup_request_text q (Ok [])
  | Message.FindValueRequest q n => lookup_request_text q (when (0 <=? n) (label ",seq:" (num n)))
  | Message.FindNodeResponse r => lookup_response_text r (Ok [])
  | Message.FindPeerResponse r peers =>
      lookup_response_text r (when (negb (bool_decide (peers = []))) (label ",p:" (bracketed PeerInfo_toString true peers)))
  | Message.FindValueResponse r v => lookup_response_text r (value_text v)
  | Message.StoreValueRequest_ s => store_text s
  | Message.AnnouncePeerRequest_ a => announce_text a
  | Message.ErrorMessage _ message code => error_text message code
  end.

Definition toString (m : Message.Message) : result (list Z) :=
  seq [label "y:" (getTypeString (Message.body m)); label ",m:" (getMethodString (Message.body m)); label ",t:" (num (Message.txid m));
       body_text (Message.body m);
       when (negb (Message.version m =? 0)) (label ",v:" (Ok (Version.toString (Message.version m))))].

(** The arguments of the message that [handlePacket] and [sendData] give to [Logger::debug]. *)
Definition log_arguments (m : Message.Message) : result unit :=
  _ <-! getMethodString (Message.body m); _ <-! getTypeString (Message.body m); _ <-! toString m; Ok ().

(** ** Prefixes, entries, buckets and tables *)

Definition Prefix_toString (p : Prefix) : result (list Z) :=
  if depth p =? -1 then str "all"
  else seq [hex_text (take (Z.to_nat (Z.shiftr (depth p + 8) 3)) (bytes (p_id p))); label "/" (num (depth p))].

(** [Prefix::toBinaryString]; [None] is a read outside the array. *)
Fixpoint prefix_bits (l : list Z) (i : Z) (fuel : nat) : option (list Z) :=
  match fuel with
  | O => Some []
  | S fuel =>
      b ← l !! Z.to_nat (Z.shiftr i 3);
      rest ← prefix_bits l (i + 1) fuel;
      Some ((if Z.land b (Z.shiftr 0x80 (Z.land i 7)) =? 0 then 48 else 49) :: (if Z.land i 3 =? 3 then [32] else []) ++ rest)
  end.
Definition Prefix_toBinaryString (p : Prefix) : option (list Z) :=
  if depth p =? -1 then Some (chars "all")
  else repr ← prefix_bits (bytes (p_id p)) 0 (Z.to_nat (depth p + 1)); Some (repr ++ chars "...").

Definition KBucketEntry_toString (now : Z) (e : KBucketEntry) : result (list Z) :=
  seq [id_text (nodeId (node e)); label "@" (Ok (AddressText.host (sockaddr (node e)))); label ";seen:" (num (u64 (now - lastSeen e)));
       label ";age:" (num (u64 (now - created e))); when (0 <? lastSend e) (label ";sent:" (num (u64 (now - lastSend e))));
       when (negb (failedRequests e =? 0)) (label ";fail:" (num (failedRequests e))); when (reachable e) (str ";reachable");
       when (negb (version (node e) =? 0)) (label ";ver:" (Ok (Version.toString (version (node e)))))].

Definition newline : result (list Z) := Ok [10].

Definition KBucket_toString (now : Z) (b : KBucket) : result (list Z) :=
  seq [label "Prefix: " (Prefix_toString (prefix b)); when (homeBucket b) (str " [Home]"); newline;
       when (negb (bool_decide (entries b = [])))
         (seq [label "  entries[" (num (Z.of_nat (length (entries b)))); str "]:"; newline;
               seq ((fun e => seq [label "    " (KBucketEntry_toString now (obj e)); newline]) <$> entries b)])].

Definition RoutingTable_toString (now : Z) (rt : RoutingTable) : result (list Z) :=
  seq [label "buckets: " (num (Z.of_nat (length (buckets rt)))); label " / entries: " (num (RoutingTable.getNumBucketEntries rt)); newline;
       seq ((fun b => seq [KBucket_toString now b; newline]) <$> buckets rt)].

(** [DHT::toString] and [Node::toString]: the parts of the DHTs that the node has. *)
Definition DHT_toString (now : Z) (ipv4 : bool) (addr : SocketAddress) (rt : RoutingTable) : result (list Z) :=
  seq [label "DHT: " (str (if ipv4 then "IPV4" else "IPV6")); newline; label "Address: " (Ok (AddressText.toString addr)); newline;
       RoutingTable_toString now rt].
Definition Node_toString (now : Z) (id : Id) (dht4 dht6 : option (SocketAddress * RoutingTable)) : result (list Z) :=
  seq [label "Node: " (id_text id); newline; when_some dht4 (fun d => DHT_toString now true d.1 d.2);
       when_some dht6 (fun d => DHT_toString now false d.1 d.2)].

(** [Task::toString]; no class overrides [className]. *)
Definition stateName (s : TaskState) : string :=
  match s with INITIAL => "INITIAL" | QUEUED => "QUEUED" | RUNNING => "RUNNING" | FINISHED => "FINISHED" | CANCELED => "CANCELED" end.
Definition Task_toString (taskId : Z) (name : list Z) (ipv4 : bool) (t : TaskBase) : result (list Z) :=
  seq [str "Task"; label "#" (num taskId); when (negb (bool_decide (name = []))) (seq [label "[" (Ok name); str "]"]);
       label " DHT: " (str (if ipv4 then "IPV4" else "IPV6")); label ", state: " (str (stateName (t_state t)))].

(** ** Which messages have a text *)

(** A member that is printed as hexadecimal digits. *)
Definition has_bytes (o : option (list Z)) : bool := match o with Some (_ :: _) => true | _ => false end.

(** What the text needs of the members of a value. *)
Definition signature_printable (v : Value.SentValue) : bool :=
  match Value.s_publicKey v with Some _ => has_bytes (Value.s_nonce v) && has_bytes (Value.s_signature v) | None => true end.

Definition printable (b : Message.Body) : bool :=
  match b with
  | Message.StoreValueRequest_ s => signature_printable (Message.sv_value s) && negb (bool_decide (Value.s_value (Message.sv_value s) = []))
  | Message.FindValueResponse _ v => signature_printable v
  | Message.AnnouncePeerRequest_ a => negb (bool_decide (Message.an_signature a = []))
  | _ => true
  end.

Definition is_ok {A} (r : result A) : bool := match r with Ok _ => true | Throw _ => false end.

Lemma ok_id i : is_ok (id_text i) = true.
Proof. unfold id_text. by destruct (IdText.id_text_roundtrip i) as (t & h & -> & _). Qed.

Lemma ok_hex l : is_ok (hex_text l) = negb (bool_decide (l = [])).
Proof.
  unfold hex_text, Hex.encode, Hex.encode_ptr. destruct l as [|b l]; [done|]. cbn [length].
  by rewrite (proj2 (Nat.ltb_ge _ _)) by (simpl; lia).
Qed.

Lemma ok_need o : is_ok (n <-! Message.need o; hex_text n) = has_bytes o.
Proof. destruct o as [[|b l]|]; simpl; [done| |done]. apply ok_hex. Qed.

Lemma ok_label s t : is_ok (label s t) = is_ok t.
Proof. by destruct t. Qed.
Lemma ok_seq l : is_ok (seq l) = forallb is_ok l.
Proof. induction l as [|[t|e] l IH]; simpl; [done| |done]. rewrite <- IH. by destruct (seq l). Qed.
Lemma ok_when b t : is_ok (when b t) = negb b || is_ok t.
Proof. by destruct b. Qed.
Lemma ok_when_some {A} (o : option A) f : is_ok (when_some o f) = match o with Some a => is_ok (f a) | None => true end.
Proof. by destruct o. Qed.

Lemma ok_type b : is_ok (getTypeString b) = true.
Proof. by destruct b as [| | | | | | | | | | | |[]]. Qed.
Lemma ok_method b : is_ok (getMethodString b) = true.
Proof. by destruct b as [| | | | | | | | | | | |[]]. Qed.

Lemma ok_node n : is_ok (NodeInfo_toString n) = true.
Proof. unfold NodeInfo_toString. rewrite ok_seq. simpl. by rewrite ok_label, ok_id. Qed.

Lemma ok_peer p : is_ok (PeerInfo_toString p) = true.
Proof.
  unfold PeerInfo_toString. rewrite ok_seq. cbn [forallb]. rewrite !ok_label, !ok_id, ok_when, ok_seq, ok_when_some. cbn [forallb].
  rewrite ok_id, orb_true_r. by destruct (alternativeURL p).
Qed.

Lemma ok_bracketed {A} (f : A -> result (list Z)) first l : (forall a, is_ok (f a) = true) -> is_ok (bracketed f first l) = true.
Proof.
  intros H. revert first. induction l as [|a l IH]; intros first; [done|]. cbn [bracketed]. rewrite ok_seq. cbn [forallb].
  by rewrite ok_label, H, IH.
Qed.

Lemma ok_response r t : is_ok (lookup_response_text r t) = is_ok t.
Proof.
  unfold lookup_response_text. rewrite ok_seq. cbn [forallb]. rewrite !ok_when, ok_seq. cbn [forallb].
  rewrite !ok_label, !ok_bracketed by apply ok_node. simpl. by rewrite ?orb_true_r, ?andb_true_r.
Qed.

Lemma ok_request q t : is_ok (lookup_request_text q t) = is_ok t.
Proof. unfold lookup_request_text. rewrite ok_seq. cbn [forallb]. rewrite !ok_label, ok_id. simpl. by rewrite andb_true_r. Qed.

Lemma ok_recipient {A} (o : option A) (f : A -> Id) (s : string) : is_ok (when_some o (fun r => label s (id_text (f r)))) = true.
Proof. rewrite ok_when_some. destruct o; [|done]. by rewrite ok_label, ok_id. Qed.

Lemma ok_value v : is_ok (value_text v) = signature_printable v.
Proof.
  unfold value_text, signature_printable. rewrite ok_seq. cbn [forallb].
  rewrite ok_when, ok_label, ok_hex, negb_involutive, orb_negb_r, ok_when_some, !andb_true_r.
  destruct (Value.s_publicKey v); [|done]. rewrite ok_seq. cbn [forallb]. rewrite (ok_recipient _ id), ok_when, !ok_label, ok_id, !ok_need.
  simpl. by rewrite ?orb_true_r, ?andb_true_r.
Qed.

Lemma ok_store s : is_ok (store_text s) = signature_printable (Message.sv_value s) && negb (bool_decide (Value.s_value (Message.sv_value s) = [])).
Proof.
  unfold store_text, signature_printable. rewrite ok_seq. cbn [forallb]. rewrite ok_when_some, !ok_label, ok_hex. cbn [str num is_ok andb].
  rewrite !andb_true_r. f_equal. destruct (Value.s_publicKey _); [|done]. rewrite ok_seq. cbn [forallb].
  rewrite (ok_recipient _ id), !ok_when, !ok_label, ok_id, !ok_need. simpl. by rewrite ?orb_true_r, ?andb_true_r.
Qed.

Lemma ok_announce a : is_ok (announce_text a) = negb (bool_decide (Message.an_signature a = [])).
Proof.
  unfold announce_text. rewrite ok_seq. cbn [forallb]. rewrite !ok_label, ok_id, (ok_recipient _ id), ok_when, ok_hex. simpl.
  by rewrite ?orb_true_r, ?andb_true_r.
Qed.

Lemma ok_body b : is_ok (body_text b) = printable b.
Proof.
  destruct b; cbn [body_text printable]; rewrite ?ok_request, ?ok_response, ?ok_when, ?ok_label; try done.
  - apply ok_announce.
  - rewrite ok_bracketed by apply ok_peer. apply orb_true_r.
  - apply ok_store.
  - by rewrite orb_true_r.
  - apply ok_value.
Qed.

(** ** Theorems *)

(** A message has a text exactly when the members that the text needs were in it: a nonce and a
    signature next to a public key, and data and signatures that are not empty. *)
Theorem printable_spec m : is_ok (log_arguments m) = printable (Message.body m) /\ is_ok (toString m) = printable (Message.body m).
Proof.
  assert (is_ok (toString m) = printable (Message.body m)) as H.
  { unfold toString. rewrite ok_seq. cbn [forallb]. rewrite ok_when, !ok_label, ok_type, ok_method, ok_body. simpl.
    by rewrite orb_true_r, andb_true_r. }
  split; [|done]. rewrite <- H. unfold log_arguments. pose proof (ok_method (Message.body m)). pose proof (ok_type (Message.body m)).
  destruct (getMethodString _); [|done]. destruct (getTypeString _); [|done]. by destruct (toString m).
Qed.

Lemma printed m : printable (Message.body m) = true -> log_arguments m = Ok ().
Proof. intros H. rewrite <- (proj1 (printable_spec m)) in H. by destruct (log_arguments m) as [[]|]. Qed.

Lemma id_text_ok i : exists t, id_text i = Ok t.
Proof. pose proof (ok_id i). destruct (id_text i) as [t|]; [by exists t|done]. Qed.

(** A request to store a value that has a public key and no nonce. *)
Lemma missing_nonce tx ver s k : Value.s_publicKey (Message.sv_value s) = Some k -> Value.s_nonce (Message.sv_value s) = None ->
  log_arguments (Message.MkMessage tx ver (Message.StoreValueRequest_ s)) = Throw Bad_optional.
Proof.
  intros Hk Hn. assert (store_text s = Throw Bad_optional) as E.
  { unfold store_text. rewrite Hk, Hn. cbn [when_some seq str label Message.need]. destruct (id_text_ok k) as [t ->].
    destruct (Value.s_recipient _) as [r|]; [destruct (id_text_ok r) as [u Hu]; cbn [when_some]; by rewrite Hu|done]. }
  unfold log_arguments, toString. cbn [Message.body seq body_text]. by rewrite E.
Qed.

(** What arrives of a message has a text when the message has one. *)
Lemma printable_received b : printable b = true -> printable (Message.received_body b) = true.
Proof.
  destruct b as [| | | | | | | |s| | |r v|]; try done; cbn [Message.received_body printable].
  - unfold Message.store_received, Message.value_received, signature_printable. cbn [Message.sv_value].
    destruct (Value.s_publicKey (Message.sv_value s)) eqn:E; cbn [Value.s_publicKey Value.s_nonce Value.s_signature Value.s_value]; [done|].
    by intros [_ ?]%andb_prop.
  - unfold Message.value_received, signature_printable. by destruct (Value.s_publicKey v) eqn:E; cbn; rewrite ?E.
Qed.

(** The messages with values and peers that the program makes have a text. *)
Lemma value_printable v : Value.value_ok v -> signature_printable (Value.setValue v (-1)) = true /\ Value.s_value (Value.setValue v (-1)) <> [].
Proof.
  intros [Hd Hv]. unfold Value.setValue, Value.isMutable, signature_printable. destruct (v_publicKey v) as [k|]; [|done].
  rewrite bool_decide_eq_true_2 by done. cbn. destruct Hv as (_ & (n & -> & Hn) & (g & -> & Hg)). split; [|done].
  by destruct n; [|destruct g].
Qed.

Lemma store_printable v tok : Value.value_ok v -> printable (Message.StoreValueRequest_ (Message.StoreValueRequest_new v tok)) = true.
Proof.
  intros [H1 H2]%value_printable. cbn [printable Message.StoreValueRequest_new Message.sv_value]. by rewrite H1, bool_decide_eq_false_2.
Qed.

Lemma response_printable r v : Value.value_ok v -> printable (Message.FindValueResponse r (Value.setValue v (-1))) = true.
Proof. intros [H1 _]%value_printable. exact H1. Qed.

Lemma announce_printable `{Sodium} p a : PeerInfo.peer_ok p -> printable (Message.AnnouncePeerRequest_ (Message.setPeer p a)) = true.
Proof. intros (_ & Hs & _). cbn. destruct (p_signature p); [done|]. by rewrite bool_decide_eq_false_2. Qed.

Lemma label_inv s t u : label s t = Ok u -> exists x, t = Ok x /\ u = chars s ++ x.
Proof. destruct t as [x|]; [|done]. intros [= <-]. eauto. Qed.

Lemma seq_cons_inv t l u : seq (t :: l) = Ok u -> exists x y, t = Ok x /\ seq l = Ok y /\ u = x ++ y.
Proof. destruct t as [x|]; [|done]. simpl. destruct (seq l) as [y|]; [|done]. intros [= <-]. eauto. Qed.

(** The text of the members begins with a comma. *)
Lemma body_text_comma b t : body_text b = Ok t -> sep_or_end 44 t.
Proof.
  destruct b; cbn [body_text]; try (by intros [= <-]); intros H; apply seq_cons_inv in H as (x & y & H & _ & ->);
    first [injection H as <-; done|apply label_inv in H as (z & _ & ->); done].
Qed.

Lemma version_text_comma b z t : when b (label ",v:" z) = Ok t -> sep_or_end 44 t.
Proof. destruct b; [|by intros [= <-]]. intros H. by apply label_inv in H as (x & _ & ->). Qed.

Lemma toString_inv m t : toString m = Ok t -> exists ty me rest,
  getTypeString (Message.body m) = Ok ty /\ getMethodString (Message.body m) = Ok me /\ sep_or_end 44 rest /\
  t = chars "y:" ++ ty ++ chars ",m:" ++ me ++ chars ",t:" ++ to_string (Message.txid m) ++ rest.
Proof.
  unfold toString. intros H. apply seq_cons_inv in H as (x1 & y1 & H1 & H & ->). apply label_inv in H1 as (ty & E1 & ->).
  apply seq_cons_inv in H as (x2 & y2 & H2 & H & ->). apply label_inv in H2 as (me & E2 & ->).
  apply seq_cons_inv in H as (x3 & y3 & H3 & H & ->). apply label_inv in H3 as (n & E3 & ->). injection E3 as <-.
  apply seq_cons_inv in H as (x4 & y4 & H4%body_text_comma & H & ->). apply seq_cons_inv in H as (x5 & y5 & H5%version_text_comma & H & ->).
  injection H as <-. exists ty, me, (x4 ++ x5 ++ []). split_and!; [done..| |by rewrite <- !app_assoc].
  rewrite app_nil_r. by destruct x4.
Qed.

Lemma type_text_inj b b' : getTypeString b = getTypeString b' -> (Message.class_of b).1 = (Message.class_of b').1.
Proof. destruct b as [| | | | | | | | | | | |[]], b' as [| | | | | | | | | | | |[]]; done. Qed.

Lemma method_text_inj b b' : getMethodString b = getMethodString b' -> (Message.class_of b).2 = (Message.class_of b').2.
Proof. destruct b as [| | | | | | | | | | | |[]], b' as [| | | | | | | | | | | |[]]; done. Qed.

Lemma names_no_comma b ty me : getTypeString b = Ok ty -> getMethodString b = Ok me -> Forall (fun c => c <> 44) ty /\ Forall (fun c => c <> 44) me.
Proof.
  destruct b as [| | | | | | | | | | | |[]]; intros [= <-] [= <-]; (split; repeat (constructor; [by vm_compute|]); constructor).
Qed.

(** The text names the type, the method and the transaction id of its message, whatever its members are. *)
Theorem text_identifies m m' t :
  Message.int32 (Message.txid m) -> Message.int32 (Message.txid m') -> toString m = Ok t -> toString m' = Ok t ->
  Message.class_of (Message.body m) = Message.class_of (Message.body m') /\ Message.txid m = Message.txid m'.
Proof.
  intros Ht Ht' H H'. apply toString_inv in H as (ty & me & r & E1 & E2 & Hr & ->). apply toString_inv in H' as (ty' & me' & r' & E1' & E2' & Hr' & E).
  destruct (names_no_comma _ _ _ E1 E2) as [N1 N2], (names_no_comma _ _ _ E1' E2') as [N1' N2']. apply app_inv_head in E.
  apply (sep_split 44) in E as [<- E]; [|done..]. apply app_inv_head in E. apply (sep_split 44) in E as [<- E]; [|done..]. apply app_inv_head in E.
  assert (forall n, Forall (fun c => c <> 44) (to_string n)) as Hn.
  { intros n. eapply Forall_impl; [apply to_string_chars|]. simpl. lia. }
  apply (sep_split 44) in E as [E _]; [|apply Hn..|done|done]. unfold Message.int32 in *.
  split; [|by apply to_string_inj in E; [|lia..]].
  rewrite (surjective_pairing (Message.class_of (Message.body m))), (surjective_pairing (Message.class_of (Message.body m'))).
  f_equal; [apply type_text_inj|apply method_text_inj]; congruence.
Qed.

(** ** The texts of a table *)

Lemma prefix_bytes_length p : prefix_wf p -> 0 <= depth p -> (0 < length (take (Z.to_nat (Z.shiftr (depth p + 8) 3)) (bytes (p_id p))))%nat.
Proof.
  intros [Hd _] H. rewrite length_take, id_length, Z.shiftr_div_pow2 by lia. change (2 ^ 3) with 8.
  assert (1 <= (depth p + 8) / 8) by (apply Z.div_le_lower_bound; lia). lia.
Qed.

Lemma ok_prefix p : prefix_wf p -> is_ok (Prefix_toString p) = true.
Proof.
  intros Hp. unfold Prefix_toString. destruct (Z.eqb_spec (depth p) (-1)); [done|]. rewrite ok_seq. cbn [forallb]. rewrite ok_hex, ok_label.
  pose proof (prefix_bytes_length p Hp). destruct Hp as [Hd _]. case_bool_decide as E; [|done]. rewrite E in H. simpl in H. lia.
Qed.

Lemma ok_entry now e : is_ok (KBucketEntry_toString now e) = true.
Proof.
  unfold KBucketEntry_toString. rewrite ok_seq. cbn [forallb]. rewrite !ok_when, !ok_label, ok_id. simpl. by rewrite !orb_true_r.
Qed.

Lemma ok_all {A} (f : A -> result (list Z)) l : Forall (fun a => is_ok (f a) = true) l -> is_ok (seq (f <$> l)) = true.
Proof. intros H. rewrite ok_seq. induction H as [|a l Ha Hl IH]; [done|]. simpl. by rewrite Ha. Qed.

Lemma ok_bucket now b : prefix_wf (prefix b) -> is_ok (KBucket_toString now b) = true.
Proof.
  intros H. unfold KBucket_toString. rewrite ok_seq. cbn [forallb]. rewrite !ok_when, ok_label, ok_prefix, ok_seq by done. cbn [forallb].
  rewrite ok_all; [simpl; by rewrite !orb_true_r|]. apply Forall_true. intros e. rewrite ok_seq. cbn [forallb]. by rewrite ok_label, ok_entry.
Qed.

(** A table whose buckets have prefixes that are in order has a text. *)
Theorem table_text now rt : Forall (fun b => prefix_wf (prefix b)) (buckets rt) -> exists t, RoutingTable_toString now rt = Ok t.
Proof.
  intros H. assert (is_ok (RoutingTable_toString now rt) = true) as Hok.
  { unfold RoutingTable_toString. rewrite ok_seq. cbn [forallb]. rewrite ok_all; [done|]. eapply Forall_impl; [exact H|]. intros b Hb.
    rewrite ok_seq. cbn [forallb]. by rewrite ok_bucket. }
  destruct (RoutingTable_toString now rt) as [t|]; [by exists t|done].
Qed.

(** Tasks always have a text, which ends with the name of their state. *)
Theorem task_text taskId name ipv4 t : exists u, Task_toString taskId name ipv4 t = Ok (u ++ chars (stateName (t_state t))).
Proof.
  unfold Task_toString. case_bool_decide; destruct ipv4; cbn [negb when seq label str num]; eexists; f_equal; rewrite !app_assoc, !app_nil_r;
    reflexivity.
Qed.

(** The binary text of a prefix is made without reading outside of the id, unlike that of an id. *)
Theorem prefix_binary p : prefix_wf p -> exists t, Prefix_toBinaryString p = Some t.
Proof.
  intros [Hd _]. unfold Prefix_toBinaryString. destruct (Z.eqb_spec (depth p) (-1)); [by eexists|].
  assert (forall fuel i, 0 <= i -> i + Z.of_nat fuel <= 256 -> is_Some (prefix_bits (bytes (p_id p)) i fuel)) as H.
  { induction fuel as [|fuel IH]; intros i Hi Hf; [by eexists|]. cbn [prefix_bits]. rewrite (Z.shiftr_div_pow2 i 3) by lia. change (2 ^ 3) with 8.
    destruct (lookup_lt_is_Some_2 (bytes (p_id p)) (Z.to_nat (i / 8))) as [x ->].
    { rewrite id_length. pose proof (Z.div_lt_upper_bound i 8 32). pose proof (Z.div_pos i 8). lia. }
    simpl. destruct (IH (i + 1)) as [r ->]; [lia..|]. by eexists. }
  destruct (H (Z.to_nat (depth p + 1)) 0) as [r ->]; [lia..|]. by eexists.
Qed.

Lemma hex_text_inv l t : Forall is_byte l -> hex_text l = Ok t ->
  Forall (fun c => c <> 47) t /\ hex2bin (length l) t = Some l.
Proof.
  intros Hl. unfold hex_text, Hex.encode. destruct l as [|b l']; [done|]. set (l := b :: l') in *.
  destruct (Hex.encode_ptr l _) as [u|] eqn:E; [|done]. cbn [mbind option_bind]. intros [= <-]. cbn [app].
  unfold Hex.encode_ptr in E. destruct (_ <? _)%nat; [done|]. injection E as <-. rewrite (proj1 (Hex.hex_nul l Hl)).
  split; [|by apply hex2bin_bin2hex]. eapply Forall_impl; [by apply bin2hex_digits|]. intros c Hc ->.
  apply (bool_decide_eq_true_2 (47 ∈ _)) in Hc. by vm_compute in Hc.
Qed.

(** A well-formed prefix is determined by its depth and its first bytes. *)
Lemma prefix_of_bytes p p' k : prefix_wf p -> prefix_wf p' -> depth p = depth p' -> depth p + 1 <= 8 * Z.of_nat k -> (k <= 32)%nat ->
  take k (bytes (p_id p)) = take k (bytes (p_id p')) -> p = p'.
Proof.
  intros Hp Hp' Hd Hk Hk32 E. assert (forall q, prefix_wf q -> depth q = depth p -> pval q = be_val (take k (bytes (p_id q))) * 256 ^ Z.of_nat (32 - k)) as Hv.
  { intros q [Hq Hm] Eq. unfold pval, id_val in *. rewrite <- (take_drop k (bytes (p_id q))) at 1. rewrite be_val_app, length_drop, id_length.
    assert (be_val (drop k (bytes (p_id q))) = 0) as ->; [|lia].
    pose proof (be_val_bound (drop k (bytes (p_id q))) (Forall_drop _ _ _ (id_bytes _))) as B. rewrite length_drop, id_length in B.
    assert (psize q = 256 ^ Z.of_nat (32 - k) * 2 ^ (8 * Z.of_nat k - depth q - 1)) as Es.
    { unfold psize. change 256 with (2 ^ 8). rewrite <- Z.pow_mul_r, <- Z.pow_add_r by lia. f_equal. lia. }
    rewrite <- (take_drop k (bytes (p_id q))), be_val_app, length_drop, id_length, Es in Hm.
    apply Z.mod_divide in Hm; [|pose proof (Z.pow_pos_nonneg 256 (Z.of_nat (32 - k))); pose proof (Z.pow_pos_nonneg 2 (8 * Z.of_nat k - depth q - 1)); nia]. destruct Hm as [c Hc].
    assert ((256 ^ Z.of_nat (32 - k) | be_val (drop k (bytes (p_id q))))) as [d Hdv].
    { exists (c * 2 ^ (8 * Z.of_nat k - depth q - 1) - be_val (take k (bytes (p_id q)))). lia. }
    rewrite Hdv in B |- *. set (P := 256 ^ Z.of_nat (32 - k)) in *. assert (0 < P) by (apply Z.pow_pos_nonneg; lia).
    assert (0 <= d) by nia. assert (d < 1) by nia. by assert (d = 0) as -> by lia. }
  destruct p as [i d], p' as [i' d']. simpl in *. subst d'. f_equal. apply id_val_inj.
  pose proof (Hv (MkPrefix i d) Hp eq_refl) as H1. pose proof (Hv (MkPrefix i' d) Hp' eq_refl) as H2. unfold pval in *. simpl in *. by rewrite H1, H2, E.
Qed.

Lemma prefix_text_inv p t : prefix_wf p -> depth p <> -1 -> Prefix_toString p = Ok t ->
  exists h, let k := Z.to_nat (Z.shiftr (depth p + 8) 3) in
    t = h ++ 47 :: to_string (depth p) /\ Forall (fun c => c <> 47) h /\ hex2bin k h = Some (take k (bytes (p_id p))) /\
    (k <= 32)%nat /\ depth p + 1 <= 8 * Z.of_nat k.
Proof.
  intros [Hd _] Hne H. unfold Prefix_toString in H. rewrite (proj2 (Z.eqb_neq _ _) Hne) in H.
  apply seq_cons_inv in H as (h & y & H1 & H & ->). apply seq_cons_inv in H as (y1 & y2 & H2 & H & ->). apply label_inv in H2 as (z & E & ->).
  injection E as <-. injection H as <-. exists h. rewrite app_nil_r. rewrite Z.shiftr_div_pow2 in * by lia. change (2 ^ 3) with 8 in *.
  assert ((Z.to_nat ((depth p + 8) / 8) <= 32)%nat) as Hk by (pose proof (Z.div_lt_upper_bound (depth p + 8) 8 33); lia).
  apply hex_text_inv in H1 as [G1 G2]; [|apply Forall_take, id_bytes]. rewrite length_take_le in G2 by (rewrite id_length; lia).
  split_and!; [done..|]. pose proof (Z.div_mod (depth p + 8) 8). pose proof (Z.mod_pos_bound (depth p + 8) 8).
  pose proof (Z.div_pos (depth p + 8) 8). lia.
Qed.

(** The text of a prefix determines it. *)
Theorem prefix_text_inj p p' t : prefix_wf p -> prefix_wf p' -> Prefix_toString p = Ok t -> Prefix_toString p' = Ok t -> p = p'.
Proof.
  assert (forall q, depth q = -1 -> Prefix_toString q = str "all") as Hall by (intros q Hq; unfold Prefix_toString; by rewrite Hq).
  assert (forall h n, chars "all" = h ++ 47 :: n -> False) as Hno.
  { intros h n E. assert (47 ∈ chars "all") as Hin by (rewrite E; set_solver). apply (bool_decide_eq_true_2 (47 ∈ _)) in Hin. by vm_compute in Hin. }
  intros Hp Hp' H H'. destruct (decide (depth p = -1)) as [E|E], (decide (depth p' = -1)) as [E'|E'].
  - apply (prefix_of_bytes p p' 0); [done..|lia|lia|lia|done].
  - exfalso. rewrite Hall in H by done. injection H as <-. apply prefix_text_inv in H' as (h & H' & _); [|done..]. by apply Hno in H'.
  - exfalso. rewrite Hall in H' by done. injection H' as <-. apply prefix_text_inv in H as (h & H & _); [|done..]. by apply Hno in H.
  - apply prefix_text_inv in H as (h & -> & N1 & B1 & K1 & K2); [|done..]. apply prefix_text_inv in H' as (h' & Et & N2 & B2 & _ & _); [|done..].
    apply (sep_split 47) in Et as [<- [= Ed]]; [|done..]. pose proof (proj1 Hp). pose proof (proj1 Hp'). apply to_string_inj in Ed; [|lia..].
    rewrite <- Ed in B2. rewrite B1 in B2. injection B2 as B2. by eapply prefix_of_bytes.
Qed.

End printer.
End Printer.
