(* ===== verification/Loggers.v ===== *)
(** * Utilities: the logger of [src/core/utils/log.h] and [log.cc], the queue of [src/core/utils/mtqueue.h] and
    [Random] of [src/core/crypto/random.cc]

    The registry of spdlog is the interface [Spdlog]: a logger has a name, a level, a sink
    and a pattern, and stays registered.  A [Logger] is a handle of the registered logger
    with its name, so that two objects with one name share their level.  The random
    numbers of libsodium are the interface [SodiumRandom], a stream of numbers. *)

From Stdlib Require Import String.
From S2P Require Import Prelude Values Texts Json Configurations Messages Printers.

#[local] Open Scope Z_scope.
#[local] Open Scope carrier_scope.

(** ** The interface of spdlog *)

(** The sink is a file, or the console. *)
Record SpdLogger := MkSpd { spd_level : Z; spd_sink : option (list Z); spd_pattern : option (list Z) }.

Definition with_level (z : Z) (l : SpdLogger) : SpdLogger := MkSpd z (spd_sink l) (spd_pattern l).
Definition with_pattern (p : list Z) (l : SpdLogger) : SpdLogger := MkSpd (spd_level l) (spd_sink l) (Some p).

(** [spdlog::get]; the creation of a logger, which throws when the name is in use; the setters of a
    registered logger; the message levels that a logger writes; the file of a sink, which may not open;
    [spdlog_setup::from_file]. *)
Class Spdlog := {
  Registry : Type;
  spd_get : list Z -> Registry -> option SpdLogger;
  spd_create : list Z -> option (list Z) -> Registry -> result Registry;
  spd_update : list Z -> (SpdLogger -> SpdLogger) -> Registry -> Registry;
  spd_writes : SpdLogger -> Z -> bool;
  spd_open : list Z -> result unit;
  spd_from_file : list Z -> Registry -> result Registry;
  spd_create_new n k r : spd_get n r = None -> exists r' l, spd_create n k r = Ok r' /\ spd_sink l = k /\
    forall m, spd_get m r' = if bool_decide (m = n) then Some l else spd_get m r;
  spd_get_update n f r m : spd_get m (spd_update n f r) = if bool_decide (m = n) then f <$> spd_get n r else spd_get m r;
  spd_writes_level l z : spd_writes l z = (spd_level l <=? z);
  spd_from_file_keeps config r r' n : spd_from_file config r = Ok r' -> is_Some (spd_get n r) -> is_Some (spd_get n r')
}.

Module Logger.

(** ** Definitions *)

(** [enum Level] *)
Inductive Level := Trace | Debug | Info | Warn | Error | Critical | Off.

Definition level_enum (l : Level) : Z := match l with Trace => 0 | Debug => 1 | Info => 2 | Warn => 3 | Error => 4 | Critical => 5 | Off => 6 end.

Record UserSettings := MkSettings { defalutLevel : Z; fileSink : option (list Z); us_pattern : list Z }.

Definition userSettings0 : UserSettings := MkSettings (level_enum Info) None [].

Section logger.
Context {spdlog : Spdlog}.

(** The static settings and the registry. *)
Record LogState := MkLog { userSettings : UserSettings; registry : Registry }.

Definition M (A : Type) : Type := SM LogState A.

Definition set_settings (f : UserSettings -> UserSettings) : M unit := sm_modify (fun s => MkLog (f (userSettings s)) (registry s)).
Definition update (name : list Z) (f : SpdLogger -> SpdLogger) : M unit :=
  sm_modify (fun s => MkLog (userSettings s) (spd_update name f (registry s))).

Definition initialize (config : list Z) : M unit := fun s =>
  match spd_from_file config (registry s) with Ok r => (Ok (), MkLog (userSettings s) r) | Throw e => (Throw e, s) end.

(** [Logger::get]; the handle of a logger is its name. *)
Definition get (name : list Z) : M (list Z) :=
  (fun s => match spd_get name (registry s) with
            | Some _ => (Ok (), s)
            | None => match spd_create name (fileSink (userSettings s)) (registry s) with
                      | Ok r => (Ok (), MkLog (userSettings s) r)
                      | Throw e => (Throw e, s)
                      end
            end);~
  (fun s => update name (with_level (defalutLevel (userSettings s))) s);~
  (fun s => if bool_decide (us_pattern (userSettings s) = []) then (Ok (), s) else update name (with_pattern (us_pattern (userSettings s))) s);~
  sm_ret name.

Definition setLogFile (filename : list Z) : M unit :=
  if bool_decide (filename = []) then sm_ret ()
  else sm_lift (spd_open filename);~ set_settings (fun u => MkSettings (defalutLevel u) (Some filename) (us_pattern u)).

Definition levelMap (level : list Z) : option Z :=
  if bool_decide (level = chars "trace") then Some 0 else if bool_decide (level = chars "debug") then Some 1
  else if bool_decide (level = chars "info") then Some 2 else if bool_decide (level = chars "warn") then Some 3
  else if bool_decide (level = chars "err") then Some 4 else if bool_decide (level = chars "critical") then Some 5
  else if bool_decide (level = chars "off") then Some 6 else None.

Definition setLogLevel (level : list Z) : M unit :=
  match levelMap level with Some z => set_settings (fun u => MkSettings z (fileSink u) (us_pattern u)) | None => sm_ret () end.

Definition setLogPattern (pattern : list Z) : M unit := set_settings (fun u => MkSettings (defalutLevel u) (fileSink u) pattern).

Fixpoint find (k : string) (l : list (string * Any)) : option Any :=
  match l with [] => None | (k', a) :: l => if String.eqb k k' then Some a else find k l end.

(** A setting of the map, when it is there. *)
Definition with_setting (k : string) (settings : list (string * Any)) (f : list Z -> M unit) : M unit :=
  match find k settings with Some a => t <~ sm_lift (Anys.cast_string a); f t | None => sm_ret () end.

(** [setDefaultSettings]: a value that is no map is reported, and then cast to a map. *)
Definition setDefaultSettings (value : Any) : M unit :=
  settings <~ sm_lift (Anys.cast_map value);
  with_setting "level" settings setLogLevel;~ with_setting "logFile" settings setLogFile;~ with_setting "pattern" settings setLogPattern.

Definition setLevel (name : list Z) (level : Level) : M unit := update name (with_level (level_enum level)).
Definition setLevel_name (name level : list Z) : M unit := match levelMap level with Some z => update name (with_level z) | None => sm_ret () end.
Definition setPattern (name pattern : list Z) : M unit := update name (with_pattern pattern).

(** [isEnabled] *)
Definition isEnabled (name : list Z) (level : Level) (s : LogState) : bool :=
  match spd_get name (registry s) with Some l => level_enum level =? spd_level l | None => false end.

(** Whether [log] writes a message. *)
Definition log (name : list Z) (level : Level) (s : LogState) : bool :=
  match spd_get name (registry s) with Some l => spd_writes l (level_enum level) | None => false end.

(** The operations. *)
Inductive Op :=
  | Op_initialize (config : list Z) | Op_get (name : list Z) | Op_setDefaultSettings (value : Any) | Op_setLogFile (file : list Z)
  | Op_setLogLevel (level : list Z) | Op_setLogPattern (pattern : list Z) | Op_setLevel (name : list Z) (level : Level)
  | Op_setLevel_name (name level : list Z) | Op_setPattern (name pattern : list Z).

Definition run_op (o : Op) : LogState -> LogState := fun s =>
  match o with
  | Op_initialize c => (initialize c s).2
  | Op_get n => (get n s).2
  | Op_setDefaultSettings v => (setDefaultSettings v s).2
  | Op_setLogFile f => (setLogFile f s).2
  | Op_setLogLevel l => (setLogLevel l s).2
  | Op_setLogPattern p => (setLogPattern p s).2
  | Op_setLevel n l => (setLevel n l s).2
  | Op_setLevel_name n l => (setLevel_name n l s).2
  | Op_setPattern n p => (setPattern n p s).2
  end.

(** The name of the logger that the constructor of [Task] gets. *)
Definition task_logger (taskName : list Z) (taskId : Z) : list Z := taskName ++ chars "-" ++ to_string taskId.

(** ** Lemmas *)

Definition registered (n : list Z) (s : LogState) : Prop := is_Some (spd_get n (registry s)).

Lemma update_get n f s m : spd_get m (registry (update n f s).2) = if bool_decide (m = n) then f <$> spd_get n (registry s) else spd_get m (registry s).
Proof. apply spd_get_update. Qed.

(** What [get] does: the logger has the level of the settings, and the other loggers are as before. *)
Lemma get_spec n s : exists s' l, get n s = (Ok n, s') /\ userSettings s' = userSettings s /\
  spd_get n (registry s') = Some l /\ spd_level l = defalutLevel (userSettings s) /\
  (spd_get n (registry s) = None -> spd_sink l = fileSink (userSettings s)) /\
  (us_pattern (userSettings s) <> [] -> spd_pattern l = Some (us_pattern (userSettings s))) /\
  forall m, m <> n -> spd_get m (registry s') = spd_get m (registry s).
Proof.
  assert (exists r l, (match spd_get n (registry s) with
      | Some _ => (Ok (), s)
      | None => match spd_create n (fileSink (userSettings s)) (registry s) with
                | Ok r => (Ok (), MkLog (userSettings s) r)
                | Throw e => (Throw e, s)
                end end) = (Ok (), MkLog (userSettings s) r) /\ spd_get n r = Some l /\
      (spd_get n (registry s) = None -> spd_sink l = fileSink (userSettings s)) /\ forall m, m <> n -> spd_get m r = spd_get m (registry s))
    as (r & l & E & Hl & Hs & Hm).
  { destruct (spd_get n (registry s)) as [l|] eqn:E; [exists (registry s), l; by destruct s|].
    destruct (spd_create_new n (fileSink (userSettings s)) (registry s) E) as (r & l & -> & Hk & Hg). exists r, l. split; [done|].
    split; [by rewrite Hg, bool_decide_eq_true_2|]. split; [done|]. intros m Hm. by rewrite Hg, bool_decide_eq_false_2. }
  unfold get, sm_bind, sm_ret. rewrite E. unfold update, sm_modify. cbn [userSettings registry].
  set (lv := with_level (defalutLevel (userSettings s))). assert (spd_get n (spd_update n lv r) = Some (lv l)) as H1
    by (by rewrite spd_get_update, bool_decide_eq_true_2, Hl).
  case_bool_decide as Hp; eexists _, _; (split; [reflexivity|]); (split; [reflexivity|]); cbn [registry].
  - split; [exact H1|]. split; [done|]. split; [done|]. split; [done|]. intros m Hne. by rewrite spd_get_update, bool_decide_eq_false_2 by done; apply Hm.
  - split; [by rewrite spd_get_update, bool_decide_eq_true_2, H1|]. split; [done|]. split; [done|]. split; [done|].
    intros m Hne. rewrite !spd_get_update, !bool_decide_eq_false_2 by done. by apply Hm.
Qed.

Lemma registered_update n m f s : registered n s -> registered n (update m f s).2.
Proof. unfold registered. rewrite update_get. case_bool_decide as E; [rewrite E|done]. intros [l ->]. by eexists. Qed.

(** No operation takes a logger out of the registry. *)
Lemma registered_op n o s : registered n s -> registered n (run_op o s).
Proof.
  assert (forall f s, registry (set_settings f s).2 = registry s) as Hset by done.
  assert (forall t s, registered n s -> registered n (setLogFile t s).2) as Hfile.
  { intros t s' H. unfold setLogFile, sm_bind, sm_lift. case_bool_decide; [done|]. by destruct (spd_open t). }
  assert (forall t s, registered n s -> registered n (setLogLevel t s).2) as Hlevel by (intros t s' H; unfold setLogLevel; by destruct (levelMap t)).
  assert (forall k l f s, (forall t s, registered n s -> registered n (f t s).2) -> registered n s -> registered n (with_setting k l f s).2) as Hwith.
  { intros k l f s' Hf H. unfold with_setting, sm_bind, sm_lift. destruct (find k l) as [a|]; [|done]. destruct (Anys.cast_string a); [by apply Hf|done]. }
  intros H. destruct o; cbn [run_op]; try by apply registered_update.
  - unfold initialize. destruct (spd_from_file config (registry s)) as [r|] eqn:E; [|done]. by eapply spd_from_file_keeps.
  - destruct (get_spec name s) as (s' & l & -> & _ & Hl & _ & _ & _ & Hm). cbn [snd]. unfold registered.
    destruct (decide (n = name)) as [->|Hne]; [rewrite Hl; by eexists|by rewrite Hm].
  - unfold setDefaultSettings, sm_bind, sm_lift. destruct (Anys.cast_map value) as [l|]; [|done].
    pose proof (Hwith "level"%string l setLogLevel s Hlevel H) as H1. destruct (with_setting _ l setLogLevel s) as [[[]|] s1]; [|done].
    pose proof (Hwith "logFile"%string l setLogFile s1 Hfile H1) as H2. destruct (with_setting _ l setLogFile s1) as [[[]|] s2]; [|done].
    by apply Hwith.
  - by apply Hfile.
  - by apply Hlevel.
  - exact H.
  - unfold setLevel_name. destruct (levelMap _); [by apply registered_update|done].
Qed.

Definition run_ops (l : list Op) (s : LogState) : LogState := foldl (fun s o => run_op o s) s l.

(** ** Theorems *)

(** Loggers are never dropped: every task registers a logger under a name of its own, and all of them stay,
    whatever is done afterwards. *)
Theorem task_loggers_stay taskName ids ops s :
  Forall (fun i => - 2 ^ 31 <= i < 2 ^ 31) ids -> NoDup ids ->
  NoDup (task_logger taskName <$> ids) /\
  Forall (fun i => registered (task_logger taskName i) (run_ops ops (run_ops (Op_get <$> (task_logger taskName <$> ids)) s))) ids.
Proof.
  intros Hi Hn. assert (forall ops n s, registered n s -> registered n (run_ops ops s)) as Hkeep.
  { intros os n. induction os as [|o os IH]; intros s' H; [done|]. apply IH. by apply registered_op. }
  split.
  - apply NoDup_fmap_2_strong; [|done]. intros i j Hin Hjn E. unfold task_logger in E. apply app_inv_head, app_inv_head in E.
    rewrite Forall_forall in Hi. pose proof (Hi i Hin). pose proof (Hi j Hjn). by apply to_string_inj in E; [|lia..].
  - apply Forall_forall. intros i Hin. apply Hkeep. clear Hi Hn. revert s. induction ids as [|j ids IH]; intros s; [by apply not_elem_of_nil in Hin|].
    cbn [fmap list_fmap run_ops foldl]. apply elem_of_cons in Hin as [->|Hin]; [|by apply IH]. apply Hkeep. cbn [run_op].
    destruct (get_spec (task_logger taskName j) s) as (s' & l & -> & _ & Hl & _). by eexists.
Qed.

(** With a configured level, the loggers that are got afterwards write exactly the messages of that level and above it,
    into the file of the settings if they are new. *)
Theorem configured_level settings level z n m s s1 :
  find "level" settings = Some (A_string level) -> levelMap level = Some z -> setDefaultSettings (A_map settings) s = (Ok (), s1) ->
  exists s2, get n s1 = (Ok n, s2) /\ (forall l, log n l s2 = (z <=? level_enum l)) /\ (m <> n -> forall l, log m l s2 = log m l s1).
Proof.
  intros Hf Hz. unfold setDefaultSettings, sm_bind at 1, sm_lift. cbn [Anys.cast_map]. unfold with_setting at 1. rewrite Hf.
  unfold sm_bind, sm_lift. cbn [Anys.cast_string]. unfold setLogLevel. rewrite Hz. cbn [set_settings sm_modify].
  set (s0 := MkLog _ _). assert (defalutLevel (userSettings s0) = z) as H0 by done.
  assert (forall k (f : list Z -> M unit) a b, (forall t a b, f t a = (Ok (), b) -> defalutLevel (userSettings b) = defalutLevel (userSettings a)) ->
    with_setting k settings f a = (Ok (), b) -> defalutLevel (userSettings b) = defalutLevel (userSettings a)) as Hw.
  { intros k f a b Hk. unfold with_setting, sm_bind, sm_lift. destruct (find k settings) as [v|]; [|by intros [= <-]].
    destruct (Anys.cast_string v); [apply Hk|done]. }
  destruct (with_setting "logFile" settings setLogFile s0) as [[[]|] sf] eqn:Ef; [|done]. intros Ep.
  apply Hw in Ef; [|intros t a b; unfold setLogFile, sm_bind, sm_lift; case_bool_decide; [by intros [= <-]|]; destruct (spd_open t); [by intros [= <-]|done]].
  apply Hw in Ep; [|by intros t a b [= <-]].
  destruct (get_spec n s1) as (s2 & l & Eg & _ & Hl & Hlv & _ & _ & Ho). exists s2. split; [done|]. split.
  - intros lv. unfold log. rewrite Hl, spd_writes_level, Hlv, Ep, Ef. done.
  - intros Hne lv. unfold log. by rewrite Ho.
Qed.

(** [isEnabled] compares for equality: it is true only for messages that are written, but not for the messages above
    the level of the logger, which are written as well. *)
Theorem enabled_is_level n l s :
  (isEnabled n l s = true -> log n l s = true) /\
  (forall lg, spd_get n (registry s) = Some lg -> spd_level lg < level_enum l -> log n l s = true /\ isEnabled n l s = false).
Proof.
  unfold isEnabled, log. split.
  - destruct (spd_get n (registry s)) as [lg|]; [|done]. intros E%Z.eqb_eq. rewrite spd_writes_level. apply Z.leb_le. lia.
  - intros lg -> H. rewrite spd_writes_level. split; [apply Z.leb_le; lia|apply Z.eqb_neq; lia].
Qed.

(** Getting a logger again sets its level back, also for those that got it before. *)
Theorem get_resets_level n l s : registered n s -> level_enum l <> defalutLevel (userSettings s) ->
  let s1 := (setLevel n l s).2 in
  isEnabled n l s1 = true /\ isEnabled n l (get n s1).2 = false.
Proof.
  intros [lg Hl] Hne s1. subst s1. assert (spd_get n (registry (setLevel n l s).2) = Some (with_level (level_enum l) lg)) as E
    by (unfold setLevel; rewrite update_get; by rewrite bool_decide_eq_true_2, Hl).
  unfold isEnabled at 1. rewrite E. split; [apply Z.eqb_eq; done|].
  destruct (get_spec n (setLevel n l s).2) as (s' & l' & -> & _ & E' & Hlv & _). unfold isEnabled. cbn [snd]. rewrite E', Hlv. by apply Z.eqb_neq.
Qed.

(** The settings throw as the loading of the configuration file takes them to. *)
Lemma with_setting_throws k l f g s : (forall t s, fst (f t s) = g t) -> fst (with_setting k l f s) = Configuration.logger_setting k l g.
Proof.
  intros Hf. unfold with_setting, Configuration.logger_setting. replace (find k l) with (Anys.any_find k l)
    by (induction l as [|[k' a] l IH]; [done|]; simpl; by destruct (String.eqb k k')).
  destruct (Anys.any_find k l) as [a|]; [|done]. unfold sm_bind, sm_lift. destruct (Anys.cast_string a); simpl; [apply Hf|done].
Qed.

Theorem settings_agree {system : System} value s :
  (forall f, open_log f = spd_open f) -> fst (setDefaultSettings value s) = Configuration.logger_settings value.
Proof.
  intros Ho. unfold setDefaultSettings, Configuration.logger_settings, sm_bind at 1, sm_lift. destruct (Anys.cast_map value) as [l|e]; [|done]. simpl.
  unfold sm_bind at 1. destruct (with_setting "level" l setLogLevel s) as [r1 s1] eqn:E1.
  apply (f_equal fst) in E1. rewrite (with_setting_throws _ _ _ (fun _ => Ok ())) in E1 by (intros t s'; unfold setLogLevel; by destruct (levelMap t)).
  simpl in E1. rewrite E1. destruct r1 as [[]|e]; [|done]. simpl.
  unfold sm_bind. destruct (with_setting "logFile" l setLogFile s1) as [r2 s2] eqn:E2.
  apply (f_equal fst) in E2. rewrite (with_setting_throws _ _ _ (fun f => if bool_decide (f = []) then Ok () else open_log f)) in E2
    by (intros t s'; unfold setLogFile, sm_bind, sm_lift; rewrite Ho; case_bool_decide; [done|]; by destruct (spd_open t) as [[]|]).
  simpl in E2. rewrite E2. destruct r2 as [[]|e]; [|done]. simpl. by rewrite (with_setting_throws _ _ _ (fun _ => Ok ())).
Qed.

(** A configuration of the logger that is no map is reported and then throws all the same; the level "error" is not known. *)
Theorem bad_settings value s :
  (forall l, value <> A_map l) -> setDefaultSettings value s = (Throw Bad_any_cast, s) /\ setLogLevel (chars "error") s = (Ok (), s).
Proof. intros H. split; [|done]. by destruct value as [| | | | | | | |l]; [..|destruct (H l)]. Qed.

End logger.
End Logger.

(** ** The queue *)

Module MTQueue.
Section queue.
Context {A : Type}.

(** The elements are pointers: [None] is [nullptr].  Every operation holds the mutex, so that the
    operations of the threads are done one after the other. *)
Definition queue : Type := list (option A).

Inductive Op := Op_push (v : option A) | Op_pop | Op_peek | Op_empty | Op_size.
Inductive Answer := Ans_none | Ans_value (v : option A) | Ans_bool (b : bool) | Ans_size (n : nat).

Definition MTQueue_new (l : list (option A)) : queue := foldl (fun q v => q ++ [v]) [] l.
Definition push (v : option A) (q : queue) : queue := q ++ [v].
Definition pop (q : queue) : option A * queue := match q with [] => (None, []) | v :: q => (v, q) end.
Definition peek (q : queue) : option A := match q with [] => None | v :: _ => v end.

Definition step (o : Op) (q : queue) : Answer * queue :=
  match o with
  | Op_push v => (Ans_none, push v q)
  | Op_pop => let '(v, q) := pop q in (Ans_value v, q)
  | Op_peek => (Ans_value (peek q), q)
  | Op_empty => (Ans_bool (bool_decide (q = [])), q)
  | Op_size => (Ans_size (length q), q)
  end.

Fixpoint run (l : list Op) (q : queue) : list (Op * Answer) * queue :=
  match l with [] => ([], q) | o :: l => let '(a, q) := step o q in let '(t, q) := run l q in ((o, a) :: t, q) end.

(** What was put in and what was taken out. *)
Definition pushed (l : list (Op * Answer)) : list (option A) := l ≫= (fun x => match x.1 with Op_push v => [v] | _ => [] end).
Definition popped (l : list (Op * Answer)) : list (option A) :=
  l ≫= (fun x => match x with (Op_pop, Ans_value (Some v)) => [Some v] | _ => [] end).

Definition non_null (q : list (option A)) : Prop := Forall is_Some q.

Lemma new_spec l : MTQueue_new l = l.
Proof.
  unfold MTQueue_new. assert (forall acc, foldl (fun q v => q ++ [v]) acc l = acc ++ l) as H; [|apply H].
  induction l as [|v l IH]; intros acc; simpl; [by rewrite app_nil_r|]. by rewrite IH, <- app_assoc.
Qed.

(** The operations of all threads, in the order they were done: as long as no null pointer is put in, what comes out
    is what was in the queue and what was put in, each once and in that order, and the queue has the rest. *)
Theorem queue_fifo ops q t q' :
  run ops q = (t, q') -> non_null q -> Forall (fun o => match o with Op_push v => is_Some v | _ => True end) ops ->
  popped t ++ q' = q ++ pushed t /\ non_null q'.
Proof.
  revert q t. induction ops as [|o ops IH]; intros q t; [intros [= <- <-] H _; by rewrite app_nil_r|]. cbn [run]. intros E Hq Ho.
  inversion_clear Ho as [|? ? Ho1 Ho2]. destruct (step o q) as [a q1] eqn:Es. destruct (run ops q1) as [t1 q2] eqn:Er. injection E as <- <-.
  destruct o as [v| | | |]; cbn [step] in Es.
  - injection Es as <- <-. destruct (IH _ _ Er) as [H1 H2]; [apply Forall_app; by split; [|constructor]|done|]. split; [|done].
    cbn. unfold push in H1. by rewrite <- app_assoc in H1.
  - destruct q as [|v q]; cbn [pop] in Es; injection Es as <- <-; [exact (IH _ _ Er Hq Ho2)|]. inversion_clear Hq as [|? ? [x ->] Hq'].
    destruct (IH _ _ Er Hq' Ho2) as [H1 H2]. split; [|done]. cbn. by f_equal.
  - injection Es as <- <-. exact (IH _ _ Er Hq Ho2).
  - injection Es as <- <-. exact (IH _ _ Er Hq Ho2).
  - injection Es as <- <-. exact (IH _ _ Er Hq Ho2).
Qed.

(** A null pointer in the queue looks like the end of it. *)
Theorem null_looks_empty (q : queue) : (pop (None :: q)).1 = (pop []).1 /\ peek (None :: q) = peek [].
Proof. done. Qed.

End queue.
End MTQueue.

(** ** Random numbers *)

(** [randombytes_random] and [randombytes_uniform], the [i]-th time they are called. *)
Class SodiumRandom := {
  randombytes_random : nat -> Z;
  randombytes_uniform : nat -> Z -> Z;
  randombytes_random_range i : 0 <= randombytes_random i < 2 ^ 32;
  randombytes_uniform_range i n : 0 <= randombytes_uniform i n /\ (0 < n -> randombytes_uniform i n < n)
}.

Module Random.
Section random.
Context {sodiumRandom : SodiumRandom}.

Definition M (A : Type) : Type := nat -> A * nat.

Definition uniform (n : Z) : M Z := fun i => (randombytes_uniform i n, S i).

Definition uint8 : M Z := fun i => let '(x, i) := uniform (255 + 1) i in (u8 x, i).
Definition uint8_below (upbound : Z) : M Z := fun i => let '(x, i) := uniform upbound i in (u8 x, i).
Definition uint16 : M Z := fun i => let '(x, i) := uniform (65535 + 1) i in (u16 x, i).
Definition uint16_below (upbound : Z) : M Z := fun i => let '(x, i) := uniform upbound i in (u16 x, i).
Definition uint32 : M Z := fun i => (randombytes_random i, S i).
Definition uint32_below (upbound : Z) : M Z := uniform upbound.
Definition uint64 : M Z := fun i => (Z.lor (u64 (Z.shiftl (randombytes_random i) 32)) (randombytes_random (S i)), S (S i)).
(** [None]: the division by zero. *)
Definition uint64_below (upbound : Z) : M (option Z) := fun i => let '(x, i) := uint64 i in (if upbound =? 0 then None else Some (x mod upbound), i).

(** A number of 64 bits is made of two of 32 bits. *)
Lemma uint64_parts i : uint64 i = (randombytes_random i * 2 ^ 32 + randombytes_random (S i), S (S i)).
Proof.
  unfold uint64. pose proof (randombytes_random_range i) as H. pose proof (randombytes_random_range (S i)) as H'.
  rewrite wrap_small by (rewrite Z.shiftl_mul_pow2 by lia; lia). by rewrite Version.lor_shift_add by lia.
Qed.

(** The numbers are in their ranges, and no narrowing changes them. *)
Theorem random_ranges i n :
  (uint8 i).1 = randombytes_uniform i 256 /\ (uint16 i).1 = randombytes_uniform i 65536 /\ 0 <= (uint64 i).1 < 2 ^ 64 /\
  (0 < n <= 255 -> 0 <= (uint8_below n i).1 < n) /\ (0 < n <= 65535 -> 0 <= (uint16_below n i).1 < n) /\
  (0 < n -> exists x, (uint64_below n i).1 = Some x /\ 0 <= x < n).
Proof.
  destruct (randombytes_uniform_range i 256) as [A1 A2]. destruct (randombytes_uniform_range i 65536) as [B1 B2].
  destruct (randombytes_uniform_range i n) as [C1 C2]. pose proof (randombytes_random_range i). pose proof (randombytes_random_range (S i)).
  split_and!.
  - unfold uint8, uniform. cbn [fst]. apply wrap_small. change (255 + 1) with 256. lia.
  - unfold uint16, uniform. cbn [fst]. apply wrap_small. change (65535 + 1) with 65536. lia.
  - rewrite uint64_parts. cbn [fst]. lia.
  - rewrite uint64_parts. cbn [fst]. lia.
  - intros Hn. unfold uint8_below, uniform. cbn [fst]. rewrite wrap_small; lia.
  - intros Hn. unfold uint16_below, uniform. cbn [fst]. rewrite wrap_small; lia.
  - intros Hn. unfold uint64_below. destruct (uint64 i) as [x j]. cbn [fst]. rewrite (proj2 (Z.eqb_neq n 0)) by lia. eexists. split; [reflexivity|].
    apply Z.mod_pos_bound. lia.
Qed.
End random.
End Random.

(** ** Witnesses *)

Section examples.
(** A registry as a map; every file can be opened. *)
#[local, refine] Instance toy_spdlog : Spdlog := {
  Registry := gmap (list Z) SpdLogger;
  spd_get n r := r !! n;
  spd_create n k r := match r !! n with Some _ => Throw Runtime_error | None => Ok (<[n := MkSpd 2 k None]> r) end;
  spd_update n f r := alter f n r;
  spd_writes l z := spd_level l <=? z;
  spd_open _ := Ok ();
  spd_from_file _ r := Ok r
}.
Proof.
  - intros n k r E. rewrite E. eexists _, (MkSpd 2 k None). split; [reflexivity|]. split; [done|]. intros m. case_bool_decide as Em; [subst; by rewrite lookup_insert_eq|].
    by rewrite lookup_insert_ne.
  - intros n f r m. case_bool_decide as Em; [subst; by rewrite lookup_alter_eq|by rewrite lookup_alter_ne].
  - done.
  - by intros config r r' n [= ->].
Defined.

Definition log0 : Logger.LogState := Logger.MkLog Logger.userSettings0 ∅.
Definition settings1 : list (string * Any) := [("level"%string, A_string (chars "debug")); ("logFile"%string, A_string (chars "log"))].
Definition log1 : Logger.LogState := (Logger.setDefaultSettings (A_map settings1) log0).2.

(** With the level "debug", messages of the level Info are written, and [isInfoEnabled] is false. *)
Lemma configured_level_witness :
  exists s, Logger.get (chars "dht") log1 = (Ok (chars "dht"), s) /\ Logger.log (chars "dht") Logger.Info s = true /\
    Logger.log (chars "dht") Logger.Trace s = false /\ Logger.isEnabled (chars "dht") Logger.Info s = false.
Proof.
  destruct (Logger.configured_level settings1 (chars "debug") 1 (chars "dht") (chars "node") log0 log1) as (s & E & H & _); [reflexivity..|].
  exists s. split; [exact E|]. split; [rewrite H; reflexivity|]. split; [rewrite H; reflexivity|].
  apply (f_equal snd) in E. cbn [snd] in E. rewrite <- E. vm_compute. reflexivity.
Defined.

(** Two threads use a queue. *)
Lemma queue_fifo_witness :
  let r := MTQueue.run [MTQueue.Op_push (Some 1); MTQueue.Op_push (Some 2); MTQueue.Op_pop; MTQueue.Op_push (Some 3); MTQueue.Op_size] [] in
  MTQueue.popped r.1 ++ r.2 = MTQueue.pushed r.1 /\ r.2 = [Some 2; Some 3].
Proof.
  intros r. split; [|reflexivity].
  refine (proj1 (MTQueue.queue_fifo _ [] r.1 r.2 (surjective_pairing _) _ _)); [constructor|repeat constructor; eexists; reflexivity].
Defined.
End examples.
