(* ===== verification/Sizes.v ===== *)
(** * The sizes of messages: [estimateSize] of the classes of [src/core/messages]

    A message gives an estimate of its encoded size, which the tests of the
    repository compare with the bytes.  The length of a CBOR encoding is the law
    [CborSize] of nlohmann/json: the heads of RFC 8949, the shortest that fit.  The
    estimates are upper bounds for all the messages the program makes. *)

From Stdlib Require Import String.
From S2P Require Import Prelude Ids Addresses Entries Values Texts Json Messages.

#[local] Open Scope carrier_scope.
#[local] Open Scope Z_scope.

(** ** The length of an encoding *)

(** The bytes of the head of a value with the argument [n]. *)
Definition cbor_head (n : Z) : Z :=
  if n <? 24 then 1 else if n <? 2 ^ 8 then 2 else if n <? 2 ^ 16 then 3 else if n <? 2 ^ 32 then 5 else 9.

Definition cbor_bytes (n : nat) : Z := cbor_head (Z.of_nat n) + Z.of_nat n.

Fixpoint cbor_length (j : json) : Z :=
  match j with
  | JNull | JBoolean _ => 1
  | JNumber z => cbor_head (if 0 <=? z then z else -1 - z)
  | JFloat _ => 9
  | JString s => cbor_bytes (length s)
  | JBinary b => cbor_bytes (length b)
  | JArray l => cbor_head (Z.of_nat (length l)) + foldr (fun x s => cbor_length x + s) 0 l
  | JObject l => cbor_head (Z.of_nat (length l)) + foldr (fun kv s => cbor_bytes (String.length kv.1) + cbor_length kv.2 + s) 0 l
  end.

Class CborSize {nlohmann : Nlohmann} : Prop :=
  to_cbor_length : forall j, json_ok j = true -> Z.of_nat (length (to_cbor j)) = cbor_length j.

Module Sizes.
Import Message.

Section sizes.
Context {sodium : Sodium} {nlohmann : Nlohmann} {cborSize : CborSize}.

(** ** [estimateSize] *)

Definition BASE_SIZE : Z := 56.

(** [strlen(s.c_str())] *)
Definition strlen (s : list Z) : Z := Z.of_nat (length (c_string s)).

Definition size_t {A} (l : list A) : Z := Z.of_nat (length l).

Definition lookup_request_size : Z := BASE_SIZE + 43.

Definition lookup_response_size (r : LookupResponse) : Z :=
  let node4Size := 44 in
  let node6Size := 56 in
  let tokenSize := 9 in
  let size := BASE_SIZE + 4 in
  let size := if bool_decide (nodes4 r = []) then size else size + (5 + node4Size * size_t (nodes4 r)) in
  let size := if bool_decide (nodes6 r = []) then size else size + (5 + node6Size * size_t (nodes6 r)) in
  size + (if lr_token r =? 0 then 0 else tokenSize).

Definition peer_size (p : PeerInfo) : Z :=
  (2 + 2 + 32 + 1 + 2 + 2 + 64) + (if PeerInfo.isDelegated p then 2 + 32 else 1) +
  match alternativeURL p with Some u => 2 + strlen u | None => 1 end.

Definition peers_size (peers : list PeerInfo) (size : Z) : Z :=
  if bool_decide (peers = []) then size else foldl (fun size p => size + peer_size p) (size + (2 + 2 + 2 + 32)) peers.

Definition announce_size (a : AnnouncePeerRequest) : Z :=
  let size := 4 + 9 + 36 + 5 + 6 + 64 in
  let size := size + match an_nodeId a with Some _ => 0 | None => 4 + 32 end in
  let size := size + (if bool_decide (an_alternativeURL a = []) then 0 else 6 + strlen (an_alternativeURL a)) in
  BASE_SIZE + size.

(** The estimate before its conversion to [int]. *)
Definition body_size (b : Body) : Z :=
  match b with
  | PingRequest | PingResponse | AnnouncePeerResponse | StoreValueResponse => BASE_SIZE
  | FindNodeRequest _ | FindPeerRequest _ => lookup_request_size
  | FindNodeResponse r => lookup_response_size r
  | AnnouncePeerRequest_ a => announce_size a
  | FindPeerResponse r peers => peers_size peers (lookup_response_size r)
  | StoreValueRequest_ s => BASE_SIZE + 208 + size_t (Value.s_value (sv_value s))
  | FindValueRequest _ _ => lookup_request_size + 9
  | FindValueResponse r v => lookup_response_size r + 195 + size_t (Value.s_value v)
  | ErrorMessage _ message _ => BASE_SIZE + 16 + size_t message
  end.

Definition estimateSize (b : Body) : Z := i32 (body_size b).

(** What bounds the estimates: nodes under the key of their family, URLs of less than
    65536 bytes without a zero byte, the signatures of the constructors, and an
    estimate that is an [int]. *)
Definition url_ok (u : list Z) : Prop := c_string u = u /\ size_t u < 2 ^ 16.
Definition nodes_ok (r : LookupResponse) : Prop := Forall (fun n => exists p ip, sockaddr n = SA_in p ip) (nodes4 r).
Definition signature_ok (v : Value.SentValue) : Prop := forall sig, Value.s_signature v = Some sig -> length sig = SIGNATURE_BYTES.

Definition body_ok (b : Body) : Prop :=
  match b with
  | FindNodeResponse r => nodes_ok r
  | AnnouncePeerRequest_ a => url_ok (an_alternativeURL a) /\ length (an_signature a) = SIGNATURE_BYTES
  | FindPeerResponse r peers => nodes_ok r /\ Forall (fun p => forall u, alternativeURL p = Some u -> url_ok u) peers
  | StoreValueRequest_ s => signature_ok (sv_value s)
  | FindValueResponse r v => nodes_ok r /\ signature_ok v
  | _ => True
  end.

(** ** Lemmas *)

Lemma cbor_head_pos n : 1 <= cbor_head n <= 9.
Proof. unfold cbor_head. repeat case_match; lia. Qed.

Lemma cbor_head_le n k m : n < m -> In (m, k) [(24, 1); (2 ^ 8, 2); (2 ^ 16, 3); (2 ^ 32, 5)] -> cbor_head n <= k.
Proof.
  intros Hn H. unfold cbor_head. simpl in H.
  destruct H as [[= <- <-]|[[= <- <-]|[[= <- <-]|[[= <- <-]|[]]]]];
    repeat match goal with |- context [n <? ?x] => destruct (Z.ltb_spec n x) end; lia.
Qed.

(** A long list pays for its head. *)
Lemma cbor_head_count n : 0 <= n -> cbor_head n <= 2 + n.
Proof. intros Hn. unfold cbor_head. repeat match goal with |- context [n <? ?x] => destruct (Z.ltb_spec n x) end; lia. Qed.

Lemma cbor_bytes_nonneg n : 0 <= cbor_bytes n.
Proof. unfold cbor_bytes. pose proof (cbor_head_pos (Z.of_nat n)). lia. Qed.

Lemma cbor_length_pos : forall j, 1 <= cbor_length j.
Proof.
  fix IH 1. intros [|b|z|b|s|b|l|l]; simpl; try lia.
  - apply cbor_head_pos.
  - unfold cbor_bytes. pose proof (cbor_head_pos (Z.of_nat (length s))). lia.
  - unfold cbor_bytes. pose proof (cbor_head_pos (Z.of_nat (length b))). lia.
  - pose proof (cbor_head_pos (Z.of_nat (length l))).
    assert (0 <= foldr (fun x s => cbor_length x + s) 0 l); [|lia].
    clear H. induction l as [|x l IHl]; simpl; [lia|]. specialize (IH x). lia.
  - pose proof (cbor_head_pos (Z.of_nat (length l))).
    assert (0 <= foldr (fun kv s => cbor_bytes (String.length kv.1) + cbor_length kv.2 + s) 0 l); [|lia].
    clear H. induction l as [|[k x] l IHl]; simpl; [lia|]. specialize (IH x). pose proof (cbor_bytes_nonneg (String.length k)). lia.
Qed.

Lemma cbor_length_nonneg j : 0 <= cbor_length j.
Proof. pose proof (cbor_length_pos j). lia. Qed.

Definition members_size (o : members) : Z := foldr (fun kv s => cbor_bytes (String.length kv.1) + cbor_length kv.2 + s) 0 o.

(** At most [n] members of at most [s] bytes. *)
Definition within (n : nat) (s : Z) (o : members) : Prop := (length o <= n)%nat /\ members_size o <= s.

Lemma within_nil : within 0 0 [].
Proof. by split. Qed.

Lemma within_set k v t n s o :
  within n s o -> cbor_bytes (String.length k) + cbor_length v <= t -> within (S n) (s + t) (json_set k v o).
Proof.
  intros [H1 H2] Ht. assert ((length (json_set k v o) <= S (length o))%nat /\
    members_size (json_set k v o) <= members_size o + cbor_bytes (String.length k) + cbor_length v) as [L1 L2]; [|split; lia].
  clear H1 H2. induction o as [|[k' v'] o [IH1 IH2]]; simpl; [lia|].
  pose proof (cbor_bytes_nonneg (String.length k')). pose proof (cbor_length_nonneg v').
  destruct (String.compare k k'); simpl; lia.
Qed.

Lemma within_when b k v t n s o :
  within n s o -> (b = true -> cbor_bytes (String.length k) + cbor_length v <= t) -> within (S n) (s + if b then t else 0) (set_when b k v o).
Proof. intros H Ht. destruct b; [by apply within_set; auto|]. rewrite Z.add_0_r. destruct H. split; [by apply Nat.le_le_succ_r|done]. Qed.

Lemma within_option {A} k (f : A -> json) t n s o x :
  within n s o -> (forall a, x = Some a -> cbor_bytes (String.length k) + cbor_length (f a) <= t) -> 0 <= t -> within (S n) (s + t) (set_option k f x o).
Proof. intros H Ht H0. destruct x as [a|]; [apply within_set; auto|]. destruct H. split; cbn [set_option]; lia. Qed.

Lemma within_le n m s t o : within n s o -> (n <= m)%nat -> s <= t -> within m t o.
Proof. intros [H1 H2] ??. split; lia. Qed.

Lemma object_size n s o : within n s o -> (n < 24)%nat -> cbor_length (JObject o) <= 1 + s.
Proof.
  intros [H1 H2] Hn. simpl. fold (members_size o). assert (cbor_head (Z.of_nat (length o)) <= 1); [|lia].
  apply (cbor_head_le _ _ 24); [lia|by left].
Qed.

Lemma int_size z : int32 z -> cbor_length (JNumber z) <= 5.
Proof. intros [H1 H2]. apply (cbor_head_le _ _ (2 ^ 32)); [destruct (Z.leb_spec 0 z); lia|simpl; tauto]. Qed.
Lemma port_size z : 0 <= z < 2 ^ 16 -> cbor_length (JNumber z) <= 3.
Proof. intros H. apply (cbor_head_le _ _ (2 ^ 16)); [destruct (Z.leb_spec 0 z); lia|simpl; tauto]. Qed.
Lemma byte_size z : 0 <= z < 2 ^ 8 -> cbor_length (JNumber z) <= 2.
Proof. intros H. apply (cbor_head_le _ _ (2 ^ 8)); [destruct (Z.leb_spec 0 z); lia|simpl; tauto]. Qed.
Lemma id_size i : cbor_length (json_of_id i) = 34.
Proof. simpl. by rewrite id_length. Qed.
Lemma short_size (l : list Z) k m : size_t l < m -> In (m, k) [(24, 1); (2 ^ 8, 2); (2 ^ 16, 3); (2 ^ 32, 5)] -> cbor_bytes (length l) <= k + size_t l.
Proof. intros H Hk. pose proof (cbor_head_le _ _ _ H Hk). unfold cbor_bytes, size_t in *. lia. Qed.
Lemma signature_size l : length l = SIGNATURE_BYTES -> cbor_length (JBinary l) = 66.
Proof. intros H. simpl. by rewrite H. Qed.
Lemma nonce_size l : length l = NONCE_BYTES -> cbor_length (JBinary l) = 26.
Proof. intros H. simpl. by rewrite H. Qed.
Lemma data_size l : cbor_length (JBinary l) <= 9 + size_t l.
Proof. simpl. unfold cbor_bytes, size_t. pose proof (cbor_head_pos (Z.of_nat (length l))). lia. Qed.

(** The parts of the messages. *)
Lemma node_size n k : node_wf n -> Z.of_nat (inaddrLength (sockaddr n)) <= k -> k < 24 -> cbor_length (json_of_node n) <= 39 + k.
Proof.
  intros [(Hp & _ & Hl) _] Hk Hk'. unfold json_of_node. cbn [cbor_length foldr length]. rewrite id_size.
  pose proof (port_size (port (sockaddr n)) Hp) as Hport. cbn [cbor_length] in Hport.
  assert (length (take (inaddrLength (sockaddr n)) (inaddr (sockaddr n))) = inaddrLength (sockaddr n)) as -> by (rewrite length_take; lia).
  assert (cbor_bytes (inaddrLength (sockaddr n)) <= 1 + k).
  { unfold cbor_bytes. pose proof (cbor_head_le (Z.of_nat (inaddrLength (sockaddr n))) 1 24) as H. simpl in H. specialize (H ltac:(lia) ltac:(tauto)). lia. }
  change (cbor_head (Z.of_nat 3)) with 1. lia.
Qed.

Lemma array_size {A} (f : A -> json) (t : Z) (l : list A) :
  Forall (fun x => cbor_length (f x) <= t) l -> cbor_length (JArray (f <$> l)) <= cbor_head (size_t l) + t * size_t l.
Proof.
  intros H. simpl. rewrite length_fmap. unfold size_t.
  assert (foldr (fun x s => cbor_length x + s) 0 (f <$> l) <= t * Z.of_nat (length l)); [|lia].
  induction H as [|x l Hx _ IH]; [simpl; lia|]. cbn [fmap list_fmap foldr length] in *. rewrite Nat2Z.inj_succ, Z.mul_succ_r. lia.
Qed.

Lemma nodes_size k l t n s o :
  String.length k = 2%nat -> Forall node_wf l -> Forall (fun x => Z.of_nat (inaddrLength (sockaddr x)) <= t - 40) l -> 40 <= t < 64 -> within n s o ->
  within (S n) (s + if bool_decide (l = []) then 0 else 5 + t * size_t l) (serialize_nodes k l o).
Proof.
  intros Hk Hw Hl Ht Ho. assert (forall a b, (if bool_decide (l = []) then a else b) = if negb (bool_decide (l = [])) then b else a :> Z) as -> by (by case_bool_decide).
  apply within_when; [done|]. intros _. rewrite Hk. change (cbor_bytes 2) with 3.
  assert (cbor_length (JArray (json_of_node <$> l)) <= cbor_head (size_t l) + (t - 1) * size_t l).
  { apply array_size. apply Forall_forall. intros x Hx. rewrite Forall_forall in Hw, Hl. specialize (Hl x Hx).
    pose proof (node_size x (t - 40) (Hw x Hx) Hl). lia. }
  assert (0 <= size_t l) as H0 by (unfold size_t; lia). pose proof (cbor_head_count (size_t l) H0). lia.
Qed.

Lemma response_size r : response_wf r -> nodes_ok r -> within 3 (lookup_response_size r - 60) (serialize_lookup_response r).
Proof.
  intros (H4 & H6 & Ht) Hn. unfold serialize_lookup_response, lookup_response_size.
  eapply within_le; [apply (within_when _ _ _ 9)| |].
  - apply (nodes_size _ _ 56); [done|done| |lia|apply (nodes_size _ _ 44); [done|done| |lia|apply within_nil]].
    + apply Forall_forall. intros x _. destruct (sockaddr x); simpl; lia.
    + eapply Forall_impl; [exact Hn|]. intros x (p & ip & ->). simpl. lia.
  - intros _. pose proof (int_size (lr_token r) Ht). change (cbor_bytes (String.length KEY_RES_TOKEN)) with 4. lia.
  - lia.
  - unfold BASE_SIZE. destruct (lr_token r =? 0); cbn [negb]; repeat case_bool_decide; lia.
Qed.

Lemma url_size u : url_ok u -> cbor_bytes (length u) <= 3 + strlen u.
Proof. intros [E H]. unfold strlen. rewrite E. apply (short_size u 3 (2 ^ 16) H). simpl. tauto. Qed.

Lemma peer_length i p : peer_wf i p -> (forall u, alternativeURL p = Some u -> url_ok u) -> cbor_length (json_of_peer p) <= peer_size p.
Proof.
  intros ((Hp & Hs & _) & _) Hu. unfold json_of_peer, peer_size. cbn [cbor_length foldr length].
  rewrite id_size, Hs. pose proof (port_size (p_port p)) as Hport. cbn [cbor_length] in Hport. specialize (Hport ltac:(lia)).
  assert (cbor_length (if PeerInfo.isDelegated p then json_of_id (p_origin p) else JNull) = if PeerInfo.isDelegated p then 34 else 1) as ->.
  { destruct (PeerInfo.isDelegated p); [apply id_size|done]. }
  assert (cbor_length match alternativeURL p with Some u => JString u | None => JNull end <= match alternativeURL p with Some u => 3 + strlen u | None => 1 end).
  { destruct (alternativeURL p) as [u|]; [|done]. by apply url_size, Hu. }
  change (cbor_head (Z.of_nat 5)) with 1. change (cbor_bytes SIGNATURE_BYTES) with 66.
  destruct (PeerInfo.isDelegated p), (alternativeURL p); lia.
Qed.

Lemma peers_size_sum peers size :
  peers <> [] -> peers_size peers size = size + 38 + foldr (fun p s => peer_size p + s) 0 peers.
Proof.
  intros Hne. unfold peers_size. rewrite bool_decide_eq_false_2 by done. change (2 + 2 + 2 + 32) with 38. clear Hne.
  generalize (size + 38) as acc. induction peers as [|p peers IH]; intros acc; simpl; [lia|]. rewrite IH. lia.
Qed.

Lemma peers_length i peers n s t o :
  Forall (peer_wf i) peers -> Forall (fun p => forall u, alternativeURL p = Some u -> url_ok u) peers -> within n s o ->
  within (S n) (s + (peers_size peers t - t) + 7) (serialize_peers peers o).
Proof.
  intros Hw Hu Ho. destruct peers as [|p peers]; [eapply within_le; [exact Ho|lia|]; unfold peers_size; simpl; lia|].
  rewrite peers_size_sum by done. cbn [serialize_peers]. eapply within_le; [eapply (within_set _ _ (45 + foldr (fun p s => peer_size p + s) 0 (p :: peers))); [exact Ho|]|lia|lia].
  change (cbor_bytes (String.length KEY_RES_PEERS)) with 2.
  assert (foldr (fun x s => cbor_length x + s) 0 (json_of_peer <$> p :: peers) <= foldr (fun p s => peer_size p + s) 0 (p :: peers)) as H.
  { clear -Hw Hu. induction (p :: peers) as [|q l IH]; [done|]. inversion Hw; inversion Hu; subst.
    cbn [fmap list_fmap foldr]. pose proof (peer_length i q) as Hq. specialize (Hq ltac:(done) ltac:(done)). specialize (IH ltac:(done) ltac:(done)). lia. }
  set (sum := foldr (fun p s => peer_size p + s) 0 (p :: peers)) in *. set (l := json_of_peer <$> p :: peers) in *.
  cbn [cbor_length foldr]. rewrite id_size. match goal with |- context [cbor_head ?x] => pose proof (cbor_head_pos x) end. lia.
Qed.

Lemma announce_length a : int32 (an_token a) -> 0 <= an_port a < 2 ^ 16 -> url_ok (an_alternativeURL a) -> length (an_signature a) = SIGNATURE_BYTES ->
  within 6 (announce_size a - 22) (serialize_announce a).
Proof.
  intros Ht Hp Hu Hs. unfold serialize_announce, announce_size.
  pose proof (url_size _ Hu) as Hl. eapply within_le; [apply (within_when _ _ _ (7 + strlen (an_alternativeURL a)))| |].
  - apply (within_option _ _ (match an_nodeId a with Some _ => 36 | None => 0 end)); [unfold json_object; cbn [foldl fst snd]|intros i ->; by rewrite id_size|by case_match].
    eapply (within_set KEY_REQ_SIGNATURE _ 70); [eapply (within_set KEY_REQ_PORT _ 5); [eapply (within_set KEY_REQ_TARGET _ 36); [eapply (within_set KEY_REQ_TOKEN _ 9); [apply within_nil|]|]|]|].
    + change (cbor_bytes (String.length KEY_REQ_TOKEN)) with 4. pose proof (int_size _ Ht). lia.
    + by rewrite id_size.
    + change (cbor_bytes (String.length KEY_REQ_PORT)) with 2. pose proof (port_size _ Hp). lia.
    + by rewrite signature_size.
  - intros _. change (cbor_bytes (String.length KEY_REQ_ALT)) with 4. cbn [cbor_length]. lia.
  - lia.
  - unfold BASE_SIZE. destruct (an_nodeId a); case_bool_decide; cbn [negb]; lia.
Qed.

(** The members of a signed value: [owner] bytes stand for what all of them need. *)
Definition signed_size : Z := 36 + 38 + 28 + 70 + 9.

Lemma value_length v n s o o' : sent_wf v -> signature_ok v -> within n s o -> serialize_value v o = Ok o' ->
  within (n + 6) (s + signed_size + 11 + size_t (Value.s_value v)) o'.
Proof.
  intros (_ & Hseq & Hv) Hsig Ho. unfold serialize_value, signed_size. pose proof (data_size (Value.s_value v)) as Hd.
  assert (0 <= size_t (Value.s_value v)) by (unfold size_t; lia).
  assert (forall o1 m t, within m t o1 -> (m <= n + 5)%nat -> t <= s + 181 ->
    within (n + 6) (s + (36 + 38 + 28 + 70 + 9) + 11 + size_t (Value.s_value v)) (set_when (negb (bool_decide (Value.s_value v = []))) KEY_RES_VALUE (JBinary (Value.s_value v)) o1)) as Hend.
  { intros o1 m t H1 Hm Ht. eapply within_le; [apply (within_when _ _ _ (11 + size_t (Value.s_value v))); [exact H1|]|lia|destruct (negb _); lia].
    intros _. change (cbor_bytes (String.length KEY_RES_VALUE)) with 2. lia. }
  destruct (Value.s_publicKey v) as [pk|]; [|intros [= <-]; eapply Hend; [exact Ho|lia|lia]].
  destruct (Hv pk eq_refl) as (nonce & sig & -> & Hn & _ & Es & _). rewrite Es. cbn. intros [= <-].
  eapply (Hend _ (S (S (S (S (S n)))))); [eapply (within_set KEY_RES_SIGNATURE _ 70); [eapply (within_when _ _ _ 9); [eapply (within_set KEY_RES_NONCE _ 28);
    [eapply (within_option _ _ 38); [eapply (within_set KEY_RES_PUBLICKEY _ 36); [exact Ho|]| |]|]|]|]|lia|destruct (0 <=? _); lia].
  - by rewrite id_size.
  - intros a _. by rewrite id_size.
  - lia.
  - by rewrite nonce_size.
  - intros _. change (cbor_bytes (String.length KEY_RES_SEQ)) with 4. pose proof (int_size _ Hseq). lia.
  - by rewrite (signature_size sig (Hsig sig Es)).
Qed.

Lemma store_length q o : int32 (sv_token q) -> int32 (expectedSequenceNumber q) -> sent_wf (sv_value q) -> signature_ok (sv_value q) ->
  serialize_store q = Ok o -> within 8 (9 + 9 + signed_size + 11 + size_t (Value.s_value (sv_value q))) o.
Proof.
  intros Ht Hcas (_ & Hseq & Hv) Hsig. unfold serialize_store, signed_size. set (v := sv_value q) in *. pose proof (data_size (Value.s_value v)) as Hd.
  assert (within 1 (0 + 9) (json_set KEY_REQ_TOKEN (JNumber (sv_token q)) [])) as Ho.
  { apply within_set; [apply within_nil|]. change (cbor_bytes (String.length KEY_REQ_TOKEN)) with 4. pose proof (int_size _ Ht). lia. }
  set (o0 := json_set KEY_REQ_TOKEN (JNumber (sv_token q)) []) in *. clearbody o0.
  assert (forall o1 m t, within m t o1 -> (m <= 7)%nat -> t <= 199 ->
    within 8 (9 + 9 + (36 + 38 + 28 + 70 + 9) + 11 + size_t (Value.s_value v)) (json_set KEY_REQ_VALUE (JBinary (Value.s_value v)) o1)) as Hend.
  { intros o1 m t H1 Hm Ht1. eapply within_le; [apply (within_set _ _ (11 + size_t (Value.s_value v))); [exact H1|]|lia|lia].
    change (cbor_bytes (String.length KEY_REQ_VALUE)) with 2. lia. }
  destruct (Value.s_publicKey v) as [pk|]; [|intros [= <-]; eapply Hend; [exact Ho|lia|lia]].
  destruct (Hv pk eq_refl) as (nonce & sig & -> & Hn & _ & Es & _). rewrite Es. cbn [need]. cbv beta iota. intros [= <-].
  eapply Hend; [eapply (within_when _ _ _ 9); [eapply (within_when _ _ _ 9); [eapply (within_set KEY_REQ_SIGNATURE _ 70); [eapply (within_set KEY_REQ_NONCE _ 28);
    [eapply (within_option _ _ 38); [eapply (within_set KEY_REQ_PUBLICKEY _ 36); [exact Ho|]| |]|]|]|]|]|lia|destruct (0 <=? _), (0 <=? _); lia].
  - by rewrite id_size.
  - intros a _. by rewrite id_size.
  - lia.
  - by rewrite nonce_size.
  - by rewrite (signature_size sig (Hsig sig Es)).
  - intros _. change (cbor_bytes (String.length KEY_REQ_SEQ)) with 4. pose proof (int_size _ Hseq). lia.
  - intros _. change (cbor_bytes (String.length KEY_REQ_CAS)) with 4. pose proof (int_size _ Hcas). lia.
Qed.

Lemma lookup_request_length q : within 2 39 (serialize_lookup_request q).
Proof.
  unfold serialize_lookup_request, json_object. cbn [foldl fst snd].
  eapply (within_le 2 _ (0 + 36 + 3)); [|lia|lia]. apply within_set; [apply within_set; [apply within_nil|by rewrite id_size]|].
  unfold getWant. by destruct (want4 q), (want6 q), (wantToken q).
Qed.

Lemma body_length b o : body_wf b -> body_ok b -> serialize_body b = Ok (Some o) ->
  exists n, (n < 24)%nat /\ within n (body_size b - 22) o.
Proof.
  intros Hw Hb He. destruct b as [| |q|r|a| |q|r ps|st| |q seq|r v|m text code]; simpl in He; try done.
  - injection He as <-. exists 2%nat. split; [lia|]. eapply within_le; [apply lookup_request_length|lia|done].
  - injection He as <-. exists 3%nat. split; [lia|]. eapply within_le; [by apply response_size|lia|simpl; lia].
  - injection He as <-. exists 6%nat. split; [lia|]. destruct Hw as (H1 & H2 & _). by apply announce_length; [..|apply Hb|apply Hb].
  - injection He as <-. exists 2%nat. split; [lia|]. eapply within_le; [apply lookup_request_length|lia|done].
  - injection He as <-. destruct Hw as [Hr (i & Hp)], Hb as [Hn Hu]. exists 4%nat. split; [lia|].
    eapply within_le; [eapply (peers_length i ps 3 _ (lookup_response_size r)); [done|done|by apply response_size]|lia|simpl; lia].
  - destruct (serialize_store st) as [o'|] eqn:E; [|done]. injection He as <-. destruct Hw as (H1 & H2 & H3). exists 8%nat. split; [lia|].
    eapply within_le; [by apply (store_length st)|lia|]. unfold signed_size. simpl. unfold BASE_SIZE, size_t. lia.
  - injection He as <-. exists 3%nat. split; [lia|].
    eapply within_le; [apply (within_when _ _ _ 9); [apply lookup_request_length|]|lia|destruct (0 <=? seq); simpl; unfold lookup_request_size, BASE_SIZE; lia].
    intros _. change (cbor_bytes (String.length KEY_RES_SEQ)) with 4. pose proof (int_size _ Hw). lia.
  - destruct (serialize_value v (serialize_lookup_response r)) as [o'|] eqn:E; [|done]. injection He as <-. destruct Hw as [Hr Hv], Hb as [Hn Hs].
    exists 9%nat. split; [lia|]. eapply within_le; [eapply (value_length v 3); [done|done|by apply response_size|exact E]|lia|]. unfold signed_size. simpl. lia.
  - injection He as <-. exists 2%nat. split; [lia|]. unfold json_object. cbn [foldl fst snd]. destruct Hw as [_ Hc].
    eapply within_le; [eapply (within_set KEY_ERR_MESSAGE _ (11 + size_t text)); [eapply (within_set KEY_ERR_CODE _ 7); [apply within_nil|]|]|lia|simpl; unfold BASE_SIZE; lia].
    + change (cbor_bytes (String.length KEY_ERR_CODE)) with 2. pose proof (int_size _ Hc). lia.
    + change (cbor_bytes (String.length KEY_ERR_MESSAGE)) with 2. pose proof (data_size text) as H. cbn [cbor_length] in *. lia.
Qed.

(** ** Properties *)

(** C34: The estimated size of a message is an upper bound of the size of its
    encoding, as the tests of the messages check for examples: for every message
    the program makes, with IPv4 addresses under [n4], signatures of 64 bytes
    and URLs of less than 65536 bytes without a zero byte, as long as the
    estimate fits an [int]. *)
Theorem estimate_bounds_size (m : Message) (l : list Z) :
  message_wf m -> body_ok (body m) -> body_size (body m) < 2 ^ 31 -> serialize m = Ok l ->
  Z.of_nat (length l) <= estimateSize (body m).
Proof.
  intros Hm Hb Hint Hs. destruct (message_spec 0 0 m Hm) as (root & Er & Hok & _). unfold serialize in Hs. rewrite Er in Hs.
  simpl in Hs. injection Hs as <-. rewrite to_cbor_length by done.
  assert (cbor_length (JObject root) <= body_size (body m)) as Hle.
  { destruct Hm as (Htx & Hv & Hw). unfold serializeInternal in Er. destruct (serialize_body (body m)) as [o|] eqn:Eo; [|done].
    set (rest := json_set KEY_VERSION _ _) in Er.
    assert (within 3 (0 + 4 + 7 + 7) rest) as Hrest.
    { apply within_set; [apply within_set; [apply within_set; [apply within_nil|]|]|].
      - change (cbor_bytes (String.length KEY_TYPE)) with 2. pose proof (byte_size _ (type_byte (body m))). lia.
      - change (cbor_bytes (String.length KEY_TXID)) with 2. pose proof (int_size _ Htx). lia.
      - change (cbor_bytes (String.length KEY_VERSION)) with 2. pose proof (int_size _ Hv). lia. }
    clearbody rest. destruct o as [o|].
    - rewrite getKeyString_ok in Er. simpl in Er. injection Er as <-. destruct (body_length _ _ Hw Hb Eo) as (n & Hn & Ho).
      pose proof (object_size _ _ _ Ho Hn) as H1.
      pose proof (within_set (key_of_type (class_of (body m)).1) (JObject o) (2 + cbor_length (JObject o)) _ _ _ Hrest) as H2.
      specialize (H2 ltac:(by destruct (class_of (body m)).1)). pose proof (object_size _ _ _ H2). lia.
    - injection Er as <-. pose proof (object_size _ _ _ Hrest). assert (56 <= body_size (body m)); [|lia].
      destruct (body m); simpl in Eo; try done; repeat case_match; try done; simplify_eq. }
  unfold estimateSize. pose proof (cbor_length_nonneg (JObject root)). rewrite (swrap_small 32) by lia. done.
Qed.

End sizes.
End Sizes.

(** ** Witnesses *)

#[local] Existing Instances toy_sodium json_eq_dec json_countable.

(** A stand-in whose encodings have the lengths of CBOR. *)
#[local, refine] Instance sized_json : Nlohmann := {
  get_int := toy_get i32;
  get_uint16 := toy_get u16;
  get_uint8 := toy_get u8;
  get_uint64 := toy_get u64;
  get_int64 := toy_get i64;
  to_cbor j := Zpos (encode j) :: replicate (Z.to_nat (cbor_length j - 1)) 0;
  from_cbor l := match l with Zpos p :: _ => decode p | _ => None end
}.
Proof.
  - done.
  - done.
  - done.
  - done.
  - done.
  - intros j z. destruct j; simpl; try done. intros [= <-]. by apply (swrap_bound 32).
  - intros j z. destruct j; simpl; try done. intros [= <-]. by apply wrap_bound.
  - intros j z. destruct j; simpl; try done. intros [= <-]. by apply wrap_bound.
  - done.
  - intros j _. apply decode_encode.
Defined.

#[local] Instance sized_cbor : CborSize.
Proof. intros j _. cbn [to_cbor sized_json length]. rewrite length_replicate. pose proof (Sizes.cbor_length_pos j). lia. Qed.

(** An announcement of a delegated peer, whose node id the estimate does not count. *)
Definition announce0 : Message.Message :=
  Message.MkMessage (- 2 ^ 31) (- 2 ^ 31) (Message.AnnouncePeerRequest_
    (Message.MkAnnounce (- 2 ^ 31) MAX_ID (Some MAX_ID) 65535 [104] (replicate 64 255))).

Lemma announce0_wf : Message.message_wf announce0.
Proof.
  split; [by split|]. split; [by split|]. split; [by split|]. split; [simpl; lia|]. simpl.
  split; [by repeat constructor|]. repeat constructor; lia.
Qed.

Lemma estimate_bounds_size_witness :
  exists l, Message.serialize announce0 = Ok l /\ Z.of_nat (length l) <= 187 /\ Sizes.estimateSize (Message.body announce0) = 187.
Proof.
  destruct (Message.wire_spec 0 0 announce0 announce0_wf) as (l & E & _).
  exists l. split; [exact E|]. split; [|vm_compute; reflexivity].
  apply (Sizes.estimate_bounds_size announce0 l).
  - exact announce0_wf.
  - split; [by split|reflexivity].
  - vm_compute. reflexivity.
  - exact E.
Defined.
