(* ===== verification/Transport.v ===== *)
(** * The transport of messages: [sendData], [periodic] and the opening of datagrams of
    [src/core/rpcserver.cc]

    A datagram is the sender's id and the serialised message, encrypted with the
    keys of the node.  [sendto] is a parameter: its answer may depend on all
    datagrams before.  Messages that could not be sent wait in a queue, which the
    receiving thread empties between two datagrams.  The file puts the components
    together: what one node sends is what the server of the other handles. *)

From S2P Require Import Prelude Ids Addresses Entries RpcServer Values Texts Crypto Frames Json Messages Configurations Printers.

#[local] Open Scope carrier_scope.

(** A message with the members that are not sent. *)
Record Packet := MkPacket { pk_id : Id; pk_remoteId : Id; pk_remoteAddr : SocketAddress; pk_message : Message.Message }.

Record Transport := MkTransport {
  sock4 : Z;
  sock6 : Z;
  messageQueue : list Packet;
  tp_keys : NodeKeys;
  tp_log : list (list Z * SocketAddress)      (* the datagrams handed to [sendto], the last one first *)
}.

Definition EAGAIN : Z := 11.

(** The answer of [sendto]: its return value, and [errno]. *)
Class Socket := { sendto : list (list Z * SocketAddress) -> Z -> list Z -> SocketAddress -> Z * Z }.

Module Transport.

Section transport.
Context {sodium : Sodium} {sodiumBox : SodiumBox} {nlohmann : Nlohmann} {sodiumHex : SodiumHex} {netdb : NetDb} {socket : Socket}.
Variables (localId : Id) (uninit_token uninit_port : Z) (send : Message -> result unit).

(** ** Sending *)

(** The first part of [sendMessage] *)
Definition stamp (p : Packet) : Packet :=
  MkPacket localId (pk_remoteId p) (pk_remoteAddr p)
    (Message.MkMessage (Message.txid (pk_message p)) (Version.build Version.NODE_SHORT_NAME Version.NODE_VERSION) (Message.body (pk_message p))).

Definition socket_of (a : SocketAddress) (t : Transport) : Z := if family a =? AF_INET then sock4 t else sock6 t.

Definition set_keys (k : NodeKeys) (t : Transport) : Transport := MkTransport (sock4 t) (sock6 t) (messageQueue t) k (tp_log t).
Definition set_queue (q : list Packet) (t : Transport) : Transport := MkTransport (sock4 t) (sock6 t) q (tp_keys t) (tp_log t).
Definition set_log (l : list (list Z * SocketAddress)) (t : Transport) : Transport := MkTransport (sock4 t) (sock6 t) (messageQueue t) (tp_keys t) l.

(** The bytes of a message, and the new state of the node's cache. *)
Definition datagram (now : Z) (p : Packet) (k : NodeKeys) : result (list Z) * NodeKeys :=
  match Message.serialize (pk_message p) with
  | Throw e => (Throw e, k)
  | Ok buffer =>
      let '(encrypted, k) := NodeCrypto.encrypt now (pk_remoteId p) buffer k in
      (c <-! encrypted; Ok (bytes (pk_id p) ++ c), k)
  end.

Definition sendData (now : Z) (p : Packet) (t : Transport) : result Z * Transport :=
  let addr := pk_remoteAddr p in
  if sa_empty addr then (Throw Runtime_error, t)
  else if socket_of addr t <? 0 then (Throw Runtime_error, t)
  else
    let '(buf, k) := datagram now p (tp_keys t) in
    let t := set_keys k t in
    match buf with
    | Throw e => (Throw e, t)
    | Ok buf =>
        let '(ret, errno) := sendto (tp_log t) (socket_of addr t) buf addr in
        let t := set_log ((buf, addr) :: tp_log t) t in
        if (ret =? 0) || ((ret =? -1) && (errno =? EAGAIN)) then (Ok EAGAIN, set_queue (messageQueue t ++ [p]) t)
        else if ret =? -1 then (Ok errno, t)
        else (_ <-! Printer.log_arguments (pk_message p); Ok 0, t)      (* the text for the log *)
    end.

(** The loop of [periodic]; an exception leaves the function. *)
Fixpoint resend (fuel : nat) (now : Z) (t : Transport) : run (result unit * Transport) :=
  match fuel with
  | O => Unfinished
  | S fuel =>
      match messageQueue t with
      | [] => Returned (Ok (), t)
      | p :: q =>
          match sendData now p (set_queue q t) with
          | (Throw e, t) => Returned (Throw e, t)
          | (Ok _, t) => resend fuel now t
          end
      end
  end.

(** ** Receiving *)

Definition rpc_type (t : Message.MsgType) : MsgType :=
  match t with Message.REQUEST => REQUEST | Message.RESPONSE => RESPONSE | Message.ERR => ERR_MSG end.

(** The part of a message that the server looks at. *)
Definition rpc_message (m : Message.Message) : Message :=
  MkMessage (rpc_type (Message.class_of (Message.body m)).1) (Message.method_value (Message.class_of (Message.body m)).2)
    (Message.txid m) zero zero SA_unspec SA_unspec.

(** [node.decrypt] and [Message::parse] in [handlePacket] *)
Definition open (now : Z) (k : NodeKeys) (sender : Id) (cipher : list Z) : option Message.Message :=
  match (NodeCrypto.decrypt now sender cipher k).1 with
  | Ok buffer => match Message.parse uninit_token uninit_port buffer with Ok m => Some m | Throw _ => None end
  | Throw _ => None
  end.

(** What the server makes of it: exceptions of decryption and parsing are caught, a read outside of an array and
    a text of a null pointer are none, and the text of the message for the log may throw. *)
Definition open_message (now : Z) (k : NodeKeys) (sender : Id) (cipher : list Z) : option (result Message) :=
  match (NodeCrypto.decrypt now sender cipher k).1 with
  | Throw _ => None
  | Ok buffer =>
      match Message.parse uninit_token uninit_port buffer with
      | Ok m => Some (_ <-! Printer.log_arguments m; Ok (rpc_message m))
      | Throw Out_of_bounds => Some (Throw Out_of_bounds)
      | Throw Undefined_behaviour => Some (Throw Undefined_behaviour)
      | Throw _ => None
      end
  end.

(** ** Lemmas *)

Lemma open_message_ok now k sender cipher m :
  open now k sender cipher = Some m -> open_message now k sender cipher = Some (_ <-! Printer.log_arguments m; Ok (rpc_message m)).
Proof.
  unfold open, open_message. destruct (NodeCrypto.decrypt now sender cipher k).1 as [buffer|]; [|done].
  destruct (Message.parse _ _ buffer) as [m'|]; [|done]. by intros [= ->].
Qed.

Lemma open_datagram (ska skb : list Z) ida idb a0 b0 a b (now now' : Z) (p : Packet) (buf : list Z) :
  secret_key ska -> NodeCrypto.NodeKeys_new (Signature.KeyPair_copy ska) = Ok (ida, a0) -> rtc NodeCrypto.keys_step a0 a ->
  secret_key skb -> NodeCrypto.NodeKeys_new (Signature.KeyPair_copy skb) = Ok (idb, b0) -> rtc NodeCrypto.keys_step b0 b ->
  pk_id p = ida -> pk_remoteId p = idb -> Message.message_wf (pk_message p) ->
  (forall l, Message.serialize (pk_message p) = Ok l -> Z.of_nat (length l) < 2 ^ 63) ->
  fst (datagram now p a) = Ok buf ->
  exists cipher, buf = bytes ida ++ cipher /\ open now' b ida cipher = Some (Message.received (pk_message p)).
Proof.
  intros Ka Ha Ra Kb Hb Rb Hi Hr Hw Hl Hd. destruct (Message.wire_spec uninit_token uninit_port (pk_message p) Hw) as (l & E1 & E2).
  unfold datagram in Hd. rewrite E1, Hr, Hi in Hd. destruct (NodeCrypto.encrypt now idb l a) as [[c|e] k] eqn:Ee; [|done].
  simpl in Hd. injection Hd as <-. exists c. split; [done|]. unfold open.
  rewrite (proj1 (NodeCrypto.nodes_decrypt ska skb l c ida idb a0 b0 a b now now' Ka Ha Ra Kb Hb Rb (Hl l E1) ltac:(by rewrite Ee))).
  by rewrite E2.
Qed.

(** What the server of the other node does with a datagram. *)
Lemma handle_datagram (ska skb : list Z) ida idb a0 b0 a b (now now' : Z) (p : Packet) (buf : list Z) (from : SocketAddress) (dht6 : bool) (s : RPCServer) :
  secret_key ska -> NodeCrypto.NodeKeys_new (Signature.KeyPair_copy ska) = Ok (ida, a0) -> rtc NodeCrypto.keys_step a0 a ->
  secret_key skb -> NodeCrypto.NodeKeys_new (Signature.KeyPair_copy skb) = Ok (idb, b0) -> rtc NodeCrypto.keys_step b0 b ->
  pk_id p = ida -> pk_remoteId p = idb -> Message.message_wf (pk_message p) -> Message.txid (pk_message p) <> 0 ->
  Printer.printable (Message.body (pk_message p)) = true ->
  (forall l, Message.serialize (pk_message p) = Ok l -> Z.of_nat (length l) < 2 ^ 63) ->
  fst (datagram now p a) = Ok buf ->
  mk_id (take 32 buf) = ida /\
  open now' b ida (drop 32 buf) = Some (Message.received (pk_message p)) /\
  RPCServer.handlePacket idb dht6 (open_message now' b) send now' buf from s =
    RPCServer.handle_parsed idb dht6 send now' (RPCServer.with_source (rpc_message (pk_message p)) ida from) (RPCServer.count_received s).
Proof.
  intros Ka Ha Ra Kb Hb Rb Hi Hr Hw Hx Hp Hl Hd.
  destruct (open_datagram ska skb ida idb a0 b0 a b now now' p buf) as (cipher & -> & Ho); try done.
  assert (drop 32 (bytes ida ++ cipher) = cipher) as Hdrop by (apply drop_app_length'; by rewrite id_length).
  assert (mk_id (take 32 (bytes ida ++ cipher)) = ida) as Hid by (by rewrite take_app_length', PeerInfo.mk_id_bytes by (by rewrite id_length)).
  split; [done|]. rewrite Hdrop. split; [done|].
  unfold RPCServer.handlePacket. rewrite length_app, id_length. change (32 + length cipher <? 32)%nat with false.
  rewrite Hdrop, Hid. rewrite (open_message_ok _ _ _ _ _ Ho).
  rewrite Printer.printed by (by apply Printer.printable_received).
  assert (rpc_message (Message.received (pk_message p)) = rpc_message (pk_message p)) as ->.
  { unfold rpc_message, Message.received. cbn [Message.body Message.txid]. by destruct (Message.body (pk_message p)). }
  assert ((m_txid (RPCServer.with_source (rpc_message (pk_message p)) ida from) =? 0) = false) as -> by (by apply Z.eqb_neq).
  rewrite andb_false_r. by destruct (RPCServer.handle_parsed _ _ _ _ _ _) as [[ev|e] s'].
Qed.

Lemma resend_step fuel now p q t :
  messageQueue t = p :: q ->
  resend (S fuel) now t =
  match sendData now p (set_queue q t) with (Throw e, t) => Returned (Throw e, t) | (Ok _, t) => resend fuel now t end.
Proof. intros E. simpl. by rewrite E. Qed.

(** The bytes of a datagram do not depend on the cache of the node. *)
Lemma datagram_keys now p k k' :
  NodeCrypto.keys_ok k -> NodeCrypto.same_keys k k' -> fst (datagram now p k') = fst (datagram now p k).
Proof.
  intros Hk (Hk' & _ & He). unfold datagram. destruct (Message.serialize (pk_message p)) as [l|]; [|done].
  destruct (NodeCrypto.context_spec now (pk_remoteId p) k Hk) as (k1 & E1 & _).
  destruct (NodeCrypto.context_spec now (pk_remoteId p) k' Hk') as (k2 & E2 & _).
  unfold NodeCrypto.encrypt. rewrite E1, E2, He. done.
Qed.

Lemma datagram_same now p k : NodeCrypto.keys_ok k -> NodeCrypto.same_keys k (datagram now p k).2.
Proof.
  intros Hk. unfold datagram. destruct (Message.serialize (pk_message p)) as [l|]; [|by split_and!].
  destruct (NodeCrypto.context_spec now (pk_remoteId p) k Hk) as (k1 & E1 & H1). unfold NodeCrypto.encrypt. by rewrite E1.
Qed.

(** A message that can be sent: its address has a socket, and its bytes and its text can be made. *)
Definition sendable (now : Z) (t : Transport) (p : Packet) : Prop :=
  sa_empty (pk_remoteAddr p) = false /\ 0 <= socket_of (pk_remoteAddr p) t /\ Printer.printable (Message.body (pk_message p)) = true /\
  exists buf, fst (datagram now p (tp_keys t)) = Ok buf.

(** The state of the transport but for the queue, the cache and the log. *)
Definition same_transport (t t' : Transport) : Prop :=
  sock4 t' = sock4 t /\ sock6 t' = sock6 t /\ NodeCrypto.same_keys (tp_keys t) (tp_keys t').

Lemma sendable_same now t t' p :
  NodeCrypto.keys_ok (tp_keys t) -> same_transport t t' -> sendable now t p -> sendable now t' p.
Proof.
  intros Hk (H4 & H6 & Hs) (H1 & H2 & Hp & buf & H3). split; [done|]. split; [unfold socket_of in *; by rewrite H4, H6|]. split; [done|].
  exists buf. by rewrite (datagram_keys now p (tp_keys t)).
Qed.

Lemma sendData_spec now p t :
  NodeCrypto.keys_ok (tp_keys t) -> sendable now t p ->
  exists buf rc t', fst (datagram now p (tp_keys t)) = Ok buf /\ sendData now p t = (Ok rc, t') /\ same_transport t t' /\
    tp_log t' = (buf, pk_remoteAddr p) :: tp_log t /\
    let '(ret, errno) := sendto (tp_log t) (socket_of (pk_remoteAddr p) t) buf (pk_remoteAddr p) in
    messageQueue t' = if (ret =? 0) || ((ret =? -1) && (errno =? EAGAIN)) then messageQueue t ++ [p] else messageQueue t.
Proof.
  intros Hk (H1 & H2 & Hp & buf & H3). pose proof (datagram_same now p _ Hk) as Hs. unfold sendData. rewrite H1, (proj2 (Z.ltb_ge _ _) H2).
  destruct (datagram now p (tp_keys t)) as [r k] eqn:E. simpl in H3, Hs. subst r. cbn [set_keys tp_log].
  change (socket_of (pk_remoteAddr p) (set_keys k t)) with (socket_of (pk_remoteAddr p) t).
  rewrite (Printer.printed (pk_message p) Hp). exists buf. destruct (sendto _ _ _ _) as [ret errno]. destruct ((ret =? 0) || _); [|destruct (ret =? -1)]; do 2 eexists;
    (split; [reflexivity|]; split; [reflexivity|]; split; [split; [done|]; by split|]; by split).
Qed.

Lemma same_transport_trans t1 t2 t3 : same_transport t1 t2 -> same_transport t2 t3 -> same_transport t1 t3.
Proof. intros (H1 & H2 & _ & H4 & H5) (K1 & K2 & K3 & K4 & K5). repeat split; [congruence..|done|congruence|congruence]. Qed.

Lemma queue_sendable now t q : Forall (sendable now t) q -> Forall (sendable now (set_queue q t)) q.
Proof. done. Qed.

(** One turn of the loop, with a message that can be sent. *)
Lemma resend_turn fuel now t p q :
  NodeCrypto.keys_ok (tp_keys t) -> messageQueue t = p :: q -> Forall (sendable now t) (p :: q) ->
  exists buf t', fst (datagram now p (tp_keys t)) = Ok buf /\ resend (S fuel) now t = resend fuel now t' /\
    same_transport t t' /\ Forall (sendable now t') (p :: q) /\ tp_log t' = (buf, pk_remoteAddr p) :: tp_log t /\
    let '(ret, errno) := sendto (tp_log t) (socket_of (pk_remoteAddr p) t) buf (pk_remoteAddr p) in
    messageQueue t' = if (ret =? 0) || ((ret =? -1) && (errno =? EAGAIN)) then q ++ [p] else q.
Proof.
  intros Hk Hq Hs. assert (sendable now (set_queue q t) p) as Hp by (by inversion Hs).
  destruct (sendData_spec now p (set_queue q t) Hk Hp) as (buf & rc & t' & E1 & E2 & E3 & E4 & E5).
  exists buf, t'. split; [done|]. split; [by rewrite (resend_step _ _ p q), E2|]. split; [done|]. split; [|by split].
  eapply Forall_impl; [exact Hs|]. intros x. by apply (sendable_same now t t').
Qed.

Lemma resend_drains now t :
  (forall log sock buf addr, sendto log sock buf addr <> (-1, EAGAIN) /\ (sendto log sock buf addr).1 <> 0) ->
  forall q, messageQueue t = q -> NodeCrypto.keys_ok (tp_keys t) -> Forall (sendable now t) q ->
  exists t', resend (S (length q)) now t = Returned (Ok (), t') /\ messageQueue t' = [] /\
    exists l, tp_log t' = reverse l ++ tp_log t /\
      Forall2 (fun p d => fst (datagram now p (tp_keys t)) = Ok d.1 /\ d.2 = pk_remoteAddr p) q l.
Proof.
  intros Hsend q. revert t. induction q as [|p q IH]; intros t Hq Hk Hs.
  { exists t. simpl. rewrite Hq. split; [done|]. split; [done|]. by exists []. }
  destruct (resend_turn (S (length q)) now t p q Hk Hq Hs) as (buf & t1 & E1 & E2 & Hsame & Hs1 & E3 & E4).
  destruct (Hsend (tp_log t) (socket_of (pk_remoteAddr p) t) buf (pk_remoteAddr p)) as [N1 N2].
  destruct (sendto _ _ _ _) as [ret errno]. simpl in N2. rewrite (proj2 (Z.eqb_neq _ _) N2) in E4. cbn [orb] in E4.
  destruct (Z.eqb_spec ret (-1)) as [Er|]; [destruct (Z.eqb_spec errno EAGAIN) as [Ee|]; [by rewrite Er, Ee in N1|]|]; cbn [andb] in E4.
  all: destruct (IH t1 E4) as (t2 & F1 & F2 & l & F3 & F4); [apply Hsame|by inversion Hs1|]; exists t2; split; [cbn [length]; by rewrite E2|];
    split; [done|]; exists ((buf, pk_remoteAddr p) :: l); split; [by rewrite F3, E3, reverse_cons, <- app_assoc|].
  all: constructor; [done|]; eapply Forall2_impl; [exact F4|]; intros x d [G1 G2]; split; [|done].
  all: rewrite <- G1; symmetry; apply datagram_keys; [done|apply Hsame].
Qed.

Lemma resend_spins now fuel :
  (forall log sock buf addr, sendto log sock buf addr = (-1, EAGAIN)) ->
  forall t, NodeCrypto.keys_ok (tp_keys t) -> Forall (sendable now t) (messageQueue t) -> messageQueue t <> [] -> resend fuel now t = Unfinished.
Proof.
  intros Hsend. induction fuel as [|fuel IH]; intros t Hk Hs Hne; [done|]. destruct (messageQueue t) as [|p q] eqn:Hq; [done|].
  destruct (resend_turn fuel now t p q Hk Hq Hs) as (buf & t1 & E1 & -> & Hsame & Hs1 & E3 & E4). rewrite Hsend in E4. simpl in E4.
  apply IH; [apply Hsame| |rewrite E4; by destruct q]. rewrite E4. apply Forall_app. inversion Hs1; subst. by split; [|constructor].
Qed.

(** ** Properties *)

(** C2: A message that one node sends is handled by the server of the other as the
    message of its sender, with its type, method and transaction id, and with the
    contents that survive the encoding; whatever both nodes did before.  The message
    has what its text needs, and the private keys are keys that libsodium made. *)
Theorem datagram_delivered (ska skb : list Z) ida idb a0 b0 t t' b (now now' rc : Z) (p : Packet) (from : SocketAddress) (dht6 : bool) (s : RPCServer) :
  secret_key ska -> NodeCrypto.NodeKeys_new (Signature.KeyPair_copy ska) = Ok (ida, a0) -> rtc NodeCrypto.keys_step a0 (tp_keys t) ->
  secret_key skb -> NodeCrypto.NodeKeys_new (Signature.KeyPair_copy skb) = Ok (idb, b0) -> rtc NodeCrypto.keys_step b0 b ->
  pk_id p = ida -> pk_remoteId p = idb -> Message.message_wf (pk_message p) -> Message.txid (pk_message p) <> 0 ->
  Printer.printable (Message.body (pk_message p)) = true ->
  (forall l, Message.serialize (pk_message p) = Ok l -> Z.of_nat (length l) < 2 ^ 63) ->
  sendData now p t = (Ok rc, t') ->
  exists buf, tp_log t' = (buf, pk_remoteAddr p) :: tp_log t /\
    open now' b ida (drop 32 buf) = Some (Message.received (pk_message p)) /\
    RPCServer.handlePacket idb dht6 (open_message now' b) send now' buf from s =
      RPCServer.handle_parsed idb dht6 send now' (RPCServer.with_source (rpc_message (pk_message p)) ida from) (RPCServer.count_received s).
Proof.
  intros Ka Ha Ra Kb Hb Rb Hi Hr Hw Hx Hp Hl Hsend. unfold sendData in Hsend. destruct (sa_empty _); [done|]. destruct (_ <? 0); [done|].
  destruct (datagram now p (tp_keys t)) as [[buf|e] k] eqn:Ed; [|done].
  assert (tp_log t' = (buf, pk_remoteAddr p) :: tp_log t) as Hlog.
  { destruct (sendto _ _ _ _) as [ret errno]. destruct (_ || _); [|destruct (ret =? -1)]; by injection Hsend as _ <-. }
  exists buf. split; [done|].
  destruct (handle_datagram ska skb ida idb a0 b0 (tp_keys t) b now now' p buf from dht6 s) as (_ & H1 & H2); try done. by rewrite Ed.
Qed.

(** While the socket takes the datagrams, the receiving thread empties the queue of
    waiting messages in one pass, each once and in their order; while the socket
    would block, the pass does not end. *)
Theorem resend_queue (now : Z) (t : Transport) :
  NodeCrypto.keys_ok (tp_keys t) -> Forall (sendable now t) (messageQueue t) ->
  ((forall log sock buf addr, sendto log sock buf addr <> (-1, EAGAIN) /\ (sendto log sock buf addr).1 <> 0) ->
    exists t', resend (S (length (messageQueue t))) now t = Returned (Ok (), t') /\ messageQueue t' = [] /\
      exists l, tp_log t' = reverse l ++ tp_log t /\
        Forall2 (fun p d => fst (datagram now p (tp_keys t)) = Ok d.1 /\ d.2 = pk_remoteAddr p) (messageQueue t) l) /\
  ((forall log sock buf addr, sendto log sock buf addr = (-1, EAGAIN)) -> messageQueue t <> [] ->
    forall fuel, resend fuel now t = Unfinished).
Proof.
  intros Hk Hs. split; [intros H; by apply resend_drains|]. intros H Hne fuel. by apply resend_spins.
Qed.

End transport.
End Transport.

(** ** Witnesses *)

#[local] Existing Instances toy_sodium toy_box toy_json hex.
#[local] Instance netdb0 : NetDb := toy_netdb [].

(** A socket that takes every datagram. *)
#[local] Instance toy_socket : Socket := {| sendto log sock buf addr := (Z.max 1 (Z.of_nat (length buf)), 0) |}.

Definition keys_of (sk : list Z) : NodeKeys := MkNodeKeys (Signature.KeyPair_copy sk) (CryptoBox.KeyPair_copy (sk_to_curve25519 sk)) ∅.
Definition packet0 : Packet :=
  MkPacket (mk_id (sk_to_pk (toy_key 1))) (mk_id (sk_to_pk (toy_key 2))) (SA_in 39001 [192; 168; 8; 100])
    (Message.MkMessage 9 1 (Message.FindNodeRequest_new MAX_ID true)).
Definition transport0 : Transport := MkTransport 3 (-1) [packet0; packet0] (keys_of (toy_key 1)) [].
Definition server0 : RPCServer := MkServer ∅ 1 0 0 0 false 0.

Lemma packet0_wf : Message.message_wf (pk_message packet0).
Proof. split; [by split|]. split; [by split|]. done. Qed.

Lemma packet0_sendable : Transport.sendable 5 transport0 packet0.
Proof.
  split; [reflexivity|]. split; [done|]. split; [reflexivity|]. unfold Transport.datagram.
  destruct (Message.wire_spec 0 0 (pk_message packet0) packet0_wf) as (l & -> & _).
  unfold NodeCrypto.encrypt. destruct (NodeCrypto.context 5 (pk_remoteId packet0) (tp_keys transport0)) as [[cc|e] k] eqn:E.
  - unfold CryptoContext.encrypt, CryptoBox.encrypt, CryptoBox.encrypt_into. rewrite Nat.ltb_irrefl. by eexists.
  - assert (match (NodeCrypto.context 5 (pk_remoteId packet0) (tp_keys transport0)).1 with Ok _ => true | Throw _ => false end = true) as H by (by vm_compute).
    by rewrite E in H.
Qed.

Lemma keys_of_ok sk : NodeCrypto.keys_ok (keys_of sk).
Proof. intros id e He. simpl in He. by rewrite lookup_empty in He. Qed.

Lemma datagram_delivered_witness :
  exists buf, Transport.open 0 0 7 (keys_of (toy_key 2)) (mk_id (sk_to_pk (toy_key 1))) (drop 32 buf) = Some (Message.received (pk_message packet0)).
Proof.
  destruct (Transport.sendData_spec 5 packet0 transport0 (keys_of_ok (toy_key 1)) packet0_sendable) as (buf & rc & t' & _ & E & _).
  destruct (Transport.datagram_delivered 0 0 (fun _ => Ok ()) (toy_key 1) (toy_key 2) (mk_id (sk_to_pk (toy_key 1))) (mk_id (sk_to_pk (toy_key 2))) (keys_of (toy_key 1)) (keys_of (toy_key 2)) transport0 t' (keys_of (toy_key 2))
    5 7 rc packet0 SA_unspec false server0) as (buf' & _ & H & _).
  - exact (toy_key_secret 1).
  - reflexivity.
  - apply rtc_refl.
  - exact (toy_key_secret 2).
  - reflexivity.
  - apply rtc_refl.
  - reflexivity.
  - reflexivity.
  - exact packet0_wf.
  - discriminate.
  - reflexivity.
  - intros l [= <-]. simpl. lia.
  - exact E.
  - exists buf'. exact H.
Defined.

Lemma resend_queue_witness :
  exists t', Transport.resend 3 5 transport0 = Returned (Ok (), t') /\ messageQueue t' = [].
Proof.
  destruct (proj1 (Transport.resend_queue 5 transport0 (keys_of_ok (toy_key 1)) (Forall_cons_2 _ _ _ packet0_sendable (Forall_cons_2 _ _ _ packet0_sendable (Forall_nil_2 _)))))
    as (t' & H1 & H2 & _).
  - intros log sock buf addr. unfold sendto, toy_socket. split; [intros [= ?]; discriminate|]. cbn [fst]. lia.
  - exists t'. split; [exact H1|exact H2].
Defined.
