(* ===== verification/Sockets.v ===== *)
(** * The sockets of the server: construction, [start], [stop] and the receiving
    thread of [RPCServer] of [src/core/rpcserver.cc]

    The operating system is an interface: the answer to a call may depend on all the
    calls before, which the state keeps as a trace ([Syscall], the last one first).
    The file descriptors that are open are computed from the trace.  What the thread
    does with a datagram, [handlePacket], and between two datagrams, [periodic], are
    the methods of the interface [Receiver]; both may throw.

    One turn of the loop of the thread reads what the outside decides ([Turn]): the
    flag [running], which another thread clears, the answer of [select] and of
    [recvfrom], and whether the mutex is free. *)

From S2P Require Import Prelude Addresses Values.

Inductive Syscall :=
  | Sys_socket (fd : Z)
  | Sys_bind (fd : Z) (addr : SocketAddress) (rc : Z)
  | Sys_close (fd : Z).

(** [socket] returns a descriptor that is not open, or a negative number. *)
Definition opened (log : list Syscall) : gset Z :=
  foldr (fun c fds => match c with
                      | Sys_socket fd => if 0 <=? fd then {[fd]} ∪ fds else fds
                      | Sys_bind _ _ _ => fds
                      | Sys_close fd => fds ∖ {[fd]}
                      end) ∅ log.

Class Kernel := {
  sys_socket : list Syscall -> Z -> Z;
  sys_bind : list Syscall -> Z -> SocketAddress -> Z;
  sys_getsockname : list Syscall -> Z -> SocketAddress;
  sys_socket_fresh log f : 0 <= sys_socket log f -> sys_socket log f ∉ opened log
}.

Class Receiver (W : Type) := {
  rx_handlePacket : list Z -> SocketAddress -> W -> result W;
  rx_periodic : W -> result W
}.

Inductive ServerState := SRV_INITIAL | SRV_RUNNING | SRV_STOPPED.

#[export] Instance ServerState_eq_dec : EqDecision ServerState.
Proof. solve_decision. Defined.

Record Sockets := MkSockets {
  so_sock4 : Z;
  so_sock6 : Z;
  bound4 : SocketAddress;
  bound6 : SocketAddress;
  so_running : bool;
  so_state : ServerState;
  so_startTime : Z;
  so_joinable : bool;          (* [rcv_thread] has a thread *)
  so_log : list Syscall
}.

(** The errors of [recvfrom] that make the thread open its sockets again. *)
Definition EPIPE : Z := 32.
Definition ENOTCONN : Z := 107.
Definition ECONNRESET : Z := 104.

Record Recv := MkRecv { rv_n : Z; rv_buf : list Z; rv_from : SocketAddress; rv_errno : Z }.

Record Turn := MkTurn {
  t_running : bool;                    (* at the head of the loop *)
  t_select : Z;
  t_ready4 : bool;
  t_ready6 : bool;
  t_running_selected : bool;           (* after [select] *)
  t_recv4 : Recv;                      (* what [recvfrom] would return *)
  t_recv6 : Recv;
  t_running_failed : bool;             (* after an error *)
  t_lock : bool;                       (* [try_to_lock] *)
  t_running_locked : bool
}.

(** The thread: its copies of the descriptors, the server, and the world of its receiver. *)
Record Thread (W : Type) := MkThread { th_sock4 : Z; th_sock6 : Z; th_server : Sockets; th_world : W }.
Arguments MkThread {W}.
Arguments th_sock4 {W}.
Arguments th_sock6 {W}.
Arguments th_server {W}.
Arguments th_world {W}.

(** How a turn ends. *)
Inductive flow := Next | Break | Thrown (e : error).

Module Server.

(** ** Definitions *)

Definition set_socks (s4 s6 : Z) (b4 b6 : SocketAddress) (s : Sockets) : Sockets :=
  MkSockets s4 s6 b4 b6 (so_running s) (so_state s) (so_startTime s) (so_joinable s) (so_log s).
Definition set_log (l : list Syscall) (s : Sockets) : Sockets :=
  MkSockets (so_sock4 s) (so_sock6 s) (bound4 s) (bound6 s) (so_running s) (so_state s) (so_startTime s) (so_joinable s) l.
Definition set_running (b : bool) (s : Sockets) : Sockets :=
  MkSockets (so_sock4 s) (so_sock6 s) (bound4 s) (bound6 s) b (so_state s) (so_startTime s) (so_joinable s) (so_log s).
Definition set_state (x : ServerState) (t : Z) (s : Sockets) : Sockets :=
  MkSockets (so_sock4 s) (so_sock6 s) (bound4 s) (bound6 s) (so_running s) x t (so_joinable s) (so_log s).
Definition set_joinable (b : bool) (s : Sockets) : Sockets :=
  MkSockets (so_sock4 s) (so_sock6 s) (bound4 s) (bound6 s) (so_running s) (so_state s) (so_startTime s) b (so_log s).

Section server.
Context {kernel : Kernel}.

Definition bindSocket (addr : SocketAddress) (log : list Syscall) : result (Z * SocketAddress) * list Syscall :=
  let sock := sys_socket log (family addr) in
  let log := Sys_socket sock :: log in
  if sock <? 0 then (Throw Runtime_error, log)
  else
    let rc := sys_bind log sock addr in
    let log := Sys_bind sock addr rc :: log in
    if rc <? 0 then (Throw Runtime_error, Sys_close sock :: log)
    else (Ok (sock, sys_getsockname log sock), log).

(** [try { ... } catch (const DhtError& e)] around [bindSocket]: the members stay as
    they are when the exception is caught. *)
Definition try_bind (old : Z) (bound addr : SocketAddress) (log : list Syscall) : result (Z * SocketAddress) * list Syscall :=
  match bindSocket addr log with
  | (Throw Dht_error, log) => (Ok (old, bound), log)
  | r => r
  end.

(** The attempt to take the port of IPv4 for IPv6. *)
Definition bind_same_port (bind6 : SocketAddress) (p4 : Z) (log : list Syscall) : result (Z * SocketAddress) * list Syscall :=
  if (port bind6 =? 0) && negb (p4 =? 0) then
    match SocketAddress_of_blob (take (inaddrLength bind6) (inaddr bind6)) p4 with
    | None => (Throw Invalid_argument, log)
    | Some b6 => try_bind (-1) SA_unspec b6 log
    end
  else (Ok (-1, SA_unspec), log).

Definition bindSockets (dht6 : bool) (bind4 bind6 : SocketAddress) (s : Sockets) : result unit * Sockets :=
  let s := set_socks (-1) (-1) SA_unspec (bound6 s) s in
  let '(r4, log) := if sa_empty bind4 then (Ok (-1, SA_unspec), so_log s) else try_bind (-1) SA_unspec bind4 (so_log s) in
  let s := set_log log s in
  match r4 with
  | Throw e => (Throw e, s)
  | Ok (s4, b4) =>
      let s := set_socks s4 (-1) b4 SA_unspec s in
      let '(r6, log) :=
        if negb dht6 || sa_empty bind6 then (Ok (-1, SA_unspec), so_log s)
        else match bind_same_port bind6 (port b4) (so_log s) with
             | (Throw e, log) => (Throw e, log)
             | (Ok (s6, b6), log) => if s6 =? -1 then try_bind s6 b6 bind6 log else (Ok (s6, b6), log)
             end in
      let s := set_log log s in
      match r6 with
      | Throw e => (Throw e, s)
      | Ok (s6, b6) =>
          let s := set_socks s4 s6 b4 b6 s in
          ((if (s4 =? -1) && (s6 =? -1) then Throw Dht_error else Ok ()), s)
      end
  end.

(** The constructor; [origin4] and [origin6] are the addresses of the DHTs that exist.
    When it throws the destructor does not run. *)
Definition RPCServer_new (origin4 origin6 : option SocketAddress) (log : list Syscall) : result unit * Sockets :=
  bindSockets (if origin6 is Some _ then true else false) (default SA_unspec origin4) (default SA_unspec origin6)
    (MkSockets (-1) (-1) SA_unspec SA_unspec false SRV_INITIAL 0 false log).

(** [start]: the thread copies the descriptors when it is made. *)
Definition start {W} (now : Z) (w : W) (s : Sockets) : Sockets * option (Thread W) :=
  if negb (bool_decide (so_state s = SRV_INITIAL)) then (s, None)
  else
    let s := set_state SRV_RUNNING now (set_joinable true (set_running true s)) in
    (s, Some (MkThread (so_sock4 s) (so_sock6 s) s w)).

(** [stop], up to the end of the thread: whether it waits for it. *)
Definition stop (s : Sockets) : Sockets * bool :=
  if bool_decide (so_state s = SRV_STOPPED) then (s, false)
  else
    let s := set_state SRV_STOPPED (so_startTime s) s in
    if negb (so_running s) then (s, false)
    else (set_running false s, so_joinable s).

(** ** The receiving thread *)

Section thread.
Context {W : Type} {receiver : Receiver W}.
Implicit Types (th : Thread W).

Definition with_server (s : Sockets) th : Thread W := MkThread (th_sock4 th) (th_sock6 th) s (th_world th).
Definition with_socks (s4 s6 : Z) th : Thread W := MkThread s4 s6 (th_server th) (th_world th).
Definition with_world (w : W) th : Thread W := MkThread (th_sock4 th) (th_sock6 th) (th_server th) w.

(** Closing a socket of the thread and binding a new one to the address it had. *)
Definition rebind (old : Z) (bound : SocketAddress) (log : list Syscall) : result (Z * SocketAddress) * list Syscall :=
  if 0 <=? old then try_bind old bound bound (Sys_close old :: log) else (Ok (old, bound), log).

Definition reopen th : flow * Thread W :=
  let s := th_server th in
  let '(r4, log) := rebind (th_sock4 th) (bound4 s) (so_log s) in
  let s := set_log log s in
  match r4 with
  | Throw e => (Thrown e, with_server s th)
  | Ok (s4, b4) =>
      let s := set_socks (so_sock4 s) (so_sock6 s) b4 (bound6 s) s in
      let '(r6, log) := rebind (th_sock6 th) (bound6 s) (so_log s) in
      let s := set_log log s in
      match r6 with
      | Throw e => (Thrown e, with_server s (with_socks s4 (th_sock6 th) th))
      | Ok (s6, b6) =>
          let s := set_socks (so_sock4 s) (so_sock6 s) b4 b6 s in
          if (s4 <? 0) && (s6 <? 0) then (Break, with_server s (with_socks s4 s6 th))
          else (Next, with_server (set_socks s4 s6 b4 b6 s) (with_socks s4 s6 th))
      end
  end.

(** What follows [recvfrom]. *)
Definition received (t : Turn) (r : Recv) th : flow * Thread W :=
  if 0 <? rv_n r then
    match rx_handlePacket (take (Z.to_nat (rv_n r)) (rv_buf r)) (rv_from r) (th_world th) with
    | Ok w => (Next, with_world w th)
    | Throw e => (Thrown e, th)
    end
  else if (rv_n r =? -1) && bool_decide (rv_errno r ∈ [EPIPE; ENOTCONN; ECONNRESET]) then
    if negb (t_running_failed t) then (Break, th)
    else if negb (t_lock t) then (Break, th)
    else if negb (t_running_locked t) then (Break, th)
    else reopen th
  else (Next, th).

Definition periodic_then (r : flow * Thread W) : flow * Thread W :=
  match r with
  | (Next, th) => match rx_periodic (th_world th) with Ok w => (Next, with_world w th) | Throw e => (Thrown e, th) end
  | r => r
  end.

(** The body of the loop.  The socket of IPv4 is read first; a turn in which [select]
    names no socket of the server skips [periodic]. *)
Definition turn (t : Turn) th : flow * Thread W :=
  if negb (t_running t) then (Break, th)
  else if negb (t_running_selected t) then (Break, th)
  else if 0 <? t_select t then
    if (0 <=? th_sock4 th) && t_ready4 t then periodic_then (received t (t_recv4 t) th)
    else if (0 <=? th_sock6 th) && t_ready6 t then periodic_then (received t (t_recv6 t) th)
    else (Next, th)
  else periodic_then (Next, th).

(** The end of the thread: the sockets are closed, and forgotten if the mutex is free. *)
Definition close_sock (fd : Z) (log : list Syscall) : list Syscall := if 0 <=? fd then Sys_close fd :: log else log.

Definition thread_end (lock : bool) th : Thread W :=
  let s := th_server th in
  let s := set_log (close_sock (th_sock6 th) (close_sock (th_sock4 th) (so_log s))) s in
  with_server (if lock then set_socks (-1) (-1) SA_unspec SA_unspec s else s) th.

(** The thread for a list of turns; [None] as long as the loop goes on. *)
Fixpoint rx_thread (lock : bool) (ts : list Turn) th : option flow * Thread W :=
  match ts with
  | [] => (None, th)
  | t :: ts =>
      match turn t th with
      | (Next, th) => rx_thread lock ts th
      | (f, th) => (Some f, thread_end lock th)
      end
  end.
End thread.

(** ** Specifications *)

(** Every descriptor that is closed is open. *)
Fixpoint closes_open (log : list Syscall) : Prop :=
  match log with
  | [] => True
  | Sys_close fd :: log => fd ∈ opened log /\ closes_open log
  | _ :: log => closes_open log
  end.

Definition fds (s4 s6 : Z) : gset Z := (if 0 <=? s4 then {[s4]} else ∅) ∪ (if 0 <=? s6 then {[s6]} else ∅).

(** The thread has the open descriptors besides [base], each once. *)
Record owns (base : gset Z) (s4 s6 : Z) (log : list Syscall) : Prop := {
  owns_opened : opened log = base ∪ fds s4 s6;
  owns_fresh : fds s4 s6 ## base;
  owns_distinct : 0 <= s4 -> s4 <> s6
}.

(** The same without what a failed [rebind] leaves behind. *)
Record covers (base : gset Z) (s4 s6 : Z) (log : list Syscall) : Prop := {
  covers_base : base ⊆ opened log;
  covers_opened : opened log ⊆ base ∪ fds s4 s6;
  covers_fresh : fds s4 s6 ## base
}.

(** What the receiver is given: datagrams, and [periodic]. *)
Inductive Input := In_packet (buf : list Z) (from : SocketAddress) | In_periodic.

Definition input_of (r : Recv) : list Input :=
  (if 0 <? rv_n r then [In_packet (take (Z.to_nat (rv_n r)) (rv_buf r)) (rv_from r)] else []) ++ [In_periodic].

Definition inputs (has4 has6 : bool) (t : Turn) : list Input :=
  if 0 <? t_select t then
    if has4 && t_ready4 t then input_of (t_recv4 t) else if has6 && t_ready6 t then input_of (t_recv6 t) else []
  else [In_periodic].

Definition deliver {W} `{Receiver W} (i : Input) (w : W) : result W :=
  match i with In_packet buf from => rx_handlePacket buf from w | In_periodic => rx_periodic w end.

Fixpoint deliver_all {W} `{Receiver W} (l : list Input) (w : W) : result W :=
  match l with [] => Ok w | i :: l => match deliver i w with Ok w => deliver_all l w | Throw e => Throw e end end.

(** ** Lemmas *)

Lemma bindSocket_spec addr log r log' :
  bindSocket addr log = (r, log') ->
  (closes_open log -> closes_open log') /\
  match r with
  | Ok (fd, _) => 0 <= fd /\ fd ∉ opened log /\ opened log' = {[fd]} ∪ opened log
  | Throw e => e = Runtime_error /\ opened log' = opened log
  end.
Proof.
  unfold bindSocket. pose proof (sys_socket_fresh log (family addr)) as F. destruct (Z.ltb_spec (sys_socket log (family addr)) 0) as [L|L].
  { intros [= <- <-]. split; [done|]. split; [done|]. cbn. by replace (0 <=? sys_socket log (family addr)) with false by (symmetry; apply Z.leb_gt; lia). }
  specialize (F L). set (fd := sys_socket log (family addr)) in *. assert ((0 <=? fd) = true) as E by (apply Z.leb_le; lia).
  destruct (_ <? 0); intros [= <- <-]; cbn; rewrite E; [|done]. split; [|split; [done|set_solver]].
  intros H. split; [set_solver|done].
Qed.

Lemma try_bind_eq old bound addr log : try_bind old bound addr log = bindSocket addr log.
Proof.
  unfold try_bind. destruct (bindSocket addr log) as [[x|e] log'] eqn:E; [done|].
  apply bindSocket_spec in E as (_ & -> & _). done.
Qed.

Lemma fds_nonneg s4 s6 x : x ∈ fds s4 s6 <-> 0 <= x /\ (x = s4 \/ x = s6).
Proof.
  unfold fds. rewrite elem_of_union. destruct (Z.leb_spec 0 s4), (Z.leb_spec 0 s6); rewrite ?elem_of_singleton, ?elem_of_empty; lia.
Qed.

Lemma owns_covers base s4 s6 log : owns base s4 s6 log -> covers base s4 s6 log.
Proof. intros [H1 H2 H3]. split; rewrite ?H1; set_solver. Qed.

Lemma owns_swap base s4 s6 log : owns base s4 s6 log -> owns base s6 s4 log.
Proof.
  intros [H1 H2 H3]. assert (fds s6 s4 = fds s4 s6) as E by (unfold fds; apply (comm_L _)).
  split; rewrite ?E; [done|done|]. intros ? ->. by apply H3.
Qed.

Lemma fds_swap s4 s6 : fds s6 s4 = fds s4 s6.
Proof. unfold fds. apply (comm_L _). Qed.

Lemma rebind_spec base old other bound log r log' :
  owns base old other log -> rebind old bound log = (r, log') ->
  (closes_open log -> closes_open log') /\
  match r with
  | Ok (fd, _) => owns base fd other log' /\ (0 <=? fd) = (0 <=? old)
  | Throw _ => covers base old other log'
  end.
Proof.
  intros [H1 H2 H3]. unfold rebind. destruct (Z.leb_spec 0 old) as [L|L].
  2:{ intros [= <- <-]. split; [done|]. split; [done|]. apply Z.leb_gt. lia. }
  rewrite try_bind_eq. intros E. apply bindSocket_spec in E as [Hc E]. change (opened (Sys_close old :: log)) with (opened log ∖ {[old]}) in E.
  assert (old ∈ fds old other) as Ho by (apply fds_nonneg; lia). specialize (H3 L).
  split. { intros H. apply Hc. split; [rewrite H1; set_solver|done]. }
  assert (opened log ∖ {[old]} = base ∪ fds other other) as Eo.
  { rewrite H1. apply set_eq. intros x. rewrite elem_of_difference, !elem_of_union, elem_of_singleton, !fds_nonneg.
    assert (x ∈ base -> x <> old) by set_solver. intuition lia. }
  destruct r as [[fd b]|e].
  - destruct E as (L1 & F & E). rewrite Eo in F, E. split; [|apply Z.leb_le in L, L1; congruence]. split.
    + rewrite E. apply set_eq. intros x. rewrite !elem_of_union, elem_of_singleton, !fds_nonneg. intuition lia.
    + intros x [Hx [-> | ->]]%fds_nonneg Hb; [set_solver|]. eapply H2; [|exact Hb]. apply fds_nonneg. lia.
    + intros _ ->. apply F. apply elem_of_union. right. apply fds_nonneg. lia.
  - destruct E as (_ & E). rewrite Eo in E. split; [rewrite E; set_solver| |done].
    rewrite E. intros x. rewrite !elem_of_union, !fds_nonneg. intuition lia.
Qed.

Section thread_lemmas.
Context {W : Type} {receiver : Receiver W}.
Implicit Types (th : Thread W).

Definition th_owns (base : gset Z) th : Prop := owns base (th_sock4 th) (th_sock6 th) (so_log (th_server th)).
Definition th_covers (base : gset Z) th : Prop := covers base (th_sock4 th) (th_sock6 th) (so_log (th_server th)).
Definition th_closes th : Prop := closes_open (so_log (th_server th)).

(** A step of the thread: it keeps its descriptors, and if it does not, a rebinding failed. *)
Definition step_ok (base : gset Z) th (r : flow * Thread W) : Prop :=
  th_covers base r.2 /\ (th_closes th -> th_closes r.2) /\
  ((forall e, r.1 <> Thrown e) -> th_owns base r.2) /\
  ((forall addr log, exists x, (bindSocket addr log).1 = Ok x) -> th_owns base r.2) /\
  (r.1 = Next -> (0 <=? th_sock4 r.2) = (0 <=? th_sock4 th) /\ (0 <=? th_sock6 r.2) = (0 <=? th_sock6 th)).

Lemma step_ok_refl base th f w : th_owns base th -> step_ok base th (f, with_world w th).
Proof. intros H. split; [by apply owns_covers|]. done. Qed.

Lemma step_ok_refl' base th f : th_owns base th -> step_ok base th (f, th).
Proof. intros H. split; [by apply owns_covers|]. done. Qed.

Lemma rebind_succeeds old bound log :
  (forall addr log, exists x, (bindSocket addr log).1 = Ok x) -> exists x, (rebind old bound log).1 = Ok x.
Proof. intros H. unfold rebind. destruct (0 <=? old); [rewrite try_bind_eq; apply H|by eexists]. Qed.

Lemma reopen_ok base th : th_owns base th -> step_ok base th (reopen th).
Proof.
  intros H. unfold reopen. destruct (rebind (th_sock4 th) _ _) as [r4 l4] eqn:E4.
  pose proof (rebind_succeeds (th_sock4 th) (bound4 (th_server th)) (so_log (th_server th))) as S4. rewrite E4 in S4.
  destruct (rebind_spec _ _ _ _ _ _ _ H E4) as [C4 R4]. destruct r4 as [[s4 b4]|e].
  2:{ split; [done|]. split; [done|]. split; [intros Hn; by destruct (Hn e)|]. split; [|done]. intros Hk. by destruct (S4 Hk). }
  destruct R4 as [O4 N4]. apply owns_swap in O4. simpl.
  destruct (rebind (th_sock6 th) _ _) as [r6 l6] eqn:E6. pose proof (rebind_succeeds (th_sock6 th) (bound6 (th_server th)) l4) as S6. rewrite E6 in S6.
  destruct (rebind_spec _ _ _ _ _ _ _ O4 E6) as [C6 R6]. destruct r6 as [[s6 b6]|e].
  - destruct R6 as [O6 N6]. apply owns_swap in O6. destruct (_ && _); (split; [by apply owns_covers|]); (split; [by intros ?%C4%C6|]); done.
  - destruct R6 as [R1 R2 R3]. rewrite fds_swap in R2, R3. split; [by split|]. split; [by intros ?%C4%C6|]. split; [intros Hn; by destruct (Hn e)|].
    split; [|done]. intros Hk. by destruct (S6 Hk).
Qed.

Lemma received_ok base t r th : th_owns base th -> step_ok base th (received t r th).
Proof.
  intros H. unfold received. destruct (0 <? rv_n r).
  { destruct (rx_handlePacket _ _ _); auto using step_ok_refl, step_ok_refl'. }
  destruct (_ && _); [|by apply step_ok_refl']. repeat (destruct (negb _); [by apply step_ok_refl'|]). by apply reopen_ok.
Qed.

Lemma periodic_ok base th r : step_ok base th r -> step_ok base th (periodic_then r).
Proof.
  intros H. destruct r as [[| |e] th']; [|exact H..]. simpl. destruct H as (H1 & H2 & H3 & H4 & H5). simpl in *.
  destruct (rx_periodic (th_world th')); (split; [done|]); (split; [done|]); (split; [intros; by apply H3|]); (split; [by intros _; apply H3|]); done.
Qed.

Lemma turn_ok base t th : th_owns base th -> step_ok base th (turn t th).
Proof.
  intros H. unfold turn. destruct (negb _); [by apply step_ok_refl'|]. destruct (negb _); [by apply step_ok_refl'|].
  destruct (0 <? t_select t); [|by apply periodic_ok, step_ok_refl'].
  destruct (_ && _); [by apply periodic_ok, received_ok|]. destruct (_ && _); [by apply periodic_ok, received_ok|by apply step_ok_refl'].
Qed.

Lemma opened_close fd log : opened (close_sock fd log) = opened log ∖ (if 0 <=? fd then {[fd]} else ∅).
Proof. unfold close_sock. destruct (0 <=? fd); [done|]. set_solver. Qed.

Lemma thread_end_covers base lock th : th_covers base th -> opened (so_log (th_server (thread_end lock th))) = base.
Proof.
  intros [H1 H2 H3]. assert (opened (so_log (th_server (thread_end lock th))) = opened (close_sock (th_sock6 th) (close_sock (th_sock4 th) (so_log (th_server th))))) as ->
    by (unfold thread_end; by destruct lock).
  rewrite !opened_close. unfold fds in *. apply set_eq. set_solver.
Qed.

Lemma thread_end_closes base lock th : th_owns base th -> th_closes th -> th_closes (thread_end lock th).
Proof.
  intros [H1 H2 H3] Hc. assert (th_closes (thread_end lock th) = closes_open (close_sock (th_sock6 th) (close_sock (th_sock4 th) (so_log (th_server th))))) as ->
    by (unfold thread_end, th_closes; by destruct lock).
  assert (closes_open (close_sock (th_sock4 th) (so_log (th_server th)))) as C4.
  { unfold close_sock. destruct (Z.leb_spec 0 (th_sock4 th)); [|done]. split; [|done]. rewrite H1. apply elem_of_union. right. apply fds_nonneg. lia. }
  unfold close_sock at 1. destruct (Z.leb_spec 0 (th_sock6 th)); [|done]. split; [|done]. rewrite opened_close, H1.
  apply elem_of_difference. split; [apply elem_of_union; right; apply fds_nonneg; lia|].
  destruct (Z.leb_spec 0 (th_sock4 th)); [|set_solver]. rewrite elem_of_singleton. intros E. by apply H3.
Qed.

Lemma reopen_world th : th_world (reopen th).2 = th_world th.
Proof.
  unfold reopen. destruct (rebind _ _ _) as [[[s4 b4]|e] l4]; [|done]. destruct (rebind _ _ _) as [[[s6 b6]|e] l6]; [|done].
  by destruct (_ && _).
Qed.

Lemma deliver_app l1 l2 (w : W) :
  deliver_all (l1 ++ l2) w = match deliver_all l1 w with Ok w => deliver_all l2 w | Throw e => Throw e end.
Proof. revert w. induction l1 as [|i l1 IH]; intros w; [done|]. simpl. destruct (deliver i w); [apply IH|done]. Qed.

Lemma received_delivers t r th th' :
  periodic_then (received t r th) = (Next, th') -> deliver_all (input_of r) (th_world th) = Ok (th_world th').
Proof.
  unfold received, input_of. destruct (0 <? rv_n r).
  { simpl. destruct (rx_handlePacket _ _ _) as [w|e]; [|done]. simpl. destruct (rx_periodic w); [|done]. by intros [= <-]. }
  assert (forall th1, th_world th1 = th_world th -> periodic_then (Next, th1) = (Next, th') ->
    match rx_periodic (th_world th) with Ok w => Ok w | Throw e => Throw e end = Ok (th_world th')) as Hp.
  { intros th1 <-. simpl. destruct (rx_periodic (th_world th1)); [|done]. by intros [= <-]. }
  simpl. destruct (_ && _); [|by apply Hp]. repeat (destruct (negb _); [done|]).
  pose proof (reopen_world th) as Hw. destruct (reopen th) as [[| |e] th1]; [|done..]. by apply Hp.
Qed.

Lemma turn_delivers t th th' :
  turn t th = (Next, th') -> deliver_all (inputs (0 <=? th_sock4 th) (0 <=? th_sock6 th) t) (th_world th) = Ok (th_world th').
Proof.
  unfold turn, inputs. destruct (negb _); [done|]. destruct (negb _); [done|].
  destruct (0 <? t_select t).
  - destruct (_ && _); [apply received_delivers|]. destruct (_ && _); [apply received_delivers|]. by intros [= <-].
  - simpl. destruct (rx_periodic (th_world th)); [|done]. by intros [= <-].
Qed.

(** ** Theorems *)

(** When the thread ends, however it ends, none of its descriptors is open and all
    others are; as long as every socket can be bound again after an error, no
    descriptor is closed twice. *)
Lemma rx_thread_sockets base lock ts th r th' :
  owns base (th_sock4 th) (th_sock6 th) (so_log (th_server th)) -> closes_open (so_log (th_server th)) ->
  rx_thread lock ts th = (r, th') ->
  match r with
  | None => owns base (th_sock4 th') (th_sock6 th') (so_log (th_server th')) /\ closes_open (so_log (th_server th'))
  | Some _ => opened (so_log (th_server th')) = base /\
      ((forall addr log, exists x, (bindSocket addr log).1 = Ok x) -> closes_open (so_log (th_server th')))
  end.
Proof.
  revert th. induction ts as [|t ts IH]; intros th Ho Hc; [by intros [= <- <-]|]. simpl.
  destruct (turn_ok base t th Ho) as (H1 & H2 & H3 & H4 & H5). specialize (H2 Hc).
  destruct (turn t th) as [f th1]. simpl in *.
  destruct f; [by apply IH; [apply H3|]|..]; intros [= <- <-];
    (split; [by apply thread_end_covers|intros Hk; eapply thread_end_closes; [by apply H4|done]]).
Qed.

(** C9: As long as the thread runs its receiver has been given exactly the datagrams that
    were read, each cut to its length and with its sender, in order, and [periodic]
    once in each turn in which [select] named a socket of the server or none at all;
    in a turn the socket of IPv6 is read only if that of IPv4 is not ready. *)
Theorem rx_thread_delivers base lock ts th th' :
  owns base (th_sock4 th) (th_sock6 th) (so_log (th_server th)) -> rx_thread lock ts th = (None, th') ->
  deliver_all (ts ≫= inputs (0 <=? th_sock4 th) (0 <=? th_sock6 th)) (th_world th) = Ok (th_world th').
Proof.
  revert th. induction ts as [|t ts IH]; intros th Ho; [by intros [= <-]|]. simpl.
  destruct (turn_ok base t th Ho) as (_ & _ & H3 & _ & H5). pose proof (turn_delivers t th) as Ht.
  destruct (turn t th) as [[| |e] th1]; [|done..]. simpl in *. intros E.
  destruct (H5 eq_refl) as [E4 E6]. rewrite deliver_app, (Ht th1 eq_refl). rewrite <- E4, <- E6. apply IH; [by apply H3|done].
Qed.

(** An exception of [handlePacket] ends the thread: the sockets are closed, but the
    server stays in the state RUNNING and hears nothing more. *)
Theorem exception_ends_thread lock ts t th e :
  so_state (th_server th) = SRV_RUNNING -> t_running t = true -> t_running_selected t = true -> 0 < t_select t ->
  0 <= th_sock4 th -> t_ready4 t = true -> 0 < rv_n (t_recv4 t) ->
  rx_handlePacket (take (Z.to_nat (rv_n (t_recv4 t))) (rv_buf (t_recv4 t))) (rv_from (t_recv4 t)) (th_world th) = Throw e ->
  let r := rx_thread lock (t :: ts) th in
  r.1 = Some (Thrown e) /\ so_state (th_server r.2) = SRV_RUNNING /\ th_world r.2 = th_world th /\ so_running (th_server r.2) = so_running (th_server th).
Proof.
  intros Hs Hr Hr' Hsel H4 Hy Hn E r. subst r. simpl. unfold turn. rewrite Hr, Hr'. simpl.
  replace (0 <? t_select t) with true by (symmetry; apply Z.ltb_lt; lia). rewrite Hy.
  replace (0 <=? th_sock4 th) with true by (symmetry; apply Z.leb_le; lia). simpl.
  unfold received. replace (0 <? rv_n (t_recv4 t)) with true by (symmetry; apply Z.ltb_lt; lia). rewrite E. simpl. by destruct lock.
Qed.

(** When a socket cannot be bound again after an error the thread ends, since the handler
    around [bindSocket] is for another exception than the one it throws, and closes
    the descriptor that is closed already a second time. *)
Theorem failed_rebind_closes_twice base lock th ts t log :
  owns base (th_sock4 th) (th_sock6 th) (so_log (th_server th)) -> 0 <= th_sock4 th ->
  t_running t = true -> t_running_selected t = true -> 0 < t_select t -> t_ready4 t = true ->
  rv_n (t_recv4 t) = -1 -> rv_errno (t_recv4 t) = ECONNRESET -> t_running_failed t = true -> t_lock t = true -> t_running_locked t = true ->
  bindSocket (bound4 (th_server th)) (Sys_close (th_sock4 th) :: so_log (th_server th)) = (Throw Runtime_error, log) ->
  let r := rx_thread lock (t :: ts) th in
  r.1 = Some (Thrown Runtime_error) /\ ~ closes_open (so_log (th_server r.2)).
Proof.
  intros Ho H4 Hr Hr' Hsel Hy Hn He Hf Hl Hk E r. assert ((0 <=? th_sock4 th) = true) as L4 by (apply Z.leb_le; lia).
  assert (reopen th = (Thrown Runtime_error, with_server (set_log log (th_server th)) th)) as Er
    by (unfold reopen, rebind at 1; by rewrite L4, try_bind_eq, E).
  assert (turn t th = (Thrown Runtime_error, with_server (set_log log (th_server th)) th)) as Et.
  { unfold turn, received. rewrite Hr, Hr', Hy, L4, Hn, He, Hf, Hl, Hk, Er.
    by replace (0 <? t_select t) with true by (symmetry; apply Z.ltb_lt; lia). }
  subst r. simpl. rewrite Et. simpl.
  split; [done|]. apply bindSocket_spec in E as (_ & _ & E). destruct Ho as [O1 O2 O3].
  assert (th_sock4 th ∉ opened log) as N.
  { rewrite E. change (th_sock4 th ∉ opened (so_log (th_server th)) ∖ {[th_sock4 th]}). set_solver. }
  assert (~ closes_open (close_sock (th_sock6 th) (close_sock (th_sock4 th) log))) as Hc.
  { unfold close_sock. rewrite L4. destruct (0 <=? th_sock6 th); simpl; tauto. }
  unfold thread_end. destruct lock; exact Hc.
Qed.

End thread_lemmas.

(** ** The constructor *)

Lemma same_port_spec bind6 p4 log r log' :
  address_wf bind6 -> sa_empty bind6 = false -> bind_same_port bind6 p4 log = (r, log') ->
  (r = Ok (-1, SA_unspec) /\ log' = log) \/ exists b6, bindSocket b6 log = (r, log').
Proof.
  intros (_ & _ & Hw) He. unfold bind_same_port. destruct (_ && _); [|intros [= <- <-]; by left].
  destruct (SocketAddress_of_blob _ _) as [b6|] eqn:E; [rewrite try_bind_eq; intros H; right; by exists b6|].
  exfalso. revert E. unfold SocketAddress_of_blob. rewrite take_ge, Hw by lia. by destruct bind6.
Qed.

(** The second part of [bindSockets], which makes the socket of IPv6. *)
Lemma bind6_spec bind6 p4 log r log' :
  address_wf bind6 -> sa_empty bind6 = false ->
  match bind_same_port bind6 p4 log with
  | (Throw e, log) => (Throw e, log)
  | (Ok (s6, b6), log) => if s6 =? -1 then try_bind s6 b6 bind6 log else (Ok (s6, b6), log)
  end = (r, log') -> exists b6, bindSocket b6 log = (r, log').
Proof.
  intros Hw He. destruct (bind_same_port bind6 p4 log) as [r1 l1] eqn:E1.
  destruct (same_port_spec _ _ _ _ _ Hw He E1) as [[-> ->]|[b6 E]].
  - simpl. rewrite try_bind_eq. eauto.
  - destruct r1 as [[s6 b]|e]; [|intros [= <- <-]; eauto]. pose proof (bindSocket_spec _ _ _ _ E) as (_ & L & _).
    destruct (Z.eqb_spec s6 (-1)); [lia|]. intros [= <- <-]. eauto.
Qed.

Definition wants6 (dht6 : bool) (bind6 : SocketAddress) : bool := dht6 && negb (sa_empty bind6).

(** What [bindSockets] leaves behind. *)
Definition bound_ok (want4 want6 : bool) (base : gset Z) (r : result unit) (s : Sockets) : Prop :=
  match r with
  | Ok _ => (0 <=? so_sock4 s) = want4 /\ (0 <=? so_sock6 s) = want6 /\ owns base (so_sock4 s) (so_sock6 s) (so_log s)
  | Throw Dht_error => want4 = false /\ want6 = false /\ opened (so_log s) = base
  | Throw e => e = Runtime_error /\ (want4 = true \/ want6 = true) /\ opened (so_log s) = base ∪ fds (so_sock4 s) (-1)
  end.

Lemma owns_none base log : opened log = base -> owns base (-1) (-1) log.
Proof. intros E. split; unfold fds; simpl; [set_solver|set_solver|lia]. Qed.

Lemma owns_bind base other addr fd b log log' :
  owns base (-1) other log -> bindSocket addr log = (Ok (fd, b), log') -> owns base fd other log' /\ (0 <=? fd) = true.
Proof.
  intros [H1 H2 H3] (_ & L & F & E)%bindSocket_spec. split; [|by apply Z.leb_le]. rewrite H1 in F, E. split.
  - rewrite E. apply set_eq. intros x. rewrite !elem_of_union, elem_of_singleton, !fds_nonneg. intuition lia.
  - intros x [Hx [-> | ->]]%fds_nonneg Hb; [set_solver|]. eapply H2; [|exact Hb]. apply fds_nonneg. lia.
  - intros _ ->. apply F. apply elem_of_union. right. apply fds_nonneg. lia.
Qed.

Lemma bindSockets_spec dht6 bind4 bind6 s r s' :
  address_wf bind6 -> bindSockets dht6 bind4 bind6 s = (r, s') ->
  (closes_open (so_log s) -> closes_open (so_log s')) /\ so_state s' = so_state s /\
  bound_ok (negb (sa_empty bind4)) (wants6 dht6 bind6) (opened (so_log s)) r s'.
Proof.
  intros Hw. unfold bindSockets.
  set (r4 := if sa_empty bind4 then _ else _). destruct r4 as [x4 l4] eqn:E4. subst r4.
  assert ((closes_open (so_log s) -> closes_open l4) /\
    match x4 with
    | Ok (s4, _) => owns (opened (so_log s)) s4 (-1) l4 /\ (0 <=? s4) = negb (sa_empty bind4) /\ (s4 =? -1) = sa_empty bind4
    | Throw e => e = Runtime_error /\ sa_empty bind4 = false /\ opened l4 = opened (so_log s)
    end) as [C4 R4].
  { simpl in E4. destruct (sa_empty bind4); [injection E4 as <- <-; split; [done|]; split; [by apply owns_none|done]|].
    rewrite try_bind_eq in E4. pose proof (bindSocket_spec _ _ _ _ E4) as [C S]. split; [done|]. destruct x4 as [[s4 b4]|e].
    - destruct (owns_bind _ (-1) _ _ _ _ _ (owns_none _ _ eq_refl) E4) as [O L]. split; [done|]. split; [done|]. apply Z.leb_le in L. apply Z.eqb_neq. lia.
    - by destruct S. }
  clear E4. destruct x4 as [[s4 b4]|e].
  2:{ intros [= <- <-]. destruct R4 as (-> & E & Eo). split; [done|]. split; [done|]. split; [done|]. rewrite E. split; [by left|].
      unfold fds. simpl. set_solver. }
  destruct R4 as (O4 & L4 & N4). simpl. set (r6 := if negb dht6 || sa_empty bind6 then _ else _). destruct r6 as [x6 l6] eqn:E6. subst r6.
  assert ((closes_open l4 -> closes_open l6) /\
    match x6 with
    | Ok (s6, _) => owns (opened (so_log s)) s4 s6 l6 /\ (0 <=? s6) = wants6 dht6 bind6 /\ (s6 =? -1) = negb (wants6 dht6 bind6)
    | Throw e => e = Runtime_error /\ wants6 dht6 bind6 = true /\ opened l6 = opened l4
    end) as [C6 R6].
  { unfold wants6. destruct dht6; simpl in E6 |- *; [|by injection E6 as <- <-].
    destruct (sa_empty bind6) eqn:Ee; simpl in E6 |- *; [by injection E6 as <- <-|].
    apply bind6_spec in E6 as [b6 E6]; [|done|done]. pose proof (bindSocket_spec _ _ _ _ E6) as [C S]. split; [done|].
    destruct x6 as [[s6 b]|e].
    - apply owns_swap in O4. destruct (owns_bind _ _ _ _ _ _ _ O4 E6) as [O L]. apply owns_swap in O. split; [done|]. split; [done|].
      apply Z.leb_le in L. apply Z.eqb_neq. lia.
    - by destruct S. }
  clear E6. destruct x6 as [[s6 b6]|e]; intros [= <- <-]; simpl.
  - destruct R6 as (O6 & L6 & N6). split; [tauto|]. split; [done|]. rewrite N4, N6. unfold bound_ok. simpl.
    destruct (sa_empty bind4), (wants6 dht6 bind6); simpl; [done| |done|done].
    split; [done|]. split; [done|]. destruct O6 as [O6 _ _]. apply Z.eqb_eq in N4, N6. subst. rewrite O6. unfold fds. simpl. set_solver.
  - destruct R6 as (-> & Hw6 & Eo). split; [tauto|]. split; [done|]. split; [done|]. rewrite Hw6. split; [by right|]. rewrite Eo. by destruct O4.
Qed.

(** C8: A server that could be made has one socket for each address family it was asked for.
    When its thread has ended, however it ended, exactly these sockets are closed, and
    none of them twice as long as sockets can be bound again after errors. *)
Theorem sockets_released {W} `{Receiver W} origin4 origin6 log s now (w : W) s1 th lock ts f th' :
  address_wf (default SA_unspec origin6) -> closes_open log ->
  RPCServer_new origin4 origin6 log = (Ok (), s) -> start now w s = (s1, Some th) -> rx_thread lock ts th = (Some f, th') ->
  (0 <=? so_sock4 s) = negb (sa_empty (default SA_unspec origin4)) /\ (0 <=? so_sock6 s) = negb (sa_empty (default SA_unspec origin6)) /\
  opened (so_log s) = opened log ∪ fds (so_sock4 s) (so_sock6 s) /\
  opened (so_log (th_server th')) = opened log /\
  ((forall addr log, exists x, (bindSocket addr log).1 = Ok x) -> closes_open (so_log (th_server th'))).
Proof.
  intros Hw Hc Hn Hs Ht. apply bindSockets_spec in Hn as (C & _ & H4 & H6 & O); [|done]. simpl in *.
  unfold start in Hs. destruct (bool_decide (so_state s = SRV_INITIAL)); [|done]. injection Hs as <- <-.
  assert (wants6 (if origin6 is Some _ then true else false) (default SA_unspec origin6) = negb (sa_empty (default SA_unspec origin6))) as E6 by by destruct origin6.
  apply (rx_thread_sockets (opened log)) in Ht as [T1 T2]; [|exact O|exact (C Hc)].
  split; [done|]. split; [by rewrite <- E6|]. split; [by destruct O|]. done.
Qed.

(** When one of its sockets cannot be bound the server is not made at all, also when the
    other could be: the handlers in [bindSockets] never catch the exception of
    [bindSocket].  The socket of IPv4 that was bound before stays open for ever. *)
Theorem no_partial_server origin4 origin6 log e s :
  address_wf (default SA_unspec origin6) -> RPCServer_new origin4 origin6 log = (Throw e, s) ->
  (e = Dht_error /\ sa_empty (default SA_unspec origin4) = true /\ sa_empty (default SA_unspec origin6) = true) \/
  (e = Runtime_error /\ opened (so_log s) = opened log ∪ fds (so_sock4 s) (-1)).
Proof.
  intros Hw (_ & _ & H)%bindSockets_spec; [|done]. unfold bound_ok, wants6 in H. simpl in H.
  destruct e; try (by destruct H as (? & _)); [right; tauto|left]. destruct H as (H4 & H6 & _).
  apply negb_false_iff in H4. split; [done|]. split; [done|]. destruct origin6; [|done]. simpl in *. by apply negb_false_iff in H6.
Qed.

End server.
End Server.

(** ** Witnesses: a kernel that numbers the descriptors, and a receiver that keeps the datagrams *)

Section examples.

Definition next_fd (log : list Syscall) : Z := foldr (fun c n => match c with Sys_socket fd => Z.max n (fd + 1) | _ => n end) 3 log.

Lemma opened_below log fd : fd ∈ opened log -> fd < next_fd log.
Proof.
  induction log as [|c log IH]; [set_solver|]. destruct c as [x| |x]; simpl; intros H.
  - destruct (0 <=? x); [|specialize (IH H); lia]. apply elem_of_union in H as [->%elem_of_singleton|H]; [lia|]. specialize (IH H). lia.
  - by apply IH.
  - apply IH. set_solver.
Qed.

(** [refused] says which addresses cannot be bound. *)
#[local, refine] Instance toy_kernel (refused : SocketAddress -> bool) : Kernel := {
  sys_socket log _ := next_fd log;
  sys_bind _ _ addr := if refused addr then -1 else 0;
  sys_getsockname log _ := match log with Sys_bind _ addr _ :: _ => addr | _ => SA_unspec end
}.
Proof. intros log _ _ H%opened_below. lia. Defined.

#[local] Instance toy_receiver : Receiver (list (list Z)) := {
  rx_handlePacket buf _ w := if bool_decide (buf = []) then Throw Runtime_error else if bool_decide (buf = [0]) then Throw Out_of_bounds else Ok (buf :: w);
  rx_periodic w := Ok w
}.

Definition addr4 : SocketAddress := SA_in 39001 [8; 8; 4; 4].
Definition addr6 : SocketAddress := SA_in6 39001 0 (replicate 16 1) 0.

Definition packet_turn (buf : list Z) : Turn :=
  MkTurn true 1 true false true (MkRecv (Z.of_nat (length buf)) buf addr4 0) (MkRecv 0 [] addr4 0) true true true.
Definition error_turn : Turn := MkTurn true 1 true false true (MkRecv (-1) [] addr4 ECONNRESET) (MkRecv 0 [] addr4 0) true true true.
Definition stop_turn : Turn := MkTurn false 0 false false false (MkRecv 0 [] addr4 0) (MkRecv 0 [] addr4 0) false false false.

Definition none_refused : SocketAddress -> bool := fun _ => false.
Definition server2 : Sockets := (@Server.RPCServer_new (toy_kernel none_refused) (Some addr4) (Some addr6) []).2.
Definition thread2 : Thread (list (list Z)) :=
  MkThread (so_sock4 server2) (so_sock6 server2) (Server.set_state SRV_RUNNING 5 (Server.set_joinable true (Server.set_running true server2))) [].

Lemma addr6_wf : address_wf addr6.
Proof. split; [by simpl|]. split; [|done]. by apply (bool_decide_unpack (Forall is_byte (inaddr addr6))); vm_compute. Qed.

Lemma sockets_released_witness :
  exists th', @Server.rx_thread (toy_kernel none_refused) _ _ true [packet_turn [7]; error_turn; stop_turn] thread2 = (Some Break, th') /\
    opened (so_log (th_server th')) = opened [] /\ Server.closes_open (so_log (th_server th')).
Proof.
  destruct (@Server.rx_thread (toy_kernel none_refused) _ _ true [packet_turn [7]; error_turn; stop_turn] thread2) as [r th'] eqn:E.
  assert (r = Some Break) as -> by (apply (f_equal fst) in E; vm_compute in E; exact (eq_sym E)).
  destruct (@Server.sockets_released (toy_kernel none_refused) _ _ (Some addr4) (Some addr6) [] server2 5 [] 
    (th_server thread2) thread2 true _ Break th' addr6_wf I eq_refl eq_refl E) as (_ & _ & _ & H1 & H2).
  exists th'. split; [reflexivity|]. split; [exact H1|]. apply H2. intros addr log. eexists.
  unfold Server.bindSocket. simpl. destruct (Z.ltb_spec (next_fd log) 0) as [L|L]; [|reflexivity].
  exfalso. revert L. clear. induction log as [|[] log IH]; simpl in *; lia.
Defined.

Definition six_refused : SocketAddress -> bool := fun a => family a =? AF_INET6.

Lemma no_partial_server_witness :
  exists s, @Server.RPCServer_new (toy_kernel six_refused) (Some addr4) (Some addr6) [] = (Throw Runtime_error, s) /\
    opened (so_log s) = opened [] ∪ Server.fds (so_sock4 s) (-1) /\ so_sock4 s = 3.
Proof.
  eexists. split; [reflexivity|]. split; [|reflexivity].
  destruct (@Server.no_partial_server (toy_kernel six_refused) (Some addr4) (Some addr6) [] Runtime_error _ addr6_wf eq_refl) as [[H _]|[_ H]]; [discriminate H|exact H].
Defined.

Lemma thread2_owns : Server.owns ∅ (th_sock4 thread2) (th_sock6 thread2) (so_log (th_server thread2)).
Proof. split; [vm_compute; reflexivity|apply disjoint_empty_r|vm_compute; discriminate]. Qed.

Lemma rx_thread_delivers_witness :
  exists th', @Server.rx_thread (toy_kernel none_refused) _ _ true [packet_turn [7]; error_turn; packet_turn [8; 9]] thread2 = (None, th') /\
    Server.deliver_all [Server.In_packet [7] addr4; Server.In_periodic; Server.In_periodic; Server.In_packet [8; 9] addr4; Server.In_periodic] [] = Ok (th_world th').
Proof.
  destruct (@Server.rx_thread (toy_kernel none_refused) _ _ true [packet_turn [7]; error_turn; packet_turn [8; 9]] thread2) as [r th'] eqn:E.
  assert (r = None) as -> by (apply (f_equal fst) in E; vm_compute in E; exact (eq_sym E)).
  exists th'. split; [reflexivity|]. exact (@Server.rx_thread_delivers (toy_kernel none_refused) _ _ ∅ true _ thread2 th' thread2_owns E).
Defined.

Lemma exception_ends_thread_witness :
  fst (@Server.rx_thread (toy_kernel none_refused) _ _ true [packet_turn [0]; packet_turn [1]] thread2) = Some (Thrown Out_of_bounds).
Proof.
  exact (proj1 (@Server.exception_ends_thread (toy_kernel none_refused) _ _ true [packet_turn [1]] (packet_turn [0]) thread2 Out_of_bounds
    eq_refl eq_refl eq_refl ltac:(vm_compute; reflexivity) ltac:(vm_compute; discriminate) eq_refl ltac:(vm_compute; reflexivity) eq_refl)).
Defined.

(** A thread of a server whose address is taken away. *)
Lemma failed_rebind_closes_twice_witness :
  ~ Server.closes_open (so_log (th_server (snd (@Server.rx_thread (toy_kernel (fun _ => true)) _ _ true [error_turn] thread2)))).
Proof.
  exact (proj2 (@Server.failed_rebind_closes_twice (toy_kernel (fun _ => true)) _ _ ∅ true thread2 [] error_turn _ thread2_owns
    ltac:(vm_compute; discriminate) eq_refl eq_refl ltac:(vm_compute; reflexivity) eq_refl eq_refl eq_refl eq_refl eq_refl eq_refl eq_refl)).
Defined.
End examples.
