(* ===== verification/Crawlers.v ===== *)
(** * The crawler: [apps/crawler/crawler.cc] and [setting.cc], with [ping] and [getNodes]
    of [src/core/dht.cc] and [src/core/node.cc]

    The crawler pings the nodes it hears of and asks every node that answered for the
    nodes it knows, with targets spread over the space of ids.  Its handlers run when a
    call ends; they are run one after the other here.  The state keeps the calls that
    have no answer yet and all the requests for nodes that were sent, in order.

    A call that cannot be sent because there is no DHT for the family of the node is a
    null pointer ([None]).  Between two requests the crawler makes the text of the target
    with [Id::toBinaryString], which reads outside of the array of the id: the text that
    the program gets there, or that it ends there ([None]), is a parameter.  The geographic
    database and the text of the log are left out. *)

From Stdlib Require Import String.
From stdpp Require Import strings.
From S2P Require Import Prelude Constants Ids Addresses Entries Values Texts Json Configurations.

#[local] Open Scope Z_scope.
#[local] Open Scope carrier_scope.

(** ** The settings *)

Record CrawlerSetting := MkSetting {
  cs_interval : Z;
  cs_timeout : Z;
  request_interval : Z;
  requests_per_interval : Z;
  random_requests : Z;
  node_limit : Z;
  data_dir : list Z;
  ip2location_database : list Z;
  cs_bootstrapNodes : list NodeInfo;
  cs_port : Z;
  cs_logger : list (string * list Z)        (* the calls of the logger's setters *)
}.

Definition CRAWLER_INTERVAL : Z := 30.
Definition CRAWLER_TIMEOUT : Z := 30.
Definition REQUEST_INTERVAL : Z := 1.
Definition REQUESTS_PER_INTERVAL : Z := 4.
Definition RANDOM_REQUESTS : Z := 32.

Module CrawlerSetting.
Section setting.
Context {netdb : NetDb} {sodiumHex : SodiumHex} {nlohmann : Nlohmann} {system : System}.

#[local] Abbreviation M := (SM CrawlerSetting).
#[local] Abbreviation skip := (sm_ret ()).

Definition normailizePath (path : list Z) : result (list Z) :=
  if bool_decide (126 ∈ path) then
    match getenv_HOME with None => Throw Undefined_behaviour | Some home => Ok (home ++ drop 1 path) end
  else Ok path.

Definition set_times (i t : Z) (s : CrawlerSetting) : CrawlerSetting :=
  MkSetting i t (request_interval s) (requests_per_interval s) (random_requests s) (node_limit s) (data_dir s) (ip2location_database s)
    (cs_bootstrapNodes s) (cs_port s) (cs_logger s).
Definition set_limit (n : Z) (s : CrawlerSetting) : CrawlerSetting :=
  MkSetting (cs_interval s) (cs_timeout s) (request_interval s) (requests_per_interval s) (random_requests s) n (data_dir s) (ip2location_database s)
    (cs_bootstrapNodes s) (cs_port s) (cs_logger s).
Definition set_requests (i n r : Z) (s : CrawlerSetting) : CrawlerSetting :=
  MkSetting (cs_interval s) (cs_timeout s) i n r (node_limit s) (data_dir s) (ip2location_database s)
    (cs_bootstrapNodes s) (cs_port s) (cs_logger s).
Definition set_paths (d p : list Z) (s : CrawlerSetting) : CrawlerSetting :=
  MkSetting (cs_interval s) (cs_timeout s) (request_interval s) (requests_per_interval s) (random_requests s) (node_limit s) d p
    (cs_bootstrapNodes s) (cs_port s) (cs_logger s).
Definition add_node (n : NodeInfo) (s : CrawlerSetting) : CrawlerSetting :=
  MkSetting (cs_interval s) (cs_timeout s) (request_interval s) (requests_per_interval s) (random_requests s) (node_limit s) (data_dir s)
    (ip2location_database s) (cs_bootstrapNodes s ++ [n]) (cs_port s) (cs_logger s).
Definition log_set (k : string) (v : list Z) (s : CrawlerSetting) : CrawlerSetting :=
  MkSetting (cs_interval s) (cs_timeout s) (request_interval s) (requests_per_interval s) (random_requests s) (node_limit s) (data_dir s)
    (ip2location_database s) (cs_bootstrapNodes s) (cs_port s) (cs_logger s ++ [(k, v)]).

(** [get<uint32_t>()] *)
Definition get_uint32 (j : json) : result Z := z <-! get_int64 j; Ok (u32 z).

Definition when_member (root : json) (k : string) (f : json -> M unit) : M unit :=
  match json_find k (items root) with Some j => f j | None => skip end.
Definition member_or_throw (j : json) (k : string) : M json :=
  match json_find k (items j) with Some x => sm_ret x | None => sm_lift (Throw Invalid_argument) end.
Definition int_or (root : json) (k : string) (dflt : Z) : result Z :=
  match json_find k (items root) with Some j => get_int j | None => Ok dflt end.

Fixpoint load_bootstraps (l : list json) : M unit :=
  match l with
  | [] => skip
  | j :: l =>
      id <~ member_or_throw j "id"; ip <~ member_or_throw j "address"; port <~ member_or_throw j "port";
      id <~ sm_lift (get_string id); ip <~ sm_lift (get_string ip); port <~ sm_lift (get_int port);
      n <~ sm_lift (AddressText.NodeInfo_of_text id ip port);
      sm_modify (add_node n);~ load_bootstraps l
  end.

Definition load_json (root : json) : M unit :=
  when_member root "logger" (fun j =>
    when_member j "level" (fun x => v <~ sm_lift (get_string x); sm_modify (log_set "level" v));~
    when_member j "logFile" (fun x => v <~ sm_lift (get_string x);
      (if bool_decide (v = []) then skip else sm_lift (open_log v));~ sm_modify (log_set "logFile" v));~
    when_member j "pattern" (fun x => v <~ sm_lift (get_string x); sm_modify (log_set "pattern" v)));~
  interval <~ sm_lift (int_or root "interval" CRAWLER_INTERVAL);
  sm_modify (fun s => set_times (u32 (u32 interval * 60)) (cs_timeout s) s);~
  timeout <~ sm_lift (int_or root "timeout" CRAWLER_TIMEOUT);
  sm_modify (fun s => set_times (cs_interval s) (u32 timeout) s);~
  when_member root "node_limit" (fun j => n <~ sm_lift (get_uint32 j); sm_modify (set_limit n));~
  sm_modify (set_requests REQUEST_INTERVAL REQUESTS_PER_INTERVAL RANDOM_REQUESTS);~
  when_member root "data_dir" (fun j => p <~ sm_lift (get_string j); p <~ sm_lift (normailizePath p);
    sm_modify (fun s => set_paths p (ip2location_database s) s));~
  when_member root "ip2location_database" (fun j => p <~ sm_lift (get_string j); p <~ sm_lift (normailizePath p);
    sm_modify (fun s => set_paths (data_dir s) p s));~
  when_member root "bootstraps" (fun j => match j with JArray l => load_bootstraps l | _ => sm_lift (Throw Invalid_argument) end).

Definition load (filePath : list Z) : M unit :=
  path <~ sm_lift (normailizePath filePath);
  if bool_decide (path = []) then sm_lift (Throw Invalid_argument)
  else match file path with
       | F_missing | F_directory | F_unreadable => sm_lift (Throw Invalid_argument)
       | F_text None => sm_lift (Throw Json_error)
       | F_text (Some root) => load_json root
       end.

(** [Crawler::initCarrierNode], up to the configuration of the node. *)
Fixpoint add_bootstraps (l : list NodeInfo) : SM Builder unit :=
  match l with [] => sm_ret () | n :: l => sm_modify (Configuration.add_bootstrap n);~ add_bootstraps l end.

Definition initCarrierNode (s : CrawlerSetting) : result DefaultConfiguration :=
  fst (((if 0 <? cs_port s then Configuration.setListeningPort (cs_port s) else sm_ret ());~
        sm_modify (Configuration.setAutoIPv4Address true);~
        add_bootstraps (cs_bootstrapNodes s);~
        Configuration.build) Configuration.Builder_new).
End setting.
End CrawlerSetting.

(** ** The crawler *)

Inductive CrawlCall := Call_ping (n : NodeInfo) | Call_getNodes (target : Id) (n : NodeInfo).

Record Crawler := MkCrawler {
  nodes_list : list NodeInfo;
  pinged_list : list NodeInfo;
  sendedNo : nat;
  last_new_node_stamp : Z;
  last_getnodes_request_stamp : Z;
  cr_calls : gmap Z CrawlCall;              (* without an answer *)
  cr_next : Z;
  cr_requests : list (Id * Id);             (* the requests for nodes: receiver and target *)
  cr_lines : list Id                        (* the lines of the storage file *)
}.

(** How a call ends: a response with a version, one with nodes, or none. *)
Inductive CallEnd := End_pinged (version : option Z) | End_nodes (nodes : list NodeInfo) | End_failed.

Module Crawler.

Definition Crawler_new : Crawler := MkCrawler [] [] 0 0 0 ∅ 0 [] [].

Definition ids (l : list NodeInfo) : list Id := nodeId <$> l.

Definition pinged (ni : NodeInfo) (c : Crawler) : bool := existsb (fun n => bool_decide (nodeId n = nodeId ni)) (pinged_list c).
Definition crawled (ni : NodeInfo) (c : Crawler) : bool := existsb (fun n => bool_decide (nodeId n = nodeId ni)) (nodes_list c).

Definition timedout (now timestamp timeout : Z) : bool := timestamp + timeout <=? now.

Section crawl.
Variables (setting : CrawlerSetting) (has4 has6 : bool) (overread : Id -> option string).

(** [DHT::ping] and [DHT::getNodes] of the DHT that [Node::ping] and [Node::getNodes] take. *)
Definition dht_for (ni : NodeInfo) : bool := if family (sockaddr ni) =? AF_INET then has4 else has6.

Definition send (call : CrawlCall) (c : Crawler) : Crawler :=
  MkCrawler (nodes_list c) (pinged_list c) (sendedNo c) (last_new_node_stamp c) (last_getnodes_request_stamp c)
    (<[cr_next c := call]> (cr_calls c)) (cr_next c + 1)
    (match call with Call_getNodes t n => cr_requests c ++ [(nodeId n, t)] | Call_ping _ => cr_requests c end) (cr_lines c).

Definition ping (ni : NodeInfo) (c : Crawler) : option Crawler := if dht_for ni then Some (send (Call_ping ni) c) else None.
Definition getNodes (target : Id) (ni : NodeInfo) (c : Crawler) : option Crawler :=
  if dht_for ni then Some (send (Call_getNodes target ni) c) else None.

Definition pingNode (ni : NodeInfo) (c : Crawler) : option Crawler :=
  c ← ping ni c;
  Some (MkCrawler (nodes_list c) (pinged_list c ++ [ni]) (sendedNo c) (last_new_node_stamp c) (last_getnodes_request_stamp c)
          (cr_calls c) (cr_next c) (cr_requests c) (cr_lines c)).

(** The handler of [pingNode]. *)
Definition ping_done (now : Z) (ni : option NodeInfo) (c : Crawler) : Crawler :=
  match ni with
  | None => c
  | Some ni =>
      if crawled ni c then c
      else MkCrawler (nodes_list c ++ [ni]) (pinged_list c) (sendedNo c) now (last_getnodes_request_stamp c)
             (cr_calls c) (cr_next c) (cr_requests c) (cr_lines c ++ [nodeId ni])
  end.

(** The handler of [sendNodeRequests]. *)
Definition found (now : Z) (c : Crawler) : Crawler :=
  MkCrawler (nodes_list c) (pinged_list c) (sendedNo c) now (last_getnodes_request_stamp c) (cr_calls c) (cr_next c) (cr_requests c) (cr_lines c).

Fixpoint nodes_done (now : Z) (nis : list NodeInfo) (c : Crawler) : option Crawler :=
  match nis with
  | [] => Some c
  | ni :: nis => if pinged ni c then nodes_done now nis c else c ← pingNode ni c; nodes_done now nis (found now c)
  end.

(** The handlers of the calls in [DHT::ping] and [DHT::getNodes].  Another response than
    the one that was asked for is a response without a version or without nodes. *)
Definition call_done (now : Z) (id : Z) (e : CallEnd) (c : Crawler) : option Crawler :=
  match cr_calls c !! id with
  | None => Some c
  | Some call =>
      let c := MkCrawler (nodes_list c) (pinged_list c) (sendedNo c) (last_new_node_stamp c) (last_getnodes_request_stamp c)
                 (delete id (cr_calls c)) (cr_next c) (cr_requests c) (cr_lines c) in
      match call, e with
      | Call_ping n, End_failed => Some (ping_done now None c)
      | Call_ping n, End_pinged (Some v) => Some (ping_done now (Some (MkNodeInfo (nodeId n) (sockaddr n) v)) c)
      | Call_ping n, _ => Some (ping_done now (Some n) c)
      | Call_getNodes _ _, End_nodes l => nodes_done now l c
      | Call_getNodes _ _, _ => Some c
      end
  end.

(** ** The targets *)

(** One byte of the array takes the values in order; every state of the array is a target. *)
Fixpoint walk_byte (j : nat) (values : list Z) (bytes : list Z) : list (list Z) * list Z :=
  match values with
  | [] => ([], bytes)
  | v :: values => let bytes := <[j := v]> bytes in let '(out, last) := walk_byte j values bytes in (bytes :: out, last)
  end.

Fixpoint walk (js : list nat) (values : list Z) (bytes : list Z) : list (list Z) * list Z :=
  match js with
  | [] => ([], bytes)
  | j :: js => let '(out, bytes) := walk_byte j values bytes in let '(out', last) := walk js values bytes in (out ++ out', last)
  end.

Definition left_values : list Z := (fun k => u8 (Z.shiftl 0xFF k)) <$> [7; 6; 5; 4; 3; 2; 1; 0].
Definition right_values : list Z := (fun k => Z.shiftr 0xFF k) <$> [1; 2; 3; 4; 5; 6; 7; 8].

Definition walked : list Id :=
  let '(ones, bytes) := walk (seq 0 ID_BYTES) left_values (replicate ID_BYTES 0) in
  let '(zeros, _) := walk (seq 0 ID_BYTES) right_values bytes in
  mk_id <$> (ones ++ zeros).

Definition targets : list Id := mk_id (replicate ID_BYTES 0) :: walked.

(** ** [sendNodeRequests]; [random i j] is the j-th random id for the i-th node *)

(** The text of an id, and what the reads outside of the array give. *)
Definition binary_text (t : Id) : option string := match toBinaryString t with Some text => Some text | None => overread t end.

(** The requests for one node; the text of the targets in the two loops is made before they
    are sent, and not used. *)
Fixpoint ask_all (ts : list (bool * Id)) (ni : NodeInfo) (c : Crawler) : option Crawler :=
  match ts with
  | [] => Some c
  | (text, t) :: ts => _ ← (if text : bool then binary_text t else Some ""%string); c ← getNodes t ni c; ask_all ts ni c
  end.

Definition random_targets (random : nat -> nat -> Id) (i : nat) : list Id := random i <$> seq 0 (Z.to_nat (random_requests setting)).

Definition node_asks (random : nat -> nat -> Id) (i : nat) : list (bool * Id) :=
  (false, mk_id (replicate ID_BYTES 0)) :: (pair true <$> walked) ++ (pair false <$> random_targets random i).

Definition node_targets (random : nat -> nat -> Id) (i : nat) : list Id := targets ++ random_targets random i.

(** The loop.  [count] is the counter that the condition reads and nothing increments. *)
Fixpoint request_loop (random : nat -> nat -> Id) (count : Z) (i : nat) (l : list NodeInfo) (c : Crawler) : option (nat * Crawler) :=
  match l with
  | [] => Some (i, c)
  | ni :: l =>
      if negb (count <? requests_per_interval setting) then Some (i, c)
      else c ← ask_all (node_asks random i) ni c; request_loop random count (S i) l c
  end.

Definition sendNodeRequests (now : Z) (random : nat -> nat -> Id) (c : Crawler) : option Crawler :=
  if negb (timedout now (last_getnodes_request_stamp c) (request_interval setting)) then Some c
  else
    '(i, c) ← request_loop random 0 (sendedNo c) (drop (sendedNo c) (nodes_list c)) c;
    Some (MkCrawler (nodes_list c) (pinged_list c) i (last_new_node_stamp c) now (cr_calls c) (cr_next c) (cr_requests c) (cr_lines c)).

Definition finished (now : Z) (c : Crawler) : bool :=
  let num_nodes := length (nodes_list c) in
  if (sendedNo c =? num_nodes)%nat && timedout now (last_new_node_stamp c) (cs_timeout setting) then true
  else node_limit setting <=? Z.of_nat num_nodes.

(** [start], behind the start of the node. *)
Fixpoint ping_all (l : list NodeInfo) (c : Crawler) : option Crawler :=
  match l with [] => Some c | ni :: l => c ← pingNode ni c; ping_all l c end.

Definition start (now : Z) (c : Crawler) : option Crawler := c ← ping_all (cs_bootstrapNodes setting) c; Some (found now c).

(** The turns of the loop of [main] and the ends of calls. *)
Inductive step : Crawler -> Crawler -> Prop :=
  | step_call now id e c c' : call_done now id e c = Some c' -> step c c'
  | step_turn now random c c' : finished now c = false -> sendNodeRequests now random c = Some c' -> step c c'.

Inductive reachable : Crawler -> Prop :=
  | reach_start now c : start now Crawler_new = Some c -> reachable c
  | reach_step c c' : reachable c -> step c c' -> reachable c'.

(** ** Specifications *)

(** The requests for the first nodes of a list, node after node. *)
Definition requests_for (random : nat -> nat -> Id) (l : list NodeInfo) : list (Id * Id) :=
  concat (imap (fun i ni => pair (nodeId ni) <$> node_targets random i) l).

Definition call_node (call : CrawlCall) : NodeInfo := match call with Call_ping n => n | Call_getNodes _ n => n end.

Record crawl_inv (c : Crawler) : Prop := {
  ci_nodes : NoDup (ids (nodes_list c));
  ci_pinged : NoDup (ids (cs_bootstrapNodes setting)) -> NoDup (ids (pinged_list c));
  ci_known : ids (nodes_list c) ⊆ ids (pinged_list c);
  ci_calls i n : cr_calls c !! i = Some (Call_ping n) -> nodeId n ∈ ids (pinged_list c) /\ dht_for n = true;
  ci_dht : Forall (fun n => dht_for n = true) (nodes_list c);
  ci_sended : (sendedNo c <= length (nodes_list c))%nat;
  ci_lines : cr_lines c = ids (nodes_list c);
  ci_requests : exists random, cr_requests c = requests_for random (take (sendedNo c) (nodes_list c))
}.

(** ** Lemmas *)

Lemma existsb_ids (ni : NodeInfo) l : existsb (fun n => bool_decide (nodeId n = nodeId ni)) l = bool_decide (nodeId ni ∈ ids l).
Proof.
  induction l as [|n l IH]; [done|]. cbn [existsb]. rewrite IH. change (ids (n :: l)) with (nodeId n :: ids l).
  destruct (decide (nodeId n = nodeId ni)) as [E|E].
  - rewrite (bool_decide_true (nodeId n = nodeId ni)) by done. symmetry. apply bool_decide_true. rewrite E. by left.
  - rewrite (bool_decide_false (nodeId n = nodeId ni)) by done. simpl. apply bool_decide_ext. rewrite elem_of_cons.
    split; [by right|]. intros [H|H]; [congruence|done].
Qed.

Lemma node_targets_ext r1 r2 i : r1 i = r2 i -> node_targets r1 i = node_targets r2 i.
Proof. intros H. unfold node_targets, random_targets. by rewrite H. Qed.

Lemma node_asks_targets random i : snd <$> node_asks random i = node_targets random i.
Proof.
  unfold node_asks, node_targets, targets. rewrite fmap_cons, fmap_app, <- !list_fmap_compose.
  by rewrite !list_fmap_id.
Qed.

Lemma node_asks_head random i : exists t ts, node_asks random i = (false, mk_id (replicate ID_BYTES 0)) :: (true, t) :: ts.
Proof.
  unfold node_asks. destruct walked as [|t l] eqn:E; [by vm_compute in E|].
  by exists t, ((pair true <$> l) ++ (pair false <$> random_targets random i)).
Qed.

#[local] Opaque node_targets node_asks walked.

Lemma requests_for_ext r1 r2 l : (forall i, (i < length l)%nat -> r1 i = r2 i) -> requests_for r1 l = requests_for r2 l.
Proof.
  intros H. unfold requests_for. f_equal. apply list_eq. intros i. rewrite !list_lookup_imap.
  destruct (l !! i) eqn:E; [|done]. cbn. do 2 f_equal. apply node_targets_ext, H. by eapply lookup_lt_Some.
Qed.

Lemma requests_for_snoc r l ni : requests_for r (l ++ [ni]) = requests_for r l ++ (pair (nodeId ni) <$> node_targets r (length l)).
Proof. unfold requests_for. rewrite imap_app, concat_app. simpl. by rewrite Nat.add_0_r, app_nil_r. Qed.

(** What stays as it is while nodes are asked. *)
Definition asked (l : list (Id * Id)) (c c' : Crawler) : Prop :=
  nodes_list c' = nodes_list c /\ pinged_list c' = pinged_list c /\ cr_lines c' = cr_lines c /\ last_new_node_stamp c' = last_new_node_stamp c /\
  (forall i n, cr_calls c' !! i = Some (Call_ping n) -> cr_calls c !! i = Some (Call_ping n)) /\ cr_requests c' = cr_requests c ++ l.

Lemma asked_refl c : asked [] c c.
Proof. split_and!; try done. by rewrite app_nil_r. Qed.

Lemma asked_trans l1 l2 c1 c2 c3 : asked l1 c1 c2 -> asked l2 c2 c3 -> asked (l1 ++ l2) c1 c3.
Proof. intros (A1 & A2 & A3 & A4 & A5 & A6) (B1 & B2 & B3 & B4 & B5 & B6). split_and!; try congruence; [auto|]. by rewrite B6, A6, app_assoc. Qed.

Lemma asked_one t ni c : asked [(nodeId ni, t)] c (send (Call_getNodes t ni) c).
Proof.
  split_and!; try done. intros i n. simpl. destruct (decide (cr_next c = i)) as [<-|]; [by rewrite lookup_insert_eq|by rewrite lookup_insert_ne].
Qed.

Lemma ask_all_spec ts ni c c' : ask_all ts ni c = Some c' -> asked (pair (nodeId ni) <$> ts.*2) c c'.
Proof.
  revert c. induction ts as [|[text t] ts IH]; intros c; simpl; [intros [= <-]; apply asked_refl|].
  destruct (if text : bool then _ else _); [|done]. simpl. unfold getNodes. destruct (dht_for ni); [|done]. simpl. intros H%IH.
  apply (asked_trans [_] _ _ _ _ (asked_one t ni c) H).
Qed.

Lemma ask_all_some ts ni c : dht_for ni = true -> (forall t, is_Some (binary_text t)) -> is_Some (ask_all ts ni c).
Proof.
  intros Hd Ht. revert c. induction ts as [|[text t] ts IH]; intros c; simpl; [done|].
  unfold getNodes. rewrite Hd. destruct (Ht t) as [x Hx]. destruct text; [rewrite Hx|]; apply IH.
Qed.

(** The loop asks all the nodes that are left. *)
Lemma request_loop_spec random count i l c k c' :
  count < requests_per_interval setting -> request_loop random count i l c = Some (k, c') ->
  k = (i + length l)%nat /\ asked (concat (imap (fun j ni => pair (nodeId ni) <$> node_targets random (i + j)) l)) c c'.
Proof.
  intros Hc. revert i c. induction l as [|ni l IH]; intros i c; simpl.
  - intros [= <- <-]. split; [lia|apply asked_refl].
  - rewrite (proj2 (Z.ltb_lt _ _) Hc). simpl. destruct (ask_all _ ni c) as [c1|] eqn:E1; [|done]. simpl.
    apply ask_all_spec in E1. rewrite node_asks_targets in E1. intros [-> H]%IH. split; [lia|].
    rewrite Nat.add_0_r. eapply asked_trans; [exact E1|]. erewrite imap_ext; [exact H|]. intros j ? _. simpl. do 2 f_equal. lia.
Qed.

Lemma request_loop_some random count i l c :
  Forall (fun n => dht_for n = true) l -> (forall t, is_Some (binary_text t)) -> is_Some (request_loop random count i l c).
Proof.
  intros Hl Ht. revert i c. induction Hl as [|ni l Hd Hl IH]; intros i c; simpl; [done|]. destruct (negb _); [done|].
  destruct (ask_all_some (node_asks random i) ni c Hd Ht) as [c1 ->]. apply IH.
Qed.

Lemma ids_app l l' : ids (l ++ l') = ids l ++ ids l'.
Proof. apply fmap_app. Qed.

Lemma pinged_spec ni c : pinged ni c = bool_decide (nodeId ni ∈ ids (pinged_list c)).
Proof. apply existsb_ids. Qed.
Lemma crawled_spec ni c : crawled ni c = bool_decide (nodeId ni ∈ ids (nodes_list c)).
Proof. apply existsb_ids. Qed.

Lemma pingNode_calls ni c c' (P : NodeInfo -> Prop) :
  (forall i n, cr_calls c !! i = Some (Call_ping n) -> P n) -> P ni -> pingNode ni c = Some c' ->
  forall i n, cr_calls c' !! i = Some (Call_ping n) -> P n.
Proof.
  intros H Hn. unfold pingNode, ping. destruct (dht_for ni); [|done]. intros [= <-] i n. simpl.
  rewrite lookup_insert_Some. intros [[_ [= <-]]|[_ ?]]; [done|by eapply H].
Qed.

Lemma inv_found now c : crawl_inv c -> crawl_inv (found now c).
Proof. by intros []. Qed.

Lemma inv_pingNode ni c c' : crawl_inv c -> nodeId ni ∉ ids (pinged_list c) -> pingNode ni c = Some c' -> crawl_inv c'.
Proof.
  intros [I1 I2 I3 I4 I5 I6 I7 I8] Hn E.
  pose proof (pingNode_calls ni c c' (fun n => nodeId n ∈ ids (pinged_list c ++ [ni]) /\ dht_for n = true)) as Hc.
  revert Hc. generalize E. unfold pingNode, ping in E. destruct (dht_for ni) eqn:Ed; [|done]. injection E as <-. intros E Hc.
  split; simpl; try done.
  - intros Hb. rewrite ids_app. apply NoDup_app. split; [by apply I2|]. split; [|apply NoDup_singleton].
    intros x Hx ->%list_elem_of_singleton. done.
  - rewrite ids_app. set_solver.
  - apply Hc; [|by rewrite ids_app; set_solver|exact E]. intros i n Hi%I4. rewrite ids_app. set_solver.
Qed.

Lemma inv_nodes_done now l c c' : crawl_inv c -> nodes_done now l c = Some c' -> crawl_inv c'.
Proof.
  revert c. induction l as [|ni l IH]; intros c Hi; simpl; [by intros [= <-]|]. rewrite pinged_spec. case_bool_decide as Hp; [by apply IH|].
  destruct (pingNode ni c) as [c1|] eqn:E; [|done]. simpl. apply IH. apply inv_found. by eapply inv_pingNode.
Qed.

Lemma inv_ping_done now n c : crawl_inv c -> nodeId n ∈ ids (pinged_list c) -> dht_for n = true -> crawl_inv (ping_done now (Some n) c).
Proof.
  intros Hi Hp Hd. unfold ping_done. rewrite crawled_spec. case_bool_decide as Hn; [done|].
  destruct Hi as [I1 I2 I3 I4 I5 I6 I7 [r I8]]. split; simpl; try done.
  - rewrite ids_app. apply NoDup_app. split; [done|]. split; [|apply NoDup_singleton]. intros x Hx ->%list_elem_of_singleton. done.
  - rewrite ids_app. set_solver.
  - apply Forall_app. by split; [|constructor].
  - rewrite length_app. lia.
  - by rewrite ids_app, I7.
  - exists r. rewrite take_app_le by done. done.
Qed.

Lemma inv_call_done now id e c c' : crawl_inv c -> call_done now id e c = Some c' -> crawl_inv c'.
Proof.
  intros Hi. unfold call_done. destruct (cr_calls c !! id) as [call|] eqn:E; [|by intros [= <-]]. set (c1 := MkCrawler _ _ _ _ _ _ _ _ _).
  assert (crawl_inv c1) as H1.
  { destruct Hi. split; try done. intros i n Hn. simpl in Hn. apply lookup_delete_Some in Hn as [_ Hn]. by eapply ci_calls0. }
  destruct call as [n|t n].
  - apply (ci_calls c Hi) in E as [Hp Hd].
    assert (forall v, crawl_inv (ping_done now (Some (MkNodeInfo (nodeId n) (sockaddr n) v)) c1)) as H2 by (intros v; by apply inv_ping_done).
    destruct e as [[v|]|l|]; intros E; apply (inj Some) in E as <-; [apply H2|by apply inv_ping_done..|exact H1].
  - destruct e; [by intros [= <-]| |by intros [= <-]]. by apply inv_nodes_done.
Qed.

(** What a turn of the main loop does, when it comes to its end. *)
Lemma sendNodeRequests_spec now random c c' :
  0 < requests_per_interval setting -> crawl_inv c -> timedout now (last_getnodes_request_stamp c) (request_interval setting) = true ->
  sendNodeRequests now random c = Some c' ->
  crawl_inv c' /\ nodes_list c' = nodes_list c /\ sendedNo c' = length (nodes_list c) /\
    last_new_node_stamp c' = last_new_node_stamp c /\
    cr_requests c' = cr_requests c ++
      concat (imap (fun j ni => pair (nodeId ni) <$> node_targets random (sendedNo c + j)) (drop (sendedNo c) (nodes_list c))).
Proof.
  intros Hq Hi Ht. unfold sendNodeRequests. rewrite Ht. cbn [negb].
  destruct (request_loop random 0 (sendedNo c) (drop (sendedNo c) (nodes_list c)) c) as [[k c1]|] eqn:E; [|done].
  apply request_loop_spec in E as (-> & H1 & H2 & H3 & H4 & H5 & H6); [|done].
  cbn -[requests_for]. intros [= <-]. cbn. destruct Hi as [I1 I2 I3 I4 I5 I6 I7 [r I8]].
  assert (sendedNo c + length (drop (sendedNo c) (nodes_list c)) = length (nodes_list c))%nat as El by (rewrite length_drop; lia).
  rewrite El, H1. split_and!; try done. split; cbn; rewrite ?H1, ?H2; try done.
  - intros i n Hn%H5. by eapply I4.
  - by rewrite H3.
  - set (f := fun i => if (i <? sendedNo c)%nat then r i else random i). exists f. rewrite firstn_all.
    trans (requests_for f (take (sendedNo c) (nodes_list c) ++ drop (sendedNo c) (nodes_list c))); [|by rewrite take_drop].
    unfold requests_for. rewrite imap_app, concat_app, H6, I8. f_equal.
    + rewrite (requests_for_ext _ f); [done|].
      intros i. rewrite length_take. intros Hlt. unfold f. rewrite (proj2 (Nat.ltb_lt i (sendedNo c))) by lia. done.
    + f_equal. apply imap_ext. intros j ni _. cbn. f_equal. rewrite length_take_le by done. apply node_targets_ext. unfold f.
      rewrite (proj2 (Nat.ltb_ge _ _)) by lia. done.
Qed.

Lemma ping_all_spec l c c' : ping_all l c = Some c' ->
  pinged_list c' = pinged_list c ++ l /\ nodes_list c' = nodes_list c /\ sendedNo c' = sendedNo c /\ cr_requests c' = cr_requests c /\ cr_lines c' = cr_lines c /\
  (forall P : NodeInfo -> Prop, (forall i n, cr_calls c !! i = Some (Call_ping n) -> P n) -> Forall P l -> forall i n, cr_calls c' !! i = Some (Call_ping n) -> P n) /\
  Forall (fun n => dht_for n = true) l.
Proof.
  revert c. induction l as [|ni l IH]; intros c; simpl.
  { intros [= <-]. rewrite app_nil_r. split_and!; done. }
  destruct (pingNode ni c) as [c1|] eqn:E; [|done]. simpl. intros (H1 & H2 & H3 & H4 & H5 & H6 & H7)%IH.
  pose proof (fun P => pingNode_calls ni c c1 P) as Hc. pose proof E as E1. unfold pingNode, ping in E1. destruct (dht_for ni) eqn:Ed; [|done].
  injection E1 as <-. simpl in *. split_and!; try done; [by rewrite H1, <-app_assoc| |by constructor].
  intros P HP [Hn Hl]%Forall_cons. apply H6; [|done]. by eapply Hc.
Qed.

Lemma reachable_inv c : 0 < requests_per_interval setting -> reachable c -> crawl_inv c.
Proof.
  intros Hq. induction 1 as [now c Hs|c c' _ IH Hst].
  - unfold start in Hs. destruct (ping_all _ _) as [c1|] eqn:E; [|done]. injection Hs as <-. apply inv_found.
    apply ping_all_spec in E as (H1 & H2 & H3 & H4 & H5 & H6 & H7). simpl in *. split; rewrite ?H1, ?H2, ?H3; try done.
    + constructor.
    + apply list_subseteq_nil.
    + apply (H6 (fun n => nodeId n ∈ ids (cs_bootstrapNodes setting) /\ dht_for n = true)); [done|].
      apply Forall_forall. intros n Hn. split; [by apply list_elem_of_fmap_2|]. by eapply Forall_forall in H7.
    + exists (fun _ _ => zero). by rewrite H4.
  - destruct Hst as [now id e c c' E|now random c c' _ E]; [by eapply inv_call_done|]. destruct (timedout now (last_getnodes_request_stamp c) (request_interval setting)) eqn:Et.
    + by apply (sendNodeRequests_spec now random c c' Hq IH Et) in E as [Hi _].
    + unfold sendNodeRequests in E. rewrite Et in E. by injection E as <-.
Qed.

(** ** Theorems *)

(** C23: The crawler, whose handlers and whose main thread take turns, lists each node
    once, in the order in which they answered, and only nodes that it pinged; it pings no
    node twice when the bootstrap nodes are distinct; and it has sent every node of its list
    up to [sendedNo] each of its requests exactly once, in order, and none to the others;
    whatever text the reads outside of the array of an id give, as long as the program goes
    on after them. *)
Theorem crawl_once c :
  0 < requests_per_interval setting -> reachable c ->
  NoDup (ids (nodes_list c)) /\
  (NoDup (ids (cs_bootstrapNodes setting)) -> NoDup (ids (pinged_list c))) /\
  ids (nodes_list c) ⊆ ids (pinged_list c) /\
  cr_lines c = ids (nodes_list c) /\
  (sendedNo c <= length (nodes_list c))%nat /\
  exists random, cr_requests c = requests_for random (take (sendedNo c) (nodes_list c)).
Proof. intros Hq Hr. by destruct (reachable_inv c Hq Hr). Qed.

(** One turn of the main loop, when the reads outside of the arrays do not end it, asks every
    node that was not asked yet, however many they are (the limit [requests_per_interval] has
    no effect), never meets a missing DHT, and when no node answers any more the crawler is
    finished after its timeout. *)
Theorem crawl_finishes now random c :
  0 < requests_per_interval setting -> (forall t, is_Some (overread t)) -> reachable c ->
  timedout now (last_getnodes_request_stamp c) (request_interval setting) = true ->
  exists c', sendNodeRequests now random c = Some c' /\ nodes_list c' = nodes_list c /\ sendedNo c' = length (nodes_list c) /\
    cr_requests c' = cr_requests c ++
      concat (imap (fun j ni => pair (nodeId ni) <$> node_targets random (sendedNo c + j)) (drop (sendedNo c) (nodes_list c))) /\
    (forall now', last_new_node_stamp c + cs_timeout setting <= now' -> finished now' c' = true).
Proof.
  intros Hq Ho Hr Ht. pose proof (reachable_inv c Hq Hr) as Hi.
  assert (is_Some (sendNodeRequests now random c)) as [c' E].
  { unfold sendNodeRequests. rewrite Ht. cbn [negb]. edestruct request_loop_some as [[k c1] ->]; [apply Forall_drop, ci_dht, Hi| |done].
    intros t. unfold binary_text. destruct (toBinaryString t); [done|apply Ho]. }
  exists c'. destruct (sendNodeRequests_spec now random c c' Hq Hi Ht E) as (_ & H1 & H2 & H3 & H4).
  split_and!; try done. intros now' Hn. unfold finished. rewrite H1, H2, Nat.eqb_refl. unfold timedout. rewrite H3.
  by rewrite (proj2 (Z.leb_le _ _) Hn).
Qed.

(** The first turn that has a node to ask reads outside of an array, after the request for the id zero. *)
Theorem crawl_overreads now random c ni :
  0 < requests_per_interval setting -> (forall t, overread t = None) ->
  timedout now (last_getnodes_request_stamp c) (request_interval setting) = true -> nodes_list c !! sendedNo c = Some ni ->
  sendNodeRequests now random c = None.
Proof.
  intros Hq Ho Ht Hn. unfold sendNodeRequests. rewrite Ht. cbn [negb]. rewrite (drop_S _ ni) by done. cbn [request_loop].
  rewrite (proj2 (Z.ltb_lt _ _) Hq). cbn [negb]. destruct (node_asks_head random (sendedNo c)) as (t & ts & ->).
  cbn [ask_all]. cbn [mbind option_bind]. unfold getNodes. destruct (dht_for ni); [|done]. cbn [mbind option_bind ask_all].
  unfold binary_text. by rewrite toBinaryString_out_of_range, Ho.
Qed.

End crawl.

(** The targets of the requests: zero, the ids that begin with one to 256 ones and go on
    with zeros, and those that begin with zeros and go on with ones. *)
Theorem crawl_targets :
  id_val <$> targets =
    0 :: ((fun n => 2 ^ 256 - 2 ^ (256 - n)) <$> seqZ 1 256) ++ ((fun n => 2 ^ (256 - n) - 1) <$> seqZ 1 256).
Proof. vm_compute. reflexivity. Qed.
End Crawler.

(** ** Witnesses *)

Section examples.
Definition crawl_setting : CrawlerSetting :=
  MkSetting 1800 30 1 4 1 1000 [] [] [MkNodeInfo (id_of_val 5) (SA_in 39001 [1; 2; 3; 4]) 0] 39005 [].

(** A build in which the bytes behind an id can be read. *)
Definition text0 (_ : Id) : option string := Some "0"%string.

Definition crawl1 : Crawler := default Crawler.Crawler_new (Crawler.start crawl_setting true false 10 Crawler.Crawler_new).
Definition crawl2 : Crawler := default Crawler.Crawler_new (Crawler.call_done true false 11 0 (End_pinged (Some 7)) crawl1).

Lemma crawl2_reachable : Crawler.reachable crawl_setting true false text0 crawl2.
Proof.
  eapply Crawler.reach_step; [apply (Crawler.reach_start _ _ _ _ 10 crawl1); vm_compute; reflexivity|].
  apply (Crawler.step_call _ _ _ _ 11 0 (End_pinged (Some 7)) crawl1). vm_compute. reflexivity.
Qed.

Lemma crawl_once_witness : length (nodes_list crawl2) = 1%nat /\ NoDup (Crawler.ids (nodes_list crawl2)).
Proof.
  split; [vm_compute; reflexivity|]. refine (proj1 (Crawler.crawl_once crawl_setting true false text0 crawl2 _ crawl2_reachable)). vm_compute. reflexivity.
Defined.

Lemma crawl_finishes_witness :
  exists c', Crawler.sendNodeRequests crawl_setting true false text0 20 (fun _ _ => zero) crawl2 = Some c' /\ sendedNo c' = 1%nat /\
    Crawler.finished crawl_setting 60 c' = true.
Proof.
  destruct (Crawler.crawl_finishes crawl_setting true false text0 20 (fun _ _ => zero) crawl2 eq_refl (fun _ => ltac:(by eexists)) crawl2_reachable eq_refl) as (c' & E & _ & H & _ & F).
  exists c'. split; [exact E|]. split; [exact H|]. apply F. vm_compute. discriminate.
Defined.
End examples.
