(* ===== verification/Lookups.v ===== *)
(** * Lookups and announcements: [LookupTask], [NodeLookup], [ValueLookup],
    [PeerLookup], [ValueAnnounce] and [PeerAnnounce] of [src/core/task]

    A lookup asks the candidates it knows, closest first and at most ten at a
    time, and learns new candidates from their answers.  It implements the
    interface [TaskBehaviour] of [Tasks].  The routing table it starts from, the
    own identity and the build flag are parameters of the file's section.

    The requests a lookup sends are the list [lk_asked], in order; the values and
    peers that [DHT::findValue] and [DHT::findPeer] collect in their result
    handlers are [lk_value] and [lk_peers]. *)

From S2P Require Import Prelude Constants Ids Prefixes Addresses Entries KBuckets RoutingTables KClosest Candidates RpcServer Tasks Values.

Inductive Method := UNKNOWN | PING | FIND_NODE | ANNOUNCE_PEER | FIND_PEER | STORE_VALUE | FIND_VALUE.

#[export] Instance Method_eq_dec : EqDecision Method.
Proof. solve_decision. Defined.

Inductive LookupOption := LOCAL | ARBITRARY | OPTIMISTIC | CONSERVATIVE.

#[export] Instance LookupOption_eq_dec : EqDecision LookupOption.
Proof. solve_decision. Defined.

(** Which lookup it is, with the fields of its class and of the result handler
    that [DHT] gives it. *)
Inductive LookupKind :=
  | NodeLookup (bootstrap wantToken : bool)
  | ValueLookup (expectedSequence : Z) (option : LookupOption)
  | PeerLookup (expected : Z) (option : LookupOption).

(** What a lookup reads of a response: [call->matchesId()], the type and method,
    and the fields of [LookupResponse], [FindValueResponse] and
    [FindPeerResponse].  [r_value] is the result of [getValue] where there is a
    value; a value that cannot be built makes [getValue] throw and is not here. *)
Record Response := MkResponse {
  r_matchesId : bool;
  r_type : MsgType;
  r_method : Method;
  r_token : Z;
  r_nodes4 : list NodeInfo;
  r_nodes6 : list NodeInfo;
  r_value : option Value;
  r_peers : list PeerInfo
}.

Definition getNodes (type : DHT_Type) (r : Response) : list NodeInfo :=
  match type with DHT_IPV4 => r_nodes4 r | DHT_IPV6 => r_nodes6 r end.

Record LookupTask := MkLookup {
  lk_kind : LookupKind;
  lk_target : Id;
  lk_closest : ClosestSet;
  lk_candidates : ClosestCandidates;
  lk_nextCall : Z;              (* the hash of the next call object *)
  lk_asked : list NodeInfo;
  lk_value : option Value;
  lk_peers : list PeerInfo
}.

Module Lookup.

Section lookup.
Context {sodium : Sodium}.
Variables (development : bool) (type : DHT_Type) (self : NodeInfo) (bootstrapNodes : list NodeInfo) (rt : RoutingTable).
Implicit Types (lk : LookupTask) (p : TaskBase * LookupTask).

(** ** Definitions *)

Definition LookupTask_new (kind : LookupKind) (target : Id) : LookupTask :=
  MkLookup kind target (ClosestSet.ClosestSet_new target Constants.MAX_ENTRIES_PER_BUCKET)
    (ClosestCandidates.ClosestCandidates_new development target (Constants.MAX_ENTRIES_PER_BUCKET * 3)) 0 [] None [].

Definition set_candidates lk (cc : ClosestCandidates) : LookupTask :=
  MkLookup (lk_kind lk) (lk_target lk) (lk_closest lk) cc (lk_nextCall lk) (lk_asked lk) (lk_value lk) (lk_peers lk).

Definition set_closest lk (cs : ClosestSet) : LookupTask :=
  MkLookup (lk_kind lk) (lk_target lk) cs (lk_candidates lk) (lk_nextCall lk) (lk_asked lk) (lk_value lk) (lk_peers lk).

Definition set_results lk (v : option Value) (ps : list PeerInfo) : LookupTask :=
  MkLookup (lk_kind lk) (lk_target lk) (lk_closest lk) (lk_candidates lk) (lk_nextCall lk) (lk_asked lk) v ps.

(** [LookupTask::isBogonAddress]; [isAnyUnicast] throws for an address without a
    family, which no node has. *)
Definition isBogonAddress (addr : SocketAddress) : bool :=
  if development then negb (default false (isAnyUnicast addr)) else default true (isBogon addr).

Definition isSelfId (id : Id) : bool := bool_decide (nodeId self = id).
Definition isSelfAddress (addr : SocketAddress) : bool := sa_eqb (sockaddr self) addr.

Definition skip_candidate lk (node : KNode) : bool :=
  isBogonAddress (sockaddr (kn_info node)) || isSelfId (kn_id node) || isSelfAddress (sockaddr (kn_info node)) ||
  ClosestSet.contains (kn_id node) (lk_closest lk).

Definition addCandidates (nodes : list KNode) lk : LookupTask :=
  let candidates := filter (fun n => skip_candidate lk n = false) nodes in
  if bool_decide (candidates = []) then lk
  else set_candidates lk (ClosestCandidates.add candidates (lk_candidates lk)).

Definition lookup_isDone p : bool :=
  let lk := snd p in
  Task.base_isDone (fst p) &&
  (bool_decide (closest (lk_candidates lk) = []) ||
   (ClosestSet.isEligible (lk_closest lk) &&
    (threeWayCompare (lk_target lk) (ClosestSet.cs_tail (lk_closest lk)) (ClosestCandidates.cc_head (lk_candidates lk)) <=? 0))).

Definition removeCandidate (id : Id) lk : option CandidateNode * LookupTask :=
  let '(c, cc) := ClosestCandidates.remove id (lk_candidates lk) in (c, set_candidates lk cc).

(** A change of the candidate object with the id, where the list has it. *)
Definition update_candidate (id : Id) (f : CandidateNode -> CandidateNode) lk : LookupTask :=
  set_candidates lk (ClosestCandidates.set_closest (lk_candidates lk)
    ((fun c => if bool_decide (id = cn_id c) then f c else c) <$> closest (lk_candidates lk))).

Definition lookup_callError (id : Id) lk : LookupTask := snd (removeCandidate id lk).

Definition lookup_callTimeout (id : Id) lk : LookupTask :=
  match ClosestCandidates.get id (lk_candidates lk) with
  | Some candidateNode =>
      if CandidateNode.isUnreachable candidateNode then snd (removeCandidate id lk)
      else update_candidate id CandidateNode.clearSent lk
  | None => lk
  end.

(** [LookupTask::callResponsed] *)
Definition lookup_callResponsed (now : Z) (id : Id) (r : Response) lk : LookupTask :=
  match removeCandidate id lk with
  | (Some c, lk) =>
      let c := CandidateNode.setToken (r_token r) (CandidateNode.setReplied now c) in
      set_closest lk (ClosestSet.add c (lk_closest lk))
  | (None, lk) => lk
  end.

Definition answers (m : Method) (r : Response) : bool :=
  r_matchesId r && bool_decide (r_type r = RESPONSE) && bool_decide (r_method r = m).

Definition add_response_nodes (r : Response) lk : LookupTask :=
  match getNodes type r with [] => lk | nodes => addCandidates (KN_info <$> nodes) lk end.

(** [NodeLookup::callResponsed] *)
Definition node_callResponsed (now : Z) (id : Id) (r : Response) p : TaskBase * LookupTask :=
  let lk := lookup_callResponsed now id r (snd p) in
  if negb (answers FIND_NODE r) then (fst p, lk) else (fst p, add_response_nodes r lk).

(** The result handler of [DHT::findValue]. *)
Definition value_found (now : Z) (option : LookupOption) (v : Value) p : TaskBase * LookupTask :=
  let lk := snd p in
  let best := match lk_value lk with
    | None => Some v
    | Some old => if Value.isMutable v && (sequenceNumber old <? sequenceNumber v) then Some v else Some old
    end in
  let lk := set_results lk best (lk_peers lk) in
  if negb (bool_decide (option = CONSERVATIVE)) || negb (Value.isMutable v) then (Task.cancel_self now (fst p), lk) else (fst p, lk).

(** [ValueLookup::callResponsed] *)
Definition value_callResponsed (now expectedSequence : Z) (option : LookupOption) (id : Id) (r : Response) p : TaskBase * LookupTask :=
  if negb (answers FIND_VALUE r) then p else
  let lk := lookup_callResponsed now id r (snd p) in
  match r_value r with
  | Some v =>
      if negb (bool_decide (Value.getId v = lk_target lk)) then (fst p, lk)
      else if negb (Value.isValid v) then (fst p, lk)
      else if (0 <=? expectedSequence) && (sequenceNumber v <? expectedSequence) then (fst p, lk)
      else value_found now option v (fst p, lk)
  | None => (fst p, add_response_nodes r lk)
  end.

(** The result handler of [DHT::findPeer]; the count is compared as [size_t]. *)
Definition peers_found (now expected : Z) (option : LookupOption) (ps : list PeerInfo) p : TaskBase * LookupTask :=
  let lk := set_results (snd p) (lk_value (snd p)) (lk_peers (snd p) ++ ps) in
  if negb (bool_decide (option = CONSERVATIVE)) && (u64 expected <=? Z.of_nat (length (lk_peers lk)))
  then (Task.cancel_self now (fst p), lk) else (fst p, lk).

(** [PeerLookup::callResponsed] *)
Definition peer_callResponsed (now expected : Z) (option : LookupOption) (id : Id) (r : Response) p : TaskBase * LookupTask :=
  if negb (answers FIND_PEER r) then p else
  let lk := lookup_callResponsed now id r (snd p) in
  match r_peers r with
  | [] => (fst p, add_response_nodes r lk)
  | ps => if forallb PeerInfo.isValid ps then peers_found now expected option ps (fst p, lk) else (fst p, lk)
  end.

Definition lookup_responsed (now : Z) (id : Id) (r : Response) p : TaskBase * LookupTask :=
  match lk_kind (snd p) with
  | NodeLookup _ _ => node_callResponsed now id r p
  | ValueLookup seq option => value_callResponsed now seq option id r p
  | PeerLookup expected option => peer_callResponsed now expected option id r p
  end.

(** [prepare] of the lookups; for a well-formed table [fill] has a result. *)
Definition lookup_prepare lk : LookupTask :=
  let knsTarget := match lk_kind lk with NodeLookup true _ => distance (lk_target lk) MAX_ID | _ => lk_target lk end in
  match fill type bootstrapNodes self knsTarget (Constants.MAX_ENTRIES_PER_BUCKET * 2)
          (fun e => isEligibleForNodesList (obj e)) false rt with
  | Some nodes => addCandidates nodes lk
  | None => lk
  end.

(** One turn of the loop of [update]: [None] when the loop ends. *)
Definition send_next (now : Z) p : option (TaskBase * LookupTask) :=
  if Task.canDoRequest (fst p) then
    match ClosestCandidates.next (lk_candidates (snd p)) with
    | None => None
    | Some c =>
        let lk := update_candidate (cn_id c) (CandidateNode.setSent now) (snd p) in
        match Task.sendCall (lk_nextCall lk) (cn_id c) (fst p) with
        | None => None
        | Some t => Some (t, MkLookup (lk_kind lk) (lk_target lk) (lk_closest lk) (lk_candidates lk) (lk_nextCall lk + 1)
                               (lk_asked lk ++ [cn_info c]) (lk_value lk) (lk_peers lk))
        end
    end
  else None.

Fixpoint send_loop (fuel : nat) (now : Z) p : TaskBase * LookupTask :=
  match fuel with
  | O => p
  | S fuel => match send_next now p with Some p => send_loop fuel now p | None => p end
  end.

(** [update]: every turn sends a call and at most ten are in flight. *)
Definition lookup_update (now : Z) p : TaskBase * LookupTask := send_loop (S Constants.MAX_CONCURRENT_TASK_REQUESTS) now p.

(** ** The interface of tasks *)

Lemma sendCall_step hash id t t' : Task.sendCall hash id t = Some t' -> Task.base_step t t'.
Proof.
  unfold Task.sendCall. destruct (Task.canDoRequest t) eqn:Ec; [|done]. intros [= <-].
  split; [|split; [split; [by left|done]|done]]. intros [H1 H2]. split; [exact H1|]. simpl.
  unfold Task.canDoRequest in Ec. apply Nat.ltb_lt in Ec. rewrite map_size_insert.
  destruct (inFlight t !! hash); simpl; lia.
Qed.

Lemma send_next_step now p q : send_next now p = Some q -> Task.base_step (fst p) (fst q).
Proof.
  unfold send_next. destruct (Task.canDoRequest (fst p)); [|done]. destruct (ClosestCandidates.next _) as [c|]; [|done].
  destruct (Task.sendCall _ _ (fst p)) as [t|] eqn:E; [|done]. intros [= <-]. by eapply sendCall_step.
Qed.

Lemma send_loop_step fuel now p : Task.base_step (fst p) (fst (send_loop fuel now p)).
Proof.
  revert p. induction fuel as [|fuel IH]; intros p; simpl; [reflexivity|].
  destruct (send_next now p) as [q|] eqn:E; [|reflexivity]. etrans; [by eapply send_next_step|apply IH].
Qed.

Lemma responsed_base now id r p :
  fst (lookup_responsed now id r p) = fst p \/ fst (lookup_responsed now id r p) = Task.cancel_self now (fst p).
Proof.
  unfold lookup_responsed. destruct (lk_kind (snd p)).
  - unfold node_callResponsed. by destruct (negb _); left.
  - unfold value_callResponsed. destruct (negb _); [by left|]. destruct (r_value r); [|by left].
    destruct (negb _); [by left|]. destruct (negb _); [by left|]. destruct (_ && _); [by left|].
    unfold value_found. destruct (_ || _); [by right|by left].
  - unfold peer_callResponsed. destruct (negb _); [by left|]. destruct (r_peers r); [by left|].
    destruct (forallb _ _); [|by left]. unfold peers_found. destruct (_ && _); [by right|by left].
Qed.

#[refine] Instance lookup_behaviour : TaskBehaviour LookupTask Response := {
  prepare now p := (fst p, lookup_prepare (snd p));
  update now p := lookup_update now p;
  isDone p := lookup_isDone p;
  callSent now id p := p;
  callResponsed now id r p := lookup_responsed now id r p;
  callError now id p := (fst p, lookup_callError id (snd p));
  callTimeout now id p := (fst p, lookup_callTimeout id (snd p))
}.
Proof.
  - reflexivity.
  - intros now p. apply send_loop_step.
  - reflexivity.
  - intros now id r p. destruct (responsed_base now id r p) as [->| ->]; [reflexivity|]. apply TaskRun.end_task_step. auto.
  - reflexivity.
  - reflexivity.
Defined.

(** ** The invariant of a lookup *)

(** A node that may be asked. *)
Definition admissible (n : NodeInfo) : Prop :=
  isBogonAddress (sockaddr n) = false /\ nodeId n <> nodeId self /\ isSelfAddress (sockaddr n) = false.

(** How often the node with an id has been asked. *)
Definition asks (id : Id) (l : list NodeInfo) : Z := Z.of_nat (length (filter (fun n => nodeId n = id) l)).

Definition candidate_ok (asked : list NodeInfo) (c : CandidateNode) : Prop :=
  asks (cn_id c) asked = pinged c /\ (pinged c <= 3) /\ (lastSent c = 0 -> pinged c < 3) /\ admissible (cn_info c).

Record lk_ok lk : Prop := {
  ok_candidates : ClosestCandidates.cc_ok (lk_candidates lk);
  ok_closest : ClosestSet.cs_ok (lk_closest lk);
  ok_each : Forall (candidate_ok (lk_asked lk)) (closest (lk_candidates lk));
  ok_new : forall id, id ∉ dedup_ids (lk_candidates lk) -> asks id (lk_asked lk) = 0;
  ok_three : forall id, asks id (lk_asked lk) <= 3;
  ok_asked : Forall admissible (lk_asked lk)
}.

Lemma asks_app id l n : asks id (l ++ [n]) = asks id l + (if bool_decide (nodeId n = id) then 1 else 0).
Proof.
  unfold asks. rewrite filter_app, length_app, filter_cons, filter_nil. case_decide; case_bool_decide; simpl; try done; lia.
Qed.

Lemma Forall_sublist {A} (P : A -> Prop) (l k : list A) : Forall P l -> k `sublist_of` l -> Forall P k.
Proof. rewrite !Forall_forall. intros H Hs x Hx. apply H. eapply elem_of_submseteq; [exact Hx|by apply sublist_submseteq]. Qed.

Lemma cc_ok_sub cc l :
  ClosestCandidates.cc_ok cc -> l `sublist_of` closest cc -> ClosestCandidates.cc_ok (ClosestCandidates.set_closest cc l).
Proof.
  intros (H1 & H2 & H3 & H4 & H5) Hl. unfold ClosestCandidates.cc_ok. simpl. split_and!.
  - by eapply ClosestCandidates.sublist_sorted.
  - eapply sublist_NoDup; [exact H2|]. by apply fmap_sublist.
  - by eapply Forall_sublist.
  - by eapply ClosestCandidates.sublist_ip_keys.
  - by eapply Forall_sublist.
Qed.

Lemma cc_ok_map cc (f : CandidateNode -> CandidateNode) :
  (forall c, cn_info (f c) = cn_info c) -> ClosestCandidates.cc_ok cc ->
  ClosestCandidates.cc_ok (ClosestCandidates.set_closest cc (f <$> closest cc)).
Proof.
  intros Hf (H1 & H2 & H3 & H4 & H5). unfold ClosestCandidates.cc_ok. simpl.
  assert (forall c, cn_id (f c) = cn_id c) as Hid by (intros c; unfold cn_id; by rewrite Hf).
  assert (forall c, ClosestCandidates.cn_addr (f c) = ClosestCandidates.cn_addr c) as Had
    by (intros c; unfold ClosestCandidates.cn_addr; by rewrite Hf).
  rewrite <- !list_fmap_compose, !Forall_fmap. unfold compose.
  rewrite (list_fmap_ext _ cn_id _ (fun i x _ => Hid x)), (list_fmap_ext _ ClosestCandidates.cn_addr _ (fun i x _ => Had x)).
  split_and!; [|done| |done|].
  - unfold sorted_by in *. induction H1 as [|c l Hs IH Hc]; [constructor|]. simpl. inversion H2; inversion H3; inversion H5; subst.
    constructor.
    + apply IH; try done. simpl in H4. rewrite filter_cons in H4. case_decide; [by apply NoDup_cons in H4 as [_ ?]|done].
    + apply Forall_fmap. apply (Forall_impl _ _ _ Hc). intros d. unfold compose, ClosestCandidates.closer. by rewrite !Hid.
  - apply (Forall_impl _ _ _ H3). intros c. by rewrite Hid.
  - apply (Forall_impl _ _ _ H5). intros c. by rewrite Had.
Qed.

Lemma addCandidates_ok nodes lk : lk_ok lk -> lk_ok (addCandidates nodes lk).
Proof.
  intros [H1 H2 H3 H4 H5 H6]. unfold addCandidates. case_bool_decide; [done|].
  set (cs := filter _ nodes).
  destruct (ClosestCandidates.add_spec cs (lk_candidates lk) H1) as (A1 & A2 & A3 & _).
  split; simpl; try done.
  - apply Forall_forall. intros c Hc. destruct (A3 c Hc) as [Hold|(Hnew & k & Hk & ->)].
    + rewrite Forall_forall in H3. by apply H3.
    + apply list_elem_of_filter in Hk as [Hk _]. unfold skip_candidate in Hk. bool_to_prop.
      split_and!; simpl; try done; try lia; [by apply H4|]. unfold isSelfId in *. bool_to_prop.
      split_and!; [done| |done]. by destruct k.
  - intros id Hid. apply H4. set_solver.
Qed.

Lemma remove_sublist id l : ClosestCandidates.remove_id id l `sublist_of` l.
Proof. induction l as [|c l IH]; simpl; [done|]. case_bool_decide; by constructor. Qed.

Lemma removeCandidate_ok id lk : lk_ok lk -> lk_ok (snd (removeCandidate id lk)).
Proof.
  intros [H1 H2 H3 H4 H5 H6]. split; simpl; try done.
  - apply cc_ok_sub; [done|apply remove_sublist].
  - eapply Forall_sublist; [exact H3|apply remove_sublist].
Qed.

Lemma find_id_elem id l c : ClosestCandidates.find_id id l = Some c -> c ∈ l /\ cn_id c = id.
Proof.
  intros [Hin E]%List.find_some. apply list_elem_of_In in Hin. apply bool_decide_eq_true in E. auto.
Qed.

Lemma callTimeout_ok id lk : lk_ok lk -> lk_ok (lookup_callTimeout id lk).
Proof.
  intros Hok. unfold lookup_callTimeout, ClosestCandidates.get.
  destruct (ClosestCandidates.find_id id (closest (lk_candidates lk))) as [c|] eqn:E; [|done].
  destruct (CandidateNode.isUnreachable c) eqn:Eu; [by apply removeCandidate_ok|].
  apply find_id_elem in E as [Hc Ei]. destruct Hok as [H1 H2 H3 H4 H5 H6].
  unfold update_candidate. split; simpl; try done.
  - apply cc_ok_map; [|done]. intros d. by case_bool_decide.
  - apply Forall_fmap. rewrite Forall_forall in *. intros d Hd. destruct (H3 d Hd) as (K1 & K2 & K3 & K4). simpl.
    case_bool_decide as Ed; [|done]. split_and!; simpl; try done. intros _.
    assert (d = c) as -> by (apply (ClosestCandidates.id_unique (closest (lk_candidates lk))); [apply H1|done|done|congruence]).
    unfold CandidateNode.isUnreachable in Eu. apply Z.leb_gt in Eu. lia.
Qed.

Lemma callResponsed_ok now id r lk : lk_ok lk -> lk_ok (lookup_callResponsed now id r lk).
Proof.
  intros Hok. unfold lookup_callResponsed. pose proof (removeCandidate_ok id lk Hok) as Hr.
  destruct (removeCandidate id lk) as [[c|] lk'] eqn:E; [|exact Hr]. destruct Hr as [H1 H2 H3 H4 H5 H6].
  split; simpl; try done. by apply (ClosestSet.cs_add_spec _ (lk_closest lk')).
Qed.

Lemma add_response_nodes_ok r lk : lk_ok lk -> lk_ok (add_response_nodes r lk).
Proof. intros Hok. unfold add_response_nodes. destruct (getNodes type r); [done|by apply addCandidates_ok]. Qed.

Lemma set_results_ok lk v ps : lk_ok lk -> lk_ok (set_results lk v ps).
Proof. intros []. by split. Qed.

Lemma responsed_ok now id r p : lk_ok (snd p) -> lk_ok (snd (lookup_responsed now id r p)).
Proof.
  intros Hok. pose proof (callResponsed_ok now id r (snd p) Hok) as Hc.
  unfold lookup_responsed. destruct (lk_kind (snd p)).
  - unfold node_callResponsed. destruct (negb _); [done|by apply add_response_nodes_ok].
  - unfold value_callResponsed. destruct (negb _); [done|]. destruct (r_value r); [|by apply add_response_nodes_ok].
    destruct (negb _); [done|]. destruct (negb _); [done|]. destruct (_ && _); [done|].
    unfold value_found. destruct (_ || _); by apply set_results_ok.
  - unfold peer_callResponsed. destruct (negb _); [done|]. destruct (r_peers r); [by apply add_response_nodes_ok|].
    destruct (forallb _ _); [|done]. unfold peers_found. destruct (_ && _); by apply set_results_ok.
Qed.

(** What a turn of the update sends, and to whom. *)
Lemma send_next_inv now p q :
  send_next now p = Some q ->
  exists c, c ∈ closest (lk_candidates (snd p)) /\ CandidateNode.isEligible c = true /\
    closest (lk_candidates (snd q)) =
      (fun d => if bool_decide (cn_id c = cn_id d) then CandidateNode.setSent now d else d) <$> closest (lk_candidates (snd p)) /\
    lk_candidates (snd q) = ClosestCandidates.set_closest (lk_candidates (snd p)) (closest (lk_candidates (snd q))) /\
    lk_closest (snd q) = lk_closest (snd p) /\ lk_asked (snd q) = lk_asked (snd p) ++ [cn_info c] /\
    lk_kind (snd q) = lk_kind (snd p) /\ lk_nextCall (snd q) = lk_nextCall (snd p) + 1 /\
    inFlight (fst q) = <[lk_nextCall (snd p) := cn_id c]> (inFlight (fst p)) /\ Task.isTerminal (fst q) = Task.isTerminal (fst p).
Proof.
  unfold send_next, Task.sendCall. destruct (Task.canDoRequest (fst p)) eqn:Ec; [|done].
  pose proof (ClosestCandidates.next_spec (lk_candidates (snd p))) as Hn.
  destruct (ClosestCandidates.next (lk_candidates (snd p))) as [c|]; [|done]. destruct Hn as (H1 & H2 & _).
  intros [= <-]. exists c. by split_and!.
Qed.

Lemma send_next_ok now p q : 0 < now -> send_next now p = Some q -> lk_ok (snd p) -> lk_ok (snd q).
Proof.
  intros Hn Hs [H1 H2 H3 H4 H5 H6].
  destruct (send_next_inv now p q Hs) as (c & Hc & He & Ecl & Ecc & Ecs & Ea & _).
  unfold CandidateNode.isEligible in He. bool_to_prop.
  assert (candidate_ok (lk_asked (snd p)) c) as (K1 & K2 & K3 & K4) by (rewrite Forall_forall in H3; by apply H3).
  assert (cn_id c ∈ dedup_ids (lk_candidates (snd p))) as Hd.
  { destruct H1 as (_ & _ & D & _). rewrite Forall_forall in D. by apply D. }
  split.
  - rewrite Ecc, Ecl. apply cc_ok_map; [|done]. intros d. by case_bool_decide.
  - by rewrite Ecs.
  - rewrite Ecl, Ea. apply Forall_fmap, Forall_forall. intros d Hdl. simpl.
    rewrite Forall_forall in H3. destruct (H3 d Hdl) as (L1 & L2 & L3 & L4).
    assert (nodeId (cn_info c) = cn_id c) as Ei by done. case_bool_decide as E.
    + assert (d = c) as -> by (apply (ClosestCandidates.id_unique (closest (lk_candidates (snd p)))); [apply H1|done|done|congruence]).
      unfold candidate_ok. rewrite asks_app. change (cn_id (CandidateNode.setSent now c)) with (cn_id c).
      rewrite bool_decide_eq_true_2 by done. split_and!; simpl; [lia|lia|lia|apply K4..].
    + unfold candidate_ok. rewrite asks_app, bool_decide_eq_false_2 by done. rewrite Z.add_0_r. by split_and!.
  - intros i Hi. rewrite Ecc in Hi. rewrite Ea, asks_app, H4 by done. rewrite bool_decide_eq_false_2; [done|].
    intros <-. apply Hi. exact Hd.
  - intros i. rewrite Ea, asks_app. case_bool_decide as E; [|specialize (H5 i); lia].
    rewrite <- E. change (nodeId (cn_info c)) with (cn_id c). lia.
  - rewrite Ea. apply Forall_app. split; [done|]. by apply Forall_singleton.
Qed.

(** While a node lookup runs, every candidate marked as sent has a call in
    flight; hashes of calls are fresh. *)
Definition waiting p : Prop :=
  (forall h, is_Some (inFlight (fst p) !! h) -> h < lk_nextCall (snd p)) /\
  (Task.isTerminal (fst p) = false -> forall bt tk, lk_kind (snd p) = NodeLookup bt tk ->
   forall c, c ∈ closest (lk_candidates (snd p)) -> lastSent c <> 0 -> exists h, inFlight (fst p) !! h = Some (cn_id c)).

Definition lookup_inv p : Prop := lk_ok (snd p) /\ waiting p.

Lemma send_next_waiting now p q : send_next now p = Some q -> waiting p -> waiting q.
Proof.
  intros Hs [W1 W2]. destruct (send_next_inv now p q Hs) as (c & Hc & He & Ecl & _ & _ & _ & Ek & En & Ef & Et).
  assert (inFlight (fst p) !! lk_nextCall (snd p) = None) as Hfresh.
  { apply eq_None_not_Some. intros H%W1. lia. }
  split.
  - intros h. rewrite Ef, En. destruct (decide (h = lk_nextCall (snd p))) as [->|Hne]; [lia|].
    rewrite lookup_insert_ne by congruence. intros H%W1. lia.
  - rewrite Et, Ek, Ecl, Ef. intros Ht bt tk Hk d. rewrite list_elem_of_fmap. intros (e & -> & Hin).
    case_bool_decide as E.
    + intros _. exists (lk_nextCall (snd p)). by rewrite lookup_insert_eq, E.
    + intros Hls. destruct (W2 Ht bt tk Hk e Hin Hls) as (h & Hh). exists h. rewrite lookup_insert_ne; [done|].
      intros <-. congruence.
Qed.

Lemma send_loop_inv fuel now p : 0 < now -> lookup_inv p -> lookup_inv (send_loop fuel now p).
Proof.
  intros Hn. revert p. induction fuel as [|fuel IH]; intros p [H1 H2]; simpl; [by split|].
  destruct (send_next now p) as [q|] eqn:E; [|by split]. apply IH.
  split; [by eapply send_next_ok|by eapply send_next_waiting].
Qed.

(** The fuel is enough: the loop ends because nothing more can be sent. *)
Lemma send_loop_ends fuel now p :
  waiting p -> (Constants.MAX_CONCURRENT_TASK_REQUESTS < size (inFlight (fst p)) + fuel)%nat ->
  send_next now (send_loop fuel now p) = None.
Proof.
  revert p. induction fuel as [|fuel IH]; intros p Hw Hf; simpl.
  - unfold send_next, Task.canDoRequest. destruct (Nat.ltb_spec (size (inFlight (fst p))) Constants.MAX_CONCURRENT_TASK_REQUESTS); [lia|done].
  - destruct (send_next now p) as [q|] eqn:E; [|done]. apply IH; [by eapply send_next_waiting|].
    destruct (send_next_inv now p q E) as (c & _ & _ & _ & _ & _ & _ & _ & _ & Ef & _). rewrite Ef, map_size_insert_None; [lia|].
    apply eq_None_not_Some. intros H%Hw. lia.
Qed.

(** What the end of the call to [id] does to the candidates: none of those left
    as sent has that id. *)
Definition settled (id : Id) lk lk' : Prop :=
  lk_kind lk' = lk_kind lk /\ lk_nextCall lk' = lk_nextCall lk /\
  forall c, c ∈ closest (lk_candidates lk') -> lastSent c <> 0 -> c ∈ closest (lk_candidates lk) /\ cn_id c <> id.

Lemma addCandidates_settled id nodes lk lk' :
  ClosestCandidates.cc_ok (lk_candidates lk') -> settled id lk lk' -> settled id lk (addCandidates nodes lk').
Proof.
  intros Hok (S1 & S2 & S3). unfold addCandidates. case_bool_decide; [done|]. split; [done|]. split; [done|].
  intros c Hc Hs. simpl in Hc. set (cs := filter _ nodes) in Hc.
  destruct (ClosestCandidates.add_spec cs (lk_candidates lk') Hok) as (_ & _ & A3 & _).
  destruct (A3 c Hc) as [Hold|(_ & k & _ & ->)]; [by apply S3|done].
Qed.

Lemma removeCandidate_settled id lk : lk_ok lk -> settled id lk (snd (removeCandidate id lk)).
Proof.
  intros Hok. split; [done|]. split; [done|]. intros c Hc _. simpl in Hc.
  rewrite ClosestCandidates.remove_id_filter in Hc by apply (ok_candidates lk Hok).
  apply list_elem_of_filter in Hc as [? ?]. done.
Qed.

Lemma callResponsed_settled now id r lk : lk_ok lk -> settled id lk (lookup_callResponsed now id r lk).
Proof.
  intros Hok. unfold lookup_callResponsed. pose proof (removeCandidate_settled id lk Hok) as Hr.
  destruct (removeCandidate id lk) as [[c|] lk'] eqn:E; exact Hr.
Qed.

Lemma callTimeout_settled id lk : lk_ok lk -> settled id lk (lookup_callTimeout id lk).
Proof.
  intros Hok. unfold lookup_callTimeout, ClosestCandidates.get.
  destruct (ClosestCandidates.find_id id (closest (lk_candidates lk))) as [c|] eqn:E.
  - destruct (CandidateNode.isUnreachable c); [by apply removeCandidate_settled|]. split; [done|]. split; [done|].
    intros d Hd Hs. simpl in Hd. apply list_elem_of_fmap in Hd as (e & -> & He).
    case_bool_decide as Ei; [done|]. split; [done|congruence].
  - split; [done|]. split; [done|]. intros d Hd _. split; [done|]. intros <-.
    pose proof (List.find_none _ _ E d (proj1 (list_elem_of_In _ _) Hd)) as Hn. simpl in Hn. by rewrite bool_decide_eq_true_2 in Hn.
Qed.

Lemma add_response_nodes_same r lk :
  lk_kind (add_response_nodes r lk) = lk_kind lk /\ lk_nextCall (add_response_nodes r lk) = lk_nextCall lk.
Proof. unfold add_response_nodes, addCandidates. destruct (getNodes type r); [done|]. by case_bool_decide. Qed.

Lemma callResponsed_same now id r lk :
  lk_kind (lookup_callResponsed now id r lk) = lk_kind lk /\ lk_nextCall (lookup_callResponsed now id r lk) = lk_nextCall lk.
Proof. unfold lookup_callResponsed. destruct (removeCandidate id lk) as [[c|] lk'] eqn:E; by injection E as _ <-. Qed.

Lemma responsed_same now id r p :
  lk_kind (snd (lookup_responsed now id r p)) = lk_kind (snd p) /\
  lk_nextCall (snd (lookup_responsed now id r p)) = lk_nextCall (snd p).
Proof.
  destruct (callResponsed_same now id r (snd p)) as [C1 C2].
  destruct (add_response_nodes_same r (lookup_callResponsed now id r (snd p))) as [A1 A2].
  assert (lk_kind (add_response_nodes r (lookup_callResponsed now id r (snd p))) = lk_kind (snd p) /\
    lk_nextCall (add_response_nodes r (lookup_callResponsed now id r (snd p))) = lk_nextCall (snd p)) as HA by (split; congruence).
  unfold lookup_responsed. destruct (lk_kind (snd p)) eqn:Ek.
  - unfold node_callResponsed. destruct (negb _); simpl; split; congruence || apply HA.
  - unfold value_callResponsed. destruct (negb _); [done|]. destruct (r_value r); [|simpl; split; apply HA].
    destruct (negb _); [by split|]. destruct (negb _); [by split|]. destruct (_ && _); [by split|].
    unfold value_found. destruct (_ || _); by split.
  - unfold peer_callResponsed. destruct (negb _); [done|]. destruct (r_peers r); [simpl; split; apply HA|].
    destruct (forallb _ _); [|by split]. unfold peers_found. destruct (_ && _); by split.
Qed.

(** The candidates of a node lookup after a response. *)
Lemma node_settled now id r p bt tk :
  lk_ok (snd p) -> lk_kind (snd p) = NodeLookup bt tk -> settled id (snd p) (snd (lookup_responsed now id r p)).
Proof.
  intros Hok Hk. unfold lookup_responsed. rewrite Hk. unfold node_callResponsed.
  pose proof (callResponsed_settled now id r (snd p) Hok) as Hs. destruct (negb _); [exact Hs|]. simpl.
  unfold add_response_nodes. destruct (getNodes type r); [done|].
  apply addCandidates_settled; [|done]. by apply ok_candidates, callResponsed_ok.
Qed.

(** [waiting] after the call with [hash] to [id] has ended. *)
Lemma waiting_ended hash id t lk t' lk' :
  waiting (t, lk) -> inFlight t !! hash = Some id -> inFlight t' = delete hash (inFlight t) ->
  (Task.isTerminal t' = false -> Task.isTerminal t = false) ->
  lk_nextCall lk' = lk_nextCall lk -> lk_kind lk' = lk_kind lk ->
  (Task.isTerminal t' = false -> forall bt tk, lk_kind lk = NodeLookup bt tk -> settled id lk lk') -> waiting (t', lk').
Proof.
  intros [W1 W2] Hh Ef Ht En Ek Hs. split; simpl in *.
  - intros h. rewrite Ef, En. intros [x Hx]. apply lookup_delete_Some in Hx as [_ Hx]. apply W1. by exists x.
  - intros Hnt bt tk Hk c Hc Hls. rewrite Ek in Hk. destruct (Hs Hnt bt tk Hk) as (_ & _ & S3).
    destruct (S3 c Hc Hls) as [Hold Hne]. destruct (W2 (Ht Hnt) bt tk Hk c Hold Hls) as (h & Hx). exists h.
    rewrite Ef. rewrite lookup_delete_ne; [done|]. intros <-. congruence.
Qed.

Lemma handler_inv now target hash ev p :
  inFlight (fst p) !! hash = Some target -> lookup_inv p -> lookup_inv (TaskRun.call_handler now target hash ev p).
Proof.
  destruct p as [t lk]. intros Hh [Hok Hw]. simpl in Hh, Hok. unfold TaskRun.call_handler, TaskRun.on_base. simpl.
  change (Task.isTerminal (Task.removeCall hash t)) with (Task.isTerminal t).
  destruct ev as [| |r| |]; [by split|by split|..]; (destruct (Task.isTerminal t) eqn:Et;
    [split; [done|]; eapply waiting_ended; [exact Hw|exact Hh|done|done|done|done|];
     change (Task.isTerminal (Task.removeCall hash t)) with (Task.isTerminal t); congruence|]).
  - set (p' := (Task.removeCall hash t, lk)). split; [by apply responsed_ok|].
    rewrite (surjective_pairing (lookup_responsed now target r p')).
    destruct (responsed_same now target r p') as [R1 R2].
    eapply waiting_ended; [exact Hw|exact Hh| |done|exact R2|exact R1|].
    + destruct (responsed_base now target r p') as [->| ->]; [done|].
      unfold Task.cancel_self, Task.end_task. by destruct (Task.setState _ _ _) eqn:Es; [unfold Task.setState in Es; destruct (existsb _ _); [injection Es as <-|]|].
    + intros _ bt tk Hk. by apply (node_settled now target r p' bt tk).
  - split; [by apply removeCandidate_ok|]. eapply waiting_ended; [exact Hw|exact Hh|done|done|done|done|].
    intros _ bt tk _. by apply removeCandidate_settled.
  - split; [by apply callTimeout_ok|]. destruct (callTimeout_settled target lk Hok) as (S1 & S2 & S3).
    eapply waiting_ended; [exact Hw|exact Hh|done|done|exact S2|exact S1|]. intros _ bt tk _. by split.
Qed.

Lemma prepare_inv now p : lookup_inv p -> lookup_inv (prepare now p).
Proof.
  intros [Hok [W1 W2]]. simpl. unfold lookup_prepare. destruct (fill _ _ _ _ _ _ _ _) as [nodes|]; [|by split].
  split; [by apply addCandidates_ok|].
  assert (lk_kind (addCandidates nodes (snd p)) = lk_kind (snd p) /\ lk_nextCall (addCandidates nodes (snd p)) = lk_nextCall (snd p)) as [Ek En]
    by (unfold addCandidates; by case_bool_decide).
  split; cbn [fst snd]; [by rewrite En|]. intros Ht bt tk Hk c Hc Hls. rewrite Ek in Hk.
  apply (W2 Ht bt tk Hk); [|done]. unfold addCandidates in Hc. case_bool_decide; [done|]. simpl in Hc.
  destruct (ClosestCandidates.add_spec (filter (fun n => skip_candidate (snd p) n = false) nodes) (lk_candidates (snd p)) (ok_candidates _ Hok)) as (_ & _ & A3 & _).
  destruct (A3 c Hc) as [?|(_ & k & _ & ->)]; [done|]. simpl in Hls. done.
Qed.

Lemma lookup_inv_end now s p :
  lookup_inv p -> s = CANCELED \/ s = FINISHED /\ lookup_isDone p = true -> lookup_inv (TaskRun.on_base (Task.end_task now s) p).
Proof.
  intros [Hok [W1 W2]] Hs. split; [done|]. split; simpl; [by rewrite TaskRun.end_task_inFlight|].
  destruct (TaskRun.end_task_step now s (fst p)) as [_ Ht]; [tauto|]. congruence.
Qed.

Lemma lookup_inv_same p t :
  lookup_inv p -> inFlight t = inFlight (fst p) ->
  t_state t = t_state (fst p) \/ Task.isTerminal t = false /\ Task.isTerminal (fst p) = false -> lookup_inv (t, snd p).
Proof.
  intros [Hok [W1 W2]] Ef Hs. split; [done|]. split; simpl; [by rewrite Ef|]. intros Ht. rewrite Ef. apply W2.
  destruct Hs as [Hs|[_ Hs]]; [|done]. unfold Task.isTerminal in *. by rewrite <- Hs.
Qed.

Lemma send_loop_same fuel now p :
  lk_kind (snd (send_loop fuel now p)) = lk_kind (snd p) /\ Task.isTerminal (fst (send_loop fuel now p)) = Task.isTerminal (fst p).
Proof.
  revert p. induction fuel as [|fuel IH]; intros p; simpl; [done|]. destruct (send_next now p) as [q|] eqn:E; [|done].
  destruct (send_next_inv now p q E) as (c & _ & _ & _ & _ & _ & _ & Ek & _ & _ & Et). destruct (IH q). split; congruence.
Qed.

Lemma handler_kind now target hash ev p : lk_kind (snd (TaskRun.call_handler now target hash ev p)) = lk_kind (snd p).
Proof.
  unfold TaskRun.call_handler. destruct ev as [| |r| |]; try done; (destruct (Task.isTerminal _); [done|]); simpl.
  - apply (responsed_same now target r (TaskRun.on_base (Task.removeCall hash) p)).
  - done.
  - unfold lookup_callTimeout. destruct (ClosestCandidates.get _ _); [|done]. by destruct (CandidateNode.isUnreachable _).
Qed.

Definition node_inv p : Prop := lookup_inv p /\ exists bt tk, lk_kind (snd p) = NodeLookup bt tk.

(** When a node lookup can send nothing and waits for nothing, it is done. *)
Lemma node_update_live now p :
  node_inv p -> Task.isTerminal (fst p) = false -> send_next now p = None -> inFlight (fst p) = ∅ -> lookup_isDone p = true.
Proof.
  intros [[Hok [_ W2]] (bt & tk & Hk)] Ht Hs Hf. specialize (W2 Ht bt tk Hk).
  unfold lookup_isDone, Task.base_isDone.
  rewrite bool_decide_eq_true_2 by done. cbn [orb andb].
  destruct (closest (lk_candidates (snd p))) as [|c l] eqn:Ec; [done|]. exfalso.
  assert (c ∈ closest (lk_candidates (snd p))) as Hc by (rewrite Ec; left). rewrite <- Ec in W2.
  assert (lastSent c = 0) as Hls.
  { destruct (decide (lastSent c = 0)) as [|Hn]; [done|]. destruct (W2 c Hc Hn) as (h & Hh). by rewrite Hf, lookup_empty in Hh. }
  pose proof (ok_each _ Hok) as He. rewrite Forall_forall in He. destruct (He c Hc) as (_ & _ & H3 & _). specialize (H3 Hls).
  unfold send_next, Task.sendCall in Hs. assert (Task.canDoRequest (fst p) = true) as Hcan.
  { unfold Task.canDoRequest. rewrite Hf, map_size_empty. done. }
  rewrite Hcan in Hs. pose proof (ClosestCandidates.next_spec (lk_candidates (snd p))) as Hn.
  destruct (ClosestCandidates.next (lk_candidates (snd p))); [done|]. rewrite Forall_forall in Hn. specialize (Hn c Hc).
  unfold CandidateNode.isEligible in Hn. rewrite Hls in Hn. simpl in Hn. apply Z.ltb_ge in Hn. lia.
Qed.

Lemma finish_live now p : lookup_isDone p = true \/ TaskRun.live (fst p) -> TaskRun.live (fst (TaskRun.finish_if_done now p)).
Proof.
  intros H. unfold TaskRun.finish_if_done. simpl. destruct (lookup_isDone p).
  - left. apply (TaskRun.end_task_step now FINISHED). auto.
  - by destruct H.
Qed.

Lemma node_turn_live now p : 0 < now -> node_inv p -> TaskRun.live (fst (TaskRun.update_turn now p)).
Proof.
  intros Hn Hp. unfold TaskRun.update_turn. set (q := TaskRun.finish_if_done now p). destruct (lookup_isDone p) eqn:Ed.
  { assert (Task.isTerminal (fst q) = true) as Ht.
    { unfold q, TaskRun.finish_if_done. simpl. rewrite Ed. apply (TaskRun.end_task_step now FINISHED). auto. }
    rewrite Ht, andb_false_r. by left. }
  assert (q = p) as -> by (unfold q, TaskRun.finish_if_done; simpl; by rewrite Ed).
  destruct (Task.isTerminal (fst p)) eqn:Et; [rewrite andb_false_r; by left|].
  destruct (Task.canDoRequest (fst p)) eqn:Ec; simpl.
  2:{ right. intros Hf. unfold Task.canDoRequest in Ec. by rewrite Hf, map_size_empty in Ec. }
  apply finish_live. unfold lookup_update. set (f := S Constants.MAX_CONCURRENT_TASK_REQUESTS).
  destruct (send_loop_same f now p) as [Sk St]. destruct Hp as [Hi (bt & tk & Hk)].
  destruct (decide (inFlight (fst (send_loop f now p)) = ∅)) as [Hf|Hf]; [left|by right; right].
  apply (node_update_live now); [|congruence| |done].
  - split; [by apply send_loop_inv|]. exists bt, tk. congruence.
  - apply send_loop_ends; [apply Hi|]. unfold f. lia.
Qed.

(** A fresh lookup, possibly with injected candidates. *)
Definition injectCandidates (nodes : list KNode) lk : LookupTask := addCandidates nodes lk.

Definition lookup_start (kind : LookupKind) (target : Id) (injected : list KNode) : TaskBase * LookupTask :=
  (Task.Task_new, injectCandidates injected (LookupTask_new kind target)).

Lemma start_inv kind target injected :
  lookup_inv (lookup_start kind target injected) /\ lk_kind (snd (lookup_start kind target injected)) = kind.
Proof.
  split; [split|].
  - apply addCandidates_ok. split; simpl; try done.
    + split_and!; constructor.
    + split; [exact (SSorted_nil _)|]. cbv. lia.
  - assert (forall c, c ∈ closest (lk_candidates (injectCandidates injected (LookupTask_new kind target))) -> lastSent c = 0) as H.
    { intros c. unfold injectCandidates, addCandidates. case_bool_decide; [set_solver|]. simpl. intros Hc.
      destruct (ClosestCandidates.add_spec (filter (fun n => skip_candidate (LookupTask_new kind target) n = false) injected)
        (lk_candidates (LookupTask_new kind target))) as (_ & _ & A3 & _); [split_and!; constructor|].
      destruct (A3 c Hc) as [Hx|(_ & k & _ & ->)]; [by apply not_elem_of_nil in Hx|done]. }
    split; simpl; [intros h; rewrite lookup_empty; by intros []|]. intros _ bt tk _ c Hc Hls. by apply H in Hc.
  - simpl. unfold injectCandidates, addCandidates. by case_bool_decide.
Qed.

Lemma Task_new_ok s : TaskRun.idle_ok (Task.Task_new, s : LookupTask).
Proof. split; [split|]; [done| |done]. simpl. rewrite map_size_empty. lia. Qed.

Lemma lookup_run_inv kind target injected p :
  TaskRun.run (lookup_start kind target injected) p -> lookup_inv p.
Proof.
  intros Hr. destruct (start_inv kind target injected) as [H0 _].
  apply (TaskRun.run_inv lookup_inv) with (p0 := lookup_start kind target injected); try done.
  - intros now s q. apply lookup_inv_end.
  - apply lookup_inv_same.
  - intros now q _. apply prepare_inv.
  - intros now q Hn _ Hq. by apply send_loop_inv.
  - intros now tg h ev q _ Hh Hq. by apply handler_inv.
  - apply Task_new_ok.
Qed.

(** ** Theorems *)

(** C29: For every kind of lookup, whatever its calls answer and however updates
    interleave, no node is asked more than three times, only nodes with
    admissible addresses and never the node itself are asked, at most ten calls
    are in flight, and candidates and results keep their invariants. *)
Theorem lookup_asks_bounded kind target injected p :
  TaskRun.run (lookup_start kind target injected) p ->
  (forall id, asks id (lk_asked (snd p)) <= 3) /\ Forall admissible (lk_asked (snd p)) /\
  (size (inFlight (fst p)) <= Constants.MAX_CONCURRENT_TASK_REQUESTS)%nat /\
  ClosestCandidates.cc_ok (lk_candidates (snd p)) /\ ClosestSet.cs_ok (lk_closest (snd p)) /\
  called (fst p) = (if Task.isTerminal (fst p) then listeners (fst p) else []).
Proof.
  intros Hr. destruct (lookup_run_inv kind target injected p Hr) as [Hok _].
  destruct (TaskRun.run_idle _ p Hr (Task_new_ok _)) as [[I1 I2] _]. destruct Hok. by split_and!.
Qed.

(** A node lookup never hangs: after its start and after every event it has
    ended, or a call is in flight whose answer, error or timeout will wake it. *)
Theorem node_lookup_live bt tk target injected p :
  TaskRun.run (lookup_start (NodeLookup bt tk) target injected) p ->
  Task.isTerminal (fst p) = true \/ inFlight (fst p) <> ∅.
Proof.
  intros Hr. destruct (start_inv (NodeLookup bt tk) target injected) as [H0 Hk].
  refine (proj2 (TaskRun.run_inv node_inv _ _ _ _ _ _ _ _ Hr (Task_new_ok _) eq_refl _) _); [..|by split; [|exists bt, tk]|].
  - intros now s q [Hq Hkq] Hs. split; [by apply lookup_inv_end|done].
  - intros q t [Hq Hkq] Ef Hs. split; [by apply lookup_inv_same|done].
  - intros now q _ [Hq Hkq]. split; [by apply prepare_inv|]. simpl. unfold lookup_prepare.
    destruct (fill _ _ _ _ _ _ _ _); [|done]. unfold addCandidates. by case_bool_decide.
  - intros now q Hn _ [Hq (b & k & Hkq)]. split; [by apply send_loop_inv|]. exists b, k. simpl. unfold lookup_update.
    by rewrite (proj1 (send_loop_same _ now q)).
  - intros now tg h ev q _ Hh [Hq (b & k & Hkq)]. split; [by apply handler_inv|]. exists b, k. by rewrite handler_kind.
  - done.
  - intros now q Hn Hq. by apply node_turn_live.
Qed.
End lookup.
End Lookup.

(** [ValueAnnounce] and [PeerAnnounce]: the nodes a lookup found are asked to
    store a value or a peer.  [an_sent] are the requests sent, each with the
    token that its node gave out. *)
Inductive AnnounceKind := ValueAnnounce (value : Value) | PeerAnnounce (peer : PeerInfo).

Record AnnounceTask := MkAnnounce {
  an_kind : AnnounceKind;
  todo : list CandidateNode;
  an_nextCall : Z;
  an_sent : list (NodeInfo * Z)
}.

Module Announce.
Implicit Types (p : TaskBase * AnnounceTask).

(** ** Definitions *)

(** The constructors copy the entries of the closest set; a lookup only puts
    nodes that answered into it, and no null pointers. *)
Definition Announce_new (kind : AnnounceKind) (cs : ClosestSet) : AnnounceTask :=
  MkAnnounce kind (omap id (ClosestSet.getEntries cs)) 0 [].

Definition announce_isDone p : bool :=
  match an_kind (snd p) with
  | ValueAnnounce _ => bool_decide (todo (snd p) = []) && Task.base_isDone (fst p)
  | PeerAnnounce _ => bool_decide (todo (snd p) = [])
  end.

(** The loop of [update]; the handler of the sent call takes the node off. *)
Fixpoint announce_loop (l : list CandidateNode) p : TaskBase * AnnounceTask :=
  match l with
  | [] => p
  | c :: l =>
      match Task.sendCall (an_nextCall (snd p)) (cn_id c) (fst p) with
      | Some t => announce_loop l (t, MkAnnounce (an_kind (snd p)) l (an_nextCall (snd p) + 1) (an_sent (snd p) ++ [(cn_info c, cn_token c)]))
      | None => p
      end
  end.

Definition announce_update p : TaskBase * AnnounceTask := announce_loop (todo (snd p)) p.

(** ** Lemmas *)

Lemma announce_loop_step l p : Task.base_step (fst p) (fst (announce_loop l p)).
Proof.
  revert p. induction l as [|c l IH]; intros p; simpl; [reflexivity|].
  destruct (Task.sendCall _ _ _) as [t|] eqn:E; [|reflexivity]. etrans; [by eapply Lookup.sendCall_step|].
  exact (IH (t, _)).
Qed.

#[refine] Instance announce_behaviour : TaskBehaviour AnnounceTask unit := {
  prepare now p := p;
  update now p := announce_update p;
  isDone p := announce_isDone p;
  callSent now id p := p;
  callResponsed now id r p := p;
  callError now id p := p;
  callTimeout now id p := p
}.
Proof.
  - reflexivity.
  - intros now p. apply announce_loop_step.
  - reflexivity.
  - reflexivity.
  - reflexivity.
  - reflexivity.
Defined.

Definition request_of (c : CandidateNode) : NodeInfo * Z := (cn_info c, cn_token c).

(** Nothing is lost or sent twice, and a finished announcement has sent all. *)
Definition announce_inv (all : list CandidateNode) p : Prop :=
  an_sent (snd p) ++ (request_of <$> todo (snd p)) = request_of <$> all /\
  (t_state (fst p) = FINISHED -> todo (snd p) = []).

Lemma announce_loop_inv all l p :
  todo (snd p) = l -> Task.isTerminal (fst p) = false -> announce_inv all p -> announce_inv all (announce_loop l p).
Proof.
  revert p. induction l as [|c l IH]; intros p Hl Ht Hi; simpl; [done|].
  destruct (Task.sendCall _ _ _) as [t|] eqn:E; [|done]. unfold Task.sendCall in E.
  destruct (Task.canDoRequest (fst p)); [|done]. injection E as <-. apply IH; [done|exact Ht|]. destruct Hi as [H1 H2].
  split; simpl.
  - rewrite <- H1, Hl, fmap_cons, <- app_assoc. done.
  - intros Hf. unfold Task.isTerminal in Ht. by rewrite Hf in Ht.
Qed.

Lemma announce_loop_progress l p :
  l = [] \/ inFlight (fst (announce_loop l p)) <> ∅.
Proof.
   destruct l as [|c l]; [by left|right].
  assert (forall k q, inFlight (fst q) <> ∅ -> inFlight (fst (announce_loop k q)) <> ∅) as Hk.
  { induction k as [|d k IH]; intros q Hq; simpl; [done|]. destruct (Task.sendCall _ _ (fst q)) eqn:E; [|done].
    apply IH. unfold Task.sendCall in E. destruct (Task.canDoRequest (fst q)); [|done]. injection E as <-. simpl. apply insert_non_empty. }
  simpl. destruct (Task.sendCall _ _ (fst p)) as [t|] eqn:E.
  - apply Hk. unfold Task.sendCall in E. destruct (Task.canDoRequest (fst p)); [|done]. injection E as <-. simpl. apply insert_non_empty.
  - unfold Task.sendCall in E. destruct (Task.canDoRequest (fst p)) eqn:Ec; [done|]. intros Hf. unfold Task.canDoRequest in Ec.
    by rewrite Hf, map_size_empty in Ec.
Qed.

Lemma announce_turn_live now p : TaskRun.live (fst (TaskRun.update_turn now p)).
Proof.
  unfold TaskRun.update_turn.
  assert (forall q, announce_isDone q = true \/ TaskRun.live (fst q) -> TaskRun.live (fst (TaskRun.finish_if_done now q))) as Hfin.
  { intros q Hq. unfold TaskRun.finish_if_done. simpl. destruct (announce_isDone q); [|by destruct Hq].
    left. apply (TaskRun.end_task_step now FINISHED). auto. }
  set (q := TaskRun.finish_if_done now p).
  destruct (Task.isTerminal (fst q)) eqn:Et; [rewrite andb_false_r; by left|].
  destruct (Task.canDoRequest (fst q)) eqn:Ec; simpl.
  2:{ right. intros Hf. unfold Task.canDoRequest in Ec. by rewrite Hf, map_size_empty in Ec. }
  apply Hfin. destruct (announce_loop_progress (todo (snd q)) q) as [Hn|Hf]; [|by right; right].
  unfold announce_update. rewrite Hn. simpl. destruct (decide (inFlight (fst q) = ∅)) as [Hf|Hf]; [left|by right; right].
  unfold announce_isDone, Task.base_isDone. rewrite Hn, Hf. by destruct (an_kind (snd q)).
Qed.

(** ** Theorems *)

(** An announcement sends one request to each node it was given, in order
    and with the token of that node: at any time the requests sent and the nodes
    still to do are together all nodes.  It never hangs (it has ended or a call
    is in flight), and when it finishes, all requests have been sent. *)
Theorem announce_complete kind nodes p :
  TaskRun.run (Task.Task_new, MkAnnounce kind nodes 0 []) p ->
  an_sent (snd p) ++ (request_of <$> todo (snd p)) = request_of <$> nodes /\
  (Task.isTerminal (fst p) = true \/ inFlight (fst p) <> ∅) /\
  (t_state (fst p) = FINISHED -> an_sent (snd p) = request_of <$> nodes).
Proof.
  intros Hr. assert (announce_inv nodes p /\ TaskRun.live (fst p)) as [[H1 H2] H3].
  - refine ((fun H => conj (proj1 H) (proj2 H _)) (TaskRun.run_inv (announce_inv nodes) _ _ _ _ _ _ _ _ Hr _ eq_refl _)).
    + intros now q Hn _. apply announce_turn_live.
    + intros now s q [I1 I2] Hs. split; [exact I1|]. simpl. intros Hf. unfold Task.end_task, Task.setState in Hf.
      destruct (existsb _ _) in Hf; [|by apply I2]. simpl in Hf. destruct Hs as [->|[_ Hd]]; [done|]. simpl in Hd.
      unfold announce_isDone in Hd. destruct (an_kind (snd q)); bool_to_prop; done.
    + intros q t [I1 I2] _ Hs. split; [exact I1|]. simpl. intros Hf. apply I2. destruct Hs as [<-|[Ht _]]; [done|].
      unfold Task.isTerminal in Ht. by rewrite Hf in Ht.
    + done.
    + intros now q _ Ht Hq. by apply announce_loop_inv.
    + intros now tg h ev q _ _ [I1 I2]. unfold TaskRun.call_handler.
      destruct ev; simpl; try (split; [exact I1|exact I2]); destruct (Task.isTerminal _); by split.
    + done.
    + split; [split|]; [done| |done]. simpl. rewrite map_size_empty. lia.
    + split; [by rewrite app_nil_l|done].
  - split; [done|]. split; [exact H3|]. intros Hf. rewrite <- H1, (H2 Hf). by rewrite app_nil_r.
Qed.
End Announce.

(** ** Witnesses *)

Definition self0 : NodeInfo := MkNodeInfo zero (SA_in 39001 [8; 8; 4; 4]) 0.
Definition boot0 : NodeInfo := MkNodeInfo (id_of_val 7) (SA_in 39001 [8; 8; 8; 8]) 0.
Definition found0 : NodeInfo := MkNodeInfo (id_of_val 9) (SA_in 39001 [9; 9; 9; 9]) 0.

(** An answer of the bootstrap node that names another node. *)
Definition answer0 (matches : bool) (m : Method) : Response := MkResponse matches RESPONSE m 42 [found0] [] None [].

Section examples.
#[local] Existing Instances toy_sodium Announce.announce_behaviour.
#[local] Instance example_lookup : TaskBehaviour LookupTask Response :=
  Lookup.lookup_behaviour false DHT_IPV4 self0 [boot0] RoutingTable.RoutingTable_new.

Definition node0 : TaskBase * LookupTask := Lookup.lookup_start false self0 (NodeLookup false true) MAX_ID [].
Definition node1 : TaskBase * LookupTask := fst (TaskRun.start [] 1 node0).
Definition node2 : TaskBase * LookupTask := fst (TaskRun.onCallState [] 2 0 (CallResponded (answer0 true FIND_NODE)) node1).

Lemma node2_run : TaskRun.run node0 node2.
Proof. apply TaskRun.run_call; [apply TaskRun.run_start; lia|lia]. Qed.

Lemma lookup_asks_bounded_witness :
  TaskRun.run node0 node2 /\ lk_asked (snd node2) = [boot0; found0] /\ (size (inFlight (fst node2)) <= Constants.MAX_CONCURRENT_TASK_REQUESTS)%nat.
Proof.
  split; [exact node2_run|]. split; [vm_compute; reflexivity|].
  exact (proj1 (proj2 (proj2 (Lookup.lookup_asks_bounded false DHT_IPV4 self0 [boot0] RoutingTable.RoutingTable_new
    (NodeLookup false true) MAX_ID [] node2 node2_run)))).
Defined.

Lemma node_lookup_live_witness :
  TaskRun.run node0 node2 /\ (Task.isTerminal (fst node2) = true \/ inFlight (fst node2) <> ∅).
Proof.
  split; [exact node2_run|].
  exact (Lookup.node_lookup_live false DHT_IPV4 self0 [boot0] RoutingTable.RoutingTable_new false true MAX_ID [] node2 node2_run).
Defined.

Definition value0 : TaskBase * LookupTask := Lookup.lookup_start false self0 (ValueLookup (-1) CONSERVATIVE) MAX_ID [].
Definition value1 : TaskBase * LookupTask := fst (TaskRun.start [] 1 value0).
Definition value2 : TaskBase * LookupTask := fst (TaskRun.onCallState [] 2 0 (CallResponded (answer0 false FIND_VALUE)) value1).

(** A value lookup can hang.  [ValueLookup::callResponsed] returns before it
    takes the candidate out when the id of the answering node is not the expected
    one, so the candidate stays marked as sent.  After one such answer this
    lookup runs on with no call in flight, and nothing can ever end it but a
    cancel: no event and no further update changes it. *)
Theorem value_lookup_hangs :
  TaskRun.run value0 value2 /\ t_state (fst value2) = RUNNING /\ inFlight (fst value2) = ∅ /\
  length (closest (lk_candidates (snd value2))) = 1%nat /\
  (forall env now hash ev, TaskRun.onCallState env now hash ev value2 = (value2, false)) /\
  (forall now, TaskRun.update_turn now value2 = value2).
Proof.
  assert (inFlight (fst value2) = ∅) as Hf by (apply map_empty; intros h; vm_compute; destruct h; reflexivity).
  split_and!; [apply TaskRun.run_call; [apply TaskRun.run_start; lia|lia]|vm_compute; reflexivity|exact Hf|vm_compute; reflexivity| |].
  - intros env now hash ev. unfold TaskRun.onCallState. by rewrite Hf, lookup_empty.
  - intros now. assert (TaskRun.finish_if_done now value2 = value2) as Hd.
    { unfold TaskRun.finish_if_done. assert (isDone value2 = false) as -> by (vm_compute; reflexivity). reflexivity. }
    assert (ClosestCandidates.next (lk_candidates (snd value2)) = None) as Hn by (vm_compute; reflexivity).
    assert (update now value2 = value2) as Hu.
    { change (update now value2) with (Lookup.lookup_update now value2). unfold Lookup.lookup_update. cbn [Lookup.send_loop].
      unfold Lookup.send_next. rewrite Hn. destruct (Task.canDoRequest (fst value2)); reflexivity. }
    unfold TaskRun.update_turn. rewrite Hd, Hu, Hd. destruct (_ && _); reflexivity.
Qed.

Definition announce0 : TaskBase * AnnounceTask :=
  (Task.Task_new, MkAnnounce (PeerAnnounce (MkPeer zero None zero zero 1 None [])) (ClosestSet.answer <$> [1; 2]) 0 []).
Definition announce1 : TaskBase * AnnounceTask := fst (TaskRun.start (R := unit) [1%nat] 1 announce0).

Lemma announce_complete_witness :
  TaskRun.run announce0 announce1 /\ t_state (fst announce1) = FINISHED /\ size (inFlight (fst announce1)) = 2%nat /\
  an_sent (snd announce1) = Announce.request_of <$> (ClosestSet.answer <$> [1; 2]).
Proof.
  assert (TaskRun.run announce0 announce1) as Hr by (apply TaskRun.run_start; lia).
  assert (t_state (fst announce1) = FINISHED) as Hf by (vm_compute; reflexivity).
  split; [exact Hr|]. split; [exact Hf|]. split; [vm_compute; reflexivity|].
  exact (proj2 (proj2 (Announce.announce_complete _ _ announce1 Hr)) Hf).
Defined.

(** Eighteen announcements, all queued. *)
Definition announcing (id : Z) : AnnounceTask := MkAnnounce (ValueAnnounce (MkValue None None None None None [1] 0)) [ClosestSet.answer id] 0 [].

Definition manager_ops : list (TaskManager.tm_op (St := AnnounceTask) (R := unit)) :=
  ((fun id => TaskManager.TmNew (announcing id)) <$> seqZ 0 18) ++
  ((fun id => TaskManager.TmAdd id false) <$> seqZ 0 18).

Definition manager_run (ops : list TaskManager.tm_op) (tm : TaskManager AnnounceTask) : option (TaskManager AnnounceTask) :=
  foldl (fun r op => match r with Some tm => TaskManager.exec (R := unit) (fun _ => []) 1 op tm | None => None end) (Some tm) ops.

Definition manager0 : TaskManager AnnounceTask :=
  match manager_run manager_ops TaskManager.TaskManager_new with Some tm => tm | None => TaskManager.TaskManager_new end.

Lemma manager_run_reachable (ops : list TaskManager.tm_op) (tm tm' : TaskManager AnnounceTask) :
  Forall (fun op => forall tm, TaskManager.op_ok (St := AnnounceTask) (R := unit) tm op) ops ->
  TaskManager.reachable (R := unit) tm -> manager_run ops tm = Some tm' -> TaskManager.reachable (R := unit) tm'.
Proof.
  intros Hops. revert tm. induction Hops as [|op ops Hop Hops IH]; intros tm Hr E; [by injection E as <-|].
  unfold manager_run in E. simpl in E.
  destruct (TaskManager.exec (fun _ => []) 1 op tm) as [tm1|] eqn:E1.
  - apply (IH tm1); [|exact E]. by eapply TaskManager.reach_step.
  - exfalso. clear -E. induction ops as [|o ops IH]; simpl in E; [done|by apply IH].
Qed.

Lemma manager0_reachable : TaskManager.reachable (R := unit) manager0.
Proof.
  apply (manager_run_reachable manager_ops TaskManager.TaskManager_new); [|constructor|vm_compute; reflexivity].
  unfold manager_ops. apply Forall_app. split; apply Forall_fmap, Forall_true; done.
Qed.

Lemma task_lifecycle_witness :
  TaskManager.reachable (R := unit) manager0 /\ TaskManager.op_ok (R := unit) manager0 TaskManager.TmDequeue /\
  NoDup (queued manager0) /\ length (queued manager0) = 18%nat.
Proof.
  split; [exact manager0_reachable|]. split; [exact I|]. split; [|vm_compute; reflexivity].
  exact (proj1 (proj2 (TaskManager.task_lifecycle manager0 (fun _ => []) 1 TaskManager.TmDequeue manager0_reachable I))).
Defined.

(** Seventeen of them run at the same time. *)
Lemma dequeue_order_witness :
  exists tm', TaskManager.dequeue (R := unit) (fun _ => []) 1 manager0 = Some tm' /\ running tm' = seqZ 0 17 /\ queued tm' = [17] /\
    (queued tm' = [] \/ TaskManager.canStartTask tm' = false).
Proof.
  destruct (TaskManager.dequeue_order (R := unit) manager0 (fun _ => []) 1 manager0_reachable) as (tm' & pre & E & _ & H & _).
  exists tm'. split; [exact E|]. vm_compute in E. injection E as <-.
  split; [vm_compute; reflexivity|]. split; [vm_compute; reflexivity|exact H].
Defined.
End examples.
