(* ===== verification/LookupEnds.v ===== *)
(** * The end of lookups: every lookup gets finitely many answers, and a node lookup ends

    [Lookups] shows that no node is asked more than three times and that a node lookup
    always waits for something.  Here the ends of its calls are the steps of a relation
    ([call_end]); it is terminating, because every end uses up one of the three
    questions to a node, and a node lookup for which no call can end has ended itself. *)

From stdpp Require Import relations.
From S2P Require Import Prelude Constants Ids Addresses Entries KBuckets RoutingTables KClosest Candidates RpcServer Tasks Values Lookups.

#[local] Open Scope Z_scope.

Module LookupEnds.
Import Lookup.

Section ends.
Context {sodium : Sodium}.
Variables (development : bool) (type : DHT_Type) (self : NodeInfo) (bootstrapNodes : list NodeInfo) (rt : RoutingTable).
Implicit Types (lk : LookupTask) (p q : TaskBase * LookupTask).

#[local] Instance the_lookup : TaskBehaviour LookupTask Response := lookup_behaviour development type self bootstrapNodes rt.

Abbreviation lookup_start := (lookup_start development self).
Abbreviation lookup_inv := (lookup_inv development self).

(** ** Definitions *)

(** The events with which a call ends. *)
Definition is_end (ev : CallEvent Response) : bool := match ev with CallSent | CallStalled => false | _ => true end.

(** A call that is in flight ends, with whatever answer and however updates interleave. *)
Definition call_end p q : Prop :=
  exists env now hash ev, 0 < now /\ is_Some (inFlight (fst p) !! hash) /\ is_end ev = true /\ q = fst (TaskRun.onCallState env now hash ev p).

(** The calls that were made are those that have ended, [k] many, and those in flight. *)
Definition counted (k : nat) p : Prop := length (lk_asked (snd p)) = (k + size (inFlight (fst p)))%nat.

Definition count_inv (k : nat) p : Prop := lookup_inv p /\ counted k p.

(** ** Lemmas *)

(** No operation but [update] changes the list of nodes that were asked. *)
Lemma addCandidates_asked nodes lk : lk_asked (addCandidates development self nodes lk) = lk_asked lk.
Proof. unfold addCandidates. by case_bool_decide. Qed.

Lemma callResponsed_asked now id r lk : lk_asked (lookup_callResponsed now id r lk) = lk_asked lk.
Proof. unfold lookup_callResponsed, removeCandidate. by destruct (ClosestCandidates.remove id (lk_candidates lk)) as [[c|] cc]. Qed.

Lemma responsed_asked now id r p : lk_asked (snd (lookup_responsed development type self now id r p)) = lk_asked (snd p).
Proof.
  assert (forall lk, lk_asked (add_response_nodes development type self r lk) = lk_asked lk) as Ha.
  { intros lk. unfold add_response_nodes. destruct (getNodes type r); [done|apply addCandidates_asked]. }
  unfold lookup_responsed, node_callResponsed, value_callResponsed, peer_callResponsed, value_found, peers_found.
  repeat case_match; simpl; rewrite ?Ha, ?callResponsed_asked; done.
Qed.

Lemma handler_counted now target hash ev k p :
  inFlight (fst p) !! hash = Some target -> is_end ev = true -> counted k p -> counted (S k) (TaskRun.call_handler now target hash ev p).
Proof.
  intros Hh He Hc. unfold counted in *.
  assert (length (lk_asked (snd p)) = S k + size (inFlight (fst (TaskRun.on_base (Task.removeCall hash) p))))%nat as H1.
  { rewrite Hc. simpl. rewrite map_size_delete_Some by eauto. assert (size (inFlight (fst p)) <> 0%nat); [|lia].
    intros E%map_size_empty_inv. by rewrite E, lookup_empty in Hh. }
  unfold TaskRun.call_handler. destruct ev as [| |r| |]; try done; (destruct (Task.isTerminal _); [exact H1|]).
  - simpl callResponsed. rewrite responsed_asked. etrans; [exact H1|]. f_equal.
    destruct (responsed_base development type self now target r (TaskRun.on_base (Task.removeCall hash) p)) as [->| ->]; [done|].
    unfold Task.cancel_self. by rewrite TaskRun.end_task_inFlight.
  - exact H1.
  - simpl. unfold lookup_callTimeout. destruct (ClosestCandidates.get _ _); [|exact H1].
    by destruct (CandidateNode.isUnreachable _).
Qed.

Lemma send_loop_counted fuel now k p : 0 < now -> count_inv k p -> count_inv k (send_loop fuel now p).
Proof.
  intros Hn. revert p. induction fuel as [|fuel IH]; intros p Hp; simpl; [done|]. destruct (send_next now p) as [q|] eqn:E; [|done].
  destruct Hp as [[Hok Hw] Hc]. apply IH. split; [split; [by eapply send_next_ok|by eapply send_next_waiting]|].
  destruct (send_next_inv now p q E) as (c & _ & _ & _ & _ & _ & Ea & _ & _ & Ef & _). unfold counted in *.
  rewrite Ea, Ef, length_app, map_size_insert_None; [simpl; lia|]. apply eq_None_not_Some. intros H%Hw. lia.
Qed.

Lemma count_end k now st p :
  count_inv k p -> st = CANCELED \/ st = FINISHED /\ lookup_isDone p = true -> count_inv k (TaskRun.on_base (Task.end_task now st) p).
Proof. intros [Hi Hc] Hs. split; [by apply lookup_inv_end|]. unfold counted. simpl. by rewrite TaskRun.end_task_inFlight. Qed.

Lemma count_same k p t :
  count_inv k p -> inFlight t = inFlight (fst p) ->
  t_state t = t_state (fst p) \/ Task.isTerminal t = false /\ Task.isTerminal (fst p) = false -> count_inv k (t, snd p).
Proof. intros [Hi Hc] Ef Hs. split; [by apply lookup_inv_same|]. unfold counted. simpl. by rewrite Ef. Qed.

Lemma count_update k env now p : 0 < now -> count_inv k p -> lock (fst p) = 0 -> count_inv k (fst (TaskRun.serializedUpdate env now p)).
Proof.
  intros Hn Hp Hl. refine (proj1 (TaskRun.serializedUpdate_inv (count_inv k) _ _ _ env now p Hn Hp Hl)).
  - apply count_end.
  - apply count_same.
  - intros now' q Hn' _ Hq. by apply send_loop_counted.
Qed.

(** Every end of a call is counted. *)
Lemma end_counted env now hash ev k p :
  0 < now -> is_Some (inFlight (fst p) !! hash) -> is_end ev = true -> lock (fst p) = 0 -> count_inv k p ->
  count_inv (S k) (fst (TaskRun.onCallState env now hash ev p)).
Proof.
  intros Hn [tg Hh] He Hl [Hi Hc]. unfold TaskRun.onCallState. rewrite Hh.
  assert (count_inv (S k) (TaskRun.call_handler now tg hash ev p)) as H by (split; [by apply handler_inv|by apply handler_counted]).
  assert (lock (fst (TaskRun.call_handler now tg hash ev p)) = 0) as Hk by (by destruct (TaskRun.call_handler_step now tg hash ev p) as (_ & _ & ->)).
  destruct ev; try done; by apply count_update.
Qed.

Lemma run_counted kind target injected p : TaskRun.run (lookup_start kind target injected) p -> exists k, count_inv k p.
Proof.
  intros Hr. destruct (start_inv development self kind target injected) as [H0 _].
  refine (proj1 (TaskRun.run_inv (fun p => exists k, count_inv k p) _ _ _ _ _ _ _ _ Hr (Task_new_ok _) eq_refl _)).
  - intros now st q [k Hq] Hs. exists k. by apply count_end.
  - intros q t [k Hq] Ef Hs. exists k. by apply count_same.
  - intros now q _ [k [Hi Hc]]. exists k. split; [by apply prepare_inv|]. unfold counted. simpl. unfold lookup_prepare.
    destruct (fill _ _ _ _ _ _ _ _); [|done]. by rewrite addCandidates_asked.
  - intros now q Hn _ [k Hq]. exists k. by apply send_loop_counted.
  - intros now tg hash ev q _ Hh [k [Hi Hc]]. destruct (is_end ev) eqn:E.
    + exists (S k). split; [by apply handler_inv|by apply handler_counted].
    + exists k. by destruct ev.
  - done.
  - exists 0%nat. split; [done|]. unfold counted. simpl. unfold injectCandidates. by rewrite addCandidates_asked, map_size_empty.
Qed.

(** Nodes that are asked three times each. *)
Lemma asked_bound (U : gset Id) (l : list NodeInfo) :
  (forall id, asks id l <= 3) -> (forall n, n ∈ l -> nodeId n ∈ U) -> (length l <= 3 * size U)%nat.
Proof.
  revert l. induction U as [|x U Hx IH] using set_ind_L; intros l H3 Hl.
  - destruct l as [|n l]; [simpl; lia|]. exfalso. apply (not_elem_of_empty (C := gset Id) (nodeId n)), Hl. left.
  - rewrite size_union, size_singleton by set_solver. specialize (H3 x) as Hx3. unfold asks in Hx3.
    assert (length l = length (filter (fun n => nodeId n = x) l) + length (filter (fun n => nodeId n <> x) l))%nat as ->.
    { clear. induction l as [|n l IHl]; [done|]. rewrite !filter_cons. repeat case_decide; simpl; try done; lia. }
    assert (length (filter (fun n => nodeId n <> x) l) <= 3 * size U)%nat; [|lia]. apply IH.
    + intros id. specialize (H3 id). unfold asks in *. assert (length (filter (fun n => nodeId n = id) (filter (fun n => nodeId n <> x) l)) <=
        length (filter (fun n => nodeId n = id) l))%nat; [|lia]. clear. induction l as [|n l IHl]; [done|].
      rewrite (filter_cons _ n), (filter_cons (fun n => nodeId n = id) n l). repeat case_decide; rewrite ?filter_cons; repeat case_decide; simpl; try done; lia.
    + intros n [Hne Hin]%list_elem_of_filter. by destruct (proj1 (elem_of_union _ _ _) (Hl n Hin)) as [?%elem_of_singleton|?].
Qed.

Lemma ids_bound (U : gset Id) : Z.of_nat (size U) <= 2 ^ 256.
Proof.
  assert (length (id_val <$> elements U) <= length (seqZ 0 (2 ^ 256)))%nat as H.
  { apply submseteq_length, NoDup_submseteq.
    - apply NoDup_fmap_2; [intros i j; apply id_val_inj|apply NoDup_elements].
    - intros z (i & -> & _)%list_elem_of_fmap. apply elem_of_seqZ. pose proof (id_val_bound i). lia. }
  rewrite length_fmap, length_seqZ in H. change (length (elements U)) with (size U) in H. lia.
Qed.

Lemma call_end_run p0 p q : TaskRun.run p0 p -> call_end p q -> TaskRun.run p0 q.
Proof. intros Hr (env & now & hash & ev & Hn & _ & _ & ->). by apply TaskRun.run_call. Qed.

Lemma call_end_counted kind target injected k p q :
  TaskRun.run (lookup_start kind target injected) p -> call_end p q -> count_inv k p -> count_inv (S k) q.
Proof.
  intros Hr (env & now & hash & ev & Hn & Hh & He & ->) Hc. apply end_counted; try done.
  apply (TaskRun.run_idle _ p Hr (Task_new_ok _)).
Qed.

Lemma ended_bound k p : count_inv k p -> (forall U : gset Id, (forall n, n ∈ lk_asked (snd p) -> nodeId n ∈ U) -> (k <= 3 * size U)%nat).
Proof.
  intros [[Hok _] Hc] U HU. pose proof (asked_bound U (lk_asked (snd p)) (ok_three _ _ _ Hok) HU). unfold counted in Hc. lia.
Qed.

(** Whatever the answers are, the calls of a lookup end finitely often. *)
Lemma lookup_sn kind target injected p : TaskRun.run (lookup_start kind target injected) p -> sn call_end p.
Proof.
  assert (exists B, forall k p, count_inv k p -> (k <= B)%nat) as [B HB].
  { exists (Z.to_nat (3 * 2 ^ 256)). intros k q Hq. pose proof (ids_bound (list_to_set (nodeId <$> lk_asked (snd q)))).
    pose proof (ended_bound k q Hq (list_to_set (nodeId <$> lk_asked (snd q)))) as Hk.
    assert (k <= 3 * size (list_to_set (nodeId <$> lk_asked (snd q)) : gset Id))%nat; [|lia].
    apply Hk. intros n Hn. apply elem_of_list_to_set, list_elem_of_fmap. eauto. }
  intros Hr. destruct (run_counted kind target injected p Hr) as [k Hk].
  remember (B - k)%nat as m eqn:Em. revert k p Hr Hk Em. induction (lt_wf m) as [m _ IH]. intros k p Hr Hk ->.
  constructor. intros q Hq. pose proof (call_end_counted _ _ _ _ _ _ Hr Hq Hk) as Hk'. pose proof (HB _ _ Hk').
  eapply (IH (B - S k)%nat); [lia|by eapply call_end_run|exact Hk'|done].
Qed.

(** A call that is in flight can end. *)
Lemma nf_no_calls p : nf call_end p -> inFlight (fst p) = ∅.
Proof.
  intros Hn. destruct (decide (inFlight (fst p) = ∅)) as [|(h & tg & E)%map_choose]; [done|]. destruct Hn.
  eexists (fst (TaskRun.onCallState [] 1 h CallErr p)), [], 1, h, CallErr. split_and!; [lia|by eexists|done|done].
Qed.

(** ** Theorems *)

(** C12: A node lookup ends.  From every state of a lookup, whatever the nodes answer, in whatever order the calls end and
    however updates interleave, there is no endless sequence of ends of calls; when no call is left that can end, the
    lookup has ended; and if the nodes that were asked are among [size U] many, at most three times as many calls
    have ended. *)
Theorem node_lookup_terminates bt tk target injected p :
  TaskRun.run (lookup_start (NodeLookup bt tk) target injected) p ->
  sn call_end p /\
  (forall q, rtc call_end p q -> nf call_end q -> Task.isTerminal (fst q) = true) /\
  (forall n q (U : gset Id), nsteps call_end n p q -> (forall x, x ∈ lk_asked (snd q) -> nodeId x ∈ U) -> (n <= 3 * size U)%nat).
Proof.
  intros Hr. split; [by eapply lookup_sn|]. split.
  - intros q Hq Hn%nf_no_calls. assert (TaskRun.run (lookup_start (NodeLookup bt tk) target injected) q) as Hrq.
    { induction Hq as [p|p p' q H _ IH]; [done|]. apply IH; [by eapply call_end_run|done]. }
    by destruct (node_lookup_live development type self bootstrapNodes rt bt tk target injected q Hrq).
  - intros n q U Hs HU. destruct (run_counted _ _ _ p Hr) as [k Hk]. assert (count_inv (n + k) q) as Hq.
    { clear HU. revert k Hk. induction Hs as [p|n p p' q H _ IH]; intros k Hk; [done|].
      replace (S n + k)%nat with (n + S k)%nat by lia. apply IH; [by eapply call_end_run|by eapply call_end_counted]. }
    pose proof (ended_bound _ _ Hq U HU). lia.
Qed.

End ends.
End LookupEnds.

(** ** Witnesses *)

Section examples.
#[local] Existing Instance toy_sodium.

(** A lookup that asked the bootstrap node and the node that it named. *)
Lemma node_lookup_terminates_witness :
  Task.isTerminal (fst node2) = false /\
  sn (LookupEnds.call_end false DHT_IPV4 self0 [boot0] RoutingTable.RoutingTable_new) node2.
Proof.
  split; [vm_compute; reflexivity|].
  exact (proj1 (LookupEnds.node_lookup_terminates false DHT_IPV4 self0 [boot0] RoutingTable.RoutingTable_new false true MAX_ID [] node2 node2_run)).
Defined.
End examples.
