(* ===== verification/Storage.v ===== *)
(** * The storage of values and peers: [SqliteStorage] of [src/core/sqlite_storage.cc]

    The two tables are finite maps from their primary keys to rows, and each SQL
    statement of the source is the operation on the maps that it denotes in
    SQLite: a select, an upsert with the columns its [DO UPDATE] clause names, an
    update or a delete.  Rows come back in the order of [ORDER BY RANDOM()],
    which is a parameter.  The schema is in [Persistence]; failures of SQLite in the
    statements on rows are not modelled. *)

From S2P Require Import Prelude Constants Ids Candidates Values Texts.

Record ValueRow := MkValueRow {
  vr_persistent : bool;
  vr_publicKey : option (list Z);
  vr_privateKey : option (list Z);
  vr_recipient : option (list Z);
  vr_nonce : option (list Z);
  vr_signature : option (list Z);
  vr_sequenceNumber : Z;
  vr_data : list Z;
  vr_timestamp : Z;
  vr_announced : Z
}.

Record PeerRow := MkPeerRow {
  pr_persistent : bool;
  pr_privateKey : option (list Z);
  pr_port : Z;
  pr_url : option (list Z);
  pr_signature : list Z;
  pr_timestamp : Z;
  pr_announced : Z
}.

(** The primary key of a peer: its id, node and origin. *)
Definition PeerKey : Type := Id * Id * Id.

Record SqliteStorage := MkStorage {
  valores : gmap Id ValueRow;
  peers : gmap PeerKey PeerRow
}.

Module SqliteStorage.

Section storage.
Context {sodium : Sodium}.
Variable random_order : list (PeerKey * PeerRow) -> list (PeerKey * PeerRow).
Implicit Types (st : SqliteStorage) (v : Value) (p : PeerInfo).

(** ** Definitions *)

Definition set_values st (m : gmap Id ValueRow) : SqliteStorage := MkStorage m (peers st).
Definition set_peers st (m : gmap PeerKey PeerRow) : SqliteStorage := MkStorage (valores st) m.

(** [SqliteStorage::expire] *)
Definition expire (now : Z) st : SqliteStorage :=
  let ts0 := i64 (now - Constants.MAX_VALUE_AGE) in
  let ts1 := i64 (now - Constants.MAX_PEER_AGE) in
  MkStorage (filter (fun kr => vr_persistent (snd kr) = true \/ ts0 <= vr_timestamp (snd kr)) (valores st))
            (filter (fun kr => pr_persistent (snd kr) = true \/ ts1 <= pr_timestamp (snd kr)) (peers st)).

(** The value of a row, as [getValue] and [getPersistentValues] build it. *)
Definition row_value (r : ValueRow) : result Value :=
  let nonce := default [] (vr_nonce r) in
  Value.Value_of (default [] (vr_publicKey r)) (default [] (vr_privateKey r)) (default [] (vr_recipient r))
    (if (length nonce =? NONCE_BYTES)%nat then nonce else []) (i32 (vr_sequenceNumber r)) (default [] (vr_signature r)) (vr_data r).

Definition getValue (now : Z) (valueId : Id) st : result (option Value) :=
  let when_ := i64 (now - Constants.MAX_VALUE_AGE) in
  match valores st !! valueId with
  | Some r => if when_ <=? vr_timestamp r
              then match row_value r with Ok v => Ok (Some v) | Throw e => Throw e end
              else Ok None
  | None => Ok None
  end.

(** The checks of [putValue] against the value it replaces. *)
Definition check_replace (old : option Value) v (expectedSeq : Z) : option error :=
  match old with
  | Some old =>
      if Value.isMutable old then
        if negb (Value.isMutable v) then Some Replaces_mutable
        else if Value.hasPrivateKey old && negb (Value.hasPrivateKey v) then Some Not_the_owner_of_value
        else if sequenceNumber v <? sequenceNumber old then Some Sequence_number_less
        else if (0 <=? expectedSeq) && (0 <=? sequenceNumber old) && negb (sequenceNumber old =? expectedSeq) then Some CAS_failure
        else None
      else None
  | None => None
  end.

Definition value_row (now : Z) v (persistent : bool) (announced : Z) : ValueRow :=
  MkValueRow persistent (bytes <$> v_publicKey v) (v_privateKey v) (bytes <$> v_recipient v)
    (if Value.isMutable v then v_nonce v else None) (v_signature v) (sequenceNumber v) (v_data v) now announced.

(** [UPSERT_VALUE]: on a conflict [persistent] and [announced] stay. *)
Definition upsert_value (id : Id) (r : ValueRow) st : SqliteStorage :=
  let r := match valores st !! id with
    | Some old => MkValueRow (vr_persistent old) (vr_publicKey r) (vr_privateKey r) (vr_recipient r) (vr_nonce r)
                    (vr_signature r) (vr_sequenceNumber r) (vr_data r) (vr_timestamp r) (vr_announced old)
    | None => r
    end in
  set_values st (<[id := r]> (valores st)).

(** [SqliteStorage::putValue]: the replaced value, and the storage after it. *)
Definition putValue (now : Z) v (expectedSeq : Z) (persistent updateLastAnnounce : bool) st : result (option Value) * SqliteStorage :=
  if Value.isMutable v && negb (Value.isValid v) then (Throw Validation_failed, st) else
  let id := Value.getId v in
  match getValue now id st with
  | Throw e => (Throw e, st)
  | Ok old =>
      match check_replace old v expectedSeq with
      | Some e => (Throw e, st)
      | None => (Ok old, upsert_value id (value_row now v persistent (if updateLastAnnounce then now else 0)) st)
      end
  end.

Definition getAllValues (now : Z) st : list Id :=
  sort_by id_ltb (fst <$> filter (fun kr => i64 (now - Constants.MAX_VALUE_AGE) <= vr_timestamp (snd kr)) (map_to_list (valores st))).

Definition updateValueLastAnnounce (now : Z) (valueId : Id) st : SqliteStorage :=
  match valores st !! valueId with
  | Some r => set_values st (<[valueId := MkValueRow (vr_persistent r) (vr_publicKey r) (vr_privateKey r) (vr_recipient r)
      (vr_nonce r) (vr_signature r) (vr_sequenceNumber r) (vr_data r) now now]> (valores st))
  | None => st
  end.

(** Run a loop over rows; the first exception ends it. *)
Fixpoint collect {A} (l : list (result A)) : result (list A) :=
  match l with
  | [] => Ok []
  | Ok a :: l => match collect l with Ok r => Ok (a :: r) | Throw e => Throw e end
  | Throw e :: _ => Throw e
  end.

Definition getPersistentValues (lastAnnounceBefore : Z) st : result (list Value) :=
  collect (row_value ∘ snd <$> filter (fun kr => vr_persistent (snd kr) = true /\ vr_announced (snd kr) <= i64 lastAnnounceBefore)
    (map_to_list (valores st))).

(** [removeValue], with the result of [sqlite3_changes]. *)
Definition removeValue (valueId : Id) st : bool * SqliteStorage :=
  (bool_decide (is_Some (valores st !! valueId)), set_values st (delete valueId (valores st))).

Definition peer_key p : PeerKey := (p_publicKey p, p_nodeId p, p_origin p).

Definition peer_row (now : Z) p (persistent : bool) (announced : Z) : PeerRow :=
  MkPeerRow persistent (p_privateKey p) (p_port p) (c_string <$> alternativeURL p) (p_signature p) now announced.

(** The peer of a row, as [getPeer] builds it. *)
Definition row_peer (kr : PeerKey * PeerRow) : result PeerInfo :=
  let '(id, nodeId, origin, r) := kr in
  PeerInfo.PeerInfo_of (bytes id) (default [] (pr_privateKey r)) (bytes nodeId) (bytes origin) (u16 (pr_port r))
    (default [] (pr_url r)) (pr_signature r).

(** [getPeer(peerId, maxPeers)] *)
Definition getPeers (now : Z) (peerId : Id) (maxPeers : Z) st : result (list PeerInfo) :=
  let maxPeers := if maxPeers <=? 0 then 0x7fffffff else maxPeers in
  let when_ := i64 (now - Constants.MAX_PEER_AGE) in
  let rows := filter (fun kr => fst (fst (fst kr)) = peerId /\ when_ <= pr_timestamp (snd kr)) (map_to_list (peers st)) in
  collect (row_peer <$> take (Z.to_nat maxPeers) (random_order rows)).

(** [getPeer(peerId, origin)]: the first row SQLite finds. *)
Definition getPeer (now : Z) (peerId origin : Id) st : result (option PeerInfo) :=
  let when_ := i64 (now - Constants.MAX_PEER_AGE) in
  match filter (fun kr => fst (fst (fst kr)) = peerId /\ snd (fst kr) = origin /\ when_ <= pr_timestamp (snd kr)) (map_to_list (peers st)) with
  | kr :: _ => match row_peer kr with Ok p => Ok (Some p) | Throw e => Throw e end
  | [] => Ok None
  end.

(** [UPSERT_PEER]: on a conflict every column is replaced. *)
Definition putPeer (now : Z) p (persistent updateLastAnnounce : bool) st : SqliteStorage :=
  set_peers st (<[peer_key p := peer_row now p persistent (if updateLastAnnounce then now else 0)]> (peers st)).

(** [putPeer] of a list, in one transaction. *)
Definition putPeers (now : Z) (l : list PeerInfo) st : SqliteStorage :=
  foldl (fun st p => set_peers st (<[peer_key p := peer_row now p false 0]> (peers st))) st l.

Definition updatePeerLastAnnounce (now : Z) (peerId origin : Id) st : SqliteStorage :=
  set_peers st (map_imap (fun k r =>
    Some (if bool_decide (fst (fst k) = peerId /\ snd k = origin)
          then MkPeerRow (pr_persistent r) (pr_privateKey r) (pr_port r) (pr_url r) (pr_signature r) now now else r)) (peers st)).

(** [getPersistentPeers]: the column [origin] is not read. *)
Definition persistent_row_peer (kr : PeerKey * PeerRow) : result PeerInfo :=
  let '(id, nodeId, origin, r) := kr in
  PeerInfo.PeerInfo_of (bytes id) (default [] (pr_privateKey r)) (bytes nodeId) [] (u16 (pr_port r))
    (default [] (pr_url r)) (pr_signature r).

Definition getPersistentPeers (lastAnnounceBefore : Z) st : result (list PeerInfo) :=
  collect (persistent_row_peer <$> filter (fun kr => pr_persistent (snd kr) = true /\ pr_announced (snd kr) <= i64 lastAnnounceBefore)
    (map_to_list (peers st))).

Definition removePeer (peerId origin : Id) st : bool * SqliteStorage :=
  let m := filter (fun kr => ~ (fst (fst (fst kr)) = peerId /\ snd (fst kr) = origin)) (peers st) in
  ((size m <? size (peers st))%nat, set_peers st m).

(** ** Lemmas *)

(** A value that the storage can hold: one that a constructor made, with a whole
    private key or none, and a sequence number of an [int32_t]. *)
Definition storable v : Prop :=
  Value.value_ok v /\ (forall sk, v_privateKey v = Some sk -> length sk = PRIVATE_KEY_BYTES) /\ sequenceNumber v < 2 ^ 31.

Lemma Value_of_parts v :
  storable v -> (exists pk, v_publicKey v = Some pk) ->
  Value.Value_of (default [] (bytes <$> v_publicKey v)) (default [] (v_privateKey v)) (default [] (bytes <$> v_recipient v))
    (default [] (v_nonce v)) (sequenceNumber v) (default [] (v_signature v)) (v_data v) = Ok v.
Proof.
  intros ([Hd Hv] & Hsk & _) [pk Ep]. destruct v as [opk orec osk on osig d seq]. simpl in *. subst opk.
  destruct Hv as (Hs & (n & -> & Ln) & (s & -> & Ls)). unfold Value.Value_of. change (default [] (bytes <$> Some pk)) with (bytes pk).
  change (default [] (Some n)) with n. change (default [] (Some s)) with s.
  rewrite bool_decide_eq_false_2 by apply Value.bytes_nonempty.
  assert (negb (bool_decide (default [] osk = [])) && negb (length (default [] osk) =? PRIVATE_KEY_BYTES)%nat = false) as ->.
  { destruct osk as [sk|]; [|done]. simpl. by rewrite (Hsk sk eq_refl), Nat.eqb_refl, andb_false_r. }
  rewrite Ln, Ls, !Nat.eqb_refl. cbn [negb]. destruct (Z.ltb_spec seq 0); [lia|]. rewrite Value.id_blob_ok.
  destruct osk as [sk|]; simpl; [rewrite (bool_decide_eq_false_2 (sk = [])) by (intros ->; by specialize (Hsk [] eq_refl))|];
    (destruct orec as [r|]; simpl;
     [rewrite (bool_decide_eq_false_2 (bytes r = [])) by apply Value.bytes_nonempty; rewrite Value.id_blob_ok|];
     by rewrite bool_decide_eq_false_2).
Qed.

Lemma row_value_ok now v persistent announced : storable v -> row_value (value_row now v persistent announced) = Ok v.
Proof.
  intros Hv. pose proof Hv as ([Hd Hok] & _ & Hs). unfold row_value, value_row, Value.isMutable. simpl.
  destruct (v_publicKey v) as [pk|] eqn:Ep.
  - rewrite bool_decide_eq_true_2 by done. destruct Hok as (Hs0 & (n & En & Ln) & _).
    assert (default [] (v_nonce v) = n) as Hn by (by rewrite En). rewrite Hn, Ln, Nat.eqb_refl. rewrite <- Hn.
    rewrite (swrap_small 32) by lia. rewrite <- (Value_of_parts v Hv); [|by exists pk]. by rewrite Ep.
  - rewrite bool_decide_eq_false_2 by (by intros [? [=]]). unfold Value.Value_of. simpl.
    rewrite bool_decide_eq_false_2 by done. by rewrite <- Hok.
Qed.

(** What [getValue] reads of a row does not depend on the columns that an upsert
    keeps. *)
Lemma getValue_upsert now now' v persistent announced st :
  storable v -> i64 (now' - Constants.MAX_VALUE_AGE) <= now ->
  getValue now' (Value.getId v) (upsert_value (Value.getId v) (value_row now v persistent announced) st) = Ok (Some v).
Proof.
  intros Hv Hage. unfold getValue, upsert_value. simpl. rewrite lookup_insert_eq.
  set (r := match valores st !! Value.getId v with Some _ => _ | None => _ end).
  assert (row_value r = Ok v /\ vr_timestamp r = now) as [-> ->].
  { unfold r. destruct (valores st !! Value.getId v) as [old|]; (split; [|done]); [|by apply row_value_ok].
    exact (row_value_ok now v (vr_persistent old) (vr_announced old) Hv). }
  destruct (Z.leb_spec (i64 (now' - Constants.MAX_VALUE_AGE)) now); [done|lia].
Qed.

Lemma check_replace_ok old v expectedSeq :
  check_replace (Some old) v expectedSeq = None -> Value.isMutable old = true ->
  Value.isMutable v = true /\ (Value.hasPrivateKey old = true -> Value.hasPrivateKey v = true) /\
  sequenceNumber old <= sequenceNumber v /\ (0 <= expectedSeq -> 0 <= sequenceNumber old -> sequenceNumber old = expectedSeq).
Proof.
  unfold check_replace. intros H Hm. rewrite Hm in H.
  destruct (Value.isMutable v); [|done]. simpl in H.
  destruct (Value.hasPrivateKey old), (Value.hasPrivateKey v); simpl in H; try done;
    (destruct (Z.ltb_spec (sequenceNumber v) (sequenceNumber old)); [done|];
     destruct (Z.leb_spec 0 expectedSeq), (Z.leb_spec 0 (sequenceNumber old)), (Z.eqb_spec (sequenceNumber old) expectedSeq);
     simpl in H; try done; split_and!; try done; lia).
Qed.

(** Every row holds a valid value under its own id. *)
Definition storage_ok st : Prop :=
  forall id r, valores st !! id = Some r ->
    exists v, row_value r = Ok v /\ storable v /\ Value.getId v = id /\ Value.isValid v = true.

Lemma put_storable v : storable v -> Value.isMutable v && negb (Value.isValid v) = false -> Value.isValid v = true.
Proof.
  intros ([Hd _] & _) Hm. destruct (Value.isValid v) eqn:Ev; [done|]. simpl in Hm. rewrite andb_true_r in Hm.
  unfold Value.isValid in Ev. rewrite bool_decide_eq_false_2 in Ev by done. unfold Value.isMutable in Hm.
  destruct (v_publicKey v); [|done]. by rewrite bool_decide_eq_true_2 in Hm.
Qed.

Lemma upsert_ok now v persistent announced st :
  storage_ok st -> storable v -> Value.isValid v = true ->
  storage_ok (upsert_value (Value.getId v) (value_row now v persistent announced) st).
Proof.
  intros Hst Hv Hval i r. unfold upsert_value. simpl. rewrite lookup_insert_Some. intros [[<- <-]|[_ Hr]]; [|by apply Hst].
  exists v. split_and!; [|done..]. destruct (valores st !! Value.getId v) as [old|]; [|by apply row_value_ok].
  exact (row_value_ok now v (vr_persistent old) (vr_announced old) Hv).
Qed.

Lemma putValue_ok now v expectedSeq persistent upd st :
  storage_ok st -> storable v -> storage_ok (snd (putValue now v expectedSeq persistent upd st)).
Proof.
  intros Hst Hv. unfold putValue. destruct (Value.isMutable v && negb (Value.isValid v)) eqn:E; [done|].
  destruct (getValue now (Value.getId v) st) as [old|]; [|done]. destruct (check_replace old v expectedSeq); [done|].
  apply upsert_ok; [done|done|by apply put_storable].
Qed.

(** The operations that change the storage. *)
Inductive storage_step : SqliteStorage -> SqliteStorage -> Prop :=
  | step_putValue now v expectedSeq persistent upd st : storable v ->
      storage_step st (snd (putValue now v expectedSeq persistent upd st))
  | step_updateValue now id st : storage_step st (updateValueLastAnnounce now id st)
  | step_removeValue id st : storage_step st (snd (removeValue id st))
  | step_putPeer now p persistent upd st : storage_step st (putPeer now p persistent upd st)
  | step_putPeers now l st : storage_step st (putPeers now l st)
  | step_updatePeer now id origin st : storage_step st (updatePeerLastAnnounce now id origin st)
  | step_removePeer id origin st : storage_step st (snd (removePeer id origin st))
  | step_expire now st : storage_step st (expire now st).

Lemma putPeers_values now l st : valores (putPeers now l st) = valores st.
Proof. unfold putPeers. revert st. induction l as [|p l IH]; intros st; simpl; [done|]. by rewrite IH. Qed.

Lemma step_ok st st' : storage_step st st' -> storage_ok st -> storage_ok st'.
Proof.
  intros Hs Hst. destruct Hs as [now v e p u st Hv|now id st|id st|now p pe u st|now l st|now id o st|id o st|now st]; try exact Hst.
  - by apply putValue_ok.
  - unfold updateValueLastAnnounce. destruct (valores st !! id) as [r|] eqn:Er; [|done].
    intros i r'. simpl. rewrite lookup_insert_Some. intros [[<- <-]|[_ Hr]]; [|by apply Hst].
    exact (Hst id r Er).
  - intros i r. simpl. rewrite lookup_delete_Some. intros [_ Hr]. by apply Hst.
  - intros i r. rewrite putPeers_values. apply Hst.
  - intros i r. simpl. rewrite map_lookup_filter_Some. intros [Hr _]. by apply Hst.
Qed.

(** What was put is read back until it is too old. *)
Lemma put_reads now v expectedSeq persistent upd st old st' :
  storable v -> putValue now v expectedSeq persistent upd st = (Ok old, st') ->
  forall now', i64 (now' - Constants.MAX_VALUE_AGE) <= now -> getValue now' (Value.getId v) st' = Ok (Some v).
Proof.
  intros Hv. unfold putValue. destruct (Value.isMutable v && negb (Value.isValid v)); [done|].
  destruct (getValue now (Value.getId v) st) as [o|e]; [|done]. destruct (check_replace o v expectedSeq); [done|].
  intros [= _ <-] now' Ha. by apply getValue_upsert.
Qed.

Lemma collect_ok {X} (l : list (result X)) : Forall (fun r => exists x, r = Ok x) l -> exists xs, collect l = Ok xs /\ l = Ok <$> xs.
Proof.
  induction 1 as [|r l [x ->] _ (xs & E & ->)]; [by exists []|]. exists (x :: xs). simpl. by rewrite E.
Qed.

(** A peer that the storage gives back as it was: one that a constructor made, with
    a whole private key or none, and no zero byte in its URL. *)
Definition peer_storable p : Prop :=
  PeerInfo.peer_ok p /\ (forall sk, p_privateKey p = Some sk -> length sk = PRIVATE_KEY_BYTES) /\ Forall is_byte (p_signature p) /\
  (forall u, alternativeURL p = Some u -> Forall is_byte u /\ Forall (fun c => (c =? 0) = false) u).

Lemma stored_url p : peer_storable p -> PeerInfo.normal_url (default [] (c_string <$> alternativeURL p)) = Ok (alternativeURL p).
Proof.
  intros (Hok & _ & _ & Hz). rewrite <- (PeerInfo.normal_url_ok p Hok). f_equal. destruct (alternativeURL p) as [u|]; [|done].
  simpl. by rewrite (Base58.c_string_id u) by apply (Hz u eq_refl).
Qed.

Lemma row_peer_ok now p persistent announced :
  peer_storable p -> row_peer (peer_key p, peer_row now p persistent announced) = Ok p.
Proof.
  intros Hps. pose proof Hps as ((Hp & Hs & _) & Hsk & _). unfold row_peer, peer_key, peer_row. cbn [pr_privateKey pr_port pr_url pr_signature].
  unfold PeerInfo.PeerInfo_of. rewrite !id_length, Hs, !Nat.eqb_refl. cbn [negb].
  assert (negb (bool_decide (default [] (p_privateKey p) = [])) && negb (length (default [] (p_privateKey p)) =? PRIVATE_KEY_BYTES)%nat = false) as ->.
  { destruct (p_privateKey p) as [sk|] eqn:E; [|done]. simpl. by rewrite (Hsk sk eq_refl), Nat.eqb_refl, andb_false_r. }
  rewrite (bool_decide_eq_false_2 (bytes (p_origin p) = [])) by apply Value.bytes_nonempty. cbn [negb andb].
  rewrite !(wrap_small 16 (p_port p)) by lia. destruct (Z.leb_spec (p_port p) 0); [lia|]. destruct (Z.ltb_spec 65535 (p_port p)); [lia|]. cbn [orb].
  rewrite (stored_url p Hps), !PeerInfo.mk_id_bytes. f_equal.
  destruct p as [pk sk n o port u g]. cbn [p_publicKey p_privateKey p_nodeId p_origin p_port alternativeURL p_signature] in *. f_equal.
  destruct sk as [sk|]; [|done]. simpl. rewrite bool_decide_eq_false_2; [done|]. intros ->. by specialize (Hsk [] eq_refl).
Qed.

(** Every row of a peer holds that peer. *)
Definition peers_ok st : Prop :=
  forall k r, peers st !! k = Some r -> exists p, row_peer (k, r) = Ok p /\ peer_storable p /\ peer_key p = k.

Lemma putPeer_ok now p persistent upd st : peers_ok st -> peer_storable p -> peers_ok (putPeer now p persistent upd st).
Proof.
  intros Hst Hp k r. unfold putPeer. cbn [peers set_peers]. rewrite lookup_insert_Some. intros [[<- <-]|[_ Hr]]; [|by apply Hst].
  exists p. split; [by apply row_peer_ok|done].
Qed.

(** The rows that [getPeer(peerId, maxPeers)] chooses from. *)
Definition fresh_rows (now : Z) (id : Id) st : list (PeerKey * PeerRow) :=
  filter (fun kr => fst (fst (fst kr)) = id /\ i64 (now - Constants.MAX_PEER_AGE) <= pr_timestamp (snd kr)) (map_to_list (peers st)).

Lemma fresh_rows_elem now id st kr : kr ∈ fresh_rows now id st <->
  peers st !! kr.1 = Some kr.2 /\ kr.1.1.1 = id /\ i64 (now - Constants.MAX_PEER_AGE) <= pr_timestamp kr.2.
Proof. destruct kr as [k r]. unfold fresh_rows. rewrite list_elem_of_filter, elem_of_map_to_list. simpl. tauto. Qed.

Lemma getPeers_spec (Horder : forall l, random_order l ≡ₚ l) now id st :
  peers_ok st ->
  exists l, getPeers now id 8 st = Ok l /\ Forall (fun p => peer_storable p /\ p_publicKey p = id) l /\
    (forall p, p ∈ l -> exists kr, kr ∈ fresh_rows now id st /\ row_peer kr = Ok p) /\
    ((length (fresh_rows now id st) <= 8)%nat -> forall kr p, kr ∈ fresh_rows now id st -> row_peer kr = Ok p -> p ∈ l).
Proof.
  intros Hst. unfold getPeers. change (8 <=? 0) with false. cbn iota. fold (fresh_rows now id st).
  set (rows := take (Z.to_nat 8) (random_order (fresh_rows now id st))).
  assert (forall kr, kr ∈ rows -> kr ∈ fresh_rows now id st) as Hsub.
  { intros kr (i & Hi & _)%elem_of_take. rewrite <- Horder. by apply (list_elem_of_lookup_2 _ i). }
  assert (forall kr, kr ∈ rows -> exists p, row_peer kr = Ok p /\ peer_storable p /\ p_publicKey p = id) as Hrow.
  { intros [k r] (Hr & Hk & _)%Hsub%fresh_rows_elem. destruct (Hst k r Hr) as (p & E & Hp & <-). by exists p. }
  destruct (collect_ok (row_peer <$> rows)) as (l & E & El).
  { apply Forall_fmap, Forall_forall. intros kr Hkr. destruct (Hrow kr Hkr) as (p & Ep & _). by exists p. }
  assert (forall p, p ∈ l <-> exists kr, kr ∈ rows /\ row_peer kr = Ok p) as Hin.
  { intros p. transitivity (Ok p ∈ Ok <$> l); [|rewrite <- El, list_elem_of_fmap; naive_solver].
    rewrite list_elem_of_fmap. split; [intros Hp; by exists p|]. intros (q & [= ->] & Hq). done. }
  exists l. split; [done|]. split; [|split].
  - apply Forall_forall. intros p (kr & Hkr & Ep)%Hin. destruct (Hrow kr Hkr) as (q & Eq & Hq). by rewrite Ep in Eq; injection Eq as ->.
  - intros p (kr & Hkr & Ep)%Hin. exists kr. by split; [apply Hsub|].
  - intros Hlen kr p Hkr Ep. apply Hin. exists kr. split; [|done]. unfold rows. rewrite take_ge; [by rewrite Horder|].
    rewrite Horder. exact Hlen.
Qed.

(** ** Theorems *)

(** C15: [putValue] fails without effect, or it stores the value: it is then
    read back unchanged until it is older than MAX_VALUE_AGE, every other value
    is as before, and the result is the value that was there.  A mutable value
    that is still there is only replaced by a valid value of the same id with
    the private key if it had one, with a sequence number that is not smaller,
    and, if a sequence number was expected, only when it had that one. *)
Theorem storage_put now v expectedSeq persistent upd st :
  storable v ->
  match putValue now v expectedSeq persistent upd st with
  | (Throw _, st') => st' = st
  | (Ok old, st') =>
      getValue now (Value.getId v) st = Ok old /\ Value.isValid v = true /\
      (forall now', i64 (now' - Constants.MAX_VALUE_AGE) <= now -> getValue now' (Value.getId v) st' = Ok (Some v)) /\
      (forall now' id, id <> Value.getId v -> getValue now' id st' = getValue now' id st) /\
      (forall o, old = Some o -> Value.isMutable o = true ->
         Value.isMutable v = true /\ (Value.hasPrivateKey o = true -> Value.hasPrivateKey v = true) /\
         sequenceNumber o <= sequenceNumber v /\ (0 <= expectedSeq -> 0 <= sequenceNumber o -> sequenceNumber o = expectedSeq))
  end.
Proof.
  intros Hv. unfold putValue. destruct (Value.isMutable v && negb (Value.isValid v)) eqn:E; [done|].
  destruct (getValue now (Value.getId v) st) as [old|e] eqn:Eg; [|done]. destruct (check_replace old v expectedSeq) eqn:Ec; [done|].
  split; [done|]. split; [by apply put_storable|]. split; [intros now' Ha; by apply getValue_upsert|]. split.
  - intros now' id Hne. unfold getValue, upsert_value. simpl. by rewrite lookup_insert_ne by congruence.
  - intros o -> Hm. by apply check_replace_ok.
Qed.

(** C39: Whatever is stored, announced, removed and expired in whatever order,
    what [getValue] returns is a valid value that has the id asked for; it never
    throws. *)
Theorem storage_serves_valid st now id :
  rtc storage_step (MkStorage ∅ ∅) st ->
  getValue now id st = Ok None \/
  exists v, getValue now id st = Ok (Some v) /\ Value.getId v = id /\ Value.isValid v = true.
Proof.
  intros Hr. assert (storage_ok st) as Hst.
  { remember (MkStorage ∅ ∅) as st0 eqn:E0. assert (storage_ok st0) as H0 by (intros i r; rewrite E0; simpl; by rewrite lookup_empty).
    clear E0. induction Hr as [st|st0 st1 st2 Hs _ IH]; [done|]. apply IH. by eapply step_ok. }
  unfold getValue. destruct (valores st !! id) as [r|] eqn:Er; [|by left]. destruct (_ <=? _); [right|by left].
  destruct (Hst id r Er) as (v & -> & _ & Hid & Hval). by exists v.
Qed.

(** [expire] removes only what nobody can see any more: reads of values
    give the same results before and after it at any later time, and the peers
    that are young enough to be returned all stay; persistent rows stay too. *)
Theorem expire_invisible now now' st :
  0 <= now <= now' -> now' < 2 ^ 63 ->
  (forall id, getValue now' id (expire now st) = getValue now' id st) /\
  (forall k r, i64 (now' - Constants.MAX_PEER_AGE) <= pr_timestamp r -> (peers (expire now st) !! k = Some r <-> peers st !! k = Some r)) /\
  (forall id r, vr_persistent r = true -> (valores (expire now st) !! id = Some r <-> valores st !! id = Some r)).
Proof.
  intros Hn Hb.
  assert (forall a, 0 <= a < 2 ^ 63 -> i64 (now - a) <= i64 (now' - a)) as Hm.
  { intros a Ha. rewrite !(swrap_small 64) by (simpl; lia). lia. }
  split_and!.
  - intros id. unfold getValue, expire. simpl. specialize (Hm Constants.MAX_VALUE_AGE ltac:(cbv; done)).
    destruct (valores st !! id) as [r|] eqn:Er.
    + destruct (decide (vr_persistent r = true \/ i64 (now - Constants.MAX_VALUE_AGE) <= vr_timestamp r)) as [Hk|Hk].
      * by rewrite (map_lookup_filter_Some_2 _ _ _ _ Er Hk).
      * rewrite map_lookup_filter_None_2; [|right; intros x Hx; by simplify_eq].
        destruct (Z.leb_spec (i64 (now' - Constants.MAX_VALUE_AGE)) (vr_timestamp r)); [|done]. destruct Hk. right. lia.
    + by rewrite map_lookup_filter_None_2 by (by left).
  - intros k r Hr. specialize (Hm Constants.MAX_PEER_AGE ltac:(cbv; done)). unfold expire. simpl.
    rewrite map_lookup_filter_Some. simpl. split; [tauto|]. intros H. split; [done|right; lia].
  - intros id r Hp. unfold expire. simpl. rewrite map_lookup_filter_Some. simpl. tauto.
Qed.

(** A peer announced by another node replaces the own persistent peer with
    the same key: the row is no longer persistent and has lost its private key,
    so the node never announces it again, and its signature is the one that came
    with the announcement, whatever that is. *)
Theorem announced_peer_replaces_own now now' own remote st :
  peer_key remote = peer_key own -> p_privateKey remote = None ->
  let st' := putPeer now' remote false false (putPeer now own true true st) in
  exists r, peers st' !! peer_key own = Some r /\ pr_persistent r = false /\ pr_privateKey r = None /\
    pr_signature r = p_signature remote /\
    (forall before, peer_key own ∉ fst <$> filter (fun kr => pr_persistent (snd kr) = true /\ pr_announced (snd kr) <= i64 before) (map_to_list (peers st'))).
Proof.
  intros Hk Hsk st'. unfold st', putPeer. simpl. rewrite Hk, insert_insert_eq.
  exists (peer_row now' remote false 0). rewrite lookup_insert_eq. split_and!; [done|done|exact Hsk|done|].
  intros before ([k r] & Ek & [[Hp _] Hin]%list_elem_of_filter)%list_elem_of_fmap. simpl in Ek. subst k.
  apply elem_of_map_to_list in Hin. rewrite lookup_insert_eq in Hin. injection Hin as <-. done.
Qed.

(** [getPersistentPeers] does not read the origin: a delegated peer that is
    stored and then read for its next announcement comes back with the node as
    its origin, so it differs from the peer that was stored and signed. *)
Theorem persistent_peer_loses_origin now before p :
  peer_storable p -> PeerInfo.isDelegated p = true -> now <= i64 before ->
  exists q, getPersistentPeers before (putPeer now p true true (MkStorage ∅ ∅)) = Ok [q] /\
    p_origin q = p_nodeId p /\ p_origin q <> p_origin p /\ PeerInfo.isDelegated q = false.
Proof.
  intros Hps Hd Hb. pose proof Hps as ((Hp & Hs & _) & Hsk & _). unfold getPersistentPeers, putPeer. cbn [peers set_peers].
  rewrite insert_empty, map_to_list_singleton, filter_cons_True by done. rewrite filter_nil, list_fmap_singleton.
  unfold persistent_row_peer, peer_key, PeerInfo.PeerInfo_of. simpl.
  rewrite !id_length, Hs, !Nat.eqb_refl. cbn [negb].
  assert (negb (bool_decide (default [] (p_privateKey p) = [])) && negb (length (default [] (p_privateKey p)) =? PRIVATE_KEY_BYTES)%nat = false) as ->.
  { destruct (p_privateKey p) as [sk|]; [|done]. simpl. by rewrite (Hsk sk eq_refl), Nat.eqb_refl, andb_false_r. }
  change (bool_decide ([] = [])) with true. cbn [negb andb].
  assert (u16 (u16 (p_port p)) = p_port p) as -> by (rewrite (wrap_small 16 (p_port p)) by lia; apply (wrap_small 16); lia).
  destruct (Z.leb_spec (p_port p) 0); [lia|]. destruct (Z.ltb_spec 65535 (p_port p)); [lia|]. cbn [orb].
  rewrite (stored_url p Hps). eexists. split; [reflexivity|]. cbn [p_origin p_nodeId]. rewrite PeerInfo.mk_id_bytes.
  unfold PeerInfo.isDelegated in *. cbn [p_origin p_nodeId]. bool_to_prop. split; [done|]. split; [done|].
  by rewrite bool_decide_eq_true_2.
Qed.
End storage.
End SqliteStorage.

(** ** Witnesses *)

Section examples.
#[local] Existing Instance toy_sodium.

Definition sk0 : list Z := replicate 64 3.
Definition stored0 : Value :=
  match Value.createSignedValue sk0 (replicate 24 7) 5 [42] with Ok v => v | Throw _ => MkValue None None None None None [] 0 end.
Definition peer0 : PeerInfo :=
  match PeerInfo.PeerInfo_create sk0 zero MAX_ID 39001 [] with Ok p => p | Throw _ => MkPeer zero None zero zero 0 None [] end.

Lemma stored0_storable : SqliteStorage.storable stored0.
Proof.
  split; [split; [discriminate|]|].
  - simpl. split; [lia|]. split; eexists; (split; [reflexivity|]); vm_compute; reflexivity.
  - split; [|vm_compute; reflexivity]. intros sk [= <-]. vm_compute. reflexivity.
Qed.

Lemma storage_put_witness :
  exists st, SqliteStorage.putValue 1000000000 stored0 (-1) false false (MkStorage ∅ ∅) = (Ok None, st) /\
    SqliteStorage.getValue 1000000001 (Value.getId stored0) st = Ok (Some stored0).
Proof.
  pose proof (SqliteStorage.storage_put 1000000000 stored0 (-1) false false (MkStorage ∅ ∅) stored0_storable) as H.
  destruct (SqliteStorage.putValue 1000000000 stored0 (-1) false false (MkStorage ∅ ∅)) as [r st] eqn:E.
  assert (r = Ok None) as -> by (apply (f_equal fst) in E; vm_compute in E; symmetry; exact E).
  exists st. split; [reflexivity|]. destruct H as (_ & _ & H & _). apply H. vm_compute. discriminate.
Defined.

Definition storage1 : SqliteStorage := snd (SqliteStorage.putValue 1000000000 stored0 (-1) false false (MkStorage ∅ ∅)).

Lemma storage_serves_valid_witness :
  rtc SqliteStorage.storage_step (MkStorage ∅ ∅) storage1 /\
  exists v, SqliteStorage.getValue 1000000001 (Value.getId stored0) storage1 = Ok (Some v) /\ Value.isValid v = true.
Proof.
  assert (rtc SqliteStorage.storage_step (MkStorage ∅ ∅) storage1) as Hr
    by (apply rtc_once, SqliteStorage.step_putValue, stored0_storable).
  split; [exact Hr|].
  destruct (SqliteStorage.storage_serves_valid storage1 1000000001 (Value.getId stored0) Hr) as [H|(v & H1 & _ & H2)].
  - vm_compute in H. discriminate H.
  - exists v. split; [exact H1|exact H2].
Defined.

Lemma expire_invisible_witness :
  SqliteStorage.getValue 1000000002 (Value.getId stored0) (SqliteStorage.expire 1000000001 storage1) =
  SqliteStorage.getValue 1000000002 (Value.getId stored0) storage1.
Proof. apply (SqliteStorage.expire_invisible 1000000001 1000000002 storage1); [lia|vm_compute; reflexivity]. Defined.

(** The own peer, and an announcement of it with a made-up signature. *)
Definition forged0 : PeerInfo := MkPeer (p_publicKey peer0) None zero MAX_ID 1 None (replicate 64 0).

Lemma announced_peer_replaces_own_witness :
  PeerInfo.isValid forged0 = false /\
  exists r, peers (SqliteStorage.putPeer 2 forged0 false false (SqliteStorage.putPeer 1 peer0 true true (MkStorage ∅ ∅)))
    !! SqliteStorage.peer_key peer0 = Some r /\ pr_persistent r = false /\ pr_privateKey r = None.
Proof.
  split; [vm_compute; reflexivity|].
  destruct (SqliteStorage.announced_peer_replaces_own 1 2 peer0 forged0 (MkStorage ∅ ∅)) as (r & H1 & H2 & H3 & _);
    [reflexivity|reflexivity|]. exists r. split; [exact H1|]. split; [exact H2|exact H3].
Defined.

Lemma persistent_peer_loses_origin_witness :
  exists q, SqliteStorage.getPersistentPeers 5 (SqliteStorage.putPeer 1 peer0 true true (MkStorage ∅ ∅)) = Ok [q] /\
    p_origin q <> p_origin peer0.
Proof.
  destruct (SqliteStorage.persistent_peer_loses_origin 1 5 peer0) as (q & H1 & _ & H2 & _).
  - split; [split; [vm_compute; split; reflexivity|]; split; [vm_compute; reflexivity|]; intros u; vm_compute; discriminate|].
    split; [intros sk [= <-]; vm_compute; reflexivity|]. split; [|intros u; vm_compute; discriminate].
    apply (bool_decide_unpack (Forall is_byte (p_signature peer0))). vm_compute. exact I.
  - vm_compute. reflexivity.
  - vm_compute. discriminate.
  - exists q. split; [exact H1|exact H2].
Defined.
End examples.
