(* ===== verification/Persistence.v ===== *)
(** * What outlives the process: the schema of the database of [src/core/sqlite_storage.cc]
    ([init], [open], [getUserVersion], [getAllPeers]) and the files of the constructor
    of [Node] ([checkPersistence], [loadKey], [initKey], [writeIdFile] of
    [src/core/node.cc])

    SQLite is the interface [SqliteDdl]: a statement is executed or fails, and every
    statement is committed by itself, so that what was executed before a failure stays.
    The laws are the documented behaviour of the statements that [init] uses.

    The file system is a map of paths; whether a directory can be made and a file be
    opened for writing is the interface [Host]. *)

From Stdlib Require Import String.
From stdpp Require Import strings.
From S2P Require Import Prelude Constants Ids Addresses Entries Values Texts Crypto Json Configurations Storage.

#[local] Open Scope Z_scope.
#[local] Open Scope carrier_scope.

(** ** The schema *)

Inductive SchemaObject := Table (columns : list string) | Index (table : string) (columns : list string).

Record Database := MkDatabase { user_version : Z; db_schema : gmap string SchemaObject }.

Inductive Ddl :=
  | Drop_index (name : string)                                  (* IF EXISTS *)
  | Drop_table (name : string)
  | Create_table (name : string) (columns : list string)        (* IF NOT EXISTS *)
  | Create_index (name table : string) (columns : list string)
  | Set_user_version (n : Z).

Definition index_of (table : string) (o : SchemaObject) : bool :=
  match o with Index t _ => String.eqb t table | Table _ => false end.

Definition set_schema (m : gmap string SchemaObject) (db : Database) : Database := MkDatabase (user_version db) m.

Class SqliteDdl := {
  sqlite_exec : Ddl -> Database -> option Database;             (* [None]: an error code *)
  exec_drop_index n db : sqlite_exec (Drop_index n) db =
    Some (match db_schema db !! n with Some (Index _ _) => set_schema (delete n (db_schema db)) db | _ => db end);
  exec_drop_table n db : sqlite_exec (Drop_table n) db =
    Some (match db_schema db !! n with
          | Some (Table _) => set_schema (filter (fun ko => index_of n ko.2 = false) (delete n (db_schema db))) db
          | _ => db
          end);
  exec_create_table n cols db : sqlite_exec (Create_table n cols) db =
    match db_schema db !! n with
    | None => Some (set_schema (<[n := Table cols]> (db_schema db)) db)
    | Some (Table _) => Some db
    | Some (Index _ _) => None
    end;
  exec_create_index n t cols old db : db_schema db !! t = Some (Table old) -> sqlite_exec (Create_index n t cols) db =
    match db_schema db !! n with
    | None => if bool_decide (cols ⊆ old) then Some (set_schema (<[n := Index t cols]> (db_schema db)) db) else None
    | Some (Index _ _) => Some db
    | Some (Table _) => None
    end;
  exec_set_user_version v db : sqlite_exec (Set_user_version v) db = Some (MkDatabase v (db_schema db))
}.

Module Schema.

Definition VERSION : Z := 4.
Definition values_columns : list string :=
  ["id"; "persistent"; "publicKey"; "privateKey"; "recipient"; "nonce"; "signature"; "sequenceNumber"; "data"; "timestamp"; "announced"]%string.
Definition peers_columns : list string :=
  ["id"; "nodeId"; "origin"; "persistent"; "privateKey"; "port"; "alternativeURL"; "signature"; "timestamp"; "announced"]%string.

Definition CREATE_VALUES_TABLE : Ddl := Create_table "valores" values_columns.
Definition CREATE_VALUES_INDEX : Ddl := Create_index "idx_valores_timpstamp" "valores" ["timestamp"%string].
Definition CREATE_PEERS_TABLE : Ddl := Create_table "peers" peers_columns.
Definition CREATE_PEERS_INDEX : Ddl := Create_index "idx_peers_timpstamp" "peers" ["timestamp"%string].
Definition CREATE_PEERS_ID_INDEX : Ddl := Create_index "idx_peers_id" "peers" ["id"%string].

(** What [init] drops when the version is old.  The last statement names a table. *)
Definition old_objects : list Ddl :=
  [Drop_index "idx_valores_timpstamp"; Drop_table "valores"; Drop_index "idx_peers_timpstamp"; Drop_index "idx_peers_id"; Drop_index "peers"].
Definition new_objects : list Ddl :=
  [Set_user_version VERSION; CREATE_VALUES_TABLE; CREATE_VALUES_INDEX; CREATE_PEERS_TABLE; CREATE_PEERS_INDEX; CREATE_PEERS_ID_INDEX].

Section schema.
Context {sqlite : SqliteDdl}.

(** A chain of [sqlite3_exec(...) != 0 || ...]: it ends with the first failure. *)
Fixpoint exec_all (l : list Ddl) : SM Database unit :=
  match l with
  | [] => sm_ret ()
  | d :: l => fun db => match sqlite_exec d db with Some db => exec_all l db | None => (Throw Runtime_error, db) end
  end.

Definition getUserVersion (db : Database) : Z := user_version db.

(** [init], behind the opening of the file and without the scheduled [expire]. *)
Definition init : SM Database unit := fun db =>
  ((if getUserVersion db <? 4 then exec_all old_objects else sm_ret ());~ exec_all new_objects) db.

(** [open]: [None] is a file that SQLite cannot open. *)
Definition open (file : option Database) : result unit * option Database :=
  match file with
  | None => (Throw Runtime_error, None)
  | Some db => let '(r, db) := init db in (r, Some db)
  end.

(** ** Theorems *)

(** The schema that the statements of the storage are written for. *)
Definition current : gmap string SchemaObject :=
  {[ "valores"%string := Table values_columns; "idx_valores_timpstamp"%string := Index "valores" ["timestamp"%string];
     "peers"%string := Table peers_columns; "idx_peers_timpstamp"%string := Index "peers" ["timestamp"%string];
     "idx_peers_id"%string := Index "peers" ["id"%string] ]}.

Lemma exec_all_cons d l db db' : sqlite_exec d db = Some db' -> exec_all (d :: l) db = exec_all l db'.
Proof. intros E. cbn. by rewrite E. Qed.
Lemma exec_all_fails d l db : sqlite_exec d db = None -> exec_all (d :: l) db = (Throw Runtime_error, db).
Proof. intros E. cbn. by rewrite E. Qed.

(** The objects with these names are not tables. *)
Definition no_table (n : string) (db : Database) : Prop := match db_schema db !! n with Some (Table _) => False | _ => True end.
Definition no_index (n : string) (db : Database) : Prop := match db_schema db !! n with Some (Index _ _) => False | _ => True end.

(** What a statement leaves of the other names. *)
Lemma drop_index_spec n db : no_table n db ->
  exists db', sqlite_exec (Drop_index n) db = Some db' /\ user_version db' = user_version db /\ db_schema db' !! n = None /\
    forall m, m <> n -> db_schema db' !! m = db_schema db !! m.
Proof.
  intros H. rewrite exec_drop_index. unfold no_table in H. eexists. split; [done|].
  destruct (db_schema db !! n) as [[|]|] eqn:E; [done| |done]. cbn. split; [done|]. split; [by rewrite lookup_delete_eq|].
  intros m Hm. by rewrite lookup_delete_ne.
Qed.

(** A name that is not an index of the table, or is nothing, stays as it is. *)
Definition free_of (n : string) (o : option SchemaObject) : Prop := match o with Some x => index_of n x = false | None => True end.

Lemma drop_table_spec n db : no_index n db ->
  exists db', sqlite_exec (Drop_table n) db = Some db' /\ user_version db' = user_version db /\ db_schema db' !! n = None /\
    forall m, m <> n -> free_of n (db_schema db !! m) -> db_schema db' !! m = db_schema db !! m.
Proof.
  intros H. rewrite exec_drop_table. unfold no_index in H. eexists. split; [done|].
  destruct (db_schema db !! n) as [[|]|] eqn:E; [|done|done]. cbn. split; [done|]. split.
  - apply map_lookup_filter_None_2. left. by rewrite lookup_delete_eq.
  - intros m Hm Hf. rewrite map_lookup_filter, lookup_delete_ne by done. destruct (db_schema db !! m) as [o|] eqn:Eo; [|done]. cbn in Hf.
    cbn. by rewrite option_guard_True.
Qed.

Lemma drop_peers_index db old : db_schema db !! "peers"%string = Some (Table old) -> sqlite_exec (Drop_index "peers") db = Some db.
Proof. intros E. by rewrite exec_drop_index, E. Qed.

(** A database of an older version with a table of peers of its own. *)
Record old_database (old : list string) (db : Database) : Prop := {
  od_version : user_version db < 4;
  od_peers : db_schema db !! "peers"%string = Some (Table old);
  od_values : no_index "valores" db;
  od_index1 : no_table "idx_valores_timpstamp" db;
  od_index2 : no_table "idx_peers_timpstamp" db;
  od_index3 : no_table "idx_peers_id" db
}.

(** The statements that drop: the values are gone, and the table of peers is still there. *)
Lemma drops_spec old db : old_database old db ->
  exists db', exec_all old_objects db = (Ok (), db') /\ db_schema db' !! "valores"%string = None /\ db_schema db' !! "idx_valores_timpstamp"%string = None /\
    db_schema db' !! "idx_peers_timpstamp"%string = None /\ db_schema db' !! "idx_peers_id"%string = None /\
    db_schema db' !! "peers"%string = Some (Table old).
Proof.
  intros [_ Hp Hv H1 H2 H3].
  destruct (drop_index_spec "idx_valores_timpstamp" db H1) as (d1 & E1 & _ & N1 & K1).
  destruct (drop_table_spec "valores" d1) as (d2 & E2 & _ & N2 & K2); [unfold no_index; by rewrite K1|].
  assert (forall m, m <> "valores"%string -> m <> "idx_valores_timpstamp"%string -> no_table m db -> no_table m d2) as Kt.
  { intros m Hm1 Hm2 Hn. unfold no_table in *. destruct (db_schema d2 !! m) as [[c|]|] eqn:E; [|done|done]. revert E Hn.
    rewrite exec_drop_table in E2. injection E2 as <-. rewrite <-(K1 m) by done. destruct (db_schema d1 !! "valores"%string) as [[|]|]; cbn.
    + rewrite map_lookup_filter_Some, lookup_delete_ne by done. by intros [-> _].
    + by intros ->.
    + by intros ->. }
  destruct (drop_index_spec "idx_peers_timpstamp" d2) as (d3 & E3 & _ & N3 & K3); [by apply Kt|].
  destruct (drop_index_spec "idx_peers_id" d3) as (d4 & E4 & _ & N4 & K4); [unfold no_table; rewrite K3 by done; by apply Kt|].
  assert (db_schema d2 !! "peers"%string = Some (Table old)) as P2 by (rewrite K2, K1; [done|done|done|by rewrite K1, Hp]).
  assert (db_schema d4 !! "peers"%string = Some (Table old)) as P4 by (by rewrite K4, K3).
  exists d4. unfold old_objects. rewrite (exec_all_cons _ _ _ _ E1), (exec_all_cons _ _ _ _ E2), (exec_all_cons _ _ _ _ E3), (exec_all_cons _ _ _ _ E4),
    (exec_all_cons _ _ _ _ (drop_peers_index _ _ P4)).
  split; [done|]. split_and!; [by rewrite K4, K3|..|done|done].
  - rewrite K4, K3 by done. rewrite K2, N1; [done|done|by rewrite N1].
  - by rewrite K4.
Qed.

Ltac ddl_names := cbv [CREATE_VALUES_TABLE CREATE_VALUES_INDEX CREATE_PEERS_TABLE CREATE_PEERS_INDEX CREATE_PEERS_ID_INDEX].
(** The statement of a chain in front, by its law. *)
Ltac ddl_law :=
  ddl_names;
  first [rewrite exec_drop_index | rewrite exec_drop_table | rewrite exec_create_table | rewrite exec_set_user_version
        | erewrite exec_create_index by (vm_compute; reflexivity)].
Ltac run_ddl := repeat (erewrite exec_all_cons by (ddl_law; vm_compute; reflexivity)).

(** Opening a new database gives the tables and indexes that the storage uses, and
    opening such a database again, of this version or a later one, changes nothing but the
    version. *)
Theorem schema_created v :
  init (MkDatabase v ∅) = (Ok (), MkDatabase VERSION current) /\
  (4 <= v -> init (MkDatabase v current) = (Ok (), MkDatabase VERSION current)).
Proof.
  assert (exec_all new_objects (MkDatabase 0 ∅) = (Ok (), MkDatabase VERSION current)) as Hn by (unfold new_objects; run_ddl; reflexivity).
  assert (forall v, exec_all new_objects (MkDatabase v ∅) = (Ok (), MkDatabase VERSION current)) as Hv.
  { intros w. rewrite <-Hn. unfold new_objects. by rewrite !(exec_all_cons _ _ _ _ (exec_set_user_version _ _)). }
  split.
  - unfold init, sm_bind, getUserVersion. cbn [user_version]. destruct (v <? 4); [|apply Hv].
    unfold old_objects. erewrite !exec_all_cons by (rewrite ?exec_drop_index, ?exec_drop_table; cbn; rewrite ?lookup_empty; reflexivity). apply Hv.
  - intros H. unfold init, sm_bind, getUserVersion. cbn [user_version]. rewrite (proj2 (Z.ltb_ge v 4)) by done. unfold sm_ret.
    unfold new_objects. rewrite (exec_all_cons _ _ _ _ (exec_set_user_version _ _)). run_ddl. reflexivity.
Qed.

(** What the new objects make of a database whose values were dropped. *)
Lemma new_objects_spec old db :
  db_schema db !! "valores"%string = None -> db_schema db !! "idx_valores_timpstamp"%string = None ->
  db_schema db !! "idx_peers_timpstamp"%string = None -> db_schema db !! "idx_peers_id"%string = None ->
  db_schema db !! "peers"%string = Some (Table old) ->
  exists db', exec_all new_objects db = exec_all [CREATE_PEERS_INDEX; CREATE_PEERS_ID_INDEX] db' /\ user_version db' = VERSION /\
    db_schema db' !! "valores"%string = Some (Table values_columns) /\ db_schema db' !! "peers"%string = Some (Table old) /\
    db_schema db' !! "idx_valores_timpstamp"%string = Some (Index "valores" ["timestamp"%string]) /\
    db_schema db' !! "idx_peers_timpstamp"%string = None /\ db_schema db' !! "idx_peers_id"%string = None.
Proof.
  intros H1 H2 H3 H4 H5. eexists. unfold new_objects. rewrite (exec_all_cons _ _ _ _ (exec_set_user_version _ _)).
  erewrite exec_all_cons by (ddl_names; rewrite exec_create_table; cbn; rewrite H1; reflexivity).
  erewrite exec_all_cons by (ddl_names; erewrite exec_create_index by (cbn; apply lookup_insert_eq); cbn; rewrite lookup_insert_ne, H2 by done;
    rewrite bool_decide_true by (unfold values_columns; set_solver); reflexivity).
  erewrite exec_all_cons by (ddl_names; rewrite exec_create_table; cbn; rewrite !lookup_insert_ne, H5 by done; reflexivity).
  split; [done|]. cbn. split_and!; try done; rewrite ?lookup_insert_eq, ?lookup_insert_ne, ?lookup_insert_eq by done; done.
Qed.

(** C24: Opening a database of an older version drops the values but not the peers: the
    statement for the peers drops an index of that name, so that the old table stays with
    its old columns and the database is taken for a current one. *)
Theorem upgrade_keeps_peers_table old db :
  old_database old db -> ["timestamp"; "id"]%string ⊆ old ->
  exists db', init db = (Ok (), db') /\ user_version db' = VERSION /\ db_schema db' !! "valores"%string = Some (Table values_columns) /\
    db_schema db' !! "peers"%string = Some (Table old).
Proof.
  intros Ho Hc. destruct (drops_spec old db Ho) as (d1 & E1 & N1 & N2 & N3 & N4 & P).
  destruct (new_objects_spec old d1 N1 N2 N3 N4 P) as (d2 & E2 & V & Q1 & Q2 & Q3 & Q4 & Q5).
  unfold init, sm_bind, getUserVersion. rewrite (proj2 (Z.ltb_lt _ _) (od_version _ _ Ho)), E1, E2. eexists.
  rewrite (exec_all_cons CREATE_PEERS_INDEX _ d2 (set_schema (<["idx_peers_timpstamp"%string := Index "peers" ["timestamp"%string]]> (db_schema d2)) d2)).
  2: { unfold CREATE_PEERS_INDEX. erewrite exec_create_index by exact Q2. rewrite Q4, bool_decide_true by set_solver. done. }
  erewrite exec_all_cons.
  2: { unfold CREATE_PEERS_ID_INDEX. erewrite exec_create_index by (cbn; rewrite lookup_insert_ne by done; exact Q2). cbn.
       rewrite lookup_insert_ne, Q5 by done. rewrite bool_decide_true by set_solver. reflexivity. }
  split; [reflexivity|]. cbn. split; [done|]. by rewrite !lookup_insert_ne by done.
Qed.

(** When the old table of peers has no time, opening fails with the version already
    set, and so does every later attempt: the database cannot be opened any more. *)
Theorem upgrade_stuck old db :
  old_database old db -> "timestamp"%string ∉ old ->
  exists db', init db = (Throw Runtime_error, db') /\ user_version db' = VERSION /\ init db' = (Throw Runtime_error, db').
Proof.
  intros Ho Hc. destruct (drops_spec old db Ho) as (d1 & E1 & N1 & N2 & N3 & N4 & P).
  destruct (new_objects_spec old d1 N1 N2 N3 N4 P) as (d2 & E2 & V & Q1 & Q2 & Q3 & Q4 & Q5).
  assert (sqlite_exec CREATE_PEERS_INDEX d2 = None) as F.
  { unfold CREATE_PEERS_INDEX. erewrite exec_create_index by exact Q2. rewrite Q4, bool_decide_false; [done|set_solver]. }
  exists d2. split_and!; [|done|].
  - unfold init, sm_bind, getUserVersion. rewrite (proj2 (Z.ltb_lt _ _) (od_version _ _ Ho)), E1, E2. by apply exec_all_fails.
  - unfold init, sm_bind, getUserVersion. rewrite V. cbn -[exec_all]. unfold new_objects.
    rewrite (exec_all_cons _ _ _ _ (exec_set_user_version _ _)). destruct d2 as [v2 m2]. cbn in V. subst v2. cbn [db_schema] in *.
    erewrite exec_all_cons by (ddl_names; rewrite exec_create_table; cbn; rewrite Q1; reflexivity).
    erewrite exec_all_cons by (ddl_names; erewrite exec_create_index by exact Q1; cbn; rewrite Q3; reflexivity).
    erewrite exec_all_cons by (ddl_names; rewrite exec_create_table; cbn; rewrite Q2; reflexivity).
    by apply exec_all_fails.
Qed.
End schema.
End Schema.

(** The distinct ids of the peers, in order. *)
Definition getAllPeers (now : Z) (st : SqliteStorage) : list Id :=
  sort_by id_ltb (remove_dups ((fun kr => fst (fst (fst kr))) <$>
    List.filter (fun kr => i64 (now - Constants.MAX_PEER_AGE) <=? pr_timestamp (snd kr)) (map_to_list (peers st)))).

(** Each id of a peer that has not expired, once. *)
Lemma getAllPeers_spec now st id :
  NoDup (getAllPeers now st) /\
  (id ∈ getAllPeers now st <->
     exists nodeId origin r, peers st !! (id, nodeId, origin) = Some r /\ i64 (now - Constants.MAX_PEER_AGE) <= pr_timestamp r).
Proof.
  unfold getAllPeers. rewrite sort_by_perm. split; [apply NoDup_remove_dups|].
  rewrite elem_of_remove_dups, list_elem_of_fmap. split.
  - intros ([[[i n] o] r] & -> & H). apply list_elem_of_In, filter_In in H as [H1 H2%Z.leb_le]. apply list_elem_of_In, elem_of_map_to_list in H1.
    by exists n, o, r.
  - intros (n & o & r & H1 & H2). exists ((id, n, o), r). split; [done|]. apply list_elem_of_In, filter_In.
    split; [by apply list_elem_of_In, elem_of_map_to_list|by apply Z.leb_le].
Qed.

(** ** The files of a node *)

Inductive FsNode := Fs_dir | Fs_file (data : list Z) | Fs_denied.

#[local] Abbreviation FS := (gmap (list Z) FsNode).

Class Host := {
  create_directories : list Z -> FS -> result bool;
  can_write : list Z -> bool
}.

Module NodeFiles.

Definition PATH_SEP : list Z := [47].
Definition PATH_CWD : list Z := [46].

Section files.
Context {sodium : Sodium} {sodiumBox : SodiumBox} {host : Host}.

#[local] Abbreviation M := (SM FS).

Definition checkPersistence (path : list Z) : M bool := fun fs =>
  if bool_decide (path = []) then (Ok false, fs)
  else if bool_decide (path = PATH_CWD) then (Ok true, fs)
  else match fs !! path with
       | Some Fs_denied => (Ok false, fs)
       | None =>
           match create_directories path fs with
           | Throw e => (Throw e, fs)
           | Ok false => (Ok false, fs)
           | Ok true => (Ok true, <[path := Fs_dir]> fs)
           end
       | Some (Fs_file _) => (Ok false, fs)
       | Some Fs_dir => (Ok true, fs)
       end.

(** A file that is opened for writing and written: whether it could be opened. *)
Definition write_file (path data : list Z) : M bool := fun fs =>
  match fs !! path with
  | Some Fs_dir | Some Fs_denied => (Ok false, fs)
  | _ => if can_write path then (Ok true, <[path := Fs_file data]> fs) else (Ok false, fs)
  end.

Definition loadKey (keyPath : list Z) : M KeyPair := fun fs =>
  match fs !! keyPath with
  | Some (Fs_file keystr) => if bool_decide (keystr = []) then (Throw Runtime_error, fs) else (Signature.KeyPair_blob keystr, fs)
  | _ => (Throw Runtime_error, fs)
  end.

(** [random]: the new key pair. *)
Definition initKey (keyPath : list Z) (random : KeyPair) : M KeyPair :=
  opened <~ write_file keyPath (kp_sk random);
  if opened : bool then sm_ret random else sm_lift (Throw Runtime_error).

Definition writeIdFile (idPath : list Z) (id : Id) : M unit :=
  if bool_decide (idPath = []) then sm_lift (Throw Invalid_argument)
  else match IdText.toString id with
       | None => sm_lift (Throw Undefined_behaviour)
       | Some idstr => opened <~ write_file idPath idstr; if opened : bool then sm_ret () else sm_lift (Throw Runtime_error)
       end.

Definition key_path (storagePath : list Z) : list Z := storagePath ++ PATH_SEP ++ chars "key".
Definition id_path (storagePath : list Z) : list Z := storagePath ++ PATH_SEP ++ chars "id".

(** The keys that the constructor takes: [member] are those that the member is made with. *)
Definition node_key (storagePath : list Z) (persistent : bool) (member random : KeyPair) : M KeyPair := fun fs =>
  if persistent then
    match fs !! key_path storagePath with
    | None | Some Fs_denied => initKey (key_path storagePath) random fs
    | Some Fs_dir => (Ok member, fs)
    | Some (Fs_file _) => loadKey (key_path storagePath) fs
    end
  else (Ok member, fs).

(** The constructor of [Node]. *)
Definition Node_new (config : DefaultConfiguration) (member random : KeyPair) : M (Id * NodeKeys) :=
  if sa_empty (cf_addr4 config) && sa_empty (cf_addr6 config) then sm_lift (Throw Invalid_argument)
  else
    let storagePath := if bool_decide (cf_storagePath config = []) then PATH_CWD else cf_storagePath config in
    persistent <~ checkPersistence storagePath;
    keyPair <~ node_key storagePath persistent member random;
    id <~ sm_lift (Id_of_blob (kp_pk keyPair));
    (if persistent : bool then writeIdFile (id_path storagePath) id else sm_ret ());~
    sm_lift (NodeCrypto.NodeKeys_new keyPair).

Definition getPort (config : DefaultConfiguration) : Z :=
  let port := Configuration.listeningPort config in
  if (port <=? 0) || (65535 <? port) then Constants.DEFAULT_DHT_PORT else port.

(** ** Theorems *)

(** A pair that libsodium makes. *)
Definition generated (kp : KeyPair) : Prop := length (kp_sk kp) = PRIVATE_KEY_BYTES /\ kp_pk kp = sk_to_pk (kp_sk kp).

Lemma paths_differ p : key_path p <> id_path p.
Proof. unfold key_path, id_path. intros H%app_inv_head. done. Qed.

Lemma key_path_in p : p <> key_path p /\ p <> id_path p.
Proof. split; intros H; apply (f_equal length) in H; revert H; unfold key_path, id_path; rewrite length_app; cbn; lia. Qed.

(** A path that is there stays as it is. *)
Lemma checkPersistence_again p fs fs' : checkPersistence p fs = (Ok true, fs') ->
  (forall q, q <> p -> fs' !! q = fs !! q) /\ (forall fs2, fs2 !! p = fs' !! p -> checkPersistence p fs2 = (Ok true, fs2)).
Proof.
  unfold checkPersistence. case_bool_decide; [done|]. case_bool_decide; [by intros [= <-]|].
  destruct (fs !! p) as [[| |]|] eqn:E; try done.
  - intros [= <-]. split; [done|]. intros fs2 ->. by rewrite E.
  - destruct (create_directories p fs) as [[|]|] eqn:Ec; try done. intros [= <-]. split; [intros q Hq; by rewrite lookup_insert_ne|].
    intros fs2 ->. by rewrite lookup_insert_eq.
Qed.

Lemma write_file_spec path data fs fs' : write_file path data fs = (Ok true, fs') ->
  fs' = <[path := Fs_file data]> fs /\ forall fs2, fs2 !! path = Some (Fs_file data) -> write_file path data fs2 = (Ok true, fs2).
Proof.
  unfold write_file. intros E. assert (can_write path = true /\ fs' = <[path := Fs_file data]> fs) as [Hc ->].
  { destruct (fs !! path) as [[| |]|]; try done; destruct (can_write path); by simplify_eq. }
  split; [done|]. intros fs2 H2. rewrite H2, Hc. by rewrite insert_id.
Qed.

Lemma writeIdFile_spec path id fs fs' : writeIdFile path id fs = (Ok (), fs') ->
  exists data, fs' = <[path := Fs_file data]> fs /\ forall fs2, fs2 !! path = Some (Fs_file data) -> writeIdFile path id fs2 = (Ok (), fs2).
Proof.
  unfold writeIdFile. case_bool_decide; [done|]. destruct (IdText.toString id) as [t|]; [|done]. unfold sm_bind. intros E.
  destruct (write_file path t fs) as [[[|]|] fs1] eqn:Ew; try done. injection E as <-.
  destruct (write_file_spec _ _ _ _ Ew) as [-> Hw]. exists t. split; [done|]. intros fs2 H2. by rewrite (Hw fs2 H2).
Qed.

(** The key that was taken can be taken again. *)
Lemma node_key_again p member random fs kp fs' :
  generated random -> fs !! key_path p <> Some Fs_dir -> node_key p true member random fs = (Ok kp, fs') ->
  (forall q, q <> key_path p -> fs' !! q = fs !! q) /\
  (forall fs2 member2 random2, fs2 !! key_path p = fs' !! key_path p -> node_key p true member2 random2 fs2 = (Ok kp, fs2)) /\
  is_Some (fs' !! key_path p).
Proof.
  intros [Hl Hpk] Hd. unfold node_key. assert (forall keystr, keystr <> [] -> Signature.KeyPair_blob keystr = Ok kp -> forall fs2 member2 random2,
    fs2 !! key_path p = Some (Fs_file keystr) -> node_key p true member2 random2 fs2 = (Ok kp, fs2)) as Hload.
  { intros keystr Hk E fs2 m2 r2 H2. unfold node_key, loadKey. rewrite H2. by rewrite bool_decide_false, E. }
  assert (initKey (key_path p) random fs = (Ok kp, fs') -> (forall q, q <> key_path p -> fs' !! q = fs !! q) /\
    (forall fs2 member2 random2, fs2 !! key_path p = fs' !! key_path p -> node_key p true member2 random2 fs2 = (Ok kp, fs2)) /\
    is_Some (fs' !! key_path p)) as Hinit.
  { unfold initKey, sm_bind. destruct (write_file _ _ fs) as [[[|]|] fs1] eqn:Ew; try done. intros [= <- <-].
    destruct (write_file_spec _ _ _ _ Ew) as [-> _]. split; [intros q Hq; by rewrite lookup_insert_ne|].
    split; [|by rewrite lookup_insert_eq]. intros fs2 m2 r2. rewrite lookup_insert_eq. apply Hload.
    - intros E. by rewrite E in Hl.
    - unfold Signature.KeyPair_blob. rewrite Hl. cbn. rewrite <-Hpk. by destruct random. }
  destruct (fs !! key_path p) as [[|keystr|]|] eqn:E; [done| |exact Hinit|exact Hinit]. unfold loadKey. rewrite E. case_bool_decide as Hk; [done|].
  intros [= Ek <-]. split; [done|]. split; [|by rewrite E]. intros fs2 m2 r2. rewrite E. by apply Hload.
Qed.

(** C17: A node that could keep its files has the same identity whenever it is started
    again in the same directory: the key file that the first start wrote, or found, gives
    the same id and keys, and the files do not change any more. *)
Theorem identity_persists config member random fs id n fs' member2 random2 :
  generated random ->
  let p := if bool_decide (cf_storagePath config = []) then PATH_CWD else cf_storagePath config in
  fst (checkPersistence p fs) = Ok true -> fs !! key_path p <> Some Fs_dir ->
  Node_new config member random fs = (Ok (id, n), fs') ->
  Node_new config member2 random2 fs' = (Ok (id, n), fs') /\ is_Some (fs' !! key_path p) /\ is_Some (fs' !! id_path p).
Proof.
  intros Hr p Hc Hd. unfold Node_new. destruct (_ && _); [done|]. fold p. unfold sm_bind, sm_lift.
  destruct (checkPersistence p fs) as [[b|] fs1] eqn:E1; [|done]. cbn in Hc. injection Hc as ->.
  destruct (checkPersistence_again p fs fs1 E1) as [K1 A1]. destruct (key_path_in p) as [Hpk Hpi]. pose proof (paths_differ p) as Hki.
  destruct (node_key p true member random fs1) as [[kp|] fs2] eqn:E2; [|done].
  destruct (node_key_again p member random fs1 kp fs2 Hr) as (K2 & A2 & S2); [by rewrite K1 by congruence|done|].
  destruct (Id_of_blob (kp_pk kp)) as [i|] eqn:Ei; [|done].
  destruct (writeIdFile (id_path p) i fs2) as [[[]|] fs3] eqn:E3; [|done].
  destruct (writeIdFile_spec _ _ _ _ E3) as (data & -> & A3). intros [= Ek <-].
  rewrite A1 by (rewrite lookup_insert_ne, K2 by congruence; done).
  rewrite A2 by (by rewrite lookup_insert_ne by congruence). rewrite Ei, A3 by apply lookup_insert_eq. split; [by rewrite Ek|].
  split; [|by rewrite lookup_insert_eq]. rewrite lookup_insert_ne by congruence.
  exact S2.
Qed.
End files.
End NodeFiles.

(** ** Witnesses *)

Section examples.
#[local] Existing Instance toy_sodium.
#[local] Existing Instance toy_box.

(** A stand-in for SQLite with the laws of the interface. *)
Definition toy_exec (d : Ddl) (db : Database) : option Database :=
  match d with
  | Drop_index n => Some (match db_schema db !! n with Some (Index _ _) => set_schema (delete n (db_schema db)) db | _ => db end)
  | Drop_table n => Some (match db_schema db !! n with
                          | Some (Table _) => set_schema (filter (fun ko => index_of n ko.2 = false) (delete n (db_schema db))) db
                          | _ => db
                          end)
  | Create_table n cols => match db_schema db !! n with
                           | None => Some (set_schema (<[n := Table cols]> (db_schema db)) db)
                           | Some (Table _) => Some db
                           | Some (Index _ _) => None
                           end
  | Create_index n t cols =>
      match db_schema db !! t with
      | Some (Table old) =>
          match db_schema db !! n with
          | None => if bool_decide (cols ⊆ old) then Some (set_schema (<[n := Index t cols]> (db_schema db)) db) else None
          | Some (Index _ _) => Some db
          | Some (Table _) => None
          end
      | _ => None
      end
  | Set_user_version v => Some (MkDatabase v (db_schema db))
  end.

#[local, refine] Instance toy_sqlite : SqliteDdl := { sqlite_exec := toy_exec }.
Proof. all: try done. intros n t cols old db H. simpl. by rewrite H. Defined.

Definition old_db (cols : list string) : Database := MkDatabase 3 {[ "peers"%string := Table cols ]}.

Lemma old_db_ok cols : Schema.old_database cols (old_db cols).
Proof. split; done. Qed.

Lemma schema_created_witness : Schema.init (MkDatabase 4 Schema.current) = (Ok (), MkDatabase 4 Schema.current).
Proof. refine (proj2 (Schema.schema_created 4) _). lia. Defined.

Lemma upgrade_keeps_peers_table_witness :
  exists db', Schema.init (old_db ["id"; "timestamp"]%string) = (Ok (), db') /\ user_version db' = 4 /\
    db_schema db' !! "peers"%string = Some (Table ["id"; "timestamp"]%string).
Proof.
  destruct (Schema.upgrade_keeps_peers_table ["id"; "timestamp"]%string _ (old_db_ok _)) as (db' & E & V & _ & P); [set_solver|].
  exists db'. split; [exact E|]. split; [exact V|exact P].
Defined.

Lemma upgrade_stuck_witness :
  exists db', Schema.init (old_db ["id"%string]) = (Throw Runtime_error, db') /\ Schema.init db' = (Throw Runtime_error, db').
Proof.
  destruct (Schema.upgrade_stuck ["id"%string] _ (old_db_ok _)) as (db' & E & _ & F); [set_solver|]. exists db'. split; [exact E|exact F].
Defined.

#[local] Instance toy_host : Host := { create_directories _ _ := Ok true; can_write _ := true }.

Definition config0 : DefaultConfiguration := MkConfiguration (SA_in 39001 [8; 8; 4; 4]) SA_unspec (chars "data") [] ∅.
Definition key_pair0 : KeyPair := MkKeyPair (replicate 64 9) (sk_to_pk (replicate 64 9)).

Lemma identity_persists_witness :
  exists id n fs, NodeFiles.Node_new config0 key_pair0 key_pair0 ∅ = (Ok (id, n), fs) /\
    NodeFiles.Node_new config0 (MkKeyPair [] []) (MkKeyPair [] []) fs = (Ok (id, n), fs).
Proof.
  destruct (NodeFiles.Node_new config0 key_pair0 key_pair0 ∅) as [[[id n]|e] fs] eqn:E; [|by vm_compute in E].
  exists id, n, fs. split; [reflexivity|].
  refine (proj1 (NodeFiles.identity_persists config0 key_pair0 key_pair0 ∅ id n fs _ _ _ _ _ E)); [by split|reflexivity|].
  vm_compute. discriminate.
Defined.
End examples.
