(* ===== verification/CrawlerFiles.v ===== *)
(** * What the crawler writes: the storage file, its lines and the places of nodes, and [main], of [apps/crawler/crawler.cc]
    and [apps/crawler/main.cc]

    The crawl itself is modelled in [Crawlers].  The database of places is the interface [GeoDb], the file system
    that of [Persistence]; the date and the time that [strftime] writes are arguments. *)

From Stdlib Require Import String.
From S2P Require Import Prelude Constants Ids Addresses Entries Values Texts Crypto Json Messages Configurations Printers Crawlers Storage Persistence.

#[local] Open Scope Z_scope.
#[local] Open Scope carrier_scope.

(** A record of the database. *)
Record Place := MkPlace { country_long : list Z; pl_region : list Z; pl_city : list Z }.

(** [IP2Location_open] with [IP2Location_open_mem], and [IP2Location_get_all] of an open database. *)
Class GeoDb := { geo_open : list Z -> bool; geo_open_mem : bool; geo_get_all : list Z -> option Place }.

(** What [ip2location_init] throws that is not an exception of the standard library. *)
Inductive InitEnd := I_ok | I_exception (e : error) | I_text.

Module CrawlerFiles.
Section files.
Context {sodium : Sodium} {sodiumHex : SodiumHex} {netdb : NetDb} {host : Host} {geo : GeoDb}.

#[local] Abbreviation M := (SM (gmap (list Z) FsNode)).

(** ** Places *)

Definition ip2location_init (database : list Z) : InitEnd :=
  if negb (geo_open database) then I_exception Invalid_argument else if negb geo_open_mem then I_text else I_ok.

(** [ip.substr(0, ip.find(":"))], or the whole text. *)
Fixpoint before (sep : Z) (s : list Z) : list Z := match s with [] => [] | c :: s => if c =? sep then [] else c :: before sep s end.

Definition ip2location (has_db : bool) (ip : list Z) : list Z :=
  if has_db then
    match geo_get_all (before 58 ip) with
    | Some r => chars "Country: " ++ country_long r ++ chars ", Region: " ++ pl_region r ++ chars ", City: " ++ pl_city r
    | None => []
    end
  else [].

(** The line of a node in the storage file. *)
Definition line_of (has_db : bool) (ni : NodeInfo) : result (list Z) :=
  let ip := AddressText.toString (sockaddr ni) in
  id <-! Printer.id_text (nodeId ni);
  Ok (chars "Id: " ++ id ++ chars ", Ip: " ++ ip ++ chars ", Version: " ++ Version.toString (version ni) ++ chars ", " ++ ip2location has_db ip).

(** ** The storage file *)

Definition checkPersistence (path : list Z) : M bool := NodeFiles.checkPersistence path.

(** [openStorageFile]: the path of the file that is open, if there is one.  [date] and [time] are the texts of the
    time of the call. *)
Definition openStorageFile (data_dir date time : list Z) : M (option (list Z)) :=
  let storagePath := (if bool_decide (data_dir = []) then NodeFiles.PATH_CWD else data_dir) ++ NodeFiles.PATH_SEP ++ date in
  persistent <~ checkPersistence storagePath;
  if negb persistent then sm_ret None
  else
    let path := storagePath ++ NodeFiles.PATH_SEP ++ time ++ chars ".lst" in
    fun fs =>
      match fs !! path with
      | Some Fs_dir | Some (Fs_file _) => (Ok None, fs)
      | _ => (opened <~ NodeFiles.write_file path []; if opened : bool then sm_ret (Some path) else sm_lift (Throw Runtime_error)) fs
      end.

(** [init], behind the settings and the node: whether there is a database, and the storage file. *)
Definition init (setting : CrawlerSetting) (date time : list Z) (fs : gmap (list Z) FsNode) : InitEnd * bool * option (list Z) * gmap (list Z) FsNode :=
  let has_db := negb (bool_decide (ip2location_database setting = [])) in
  match (if has_db then ip2location_init (ip2location_database setting) else I_ok) with
  | I_ok =>
      match openStorageFile (data_dir setting) date time fs with
      | (Ok f, fs) => (I_ok, has_db, f, fs)
      | (Throw e, fs) => (I_exception e, has_db, None, fs)
      end
  | e => (e, has_db, None, fs)
  end.

(** Writing a line; without a file nothing is written. *)
Definition write_line (has_db : bool) (file : option (list Z)) (ni : NodeInfo) : M unit :=
  str <~ sm_lift (line_of has_db ni);
  match file with
  | None => sm_ret ()
  | Some path => sm_modify (fun fs => match fs !! path with Some (Fs_file data) => <[path := Fs_file (data ++ str ++ [10])]> fs | _ => fs end)
  end.

(** ** [main] *)

(** The value of [interrupted] when the loop ends: 1 after a signal. *)
Definition exit_code (interrupted : Z) : Z := if interrupted =? 2 then 0 else 1.

(** How [main] ends: only one kind of exception is caught, which [init] does not throw. *)
Inductive MainEnd := Main_returns (rc : Z) | Main_terminates.
Definition main_end (i : InitEnd) (signalled : bool) : MainEnd :=
  match i with I_ok => Main_returns (exit_code (if signalled then 1 else 0)) | _ => Main_terminates end.

(** ** Theorems *)

Lemma before_id s : Forall (fun c => c <> 58) s -> before 58 s = s.
Proof. induction 1 as [|c s Hc _ IH]; [done|]. simpl. by rewrite (proj2 (Z.eqb_neq c 58)), IH. Qed.

Lemma before_app a s : Forall (fun c => c <> 58) a -> before 58 (a ++ 58 :: s) = a.
Proof. induction 1 as [|c a Hc _ IH]; [done|]. simpl. by rewrite (proj2 (Z.eqb_neq c 58)), IH. Qed.

(** The place of a node with an IPv4 address is asked for by its host name without the port; that of a node with an IPv6
    address by the first group of the address, since the text is cut at its first colon. *)
Theorem place_of_address a group rest :
  sa_empty a = false -> (length (ntop a) < AddressText.NI_MAXHOST)%nat ->
  (Forall (fun c => c <> 58) (ntop a) -> before 58 (AddressText.toString a) = AddressText.host a) /\
  (ntop a = group ++ 58 :: rest -> Forall (fun c => c <> 58) group -> before 58 (AddressText.toString a) = group).
Proof.
  intros He Hl. unfold AddressText.toString, AddressText.host, AddressText.inet_ntop. rewrite He, (proj2 (Nat.ltb_lt _ _) Hl). cbn [default from_option].
  split.
  - intros H. destruct (port a =? 0); [rewrite app_nil_r; by apply before_id|by apply before_app].
  - intros -> H. rewrite <- app_assoc. by apply before_app.
Qed.

Lemma id_text_chars i t : Printer.id_text i = Ok t -> Forall (fun c => c <> 44) t /\ IdText.ofBase58 t = Some (Ok i).
Proof.
  unfold Printer.id_text. destruct (IdText.id_text_roundtrip i) as (s & h & E & D & _). rewrite E. intros [= <-]. split; [|done].
  unfold IdText.toString, IdText.toBase58String in E. destruct (Base58.decode_encode (bytes i) (id_bytes i)) as (s' & E' & _ & Hs); [rewrite id_length; lia|].
  rewrite E' in E. injection E as <-. eapply Forall_impl; [exact Hs|]. intros c Hc ->. apply (bool_decide_eq_true_2 (44 ∈ _)) in Hc. by vm_compute in Hc.
Qed.

(** The lines of different nodes are different: a line names its node. *)
Theorem line_names_node has_db ni ni' l : line_of has_db ni = Ok l -> line_of has_db ni' = Ok l -> nodeId ni = nodeId ni'.
Proof.
  unfold line_of. destruct (Printer.id_text (nodeId ni)) as [t|] eqn:E; [|done]. destruct (Printer.id_text (nodeId ni')) as [t'|] eqn:E'; [|done].
  intros [= <-] [= H]. apply id_text_chars in E as [N1 D1], E' as [N2 D2]. apply (sep_split 44) in H as [-> _]; [|done..]. congruence.
Qed.

(** Opening the storage file changes no file: a file that exists is not opened, and a new file is empty. *)
Theorem storage_file_new data_dir date time fs r fs' :
  openStorageFile data_dir date time fs = (r, fs') ->
  (forall q d, fs !! q = Some (Fs_file d) -> fs' !! q = Some (Fs_file d)) /\
  (forall path, r = Ok (Some path) -> fs' !! path = Some (Fs_file []) /\ forall d, fs !! path <> Some (Fs_file d)).
Proof.
  set (p := (if bool_decide (data_dir = []) then NodeFiles.PATH_CWD else data_dir) ++ NodeFiles.PATH_SEP ++ date).
  assert (forall b fs1, checkPersistence p fs = (b, fs1) -> forall q d, fs !! q = Some (Fs_file d) -> fs1 !! q = Some (Fs_file d)) as Hc.
  { intros b fs1. unfold checkPersistence, NodeFiles.checkPersistence. case_bool_decide; [by intros [= _ <-]|]. case_bool_decide; [by intros [= _ <-]|].
    destruct (fs !! p) as [[| |]|] eqn:Ep; [by intros [= _ <-]..|]. destruct (create_directories p fs) as [[|]|]; [|by intros [= _ <-]..].
    intros [= _ <-] q d Hq. rewrite lookup_insert_ne; [done|]. intros ->. congruence. }
  unfold openStorageFile, sm_bind at 1. fold p. destruct (checkPersistence p fs) as [[b|e] fs1] eqn:E; [|intros [= <- <-]; split; [by eapply Hc|done]].
  pose proof (Hc _ _ eq_refl) as Hc1. destruct b; cbn [negb]; [|intros [= <- <-]; by split]. set (path := p ++ _).
  assert (forall fs2 x, NodeFiles.write_file path [] fs1 = (x, fs2) -> (forall d, fs1 !! path <> Some (Fs_file d)) ->
    (forall q d, fs !! q = Some (Fs_file d) -> fs2 !! q = Some (Fs_file d)) /\ (x = Ok true -> fs2 !! path = Some (Fs_file []))) as Hw.
  { intros fs2 x Ew Hn. destruct x as [[|]|].
    - apply NodeFiles.write_file_spec in Ew as [-> _]. split; [|by rewrite lookup_insert_eq]. intros q d Hq. rewrite lookup_insert_ne; [by apply Hc1|].
      intros <-. by apply (Hn d), Hc1.
    - unfold NodeFiles.write_file in Ew. split; [|done]. destruct (fs1 !! path) as [[| |]|]; [..|]; try destruct (can_write path); by simplify_eq.
    - unfold NodeFiles.write_file in Ew. destruct (fs1 !! path) as [[| |]|]; try destruct (can_write path); by simplify_eq. }
  assert (fs1 !! path <> Some Fs_dir -> (forall d, fs1 !! path <> Some (Fs_file d)) ->
    (opened <~ NodeFiles.write_file path []; if opened : bool then sm_ret (Some path) else sm_lift (Throw Runtime_error)) fs1 = (r, fs') ->
    (forall q d, fs !! q = Some (Fs_file d) -> fs' !! q = Some (Fs_file d)) /\
    (forall path, r = Ok (Some path) -> fs' !! path = Some (Fs_file []) /\ forall d, fs !! path <> Some (Fs_file d))) as Hopen.
  { intros _ Hn. unfold sm_bind. destruct (NodeFiles.write_file path [] fs1) as [x fs2] eqn:Ew. destruct (Hw _ _ eq_refl Hn) as [H1 H2].
    destruct x as [[|]|]; intros [= <- <-]; (split; [done|]); try done. intros q [= <-]. split; [by apply H2|]. intros d Hd. by apply (Hn d), Hc1. }
  destruct (fs1 !! path) as [[|d|]|] eqn:Ef; [intros [= <- <-]; by split| | |]; [intros [= <- <-]; by split|by apply Hopen..].
Qed.

(** The crawler never ends with the exit code 0. *)
Theorem crawler_never_succeeds i signalled : main_end i signalled <> Main_returns 0.
Proof. by destruct i, signalled. Qed.

End files.
End CrawlerFiles.
