(* ===== verification/Launchers.v ===== *)
(** * The launcher: the lock of [apps/common/application_lock.h] and the configuration of
    [apps/launcher/launcher.cc]

    [ApplicationLock] keeps a second process out of a directory with a lock file: it
    opens the file, making it when it is missing, and locks it with [flock]; the
    destructor unlocks, closes and removes it.  Every system call is one step of a
    process, and the steps of several processes are interleaved.  The file that the name
    stands for is told from the files that are open, since a removed file stays locked
    as long as it is open. *)

From Stdlib Require Import String.
From stdpp Require Import strings.
From S2P Require Import Prelude Ids Addresses Entries Values Texts Crypto Json Configurations Storage Persistence.

#[local] Open Scope Z_scope.
#[local] Open Scope carrier_scope.

(** ** The lock *)

(** Where a process is in [acquire] and [release]; the file it has opened. *)
Inductive LockStage :=
  | L_idle                        (* before [acquire], or it returned -1 *)
  | L_opened (ino : nat)          (* between [open] and [flock] *)
  | L_locked (ino : nat)          (* [acquire] returned 0 *)
  | L_unlocked (ino : nat)        (* in [release]: behind [flock(LOCK_UN)] *)
  | L_closed (ino : nat)          (* behind [close] *)
  | L_released                    (* behind [remove] *)
  | L_gone.                       (* the process has ended without the destructor *)

#[export] Instance LockStage_eq_dec : EqDecision LockStage.
Proof. solve_decision. Defined.

Record LockWorld := MkLockWorld {
  lw_name : option nat;                   (* the file the name stands for *)
  lw_next : nat;                          (* the number of the next file *)
  lw_locks : gmap nat nat;                (* the process that has locked a file *)
  lw_procs : gmap nat LockStage
}.

Module ApplicationLock.

Definition stage (p : nat) (w : LockWorld) : LockStage := default L_idle (lw_procs w !! p).
Definition goto (p : nat) (s : LockStage) (w : LockWorld) : LockWorld :=
  MkLockWorld (lw_name w) (lw_next w) (lw_locks w) (<[p := s]> (lw_procs w)).

(** [open(filename, O_RDWR | O_CREAT)] *)
Definition open_file (p : nat) (w : LockWorld) : LockWorld :=
  match lw_name w with
  | Some i => goto p (L_opened i) w
  | None => goto p (L_opened (lw_next w)) (MkLockWorld (Some (lw_next w)) (S (lw_next w)) (lw_locks w) (lw_procs w))
  end.

(** [flock(fd, LOCK_EX | LOCK_NB)]; a file that is locked is closed again. *)
Definition lock_file (p i : nat) (w : LockWorld) : LockWorld :=
  match lw_locks w !! i with
  | None => goto p (L_locked i) (MkLockWorld (lw_name w) (lw_next w) (<[i := p]> (lw_locks w)) (lw_procs w))
  | Some _ => goto p L_idle w
  end.

(** The calls of [release]. *)
Definition unlock_file (p i : nat) (w : LockWorld) : LockWorld :=
  goto p (L_unlocked i) (MkLockWorld (lw_name w) (lw_next w) (delete i (lw_locks w)) (lw_procs w)).
Definition remove_file (p : nat) (w : LockWorld) : LockWorld :=
  goto p L_released (MkLockWorld None (lw_next w) (lw_locks w) (lw_procs w)).

(** [removes]: whether the step removes the file. *)
Inductive step (removes : bool) : LockWorld -> LockWorld -> Prop :=
  | step_open p w : stage p w = L_idle -> step removes w (open_file p w)
  | step_flock p i w : stage p w = L_opened i -> step removes w (lock_file p i w)
  | step_unlock p i w : stage p w = L_locked i -> step removes w (unlock_file p i w)
  | step_close p i w : stage p w = L_unlocked i -> step removes w (goto p (L_closed i) w)
  | step_remove p i w : stage p w = L_closed i -> removes = true -> step removes w (remove_file p w)
  (* A process that ends without [release] loses its lock. *)
  | step_end_locked p i w : stage p w = L_locked i ->
      step removes w (goto p L_gone (MkLockWorld (lw_name w) (lw_next w) (delete i (lw_locks w)) (lw_procs w)))
  | step_end_opened p i w : stage p w = L_opened i -> step removes w (goto p L_gone w).

Definition initial : LockWorld := MkLockWorld None 0 ∅ ∅.

Definition holds (p : nat) (w : LockWorld) : Prop := exists i, stage p w = L_locked i.

(** ** Lemmas *)

(** The locks are those of the processes that have them, on files that exist. *)
Record lock_inv (w : LockWorld) : Prop := {
  li_locked p i : stage p w = L_locked i <-> lw_locks w !! i = Some p;
  li_name i : lw_name w = Some i -> (i < lw_next w)%nat
}.

(** While nothing was removed, every open file is the one of the name. *)
Definition one_file (w : LockWorld) : Prop := forall p i, stage p w = L_opened i \/ stage p w = L_locked i -> lw_name w = Some i.

Lemma stage_goto p q s w : stage q (goto p s w) = if decide (q = p) then s else stage q w.
Proof. unfold stage, goto. simpl. destruct (decide (q = p)) as [->|]; [by rewrite lookup_insert_eq|by rewrite lookup_insert_ne]. Qed.

Lemma stage_set q n x l w : stage q (MkLockWorld n x l (lw_procs w)) = stage q w.
Proof. done. Qed.

(** A process that takes no lock moves on. *)
Lemma inv_goto p s w : lock_inv w -> (forall i, stage p w <> L_locked i) -> (forall i, s <> L_locked i) -> lock_inv (goto p s w).
Proof.
  intros [H1 H2] Hn Hs. split; [|exact H2]. intros q i. rewrite stage_goto. simpl. destruct (decide (q = p)) as [->|]; [|apply H1].
  split; [intros ->; by destruct (Hs i)|]. intros H%H1. by destruct (Hn i).
Qed.

(** A lock that is given back. *)
Lemma inv_unlock p i s w : lock_inv w -> stage p w = L_locked i -> (forall i, s <> L_locked i) ->
  lock_inv (goto p s (MkLockWorld (lw_name w) (lw_next w) (delete i (lw_locks w)) (lw_procs w))).
Proof.
  intros [H1 H2] Hp Hs. split; [|exact H2]. intros q j. rewrite stage_goto, stage_set. simpl. rewrite lookup_delete_Some. destruct (decide (q = p)) as [->|Hq].
  - split; [intros ->; by destruct (Hs j)|]. intros [Hj H%H1]. rewrite Hp in H. by injection H as ->.
  - rewrite H1. split; [|by intros [_ ?]]. intros H. split; [|done]. intros <-. apply H1 in Hp. congruence.
Qed.

Lemma step_inv b w w' : step b w w' -> lock_inv w -> lock_inv w'.
Proof.
  destruct 1 as [p w Hp|p i w Hp|p i w Hp|p i w Hp|p i w Hp _|p i w Hp|p i w Hp]; intros Hi.
  - unfold open_file. destruct (lw_name w) eqn:E; [apply inv_goto; [done|congruence|done]|].
    apply inv_goto; [|by rewrite stage_set; congruence|done]. destruct Hi as [H1 H2]. split; [exact H1|]. simpl. intros i [= <-]. lia.
  - unfold lock_file. destruct (lw_locks w !! i) eqn:E; [apply inv_goto; [done|congruence|done]|].
    destruct Hi as [H1 H2]. split; [|exact H2]. intros q j. rewrite stage_goto, stage_set. simpl. destruct (decide (q = p)) as [->|Hq].
    + destruct (decide (i = j)) as [->|Hij]; [by rewrite lookup_insert_eq|]. rewrite lookup_insert_ne by done.
      split; [congruence|]. intros H%H1. congruence.
    + rewrite H1. destruct (decide (i = j)) as [->|Hij]; [|by rewrite lookup_insert_ne]. rewrite lookup_insert_eq, E. naive_solver.
  - by apply inv_unlock.
  - apply inv_goto; [done|congruence|done].
  - apply inv_goto; [|by rewrite stage_set; congruence|done]. destruct Hi as [H1 H2]. by split.
  - by apply inv_unlock.
  - apply inv_goto; [done|congruence|done].
Qed.

Lemma step_one_file w w' : step false w w' -> one_file w -> one_file w'.
Proof.
  destruct 1 as [p w Hp|p i w Hp|p i w Hp|p i w Hp|p i w Hp Hb|p i w Hp|p i w Hp]; intros Hf q j; try done.
  - unfold open_file. destruct (lw_name w) as [i|] eqn:E; rewrite stage_goto, ?stage_set; simpl; destruct (decide (q = p)) as [->|].
    + rewrite E. naive_solver.
    + apply Hf.
    + naive_solver.
    + intros H%Hf. congruence.
  - unfold lock_file. destruct (lw_locks w !! i) eqn:E; rewrite stage_goto, ?stage_set; simpl; (destruct (decide (q = p)) as [->|]; [|apply Hf]).
    + naive_solver.
    + intros [?|[= <-]]; [done|]. apply (Hf p). by left.
  - unfold unlock_file. rewrite stage_goto, stage_set. destruct (decide (q = p)); [naive_solver|apply Hf].
  - rewrite stage_goto. destruct (decide (q = p)); [naive_solver|apply Hf].
  - rewrite stage_goto, stage_set. destruct (decide (q = p)); [naive_solver|apply Hf].
  - rewrite stage_goto. destruct (decide (q = p)); [naive_solver|apply Hf].
Qed.

Lemma initial_inv : lock_inv initial.
Proof. split; [|done]. intros p i. unfold stage, initial. simpl. by rewrite !lookup_empty. Qed.

(** ** Theorems *)

(** C20: a file is locked by at most one process, whatever the processes do; and as long as
    no process removes the lock file, at most one process has the lock of the
    directory. *)
Theorem lock_exclusive w p q :
  (rtc (step true) initial w -> forall i, stage p w = L_locked i -> stage q w = L_locked i -> p = q) /\
  (rtc (step false) initial w -> holds p w -> holds q w -> p = q).
Proof.
  assert (forall b, rtc (step b) initial w -> lock_inv w) as Hinv.
  { intros b H. eapply (rtc_ind_r lock_inv) in H; [exact H|apply initial_inv|]. intros y z _ Hyz Hy. by eapply step_inv. }
  split.
  - intros Hr%Hinv i Hp Hq. apply (li_locked w Hr) in Hp, Hq. congruence.
  - intros Hr [i Hp] [j Hq]. pose proof (Hinv _ Hr) as Hi.
    assert (one_file w) as Hf.
    { eapply (rtc_ind_r one_file) in Hr; [exact Hr| |intros y z _ Hyz Hy; by eapply step_one_file]. intros x k. unfold stage, initial. simpl. rewrite lookup_empty. naive_solver. }
    assert (i = j) as -> by (pose proof (Hf p i (or_intror Hp)); pose proof (Hf q j (or_intror Hq)); congruence).
    apply (li_locked w Hi) in Hp, Hq. congruence.
Qed.

(** A run: the processes 1, 2 and 3 take these steps. *)
Definition race : LockWorld :=
  let w := lock_file 1 0 (open_file 1 initial) in             (* 1 has the lock *)
  let w := open_file 2 w in                                   (* 2 has opened the file *)
  let w := unlock_file 1 0 w in
  let w := lock_file 2 0 w in                                 (* 2 has the lock *)
  let w := remove_file 1 (goto 1 (L_closed 0) w) in           (* 1 removes the file that 2 has locked *)
  lock_file 3 1 (open_file 3 w).                              (* 3 makes a new file and locks it *)

(** Since the lock file is removed after it was unlocked, two processes can have the
    lock at the same time. *)
Theorem lock_race : rtc (step true) initial race /\ holds 2 race /\ holds 3 race.
Proof.
  split; [|split; eexists; vm_compute; reflexivity]. unfold race.
  do 9 (eapply rtc_r; [|first
    [ by eapply step_flock; vm_compute | by eapply step_open; vm_compute | by eapply step_unlock; vm_compute
    | by eapply step_close; vm_compute | by eapply step_remove; vm_compute ]]). constructor.
Qed.
End ApplicationLock.

(** ** The configuration of the launcher *)

Record Options := MkOptions {
  op_configFile : list Z;
  op_addr4 : list Z;
  op_addr6 : list Z;
  op_port : Z;
  op_dataDir : list Z
}.

Module Launcher.
Section launcher.
Context {netdb : NetDb} {sodiumHex : SodiumHex} {nlohmann : Nlohmann} {system : System}.
Context {sodium : Sodium} {sodiumBox : SodiumBox} {host : Host}.

Definition unless_empty (l : list Z) (f : list Z -> SM Builder unit) : SM Builder unit := if bool_decide (l = []) then sm_ret () else f l.

Definition initConfigure (o : Options) : SM Builder DefaultConfiguration :=
  unless_empty (op_configFile o) Configuration.load;~
  unless_empty (op_addr4 o) (fun ip => sm_modify (Configuration.setIPv4Address ip));~
  unless_empty (op_addr6 o) (fun ip => sm_modify (Configuration.setIPv6Address ip));~
  (if 0 <? op_port o then Configuration.setListeningPort (op_port o) else sm_ret ());~
  unless_empty (op_dataDir o) Configuration.setStoragePath;~
  Configuration.build.

(** The lock file of [checkAnotherInstance]. *)
Definition lock_path (config : DefaultConfiguration) : list Z := cf_storagePath config ++ chars "/lock".

(** [main], up to the start of the node: [acquire] is whether the lock was taken. *)
Definition launch (o : Options) (acquire : list Z -> bool) (member random : KeyPair) : SM (gmap (list Z) FsNode) (DefaultConfiguration * (Id * NodeKeys)) :=
  config <~ sm_lift (fst (initConfigure o Configuration.Builder_new));
  (if acquire (lock_path config) then sm_ret () else sm_lift (Throw Runtime_error));~
  n <~ NodeFiles.Node_new config member random;
  sm_ret (config, n).

(** ** Theorems *)

(** What the options make of the settings of the file. *)
Definition override (o : Options) (path : list Z) (b : Builder) : Builder :=
  MkBuilder (autoAddr4 b) (autoAddr6 b) (if bool_decide (op_addr4 o = []) then ip4 b else op_addr4 o)
    (if bool_decide (op_addr6 o = []) then ip6 b else op_addr6 o) (if 0 <? op_port o then op_port o else b_port b)
    (if bool_decide (op_dataDir o = []) then storagePath b else path) (bootstrapNodes b) (addons b) (b_logger b).

(** The options of the command line override the settings of the configuration file,
    each its own setting, and what has no option is taken from the file. *)
Theorem options_override o b b1 path :
  unless_empty (op_configFile o) Configuration.load b = (Ok (), b1) ->
  op_port o <= 65535 -> Configuration.expanduser (op_dataDir o) = Ok path ->
  initConfigure o b = Configuration.build (override o path b1).
Proof.
  intros Hb Hp Hd. unfold initConfigure, sm_bind at 1. rewrite Hb. destruct b1 as [a4 a6 i4 i6 p s ns ads lg]. unfold override. simpl.
  unfold unless_empty, Configuration.setStoragePath, Configuration.setListeningPort, sm_bind, sm_modify, sm_ret, sm_lift. rewrite Hd.
  destruct (Z.ltb_spec 0 (op_port o)) as [H0|H0].
  - rewrite (proj2 (Z.leb_gt _ _) H0), (proj2 (Z.ltb_ge 65535 _) Hp). simpl.
    by destruct (bool_decide (op_addr4 o = [])), (bool_decide (op_addr6 o = [])), (bool_decide (op_dataDir o = [])).
  - by destruct (bool_decide (op_addr4 o = [])), (bool_decide (op_addr6 o = [])), (bool_decide (op_dataDir o = [])).
Qed.

(** A launcher that does not get the lock touches no file.  When no directory is set, the
    lock file is in the root directory, and the key and the id in the working
    directory. *)
Theorem launch_guarded o acquire member random fs config b :
  initConfigure o Configuration.Builder_new = (Ok config, b) ->
  (acquire (lock_path config) = false -> launch o acquire member random fs = (Throw Runtime_error, fs)) /\
  (cf_storagePath config = [] -> acquire (lock_path config) = acquire (chars "/lock") /\
     forall id n fs', launch o acquire member random fs = (Ok (config, (id, n)), fs') ->
       is_Some (fs' !! (chars "./id"))).
Proof.
  intros Hc. unfold launch, sm_bind, sm_lift. rewrite Hc. simpl. split; [by intros ->|]. intros Hs.
  split; [by unfold lock_path; rewrite Hs|]. intros id n fs'. destruct (acquire (lock_path config)); [|done]. unfold sm_ret.
  destruct (NodeFiles.Node_new config member random fs) as [[x|] fs1] eqn:E; [|done]. intros [= -> ->]. revert E.
  unfold NodeFiles.Node_new, sm_bind, sm_lift. destruct (_ && _); [done|]. rewrite Hs, bool_decide_true by done.
  change (NodeFiles.checkPersistence NodeFiles.PATH_CWD fs) with (@Ok bool true, fs : gmap (list Z) FsNode). cbv beta iota zeta.
  destruct (NodeFiles.node_key NodeFiles.PATH_CWD true member random fs) as [[kp|] fs2]; [|done]. destruct (Id_of_blob _) as [i|]; [|done].
  destruct (NodeFiles.writeIdFile _ i fs2) as [[[]|] fs3] eqn:Ew; [|done]. intros [= _ <-].
  apply NodeFiles.writeIdFile_spec in Ew as (data & -> & _). change (chars "./id") with (NodeFiles.id_path NodeFiles.PATH_CWD).
  by rewrite lookup_insert_eq.
Qed.
End launcher.
End Launcher.

(** ** Witnesses *)

(** The first process has the lock, the second has opened the file. *)
Definition lock_world1 : LockWorld :=
  ApplicationLock.open_file 2 (ApplicationLock.lock_file 1 0 (ApplicationLock.open_file 1 ApplicationLock.initial)).
Definition lock_world2 : LockWorld := ApplicationLock.lock_file 2 0 lock_world1.

Lemma lock_world2_reachable : rtc (ApplicationLock.step false) ApplicationLock.initial lock_world2.
Proof.
  unfold lock_world2, lock_world1.
  do 4 (eapply rtc_r; [|first [by eapply ApplicationLock.step_flock; vm_compute|by eapply ApplicationLock.step_open; vm_compute]]). constructor.
Qed.

Lemma lock_exclusive_witness : ApplicationLock.holds 1 lock_world2 /\ ~ ApplicationLock.holds 2 lock_world2.
Proof.
  assert (ApplicationLock.holds 1 lock_world2) as H1 by (eexists; vm_compute; reflexivity).
  split; [exact H1|]. intros H2. pose proof (proj2 (ApplicationLock.lock_exclusive lock_world2 1 2) lock_world2_reachable H1 H2). discriminate.
Defined.

Section examples.
#[local] Existing Instance toy_sodium.
#[local] Existing Instance toy_box.
#[local] Existing Instance toy_host.

#[local] Existing Instances toy_json hex toy_system.

(** An address, a port and a directory on the command line, and no file. *)
Definition options1 : Options := MkOptions [] (@ntop (toy_netdb []) address1) [] 4000 [100].
Definition options2 : Options := MkOptions [] (@ntop (toy_netdb []) address1) [] 4000 [].

Lemma options_override_witness :
  @Launcher.initConfigure (toy_netdb []) _ _ _ options1 Configuration.Builder_new
  = @Configuration.build (toy_netdb []) (Launcher.override options1 [100] Configuration.Builder_new).
Proof.
  refine (@Launcher.options_override (toy_netdb []) _ _ _ options1 _ _ [100] _ _ _); [reflexivity|simpl; lia|reflexivity].
Defined.

Lemma launch_guarded_witness :
  exists config b, @Launcher.initConfigure (toy_netdb []) _ _ _ options2 Configuration.Builder_new = (Ok config, b) /\
    @Launcher.launch (toy_netdb []) _ _ _ _ _ _ options2 (fun _ => false) key_pair0 key_pair0 ∅ = (Throw Runtime_error, ∅).
Proof.
  destruct (@Launcher.initConfigure (toy_netdb []) _ _ _ options2 Configuration.Builder_new) as [[config|e] b] eqn:E; [|by vm_compute in E].
  exists config, b. split; [reflexivity|].
  refine (proj1 (@Launcher.launch_guarded (toy_netdb []) _ _ _ _ _ _ options2 (fun _ => false) key_pair0 key_pair0 ∅ config b E) eq_refl).
Defined.
End examples.
