(* ===== verification/Addons.v ===== *)
(** * The life of the launcher: [main], [stop] and the signal handler of [apps/launcher/launcher.cc], and the loading of
    addons of [src/addons/addons.cc]

    An addon is the interface [Addon]: its state, and what its futures give.  The only addon of the
    program is the active proxy, whose start is modelled in [ProxyStart].  What [main] does after the configuration,
    the lock and the node are made ([Launchers]) is the list of its effects. *)

From Stdlib Require Import String.
From stdpp Require Import sorting.
From S2P Require Import Prelude Ids Addresses Entries Values Texts Crypto Json Configurations Storage Persistence Launchers.

#[local] Open Scope Z_scope.
#[local] Open Scope carrier_scope.

(** ** Addons *)

(** What the launcher uses of an addon.  The exceptions are those of its futures; an addon that was deinitialised is not
    initialised. *)
Class Addon := {
  AddonState : Type;
  addon_new : AddonState;
  addon_initialize : list (string * Any) -> AddonState -> result unit * AddonState;
  addon_isInitialized : AddonState -> bool;
  addon_deinitialize : AddonState -> result unit * AddonState;
  addon_deinitialized a a' : addon_deinitialize a = (Ok (), a') -> addon_isInitialized a' = false
}.

(** How loading ends; the string is not an exception of the standard library. *)
Inductive LoadEnd := L_ok | L_exception (e : error) | L_string (name : list Z).

Module Addons.
Section addons.
Context {addon : Addon}.

(** [g_addons], in the order of the names. *)
Definition Loaded : Type := list (list Z * AddonState).

(** [g_addons[name] = addon] *)
Fixpoint set (name : list Z) (a : AddonState) (g : Loaded) : Loaded :=
  match g with
  | [] => [(name, a)]
  | (n, x) :: g => if bool_decide (name = n) then (n, a) :: g else if lexicographical_compare name n then (name, a) :: (n, x) :: g else (n, x) :: set name a g
  end.

(** The order of a [std::map]. *)
Definition in_order (x y : list Z * Any) : Prop := lexicographical_compare y.1 x.1 = false.
#[local] Instance in_order_dec : RelDecision in_order := fun x y => decide (lexicographical_compare y.1 x.1 = false).
Definition items (addons : gmap (list Z) Any) : list (list Z * Any) := merge_sort in_order (map_to_list addons).

Fixpoint load (l : list (list Z * Any)) (g : Loaded) : LoadEnd * Loaded :=
  match l with
  | [] => (L_ok, g)
  | (name, value) :: l =>
      match value with
      | A_map configure =>
          if bool_decide (name = chars "ActiveProxy") then
            match addon_initialize configure addon_new with
            | (Ok _, a) => load l (set name a g)
            | (Throw e, a) => (L_exception e, set name a g)
            end
          else load l g
      | _ => (L_string name, g)
      end
  end.

Definition loadAddons (addons : gmap (list Z) Any) (g : Loaded) : LoadEnd * Loaded := load (items addons) g.

(** [unloadAddons]: the addons that were deinitialised, the end, and what is left. *)
Fixpoint unloadAddons (g : Loaded) : list (list Z) * result unit * Loaded :=
  match g with
  | [] => ([], Ok (), [])
  | (name, a) :: g =>
      if addon_isInitialized a then
        match addon_deinitialize a with
        | (Ok _, _) => let '(l, r, g) := unloadAddons g in (name :: l, r, g)
        | (Throw e, _) => ([], Throw e, g)
        end
      else unloadAddons g
  end.

(** ** The launcher *)

Inductive Effect := Eff_deinitialized (name : list Z) | Eff_node_stop | Eff_exit (rc : Z) | Eff_terminate.

(** [stop]; an exception of an addon leaves it. *)
Definition stop (has_node : bool) (g : Loaded) : list Effect * result unit :=
  let '(l, r, _) := unloadAddons g in
  match r with
  | Ok _ => ((Eff_deinitialized <$> l) ++ (if has_node then [Eff_node_stop] else []), Ok ())
  | Throw e => (Eff_deinitialized <$> l, Throw e)
  end.

(** An exception out of [stop] ends the program. *)
Definition stop_then (has_node : bool) (g : Loaded) (rc : Z) : list Effect :=
  let '(l, r) := stop has_node g in l ++ [match r with Ok _ => Eff_exit rc | Throw _ => Eff_terminate end].

(** [main] behind the command line: [launched] is what [Launcher.launch] gave, [started] the result of [start] of the node. *)
Definition main (launched : result DefaultConfiguration) (started : result unit) : list Effect :=
  match launched with
  | Throw _ => stop_then false [] (-1)
  | Ok config =>
      match started with
      | Throw _ => stop_then false [] (-1)
      | Ok _ =>
          match loadAddons (cf_addons config) [] with
          | (L_ok, g) => stop_then true g 0                  (* after the signal *)
          | (L_exception _, g) => stop_then true g (-1)
          | (L_string _, _) => [Eff_terminate]
          end
      end
  end.

(** [quitBarrier]: whether the promise has its value. *)
Definition signal_handler : SM bool unit := fun satisfied => if satisfied then (Throw Future_error, true) else (Ok (), true).

(** ** Lemmas *)

(** The names of the addons that are initialised. *)
Definition running (g : Loaded) : list (list Z) := g ≫= (fun x => if addon_isInitialized x.2 then [x.1] else []).

Lemma unload_all g :
  (forall n a, (n, a) ∈ g -> exists a', addon_deinitialize a = (Ok (), a')) -> unloadAddons g = (running g, Ok (), []).
Proof.
  induction g as [|[n a] g IH]; intros H; [done|]. cbn [unloadAddons]. unfold running. rewrite bind_cons. cbn [snd fst].
  destruct (addon_isInitialized a) eqn:E.
  - destruct (H n a) as [a' ->]; [left|]. by rewrite IH by (intros; eapply H; by right).
  - by rewrite IH by (intros; eapply H; by right).
Qed.

Lemma set_elem name a g n x : (n, x) ∈ set name a g -> (n, x) = (name, a) \/ (n, x) ∈ g.
Proof.
  induction g as [|[m y] g IH]; cbn [set]; [rewrite list_elem_of_singleton; by left|].
  case_bool_decide; [subst; rewrite !elem_of_cons; tauto|]. destruct (lexicographical_compare name m); rewrite !elem_of_cons; [tauto|].
  intros [?|?%IH]; tauto.
Qed.

Lemma load_names l g r g' : load l g = (r, g') -> (forall n a, (n, a) ∈ g -> n = chars "ActiveProxy") -> forall n a, (n, a) ∈ g' -> n = chars "ActiveProxy".
Proof.
  revert g. induction l as [|[name value] l IH]; intros g; cbn [load]; [intros [= _ <-] H; exact H|].
  destruct value; try (intros [= _ <-] H; exact H). case_bool_decide as En; [|by apply IH].
  assert (forall a g, (forall n x, (n, x) ∈ g -> n = chars "ActiveProxy") -> forall n x, (n, x) ∈ set name a g -> n = chars "ActiveProxy") as Hset.
  { intros a g0 H n x [E|Hin]%set_elem; [congruence|by eapply H]. }
  destruct (addon_initialize l0 addon_new) as [[u|e] a].
  - intros E H. eapply IH; [exact E|]. by apply Hset.
  - intros [= _ <-] H. by apply Hset.
Qed.

Definition stops (b : bool) : list Effect := if b then [Eff_node_stop] else [].

Lemma stop_then_ok b g rc :
  (forall n a, (n, a) ∈ g -> exists a', addon_deinitialize a = (Ok (), a')) ->
  stop_then b g rc = (Eff_deinitialized <$> running g) ++ stops b ++ [Eff_exit rc].
Proof. intros H. unfold stop_then, stop. rewrite (unload_all g H). by rewrite <- app_assoc. Qed.

(** ** Theorems *)

(** C35: The launcher cleans up: when the configurations of the addons are maps, the addons can be
    deinitialised and only one signal arrives, it ends with an exit code, which is 0 exactly when everything was loaded; every addon that is
    initialised is deinitialised first, and then the node is stopped, if it was started. *)
Theorem main_cleans_up launched started :
  (forall a, exists a', addon_deinitialize a = (Ok (), a')) ->
  (forall config n v, launched = Ok config -> cf_addons config !! n = Some v -> exists l, v = A_map l) ->
  exists l node_started rc, main launched started = (Eff_deinitialized <$> l) ++ stops node_started ++ [Eff_exit rc] /\
    (node_started = true <-> exists config, launched = Ok config /\ started = Ok ()) /\
    match launched with
    | Ok config => let '(r, g) := loadAddons (cf_addons config) [] in
        (rc = 0 <-> started = Ok () /\ r = L_ok) /\ (started = Ok () -> l = running g)
    | Throw _ => rc <> 0 /\ l = []
    end.
Proof.
  intros Hd Hm. unfold main. destruct launched as [config|e].
  2: { exists [], false, (-1). rewrite stop_then_ok by (by intros n a []%not_elem_of_nil). split; [done|]. split; [|done]. split; [done|by intros (c & [=] & _)]. }
  destruct started as [[]|e].
  2: { exists [], false, (-1). rewrite stop_then_ok by (by intros n a []%not_elem_of_nil). split; [done|]. split; [split; [done|by intros (c & _ & [=])]|].
    destruct (loadAddons (cf_addons config) []) as [r g]. split; [split; [done|by intros [[=] _]]|done]. }
  destruct (loadAddons (cf_addons config) []) as [[|x|n] g] eqn:E.
  - exists (running g), true, 0. rewrite stop_then_ok by (intros; apply Hd). split; [done|]. split; [split; [by exists config|done]|]. done.
  - exists (running g), true, (-1). rewrite stop_then_ok by (intros; apply Hd). split; [done|]. split; [split; [by exists config|done]|].
    split; [split; [done|by intros [_ [=]]]|done].
  - exfalso. assert (forall l g0 g1, load l g0 = (L_string n, g1) -> exists v, (n, v) ∈ l /\ forall k, v <> A_map k) as Hstr.
    { induction l as [|[m v] l IH]; intros g0 g1; [done|]. cbn [load]. destruct v; try (intros [= <- <-]; eexists; split; [left|done]).
      case_bool_decide; [destruct (addon_initialize l0 addon_new) as [[]a]; [|done]|]; intros H'%IH; destruct H' as (v & ? & ?); exists v; split; [by right|done|by right|done]. }
    apply Hstr in E as (v & Hin & Hv). unfold items in Hin. rewrite merge_sort_Permutation, elem_of_map_to_list in Hin.
    destruct (Hm config n v eq_refl Hin) as [k ->]. by apply (Hv k).
Qed.

(** The configuration of an addon that is no map makes [loadAddons] throw a string, which [main] does not catch: the program
    is terminated, and the node that was started is not stopped. *)
Theorem bad_addon_terminates config n v :
  cf_addons config = {[n := v]} -> (forall l, v <> A_map l) -> main (Ok config) (Ok ()) = [Eff_terminate].
Proof.
  intros E Hv. unfold main, loadAddons, items. rewrite E, map_to_list_singleton. cbn. by destruct v as [| | | | | | | |l]; [..|destruct (Hv l)].
Qed.

(** The only addon that is ever loaded is the active proxy; other names are ignored. *)
Theorem only_active_proxy addons r g n a : loadAddons addons [] = (r, g) -> (n, a) ∈ g -> n = chars "ActiveProxy".
Proof. intros E Hin. eapply load_names; [exact E| |exact Hin]. by intros n' a' []%not_elem_of_nil. Qed.

(** The second signal that asks the launcher to end throws in the signal handler. *)
Theorem second_signal s s' : signal_handler s = (Ok (), s') -> signal_handler s' = (Throw Future_error, s').
Proof. by destruct s; intros [= <-]. Qed.

End addons.
End Addons.

(** ** Witnesses *)

Section examples.
(** An addon that is initialised when its configuration is not empty. *)
#[local, refine] Instance toy_addon : Addon := {
  AddonState := bool;
  addon_new := false;
  addon_initialize l _ := match l with [] => (Throw Invalid_argument, false) | _ => (Ok (), true) end;
  addon_isInitialized a := a;
  addon_deinitialize _ := (Ok (), false)
}.
Proof. by intros a a' [= <-]. Defined.

Definition config_with (addons : gmap (list Z) Any) : DefaultConfiguration := MkConfiguration SA_unspec SA_unspec [] [] addons.
Definition addons1 : gmap (list Z) Any :=
  <[chars "ActiveProxy" := A_map [("port"%string, A_int64 8080)]]> (<[chars "Other" := A_map []]> ∅).

Lemma main_cleans_up_witness :
  exists l node_started rc, Addons.main (Ok (config_with addons1)) (Ok ()) = (Addons.Eff_deinitialized <$> l) ++ Addons.stops node_started ++ [Addons.Eff_exit rc] /\
    l = [chars "ActiveProxy"] /\ node_started = true /\ rc = 0.
Proof.
  destruct (Addons.main_cleans_up (Ok (config_with addons1)) (Ok ())) as (l & b & rc & E & Hb & H).
  - intros a. exists false. reflexivity.
  - intros config n v [= <-]. cbn [config_with cf_addons]. unfold addons1. rewrite !lookup_insert_Some.
    intros [[_ <-]|[_ [[_ <-]|[_ H]]]]; [eexists; reflexivity..|]. rewrite lookup_empty in H. discriminate H.
  - exists l, b, rc. split; [exact E|]. destruct (Addons.loadAddons (cf_addons (config_with addons1)) []) as [r g] eqn:El.
    vm_compute in El. injection El as <- <-. destruct H as [H1 H2]. split; [rewrite (H2 eq_refl); vm_compute; reflexivity|].
    split; [apply Hb; exists (config_with addons1); split; reflexivity|]. apply H1. split; reflexivity.
Defined.
End examples.
