(* ===== verification/Shells.v ===== *)
(** * The shell: [apps/shell]

    A line is trimmed, parsed by CLI11 and run by one of the commands.  The values of
    the options are members of the command objects, which live as long as the shell:
    an option that a line does not give keeps its value.  CLI11 is the class [Cli],
    the node with what the shell uses of it the class [ShellNode], whose answers may
    depend on the calls before; waiting for a future gives its answer.  Printed
    texts are represented by what they show. *)

From Stdlib Require Import String.
From S2P Require Import Prelude Ids Addresses Entries Values Texts Crypto Json Configurations Storage Persistence Launchers.

#[local] Open Scope Z_scope.
#[local] Open Scope carrier_scope.

(** ** Commands and their members *)

Inductive Command :=
  | C_id | C_announcepeer | C_bootstrap | C_findnode | C_findpeer | C_storevalue | C_findvalue | C_routingtable
  | C_value | C_peer | C_listvalue | C_listpeer    (* of [storage] *)
  | C_help | C_exit.

#[export] Instance Command_eq_dec : EqDecision Command.
Proof. solve_decision. Defined.

(** An option of a line, with its value. *)
Inductive Given :=
  | G_persistent (b : bool) | G_mutable (b : bool) | G_update (s : list Z) | G_recipient (s : list Z) | G_values (s : list Z)
  | G_mode (z : Z) | G_expected (z : Z) | G_ID (s : list Z)
  | G_privateKey (s : list Z) | G_nodeId (s : list Z) | G_alt (s : list Z) | G_PORT (z : Z) | G_ADDRESS (s : list Z).

Record StoreMembers := MkStoreMembers { st_persistent : bool; bMutable : bool; recipient : list Z; st_target : list Z; st_text : list Z }.
Record FindMembers := MkFindMembers { f_id : list Z; f_mode : Z; f_excepted : Z }.
Record AnnounceMembers := MkAnnounceMembers {
  a_persistent : bool; a_privateKey : list Z; a_nodeId : list Z; a_alt : list Z; a_port : Z
}.
Record BootstrapMembers := MkBootstrapMembers { b_id : list Z; b_address : list Z; b_nodePort : Z }.

Record Members := MkMembers {
  storeValueCommand : StoreMembers;
  findValueCommand : FindMembers;
  findNodeCommand : FindMembers;
  findPeerCommand : FindMembers;
  announcePeerCommand : AnnounceMembers;
  bootstrapCommand : BootstrapMembers;
  valueCommand : list Z;
  peerCommand : list Z
}.

(** What the shell asks the node for; a lookup option is the integer it is made of. *)
Inductive NodeCall :=
  | Call_findNode (id : Id) (option : Z)
  | Call_findValue (id : Id) (option : Z)
  | Call_findPeer (id : Id) (expected option : Z)
  | Call_storeValue (v : Value) (persistent : bool)
  | Call_announcePeer (p : PeerInfo) (persistent : bool)
  | Call_bootstrap (n : NodeInfo)
  | Call_getValue (id : Id)
  | Call_storedValue (id : Id)
  | Call_storedPeers (id : Id) (max : Z)
  | Call_allValues
  | Call_allPeers
  | Call_stop.

Inductive Out :=
  | O_mode (z : Z) | O_port (z : Z) | O_recipient (i : Id) | O_target (i : Id) | O_error (e : error)
  | O_value (v : Value) | O_node (n : NodeInfo) | O_peer (p : PeerInfo) | O_id (i : Id)
  | O_notFound (id : list Z) | O_stored (i : Id) | O_announced (i : Id) (key : list Z) | O_tables | O_help
  | O_total (n : nat) | O_none | O_cli.

Record Shell := MkShell { sh_members : Members; sh_calls : list NodeCall; sh_out : list Out }.

(** The end of a command: [std::exit] ends the program. *)
Inductive CommandEnd := Returns | Exits (rc : Z).

(** What CLI11 makes of a line: the commands of the line with their options, or an error, found when the options
    of some commands may have been written already. *)
Inductive Parsed := Cli_error (given : list (Command * list Given)) | Cli_commands (given : list (Command * list Given)).

(** What the shell uses of the node: the answers of its operations and futures after the calls before, the
    contents of its storage, and the random keys and nonces of the program. *)
Class ShellNode := {
  node_getId : Id;
  ans_findNode : list NodeCall -> Id -> Z -> result (list NodeInfo);
  ans_findValue : list NodeCall -> Id -> Z -> result (option Value);
  ans_findPeer : list NodeCall -> Id -> Z -> Z -> result (list PeerInfo);
  ans_storeValue : list NodeCall -> Value -> bool -> result unit;
  ans_announcePeer : list NodeCall -> PeerInfo -> bool -> result unit;
  ans_bootstrap : list NodeCall -> NodeInfo -> result unit;
  ans_getValue : list NodeCall -> Id -> result (option Value);
  ans_storedValue : list NodeCall -> Id -> result (option Value);
  ans_storedPeers : list NodeCall -> Id -> Z -> result (list PeerInfo);
  ans_allValues : list NodeCall -> list Id;
  ans_allPeers : list NodeCall -> list Id;
  random_key : list NodeCall -> list Z;
  random_nonce : list NodeCall -> list Z
}.

Module Shell.

(** ** [setupOptions] *)

(** The names of the options, and the numbers of [require_option]. *)
Definition option_name (g : Given) : Z :=
  match g with
  | G_persistent _ => 1 | G_mutable _ => 2 | G_update _ => 3 | G_recipient _ => 4 | G_values _ => 5 | G_mode _ => 6 | G_expected _ => 7
  | G_ID _ => 8 | G_privateKey _ => 9 | G_nodeId _ => 10 | G_alt _ => 11 | G_PORT _ => 12 | G_ADDRESS _ => 13
  end.

Definition options (c : Command) : list Z :=
  match c with
  | C_storevalue => [1; 2; 3; 4; 5]
  | C_findnode | C_findvalue => [6; 8]
  | C_findpeer => [6; 7; 8]
  | C_announcepeer => [1; 9; 10; 11; 12]
  | C_bootstrap => [8; 13; 12]
  | C_value | C_peer => [8]
  | _ => []
  end.

Definition require_option (c : Command) : nat * nat :=
  match c with
  | C_storevalue | C_announcepeer => (1, 5)
  | C_findnode | C_findvalue | C_peer => (1, 2)
  | C_findpeer => (1, 3)
  | C_bootstrap => (3, 3)
  | C_value => (1, 1)
  | _ => (0, 0)
  end%nat.

(** The variables an option is bound to. *)
Definition set_store (g : Given) (m : StoreMembers) : StoreMembers :=
  let '(MkStoreMembers p b r t x) := m in
  match g with
  | G_persistent p => MkStoreMembers p b r t x
  | G_mutable b => MkStoreMembers p b r t x
  | G_update t => MkStoreMembers p b r t x
  | G_recipient r => MkStoreMembers p b r t x
  | G_values x => MkStoreMembers p b r t x
  | _ => m
  end.

Definition set_find (g : Given) (m : FindMembers) : FindMembers :=
  let '(MkFindMembers i mode x) := m in
  match g with G_ID i => MkFindMembers i mode x | G_mode mode => MkFindMembers i mode x | G_expected x => MkFindMembers i mode x | _ => m end.

Definition set_announce (g : Given) (m : AnnounceMembers) : AnnounceMembers :=
  let '(MkAnnounceMembers p k n a port) := m in
  match g with
  | G_persistent p => MkAnnounceMembers p k n a port
  | G_privateKey k => MkAnnounceMembers p k n a port
  | G_nodeId n => MkAnnounceMembers p k n a port
  | G_alt a => MkAnnounceMembers p k n a port
  | G_PORT port => MkAnnounceMembers p k n a port
  | _ => m
  end.

Definition set_bootstrap (g : Given) (m : BootstrapMembers) : BootstrapMembers :=
  let '(MkBootstrapMembers i a port) := m in
  match g with G_ID i => MkBootstrapMembers i a port | G_ADDRESS a => MkBootstrapMembers i a port | G_PORT port => MkBootstrapMembers i a port | _ => m end.

Definition set_id (g : Given) (i : list Z) : list Z := match g with G_ID i => i | _ => i end.

Definition update_store (f : StoreMembers -> StoreMembers) (m : Members) : Members :=
  MkMembers (f (storeValueCommand m)) (findValueCommand m) (findNodeCommand m) (findPeerCommand m) (announcePeerCommand m)
    (bootstrapCommand m) (valueCommand m) (peerCommand m).

(** A line writes the members of its command. *)
Definition assign (c : Command) (given : list Given) (m : Members) : Members :=
  let all {A} (set : Given -> A -> A) (a : A) := foldl (fun a g => set g a) a given in
  let '(MkMembers st fv fn fp an bs vc pc) := m in
  match c with
  | C_storevalue => MkMembers (all set_store st) fv fn fp an bs vc pc
  | C_findvalue => MkMembers st (all set_find fv) fn fp an bs vc pc
  | C_findnode => MkMembers st fv (all set_find fn) fp an bs vc pc
  | C_findpeer => MkMembers st fv fn (all set_find fp) an bs vc pc
  | C_announcepeer => MkMembers st fv fn fp (all set_announce an) bs vc pc
  | C_bootstrap => MkMembers st fv fn fp an (all set_bootstrap bs) vc pc
  | C_value => MkMembers st fv fn fp an bs (all set_id vc) pc
  | C_peer => MkMembers st fv fn fp an bs vc (all set_id pc)
  | _ => m
  end.

(** The initial values of the members. *)
Definition members0 : Members :=
  MkMembers (MkStoreMembers false false [] [] []) (MkFindMembers [] 2 0) (MkFindMembers [] 2 0) (MkFindMembers [] 2 0)
    (MkAnnounceMembers false [] [] [] 0) (MkBootstrapMembers [] [] 0) [] [].

Definition assign_all (l : list (Command * list Given)) (m : Members) : Members := foldl (fun m x => assign (fst x) (snd x) m) m l.

(** The parser: what it hands over for a command are options of that command, none twice, as many as are required. *)
Class Cli := {
  cli_parse : list Z -> Parsed;
  cli_valid line l c given : cli_parse line = Cli_commands l -> (c, given) ∈ l ->
    Forall (fun g => option_name g ∈ options c) given /\ NoDup (option_name <$> given) /\
    (fst (require_option c) <= length given <= snd (require_option c))%nat
}.

(** ** [execute] of the commands *)

Section execute.
Context {sodium : Sodium} {sodiumHex : SodiumHex} {netdb : NetDb} {cli : Cli} {shellNode : ShellNode}.

Definition M (A : Type) : Type := SM Shell A.

Definition get : M Shell := fun s => (Ok s, s).
Definition print (o : Out) : M unit := sm_modify (fun s => MkShell (sh_members s) (sh_calls s) (sh_out s ++ [o])).
Definition set_members (f : Members -> Members) : M unit := sm_modify (fun s => MkShell (f (sh_members s)) (sh_calls s) (sh_out s)).

(** A call of the node; [get] of the future gives the answer or throws. *)
Definition call {A} (c : NodeCall) (answer : list NodeCall -> result A) : M A := fun s =>
  (answer (sh_calls s), MkShell (sh_members s) (sh_calls s ++ [c]) (sh_out s)).

Definition finish : M CommandEnd := sm_ret Returns.

(** [Id(const std::string&)] *)
Definition id_of (str : list Z) : result Id := match IdText.Id_of_string str with Some r => r | None => Throw Undefined_behaviour end.

(** A failed lookup of a handler, and the exceptions that are caught. *)
Definition try_id (str : list Z) (shown : Id -> Out) (k : Id -> M CommandEnd) : M CommandEnd :=
  match id_of str with
  | Ok i => k i
  | Throw Out_of_range => print (shown zero);~ finish
  | Throw e => sm_lift (Throw e)
  end.

Definition is_runtime_error (e : error) : bool :=
  match e with Immutable_value | Not_the_owner | Illegal_state | Runtime_error | Dht_error => true | _ => false end.

Definition stored (v : Value) (persistent : bool) : M CommandEnd :=
  call (Call_storeValue v persistent) (fun l => ans_storeValue l v persistent);~ print (O_stored (Value.getId v));~ finish.

Definition store_new (m : StoreMembers) : M CommandEnd :=
  s <~ get;
  let sk := random_key (sh_calls s) in
  let nonce := random_nonce (sh_calls s) in
  if bMutable m then
    if bool_decide (recipient m = []) then v <~ sm_lift (Value.createSignedValue sk nonce 0 (st_text m)); stored v (st_persistent m)
    else try_id (recipient m) O_recipient (fun r => v <~ sm_lift (Value.createEncryptedValue sk r nonce 0 (st_text m)); stored v (st_persistent m))
  else v <~ sm_lift (Value.createValue (st_text m)); stored v (st_persistent m).

Definition store_update (m : StoreMembers) : M CommandEnd :=
  try_id (st_target m) O_target (fun i => fun s =>
    match call (Call_getValue i) (fun l => ans_getValue l i) s with
    | (Throw Invalid_argument, s) => (print (O_error Invalid_argument);~ finish) s
    | (Throw e, s) => (Throw e, s)
    | (Ok None, s) => (Throw Undefined_behaviour, s)      (* [*nullptr] *)
    | (Ok (Some v), s) =>
        match Value.update (st_text m) v with
        | Ok v => stored v (st_persistent m) s
        | Throw e => (if is_runtime_error e then print (O_error e);~ finish else sm_lift (Throw e)) s
        end
    end).

Definition exec_storevalue : M CommandEnd :=
  set_members (update_store (fun m => if bool_decide (recipient m = []) then m
    else MkStoreMembers (st_persistent m) true (recipient m) (st_target m) (st_text m)));~
  s <~ get;
  let m := storeValueCommand (sh_members s) in
  if bool_decide (st_target m = []) then store_new m else store_update m.

Definition check_mode (mode : Z) (k : M CommandEnd) : M CommandEnd := if 2 <? mode then print (O_mode mode);~ finish else k.

Fixpoint print_all (l : list Out) : M unit := match l with [] => sm_ret () | o :: l => print o;~ print_all l end.

(** The objects of a list, or that there is none. *)
Definition show {A} (f : A -> Out) (l : list A) (none : Out) : M CommandEnd :=
  (match l with [] => print none | _ => print_all (f <$> l) end);~ finish.

Definition exec_findvalue : M CommandEnd :=
  s <~ get; let m := findValueCommand (sh_members s) in
  check_mode (f_mode m) (i <~ sm_lift (id_of (f_id m)); r <~ call (Call_findValue i (f_mode m)) (fun l => ans_findValue l i (f_mode m));
    show O_value (option_list r) (O_notFound (f_id m))).

Definition exec_findnode : M CommandEnd :=
  s <~ get; let m := findNodeCommand (sh_members s) in
  check_mode (f_mode m) (i <~ sm_lift (id_of (f_id m)); r <~ call (Call_findNode i (f_mode m)) (fun l => ans_findNode l i (f_mode m));
    show O_node r (O_notFound (f_id m))).

Definition exec_findpeer : M CommandEnd :=
  s <~ get; let m := findPeerCommand (sh_members s) in
  check_mode (f_mode m) (i <~ sm_lift (id_of (f_id m));
    r <~ call (Call_findPeer i (f_excepted m) (f_mode m)) (fun l => ans_findPeer l i (f_excepted m) (f_mode m));
    show O_peer r (O_notFound (f_id m))).

Definition exec_announcepeer : M CommandEnd :=
  s <~ get; let m := announcePeerCommand (sh_members s) in
  sk <~ (if bool_decide (a_privateKey m = []) then sm_ret (random_key (sh_calls s))
         else b <~ sm_lift (match Hex.decode (a_privateKey m) with Some r => r | None => Throw Undefined_behaviour end);
              kp <~ sm_lift (Signature.KeyPair_blob b); sm_ret (kp_sk kp));
  n <~ (if bool_decide (a_nodeId m = []) then sm_ret node_getId else sm_lift (id_of (a_nodeId m)));
  if a_port m <=? 0 then print (O_port (a_port m));~ finish else
  p <~ sm_lift (PeerInfo.PeerInfo_create sk n node_getId (a_port m) (a_alt m));
  call (Call_announcePeer p (a_persistent m)) (fun l => ans_announcePeer l p (a_persistent m));~
  print (O_announced (p_publicKey p) (default [] (p_privateKey p)));~ finish.

Definition exec_bootstrap : M CommandEnd :=
  s <~ get; let m := bootstrapCommand (sh_members s) in
  if b_nodePort m <=? 0 then print (O_port (b_nodePort m));~ finish else
  i <~ sm_lift (id_of (b_id m)); a <~ sm_lift (AddressText.SocketAddress_of_ip (b_address m) (b_nodePort m));
  call (Call_bootstrap (MkNodeInfo i a 0)) (fun l => ans_bootstrap l (MkNodeInfo i a 0));~ finish.

Definition exec_value : M CommandEnd :=
  s <~ get; i <~ sm_lift (id_of (valueCommand (sh_members s)));
  r <~ call (Call_storedValue i) (fun l => ans_storedValue l i); show O_value (option_list r) (O_notFound (valueCommand (sh_members s))).

Definition total {A} (f : A -> Out) (l : list A) (none : Out) : M CommandEnd :=
  match l with [] => print none;~ finish | _ => print_all (f <$> l);~ print (O_total (length l));~ finish end.

Definition exec_peer : M CommandEnd :=
  s <~ get; i <~ sm_lift (id_of (peerCommand (sh_members s)));
  r <~ call (Call_storedPeers i 0) (fun l => ans_storedPeers l i 0); total O_peer r (O_notFound (peerCommand (sh_members s))).

Definition exec_listvalue : M CommandEnd := r <~ call Call_allValues (fun l => Ok (ans_allValues l)); total O_id r O_none.
Definition exec_listpeer : M CommandEnd := r <~ call Call_allPeers (fun l => Ok (ans_allPeers l)); total O_id r O_none.

Definition execute (c : Command) : M CommandEnd :=
  match c with
  | C_id => print (O_id node_getId);~ finish
  | C_announcepeer => exec_announcepeer
  | C_bootstrap => exec_bootstrap
  | C_findnode => exec_findnode
  | C_findpeer => exec_findpeer
  | C_storevalue => exec_storevalue
  | C_findvalue => exec_findvalue
  | C_routingtable => print O_tables;~ finish
  | C_value => exec_value
  | C_peer => exec_peer
  | C_listvalue => exec_listvalue
  | C_listpeer => exec_listpeer
  | C_help => print O_help;~ finish
  | C_exit => call Call_stop (fun _ => Ok ());~ sm_ret (Exits 0)
  end.

(** The callbacks of the commands of a line, in the order of the line. *)
Fixpoint execute_all (l : list Command) : M CommandEnd :=
  match l with
  | [] => finish
  | c :: l => r <~ execute c; match r with Returns => execute_all l | Exits rc => sm_ret (Exits rc) end
  end.

(** [Command::process]: the options are written, then the commands run; errors of the parser are shown,
    other exceptions leave the function. *)
Definition run (p : Parsed) : M CommandEnd :=
  match p with
  | Cli_error given => set_members (assign_all given);~ print O_cli;~ finish
  | Cli_commands given => set_members (assign_all given);~ execute_all (fst <$> given)
  end.

Definition process (cmdline : list Z) : M CommandEnd := run (cli_parse cmdline).

(** ** [handleCommands] *)

(** [isspace] in the C locale; the text of a line ends with its first zero. *)
Definition isspace (c : Z) : bool := (c =? 32) || ((9 <=? c) && (c <=? 13)).

Definition drop_spaces : list Z -> list Z := skip_while isspace.

(** [trim]: the spaces in front are skipped, then those at the end, from the end on, but for the first character. *)
Definition trim (str : list Z) : list Z :=
  match drop_spaces (c_string str) with
  | [] => []
  | c :: s => c :: reverse (drop_spaces (reverse s))
  end.

(** The loop over the lines: how the shell ends. *)
Inductive ShellEnd := E_eof | E_exit (rc : Z) | E_uncaught (e : error).

Fixpoint loop (lines : list (list Z)) (s : Shell) : ShellEnd * Shell :=
  match lines with
  | [] => (E_eof, s)
  | line :: lines =>
      match trim line with
      | [] => loop lines s
      | cmdline =>
          match process cmdline s with
          | (Ok Returns, s) => loop lines s
          | (Ok (Exits rc), s) => (E_exit rc, s)
          | (Throw e, s) => (E_uncaught e, s)
          end
      end
  end.

End execute.

(** ** The start of the shell *)

Section start.
Context {netdb : NetDb} {sodiumHex : SodiumHex} {nlohmann : Nlohmann} {system : System}.
Context {sodium : Sodium} {sodiumBox : SodiumBox} {host : Host}.

(** A configuration file that cannot be loaded is only reported. *)
Definition try_load (file : list Z) : SM Builder unit := fun b =>
  match Configuration.load file b with
  | (Throw Undefined_behaviour, b) => (Throw Undefined_behaviour, b)
  | (_, b) => (Ok (), b)
  end.

Definition configure (o : Options) : SM Builder DefaultConfiguration :=
  Launcher.unless_empty (op_configFile o) try_load;~
  Launcher.unless_empty (op_addr4 o) (fun ip => sm_modify (Configuration.setIPv4Address ip));~
  Launcher.unless_empty (op_addr6 o) (fun ip => sm_modify (Configuration.setIPv6Address ip));~
  (if op_port o =? 0 then sm_ret () else Configuration.setListeningPort (op_port o));~
  (fun b => if negb (bool_decide (op_dataDir o = [])) then Configuration.setStoragePath (op_dataDir o) b
            else if bool_decide (storagePath b = []) then Configuration.setStoragePath (chars "~/.cache/carrier") b
            else (Ok (), b));~
  Configuration.build.

(** The beginning of [handleCommands], up to the start of the node: the node is made before the lock is taken. *)
Definition open_node (o : Options) (acquire : list Z -> bool) (member random : KeyPair) : SM (gmap (list Z) FsNode) (DefaultConfiguration * (Id * NodeKeys)) :=
  config <~ sm_lift (fst (configure o Configuration.Builder_new));
  n <~ NodeFiles.Node_new config member random;
  (if acquire (Launcher.lock_path config) then sm_ret () else sm_lift (Throw Runtime_error));~
  sm_ret (config, n).
End start.

(** ** Lemmas *)

Section lemmas.
Context {sodium : Sodium} {sodiumHex : SodiumHex} {netdb : NetDb} {cli : Cli} {shellNode : ShellNode}.

(** Running a command adds calls with a property, whether it returns or throws. *)
Definition makes {A} (P : NodeCall -> Prop) (m : M A) : Prop :=
  forall s, exists l, sh_calls (snd (m s)) = sh_calls s ++ l /\ Forall P l.

Lemma makes_none {A} P (m : M A) : (forall s, sh_calls (snd (m s)) = sh_calls s) -> makes P m.
Proof. intros H s. exists []. by rewrite H, app_nil_r. Qed.

Lemma makes_ret {A} P (a : A) : makes P (sm_ret a).
Proof. by apply makes_none. Qed.
Lemma makes_lift {A} P (r : result A) : makes P (sm_lift r).
Proof. by apply makes_none. Qed.
Lemma makes_get P : makes P get.
Proof. by apply makes_none. Qed.
Lemma makes_print P o : makes P (print o).
Proof. by apply makes_none. Qed.
Lemma makes_members P f : makes P (set_members f).
Proof. by apply makes_none. Qed.
Lemma makes_call {A} (P : NodeCall -> Prop) c (f : list NodeCall -> result A) : P c -> makes P (call c f).
Proof. intros H s. exists [c]. by split; [|constructor]. Qed.

Lemma makes_then {A B} P (m : M A) (f : A -> M B) :
  makes P m -> (forall a s s', m s = (Ok a, s') -> makes P (f a)) -> makes P (sm_bind m f).
Proof.
  intros Hm Hf s. unfold sm_bind. destruct (Hm s) as (l & El & Hl). destruct (m s) as [[a|e] s1] eqn:E; [|by exists l].
  destruct (Hf a s s1 E s1) as (l' & El' & Hl'). cbn [snd] in El. exists (l ++ l'). rewrite El', El, app_assoc. split; [done|by apply Forall_app].
Qed.

Lemma makes_bind {A B} P (m : M A) (f : A -> M B) : makes P m -> (forall a, makes P (f a)) -> makes P (sm_bind m f).
Proof. intros Hm Hf. apply makes_then; auto. Qed.

Lemma makes_lift_ok {A B} P (r : result A) (f : A -> M B) : (forall a, r = Ok a -> makes P (f a)) -> makes P (sm_bind (sm_lift r) f).
Proof. intros H. apply makes_then; [apply makes_lift|]. intros a s s' E. apply H. by injection E. Qed.

(** A private key is one that libsodium made, and not any 64 bytes that were typed. *)
Definition proper_key (sk : option (list Z)) : Prop := match sk with Some sk => secret_key sk | None => True end.

(** The calls that the shell makes: only values and peers of the own node are stored and announced that are valid when
    their private key is a proper one, and the lookup options are at most 2. *)
Definition good_call (c : NodeCall) : Prop :=
  match c with
  | Call_storeValue v _ => proper_key (v_privateKey v) -> Value.isValid v = true
  | Call_announcePeer p _ => (proper_key (p_privateKey p) -> PeerInfo.isValid p = true) /\ (node_getId <> MIN_ID -> p_origin p = node_getId)
  | Call_findNode _ o | Call_findValue _ o | Call_findPeer _ _ o => o <= 2
  | Call_storedPeers _ max => max = 0
  | _ => True
  end.

Lemma signed_valid sk r n q d v : Value.Value_signed sk r n q d = Ok v -> proper_key (v_privateKey v) -> Value.isValid v = true.
Proof. intros H. apply Value.value_signed_inv in H as (_ & H & _ & _ & -> & _). exact H. Qed.

Lemma created_valid d v : Value.createValue d = Ok v -> proper_key (v_privateKey v) -> Value.isValid v = true.
Proof. unfold Value.createValue, Value.Value_of. simpl. case_bool_decide; [done|]. intros [= <-] _. unfold Value.isValid. simpl. by rewrite bool_decide_eq_false_2. Qed.

Lemma updated_valid d v v' : Value.update d v = Ok v' -> proper_key (v_privateKey v') -> Value.isValid v' = true.
Proof. unfold Value.update. destruct (negb _); [done|]. destruct (v_privateKey v); [|done]. apply signed_valid. Qed.

Lemma makes_stored v p : (proper_key (v_privateKey v) -> Value.isValid v = true) -> makes good_call (stored v p).
Proof. intros H. apply makes_bind; [by apply makes_call|]. intros _. apply makes_bind; [apply makes_print|]. intros _. apply makes_ret. Qed.

Lemma makes_end P o : makes P (print o;~ finish).
Proof. apply makes_bind; [apply makes_print|]. intros _. apply makes_ret. Qed.

Lemma makes_try_id str shown k : (forall i, makes good_call (k i)) -> makes good_call (try_id str shown k).
Proof. intros H. unfold try_id. destruct (id_of str) as [i|[]]; first [apply H|apply makes_lift|apply makes_end]. Qed.

Lemma makes_print_all P l : makes P (print_all l).
Proof. induction l as [|o l IH]; [apply makes_ret|]. apply makes_bind; [apply makes_print|done]. Qed.

Lemma makes_show {A} P (f : A -> Out) l none : makes P (show f l none).
Proof.
  apply makes_bind; [|intros _; apply makes_ret]. destruct l; [apply makes_print|apply makes_print_all].
Qed.

Lemma makes_total {A} P (f : A -> Out) l none : makes P (total f l none).
Proof.
  unfold total. destruct l; [apply makes_end|]. apply makes_bind; [apply makes_print_all|]. intros _. apply makes_end.
Qed.

Lemma makes_mode mode (k : M CommandEnd) : (mode <= 2 -> makes good_call k) -> makes good_call (check_mode mode k).
Proof. intros H. unfold check_mode. destruct (Z.ltb_spec 2 mode); [apply makes_end|by apply H]. Qed.

Lemma makes_store_new m : makes good_call (store_new m).
Proof.
  unfold store_new. apply makes_bind; [apply makes_get|]. intros s. destruct (bMutable m); [case_bool_decide|].
  - apply makes_lift_ok. intros v Hv. eapply makes_stored, signed_valid, Hv.
  - apply makes_try_id. intros r. apply makes_lift_ok. intros v Hv. eapply makes_stored, signed_valid, Hv.
  - apply makes_lift_ok. intros v Hv. eapply makes_stored, created_valid, Hv.
Qed.

Lemma makes_store_update m : makes good_call (store_update m).
Proof.
  apply makes_try_id. intros i s. destruct (makes_call good_call (Call_getValue i) (fun l => ans_getValue l i) I s) as (l & El & Hl).
  destruct (call (Call_getValue i) _ s) as [r s1]. cbn [snd] in El.
  assert (forall m : M CommandEnd, makes good_call m -> exists l, sh_calls (snd (m s1)) = sh_calls s ++ l /\ Forall good_call l) as Hgo.
  { intros k Hk. destruct (Hk s1) as (l' & El' & Hl'). exists (l ++ l'). rewrite El', El, app_assoc. split; [done|by apply Forall_app]. }
  destruct r as [[v|]|e]; [|by exists l|].
  - destruct (Value.update (st_text m) v) as [v'|e] eqn:Eu; [apply Hgo; eapply makes_stored, updated_valid, Eu|].
    apply Hgo. destruct (is_runtime_error e); [apply makes_end|apply makes_lift].
  - destruct e; first [apply (Hgo (print _;~ finish)), makes_end|by exists l].
Qed.

Lemma execute_good c : makes good_call (execute c).
Proof.
  assert (forall A (k : Shell -> M A), (forall s, makes good_call (k s)) -> makes good_call (sm_bind get k)) as Hget
    by (intros; by apply makes_bind; [apply makes_get|]).
  assert (forall A B (r : result A) (k : A -> M B), (forall a, makes good_call (k a)) -> makes good_call (sm_bind (sm_lift r) k)) as Hlift
    by (intros; by apply makes_bind; [apply makes_lift|]).
  destruct c; cbn [execute]; try apply makes_end;
    unfold exec_announcepeer, exec_bootstrap, exec_findnode, exec_findpeer, exec_storevalue, exec_findvalue, exec_value, exec_peer, exec_listvalue, exec_listpeer.
  - apply Hget. intros s. apply makes_bind; [case_bool_decide; [apply makes_ret|do 2 (apply Hlift; intros ?); apply makes_ret]|]. intros sk.
    apply makes_bind; [case_bool_decide; [apply makes_ret|apply makes_lift]|]. intros n. destruct (_ <=? 0); [apply makes_end|].
    apply makes_lift_ok. intros p Hp. apply makes_bind; [|intros _; apply makes_end]. apply makes_call.
    destruct (PeerInfo.create_valid _ _ _ _ _ _ Hp) as (Hv & _ & Hsk & Ho). split; [by rewrite Hsk|]. intros Hne. by rewrite Ho, bool_decide_eq_false_2.
  - apply Hget. intros s. destruct (_ <=? 0); [apply makes_end|]. do 2 (apply Hlift; intros ?).
    apply makes_bind; [by apply makes_call|]. intros _. apply makes_ret.
  - apply Hget. intros s. apply makes_mode. intros Hm. apply Hlift. intros i. apply makes_bind; [by apply makes_call|]. intros r. apply makes_show.
  - apply Hget. intros s. apply makes_mode. intros Hm. apply Hlift. intros i. apply makes_bind; [by apply makes_call|]. intros r. apply makes_show.
  - apply makes_bind; [apply makes_members|]. intros _. apply Hget. intros s. case_bool_decide; [apply makes_store_new|apply makes_store_update].
  - apply Hget. intros s. apply makes_mode. intros Hm. apply Hlift. intros i. apply makes_bind; [by apply makes_call|]. intros r. apply makes_show.
  - apply Hget. intros s. apply Hlift. intros i. apply makes_bind; [by apply makes_call|]. intros r. apply makes_show.
  - apply Hget. intros s. apply Hlift. intros i. apply makes_bind; [by apply makes_call|]. intros r. apply makes_total.
  - apply makes_bind; [by apply makes_call|]. intros r. apply makes_total.
  - apply makes_bind; [by apply makes_call|]. intros r. apply makes_total.
  - apply makes_bind; [by apply makes_call|]. intros _. apply makes_ret.
Qed.

Lemma execute_all_good l : makes good_call (execute_all l).
Proof.
  induction l as [|c l IH]; [apply makes_ret|]. apply makes_bind; [apply execute_good|]. intros [|rc]; [done|apply makes_ret].
Qed.

Lemma run_good p : makes good_call (run p).
Proof. destruct p as [given|given]; (apply makes_bind; [apply makes_members|]); intros _; [apply makes_end|apply execute_all_good]. Qed.

(** A line with one command. *)
Lemma run_one c given s : run (Cli_commands [(c, given)]) s = (set_members (assign c given);~ execute c) s.
Proof. unfold run, sm_bind, set_members, sm_modify, assign_all. cbn. unfold sm_bind. by destruct (execute c _) as [[[]|] ?]. Qed.

End lemmas.

(** ** Theorems *)

Section theorems.
Context {sodium : Sodium} {sodiumHex : SodiumHex} {netdb : NetDb} {cli : Cli} {shellNode : ShellNode}.

Lemma skip_while_split f l : exists a, l = a ++ skip_while f l /\ Forall (fun c => f c = true) a /\ (forall c r, skip_while f l = c :: r -> f c = false).
Proof.
  induction l as [|x l (a & E & Ha & Hh)]; simpl; [by exists []|]. destruct (f x) eqn:Ef; [|exists []; split_and!; [done..|]; by intros c r [= <- _]].
  exists (x :: a). simpl. split; [by f_equal|]. split; [by constructor|done].
Qed.

(** [trim] takes the spaces from both ends of a line and nothing else: what is left is a part of the line
    between spaces, which is empty or begins and ends with another character. *)
Theorem shell_trim_spec str :
  exists a b, c_string str = a ++ trim str ++ b /\ Forall (fun c => isspace c = true) a /\ Forall (fun c => isspace c = true) b /\
    (forall c r, trim str = c :: r -> isspace c = false) /\ (forall c r, trim str = r ++ [c] -> isspace c = false).
Proof.
  destruct (skip_while_split isspace (c_string str)) as (a & E & Ha & Hh). unfold trim, drop_spaces in *.
  destruct (skip_while isspace (c_string str)) as [|c s].
  { exists a, []. rewrite E. split_and!; [done..| |]; intros c r H; [done|by apply app_cons_not_nil in H]. }
  destruct (skip_while_split isspace (reverse s)) as (b & Eb & Hb & Hhb). set (t := skip_while isspace (reverse s)) in *.
  exists a, (reverse b). assert (s = reverse t ++ reverse b) as Es by (rewrite <- reverse_app, <- Eb; by rewrite reverse_involutive).
  split; [rewrite E, Es at 1; by rewrite app_comm_cons|]. split; [done|]. split; [by apply Forall_reverse|]. split; [intros x r [= <- _]; by eapply Hh|].
  intros x r H. destruct t as [|y t]; [destruct r as [|z r]; [injection H as <-; by eapply Hh|by destruct r]|].
  rewrite reverse_cons, app_comm_cons in H. apply app_inj_tail in H as [_ <-]. by eapply Hhb.
Qed.

(** C36: Whatever is typed and whatever the node answers, the shell asks the node only to
    store values and to announce peers that are valid, or were signed with a private key
    that libsodium did not make (64 bytes can be typed as a key); the peers have the node as
    their origin, unless its id is zero; and it asks for no lookup option above 2. *)
Theorem session_calls lines s :
  Forall good_call (sh_calls s) -> Forall good_call (sh_calls (snd (loop lines s))).
Proof.
  revert s. induction lines as [|line lines IH]; intros s Hs; [done|]. cbn [loop]. destruct (trim line) as [|c cmd]; [by apply IH|].
  destruct (run_good (cli_parse (c :: cmd)) s) as (l & El & Hl). unfold process.
  destruct (run (cli_parse (c :: cmd)) s) as [r s1]. cbn [snd] in El.
  assert (Forall good_call (sh_calls s1)) as H1 by (rewrite El; by apply Forall_app).
  by destruct r as [[]|e]; [apply IH| |].
Qed.

(** The options of [bootstrap] are all required, so that the command does not depend on the lines before. *)
Theorem bootstrap_fresh line l given m m' :
  cli_parse line = Cli_commands l -> (C_bootstrap, given) ∈ l ->
  bootstrapCommand (assign C_bootstrap given m) = bootstrapCommand (assign C_bootstrap given m').
Proof.
  intros H Hin. apply (cli_valid _ _ _ _ H) in Hin as (Ho & Hn & Hl). simpl in Hl.
  destruct given as [|g1 [|g2 [|g3 [|g4 given]]]]; simpl in Hl; try lia.
  assert (forall g, option_name g ∈ options C_bootstrap -> (exists i, g = G_ID i) \/ (exists i, g = G_ADDRESS i) \/ (exists z, g = G_PORT z)) as Hg.
  { intros g Hg. destruct g; try (exfalso; clear -Hg; by vm_compute in Hg; repeat (inversion Hg; clear Hg; subst; rename select (_ ∈ _) into Hg)); eauto. }
  rewrite !Forall_cons in Ho. destruct Ho as (H1%Hg & H2%Hg & H3%Hg & _). destruct m as [? ? ? ? ? [] ? ?], m' as [? ? ? ? ? [] ? ?].
  rewrite !fmap_cons, !NoDup_cons in Hn. destruct Hn as (N1 & N2 & _).
  destruct H1 as [[? ->]|[[? ->]|[? ->]]], H2 as [[? ->]|[[? ->]|[? ->]]], H3 as [[? ->]|[[? ->]|[? ->]]]; simpl in N1, N2; try done;
    exfalso; first [apply N1; by constructor|apply N1; by do 2 constructor|apply N2; by constructor].
Qed.

(** The other commands keep the options of earlier lines.  When a line has given a recipient, a later
    [storevalue] without one, which should store an immutable value, stores a value that is encrypted
    for that recipient. *)
Theorem stale_recipient s rec i old text p b :
  storeValueCommand (sh_members s) = MkStoreMembers p b rec [] old -> rec <> [] -> id_of rec = Ok i -> text <> [] ->
  exists v s', run (Cli_commands [(C_storevalue, [G_values text])]) s = (_ <-! ans_storeValue (sh_calls s) v p; Ok Returns, s') /\
    sh_calls s' = sh_calls s ++ [Call_storeValue v p] /\ v_recipient v = Some i /\ Value.isMutable v = true.
Proof.
  destruct s as [[st fv fn fp an bs vc pc] calls out]. cbn [sh_members storeValueCommand]. intros -> Hr Hi Ht.
  destruct (Value.createEncryptedValue (random_key calls) i (random_nonce calls) 0 text) as [v|] eqn:Ev.
  2: { unfold Value.createEncryptedValue, Value.Value_signed in Ev. simpl in Ev. by rewrite bool_decide_eq_false_2 in Ev. }
  pose proof (Value.value_signed_inv _ _ _ _ _ _ Ev) as (_ & _ & H3 & H4 & _).
  exists v. rewrite run_one. unfold set_members, exec_storevalue, store_new, try_id, sm_bind, sm_modify, sm_ret, sm_lift, get.
  cbn [execute assign foldl set_store sh_members sh_calls sh_out]. unfold exec_storevalue, sm_bind, set_members, sm_modify, get, update_store.
  cbn [sh_members sh_calls sh_out storeValueCommand recipient st_target st_text st_persistent]. rewrite (bool_decide_eq_false_2 (rec = [])) by done.
  cbn [sh_members storeValueCommand st_target]. rewrite (bool_decide_eq_true_2 ([] = [])) by done.
  unfold store_new, sm_bind, get. cbn [sh_calls bMutable recipient st_text st_persistent]. rewrite (bool_decide_eq_false_2 (rec = [])) by done.
  unfold try_id. rewrite Hi. unfold sm_bind, sm_lift. rewrite Ev. unfold stored, sm_bind, call, print, sm_modify, finish, sm_ret.
  cbn [sh_calls sh_members sh_out]. destruct (ans_storeValue calls v p); eexists; (split; [reflexivity|]); (split; [done|]); (split; [done|]);
    unfold Value.isMutable; by rewrite H3, bool_decide_eq_true_2.
Qed.

(** An id that cannot be read ends the shell: nothing catches the exception, and the node is not stopped. *)
Theorem bad_id_ends_shell s str :
  id_of str = Throw Out_of_range -> forall c, c ∈ [C_findnode; C_findvalue; C_findpeer; C_value; C_peer] ->
  f_mode (findNodeCommand (sh_members s)) <= 2 -> f_mode (findValueCommand (sh_members s)) <= 2 -> f_mode (findPeerCommand (sh_members s)) <= 2 ->
  exists s', run (Cli_commands [(c, [G_ID str])]) s = (Throw Out_of_range, s') /\ sh_calls s' = sh_calls s /\ sh_out s' = sh_out s.
Proof.
  intros Hi c Hc H1 H2 H3. destruct s as [[st fv fn fp an bs vc pc] calls out]. cbn [sh_members findNodeCommand findValueCommand findPeerCommand] in *.
  apply Z.ltb_ge in H1, H2, H3. destruct fv, fn, fp. cbn [f_mode] in *.
  rewrite !elem_of_cons in Hc. destruct Hc as [->|[->|[->|[->|[->|Hc]]]]]; [..|by apply elem_of_nil in Hc];
    (eexists; split; [rewrite run_one; unfold sm_bind, set_members, sm_modify; cbn [execute assign foldl set_find set_id];
    unfold exec_findnode, exec_findvalue, exec_findpeer, exec_value, exec_peer, sm_bind, get, check_mode, sm_lift;
    cbn [sh_members assign foldl set_find set_id findNodeCommand findValueCommand findPeerCommand valueCommand peerCommand f_mode f_id]; rewrite ?H1, ?H2, ?H3; unfold sm_bind; rewrite Hi; reflexivity|done]).
Qed.

(** [storevalue -u] of a value that the node does not have dereferences a null pointer. *)
Theorem update_missing_value s str i text p :
  storeValueCommand (sh_members s) = MkStoreMembers p false [] [] [] -> id_of str = Ok i -> str <> [] -> ans_getValue (sh_calls s) i = Ok None ->
  fst (run (Cli_commands [(C_storevalue, [G_update str; G_values text])]) s) = Throw Undefined_behaviour.
Proof.
  destruct s as [[st fv fn fp an bs vc pc] calls out]. cbn [sh_members storeValueCommand sh_calls]. intros -> Hi Hs Hg.
  rewrite run_one. unfold set_members, sm_bind, sm_modify. cbn [execute assign foldl set_store sh_members sh_calls sh_out].
  unfold exec_storevalue, sm_bind, set_members, sm_modify, get, update_store.
  cbn [sh_members sh_calls sh_out storeValueCommand recipient st_target st_text st_persistent]. rewrite (bool_decide_eq_true_2 ([] = [])) by done.
  cbn [sh_members storeValueCommand st_target]. rewrite (bool_decide_eq_false_2 (str = [])) by done.
  unfold store_update, try_id. cbn [st_target]. rewrite Hi. unfold call. cbn [sh_calls]. by rewrite Hg.
Qed.
End theorems.

Section lock.
Context {netdb : NetDb} {sodiumHex : SodiumHex} {nlohmann : Nlohmann} {system : System}.
Context {sodium : Sodium} {sodiumBox : SodiumBox} {host : Host}.

(** Unlike the launcher, the shell makes the node before it takes the lock: a second shell in the same directory,
    which ends because it does not get the lock, has written the id file of the first. *)
Theorem node_before_lock o acquire member random fs config b n fs' :
  configure o Configuration.Builder_new = (Ok config, b) -> cf_storagePath config <> [] ->
  fst (NodeFiles.checkPersistence (cf_storagePath config) fs) = Ok true ->
  NodeFiles.Node_new config member random fs = (Ok n, fs') -> acquire (Launcher.lock_path config) = false ->
  open_node o acquire member random fs = (Throw Runtime_error, fs') /\
  exists data, fs' !! NodeFiles.id_path (cf_storagePath config) = Some (Fs_file data).
Proof.
  intros Hc Hp Hd Hn Ha. split; [unfold open_node, sm_bind, sm_lift; rewrite Hc; cbn [fst]; by rewrite Hn, Ha|].
  revert Hn. unfold NodeFiles.Node_new, sm_bind, sm_lift. destruct (_ && _); [done|]. rewrite (bool_decide_eq_false_2 (cf_storagePath config = [])) by done.
  destruct (NodeFiles.checkPersistence _ fs) as [r fs1]. simpl in Hd. subst r. destruct (NodeFiles.node_key _ _ _ _ fs1) as [[kp|] fs2]; [|done].
  destruct (Id_of_blob _) as [i|]; [|done]. destruct (NodeFiles.writeIdFile _ i fs2) as [[[]|] fs3] eqn:Ew; [|done]. intros [= _ <-].
  apply NodeFiles.writeIdFile_spec in Ew as (data & -> & _). exists data. apply lookup_insert_eq.
Qed.
End lock.
End Shell.

(** ** Witnesses *)

Section examples.
#[local] Existing Instances toy_sodium toy_box toy_host toy_json hex toy_system.

(** A parser that knows the line [s], which stores the value [hi], and takes every other line for one which stores it for the recipient with the id zero. *)
Definition toy_given (line : list Z) : list Given :=
  if bool_decide (line = [115]) then [G_values (chars "hi")] else [G_recipient (replicate 32 49); G_values (chars "hi")].

#[local, refine] Instance toy_cli : Shell.Cli := { Shell.cli_parse line := Cli_commands [(C_storevalue, toy_given line)] }.
Proof.
  intros line l c given [= <-] [= -> ->]%list_elem_of_singleton. unfold toy_given.
  case_bool_decide; (split; [apply (bool_decide_unpack _); vm_compute; exact I|]); (split; [apply (bool_decide_unpack _); vm_compute; exact I|]); simpl; lia.
Defined.

(** A node that has nothing and whose operations succeed. *)
#[local] Instance toy_node : ShellNode := {
  node_getId := zero;
  ans_findNode _ _ _ := Ok []; ans_findValue _ _ _ := Ok None; ans_findPeer _ _ _ _ := Ok [];
  ans_storeValue _ _ _ := Ok (); ans_announcePeer _ _ _ := Ok (); ans_bootstrap _ _ := Ok ();
  ans_getValue _ _ := Ok None; ans_storedValue _ _ := Ok None; ans_storedPeers _ _ _ := Ok [];
  ans_allValues _ := []; ans_allPeers _ := []; random_key _ := kp_sk key_pair0; random_nonce _ := []
}.

Definition shell0 : Shell := MkShell Shell.members0 [] [].

(** Two lines with spaces around them: two calls, and both are in order. *)
Lemma session_calls_witness :
  let s := snd (@Shell.loop _ _ (toy_netdb []) _ _ [[32; 115; 32]; [32; 9]; [115]] shell0) in length (sh_calls s) = 2%nat /\ Forall Shell.good_call (sh_calls s).
Proof. split; [vm_compute; reflexivity|]. apply (@Shell.session_calls _ _ (toy_netdb []) _ _). constructor. Defined.

(** The value of the second line is encrypted, since the line before it had a recipient. *)
Lemma stale_recipient_session :
  exists v w, sh_calls (snd (@Shell.loop _ _ (toy_netdb []) _ _ [[117]; [115]] shell0)) = [Call_storeValue v false; Call_storeValue w false] /\
    v_recipient w = Some zero /\ v_recipient v = Some zero.
Proof. do 2 eexists. split; [vm_compute; reflexivity|split; vm_compute; reflexivity]. Qed.
End examples.
