(* ===== verification/Dht.v ===== *)
(** * The DHT: message handling of [DHT] of [src/core/dht.cc]

    [onMessage] dispatches a message to its handler and then lets [received]
    learn from its sender.  The handlers use the tokens, the storage and the
    routing table; what they send is the list of their effects, in order.  The
    DHT of the other address family, which [populateClosestNodes] may ask, is a
    parameter that is missing on a node with one family. *)

From S2P Require Import Prelude Constants Ids Prefixes Addresses Entries KBuckets RoutingTables KClosest Candidates Tokens RpcServer Values Lookups Storage.

(** What a request asks for.  [StoreValue] has the result of [getValue],
    [AnnouncePeer] that of [getPeer]. *)
Inductive Request :=
  | PingRequest
  | FindNodeRequest (target : Id) (want4 want6 wantToken : bool)
  | FindValueRequest (target : Id) (want4 want6 : bool) (seq : Z)
  | StoreValueRequest (value : result Value) (token expectedSeq : Z)
  | FindPeerRequest (target : Id) (want4 want6 : bool)
  | AnnouncePeerRequest (target : Id) (peer : result PeerInfo) (token : Z)
  | UnknownRequest.

(** What [received] reads of the call that a response belongs to. *)
Record CallInfo := MkCallInfo { matchesAddress : bool; matchesId : bool; ci_sentTime : Z }.

Record DhtMessage := MkDhtMessage {
  dm_type : MsgType;
  dm_txid : Z;
  dm_id : Id;
  dm_origin : SocketAddress;
  dm_version : Z;
  dm_request : Request;
  dm_call : option CallInfo
}.

Record Reply := MkReply {
  rp_method : Method;
  rp_txid : Z;
  rp_to : Id;
  rp_addr : SocketAddress;
  rp_nodes4 : list KNode;
  rp_nodes6 : list KNode;
  rp_token : Z;
  rp_value : option Value;
  rp_peers : list PeerInfo
}.

Inductive DhtEffect :=
  | Ev_reply (r : Reply)
  | Ev_error (txid : Z) (to : SocketAddress)
  | Ev_ping (e : SpE)
  | Ev_pingTask (t : PingRefreshTask).

(** How a handler ends: it returns, an exception leaves it, or it dereferences
    the null pointer of a DHT that is not there. *)
Inductive outcome (A : Type) := Done (a : A) | Thrown (e : error) | NullDereference.
Arguments Done {A} a.
Arguments Thrown {A} e.
Arguments NullDereference {A}.

Definition outcome_bind {A B} (x : outcome A) (f : A -> outcome B) : outcome B :=
  match x with Done a => f a | Thrown e => Thrown e | NullDereference => NullDereference end.

Definition of_result {A} (x : result A) : outcome A := match x with Ok a => Done a | Throw e => Thrown e end.

Record DHT := MkDHT {
  d_type : DHT_Type;
  d_self : NodeInfo;
  running : bool;
  routingTable : RoutingTable;
  knownNodes : list (SocketAddress * Id);   (* a [std::map] *)
  tokenManager : TokenManager;
  storage : SqliteStorage
}.

Module DHT.

Section dht.
Context {sodium : Sodium}.
Variables (development : bool) (bootstrapNodes : list NodeInfo) (random_order : list (PeerKey * PeerRow) -> list (PeerKey * PeerRow)).
(** The type, own node and table of the DHT of the other family. *)
Variable other : option (NodeInfo * RoutingTable).
Implicit Types (d : DHT) (m : DhtMessage).

(** ** Definitions *)

Definition set_table d (rt : RoutingTable) : DHT :=
  MkDHT (d_type d) (d_self d) (running d) rt (knownNodes d) (tokenManager d) (storage d).
Definition set_known d (l : list (SocketAddress * Id)) : DHT :=
  MkDHT (d_type d) (d_self d) (running d) (routingTable d) l (tokenManager d) (storage d).
Definition set_tokens d (tm : TokenManager) : DHT :=
  MkDHT (d_type d) (d_self d) (running d) (routingTable d) (knownNodes d) tm (storage d).
Definition set_storage d (st : SqliteStorage) : DHT :=
  MkDHT (d_type d) (d_self d) (running d) (routingTable d) (knownNodes d) (tokenManager d) st.

Definition isSelfId d (id : Id) : bool := bool_decide (nodeId (d_self d) = id).
Definition isSelfAddress d (addr : SocketAddress) : bool := sa_eqb (sockaddr (d_self d)) addr.

(** The test of [received] and [onAnnouncePeer].  The predicates throw only for an address
    without a family ([bogon_defined]); the origin of a message comes from [recvfrom] and has
    one. *)
Definition bogon (addr : SocketAddress) : bool :=
  if development then negb (default false (isAnyUnicast addr)) else default true (isBogon addr).

Lemma bogon_defined (addr : SocketAddress) : sa_empty addr = false -> is_Some (isAnyUnicast addr) /\ is_Some (isBogon addr).
Proof.
  intros Ha. assert (forall x y : option bool, is_Some x -> is_Some y -> is_Some (or_throw x y)) as Hor by (intros [[]|] [[]|]; eauto).
  assert (is_Some (isSiteLocal addr)) as Hs by (destruct addr; [done|by eexists..]).
  assert (is_Some (isGlobalUnicast addr)) as Hg.
  { apply fmap_is_Some. repeat apply Hor; destruct addr; first [done|by eexists]. }
  split; [by apply Hor|]. unfold isBogon. destruct (_ && _); [by apply fmap_is_Some|by eexists].
Qed.

Definition known_find (addr : SocketAddress) (l : list (SocketAddress * Id)) : option Id :=
  snd <$> List.find (fun kv => sa_eqb (fst kv) addr) l.
Definition known_erase (addr : SocketAddress) (l : list (SocketAddress * Id)) : list (SocketAddress * Id) :=
  filter (fun kv => sa_eqb (fst kv) addr = false) l.
Definition known_set (addr : SocketAddress) (id : Id) (l : list (SocketAddress * Id)) : list (SocketAddress * Id) :=
  (addr, id) :: known_erase addr l.

(** The end of [received]: the new entry, a ping to verify an unknown sender,
    and the put.  [p] is the address of the new object. *)
Definition add_sender (now : Z) (p : positive) m (old : option SpE) d : option (DHT * list DhtEffect) :=
  let d := set_known d (known_set (dm_origin m) (dm_id m) (knownNodes d)) in
  let e := KBucketEntry_new now (dm_id m) (dm_origin m) (dm_version m) in
  let '(e, ev) := match dm_call m with
    | Some c => (mergeRequestTime (ci_sentTime c) (signalResponse now e), [])
    | None => (e, match old with None => [Ev_ping (MkSp p e)] | Some _ => [] end)
    end in
  rt ← RoutingTable._put (nodeId (d_self d)) now (MkSp p e) (routingTable d);
  Some (set_table d rt, ev).

(** [DHT::received]; the table operations have results when it is well formed. *)
Definition received (now : Z) (p : positive) m d : option (DHT * list DhtEffect) :=
  let addr := dm_origin m in
  let id := dm_id m in
  if bogon addr then Some (d, []) else
  if match dm_call m with Some c => negb (matchesAddress c) || negb (matchesId c) | None => false end then Some (d, []) else
  old ← RoutingTable.getEntry (routingTable d) id;
  if match old with Some e => negb (sa_eqb (eaddr e) addr) | None => false end then Some (d, []) else
  match known_find addr (knownNodes d) with
  | Some knownId =>
      if bool_decide (knownId = id) then add_sender now p m old d else
      knownEntry ← RoutingTable.getEntry (routingTable d) knownId;
      match knownEntry with
      | Some _ =>
          rt ← RoutingTable._remove now knownId (routingTable d);
          bucket ← RoutingTable.getBucket rt knownId;
          let '(rt, task) := RoutingTable.tryPingMaintenance now bucket [checkAll_opt] rt in
          Some (set_known (set_table d rt) (known_set addr id (knownNodes d)),
                match task with Some t => [Ev_pingTask t] | None => [] end)
      | None => add_sender now p m old (set_known d (known_erase addr (knownNodes d)))
      end
  | None => add_sender now p m old d
  end.

(** [DHT::populateClosestNodes], for one family. *)
Definition closest_of (family : DHT_Type) (target : Id) (want : bool) d : outcome (list KNode) :=
  if want then
    let own := bool_decide (d_type d = family) in
    match (if own then Some (d_self d, routingTable d) else other) with
    | None => NullDereference
    | Some (self, rt) =>
        match fill family bootstrapNodes self target Constants.MAX_ENTRIES_PER_BUCKET
                (fun e => isEligibleForNodesList (obj e)) own rt with
        | Some nodes => Done nodes
        | None => Done []
        end
    end
  else Done [].

Definition populateClosestNodes (target : Id) (want4 want6 : bool) d : outcome (list KNode * list KNode) :=
  outcome_bind (closest_of DHT_IPV4 target want4 d) (fun n4 =>
  outcome_bind (closest_of DHT_IPV6 target want6 d) (fun n6 => Done (n4, n6))).

Definition reply (method : Method) m (nodes : list KNode * list KNode) (token : Z) (v : option Value) (ps : list PeerInfo) : DhtEffect :=
  Ev_reply (MkReply method (dm_txid m) (dm_id m) (dm_origin m) (fst nodes) (snd nodes) token v ps).

Definition onPing m d : outcome (DHT * list DhtEffect) := Done (d, [reply PING m ([], []) 0 None []]).

Definition onFindNode (now : Z) m (target : Id) (want4 want6 wantToken : bool) d : outcome (DHT * list DhtEffect) :=
  outcome_bind (populateClosestNodes target want4 want6 d) (fun nodes =>
  let '(token, tm) := if wantToken then generateToken sha256 now (dm_id m) (dm_origin m) target (tokenManager d) else (0, tokenManager d) in
  Done (set_tokens d tm, [reply FIND_NODE m nodes token None []])).

(** The token is made for the own id. *)
Definition onFindValue (now : Z) m (target : Id) (want4 want6 : bool) (seq : Z) d : outcome (DHT * list DhtEffect) :=
  let '(token, tm) := generateToken sha256 now (dm_id m) (dm_origin m) (nodeId (d_self d)) (tokenManager d) in
  let d := set_tokens d tm in
  outcome_bind (of_result (SqliteStorage.getValue now target (storage d))) (fun value =>
  let sent := match value with
    | Some v => if (seq <? 0) || (sequenceNumber v <? 0) || (seq <=? sequenceNumber v) then Some v else None
    | None => None
    end in
  match sent with
  | Some v => Done (d, [reply FIND_VALUE m ([], []) token (Some v) []])
  | None => outcome_bind (populateClosestNodes target want4 want6 d) (fun nodes => Done (d, [reply FIND_VALUE m nodes token None []]))
  end).

Definition onStoreValue (now : Z) m (value : result Value) (token expectedSeq : Z) d : outcome (DHT * list DhtEffect) :=
  outcome_bind (of_result value) (fun v =>
  let '(valid, tm) := verifyToken sha256 now token (dm_id m) (dm_origin m) (Value.getId v) (tokenManager d) in
  let d := set_tokens d tm in
  if negb valid then Done (d, [Ev_error (dm_txid m) (dm_origin m)])
  else if negb (Value.isValid v) then Done (d, [Ev_error (dm_txid m) (dm_origin m)])
  else match SqliteStorage.putValue now v expectedSeq false false (storage d) with
  | (Throw e, _) => Thrown e
  | (Ok _, st) => Done (set_storage d st, [reply STORE_VALUE m ([], []) 0 None []])
  end).

Definition onFindPeers (now : Z) m (target : Id) (want4 want6 : bool) d : outcome (DHT * list DhtEffect) :=
  let '(token, tm) := generateToken sha256 now (dm_id m) (dm_origin m) target (tokenManager d) in
  let d := set_tokens d tm in
  outcome_bind (of_result (SqliteStorage.getPeers random_order now target 8 (storage d))) (fun ps =>
  match ps with
  | [] => outcome_bind (populateClosestNodes target want4 want6 d) (fun nodes => Done (d, [reply FIND_PEER m nodes token None []]))
  | _ => Done (d, [reply FIND_PEER m ([], []) token None ps])
  end).

Definition onAnnouncePeer (now : Z) m (target : Id) (peer : result PeerInfo) (token : Z) d : outcome (DHT * list DhtEffect) :=
  if bogon (dm_origin m) then Done (d, []) else
  let '(valid, tm) := verifyToken sha256 now token (dm_id m) (dm_origin m) target (tokenManager d) in
  let d := set_tokens d tm in
  if negb valid then Done (d, [Ev_error (dm_txid m) (dm_origin m)])
  else outcome_bind (of_result peer) (fun p =>
    Done (set_storage d (SqliteStorage.putPeer now p false false (storage d)), [reply ANNOUNCE_PEER m ([], []) 0 None []])).

Definition onRequest (now : Z) m d : outcome (DHT * list DhtEffect) :=
  match dm_request m with
  | PingRequest => onPing m d
  | FindNodeRequest target want4 want6 wantToken => onFindNode now m target want4 want6 wantToken d
  | FindValueRequest target want4 want6 seq => onFindValue now m target want4 want6 seq d
  | StoreValueRequest value token expectedSeq => onStoreValue now m value token expectedSeq d
  | FindPeerRequest target want4 want6 => onFindPeers now m target want4 want6 d
  | AnnouncePeerRequest target peer token => onAnnouncePeer now m target peer token d
  | UnknownRequest => Done (d, [Ev_error (dm_txid m) (dm_origin m)])
  end.

(** [DHT::onMessage] *)
Definition onMessage (now : Z) (p : positive) m d : outcome (option (DHT * list DhtEffect)) :=
  if negb (running d) then Done (Some (d, [])) else
  if isSelfId d (dm_id m) || isSelfAddress d (dm_origin m) then Done (Some (d, [])) else
  outcome_bind (match dm_type m with REQUEST => onRequest now m d | RESPONSE | ERR_MSG => Done (d, []) end) (fun r =>
  let '(d, ev) := r in
  Done (match received now p m d with Some (d, ev') => Some (d, ev ++ ev') | None => None end)).

(** [DHT::onTimeout] and [DHT::onSend], as the server calls them. *)
Definition onTimeout (now : Z) (serverReachable : bool) (targetId : Id) d : option DHT :=
  if negb (running d) || negb serverReachable then Some d
  else rt ← RoutingTable._onTimeout now targetId (routingTable d); Some (set_table d rt).

Definition onSend (now : Z) (id : Id) d : option DHT :=
  if negb (running d) then Some d
  else rt ← RoutingTable._onSend now id (routingTable d); Some (set_table d rt).

(** ** Lemmas *)

Lemma put_result_ids now n l l' x :
  KBucket.put_result now n l l' -> x ∈ l' -> eid x ∈ eid <$> l \/ eid x = eid n /\ reachable (obj n) = true.
Proof.
  intros Hp Hx.
  assert (forall y, y ∈ l -> eid y ∈ eid <$> l) as Hl by (intros y Hy; by apply list_elem_of_fmap_2).
  destruct Hp as [l1 e l2 -> _|e He _ _|_ _|l' _ Hr _ Hperm|l1 e l2 l' _ Hr -> Hperm _ _|_ _ _ _]; try (left; by apply Hl).
  - left. apply elem_of_app in Hx as [Hx|[->|Hx]%elem_of_cons]; [apply Hl; set_solver| |apply Hl; set_solver].
    assert (eid (MkSp (ptr e) (merge e n)) = eid e) as -> by (unfold eid, merge; simpl; by case_if). apply Hl. set_solver.
  - rewrite Hperm in Hx. apply elem_of_cons in Hx as [->|Hx]; [by right|left; by apply Hl].
  - rewrite Hperm in Hx. apply elem_of_cons in Hx as [->|Hx]; [by right|left; apply Hl; set_solver].
Qed.

(** The table after the sender has been put: its ids. *)
Lemma add_sender_table now p m old d :
  RoutingTable.table_ok (nodeId (d_self d)) (routingTable d) ->
  p ∉ ptr <$> RoutingTable.all_entries (buckets (routingTable d)) ->
  exists d' ev, add_sender now p m old d = Some (d', ev) /\ RoutingTable.table_ok (nodeId (d_self d)) (routingTable d') /\
    tokenManager d' = tokenManager d /\ storage d' = storage d /\ d_self d' = d_self d /\
    knownNodes d' = known_set (dm_origin m) (dm_id m) (knownNodes d) /\
    (forall x, x ∈ RoutingTable.all_entries (buckets (routingTable d')) ->
       eid x ∈ eid <$> RoutingTable.all_entries (buckets (routingTable d)) \/ eid x = dm_id m /\ is_Some (dm_call m)).
Proof.
  intros Hok Hp. unfold add_sender.
  set (e := match dm_call m with Some c => mergeRequestTime (ci_sentTime c) (signalResponse now (KBucketEntry_new now (dm_id m) (dm_origin m) (dm_version m))) | None => KBucketEntry_new now (dm_id m) (dm_origin m) (dm_version m) end).
  assert (exists ev, (match dm_call m with
      | Some c => (mergeRequestTime (ci_sentTime c) (signalResponse now (KBucketEntry_new now (dm_id m) (dm_origin m) (dm_version m))), [])
      | None => (KBucketEntry_new now (dm_id m) (dm_origin m) (dm_version m),
                 match old with None => [Ev_ping (MkSp p (KBucketEntry_new now (dm_id m) (dm_origin m) (dm_version m)))] | Some _ => [] end)
      end) = (e, ev)) as [ev ->] by (unfold e; destruct (dm_call m); by eexists).
  assert (eid (MkSp p e) = dm_id m /\ (reachable e = true -> is_Some (dm_call m))) as [Eid Er].
  { unfold e, eid. destruct (dm_call m); simpl; [|by split]. by split; [|eexists]. }
  destruct (RoutingTable.put_spec (nodeId (d_self d)) now (MkSp p e) (routingTable d) Hok Hp) as (rt' & es & rest & E & Hok' & P1 & P2 & P3 & _).
  change (routingTable (set_known d (known_set (dm_origin m) (dm_id m) (knownNodes d)))) with (routingTable d).
  change (d_self (set_known d (known_set (dm_origin m) (dm_id m) (knownNodes d)))) with (d_self d).
  rewrite E. simpl. eexists _, _. split; [reflexivity|]. split; [exact Hok'|]. split_and!; try done.
  intros x. simpl. rewrite P2. intros [Hx|Hx]%elem_of_app.
  - destruct (put_result_ids now (MkSp p e) es _ x P3 Hx) as [Hin|[E1 E2]].
    + left. rewrite P1, fmap_app. set_solver.
    + right. rewrite E1, Eid. split; [done|by apply Er].
  - left. rewrite P1, fmap_app. apply elem_of_app. right. by apply list_elem_of_fmap_2.
Qed.

(** The sender is allowed into the table: the message answers a call of ours, from
    the address and with the id that were called. *)
Definition answers_us m : Prop :=
  bogon (dm_origin m) = false /\ exists c, dm_call m = Some c /\ matchesAddress c = true /\ matchesId c = true.

(** The state after a message has been learned from. *)
Definition learned m d d' : Prop :=
  RoutingTable.table_ok (nodeId (d_self d)) (routingTable d') /\ tokenManager d' = tokenManager d /\ storage d' = storage d /\
  (forall x, x ∈ RoutingTable.all_entries (buckets (routingTable d')) ->
     eid x ∈ eid <$> RoutingTable.all_entries (buckets (routingTable d)) \/ eid x = dm_id m /\ answers_us m).

(** A reason to learn nothing from a message. *)
Definition ignored m d : Prop :=
  bogon (dm_origin m) = true \/ (exists c, dm_call m = Some c /\ matchesAddress c && matchesId c = false) \/
  (exists e, e ∈ RoutingTable.all_entries (buckets (routingTable d)) /\ eid e = dm_id m /\ eaddr e <> dm_origin m).

Lemma add_sender_learned now p m old d d0 :
  RoutingTable.table_ok (nodeId (d_self d)) (routingTable d) ->
  p ∉ ptr <$> RoutingTable.all_entries (buckets (routingTable d)) ->
  routingTable d0 = routingTable d -> d_self d0 = d_self d -> tokenManager d0 = tokenManager d -> storage d0 = storage d ->
  (is_Some (dm_call m) -> answers_us m) ->
  exists d' ev, add_sender now p m old d0 = Some (d', ev) /\ learned m d d'.
Proof.
  intros Hok Hp E1 E2 E3 E4 Ha.
  destruct (add_sender_table now p m old d0) as (d' & ev & E & H1 & H2 & H3 & H4 & H5 & H6); [by rewrite E1, E2|by rewrite E1|].
  exists d', ev. split; [done|]. rewrite E2 in H1. rewrite E1 in H6. split; [done|]. split; [congruence|]. split; [congruence|].
  intros x Hx. destruct (H6 x Hx) as [?|[Hx1 Hc]]; [by left|right]. split; [done|by apply Ha].
Qed.

(** The case that a known address comes with a new id. *)
Lemma id_change_learned now k m d :
  RoutingTable.table_ok (nodeId (d_self d)) (routingTable d) ->
  exists rt1 b rt2 t, RoutingTable._remove now k (routingTable d) = Some rt1 /\ RoutingTable.getBucket rt1 k = Some b /\
    RoutingTable.tryPingMaintenance now b [checkAll_opt] rt1 = (rt2, t) /\
    forall l, learned m d (set_known (set_table d rt2) l).
Proof.
  intros Hok. destruct (RoutingTable.remove_spec (nodeId (d_self d)) k now (routingTable d) Hok) as (rt1 & E1 & Hok1 & Hrm).
  destruct (RoutingTable.getEntry_spec (nodeId (d_self d)) k rt1 Hok1) as (b & _ & Eb & Hbin & _).
  destruct (RoutingTable.tryPingMaintenance now b [checkAll_opt] rt1) as [rt2 t] eqn:Et.
  destruct (RoutingTable.tryPing_frame (nodeId (d_self d)) now _ b rt1 rt2 t Hok1 Hbin Et) as [Hok2 Hent].
  exists rt1, b, rt2, t. split; [done|]. split; [done|]. split; [done|]. intros l. split; [exact Hok2|]. split; [done|]. split; [done|].
  intros x. simpl. rewrite Hent, Hrm. intros [_ Hx]%list_elem_of_filter. left. by apply list_elem_of_fmap_2.
Qed.

Lemma learned_refl m d : RoutingTable.table_ok (nodeId (d_self d)) (routingTable d) -> learned m d d.
Proof. intros Hok. split; [done|]. split; [done|]. split; [done|]. intros x Hx. left. by apply list_elem_of_fmap_2. Qed.

Lemma received_learned now p m d :
  RoutingTable.table_ok (nodeId (d_self d)) (routingTable d) ->
  p ∉ ptr <$> RoutingTable.all_entries (buckets (routingTable d)) ->
  exists d' ev, received now p m d = Some (d', ev) /\ learned m d d' /\ (ignored m d -> d' = d /\ ev = []).
Proof.
  intros Hok Hp. unfold received. pose proof (learned_refl m d Hok) as Hrefl.
  destruct (bogon (dm_origin m)) eqn:Eb; [by exists d, []|].
  destruct (match dm_call m with Some c => negb (matchesAddress c) || negb (matchesId c) | None => false end) eqn:Ec; [by exists d, []|].
  assert (is_Some (dm_call m) -> answers_us m) as Hcall.
  { intros [c Hc]. rewrite Hc in Ec. bool_to_prop. split; [done|]. by exists c. }
  destruct (RoutingTable.getEntry_spec (nodeId (d_self d)) (dm_id m) (routingTable d) Hok) as (_ & old & _ & _ & _ & _ & Eo & Ho).
  rewrite Eo. cbn [mbind option_bind].
  destruct (match old with Some e => negb (sa_eqb (eaddr e) (dm_origin m)) | None => false end) eqn:Ea; [by exists d, []|].
  assert (~ ignored m d) as Hno.
  { intros [H|[(c & Hc & H)|(e & He & Hi & Hx)]]; [congruence| |].
    - rewrite Hc in Ec. bool_to_prop. destruct H; congruence.
    - assert (old = Some e) as -> by (by apply Ho). unfold sa_eqb in Ea. bool_to_prop. done. }
  assert (forall d0, routingTable d0 = routingTable d -> d_self d0 = d_self d -> tokenManager d0 = tokenManager d -> storage d0 = storage d ->
    exists d' ev, add_sender now p m old d0 = Some (d', ev) /\ learned m d d' /\ (ignored m d -> d' = d /\ ev = [])) as Hadd.
  { intros d0 E1 E2 E3 E4. destruct (add_sender_learned now p m old d d0) as (d' & ev & ? & ?); try done. by exists d', ev. }
  destruct (known_find (dm_origin m) (knownNodes d)) as [k|]; [case_bool_decide as Ek|]; [by apply Hadd| |by apply Hadd].
  destruct (RoutingTable.getEntry_spec (nodeId (d_self d)) k (routingTable d) Hok) as (_ & ke & _ & _ & _ & _ & Eke & _).
  rewrite Eke. cbn [mbind option_bind]. destruct ke as [ke|]; [|by apply Hadd].
  destruct (id_change_learned now k m d Hok) as (rt1 & b & rt2 & t & -> & Eb' & Et & HL). cbn [mbind option_bind]. rewrite Eb'. cbn [mbind option_bind].
  rewrite Et. eexists _, _. split; [reflexivity|]. split; [apply HL|]. intros H. by destruct Hno.
Qed.

(** ** Theorems *)

(** C7: What a message does to the routing table.  [received] ends, keeps the
    table well formed and touches neither tokens nor storage.  The ids in the
    table afterwards were there before, or it is the sender, and then only
    because the message answers one of our calls from the address and with the
    id that were called: nobody gets into the table by sending requests.
    Messages from bogon addresses, answers that do not match their call, and
    senders that the table knows under another address change nothing. *)
Theorem received_table now p m d :
  RoutingTable.table_ok (nodeId (d_self d)) (routingTable d) ->
  p ∉ ptr <$> RoutingTable.all_entries (buckets (routingTable d)) ->
  exists d' ev, received now p m d = Some (d', ev) /\ RoutingTable.table_ok (nodeId (d_self d)) (routingTable d') /\
    tokenManager d' = tokenManager d /\ storage d' = storage d /\
    (forall x, x ∈ RoutingTable.all_entries (buckets (routingTable d')) ->
       eid x ∈ eid <$> RoutingTable.all_entries (buckets (routingTable d)) \/
       eid x = dm_id m /\ bogon (dm_origin m) = false /\ exists c, dm_call m = Some c /\ matchesAddress c = true /\ matchesId c = true) /\
    (ignored m d -> d' = d /\ ev = []).
Proof.
  intros Hok Hp. destruct (received_learned now p m d Hok Hp) as (d' & ev & E & (H1 & H2 & H3 & H4) & H5).
  exists d', ev. by split_and!.
Qed.

(** C30: What a request may change.  A handler that returns leaves the routing
    table and the known nodes alone, and changes the storage only for a store
    request with a token that verifies for the sender, its address and the id of
    the value, and with a valid value, or for an announcement with a token that
    verifies for the announced id; the peer itself is not checked.  It sends at
    most one message, a reply or an error to the address the request came from. *)
Theorem request_effects now m d d' ev :
  onRequest now m d = Done (d', ev) ->
  routingTable d' = routingTable d /\ knownNodes d' = knownNodes d /\
  (ev = [] \/ ev = [Ev_error (dm_txid m) (dm_origin m)] \/
   exists r, ev = [Ev_reply r] /\ rp_txid r = dm_txid m /\ rp_to r = dm_id m /\ rp_addr r = dm_origin m) /\
  (storage d' = storage d \/
   (exists v token e, dm_request m = StoreValueRequest (Ok v) token e /\
      fst (verifyToken sha256 now token (dm_id m) (dm_origin m) (Value.getId v) (tokenManager d)) = true /\ Value.isValid v = true /\
      storage d' = snd (SqliteStorage.putValue now v e false false (storage d))) \/
   (exists target peer token, dm_request m = AnnouncePeerRequest target (Ok peer) token /\
      fst (verifyToken sha256 now token (dm_id m) (dm_origin m) target (tokenManager d)) = true /\ bogon (dm_origin m) = false /\
      storage d' = SqliteStorage.putPeer now peer false false (storage d))).
Proof.
  assert (forall method nodes token v ps, exists r, [reply method m nodes token v ps] = [Ev_reply r] /\ rp_txid r = dm_txid m /\
    rp_to r = dm_id m /\ rp_addr r = dm_origin m) as Hrep by (intros; by eexists).
  unfold onRequest. intros H. destruct (dm_request m) as [|tg w4 w6 wt|tg w4 w6 sq|v tok e|tg w4 w6|tg p tok|] eqn:Er.
  - injection H as <- <-. split_and!; auto.
  - unfold onFindNode in H. destruct (populateClosestNodes tg w4 w6 d); [|done..]. simpl in H.
    destruct (if wt then _ else _) as [tok tm]. injection H as <- <-. split_and!; auto.
  - unfold onFindValue in H. destruct (generateToken _ _ _ _ _ _) as [tok tm].
    destruct (SqliteStorage.getValue _ _ _) as [value|]; [|done]. simpl in H.
    destruct (match value with Some v => _ | None => None end); [injection H as <- <-; split_and!; auto|].
    destruct (populateClosestNodes tg w4 w6 _); [|done..]. injection H as <- <-. split_and!; auto.
  - unfold onStoreValue in H. destruct v as [v|]; [|done]. simpl in H.
    destruct (verifyToken _ _ _ _ _ _ _) as [ok tm] eqn:Ev. destruct ok; simpl in H; [|injection H as <- <-; split_and!; auto].
    destruct (Value.isValid v) eqn:Eval; simpl in H; [|injection H as <- <-; split_and!; auto].
    destruct (SqliteStorage.putValue now v e false false (storage d)) as [[old|er] st] eqn:Ep; [|done]. injection H as <- <-.
    split_and!; auto. right. left. exists v, tok, e. rewrite Ev, Ep. by split_and!.
  - unfold onFindPeers in H. destruct (generateToken _ _ _ _ _ _) as [tok tm].
    destruct (SqliteStorage.getPeers _ _ _ _ _) as [[|p ps]|]; [|injection H as <- <-; split_and!; auto|done]. simpl in H.
    destruct (populateClosestNodes tg w4 w6 _); [|done..]. injection H as <- <-. split_and!; auto.
  - unfold onAnnouncePeer in H. destruct (bogon (dm_origin m)) eqn:Eb; [injection H as <- <-; split_and!; auto|].
    destruct (verifyToken _ _ _ _ _ _ _) as [ok tm] eqn:Ev. destruct ok; simpl in H; [|injection H as <- <-; split_and!; auto].
    destruct p as [p|]; [|done]. injection H as <- <-. split_and!; auto. right. right. exists tg, p, tok. rewrite Ev. by split_and!.
  - injection H as <- <-. split_and!; auto.
Qed.

(** A node that asked for a token with a lookup of the id of a value can
    store the value during the next five minutes, whatever other tokens the node
    hands out or checks meanwhile: the store request is answered and the value
    is in the storage, unless the storage refuses to replace the one it has. *)
Theorem store_after_find t0 t1 times m m' v e w4 w6 d d1 r d2 :
  0 <= timestamp (tokenManager d) <= t0 -> t0 <= t1 <= t0 + TOKEN_TIMEOUT -> t0 + TOKEN_TIMEOUT < 2 ^ 64 ->
  StronglySorted Z.le times -> Forall (fun t => t0 <= t <= t1) times ->
  onFindNode t0 m (Value.getId v) w4 w6 true d = Done (d1, [Ev_reply r]) ->
  tokenManager d2 = after times (tokenManager d1) ->
  dm_id m' = dm_id m -> dm_origin m' = dm_origin m -> Value.isValid v = true ->
  (exists er, fst (SqliteStorage.putValue t1 v e false false (storage d2)) = Throw er /\
     onStoreValue t1 m' (Ok v) (rp_token r) e d2 = Thrown er) \/
  (exists d3 r', onStoreValue t1 m' (Ok v) (rp_token r) e d2 = Done (d3, [Ev_reply r']) /\ rp_method r' = STORE_VALUE /\
     storage d3 = snd (SqliteStorage.putValue t1 v e false false (storage d2))).
Proof.
  intros Ht0 Ht1 Hb Hs Hf Hfind Htm Ei Ea Hv.
  pose proof (token_accepted sha256 t0 t1 times (dm_id m) (dm_origin m) (Value.getId v) (tokenManager d) Ht0 Ht1 Hb Hs Hf) as Hacc.
  unfold onFindNode in Hfind. destruct (populateClosestNodes _ _ _ _); [|done..]. cbn [outcome_bind] in Hfind.
  destruct (generateToken sha256 t0 (dm_id m) (dm_origin m) (Value.getId v) (tokenManager d)) as [tok tm1].
  unfold reply in Hfind. injection Hfind as <- <-. cbn [tokenManager set_tokens] in Htm. cbn [rp_token].
  unfold onStoreValue. cbn [of_result outcome_bind]. rewrite Htm, Ei, Ea.
  destruct (verifyToken _ _ _ _ _ _ _) as [ok tm2]. simpl in Hacc. subst ok. cbn [negb]. rewrite Hv. cbn [negb].
  change (storage (set_tokens d2 tm2)) with (storage d2).
  destruct (SqliteStorage.putValue t1 v e false false (storage d2)) as [[old|er] st]; [right|left].
  - eexists _, _. split; [reflexivity|done].
  - exists er. done.
Qed.

(** A request for nodes of the other family brings down a node that runs
    one family only: [populateClosestNodes] dereferences the DHT of that family
    without a check.  Any sender can do this with one FIND_NODE request. *)
Theorem other_family_dereferences_null now p m target want4 want6 wantToken d :
  other = None -> running d = true -> isSelfId d (dm_id m) || isSelfAddress d (dm_origin m) = false ->
  dm_type m = REQUEST -> dm_request m = FindNodeRequest target want4 want6 wantToken ->
  match d_type d with DHT_IPV4 => want6 | DHT_IPV6 => want4 end = true ->
  onMessage now p m d = NullDereference.
Proof.
  intros Ho Hr Hs Ht Hq Hw. unfold onMessage. rewrite Hr, Hs, Ht. simpl. unfold onRequest. rewrite Hq.
  unfold onFindNode, populateClosestNodes, closest_of. destruct (d_type d) eqn:Ed; rewrite Ho, Hw.
  - rewrite bool_decide_eq_true_2, bool_decide_eq_false_2 by done.
    destruct want4; [|done]. by destruct (fill _ _ _ _ _ _ _ _).
  - by rewrite bool_decide_eq_false_2.
Qed.
End dht.
End DHT.

(** ** Witnesses *)

Section examples.
#[local] Existing Instance toy_sodium.

Definition dht0 : DHT :=
  MkDHT DHT_IPV4 (MkNodeInfo zero (SA_in 39001 [8; 8; 4; 4]) 0) true RoutingTable.RoutingTable_new [] (MkTokens 0 0 [1; 2; 3]) (MkStorage ∅ ∅).

Definition message0 (t : MsgType) (q : Request) (c : option CallInfo) : DhtMessage :=
  MkDhtMessage t 5 (id_of_val 7) (SA_in 39001 [8; 8; 8; 8]) 0 q c.

Definition response0 : DhtMessage := message0 RESPONSE UnknownRequest (Some (MkCallInfo true true 3)).

Lemma received_table_witness :
  exists d' ev, DHT.received false 5 1%positive response0 dht0 = Some (d', ev) /\
    RoutingTable.table_ok zero (routingTable d') /\ length (RoutingTable.all_entries (buckets (routingTable d'))) = 1%nat.
Proof.
  destruct (DHT.received_table false 5 1%positive response0 dht0 (RoutingTable.new_ok zero)) as (d' & ev & H1 & H2 & _).
  - vm_compute. intros H. inversion H.
  - exists d', ev. split; [exact H1|]. split; [exact H2|].
    assert (option_map (fun r => length (RoutingTable.all_entries (buckets (routingTable (fst r))))) (DHT.received false 5 1%positive response0 dht0) = Some 1%nat) as H
      by (vm_compute; reflexivity).
    rewrite H1 in H. injection H as H. exact H.
Defined.

Definition ping0 : DhtMessage := message0 REQUEST PingRequest None.

Lemma request_effects_witness :
  exists d' ev, DHT.onRequest false [] (fun l => l) None 5 ping0 dht0 = Done (d', ev) /\ length ev = 1%nat /\ routingTable d' = routingTable dht0.
Proof.
  eexists _, _. split; [reflexivity|]. split; [reflexivity|].
  refine (proj1 (DHT.request_effects false [] (fun l => l) None 5 ping0 dht0 _ _ _)). reflexivity.
Defined.

(** A lookup of the id of a value at time 1000000, and the store request with its
    token five minutes later. *)
Definition find0 : DhtMessage := message0 REQUEST (FindNodeRequest (Value.getId stored0) true false true) None.

Lemma store_after_find_witness :
  exists d1 r d3 r', DHT.onFindNode [] None 1000000 find0 (Value.getId stored0) true false true dht0 = Done (d1, [Ev_reply r]) /\
    DHT.onStoreValue 1300000 find0 (Ok stored0) (rp_token r) (-1) d1 = Done (d3, [Ev_reply r']) /\ rp_method r' = STORE_VALUE.
Proof.
  destruct (DHT.onFindNode [] None 1000000 find0 (Value.getId stored0) true false true dht0) as [[d1 ev]|e|] eqn:E;
    [|vm_compute in E; discriminate E..].
  assert (exists r, ev = [Ev_reply r] /\ tokenManager d1 = after [] (tokenManager d1) /\ storage d1 = MkStorage ∅ ∅) as (r & -> & Htm & Hst)
    by (vm_compute in E; injection E as <- <-; eexists; split; [reflexivity|split; reflexivity]).
  exists d1, r.
  destruct (DHT.store_after_find [] None 1000000 1300000 [] find0 find0 stored0 (-1) true false dht0 d1 r d1) as [(er & H & _)|(d3 & r' & H1 & H2 & _)].
  - vm_compute. split; discriminate.
  - vm_compute. split; discriminate.
  - vm_compute. reflexivity.
  - constructor.
  - constructor.
  - exact E.
  - exact Htm.
  - reflexivity.
  - reflexivity.
  - vm_compute. reflexivity.
  - exfalso. rewrite Hst in H. vm_compute in H. discriminate H.
  - exists d3, r'. split; [reflexivity|]. split; [exact H1|exact H2].
Defined.

Definition find6 : DhtMessage := message0 REQUEST (FindNodeRequest zero false true false) None.

Lemma other_family_dereferences_null_witness : DHT.onMessage false [] (fun l => l) None 5 1%positive find6 dht0 = NullDereference.
Proof.
  apply (DHT.other_family_dereferences_null false [] (fun l => l) None 5 1%positive find6 zero false true false dht0); vm_compute; reflexivity.
Defined.
End examples.
