(* ===== verification/Network.v ===== *)
(** * Nodes that talk to each other: from [RPCServer::handlePacket] to the handlers of [DHT] and back

    The server of a node opens a datagram and hands the message to the DHT of the
    family it came from; the handler of the request reads the members of the
    message, and its response travels back as a datagram, where it ends the call
    of the asking node and reaches the lookup that made it.  The file puts the
    server, the messages, the handlers, the tokens, the storage and the lookups
    together and follows a value, and a peer, from the node that stores it to the node that
    finds it. *)

From S2P Require Import Prelude Constants Ids Prefixes Addresses Entries KBuckets RoutingTables KClosest Candidates Tokens RpcServer Tasks Values Texts Crypto Frames Json Messages Configurations Printers Transport Sockets Lookups Storage Dht.

#[local] Open Scope carrier_scope.

Module Network.

Section network.
Context {sodium : Sodium} {sodiumBox : SodiumBox} {nlohmann : Nlohmann} {sodiumHex : SodiumHex} {netdb : NetDb}.
Variables (uninit_token uninit_port : Z) (send : Message -> result unit) (dht6 development : bool) (bootstrapNodes : list NodeInfo).
Variables (random_order : list (PeerKey * PeerRow) -> list (PeerKey * PeerRow)) (other : option (NodeInfo * RoutingTable)).

(** ** Requests *)

(** What the handlers read of the request. *)
Definition request_of (sender : Id) (b : Message.Body) : Request :=
  match b with
  | Message.PingRequest => PingRequest
  | Message.FindNodeRequest q => FindNodeRequest (Message.target q) (Message.want4 q) (Message.want6 q) (Message.wantToken q)
  | Message.FindValueRequest q seq => FindValueRequest (Message.target q) (Message.want4 q) (Message.want6 q) seq
  | Message.StoreValueRequest_ s => StoreValueRequest (Value.getValue (Message.sv_value s)) (Message.sv_token s) (Message.expectedSequenceNumber s)
  | Message.FindPeerRequest q => FindPeerRequest (Message.target q) (Message.want4 q) (Message.want6 q)
  | Message.AnnouncePeerRequest_ a => AnnouncePeerRequest (Message.peerId a) (Message.getPeer sender a) (Message.an_token a)
  | _ => UnknownRequest
  end.

(** The call that [handlePacket] gives to a message, with [matchesAddress],
    [matchesId] and [getSentTime]. *)
Definition call_info (c : RPCCall) (sender : Id) (from : SocketAddress) : CallInfo :=
  MkCallInfo (sa_eqb from (m_remote (c_request c))) (bool_decide (sender = nodeId (c_target c))) (sentTime c).

Definition associatedCall (s : RPCServer) (sender : Id) (from : SocketAddress) (m : Message.Message) : option CallInfo :=
  match Transport.rpc_type (Message.class_of (Message.body m)).1 with
  | REQUEST => None
  | _ =>
      match calls s !! Message.txid m with
      | Some c => if sa_eqb (m_remote (c_request c)) from then Some (call_info c sender from) else None
      | None => None
      end
  end.

Definition dht_message (s : RPCServer) (sender : Id) (from : SocketAddress) (m : Message.Message) : DhtMessage :=
  MkDhtMessage (Transport.rpc_type (Message.class_of (Message.body m)).1) (Message.txid m) sender from (Message.version m)
    (request_of sender (Message.body m)) (associatedCall s sender from m).

Definition is_onMessage (e : Effect) : bool := match e with Ev_onMessage _ => true | _ => false end.

(** [handlePacket] with [handleMessage]: what a datagram does to the server and to the
    DHT [d] of the family of its origin.  [p] is the address of a new entry. *)
Definition deliver (localId : Id) (now : Z) (p : positive) (k : NodeKeys) (buf : list Z) (from : SocketAddress) (s : RPCServer) (d : DHT) :
    outcome (option (RPCServer * DHT * list DhtEffect)) :=
  let sender := mk_id (take 32 buf) in
  match RPCServer.handlePacket localId dht6 (Transport.open_message uninit_token uninit_port now k) send now buf from s with
  | (Throw e, _) => Thrown e
  | (Ok ev, s') =>
      match Transport.open uninit_token uninit_port now k sender (drop 32 buf) with
      | Some m =>
          if existsb is_onMessage ev then
            outcome_bind (DHT.onMessage development bootstrapNodes random_order other now p (dht_message s sender from m) d) (fun r =>
            Done (match r with Some (d', ev') => Some (s', d', ev') | None => None end))
          else Done (Some (s', d, []))
      | None => Done (Some (s', d, []))
      end
  end.

(** ** Responses *)

(** The response that a handler builds. *)
Definition response_body (r : Reply) : option Message.Body :=
  let lr := Message.MkLookupResponse (kn_info <$> rp_nodes4 r) (kn_info <$> rp_nodes6 r) (rp_token r) in
  match rp_method r with
  | PING => Some Message.PingResponse
  | FIND_NODE => Some (Message.FindNodeResponse lr)
  | FIND_VALUE => Some (Message.FindValueResponse lr (match rp_value r with Some v => Value.setValue v (-1) | None => Message.sent0 end))
  | FIND_PEER => Some (Message.FindPeerResponse lr (rp_peers r))
  | STORE_VALUE => Some Message.StoreValueResponse
  | ANNOUNCE_PEER => Some Message.AnnouncePeerResponse
  | UNKNOWN => None
  end.

(** [setRemote] and [sendMessage] of a message of a node *)
Definition packet (localId to : Id) (addr : SocketAddress) (txid : Z) (b : Message.Body) : Packet :=
  Transport.stamp localId (MkPacket MIN_ID to addr (Message.MkMessage txid 0 b)).

Definition reply_packet (localId : Id) (r : Reply) : option Packet :=
  packet localId (rp_to r) (rp_addr r) (rp_txid r) <$> response_body r.

(** [AnnouncePeerRequest(const PeerInfo&, int)] *)
Definition AnnouncePeerRequest_new (p : PeerInfo) (token : Z) : Message.AnnouncePeerRequest :=
  Message.setPeer p (Message.MkAnnounce token MIN_ID None 0 [] []).

(** What a lookup reads of the response to its call; [getValue] may throw. *)
Definition lookup_method (m : Message.Method) : Method :=
  match m with
  | Message.UNKNOWN => UNKNOWN | Message.PING => PING | Message.FIND_NODE => FIND_NODE | Message.ANNOUNCE_PEER => ANNOUNCE_PEER
  | Message.FIND_PEER => FIND_PEER | Message.STORE_VALUE => STORE_VALUE | Message.FIND_VALUE => FIND_VALUE
  end.

Definition response_of (c : RPCCall) (sender : Id) (b : Message.Body) : result Response :=
  let make (lr : Message.LookupResponse) v ps :=
    MkResponse (bool_decide (sender = nodeId (c_target c))) (Transport.rpc_type (Message.class_of b).1) (lookup_method (Message.class_of b).2)
      (Message.lr_token lr) (Message.nodes4 lr) (Message.nodes6 lr) v ps in
  match b with
  | Message.FindNodeResponse lr => Ok (make lr None [])
  | Message.FindPeerResponse lr ps => Ok (make lr None ps)
  | Message.FindValueResponse lr s =>
      if bool_decide (Value.s_value s = []) then Ok (make lr None []) else v <-! Value.getValue s; Ok (make lr (Some v) [])
  | _ => Ok (make Message.lookup_response0 None [])
  end.

(** ** Lemmas *)

(** The keys of a node with a private key that libsodium made, whatever it encrypted and decrypted before. *)
Definition node_keys (sk : list Z) (id : Id) (k : NodeKeys) : Prop :=
  secret_key sk /\ exists k0, NodeCrypto.NodeKeys_new (Signature.KeyPair_copy sk) = Ok (id, k0) /\ rtc NodeCrypto.keys_step k0 k.

(** The size of a message is a [size_t]. *)
Definition fits (m : Message.Message) : Prop := forall l, Message.serialize m = Ok l -> Z.of_nat (length l) < 2 ^ 63.

(** A message that arrives as a whole. *)
Definition sent_ok (m : Message.Message) : Prop := Message.message_wf m /\ Message.txid m <> 0 /\ fits m /\ Printer.printable (Message.body m) = true.

(** The transaction ids that [sendCall] gives. *)
Definition txid_ok (tx : Z) : Prop := Message.int32 tx /\ tx <> 0.

Lemma packet_sent_ok localId to addr tx b :
  txid_ok tx -> Message.body_wf b -> Printer.printable b = true -> fits (pk_message (packet localId to addr tx b)) ->
  sent_ok (pk_message (packet localId to addr tx b)).
Proof. intros [H1 H2] H3 H4 H5. split; [|done]. split; [done|]. by split. Qed.

(** A DHT that takes messages of a sender, with room for a new entry [p]. *)
Definition ready (sender : Id) (from : SocketAddress) (p : positive) (d : DHT) : Prop :=
  running d = true /\ DHT.isSelfId d sender = false /\ DHT.isSelfAddress d from = false /\
  RoutingTable.table_ok (nodeId (d_self d)) (routingTable d) /\ p ∉ ptr <$> RoutingTable.all_entries (buckets (routingTable d)).

Lemma request_message s sender from m :
  (Message.class_of (Message.body m)).1 = Message.REQUEST ->
  dht_message s sender from m = MkDhtMessage REQUEST (Message.txid m) sender from (Message.version m) (request_of sender (Message.body m)) None.
Proof. intros E. unfold dht_message, associatedCall. by rewrite E. Qed.

(** The handler of a request runs on what arrived of it, and the sender is learned. *)
Lemma request_delivered ska skb ida idb a b now now' p pk buf from s d d' ev :
  node_keys ska ida a -> node_keys skb idb b -> pk_id pk = ida -> pk_remoteId pk = idb -> sent_ok (pk_message pk) ->
  (Message.class_of (Message.body (pk_message pk))).1 = Message.REQUEST ->
  fst (Transport.datagram now pk a) = Ok buf -> ready ida from p d ->
  let m := MkDhtMessage REQUEST (Message.txid (pk_message pk)) ida from (Message.version (pk_message pk))
    (request_of ida (Message.received_body (Message.body (pk_message pk)))) None in
  DHT.onRequest development bootstrapNodes random_order other now' m d = Done (d', ev) -> d_self d' = d_self d -> routingTable d' = routingTable d ->
  exists s' d2 ev2, deliver idb now' p b buf from s d = Done (Some (s', d2, ev ++ ev2)) /\
    tokenManager d2 = tokenManager d' /\ storage d2 = storage d'.
Proof.
  intros (Ka & a0 & Ha & Ra) (Kb & b0 & Hb & Rb) Hi Hr (Hw & Hx & Hl & Hpr) Hq Hd (Hrun & Hs1 & Hs2 & Hok & Hp) m Hh Hself Ht.
  destruct (Transport.handle_datagram uninit_token uninit_port send ska skb ida idb a0 b0 a b now now' pk buf from dht6 s) as (E1 & E2 & E3); try done.
  assert (Message.class_of (Message.body (Message.received (pk_message pk))) = Message.class_of (Message.body (pk_message pk))) as Hc
    by (unfold Message.received; cbn [Message.body]; by destruct (Message.body (pk_message pk))).
  unfold deliver. rewrite E3, E1, E2, request_message by (by rewrite Hc). unfold RPCServer.handle_parsed.
  assert (m_type (RPCServer.with_source (Transport.rpc_message (pk_message pk)) ida from) = REQUEST) as ->
    by (unfold Transport.rpc_message, RPCServer.with_source; cbn [m_type]; by rewrite Hq).
  cbn [RPCServer.handleMessage existsb is_onMessage orb]. change (MkDhtMessage _ _ _ _ _ _ _) with m.
  unfold DHT.onMessage. change (dm_id m) with ida. change (dm_origin m) with from. change (dm_type m) with REQUEST.
  rewrite Hrun, Hs1, Hs2. cbn [negb orb]. rewrite Hh. cbn [outcome_bind].
  destruct (DHT.received_learned development now' p m d') as (d2 & ev2 & -> & (_ & L2 & L3 & _) & _); [by rewrite Hself, Ht|by rewrite Ht|].
  eexists _, d2, ev2. split; [reflexivity|]. by split.
Qed.

Lemma sequence_nonneg v : Value.value_ok v -> 0 <= sequenceNumber v.
Proof. intros [_ H]. destruct (v_publicKey v); [apply H|]. by rewrite H. Qed.

(** What arrives of a request to store a value. *)
Lemma store_request_received sender v tok :
  Value.value_ok v -> sequenceNumber v < 2 ^ 16 ->
  request_of sender (Message.received_body (Message.StoreValueRequest_ (Message.StoreValueRequest_new v tok))) =
  StoreValueRequest (Ok (Value.without_key v)) tok (-1).
Proof.
  intros Hv Hs. pose proof (sequence_nonneg v Hv) as H0. cbn [Message.received_body request_of].
  unfold Message.store_received, Message.StoreValueRequest_new. cbn [Message.sv_value Message.sv_token Message.expectedSequenceNumber].
  rewrite Message.value_received_ok; [|done|intros _; by apply wrap_bound|done].
  rewrite (wrap_small 16) by lia. unfold Message.with_sequence, Value.without_key. f_equal. by case_bool_decide.
Qed.

Lemma without_key_storable v : Value.value_ok v -> Message.value_typed v -> SqliteStorage.storable (Value.without_key v).
Proof.
  intros [Hd Hv] (_ & _ & _ & [_ Hs]). split; [|by split]. split; [done|]. unfold Value.without_key. cbn [v_publicKey].
  destruct (v_publicKey v); [done|]. by rewrite Hv.
Qed.

(** A request to store a value over the network. *)
Lemma value_stored ska skb ida idb a b now now' p addr tx v tok old buf from s d :
  node_keys ska ida a -> node_keys skb idb b -> ready ida from p d ->
  Value.value_ok v -> Message.value_typed v -> sequenceNumber v < 2 ^ 16 -> Value.isValid v = true ->
  fst (verifyToken sha256 now' tok ida from (Value.getId v) (tokenManager d)) = true ->
  fst (SqliteStorage.putValue now' (Value.without_key v) (-1) false false (storage d)) = Ok old ->
  let pk := packet ida idb addr tx (Message.StoreValueRequest_ (Message.StoreValueRequest_new v tok)) in
  sent_ok (pk_message pk) -> fst (Transport.datagram now pk a) = Ok buf ->
  exists s' d' r ev, deliver idb now' p b buf from s d = Done (Some (s', d', Ev_reply r :: ev)) /\
    rp_method r = STORE_VALUE /\ rp_txid r = tx /\ rp_to r = ida /\ rp_addr r = from /\
    forall t, i64 (t - Constants.MAX_VALUE_AGE) <= now' -> SqliteStorage.getValue t (Value.getId v) (storage d') = Ok (Some (Value.without_key v)).
Proof.
  intros Ha Hb Hready Hv Ht Hs Hval Htok Hput pk Hpk Hd.
  destruct (verifyToken sha256 now' tok ida from (Value.getId v) (tokenManager d)) as [ok tm] eqn:Ev. simpl in Htok. subst ok.
  destruct (SqliteStorage.putValue now' (Value.without_key v) (-1) false false (storage d)) as [res st] eqn:Ep. simpl in Hput. subst res.
  set (d' := DHT.set_storage (DHT.set_tokens d tm) st).
  destruct (Value.without_key_valid v) as [K1 K2].
  destruct (request_delivered ska skb ida idb a b now now' p pk buf from s d d'
    [Ev_reply (MkReply STORE_VALUE tx ida from [] [] 0 None [])]) as (s' & d2 & ev2 & E & _ & Est); try done.
  { cbn [pk packet Transport.stamp pk_message Message.body Message.txid Message.version]. rewrite store_request_received by done.
    unfold DHT.onRequest. cbn [dm_request]. unfold DHT.onStoreValue. cbn [of_result outcome_bind dm_id dm_origin].
    rewrite K2, Ev. cbn [negb]. rewrite K1, Hval. cbn [negb]. change (storage (DHT.set_tokens d tm)) with (storage d). by rewrite Ep. }
  exists s', d2, (MkReply STORE_VALUE tx ida from [] [] 0 None []), ev2. split_and!; try done.
  intros t Hage. rewrite Est, <- K2. exact (SqliteStorage.put_reads _ _ _ _ _ _ _ _ (without_key_storable v Hv Ht) Ep t Hage).
Qed.

Lemma generateToken_int32 now i addr target tm : Message.int32 (fst (generateToken sha256 now i addr target tm)).
Proof. unfold generateToken. cbn [fst]. apply (swrap_bound 32). lia. Qed.

(** A request for a value that the node has, over the network. *)
Lemma value_served skb skc idb idc b c now now' p addr tx q seq v buf from s d :
  node_keys skc idc c -> node_keys skb idb b -> ready idc from p d ->
  SqliteStorage.getValue now' (Message.target q) (storage d) = Ok (Some v) -> seq <= sequenceNumber v ->
  let pk := packet idc idb addr tx (Message.FindValueRequest q seq) in
  sent_ok (pk_message pk) -> fst (Transport.datagram now pk c) = Ok buf ->
  exists s' d' tok ev, deliver idb now' p b buf from s d = Done (Some (s', d', Ev_reply (MkReply FIND_VALUE tx idc from [] [] tok (Some v) []) :: ev)) /\
    Message.int32 tok /\ storage d' = storage d.
Proof.
  intros Hc Hb Hready Hget Hseq pk Hpk Hd.
  pose proof (generateToken_int32 now' idc from (nodeId (d_self d)) (tokenManager d)) as Htok.
  destruct (generateToken sha256 now' idc from (nodeId (d_self d)) (tokenManager d)) as [tok tm] eqn:Eg. cbn [fst] in Htok.
  destruct (request_delivered skc skb idc idb c b now now' p pk buf from s d (DHT.set_tokens d tm)
    [Ev_reply (MkReply FIND_VALUE tx idc from [] [] tok (Some v) [])]) as (s' & d2 & ev2 & E & _ & Est); try done.
  { cbn [pk packet Transport.stamp pk_message Message.body Message.txid Message.version Message.received_body request_of].
    unfold DHT.onRequest. cbn [dm_request]. unfold DHT.onFindValue. cbn [dm_id dm_origin]. rewrite Eg.
    change (storage (DHT.set_tokens d tm)) with (storage d). rewrite Hget. cbn [of_result outcome_bind].
    assert ((Message.sequence_received seq <? 0) || (sequenceNumber v <? 0) || (Message.sequence_received seq <=? sequenceNumber v) = true) as ->; [|done].
    unfold Message.sequence_received. destruct (Z.leb_spec 0 seq); [|done]. by rewrite (proj2 (Z.leb_le _ _) Hseq), orb_true_r. }
  exists s', d2, tok, ev2. by split_and!.
Qed.

(** The response to a call arrives: the call ends, and its owner gets what arrived of the response. *)
Lemma response_arrives skb skc idb idc b c now now' addr to tx body buf s call :
  node_keys skb idb b -> node_keys skc idc c -> (Message.class_of body).1 = Message.RESPONSE ->
  calls s !! tx = Some call -> m_remote (c_request call) = addr ->
  let pk := packet idb idc to tx body in
  sent_ok (pk_message pk) -> fst (Transport.datagram now pk b) = Ok buf ->
  exists s' m, RPCServer.handlePacket idc dht6 (Transport.open_message uninit_token uninit_port now' c) send now' buf addr s =
      (Ok [Ev_stateChange (RPCCall.txid_of call) (c_state call) RESPONDED; Ev_onMessage (RPCServer.with_source (Transport.rpc_message m) idb addr)], s') /\
    calls s' = delete tx (calls s) /\
    Transport.open uninit_token uninit_port now' c idb (drop 32 buf) = Some m /\ Message.body m = Message.received_body body.
Proof.
  intros (Kb & b0 & Hb & Rb) (Kc & c0 & Hc & Rc) Hclass Hcall Haddr pk (Hw & Hx & Hl & Hpr) Hd.
  destruct (Transport.handle_datagram uninit_token uninit_port send skb skc idb idc b0 c0 b c now now' pk buf addr dht6 s) as (_ & E2 & E3); try done.
  rewrite E3. unfold RPCServer.handle_parsed.
  cbn [RPCServer.with_source Transport.rpc_message m_type m_txid m_origin pk packet Transport.stamp pk_message Message.body Message.txid].
  rewrite Hclass. cbn [Transport.rpc_type calls RPCServer.count_received]. rewrite Hcall, Haddr. unfold sa_eqb. rewrite bool_decide_eq_true_2 by done.
  exists (RPCServer.set_calls (RPCServer.count_received s) (delete tx (calls s))), (Message.received (pk_message pk)).
  split; [|done]. unfold RPCCall.responsed. cbn. unfold Transport.rpc_message, RPCServer.with_source. cbn. by destruct body.
Qed.

(** What a lookup reads of a response with a value. *)
Lemma value_response call sender tok v :
  Value.value_ok v -> v_privateKey v = None -> nodeId (c_target call) = sender ->
  response_of call sender (Message.received_body (Message.FindValueResponse (Message.MkLookupResponse [] [] tok) (Value.setValue v (-1)))) =
  Ok (MkResponse true RESPONSE FIND_VALUE tok [] [] (Some v) []).
Proof.
  intros Hv Hk <-. cbn [Message.received_body response_of].
  assert (Value.s_value (Message.value_received id (Value.setValue v (-1))) <> []) as Hne.
  { unfold Value.setValue, Message.value_received. destruct (Value.isMutable v); cbn [Value.s_publicKey Value.s_value]; [destruct (v_publicKey v)|]; apply Hv. }
  rewrite bool_decide_eq_false_2 by exact Hne. rewrite Message.value_received_ok by done.
  assert (Message.with_sequence (id (sequenceNumber v)) v = v) as -> by (destruct v; cbn in Hk; by subst).
  cbn. by rewrite bool_decide_eq_true_2.
Qed.

(** A value lookup keeps the valid value it asked for. *)
Lemma lookup_takes_value type self now i tok v seq opt l :
  lk_kind (snd l) = ValueLookup seq opt -> lk_target (snd l) = Value.getId v -> lk_value (snd l) = None ->
  Value.isValid v = true -> seq <= sequenceNumber v ->
  lk_value (snd (Lookup.lookup_responsed development type self now i (MkResponse true RESPONSE FIND_VALUE tok [] [] (Some v) []) l)) = Some v.
Proof.
  intros Hk Htarget Hnone Hval Hseq. unfold Lookup.lookup_responsed. rewrite Hk. unfold Lookup.value_callResponsed.
  change (Lookup.answers FIND_VALUE _) with true. cbn [negb r_value].
  set (lk := Lookup.lookup_callResponsed now i _ (snd l)).
  assert (lk_target lk = Value.getId v /\ lk_value lk = None) as [-> Hn].
  { unfold lk, Lookup.lookup_callResponsed. destruct (Lookup.removeCandidate i (snd l)) as [[c|] l'] eqn:E; by injection E as _ <-. }
  rewrite bool_decide_eq_true_2, Hval by done. cbn [negb]. rewrite (proj2 (Z.ltb_ge _ _) Hseq), andb_false_r.
  unfold Lookup.value_found. cbn [snd fst]. rewrite Hn. by destruct (_ || _).
Qed.

(** ** Properties *)

(** C3: A value travels from the node that stores it to the node that looks it up.
    The first node [A] sends a valid value, with a sequence number of 16 bits,
    and a token that [B] accepts; [B] opens the datagram, answers it and keeps the
    value (without the private key), as long as its storage does not refuse it.
    Whatever [B] does afterwards, as long as the value is not replaced and not
    too old, [B] answers the request of [C] for the value with the value; the
    response ends the call of [C], and the lookup of [C] that made the call holds the
    value that [A] sent. *)
Theorem stored_value_found ska skb skc ida idb idc a b b2 b3 c c3 t1 t1' t2 t2' t3 t3' p p2 addrB fromA fromC tx1 tx2 v tok old buf1 s d :
  node_keys ska ida a -> node_keys skb idb b -> node_keys skb idb b2 -> node_keys skb idb b3 -> node_keys skc idc c -> node_keys skc idc c3 ->
  Value.value_ok v -> Message.value_typed v -> sequenceNumber v < 2 ^ 16 -> Value.isValid v = true ->
  ready ida fromA p d -> fst (verifyToken sha256 t1' tok ida fromA (Value.getId v) (tokenManager d)) = true ->
  fst (SqliteStorage.putValue t1' (Value.without_key v) (-1) false false (storage d)) = Ok old ->
  let store := packet ida idb addrB tx1 (Message.StoreValueRequest_ (Message.StoreValueRequest_new v tok)) in
  txid_ok tx1 -> Message.int32 tok -> fits (pk_message store) -> fst (Transport.datagram t1 store a) = Ok buf1 ->
  exists s1 d1 r1 ev1, deliver idb t1' p b buf1 fromA s d = Done (Some (s1, d1, Ev_reply r1 :: ev1)) /\
    rp_method r1 = STORE_VALUE /\ rp_to r1 = ida /\ rp_txid r1 = tx1 /\
    (forall t, i64 (t - Constants.MAX_VALUE_AGE) <= t1' -> SqliteStorage.getValue t (Value.getId v) (storage d1) = Ok (Some (Value.without_key v))) /\
    forall s2 d2 q seq buf2, ready idc fromC p2 d2 ->
      SqliteStorage.getValue t2' (Value.getId v) (storage d2) = SqliteStorage.getValue t2' (Value.getId v) (storage d1) ->
      i64 (t2' - Constants.MAX_VALUE_AGE) <= t1' -> Message.target q = Value.getId v -> seq <= sequenceNumber v ->
      let find := packet idc idb addrB tx2 (Message.FindValueRequest q seq) in
      txid_ok tx2 -> Message.int32 seq -> fits (pk_message find) -> fst (Transport.datagram t2 find c) = Ok buf2 ->
      exists s3 d3 r3 pk3 ev3, deliver idb t2' p2 b2 buf2 fromC s2 d2 = Done (Some (s3, d3, Ev_reply r3 :: ev3)) /\
        reply_packet idb r3 = Some pk3 /\ pk_remoteAddr pk3 = fromC /\
        forall sC call buf3, fits (pk_message pk3) -> fst (Transport.datagram t3 pk3 b3) = Ok buf3 ->
          calls sC !! tx2 = Some call -> m_remote (c_request call) = addrB -> nodeId (c_target call) = idb ->
          exists sC' m response, RPCServer.handlePacket idc dht6 (Transport.open_message uninit_token uninit_port t3' c3) send t3' buf3 addrB sC =
              (Ok [Ev_stateChange (RPCCall.txid_of call) (c_state call) RESPONDED; Ev_onMessage (RPCServer.with_source (Transport.rpc_message m) idb addrB)], sC') /\
            calls sC' = delete tx2 (calls sC) /\
            Transport.open uninit_token uninit_port t3' c3 idb (drop 32 buf3) = Some m /\ response_of call idb (Message.body m) = Ok response /\
            forall type self opt l, lk_kind (snd l) = ValueLookup seq opt -> lk_target (snd l) = Value.getId v -> lk_value (snd l) = None ->
              lk_value (snd (Lookup.lookup_responsed development type self t3' idb response l)) = Some (Value.without_key v).
Proof.
  intros Ha Hb Hb2 Hb3 Hc Hc3 Hv Ht Hs Hval Hready Htok Hput store Hx1 Hi Hf1 Hd1.
  pose proof (Message.setValue_wf v Hv Ht) as Hsw.
  assert (Value.value_ok (Value.without_key v)) as Hv' by apply (without_key_storable v Hv Ht).
  destruct (value_stored ska skb ida idb a b t1 t1' p addrB tx1 v tok old buf1 fromA s d) as (s1 & d1 & r1 & ev1 & E1 & R1 & R2 & R3 & _ & Hget); try done.
  { apply packet_sent_ok; [done|by split|by apply Printer.store_printable|done]. }
  exists s1, d1, r1, ev1. split; [done|]. split; [done|]. split; [done|]. split; [done|]. split; [done|].
  intros s2 d2 q seq buf2 Hready2 Hsame Hage Hq Hseq find Hx2 Hi2 Hf2 Hd2.
  destruct (value_served skb skc idb idc b2 c t2 t2' p2 addrB tx2 q seq (Value.without_key v) buf2 fromC s2 d2) as (s3 & d3 & tok3 & ev3 & E3 & Htok3 & _);
    try done; [by rewrite Hq, Hsame, Hget|by apply packet_sent_ok|].
  eexists s3, d3, _, _, ev3. split; [exact E3|]. split; [reflexivity|]. split; [done|].
  intros sC call buf3 Hpk3 Hd3 Hcall Haddr Htarget.
  destruct (response_arrives skb skc idb idc b3 c3 t3 t3' addrB fromC tx2
    (Message.FindValueResponse (Message.MkLookupResponse [] [] tok3) (Value.setValue (Value.without_key v) (-1))) buf3 sC call)
    as (sC' & m & A1 & A2 & A3 & A4); try done.
  { apply packet_sent_ok; [done| |by apply Printer.response_printable|done]. split; [by split_and!|]. by apply Message.setValue_wf. }
  exists sC', m. eexists. split; [exact A1|]. split; [done|]. split; [done|].
  split; [rewrite A4; by apply value_response|].
intros type self opt l K1 K2 K3. by apply (lookup_takes_value type self t3' idb tok3 (Value.without_key v) seq opt).
Qed.

(** ** Messages without a text *)

(** The server as what the receiving thread does with a datagram; [periodic] stands for what it does between two of them. *)
#[local] Instance server_receiver (localId : Id) (now : Z) (k : NodeKeys) (periodic : RPCServer -> result RPCServer) : Receiver RPCServer := {
  rx_handlePacket buf from s :=
    match RPCServer.handlePacket localId dht6 (Transport.open_message uninit_token uninit_port now k) send now buf from s with
    | (Ok _, s') => Ok s'
    | (Throw e, _) => Throw e
    end;
  rx_periodic := periodic
}.

(** A request to store a value that has a public key and no nonce, as anybody can write it. *)
Definition unsigned_store (tx : Z) (pk : Id) : json :=
  JObject [(Message.KEY_REQUEST, JObject [(Message.KEY_REQ_PUBLICKEY, Message.json_of_id pk)]); (Message.KEY_TXID, JNumber tx); (Message.KEY_TYPE, JNumber 0x25)].

Lemma unsigned_store_parsed tx pk : Message.int32 tx ->
  Message.parse uninit_token uninit_port (to_cbor (unsigned_store tx pk)) =
  Ok (Message.MkMessage tx 0 (Message.StoreValueRequest_ (Message.MkStore 0 (Value.MkSent (Some pk) None None None (-1) []) (-1)))).
Proof.
  intros Ht. unfold Message.parse, unsigned_store. rewrite from_cbor_to_cbor.
  - unfold Message.parse_root. cbn [is_object negb items]. change (json_find Message.KEY_TYPE _) with (Some (JNumber 0x25)). cbv beta iota.
    rewrite get_uint8_number. change (u8 37) with 37. change (Message.createMessage _ _ 37) with (Ok (Message.StoreValueRequest_ (Message.MkStore 0 Message.sent0 (-1)))).
    cbn [Message.for_items]. change Message.KEY_REQUEST with (Message.key_of_type Message.REQUEST).
    erewrite Message.parse_field_body; [cbv beta iota; rewrite Message.parse_field_txid by done; reflexivity|].
    cbn [Message.body Message.parse_body Message.key_of_type]. unfold Message.parse_fields. cbn [is_object negb items Message.for_items].
    change (negb (String.eqb _ _) || false) with false. cbv beta iota. unfold Message.parse_store_field.
    change (String.eqb Message.KEY_REQ_PUBLICKEY Message.KEY_REQ_PUBLICKEY) with true. cbv beta iota. by rewrite Message.get_id_json.
  - apply Message.object_okb; [done|]. repeat constructor; cbn [snd]; [|by apply Message.number_okb].
    apply Message.object_okb; [done|]. repeat constructor. apply Message.id_okb.
Qed.

(** What the server does with it: the exception of [optional::value] leaves [handlePacket]. *)
Lemma unsigned_store_thrown ska skb ida idb a b now now' tx pk cipher from s :
  node_keys ska ida a -> node_keys skb idb b -> Message.int32 tx -> Z.of_nat (length (to_cbor (unsigned_store tx pk))) < 2 ^ 63 ->
  fst (NodeCrypto.encrypt now idb (to_cbor (unsigned_store tx pk)) a) = Ok cipher ->
  RPCServer.handlePacket idb dht6 (Transport.open_message uninit_token uninit_port now' b) send now' (bytes ida ++ cipher) from s =
  (Throw Bad_optional, RPCServer.count_received s).
Proof.
  intros (Ka & a0 & Ha & Ra) (Kb & b0 & Hb & Rb) Ht Hl He. unfold RPCServer.handlePacket. rewrite length_app, id_length.
  change (32 + length cipher <? 32)%nat with false. cbv beta iota zeta.
  rewrite take_app_length', drop_app_length', PeerInfo.mk_id_bytes by (by rewrite id_length).
  erewrite Transport.open_message_ok; [|unfold Transport.open; rewrite (proj1 (NodeCrypto.nodes_decrypt ska skb _ cipher ida idb a0 b0 a b now now' Ka Ha Ra Kb Hb Rb Hl He));
    by rewrite unsigned_store_parsed].
  by erewrite Printer.missing_nonce.
Qed.

(** C32: Anybody can make a node deaf with one datagram.  A request to store a value that has a public
    key and no nonce is decrypted and parsed, but its text for the log cannot be made, also when nothing is logged:
    the exception ends the receiving thread, while the server stays in the state RUNNING. *)
Theorem unsigned_value_ends_thread `{!Kernel} ska skb ida idb a b now now' tx pk cipher periodic lock t ts (th : Thread RPCServer) :
  node_keys ska ida a -> node_keys skb idb b -> Message.int32 tx -> Z.of_nat (length (to_cbor (unsigned_store tx pk))) < 2 ^ 63 ->
  fst (NodeCrypto.encrypt now idb (to_cbor (unsigned_store tx pk)) a) = Ok cipher ->
  so_state (th_server th) = SRV_RUNNING -> t_running t = true -> t_running_selected t = true -> 0 < t_select t ->
  0 <= th_sock4 th -> t_ready4 t = true -> take (Z.to_nat (rv_n (t_recv4 t))) (rv_buf (t_recv4 t)) = bytes ida ++ cipher ->
  let r := @Server.rx_thread _ _ (server_receiver idb now' b periodic) lock (t :: ts) th in
  r.1 = Some (Sockets.Thrown Bad_optional) /\ so_state (th_server r.2) = SRV_RUNNING /\ so_running (th_server r.2) = so_running (th_server th).
Proof.
  intros Ha Hb Ht Hl He Hs H1 H2 H3 H4 H5 Hbuf r.
  assert (0 < rv_n (t_recv4 t)) as Hn.
  { apply (f_equal length) in Hbuf. rewrite length_take, length_app, id_length in Hbuf. lia. }
  destruct (@Server.exception_ends_thread _ _ (server_receiver idb now' b periodic) lock ts t th Bad_optional) as (K1 & K2 & _ & K4); try done.
  cbn [rx_handlePacket server_receiver]. rewrite Hbuf. by erewrite unsigned_store_thrown.
Qed.

(** ** Peers *)

Lemma announce_wf p tok : SqliteStorage.peer_storable p -> Message.int32 tok -> Message.body_wf (Message.AnnouncePeerRequest_ (AnnouncePeerRequest_new p tok)).
Proof.
  intros ((Hp & _) & _ & Hs & Hu) Ht. split_and!; cbn; [done|lia|lia| |done].
  destruct (alternativeURL p) as [u|] eqn:E; [apply (Hu u eq_refl)|constructor].
Qed.

Lemma announce_request_received p tok :
  PeerInfo.peer_ok p ->
  request_of (p_origin p) (Message.received_body (Message.AnnouncePeerRequest_ (AnnouncePeerRequest_new p tok))) =
  AnnouncePeerRequest (p_publicKey p) (Ok (PeerInfo.peer_without_key p)) tok.
Proof. intros Hp. cbn [Message.received_body request_of]. f_equal. by apply Message.announced_peer_received. Qed.

Lemma peer_without_key_storable p : SqliteStorage.peer_storable p -> SqliteStorage.peer_storable (PeerInfo.peer_without_key p).
Proof. intros (H1 & _ & H3). by split. Qed.

(** An announcement over the network; the peer is not checked. *)
Lemma peer_stored ska skb ida idb a b now now' ptr addr tx p tok buf from s d :
  node_keys ska ida a -> node_keys skb idb b -> ready ida from ptr d -> DHT.bogon development from = false ->
  PeerInfo.peer_ok p -> p_origin p = ida ->
  fst (verifyToken sha256 now' tok ida from (p_publicKey p) (tokenManager d)) = true ->
  let pk := packet ida idb addr tx (Message.AnnouncePeerRequest_ (AnnouncePeerRequest_new p tok)) in
  sent_ok (pk_message pk) -> fst (Transport.datagram now pk a) = Ok buf ->
  exists s' d' ev, deliver idb now' ptr b buf from s d = Done (Some (s', d', Ev_reply (MkReply ANNOUNCE_PEER tx ida from [] [] 0 None []) :: ev)) /\
    storage d' = SqliteStorage.putPeer now' (PeerInfo.peer_without_key p) false false (storage d).
Proof.
  intros Ha Hb Hready Hbogon Hp Ho Htok pk Hpk Hd. subst ida.
  destruct (verifyToken sha256 now' tok (p_origin p) from (p_publicKey p) (tokenManager d)) as [ok tm] eqn:Ev. simpl in Htok. subst ok.
  set (d' := DHT.set_storage (DHT.set_tokens d tm) (SqliteStorage.putPeer now' (PeerInfo.peer_without_key p) false false (storage d))).
  destruct (request_delivered ska skb (p_origin p) idb a b now now' ptr pk buf from s d d'
    [Ev_reply (MkReply ANNOUNCE_PEER tx (p_origin p) from [] [] 0 None [])]) as (s' & d2 & ev2 & E & _ & Est); try done.
  { cbn [pk packet Transport.stamp pk_message Message.body Message.txid Message.version]. rewrite announce_request_received by done.
    unfold DHT.onRequest. cbn [dm_request]. unfold DHT.onAnnouncePeer. cbn [dm_id dm_origin]. by rewrite Hbogon, Ev. }
  exists s', d2, ev2. by split.
Qed.

(** A request for peers that the node has, over the network. *)
Lemma peers_served skb skc idb idc b c now now' ptr addr tx q p ps buf from s d :
  node_keys skc idc c -> node_keys skb idb b -> ready idc from ptr d ->
  SqliteStorage.getPeers random_order now' (Message.target q) 8 (storage d) = Ok (p :: ps) ->
  let pk := packet idc idb addr tx (Message.FindPeerRequest q) in
  sent_ok (pk_message pk) -> fst (Transport.datagram now pk c) = Ok buf ->
  exists s' d' tok ev, deliver idb now' ptr b buf from s d = Done (Some (s', d', Ev_reply (MkReply FIND_PEER tx idc from [] [] tok None (p :: ps)) :: ev)) /\
    Message.int32 tok.
Proof.
  intros Hc Hb Hready Hget pk Hpk Hd.
  pose proof (generateToken_int32 now' idc from (Message.target q) (tokenManager d)) as Htok.
  destruct (generateToken sha256 now' idc from (Message.target q) (tokenManager d)) as [tok tm] eqn:Eg. cbn [fst] in Htok.
  destruct (request_delivered skc skb idc idb c b now now' ptr pk buf from s d (DHT.set_tokens d tm)
    [Ev_reply (MkReply FIND_PEER tx idc from [] [] tok None (p :: ps))]) as (s' & d2 & ev2 & E & _); try done.
  { cbn [pk packet Transport.stamp pk_message Message.body Message.txid Message.version Message.received_body request_of].
    unfold DHT.onRequest. cbn [dm_request]. unfold DHT.onFindPeers. cbn [dm_id dm_origin]. rewrite Eg.
    change (storage (DHT.set_tokens d tm)) with (storage d). by rewrite Hget. }
  exists s', d2, tok, ev2. by split.
Qed.

Lemma storable_peers_wf i ps :
  Forall (fun p => SqliteStorage.peer_storable p /\ p_publicKey p = i) ps -> Forall (Message.peer_wf i) ps.
Proof. intros H. eapply Forall_impl; [exact H|]. intros p [(H1 & _ & H3 & H4) H5]. split_and!; [done..|]. intros u Hu. apply (H4 u Hu). Qed.

(** A peer lookup takes all peers of a response, or none when one of them is not valid. *)
Lemma lookup_takes_peers type self now i tok ps expected opt l :
  lk_kind (snd l) = PeerLookup expected opt -> ps <> [] ->
  lk_peers (snd (Lookup.lookup_responsed development type self now i (MkResponse true RESPONSE FIND_PEER tok [] [] None ps) l)) =
  lk_peers (snd l) ++ (if forallb PeerInfo.isValid ps then ps else []).
Proof.
  intros Hk Hne. unfold Lookup.lookup_responsed. rewrite Hk. unfold Lookup.peer_callResponsed.
  change (Lookup.answers FIND_PEER _) with true. cbn [negb r_peers]. set (lk := Lookup.lookup_callResponsed now i _ (snd l)).
  assert (lk_peers lk = lk_peers (snd l)) as Hp.
  { unfold lk, Lookup.lookup_callResponsed. destruct (Lookup.removeCandidate i (snd l)) as [[c|] l'] eqn:E; by injection E as _ <-. }
  destruct ps as [|p ps]; [done|]. destruct (forallb PeerInfo.isValid (p :: ps)); [|cbn [snd]; by rewrite Hp, app_nil_r].
  unfold Lookup.peers_found. cbn [fst snd]. destruct (_ && _); cbn [snd Lookup.set_results lk_peers]; by rewrite Hp.
Qed.

Lemma without_key_valid_peers ps :
  forallb PeerInfo.isValid (PeerInfo.peer_without_key <$> ps) = forallb PeerInfo.isValid ps.
Proof. induction ps as [|p ps IH]; [done|]. cbn. by rewrite IH. Qed.

(** What the node has of an announced peer later. *)
Lemma served_peers (Horder : forall l, random_order l ≡ₚ l) now now' p st st' :
  SqliteStorage.peer_storable p -> SqliteStorage.peers_ok st' ->
  peers st' !! SqliteStorage.peer_key p = peers (SqliteStorage.putPeer now (PeerInfo.peer_without_key p) false false st) !! SqliteStorage.peer_key p ->
  i64 (now' - Constants.MAX_PEER_AGE) <= now -> (length (SqliteStorage.fresh_rows now' (p_publicKey p) st') <= 8)%nat ->
  exists p0 ps, SqliteStorage.getPeers random_order now' (p_publicKey p) 8 st' = Ok (p0 :: ps) /\
    Forall (fun p' => SqliteStorage.peer_storable p' /\ p_publicKey p' = p_publicKey p) (p0 :: ps) /\
    PeerInfo.peer_without_key p ∈ p0 :: ps /\
    (forall p', p' ∈ p0 :: ps -> exists kr, kr ∈ SqliteStorage.fresh_rows now' (p_publicKey p) st' /\ SqliteStorage.row_peer kr = Ok p').
Proof.
  intros Hp Hok Hrow Hage Hlen. destruct (SqliteStorage.getPeers_spec random_order Horder now' (p_publicKey p) st' Hok) as (l & E & Hl & Hfrom & Hall).
  assert (PeerInfo.peer_without_key p ∈ l) as Hin.
  { apply (Hall Hlen (SqliteStorage.peer_key p, SqliteStorage.peer_row now (PeerInfo.peer_without_key p) false 0)).
    - apply SqliteStorage.fresh_rows_elem. split; [etransitivity; [exact Hrow|apply lookup_insert_eq]|]. by split.
    - exact (SqliteStorage.row_peer_ok now (PeerInfo.peer_without_key p) false 0 (peer_without_key_storable p Hp)). }
  destruct l as [|p0 ps]; [by apply not_elem_of_nil in Hin|]. by exists p0, ps.
Qed.

(** C4: A peer travels from the node that announces it to the node that looks for it.
    [A] announces its peer, with itself as the origin, to [B] with a token that [B] accepts
    and from an address that is no bogon; [B] stores it without checking its signature.  As long as [B] keeps it, it is not too old
    and [B] has at most eight peers with that id, [B]'s response to [C] has the
    peer in it.  If the peers that [B] has are all valid, the lookup of [C] gets the
    peer; but if the announced peer is not valid, the lookup gets none of them: one
    announcement by anybody hides the peers of others. *)
Theorem announced_peer_found ska skb skc ida idb idc a b b2 b3 c c3 t1 t1' t2 t2' t3 t3' n n2 addrB fromA fromC tx1 tx2 p tok buf1 s d :
  (forall l, random_order l ≡ₚ l) ->
  node_keys ska ida a -> node_keys skb idb b -> node_keys skb idb b2 -> node_keys skb idb b3 -> node_keys skc idc c -> node_keys skc idc c3 ->
  SqliteStorage.peer_storable p -> p_origin p = ida -> DHT.bogon development fromA = false ->
  ready ida fromA n d -> fst (verifyToken sha256 t1' tok ida fromA (p_publicKey p) (tokenManager d)) = true ->
  let announce := packet ida idb addrB tx1 (Message.AnnouncePeerRequest_ (AnnouncePeerRequest_new p tok)) in
  txid_ok tx1 -> Message.int32 tok -> fits (pk_message announce) -> fst (Transport.datagram t1 announce a) = Ok buf1 ->
  exists s1 d1 r1 ev1, deliver idb t1' n b buf1 fromA s d = Done (Some (s1, d1, Ev_reply r1 :: ev1)) /\
    rp_method r1 = ANNOUNCE_PEER /\ rp_to r1 = ida /\ rp_txid r1 = tx1 /\
    storage d1 = SqliteStorage.putPeer t1' (PeerInfo.peer_without_key p) false false (storage d) /\
    forall s2 d2 q buf2, ready idc fromC n2 d2 -> SqliteStorage.peers_ok (storage d2) ->
      peers (storage d2) !! SqliteStorage.peer_key p = peers (storage d1) !! SqliteStorage.peer_key p ->
      i64 (t2' - Constants.MAX_PEER_AGE) <= t1' -> (length (SqliteStorage.fresh_rows t2' (p_publicKey p) (storage d2)) <= 8)%nat ->
      Message.target q = p_publicKey p ->
      let find := packet idc idb addrB tx2 (Message.FindPeerRequest q) in
      txid_ok tx2 -> fits (pk_message find) -> fst (Transport.datagram t2 find c) = Ok buf2 ->
      exists s3 d3 r3 pk3 ev3, deliver idb t2' n2 b2 buf2 fromC s2 d2 = Done (Some (s3, d3, Ev_reply r3 :: ev3)) /\
        reply_packet idb r3 = Some pk3 /\ pk_remoteAddr pk3 = fromC /\
        forall sC call buf3, fits (pk_message pk3) -> fst (Transport.datagram t3 pk3 b3) = Ok buf3 ->
          calls sC !! tx2 = Some call -> m_remote (c_request call) = addrB -> nodeId (c_target call) = idb ->
          exists sC' m response, RPCServer.handlePacket idc dht6 (Transport.open_message uninit_token uninit_port t3' c3) send t3' buf3 addrB sC =
              (Ok [Ev_stateChange (RPCCall.txid_of call) (c_state call) RESPONDED; Ev_onMessage (RPCServer.with_source (Transport.rpc_message m) idb addrB)], sC') /\
            calls sC' = delete tx2 (calls sC) /\
            Transport.open uninit_token uninit_port t3' c3 idb (drop 32 buf3) = Some m /\ response_of call idb (Message.body m) = Ok response /\
            forall type self expected opt l, lk_kind (snd l) = PeerLookup expected opt ->
              let l' := Lookup.lookup_responsed development type self t3' idb response l in
              ((forall kr p', kr ∈ SqliteStorage.fresh_rows t2' (p_publicKey p) (storage d2) -> SqliteStorage.row_peer kr = Ok p' -> PeerInfo.isValid p' = true) ->
                PeerInfo.peer_without_key p ∈ lk_peers (snd l')) /\
              (PeerInfo.isValid p = false -> lk_peers (snd l') = lk_peers (snd l)).
Proof.
  intros Horder Ha Hb Hb2 Hb3 Hc Hc3 Hp Ho Hbogon Hready Htok announce Hx1 Hi Hf1 Hd1.
  destruct (peer_stored ska skb ida idb a b t1 t1' n addrB tx1 p tok buf1 fromA s d) as (s1 & d1 & ev1 & E1 & Est); try done; [apply Hp| |].
  { apply packet_sent_ok; [done|by apply announce_wf|apply Printer.announce_printable, Hp|done]. }
  exists s1, d1, (MkReply ANNOUNCE_PEER tx1 ida fromA [] [] 0 None []), ev1. split; [done|]. split; [done|]. split; [done|]. split; [done|]. split; [done|].
  intros s2 d2 q buf2 Hready2 Hok2 Hrow Hage Hlen Hq find Hx2 Hf2 Hd2.
  destruct (served_peers Horder t1' t2' p (storage d) (storage d2)) as (p0 & ps & Hget & Hps & Hin & Hrows); try done; [by rewrite Hrow, Est|].
  destruct (peers_served skb skc idb idc b2 c t2 t2' n2 addrB tx2 q p0 ps buf2 fromC s2 d2) as (s3 & d3 & tok3 & ev3 & E3 & Htok3);
    try done; [by rewrite Hq|by apply packet_sent_ok|].
  eexists s3, d3, _, _, ev3. split; [exact E3|]. split; [reflexivity|]. split; [done|].
  intros sC call buf3 Hf3 Hd3 Hcall Haddr Htarget.
  destruct (response_arrives skb skc idb idc b3 c3 t3 t3' addrB fromC tx2
    (Message.FindPeerResponse (Message.MkLookupResponse [] [] tok3) (p0 :: ps)) buf3 sC call) as (sC' & m & A1 & A2 & A3 & A4); try done.
  { apply packet_sent_ok; [done| |done..]. split; [by split_and!|]. exists (p_publicKey p). by apply storable_peers_wf. }
  exists sC', m, (MkResponse true RESPONSE FIND_PEER tok3 [] [] None (PeerInfo.peer_without_key <$> p0 :: ps)). split; [exact A1|]. split; [done|]. split; [done|].
  split; [rewrite A4; cbn; by rewrite Htarget, bool_decide_eq_true_2|].
  intros type self expected opt l Hk l'. unfold l'. rewrite (lookup_takes_peers type self t3' idb tok3 _ expected opt l Hk) by done.
  rewrite without_key_valid_peers. split; intros H.
  - assert (forallb PeerInfo.isValid (p0 :: ps) = true) as ->.
    { apply forallb_forall. intros p' Hp'%list_elem_of_In. destruct (Hrows p' Hp') as (kr & Hkr & Ekr). by apply (H kr). }
    apply elem_of_app. right. apply list_elem_of_fmap. by exists (PeerInfo.peer_without_key p).
  - destruct (forallb PeerInfo.isValid (p0 :: ps)) eqn:Ef; [|by rewrite app_nil_r].
    apply forallb_forall with (x := PeerInfo.peer_without_key p) in Ef; [|by apply list_elem_of_In].
    change (PeerInfo.isValid p = true) in Ef. congruence.
Qed.

End network.
End Network.

(** ** Witnesses *)

Section examples.
#[local] Existing Instances toy_sodium toy_box toy_json hex.
#[local] Instance netdb1 : NetDb := toy_netdb [].

(** Every message can be sent. *)
Definition taken (_ : Message) : result unit := Ok ().

Definition node_id (n : Z) : Id := mk_id (sk_to_pk (toy_key n)).
Definition addr_of (n : Z) : SocketAddress := SA_in 39001 [8; 8; 8; n].
Definition datagram0 (p : Packet) (n : Z) : list Z := match fst (Transport.datagram 5 p (keys_of (toy_key n))) with Ok l => l | Throw _ => [] end.

(** The node [2], and the token it gives to the node [1]. *)
Definition dht2 : DHT :=
  MkDHT DHT_IPV4 (MkNodeInfo (node_id 2) (addr_of 2) 0) true RoutingTable.RoutingTable_new [] (MkTokens 0 0 [1; 2; 3]) (MkStorage ∅ ∅).
Definition token2 : Z := fst (generateToken sha256 1000 (node_id 1) (addr_of 1) (Value.getId stored0) (tokenManager dht2)).
Definition store0 : Packet :=
  Network.packet (node_id 1) (node_id 2) (addr_of 2) 9 (Message.StoreValueRequest_ (Message.StoreValueRequest_new stored0 token2)).
Definition query0 : Message.LookupRequest := Message.MkLookupRequest (Value.getId stored0) true false true.
Definition findValue0 : Packet := Network.packet (node_id 3) (node_id 2) (addr_of 2) 7 (Message.FindValueRequest query0 (-1)).
Definition dht2' : DHT := DHT.set_storage dht2 (snd (SqliteStorage.putValue 2000 (Value.without_key stored0) (-1) false false (storage dht2))).

(** The node [3], which waits for the answer to its call 7, and its lookup. *)
Definition call3 : RPCCall :=
  MkCall (MkNodeInfo (node_id 2) (addr_of 2) 0) (MkMessage REQUEST 6 7 (node_id 3) (node_id 2) SA_unspec (addr_of 2)) SENT 2500 0 None.
Definition server3 : RPCServer := MkServer {[ 7 := call3 ]} 8 0 0 0 true 0.
Definition lookup3 : TaskBase * LookupTask := (Task.Task_new, Lookup.LookupTask_new false (ValueLookup (-1) CONSERVATIVE) (Value.getId stored0)).

Definition first_reply (r : outcome (option (RPCServer * DHT * list DhtEffect))) : option Reply :=
  match r with Done (Some (_, _, Ev_reply r :: _)) => Some r | _ => None end.

Lemma node_keys_of n : Network.node_keys (toy_key n) (node_id n) (keys_of (toy_key n)).
Proof. split; [apply toy_key_secret|]. exists (keys_of (toy_key n)). split; [reflexivity|apply rtc_refl]. Qed.

Lemma toy_fits m : Network.fits m.
Proof. intros l. unfold Message.serialize. destruct (Message.serializeInternal m) as [o|e]; [|done]. intros [= <-]. simpl. lia. Qed.

Lemma ready2 n (d : DHT) (Ht : routingTable d = RoutingTable.RoutingTable_new) (Hs : d_self d = d_self dht2) (Hr : running d = true) p :
  DHT.isSelfId dht2 (node_id n) = false -> DHT.isSelfAddress dht2 (addr_of n) = false -> Network.ready (node_id n) (addr_of n) p d.
Proof.
  intros H1 H2. unfold Network.ready, DHT.isSelfId, DHT.isSelfAddress. rewrite Ht, Hs. split; [done|]. split; [exact H1|]. split; [exact H2|].
  split; [apply RoutingTable.new_ok|]. vm_compute. intros H. inversion H.
Qed.

Lemma stored0_typed : Message.value_typed stored0.
Proof. split; [|split; [|split]]; vm_compute; repeat constructor; try discriminate; reflexivity. Qed.

Definition deliver2 : outcome (option (RPCServer * DHT * list DhtEffect)) :=
  Network.deliver 0 0 taken false false [] (fun l => l) None (node_id 2) 3000 2%positive (keys_of (toy_key 2)) (datagram0 findValue0 3) (addr_of 3) server3 dht2'.
Definition response3 : list Z :=
  match first_reply deliver2 ≫= Network.reply_packet (node_id 2) with Some pk => datagram0 pk 2 | None => [] end.

(** A response that was delivered, as the datagram of its packet. *)
Lemma reply_datagram r pk :
  first_reply r ≫= Network.reply_packet (node_id 2) = Some pk ->
  match first_reply r ≫= Network.reply_packet (node_id 2) with
  | Some pk => match fst (Transport.datagram 5 pk (keys_of (toy_key 2))) with Ok _ => true | Throw _ => false end | None => false end = true ->
  fst (Transport.datagram 5 pk (keys_of (toy_key 2))) = Ok (match first_reply r ≫= Network.reply_packet (node_id 2) with Some pk => datagram0 pk 2 | None => [] end).
Proof. intros -> H. unfold datagram0. by destruct (fst (Transport.datagram 5 pk (keys_of (toy_key 2)))). Qed.

Lemma stored_value_found_witness :
  exists m response, Transport.open 0 0 3500 (keys_of (toy_key 3)) (node_id 2) (drop 32 response3) = Some m /\
    Network.response_of call3 (node_id 2) (Message.body m) = Ok response /\
    lk_value (snd (Lookup.lookup_responsed false DHT_IPV4 (MkNodeInfo (node_id 3) (addr_of 3) 0) 3500 (node_id 2) response lookup3)) = Some (Value.without_key stored0).
Proof.
  destruct (Network.stored_value_found 0 0 taken false false [] (fun l => l) None (toy_key 1) (toy_key 2) (toy_key 3) (node_id 1) (node_id 2) (node_id 3)
    (keys_of (toy_key 1)) (keys_of (toy_key 2)) (keys_of (toy_key 2)) (keys_of (toy_key 2)) (keys_of (toy_key 3)) (keys_of (toy_key 3)) 5 2000 5 3000 5 3500 1%positive 2%positive
    (addr_of 2) (addr_of 1) (addr_of 3) 9 7 stored0 token2 None (datagram0 store0 1) server3 dht2)
    as (s1 & d1 & r1 & ev1 & _ & _ & _ & _ & Hget & Hfind).
  1-6: apply node_keys_of.
  - apply stored0_storable.
  - exact stored0_typed.
  - vm_compute. reflexivity.
  - vm_compute. reflexivity.
  - apply ready2; vm_compute; reflexivity.
  - vm_compute. reflexivity.
  - vm_compute. reflexivity.
  - split; [split|]; vm_compute; discriminate || reflexivity.
  - split; vm_compute; discriminate || reflexivity.
  - apply toy_fits.
  - vm_compute. reflexivity.
  - destruct (Hfind server3 dht2' query0 (-1) (datagram0 findValue0 3)) as (s3 & d3 & r3 & pk3 & ev3 & E1 & E2 & _ & Hlast).
    + apply ready2; vm_compute; reflexivity.
    + rewrite Hget by (vm_compute; discriminate). vm_compute. reflexivity.
    + vm_compute. discriminate.
    + reflexivity.
    + vm_compute. discriminate.
    + split; [split|]; vm_compute; discriminate || reflexivity.
    + split; vm_compute; discriminate || reflexivity.
    + apply toy_fits.
    + vm_compute. reflexivity.
    + assert (fst (Transport.datagram 5 pk3 (keys_of (toy_key 2))) = Ok response3) as Hd.
      { apply reply_datagram; [unfold deliver2; rewrite E1; exact E2|vm_compute; reflexivity]. }
      destruct (Hlast server3 call3 response3 (toy_fits _) Hd) as (s4 & m & response & _ & _ & H1 & H2 & H3); [reflexivity..|].
      exists m, response. split; [exact H1|]. split; [exact H2|].
      apply (H3 DHT_IPV4 (MkNodeInfo (node_id 3) (addr_of 3) 0) CONSERVATIVE lookup3); reflexivity.
Defined.

(** The peer of the node [1], and what the nodes [2] and [3] make of it. *)
Definition peer1 : PeerInfo :=
  match PeerInfo.PeerInfo_create sk0 zero (node_id 1) 39001 [] with Ok p => p | Throw _ => MkPeer zero None zero zero 0 None [] end.
Definition peer_token : Z := fst (generateToken sha256 1000 (node_id 1) (addr_of 1) (p_publicKey peer1) (tokenManager dht2)).
Definition announce1 : Packet :=
  Network.packet (node_id 1) (node_id 2) (addr_of 2) 9 (Message.AnnouncePeerRequest_ (Network.AnnouncePeerRequest_new peer1 peer_token)).
Definition peer_query : Message.LookupRequest := Message.MkLookupRequest (p_publicKey peer1) true false true.
Definition findPeer0 : Packet := Network.packet (node_id 3) (node_id 2) (addr_of 2) 7 (Message.FindPeerRequest peer_query).
Definition dht2_peer : DHT := DHT.set_storage dht2 (SqliteStorage.putPeer 2000 (PeerInfo.peer_without_key peer1) false false (storage dht2)).
Definition peer_lookup3 : TaskBase * LookupTask := (Task.Task_new, Lookup.LookupTask_new false (PeerLookup 1 CONSERVATIVE) (p_publicKey peer1)).
Definition deliver_find : outcome (option (RPCServer * DHT * list DhtEffect)) :=
  Network.deliver 0 0 taken false false [] (fun l => l) None (node_id 2) 3000 2%positive (keys_of (toy_key 2)) (datagram0 findPeer0 3) (addr_of 3) server3 dht2_peer.
Definition peers3 : list Z :=
  match first_reply deliver_find ≫= Network.reply_packet (node_id 2) with Some pk => datagram0 pk 2 | None => [] end.

Lemma peer1_storable : SqliteStorage.peer_storable peer1.
Proof.
  split; [split; [vm_compute; split; reflexivity|]; split; [vm_compute; reflexivity|discriminate]|].
  split; [intros sk [= <-]; vm_compute; reflexivity|]. split; [|discriminate]. vm_compute. repeat constructor; discriminate || reflexivity.
Qed.

Lemma dht2_peer_rows : SqliteStorage.fresh_rows 3000 (p_publicKey peer1) (storage dht2_peer) =
  [(SqliteStorage.peer_key peer1, SqliteStorage.peer_row 2000 (PeerInfo.peer_without_key peer1) false 0)].
Proof. vm_compute. reflexivity. Qed.

Lemma announced_peer_found_witness :
  exists m response, Transport.open 0 0 3500 (keys_of (toy_key 3)) (node_id 2) (drop 32 peers3) = Some m /\
    Network.response_of call3 (node_id 2) (Message.body m) = Ok response /\
    PeerInfo.peer_without_key peer1 ∈
      lk_peers (snd (Lookup.lookup_responsed false DHT_IPV4 (MkNodeInfo (node_id 3) (addr_of 3) 0) 3500 (node_id 2) response peer_lookup3)).
Proof.
  destruct (Network.announced_peer_found 0 0 taken false false [] (fun l => l) None (toy_key 1) (toy_key 2) (toy_key 3) (node_id 1) (node_id 2) (node_id 3)
    (keys_of (toy_key 1)) (keys_of (toy_key 2)) (keys_of (toy_key 2)) (keys_of (toy_key 2)) (keys_of (toy_key 3)) (keys_of (toy_key 3)) 5 2000 5 3000 5 3500 1%positive 2%positive
    (addr_of 2) (addr_of 1) (addr_of 3) 9 7 peer1 peer_token (datagram0 announce1 1) server3 dht2)
    as (s1 & d1 & r1 & ev1 & _ & _ & _ & _ & Est & Hfind).
  1: reflexivity.
  1-6: apply node_keys_of.
  - exact peer1_storable.
  - reflexivity.
  - vm_compute. reflexivity.
  - apply ready2; vm_compute; reflexivity.
  - vm_compute. reflexivity.
  - split; [split|]; vm_compute; discriminate || reflexivity.
  - split; vm_compute; discriminate || reflexivity.
  - apply toy_fits.
  - vm_compute. reflexivity.
  - destruct (Hfind server3 dht2_peer peer_query (datagram0 findPeer0 3)) as (s3 & d3 & r3 & pk3 & ev3 & E1 & E2 & _ & Hlast).
    + apply ready2; vm_compute; reflexivity.
    + apply SqliteStorage.putPeer_ok; [intros k r H; change ((∅ : gmap PeerKey PeerRow) !! k = Some r) in H; rewrite lookup_empty in H; discriminate H|].
      apply Network.peer_without_key_storable. exact peer1_storable.
    + rewrite Est. reflexivity.
    + vm_compute. discriminate.
    + rewrite dht2_peer_rows. simpl. lia.
    + reflexivity.
    + split; [split|]; vm_compute; discriminate || reflexivity.
    + apply toy_fits.
    + vm_compute. reflexivity.
    + assert (fst (Transport.datagram 5 pk3 (keys_of (toy_key 2))) = Ok peers3) as Hd.
      { apply reply_datagram; [unfold deliver_find; rewrite E1; exact E2|vm_compute; reflexivity]. }
      destruct (Hlast server3 call3 peers3 (toy_fits _) Hd) as (s4 & m & response & _ & _ & H1 & H2 & H3); [reflexivity..|].
      exists m, response. split; [exact H1|]. split; [exact H2|].
      apply (H3 DHT_IPV4 (MkNodeInfo (node_id 3) (addr_of 3) 0) 1 CONSERVATIVE peer_lookup3 eq_refl).
      rewrite dht2_peer_rows. intros kr p' ->%list_elem_of_singleton. vm_compute. intros [= <-]. reflexivity.
Defined.

(** A datagram of the node [1] for the node [2] with a public key and no nonce, and the turn of the thread of [2] that receives it. *)
Definition cipher1 : list Z :=
  match fst (NodeCrypto.encrypt 5 (node_id 2) (to_cbor (Network.unsigned_store 9 MAX_ID)) (keys_of (toy_key 1))) with Ok c => c | Throw _ => [] end.
Definition bad_turn : Turn := packet_turn (bytes (node_id 1) ++ cipher1).
Definition thread_of2 : Thread RPCServer := MkThread 3 (-1) (th_server thread2) server3.

Lemma unsigned_value_ends_thread_witness :
  exists th', @Server.rx_thread (toy_kernel none_refused) _ (Network.server_receiver 0 0 taken false (node_id 2) 3000 (keys_of (toy_key 2)) Ok) true [bad_turn] thread_of2
    = (Some (Sockets.Thrown Bad_optional), th') /\ so_state (th_server th') = SRV_RUNNING.
Proof.
  destruct (@Network.unsigned_value_ends_thread _ _ _ _ _ 0 0 taken false (toy_kernel none_refused) (toy_key 1) (toy_key 2) (node_id 1) (node_id 2) (keys_of (toy_key 1)) (keys_of (toy_key 2)) 5 3000 9 MAX_ID cipher1
    Ok true bad_turn [] thread_of2) as (H1 & H2 & _).
  - apply node_keys_of.
  - apply node_keys_of.
  - split; vm_compute; discriminate || reflexivity.
  - vm_compute. reflexivity.
  - vm_compute. reflexivity.
  - vm_compute. reflexivity.
  - reflexivity.
  - reflexivity.
  - vm_compute. reflexivity.
  - vm_compute. discriminate.
  - reflexivity.
  - unfold bad_turn, packet_turn. cbn [t_recv4 rv_n rv_buf]. rewrite Nat2Z.id. apply firstn_all.
  - eexists. split; [rewrite <- H1; apply surjective_pairing|exact H2].
Defined.
End examples.
