(* ===== verification/ProxyConnections.v ===== *)
(** * Connections of the active proxy: [ProxyConnection] of
    [src/addons/activeproxy/connection.cc]

    A connection relays bytes between a server of the network and a local
    service.  It lives on a libuv loop: its functions call libuv and libuv calls it
    back.  The model is a state monad over the connection and the proxy it belongs
    to ([World]); the result [None] is the end of the process: an exception that
    leaves a [noexcept] function, or an access through a null pointer.

    libuv and the random number generator are the interface [Uv]: their answer to
    a call may depend on all calls before it.  What libuv will call back (the
    requests and the closing handles it holds) is [c_callbacks].  The reference
    count is an unbounded number. *)

From S2P Require Import Prelude Ids Addresses Tokens Values Crypto PacketTypes Frames.

Inductive Handle := Relay | Upstream.

#[export] Instance Handle_eq_dec : EqDecision Handle.
Proof. solve_decision. Defined.

Inductive UvCall :=
  | uv_tcp_init (h : Handle)
  | uv_tcp_connect (h : Handle)
  | uv_read_start (h : Handle)
  | uv_read_stop (h : Handle)
  | uv_write (h : Handle) (data : list Z)
  | uv_shutdown (h : Handle)
  | uv_close (h : Handle)
  | uv_is_closing (h : Handle)
  | uv_stream_get_write_queue_size (h : Handle)
  | randombytes_uniform (n : Z)
  | randombytes_buf (n : Z).

(** The answers of libuv and libsodium to a call of a connection, after the calls
    in the list (the last one first). *)
Class Uv := {
  uv_answer : positive -> list UvCall -> UvCall -> Z;
  uv_bytes : positive -> list UvCall -> Z -> list Z
}.

(** The [handler] of a [WriteRequest]: none, that of [sendConnectResponse], that of [sendDataRequest]. *)
Inductive WriteHandler := NoHandler | ConnectAnswered (success : bool) | DataSent.

#[export] Instance WriteHandler_eq_dec : EqDecision WriteHandler.
Proof. solve_decision. Defined.

(** What libuv holds: the requests, each with a reference to the connection, and
    the callbacks of closing handles. *)
Inductive Callback :=
  | Cb_connect (h : Handle)
  | Cb_write_relay (type : PacketType) (handler : WriteHandler)
  | Cb_write_upstream
  | Cb_shutdown
  | Cb_close (h : Handle).

#[export] Instance Callback_eq_dec : EqDecision Callback.
Proof. solve_decision. Defined.

Record ProxyConnection := MkConn {
  c_ptr : positive;
  refCount : Z;
  c_state : ConnectionState;
  relay_data : bool;         (* [relay.data] is set *)
  upstream_data : bool;      (* [upstream.data] is set *)
  upstreamPaused : bool;
  upstreamClosed : bool;
  disconnectConfirms : Z;
  stickyBuffer : list Z;
  keepAliveTimestamp : Z;
  closeHandler : bool;       (* the handler of [onClosed] is set *)
  c_nonce : list Z;
  c_callbacks : list Callback;
  c_freed : bool;            (* [delete this] was reached *)
  c_log : list UvCall
}.

(** The state of [ActiveProxy] ([activeproxy.h]). *)
Record ActiveProxy := MkProxy {
  ap_nodeId : Id;
  ap_node : NodeKeys;
  sessionKey : KeyPair;
  serverPk : option (list Z);
  ap_box : list Z;
  serverId : Id;
  domainName : list Z;
  relayPort : Z;
  lastConnectTimestamp : Z;
  serverFails : Z;
  reconnectDelay : Z;
  idleTimestamp : Z;
  lastIdleCheckTimestamp : Z;
  lastHealthCheckTimestamp : Z;
  lastAnnouncePeerTimestamp : Z;
  peerKeypair : option KeyPair;
  ap_peer : option PeerInfo;
  maxConnections : Z;
  inFlights : Z;
  connections : list positive;
  running : bool
}.

(** [w_now] is [uv_now] of the loop, [w_time] is [currentTimeMillis]. *)
Record World := MkWorld { w_proxy : ActiveProxy; w_conn : ProxyConnection; w_now : Z; w_time : Z }.

(** ** The monad *)

Definition M (A : Type) : Type := World -> option (A * World).

#[export] Instance M_ret : MRet M := fun A a w => Some (a, w).
#[export] Instance M_bind : MBind M := fun A B f m w => match m w with Some (a, w') => f a w' | None => None end.

Definition terminate {A} : M A := fun _ => None.
Definition gets {A} (f : ProxyConnection -> A) : M A := fun w => Some (f (w_conn w), w).
Definition asks {A} (f : ActiveProxy -> A) : M A := fun w => Some (f (w_proxy w), w).
Definition modify (f : ProxyConnection -> ProxyConnection) : M unit :=
  fun w => Some (tt, MkWorld (w_proxy w) (f (w_conn w)) (w_now w) (w_time w)).
Definition modify_proxy (f : ActiveProxy -> ActiveProxy) : M unit :=
  fun w => Some (tt, MkWorld (f (w_proxy w)) (w_conn w) (w_now w) (w_time w)).
Definition uv_now : M Z := fun w => Some (w_now w, w).
Definition currentTimeMillis : M Z := fun w => Some (w_time w, w).
Definition lift {A} (r : result A) : M A := match r with Ok a => mret a | Throw _ => terminate end.
Definition when (b : bool) (m : M unit) : M unit := if b then m else mret tt.

(** ** Assignments to members *)

Definition set_refCount (r : Z) (f : bool) (c : ProxyConnection) : ProxyConnection :=
  MkConn (c_ptr c) r (c_state c) (relay_data c) (upstream_data c) (upstreamPaused c) (upstreamClosed c) (disconnectConfirms c)
    (stickyBuffer c) (keepAliveTimestamp c) (closeHandler c) (c_nonce c) (c_callbacks c) f (c_log c).
Definition set_state (s : ConnectionState) (c : ProxyConnection) : ProxyConnection :=
  MkConn (c_ptr c) (refCount c) s (relay_data c) (upstream_data c) (upstreamPaused c) (upstreamClosed c) (disconnectConfirms c)
    (stickyBuffer c) (keepAliveTimestamp c) (closeHandler c) (c_nonce c) (c_callbacks c) (c_freed c) (c_log c).
Definition set_data (h : Handle) (b : bool) (c : ProxyConnection) : ProxyConnection :=
  MkConn (c_ptr c) (refCount c) (c_state c) (match h with Relay => b | Upstream => relay_data c end)
    (match h with Upstream => b | Relay => upstream_data c end) (upstreamPaused c) (upstreamClosed c) (disconnectConfirms c)
    (stickyBuffer c) (keepAliveTimestamp c) (closeHandler c) (c_nonce c) (c_callbacks c) (c_freed c) (c_log c).
Definition set_paused (b : bool) (c : ProxyConnection) : ProxyConnection :=
  MkConn (c_ptr c) (refCount c) (c_state c) (relay_data c) (upstream_data c) b (upstreamClosed c) (disconnectConfirms c)
    (stickyBuffer c) (keepAliveTimestamp c) (closeHandler c) (c_nonce c) (c_callbacks c) (c_freed c) (c_log c).
Definition set_upstreamClosed (b : bool) (c : ProxyConnection) : ProxyConnection :=
  MkConn (c_ptr c) (refCount c) (c_state c) (relay_data c) (upstream_data c) (upstreamPaused c) b (disconnectConfirms c)
    (stickyBuffer c) (keepAliveTimestamp c) (closeHandler c) (c_nonce c) (c_callbacks c) (c_freed c) (c_log c).
Definition set_confirms (n : Z) (c : ProxyConnection) : ProxyConnection :=
  MkConn (c_ptr c) (refCount c) (c_state c) (relay_data c) (upstream_data c) (upstreamPaused c) (upstreamClosed c) n
    (stickyBuffer c) (keepAliveTimestamp c) (closeHandler c) (c_nonce c) (c_callbacks c) (c_freed c) (c_log c).
Definition set_sticky (b : list Z) (c : ProxyConnection) : ProxyConnection :=
  MkConn (c_ptr c) (refCount c) (c_state c) (relay_data c) (upstream_data c) (upstreamPaused c) (upstreamClosed c) (disconnectConfirms c)
    b (keepAliveTimestamp c) (closeHandler c) (c_nonce c) (c_callbacks c) (c_freed c) (c_log c).
Definition set_keepAlive (t : Z) (c : ProxyConnection) : ProxyConnection :=
  MkConn (c_ptr c) (refCount c) (c_state c) (relay_data c) (upstream_data c) (upstreamPaused c) (upstreamClosed c) (disconnectConfirms c)
    (stickyBuffer c) t (closeHandler c) (c_nonce c) (c_callbacks c) (c_freed c) (c_log c).
Definition set_closeHandler (b : bool) (c : ProxyConnection) : ProxyConnection :=
  MkConn (c_ptr c) (refCount c) (c_state c) (relay_data c) (upstream_data c) (upstreamPaused c) (upstreamClosed c) (disconnectConfirms c)
    (stickyBuffer c) (keepAliveTimestamp c) b (c_nonce c) (c_callbacks c) (c_freed c) (c_log c).
Definition set_nonce (n : list Z) (c : ProxyConnection) : ProxyConnection :=
  MkConn (c_ptr c) (refCount c) (c_state c) (relay_data c) (upstream_data c) (upstreamPaused c) (upstreamClosed c) (disconnectConfirms c)
    (stickyBuffer c) (keepAliveTimestamp c) (closeHandler c) n (c_callbacks c) (c_freed c) (c_log c).
Definition set_callbacks (l : list Callback) (c : ProxyConnection) : ProxyConnection :=
  MkConn (c_ptr c) (refCount c) (c_state c) (relay_data c) (upstream_data c) (upstreamPaused c) (upstreamClosed c) (disconnectConfirms c)
    (stickyBuffer c) (keepAliveTimestamp c) (closeHandler c) (c_nonce c) l (c_freed c) (c_log c).
Definition set_log (l : list UvCall) (c : ProxyConnection) : ProxyConnection :=
  MkConn (c_ptr c) (refCount c) (c_state c) (relay_data c) (upstream_data c) (upstreamPaused c) (upstreamClosed c) (disconnectConfirms c)
    (stickyBuffer c) (keepAliveTimestamp c) (closeHandler c) (c_nonce c) (c_callbacks c) (c_freed c) l.

Definition data_of (h : Handle) (c : ProxyConnection) : bool := match h with Relay => relay_data c | Upstream => upstream_data c end.

Definition set_node (n : NodeKeys) (p : ActiveProxy) : ActiveProxy :=
  MkProxy (ap_nodeId p) n (sessionKey p) (serverPk p) (ap_box p) (serverId p) (domainName p) (relayPort p) (lastConnectTimestamp p)
    (serverFails p) (reconnectDelay p) (idleTimestamp p) (lastIdleCheckTimestamp p) (lastHealthCheckTimestamp p)
    (lastAnnouncePeerTimestamp p) (peerKeypair p) (ap_peer p) (maxConnections p) (inFlights p) (connections p) (running p).
Definition set_authorized (pk : list Z) (port : Z) (box : list Z) (peer : option PeerInfo) (p : ActiveProxy) : ActiveProxy :=
  MkProxy (ap_nodeId p) (ap_node p) (sessionKey p) (Some pk) box (serverId p) (domainName p) port (lastConnectTimestamp p)
    (serverFails p) (reconnectDelay p) (idleTimestamp p) (lastIdleCheckTimestamp p) (lastHealthCheckTimestamp p)
    (lastAnnouncePeerTimestamp p) (peerKeypair p) peer (maxConnections p) (inFlights p) (connections p) (running p).
Definition set_fails (fails delay : Z) (p : ActiveProxy) : ActiveProxy :=
  MkProxy (ap_nodeId p) (ap_node p) (sessionKey p) (serverPk p) (ap_box p) (serverId p) (domainName p) (relayPort p) (lastConnectTimestamp p)
    fails delay (idleTimestamp p) (lastIdleCheckTimestamp p) (lastHealthCheckTimestamp p)
    (lastAnnouncePeerTimestamp p) (peerKeypair p) (ap_peer p) (maxConnections p) (inFlights p) (connections p) (running p).
Definition set_inFlights (n idle : Z) (p : ActiveProxy) : ActiveProxy :=
  MkProxy (ap_nodeId p) (ap_node p) (sessionKey p) (serverPk p) (ap_box p) (serverId p) (domainName p) (relayPort p) (lastConnectTimestamp p)
    (serverFails p) (reconnectDelay p) idle (lastIdleCheckTimestamp p) (lastHealthCheckTimestamp p)
    (lastAnnouncePeerTimestamp p) (peerKeypair p) (ap_peer p) (maxConnections p) n (connections p) (running p).
Definition set_connections (l : list positive) (p : ActiveProxy) : ActiveProxy :=
  MkProxy (ap_nodeId p) (ap_node p) (sessionKey p) (serverPk p) (ap_box p) (serverId p) (domainName p) (relayPort p) (lastConnectTimestamp p)
    (serverFails p) (reconnectDelay p) (idleTimestamp p) (lastIdleCheckTimestamp p) (lastHealthCheckTimestamp p)
    (lastAnnouncePeerTimestamp p) (peerKeypair p) (ap_peer p) (maxConnections p) (inFlights p) l (running p).

Definition UINT64_MAX : Z := 2 ^ 64 - 1.
Definition KEEP_ALIVE_INTERVAL : Z := 60000.
Definition MAX_KEEP_ALIVE_RETRY : Z := 3.
Definition MAX_DATA_PACKET_SIZE : Z := 0x7FFF.
Definition MAX_CONTROL_PACKET_SIZE : Z := 0x1000.
Definition MAX_UPSTREAM_READ_BUFFER_SIZE : Z := MAX_DATA_PACKET_SIZE - Z.of_nat PACKET_HEADER_BYTES - Z.of_nat MAC_BYTES.
Definition MAX_RELAY_WRITE_QUEUE_SIZE : Z := 2 * 1024 * 1024.
Definition AUTH_ACK_SIZE : Z := 3 + 16 + 32 + 2 + 1.
Definition CONNECT_REQ_SIZE : Z := 3 + 16 + 1 + 16 + 2.

Module ProxyConnection.

Section connection.
Context {sodium : Sodium} {sodiumBox : SodiumBox} {uv : Uv}.

(** ** Calls of libuv and references *)

Definition call (x : UvCall) : M Z :=
  c ← gets id;
  modify (set_log (x :: c_log c));;
  mret (uv_answer (c_ptr c) (c_log c) x).

(** [Random::buffer] *)
Definition random_buffer (n : Z) : M (list Z) :=
  c ← gets id;
  modify (set_log (randombytes_buf n :: c_log c));;
  mret (uv_bytes (c_ptr c) (c_log c) n).

Definition ref : M unit := modify (fun c => set_refCount (refCount c + 1) (c_freed c) c).
Definition unref : M unit :=
  modify (fun c => set_refCount (refCount c - 1) (c_freed c || (refCount c - 1 =? 0)) c).

(** libuv accepted a request, or the closing of a handle. *)
Definition hold (cb : Callback) : M unit := modify (fun c => set_callbacks (c_callbacks c ++ [cb]) c).

(** ** The handlers that [ActiveProxy::connect] sets *)

Definition onOpened : M unit := modify_proxy (set_fails 0 0).

Definition onOpenFailed : M unit :=
  modify_proxy (fun p =>
    let fails := u32 (serverFails p + 1) in
    set_fails fails (if reconnectDelay p <? 64 then u32 (Z.shiftl 1 fails * 1000) else reconnectDelay p) p).

Definition onBusy : M unit := modify_proxy (fun p => set_inFlights (u32 (inFlights p + 1)) UINT64_MAX p).

Definition onIdle : M unit :=
  now ← uv_now;
  modify_proxy (fun p => let n := u32 (inFlights p - 1) in set_inFlights n (if n =? 0 then now else idleTimestamp p) p).

(** The handler of [onClosed] takes the connection off the list, when it is there, and gives up its reference. *)
Fixpoint erase (c : positive) (l : list positive) : list positive :=
  match l with [] => [] | x :: l => if decide (x = c) then l else x :: erase c l end.

Definition onClosed : M unit :=
  h ← gets closeHandler;
  when h (c ← gets c_ptr; modify_proxy (fun p => set_connections (erase c (connections p)) p);; unref).

Definition onAuthorized (pk : list Z) (port : Z) (domainEnabled : bool) : M unit :=
  p ← asks id;
  box ← lift (CryptoBox.CryptoBox_new pk (kp_sk (sessionKey p)));
  peer ← match peerKeypair p with
         | Some kp =>
             peer ← lift (PeerInfo.PeerInfo_create (kp_sk kp) (serverId p) (ap_nodeId p) port (if domainEnabled then domainName p else []));
             mret (Some peer)
         | None => mret (ap_peer p)
         end;
  modify_proxy (set_authorized pk port box peer).

(** ** Encryption, with the session and with the keys of the node *)

Definition encrypt_session (size : nat) (plain : list Z) : M (list Z) :=
  box ← asks ap_box; nonce ← gets c_nonce; lift (CryptoBox.encrypt_into size plain nonce box).
Definition decrypt_session (size : Z) (cipher : list Z) : M (list Z) :=
  box ← asks ap_box; nonce ← gets c_nonce; lift (CryptoBox.decrypt_into size cipher nonce box).
Definition encryptWithNode (size : nat) (plain : list Z) : M (list Z) :=
  p ← asks id; time ← currentTimeMillis;
  let '(r, n) := NodeCrypto.encrypt_into time (serverId p) size plain (ap_node p) in
  modify_proxy (set_node n);; lift r.
Definition decryptWithNode (size : Z) (cipher : list Z) : M (list Z) :=
  p ← asks id; time ← currentTimeMillis;
  let '(r, n) := NodeCrypto.decrypt_into time (serverId p) size cipher (ap_node p) in
  modify_proxy (set_node n);; lift r.
Definition signWithNode (data : list Z) : M (list Z) := p ← asks id; lift (NodeCrypto.sign data (ap_node p)).

(** ** Closing *)

Definition close_handle (h : Handle) : M unit :=
  d ← gets (data_of h);
  when d (
    call (uv_read_stop h);;
    closing ← call (uv_is_closing h);
    when (closing =? 0) (call (uv_close h);; hold (Cb_close h))).

Definition close : M unit :=
  old ← gets c_state;
  if bool_decide (old = Closed) then mret tt else
  modify (set_state Closed);;
  when (ConnectionState.enum old <=? ConnectionState.enum Attaching) onOpenFailed;;
  when (bool_decide (old = Relaying)) onIdle;;
  close_handle Upstream;;
  close_handle Relay;;
  onClosed.

(** ** Sending *)

Definition randomPadding : M Z := call (randombytes_uniform 256).

Definition is_padded (type : PacketType) : bool :=
  negb (bool_decide (type = PacketType.AUTH)) && negb (bool_decide (type = PacketType.DATA)) && negb (bool_decide (type = PacketType.ERROR)).

Definition sendRelayPacket (type : PacketType) (payload : list Z) (handler : WriteHandler) : M unit :=
  st ← gets c_state;
  if bool_decide (st = Closed) then mret tt else
  padding ← (if is_padded type then randomPadding else mret 0);
  ref;;
  let size := Z.of_nat PACKET_HEADER_BYTES + Z.of_nat (length payload) + padding in
  r ← call (randombytes_uniform (PacketType.random_bound type));
  pad ← (if 0 <? padding then random_buffer padding else mret []);
  rc ← call (uv_write Relay (be16 (u16 size) ++ [PacketType.value type r] ++ payload ++ pad));
  if rc <? 0 then unref;; close else hold (Cb_write_relay type handler).

Definition sendAuthenticateRequest (sig : list Z) : M unit :=
  st ← gets c_state;
  if bool_decide (st = Closed) then mret tt else
  modify (set_state Authenticating);;
  p ← asks id;
  nonce ← random_buffer (Z.of_nat NONCE_BYTES);
  modify (set_nonce nonce);;
  padding ← randomPadding;
  pad ← random_buffer padding;
  let plain := kp_pk (sessionKey p) ++ nonce ++ sig ++ [u8 (Z.of_nat (length (domainName p)))] ++ domainName p ++ pad in
  cipher ← encryptWithNode (length plain + MAC_BYTES) plain;
  sendRelayPacket PacketType.AUTH (bytes (ap_nodeId p) ++ cipher) NoHandler.

Definition sendAttachRequest (sig : list Z) : M unit :=
  st ← gets c_state;
  if bool_decide (st = Closed) then mret tt else
  modify (set_state Attaching);;
  p ← asks id;
  nonce ← random_buffer (Z.of_nat NONCE_BYTES);
  modify (set_nonce nonce);;
  let plain := kp_pk (sessionKey p) ++ nonce ++ sig in
  cipher ← encryptWithNode (length plain + MAC_BYTES) plain;
  sendRelayPacket PacketType.ATTACH (bytes (ap_nodeId p) ++ cipher) NoHandler.

Definition sendPingRequest : M unit := sendRelayPacket PacketType.PING [] NoHandler.

Definition randomBoolean (v : bool) : M Z :=
  i ← call (randombytes_uniform 256);
  mret (if v then Z.lor (u8 i) 0x01 else Z.land (u8 i) 0xFE).

Definition sendConnectResponse (success : bool) : M unit :=
  data ← randomBoolean success;
  sendRelayPacket PacketType.CONNECT_ACK [data] (ConnectAnswered success).

Definition sendDisconnectRequest : M unit :=
  st ← gets c_state;
  if bool_decide (st = Closed) then mret tt else sendRelayPacket PacketType.DISCONNECT [] NoHandler.

Definition sendDisconnectResponse : M unit :=
  st ← gets c_state;
  if bool_decide (st = Closed) then mret tt else sendRelayPacket PacketType.DISCONNECT_ACK [] NoHandler.

Definition sendDataRequest (data : list Z) : M unit :=
  cipher ← encrypt_session (length data + MAC_BYTES) data;
  sendRelayPacket PacketType.DATA cipher DataSent;;
  n ← call (uv_stream_get_write_queue_size Relay);
  when (MAX_RELAY_WRITE_QUEUE_SIZE <=? n) (modify (set_paused true);; call (uv_read_stop Upstream);; mret tt).

(** ** The upstream connection *)

Definition closeUpstream2 : M unit :=
  c ← gets id;
  if bool_decide (c_state c = Closed) || bool_decide (c_state c = Idling) || upstreamClosed c then mret tt else
  modify (set_upstreamClosed true);;
  d ← gets upstream_data;
  if negb d then mret tt else
  closing ← call (uv_is_closing Upstream);
  if negb (closing =? 0) then mret tt else
  call (uv_close Upstream);; hold (Cb_close Upstream).

Definition closeUpstream : M unit :=
  c ← gets id;
  if bool_decide (c_state c = Closed) || bool_decide (c_state c = Idling) || upstreamClosed c then mret tt else
  modify (set_upstreamClosed true);;
  modify (set_state Disconnecting);;
  sendDisconnectRequest;;
  call (uv_read_stop Upstream);;
  ref;;
  rc ← call (uv_shutdown Upstream);
  if rc <? 0 then closeUpstream2;; unref else hold Cb_shutdown.

Definition startReadUpstream : M unit :=
  rc ← call (uv_read_start Upstream);
  when (rc <? 0) closeUpstream.

(** When [uv_tcp_init] fails, the function goes on all the same. *)
Definition openUpstream : M unit :=
  rc ← call (uv_tcp_init Upstream);
  when (rc <? 0) (sendConnectResponse false;; modify (set_state Idling);; onIdle);;
  ref;;
  modify (set_data Upstream true);;
  modify (set_upstreamClosed false);;
  ref;;
  rc ← call (uv_tcp_connect Upstream);
  if rc <? 0 then
    closeUpstream2;; modify (set_state Idling);; onIdle;; sendConnectResponse false;; unref
  else hold (Cb_connect Upstream).

(** ** Packets of the server; [buf] starts with the packet, which has [size] bytes *)

Definition onChallenge (data : list Z) (size : Z) : M unit :=
  if (size <? 32) || (256 <? size) then mret tt else
  sig ← signWithNode (take (Z.to_nat size) data);
  p ← asks id;
  if bool_decide (is_Some (serverPk p)) then sendAttachRequest sig else sendAuthenticateRequest sig.

Definition onAuthenticateResponse (buf : list Z) (size : Z) : M unit :=
  if size <? AUTH_ACK_SIZE then close else
  plain ← decryptWithNode (AUTH_ACK_SIZE - 3 - 16) (take (Z.to_nat (AUTH_ACK_SIZE - 3)) (drop PACKET_HEADER_BYTES buf));
  onAuthorized (take BOX_KEY_BYTES plain) (ntohs (drop BOX_KEY_BYTES plain)) (negb (nth 34 plain 0 =? 0));;
  modify (set_state Idling);;
  onOpened.

Definition onAttachResponse : M unit := modify (set_state Idling);; onOpened.

Definition onPingResponse : M unit := mret tt.

(** [ActiveProxy::allow] *)
Definition allow (client : SocketAddress) : bool := true.

Definition onConnectRequest (buf : list Z) (size : Z) : M unit :=
  if size <? CONNECT_REQ_SIZE then close else
  modify (set_state Relaying);;
  onBusy;;
  plain ← decrypt_session (CONNECT_REQ_SIZE - 3 - 16) (take (Z.to_nat (CONNECT_REQ_SIZE - 3)) (drop PACKET_HEADER_BYTES buf));
  let addrLen := nth 0 plain 0 in
  client ← match SocketAddress_of_blob (take (Z.to_nat addrLen) (drop 1 plain)) (ntohs (drop 17 plain)) with
           | Some a => mret a
           | None => terminate
           end;
  if allow client then
    modify (set_state Relaying);; openUpstream
  else
    sendConnectResponse false;; modify (set_state Idling);; onIdle.

(** [++disconnectConfirms == 2] and what follows. *)
Definition confirm_disconnect : M unit :=
  c ← gets id;
  let n := u32 (disconnectConfirms c + 1) in
  if n =? 2 then modify (set_confirms 0);; modify (set_state Idling);; onIdle else modify (set_confirms n).

Definition onDisconnectRequest : M unit := closeUpstream;; sendDisconnectResponse;; confirm_disconnect.

Definition onDisconnectResponse : M unit := confirm_disconnect.

(** A packet without room for a tag asks for a buffer that cannot be allocated. *)
Definition onDataRequest (buf : list Z) (size : Z) : M unit :=
  if size <? 3 + 16 then terminate else
  ref;;
  plain ← decrypt_session (size - 3 - 16) (take (Z.to_nat (size - 3)) (drop PACKET_HEADER_BYTES buf));
  rc ← call (uv_write Upstream plain);
  if rc <? 0 then closeUpstream;; unref else hold Cb_write_upstream.

Definition processRelayPacket (buf : list Z) (size : Z) : M unit :=
  st ← gets c_state;
  if bool_decide (st = Initializing) then onChallenge (drop 2 buf) (u64 (size - 2)) else
  match PacketType.valueOf (nth 2 buf 0) with
  | None => terminate
  | Some type =>
      if bool_decide (type = PacketType.ERROR) then
        if size <? 3 + 16 then terminate else
        decrypt_session (size - 3 - 16) (take (Z.to_nat (size - 3)) (drop PACKET_HEADER_BYTES buf));; close
      else if negb (ConnectionState.accept st type) then close
      else match type with
      | PacketType.AUTH_ACK => onAuthenticateResponse buf size
      | PacketType.ATTACH_ACK => onAttachResponse
      | PacketType.PING_ACK => onPingResponse
      | PacketType.CONNECT => onConnectRequest buf size
      | PacketType.DATA => onDataRequest buf size
      | PacketType.DISCONNECT => onDisconnectRequest
      | PacketType.DISCONNECT_ACK => onDisconnectResponse
      | _ => mret tt
      end
  end.

Definition process (buf : list Z) (size : Z) (w : World) : option World :=
  match processRelayPacket buf size w with Some (_, w') => Some w' | None => None end.

(** [onRelayRead] of the connection: the reassembly of [Frames] over [processRelayPacket]. *)
Definition set_conn (f : ProxyConnection -> ProxyConnection) (w : World) : World :=
  MkWorld (w_proxy w) (f (w_conn w)) (w_now w) (w_time w).

Definition onRelayRead (fuel : nat) (data : list Z) (w : World) : run World :=
  let w := set_conn (set_keepAlive (w_now w)) w in
  match Frames.onRelayRead process fuel (stickyBuffer (w_conn w)) data w with
  | Returned (sb, w') => Returned (set_conn (set_sticky sb) w')
  | Terminated => Terminated
  | Unfinished => Unfinished
  end.

(** ** What libuv calls *)

Definition establish : M unit :=
  rc ← call (uv_read_start Relay);
  when (rc <? 0) close.

Definition connectServer : M Z :=
  rc ← call (uv_tcp_init Relay);
  if rc <? 0 then mret rc else
  ref;;
  modify (set_data Relay true);;
  ref;;
  rc ← call (uv_tcp_connect Relay);
  if rc <? 0 then unref;; unref;; call (uv_close Relay);; mret rc
  else hold (Cb_connect Relay);; mret 0.

Definition on_connected_relay (status : Z) : M unit :=
  (if status <? 0 then close else establish);; unref.

Definition on_connected_upstream (status : Z) : M unit :=
  when (status <? 0) (closeUpstream2;; modify (set_state Idling);; onIdle);;
  sendConnectResponse (status =? 0);;
  unref.

Definition run_handler (h : WriteHandler) : M unit :=
  match h with
  | NoHandler => mret tt
  | ConnectAnswered success => d ← gets upstream_data; when (success && d) startReadUpstream
  | DataSent =>
      paused ← gets upstreamPaused;
      when paused (
        n ← call (uv_stream_get_write_queue_size Relay);
        when (n <=? Z.shiftr MAX_RELAY_WRITE_QUEUE_SIZE 2) (modify (set_paused false);; startReadUpstream))
  end.

Definition on_written_relay (h : WriteHandler) (status : Z) : M unit :=
  (if status <? 0 then close else run_handler h);; unref.

Definition on_written_upstream (status : Z) : M unit :=
  when (status <? 0) closeUpstream;; unref.

Definition on_shutdown : M unit := closeUpstream2;; unref.

(** The callbacks of [uv_close] read the connection from the handle. *)
Definition on_closed (h : Handle) : M unit :=
  d ← gets (data_of h);
  if negb d then terminate else modify (set_data h false);; unref.

Definition callback (cb : Callback) (status : Z) : M unit :=
  match cb with
  | Cb_connect Relay => on_connected_relay status
  | Cb_connect Upstream => on_connected_upstream status
  | Cb_write_relay _ h => on_written_relay h status
  | Cb_write_upstream => on_written_upstream status
  | Cb_shutdown => on_shutdown
  | Cb_close h => on_closed h
  end.

(** The end or an error of a stream that is read. *)
Definition on_relay_end : M unit := close.
Definition on_upstream_read (data : list Z) : M unit := sendDataRequest data.
Definition on_upstream_end : M unit := closeUpstream.

Definition periodicCheck : M unit :=
  st ← gets c_state;
  if bool_decide (st = Relaying) then mret tt else
  now ← uv_now;
  alive ← gets keepAliveTimestamp;
  if MAX_KEEP_ALIVE_RETRY * KEEP_ALIVE_INTERVAL <=? u64 (now - alive) then close else
  shift ← call (randombytes_uniform 10000);
  when (bool_decide (st = Idling) && (u32 (KEEP_ALIVE_INTERVAL - shift) <=? u64 (now - alive))) sendPingRequest.

(** [onClosed(nullptr)], [close] and [unref] of a connection that the proxy gives up, in [idleCheck] and [onStop]. *)
Definition abandon : M unit := modify (set_closeHandler false);; close;; unref.

(** The constructor; [ActiveProxy::connect] sets the handlers at once. *)
Definition ProxyConnection_new (ptr : positive) (now : Z) : ProxyConnection :=
  MkConn ptr 1 Initializing false false false true 0 [] now true (replicate NONCE_BYTES 0) [] false [].

(** ** The connection as a state machine

    Events come from libuv, from the proxy's timer ([Ev_periodic]), from the proxy that gives the
    connection up and cuts its list ([Ev_abandon]), and from the other connections, which share
    the proxy ([Ev_other]). *)

Inductive Event :=
  | Ev_callback (i : nat) (status : Z)
  | Ev_relay_data (data : list Z)
  | Ev_relay_end
  | Ev_upstream_data (data : list Z)
  | Ev_upstream_end
  | Ev_periodic
  | Ev_abandon
  | Ev_other (p : ActiveProxy) (now time : Z).

Definition as_run {A} (o : option (A * World)) : run World :=
  match o with Some (_, w) => Returned w | None => Terminated end.

(** The callbacks for bytes read the connection from the handle. *)
Definition exec (e : Event) (w : World) : run World :=
  match e with
  | Ev_callback i status =>
      match c_callbacks (w_conn w) !! i with
      | Some cb => as_run ((modify (set_callbacks (delete i (c_callbacks (w_conn w))));; callback cb status) w)
      | None => Terminated
      end
  | Ev_relay_data data => if relay_data (w_conn w) then onRelayRead (S (length data)) data w else Terminated
  | Ev_relay_end => if relay_data (w_conn w) then as_run (on_relay_end w) else Terminated
  | Ev_upstream_data data => if upstream_data (w_conn w) then as_run (on_upstream_read data w) else Terminated
  | Ev_upstream_end => if upstream_data (w_conn w) then as_run (on_upstream_end w) else Terminated
  | Ev_periodic => as_run (periodicCheck w)
  | Ev_abandon => as_run ((abandon;; c ← gets c_ptr; modify_proxy (fun p => set_connections (erase c (connections p)) p)) w)
  | Ev_other p now time => Returned (MkWorld p (w_conn w) now time)
  end.

(** What the calls so far mean for a handle. *)
Fixpoint is_closing (h : Handle) (log : list UvCall) : bool :=
  match log with
  | [] => false
  | uv_close h' :: log => if decide (h' = h) then true else is_closing h log
  | uv_tcp_init h' :: log => if decide (h' = h) then false else is_closing h log
  | _ :: log => is_closing h log
  end.

Fixpoint is_reading (h : Handle) (log : list UvCall) : bool :=
  match log with
  | [] => false
  | uv_read_start h' :: log => if decide (h' = h) then true else is_reading h log
  | uv_read_stop h' :: log | uv_close h' :: log | uv_tcp_init h' :: log => if decide (h' = h) then false else is_reading h log
  | _ :: log => is_reading h log
  end.

Definition request_on (h : Handle) (cb : Callback) : bool :=
  match cb with
  | Cb_connect h' => bool_decide (h' = h)
  | Cb_write_relay _ _ => bool_decide (h = Relay)
  | Cb_write_upstream | Cb_shutdown => bool_decide (h = Upstream)
  | Cb_close _ => false
  end.

(** The contract of libuv: a callback comes once; requests on a handle that is
    closing are cancelled, before the callback of the handle; bytes come from a handle
    that is being read.  The proxy checks and gives up the connections on its list, and what
    others do to the proxy leaves this connection's place on the list. *)
Definition possible (e : Event) (w : World) : Prop :=
  let c := w_conn w in
  match e with
  | Ev_callback i status =>
      exists cb, c_callbacks c !! i = Some cb /\
        (forall h, request_on h cb = true -> is_closing h (c_log c) = true -> status < 0) /\
        (forall h cb', cb = Cb_close h -> cb' ∈ c_callbacks c -> request_on h cb' = false)
  | Ev_relay_data data => is_reading Relay (c_log c) = true /\ is_closing Relay (c_log c) = false
  | Ev_relay_end => is_reading Relay (c_log c) = true /\ is_closing Relay (c_log c) = false
  | Ev_upstream_data data =>
      is_reading Upstream (c_log c) = true /\ is_closing Upstream (c_log c) = false /\
      Z.of_nat (length data) <= MAX_UPSTREAM_READ_BUFFER_SIZE
  | Ev_upstream_end => is_reading Upstream (c_log c) = true /\ is_closing Upstream (c_log c) = false
  | Ev_periodic | Ev_abandon => c_ptr c ∈ connections (w_proxy w)
  | Ev_other p _ _ =>
      length (kp_pk (sessionKey p)) = BOX_KEY_BYTES /\ domainName p = domainName (w_proxy w) /\
      (c_ptr c ∈ connections p <-> c_ptr c ∈ connections (w_proxy w)) /\
      (NoDup (connections (w_proxy w)) -> NoDup (connections p))
  end.

(** A new connection that [ActiveProxy::connect] put on its list, behind [connectServer]. *)
Definition started (w : World) : Prop :=
  exists p now time ptr rc,
    connectServer (MkWorld p (ProxyConnection_new ptr now) now time) = Some (rc, w) /\
    ptr ∈ connections p /\ NoDup (connections p) /\
    length (kp_pk (sessionKey p)) = BOX_KEY_BYTES /\ (length (domainName p) <= 255)%nat.

Inductive reachable : World -> Prop :=
  | reach_start w : started w -> reachable w
  | reach_step e w w' : reachable w -> possible e w -> exec e w = Returned w' -> reachable w'.

(** [possible] as a test, and runs by it. *)
Definition possibleb (e : Event) (w : World) : bool :=
  let c := w_conn w in
  match e with
  | Ev_callback i status =>
      match c_callbacks c !! i with
      | Some cb =>
          forallb (fun h => negb (request_on h cb && is_closing h (c_log c)) || (status <? 0)) [Relay; Upstream] &&
          match cb with Cb_close h => forallb (fun cb' => negb (request_on h cb')) (c_callbacks c) | _ => true end
      | None => false
      end
  | Ev_relay_data _ | Ev_relay_end => is_reading Relay (c_log c) && negb (is_closing Relay (c_log c))
  | Ev_upstream_data data =>
      is_reading Upstream (c_log c) && negb (is_closing Upstream (c_log c)) && (Z.of_nat (length data) <=? MAX_UPSTREAM_READ_BUFFER_SIZE)
  | Ev_upstream_end => is_reading Upstream (c_log c) && negb (is_closing Upstream (c_log c))
  | Ev_periodic | Ev_abandon => bool_decide (c_ptr c ∈ connections (w_proxy w))
  | Ev_other _ _ _ => false
  end.

Fixpoint run_events (es : list Event) (w : World) : option World :=
  match es with
  | [] => Some w
  | e :: es =>
      if possibleb e w then match exec e w with Returned w => run_events es w | _ => None end else None
  end.

Lemma possibleb_sound e w : possibleb e w = true -> possible e w.
Proof.
  destruct e as [i status|data| |data| | | |p now time]; simpl.
  - destruct (c_callbacks (w_conn w) !! i) as [cb|]; [|done]. intros [H1 H2]%andb_true_iff. exists cb. split; [done|]. split.
    + intros h Hr Hc. apply andb_true_iff in H1 as [Ha Hb]. apply andb_true_iff in Hb as [Hb _].
      destruct h; [rewrite Hr, Hc in Ha; by apply Z.ltb_lt in Ha|rewrite Hr, Hc in Hb; by apply Z.ltb_lt in Hb].
    + intros h cb' -> Hin. rewrite forallb_forall in H2. apply negb_true_iff, H2. by apply list_elem_of_In.
  - by intros [H1 H2%negb_true_iff]%andb_true_iff.
  - by intros [H1 H2%negb_true_iff]%andb_true_iff.
  - intros [[H1 H2%negb_true_iff]%andb_true_iff H3%Z.leb_le]%andb_true_iff. by split_and!.
  - by intros [H1 H2%negb_true_iff]%andb_true_iff.
  - apply bool_decide_eq_true_1.
  - apply bool_decide_eq_true_1.
  - done.
Qed.

Lemma run_events_reachable es w w' : reachable w -> run_events es w = Some w' -> reachable w'.
Proof.
  revert w. induction es as [|e es IH]; intros w Hw; simpl; [by intros [= <-]|].
  destruct (possibleb e w) eqn:Hp; [|done]. destruct (exec e w) as [w1| |] eqn:E; [|done..].
  apply IH. by eapply reach_step; [|apply possibleb_sound|].
Qed.

(** ** Reasoning about the monad *)

(** What holds of the result and of the world behind a computation that does not end the process. *)
Definition wp {A} (m : M A) (Q : A -> World -> Prop) (w : World) : Prop :=
  match m w with Some (a, w') => Q a w' | None => True end.

Lemma wp_bind {A B} (m : M A) (f : A -> M B) (Q : B -> World -> Prop) w :
  wp m (fun a => wp (f a) Q) w -> wp (m ≫= f) Q w.
Proof. unfold wp, mbind, M_bind. by destruct (m w) as [[a w']|]. Qed.

Lemma wp_mono {A} (m : M A) (Q R : A -> World -> Prop) w : wp m Q w -> (forall a w', Q a w' -> R a w') -> wp m R w.
Proof. unfold wp. destruct (m w) as [[a w']|]; eauto. Qed.

Lemma wp_lift {A} (r : result A) (Q : A -> World -> Prop) w : (forall a, r = Ok a -> Q a w) -> wp (lift r) Q w.
Proof. destruct r; intros HQ; [by apply HQ|done]. Qed.

Lemma wp_call (x : UvCall) (Q : Z -> World -> Prop) w :
  Q (uv_answer (c_ptr (w_conn w)) (c_log (w_conn w)) x) (set_conn (set_log (x :: c_log (w_conn w))) w) -> wp (call x) Q w.
Proof. done. Qed.

Lemma wp_random_buffer (n : Z) (Q : list Z -> World -> Prop) w :
  Q (uv_bytes (c_ptr (w_conn w)) (c_log (w_conn w)) n) (set_conn (set_log (randombytes_buf n :: c_log (w_conn w))) w) -> wp (random_buffer n) Q w.
Proof. done. Qed.

(** A computation that keeps an invariant of the world. *)
Definition keeps (I : World -> Prop) {A} (m : M A) : Prop := forall w, I w -> wp m (fun _ => I) w.

Section keeps.
Variable (I : World -> Prop).

Lemma keeps_bind {A B} (m : M A) (f : A -> M B) : keeps I m -> (forall a, keeps I (f a)) -> keeps I (m ≫= f).
Proof. intros Hm Hf w Hw. apply wp_bind. eapply wp_mono; [by apply Hm|]. intros a w'. apply Hf. Qed.

Lemma wp_keeps {A} (m : M A) (Q : A -> World -> Prop) w : keeps I m -> I w -> (forall a w', I w' -> Q a w') -> wp m Q w.
Proof. intros Hm Hw HQ. eapply wp_mono; [by apply Hm|]. intros a w'. apply HQ. Qed.

Lemma keeps_ret {A} (a : A) : keeps I (mret a).
Proof. by intros w Hw. Qed.

Lemma keeps_gets {A} (f : ProxyConnection -> A) : keeps I (gets f).
Proof. by intros w Hw. Qed.

Lemma keeps_asks {A} (f : ActiveProxy -> A) : keeps I (asks f).
Proof. by intros w Hw. Qed.

Lemma keeps_uv_now : keeps I uv_now.
Proof. by intros w Hw. Qed.

Lemma keeps_time : keeps I currentTimeMillis.
Proof. by intros w Hw. Qed.

Lemma keeps_terminate {A} : keeps I (@terminate A).
Proof. by intros w Hw. Qed.

Lemma keeps_lift {A} (r : result A) : keeps I (lift r).
Proof. intros w Hw. by apply wp_lift. Qed.

Lemma keeps_when (b : bool) (m : M unit) : keeps I m -> keeps I (when b m).
Proof. intros Hm. destruct b; [done|apply keeps_ret]. Qed.
End keeps.

(** A computation that does not end the process. *)
Definition total {A} (m : M A) : Prop := forall w, is_Some (m w).

Lemma total_bind {A B} (m : M A) (f : A -> M B) : total m -> (forall a, total (f a)) -> total (m ≫= f).
Proof. intros Hm Hf w. unfold mbind, M_bind. destruct (Hm w) as [[a w'] ->]. apply Hf. Qed.

Lemma total_ret {A} (a : A) : total (mret a).
Proof. intros w. eauto. Qed.

Lemma total_gets {A} (f : ProxyConnection -> A) : total (gets f).
Proof. intros w. eauto. Qed.

Lemma total_modify f : total (modify f).
Proof. intros w. eauto. Qed.

Lemma total_modify_proxy f : total (modify_proxy f).
Proof. intros w. eauto. Qed.

Lemma total_uv_now : total uv_now.
Proof. intros w. eauto. Qed.

Lemma total_call x : total (call x).
Proof. intros w. eauto. Qed.

Lemma total_random_buffer n : total (random_buffer n).
Proof. intros w. eauto. Qed.

Lemma total_when (b : bool) (m : M unit) : total m -> total (when b m).
Proof. intros Hm. destruct b; [done|apply total_ret]. Qed.

#[local] Ltac total_step :=
  match goal with
  | |- forall _, _ => intros ?
  | |- total (_ ≫= _) => apply total_bind
  | |- total (when _ _) => apply total_when
  | |- total (if ?b then _ else _) => destruct b
  | |- total _ => eauto using @total_ret, @total_gets, total_modify, total_modify_proxy, total_uv_now, total_call, total_random_buffer
  end.

Lemma total_close : total close.
Proof. unfold close, close_handle, onOpenFailed, onIdle, onClosed, unref, hold. repeat total_step. Qed.

Lemma total_sendRelayPacket type payload h : total (sendRelayPacket type payload h).
Proof. pose proof total_close. unfold sendRelayPacket, randomPadding, ref, unref, hold. repeat total_step. Qed.

Lemma total_closeUpstream : total closeUpstream.
Proof.
  pose proof total_sendRelayPacket. unfold closeUpstream, closeUpstream2, sendDisconnectRequest, ref, unref, hold. repeat total_step.
Qed.
End connection.

(** Composition of the lemmas on [keeps]. *)
Ltac keeps_step :=
  match goal with
  | |- forall _, _ => intros ?
  | |- keeps _ (_ ≫= _) => apply keeps_bind
  | |- keeps _ (mret _) => apply keeps_ret
  | |- keeps _ (gets _) => apply keeps_gets
  | |- keeps _ (asks _) => apply keeps_asks
  | |- keeps _ uv_now => apply keeps_uv_now
  | |- keeps _ currentTimeMillis => apply keeps_time
  | |- keeps _ terminate => apply keeps_terminate
  | |- keeps _ (lift _) => apply keeps_lift
  | |- keeps _ (when _ _) => apply keeps_when
  | |- keeps _ (if ?b then _ else _) => destruct b eqn:?
  | |- keeps _ (match ?x with _ => _ end) => destruct x eqn:?
  end.

Create HintDb keeps discriminated.
Ltac keeps_tac := repeat first [solve [eauto with keeps] | keeps_step].

End ProxyConnection.
