(* ===== verification/ProxyRelay.v ===== *)
(** * What a proxy connection sends: theorems on [ProxyConnections]

    Every packet a connection writes to the server has its length in its first two
    bytes and a type the other side can read, so that the reassembly of [Frames]
    gets the packets back; and the data of the two sides is relayed unchanged. *)

From S2P Require Import Prelude Ids Tokens Values Crypto PacketTypes Frames ProxyConnections.
Import ProxyConnection.

(** What the connection relies on: [randombytes_uniform] and [randombytes_buf] of libsodium. *)
Class UvRandom (uv : Uv) : Prop := {
  uniform_range ptr log n : 0 < n -> 0 <= uv_answer ptr log (randombytes_uniform n) < n;
  bytes_length ptr log n : 0 <= n -> Z.of_nat (length (uv_bytes ptr log n)) = n
}.

Module ProxyRelay.

Section relay.
Context {sodium : Sodium} {sodiumBox : SodiumBox} {uv : Uv} {random : UvRandom uv}.

(** A packet as the receiver of it can read it. *)
Definition packet_ok (d : list Z) : Prop :=
  Z.of_nat (length d) = ntohs d /\ (PACKET_HEADER_BYTES <= length d)%nat /\ is_Some (PacketType.valueOf (nth 2 d 0)).

Definition call_ok (x : UvCall) : Prop := match x with uv_write Relay d => packet_ok d | _ => True end.

(** The packets written to the server, in order. *)
Definition sent_packets (c : ProxyConnection) : list (list Z) :=
  reverse (omap (fun x => match x with uv_write Relay d => Some d | _ => None end) (c_log c)).

(** The domain name has to fit the field for its length. *)
Definition sends_ok (w : World) : Prop :=
  Forall call_ok (c_log (w_conn w)) /\ length (kp_pk (sessionKey (w_proxy w))) = BOX_KEY_BYTES /\
  (length (domainName (w_proxy w)) <= 255)%nat.

(** ** Lemmas *)

Lemma keeps_modify (f : ProxyConnection -> ProxyConnection) : (forall c, c_log (f c) = c_log c) -> keeps sends_ok (modify f).
Proof. intros Hf w Hw. unfold wp, sends_ok. simpl. by rewrite Hf. Qed.

Lemma keeps_modify_proxy (f : ActiveProxy -> ActiveProxy) :
  (forall p, sessionKey (f p) = sessionKey p /\ domainName (f p) = domainName p) -> keeps sends_ok (modify_proxy f).
Proof. intros Hf w Hw. unfold wp, sends_ok. simpl. by destruct (Hf (w_proxy w)) as [-> ->]. Qed.

Lemma keeps_call (x : UvCall) : call_ok x -> keeps sends_ok (call x).
Proof. intros Hx w [Hl Hw]. apply wp_call. split; [|done]. by constructor. Qed.

Lemma keeps_random_buffer n : keeps sends_ok (random_buffer n).
Proof. intros w [Hl Hw]. apply wp_random_buffer. split; [|done]. by constructor. Qed.
End relay.

Section relay.
Context {sodium : Sodium} {sodiumBox : SodiumBox} {uv : Uv} {random : UvRandom uv}.

#[local] Hint Extern 3 (keeps sends_ok (modify _)) => (apply keeps_modify; intros c; by destruct c) : keeps.
#[local] Hint Extern 3 (keeps sends_ok (modify_proxy _)) => (apply keeps_modify_proxy; intros p; by split) : keeps.
#[local] Hint Extern 3 (keeps sends_ok (call _)) => (apply keeps_call; done) : keeps.
#[local] Hint Resolve keeps_random_buffer : keeps.

Lemma keeps_ref : keeps sends_ok ref.
Proof. unfold ref. keeps_tac. Qed.
Lemma keeps_unref : keeps sends_ok unref.
Proof. unfold unref. keeps_tac. Qed.
Lemma keeps_hold cb : keeps sends_ok (hold cb).
Proof. unfold hold. keeps_tac. Qed.
Lemma keeps_onIdle : keeps sends_ok onIdle.
Proof. unfold onIdle. keeps_tac. Qed.
#[local] Hint Resolve keeps_ref keeps_unref keeps_hold keeps_onIdle : keeps.

Lemma keeps_close : keeps sends_ok close.
Proof. unfold close, close_handle, onOpenFailed, onClosed. keeps_tac. Qed.
#[local] Hint Resolve keeps_close : keeps.

(** The bytes of a packet. *)
Lemma packet_ok_made type r payload pad (size : Z) :
  0 <= r < PacketType.random_bound type -> type <> PacketType.ERROR ->
  size = 3 + Z.of_nat (length payload) + Z.of_nat (length pad) -> size < 65536 ->
  packet_ok (be16 (u16 size) ++ [PacketType.value type r] ++ payload ++ pad).
Proof.
  intros Hr Ht -> Hs. split_and!.
  - rewrite !length_app. unfold be16, ntohs. rewrite wrap_small by lia. cbn [app length].
    rewrite !(wrap_small 8) by (apply Z.mod_pos_bound; lia).
    rewrite (Z.mod_small (_ / 256)) by (split; [apply Z.div_pos|apply Z.div_lt_upper_bound]; lia).
    rewrite <- Z.div_mod by lia. lia.
  - rewrite !length_app. simpl. unfold PACKET_HEADER_BYTES. lia.
  - cbn [nth app be16]. destruct (PacketType.packet_type_spec type r Hr) as (_ & -> & _). rewrite decide_False by done. eauto.
Qed.

Lemma wp_uniform n (Q : Z -> World -> Prop) w :
  0 < n -> sends_ok w -> (forall r w', 0 <= r < n -> sends_ok w' -> Q r w') -> wp (call (randombytes_uniform n)) Q w.
Proof.
  intros Hn Hw HQ. apply wp_call, HQ; [by apply uniform_range|]. exact (keeps_call (randombytes_uniform n) I w Hw).
Qed.

Lemma wp_buffer n (Q : list Z -> World -> Prop) w :
  0 <= n -> sends_ok w -> (forall l w', Z.of_nat (length l) = n -> sends_ok w' -> Q l w') -> wp (random_buffer n) Q w.
Proof.
  intros Hn Hw HQ. apply wp_random_buffer, HQ; [by apply bytes_length|]. exact (keeps_random_buffer n w Hw).
Qed.

Lemma keeps_sendRelayPacket type payload h :
  type <> PacketType.ERROR -> 3 + Z.of_nat (length payload) + (if is_padded type then 255 else 0) < 65536 ->
  keeps sends_ok (sendRelayPacket type payload h).
Proof.
  intros Ht Hl. unfold sendRelayPacket. apply keeps_bind; [apply keeps_gets|]. intros st. case_bool_decide; [apply keeps_ret|].
  intros w Hw. apply wp_bind.
  assert (wp (if is_padded type then randomPadding else mret 0)
    (fun padding w => sends_ok w /\ 0 <= padding <= (if is_padded type then 255 else 0)) w) as Hp.
  { destruct (is_padded type); [|done]. apply wp_uniform; [done..|]. intros r w' Hr Hw'. split; [done|lia]. }
  eapply wp_mono; [exact Hp|]. clear w Hw Hp. intros padding w [Hw Hp].
  apply wp_bind, (wp_keeps sends_ok); [apply keeps_ref|done|]. clear w Hw. intros _ w Hw.
  apply wp_bind, wp_uniform; [by destruct type|done|]. clear w Hw. intros r w Hr Hw. apply wp_bind.
  assert (wp (if 0 <? padding then random_buffer padding else mret [])
    (fun pad w => sends_ok w /\ Z.of_nat (length pad) = padding) w) as Hb.
  { destruct (Z.ltb_spec 0 padding); [apply wp_buffer; [lia|done..]|]. split; [done|]. simpl. lia. }
  eapply wp_mono; [exact Hb|]. clear w Hw Hb. intros pad w [Hw Hpad].
  apply wp_bind, (wp_keeps sends_ok); [apply keeps_call|exact Hw|].
  - apply packet_ok_made; [done|done| |]; unfold PACKET_HEADER_BYTES; lia.
  - clear w Hw. intros rc. change (keeps sends_ok (if rc <? 0 then unref;; close else hold (Cb_write_relay type h))). keeps_tac.
Qed.

#[local] Hint Extern 3 (keeps sends_ok (sendRelayPacket _ _ _)) => (apply keeps_sendRelayPacket; [done|simpl; lia]) : keeps.

Lemma keeps_closeUpstream2 : keeps sends_ok closeUpstream2.
Proof. unfold closeUpstream2. keeps_tac. Qed.
#[local] Hint Resolve keeps_closeUpstream2 : keeps.

Lemma keeps_closeUpstream : keeps sends_ok closeUpstream.
Proof. unfold closeUpstream, sendDisconnectRequest. keeps_tac. Qed.
Lemma keeps_sendConnectResponse b : keeps sends_ok (sendConnectResponse b).
Proof. unfold sendConnectResponse, randomBoolean. keeps_tac. Qed.
#[local] Hint Resolve keeps_closeUpstream keeps_sendConnectResponse : keeps.

Lemma keeps_startReadUpstream : keeps sends_ok startReadUpstream.
Proof. unfold startReadUpstream. keeps_tac. Qed.
Lemma keeps_openUpstream : keeps sends_ok openUpstream.
Proof. unfold openUpstream. keeps_tac. Qed.
#[local] Hint Resolve keeps_startReadUpstream keeps_openUpstream : keeps.

(** The sealed requests fit into a packet. *)
Lemma wp_encryptWithNode size plain (Q : list Z -> World -> Prop) w :
  sends_ok w -> (forall c w', length c = (length plain + MAC_BYTES)%nat -> sends_ok w' -> Q c w') ->
  wp (encryptWithNode size plain) Q w.
Proof.
  intros Hw HQ. unfold encryptWithNode. do 2 apply wp_bind. unfold wp at 1 2. simpl.
  destruct (NodeCrypto.encrypt_into _ _ _ _ _) as [r n] eqn:E.
  apply wp_bind, (wp_keeps sends_ok); [apply keeps_modify_proxy; by intros p|done|]. intros _ w' Hw'. apply wp_lift.
  intros c ->. apply HQ; [|done]. unfold NodeCrypto.encrypt_into in E. destruct (NodeCrypto.context _ _ _) as [[cc|] n']; [|done].
  injection E as E _. unfold CryptoContext.encrypt_into, CryptoBox.encrypt_into in E.
  destruct (_ <? _)%nat; [done|]. destruct (box_seal _ _ _) eqn:Eb; [|done]. injection E as ->. by eapply box_seal_length.
Qed.

Lemma keeps_sendAuthenticateRequest sig : length sig = SIGNATURE_BYTES -> keeps sends_ok (sendAuthenticateRequest sig).
Proof.
  intros Hs. unfold sendAuthenticateRequest. apply keeps_bind; [apply keeps_gets|]. intros st. case_bool_decide; [apply keeps_ret|].
  apply keeps_bind; [keeps_tac|]. intros _ w Hw. apply wp_bind. unfold wp at 1. simpl. destruct (id Hw) as (_ & Hk & Hd).
  apply wp_bind, wp_buffer; [done..|]. intros nonce w1 Hn Hw1. apply wp_bind, (wp_keeps sends_ok); [keeps_tac|done|]. intros _ w2 Hw2.
  apply wp_bind, wp_uniform; [done..|]. intros padding w3 Hp Hw3. apply wp_bind, wp_buffer; [lia|done|]. intros pad w4 Hpad Hw4.
  apply wp_bind, wp_encryptWithNode; [done|]. intros cipher w5 Hc Hw5. apply keeps_sendRelayPacket; [done| |done].
  rewrite length_app, Hc, id_length. repeat rewrite ?length_app, ?length_cons. rewrite Hk, Hs.
  unfold BOX_KEY_BYTES, SIGNATURE_BYTES, MAC_BYTES, NONCE_BYTES in *. cbn [length]. destruct (is_padded _); lia.
Qed.

Lemma keeps_sendAttachRequest sig : length sig = SIGNATURE_BYTES -> keeps sends_ok (sendAttachRequest sig).
Proof.
  intros Hs. unfold sendAttachRequest. apply keeps_bind; [apply keeps_gets|]. intros st. case_bool_decide; [apply keeps_ret|].
  apply keeps_bind; [keeps_tac|]. intros _ w Hw. apply wp_bind. unfold wp at 1. simpl. destruct (id Hw) as (_ & Hk & Hd).
  apply wp_bind, wp_buffer; [done..|]. intros nonce w1 Hn Hw1. apply wp_bind, (wp_keeps sends_ok); [keeps_tac|done|]. intros _ w2 Hw2.
  apply wp_bind, wp_encryptWithNode; [done|]. intros cipher w5 Hc Hw5. apply keeps_sendRelayPacket; [done| |done].
  rewrite length_app, Hc, id_length. repeat rewrite ?length_app, ?length_cons. rewrite Hk, Hs.
  unfold BOX_KEY_BYTES, SIGNATURE_BYTES, MAC_BYTES, NONCE_BYTES in *. cbn [length]. destruct (is_padded _); lia.
Qed.

Lemma keeps_onChallenge data size : keeps sends_ok (onChallenge data size).
Proof.
  unfold onChallenge. destruct (_ || _); [apply keeps_ret|]. intros w Hw. apply wp_bind.
  assert (forall Q : list Z -> World -> Prop, (forall sig, length sig = SIGNATURE_BYTES -> Q sig w) ->
    wp (signWithNode (take (Z.to_nat size) data)) Q w) as Hs by (intros Q HQ; apply HQ, crypto_sign_length).
  apply Hs. intros sig Hl. apply wp_bind. unfold wp at 1. cbn [asks].
  case_bool_decide; [by apply keeps_sendAttachRequest|by apply keeps_sendAuthenticateRequest].
Qed.

Lemma keeps_sendDataRequest data :
  Z.of_nat (length data) <= MAX_UPSTREAM_READ_BUFFER_SIZE -> keeps sends_ok (sendDataRequest data).
Proof.
  intros Hl w Hw. unfold sendDataRequest. apply wp_bind. unfold encrypt_session.
  do 2 (apply wp_bind; unfold wp at 1; simpl). apply wp_lift. intros c Hc.
  assert (length c = (length data + MAC_BYTES)%nat) as Hcl.
  { unfold CryptoBox.encrypt_into in Hc. destruct (_ <? _)%nat; [done|]. destruct (box_seal _ _ _) eqn:E; [|done].
    injection Hc as ->. by eapply box_seal_length. }
  apply wp_bind, (wp_keeps sends_ok); [apply keeps_sendRelayPacket; [done|]|done|].
  - rewrite Hcl. unfold MAX_UPSTREAM_READ_BUFFER_SIZE, MAX_DATA_PACKET_SIZE, MAC_BYTES, PACKET_HEADER_BYTES in *. simpl in *. lia.
  - intros _. change (keeps sends_ok (n ← call (uv_stream_get_write_queue_size Relay);
      when (MAX_RELAY_WRITE_QUEUE_SIZE <=? n) (modify (set_paused true);; call (uv_read_stop Upstream);; mret tt))). keeps_tac.
Qed.
#[local] Hint Resolve keeps_onChallenge : keeps.

Lemma keeps_decrypt_session size c : keeps sends_ok (decrypt_session size c).
Proof. unfold decrypt_session. keeps_tac. Qed.
Lemma keeps_decryptWithNode size c : keeps sends_ok (decryptWithNode size c).
Proof. unfold decryptWithNode. keeps_tac. Qed.
Lemma keeps_onAuthorized pk port d : keeps sends_ok (onAuthorized pk port d).
Proof. unfold onAuthorized. keeps_tac. Qed.
Lemma keeps_onBusy : keeps sends_ok onBusy.
Proof. unfold onBusy. keeps_tac. Qed.
Lemma keeps_onOpened : keeps sends_ok onOpened.
Proof. unfold onOpened. keeps_tac. Qed.
Lemma keeps_confirm_disconnect : keeps sends_ok confirm_disconnect.
Proof. unfold confirm_disconnect. keeps_tac. Qed.
#[local] Hint Resolve keeps_decrypt_session keeps_decryptWithNode keeps_onAuthorized keeps_onBusy keeps_onOpened keeps_confirm_disconnect : keeps.

Lemma keeps_processRelayPacket buf size : keeps sends_ok (processRelayPacket buf size).
Proof.
  unfold processRelayPacket, onAuthenticateResponse, onAttachResponse, onPingResponse, onConnectRequest, onDataRequest,
    onDisconnectRequest, onDisconnectResponse, sendDisconnectResponse. keeps_tac.
Qed.

Lemma keeps_callback cb status : keeps sends_ok (callback cb status).
Proof.
  unfold callback, on_connected_relay, on_connected_upstream, on_written_relay, on_written_upstream, on_shutdown, on_closed,
    run_handler, establish. keeps_tac.
Qed.

Lemma keeps_periodicCheck : keeps sends_ok periodicCheck.
Proof. unfold periodicCheck, sendPingRequest. keeps_tac. Qed.

Lemma keeps_connectServer : keeps sends_ok connectServer.
Proof. unfold connectServer. keeps_tac. Qed.

Lemma keeps_run (A : Type) (m : M A) w w' : keeps sends_ok m -> sends_ok w -> as_run (m w) = Returned w' -> sends_ok w'.
Proof. intros Hm Hw. specialize (Hm w Hw). unfold wp in Hm. destruct (m w) as [[a w1]|]; [|done]. by intros [= <-]. Qed.

Lemma process_keeps buf size w w' : sends_ok w -> process buf size w = Some w' -> sends_ok w'.
Proof.
  intros Hw. unfold process. pose proof (keeps_processRelayPacket buf size w Hw) as H. unfold wp in H.
  destruct (processRelayPacket buf size w) as [[a w1]|]; [|done]. by intros [= <-].
Qed.

Lemma reachable_sends_ok w : reachable w -> sends_ok w.
Proof.
  induction 1 as [w (p & now & time & ptr & rc & E & _ & _ & Hk & Hd)|e w w' _ IH Hp E].
  - pose proof (keeps_connectServer (MkWorld p (ProxyConnection_new ptr now) now time)) as H. unfold wp in H. rewrite E in H.
    apply H. by split_and!.
  - destruct e as [i status|data| |data| | | |p now time]; simpl in E, Hp.
    + destruct (c_callbacks (w_conn w) !! i); [|done]. eapply (keeps_run _ _ w); [|exact IH|exact E].
      apply keeps_bind; [keeps_tac|]. intros _. apply keeps_callback.
    + destruct (relay_data (w_conn w)); [|done].
      unfold ProxyConnections.ProxyConnection.onRelayRead in E. destruct (Frames.onRelayRead _ _ _ _ _) as [[sb w1]| |] eqn:E1; [|done..].
      injection E as <-. apply (onRelayRead_keeps _ sends_ok) in E1; [done|apply process_keeps|done].
    + destruct (relay_data (w_conn w)); [|done]. eapply (keeps_run _ close); eauto using keeps_close.
    + destruct (upstream_data (w_conn w)); [|done]. destruct Hp as (_ & _ & Hp). eapply (keeps_run _ (sendDataRequest data)); eauto using keeps_sendDataRequest.
    + destruct (upstream_data (w_conn w)); [|done]. eapply (keeps_run _ closeUpstream); eauto using keeps_closeUpstream.
    + eapply (keeps_run _ periodicCheck); eauto using keeps_periodicCheck.
    + eapply keeps_run; [|exact IH|exact E]. unfold abandon. pose proof keeps_close. keeps_tac.
    + injection E as <-. destruct IH as (H1 & _ & H3), Hp as (Hk & Hd & _). split_and!; simpl; [done..|]. by rewrite Hd.
Qed.

Lemma sent_packets_ok w : sends_ok w -> Forall packet_ok (sent_packets (w_conn w)).
Proof.
  intros [H _]. unfold sent_packets. apply Forall_reverse. induction H as [|x l Hx _ IH]; [done|]. simpl.
  destruct x as [| | | |[] d| | | | | |]; simpl in *; try done. by constructor.
Qed.

Lemma packets_stream ps : Forall packet_ok ps -> stream (concat ps) ps [].
Proof.
  induction 1 as [|d ps (Hd & H3 & _) _ IH]; simpl; [|by constructor].
  constructor. left. unfold PACKET_HEADER_BYTES. simpl. lia.
Qed.

(** A packet is processed by its own bytes. *)
Lemma process_local (p l : list Z) w :
  (PACKET_HEADER_BYTES <= length p)%nat -> Z.of_nat (length p) = ntohs p ->
  process (p ++ l) (Z.of_nat (length p)) w = process p (Z.of_nat (length p)) w.
Proof.
  intros H3 Hn. pose proof (ntohs_bound p). unfold PACKET_HEADER_BYTES in *.
  assert (forall k n, (k + n <= length p)%nat -> take n (drop k (p ++ l)) = take n (drop k p)) as Ht.
  { intros k n Hkn. rewrite drop_app_le, take_app_le by (rewrite ?length_drop; lia). done. }
  unfold process. enough (processRelayPacket (p ++ l) (Z.of_nat (length p)) w = processRelayPacket p (Z.of_nat (length p)) w) as -> by done.
  unfold processRelayPacket, mbind, M_bind, gets. cbv beta iota.
  case_bool_decide.
  - unfold onChallenge. destruct (_ || _) eqn:E; [done|]. rewrite Ht; [done|].
    apply orb_false_iff in E as [E1 E2]. rewrite wrap_small in * by lia. lia.
  - rewrite app_nth1 by lia. destruct (PacketType.valueOf (nth 2 p 0)) as [t|]; [|done].
    case_bool_decide.
    { destruct (Z.ltb_spec (Z.of_nat (length p)) (3 + 16)); [done|]. unfold PACKET_HEADER_BYTES. rewrite Ht by lia. done. }
    destruct (negb _); [done|]. destruct t; try done.
    + unfold onAuthenticateResponse. destruct (Z.ltb_spec (Z.of_nat (length p)) AUTH_ACK_SIZE) as [|Ha]; [done|].
      unfold PACKET_HEADER_BYTES. rewrite Ht; [done|]. unfold AUTH_ACK_SIZE in *. lia.
    + unfold onConnectRequest. destruct (Z.ltb_spec (Z.of_nat (length p)) CONNECT_REQ_SIZE) as [|Ha]; [done|].
      unfold PACKET_HEADER_BYTES. rewrite Ht; [done|]. unfold CONNECT_REQ_SIZE in *. lia.
    + unfold onDataRequest. destruct (Z.ltb_spec (Z.of_nat (length p)) (3 + 16)); [done|]. unfold PACKET_HEADER_BYTES.
      rewrite Ht by lia. done.
Qed.

(** ** What reaches the other side *)

(** The bytes written to the service, in order. *)
Definition upstream_writes (c : ProxyConnection) : list (list Z) :=
  reverse (omap (fun x => match x with uv_write Upstream d => Some d | _ => None end) (c_log c)).

Definition writes (h : Handle) (c : ProxyConnection) : list (list Z) :=
  match h with Relay => sent_packets c | Upstream => upstream_writes c end.

Definition wrote (h : Handle) (l : list (list Z)) (w : World) : Prop := writes h (w_conn w) = l.

Definition writes_to (h : Handle) (x : UvCall) : bool := match x with uv_write h' _ => bool_decide (h' = h) | _ => false end.

Lemma writes_log h x c : writes_to h x = false -> writes h (set_log (x :: c_log c) c) = writes h c.
Proof. by destruct h, x as [| | | |[] d| | | | | |]. Qed.

Lemma writes_write h d c : writes h (set_log (uv_write h d :: c_log c) c) = writes h c ++ [d].
Proof. destruct h; unfold writes, sent_packets, upstream_writes; simpl; by rewrite reverse_cons. Qed.

Lemma wrote_modify h l (f : ProxyConnection -> ProxyConnection) : (forall c, c_log (f c) = c_log c) -> keeps (wrote h l) (modify f).
Proof. intros Hf w Hw. unfold wp, wrote, writes, sent_packets, upstream_writes in *. simpl. by rewrite Hf. Qed.

Lemma wrote_modify_proxy h l f : keeps (wrote h l) (modify_proxy f).
Proof. by intros w Hw. Qed.

Lemma wrote_call h l x : writes_to h x = false -> keeps (wrote h l) (call x).
Proof. intros Hx w Hw. apply wp_call. unfold wrote. simpl. by rewrite writes_log. Qed.

Lemma wrote_random_buffer h l n : keeps (wrote h l) (random_buffer n).
Proof. intros w Hw. apply wp_random_buffer. unfold wrote. simpl. by rewrite writes_log. Qed.

#[local] Hint Extern 3 (keeps (wrote _ _) (modify _)) => (apply wrote_modify; intros c; by destruct c) : keeps.
#[local] Hint Extern 3 (keeps (wrote _ _) (call _)) => (apply wrote_call; reflexivity) : keeps.
#[local] Hint Resolve wrote_modify_proxy wrote_random_buffer : keeps.

Lemma wrote_close h l : keeps (wrote h l) close.
Proof. unfold close, close_handle, onOpenFailed, onIdle, onClosed, unref, hold. keeps_tac. Qed.
#[local] Hint Resolve wrote_close : keeps.

Lemma wrote_closeUpstream l : keeps (wrote Upstream l) closeUpstream.
Proof.
  unfold closeUpstream, closeUpstream2, sendDisconnectRequest, sendRelayPacket, randomPadding, ref, unref, hold. keeps_tac.
Qed.

(** A DATA packet goes out whole. *)
Lemma sendRelayPacket_data cipher h l w :
  c_state (w_conn w) <> Closed -> wrote Relay l w ->
  wp (sendRelayPacket PacketType.DATA cipher h)
    (fun _ w' => exists r, 0 <= r < PacketType.random_bound PacketType.DATA /\
       wrote Relay (l ++ [be16 (u16 (3 + Z.of_nat (length cipher))) ++ [PacketType.value PacketType.DATA r] ++ cipher]) w') w.
Proof.
  intros Hst Hw. unfold sendRelayPacket. apply wp_bind. unfold wp at 1. cbn [gets]. rewrite bool_decide_eq_false_2 by done. change (is_padded PacketType.DATA) with false.
  apply wp_bind. change (0 <? 0) with false. unfold wp at 1. cbv iota. unfold mret at 1, M_ret at 1. cbv beta iota.
  apply wp_bind, (wp_keeps (wrote Relay l)); [unfold ref; keeps_tac|done|]. clear w Hst Hw. intros _ w Hw.
  apply wp_bind, wp_call. pose proof (uniform_range (c_ptr (w_conn w)) (c_log (w_conn w)) (PacketType.random_bound PacketType.DATA) ltac:(done)) as Hr.
  set (r := uv_answer _ _ _) in *. assert (wrote Relay l (set_conn (set_log (randombytes_uniform (PacketType.random_bound PacketType.DATA) :: c_log (w_conn w))) w)) as Hw1
    by exact (wrote_call Relay l (randombytes_uniform _) eq_refl w Hw). revert Hw1. generalize (set_conn (set_log (randombytes_uniform (PacketType.random_bound PacketType.DATA) :: c_log (w_conn w))) w).
  clearbody r. clear w Hw. intros w Hw. apply wp_bind. change (0 <? 0) with false. unfold wp at 1, mret at 1, M_ret at 1. cbv beta iota.
  apply wp_bind, wp_call. rewrite app_nil_r, Z.add_0_r. set (d := be16 _ ++ _).
  apply (wp_keeps (wrote Relay (l ++ [d]))); [unfold unref, hold; keeps_tac| |by eauto].
  unfold wrote in *. cbn [w_conn set_conn]. by rewrite (writes_write Relay), Hw.
Qed.

Lemma data_packet_ok cipher r :
  0 <= r < PacketType.random_bound PacketType.DATA -> 3 + Z.of_nat (length cipher) < 65536 ->
  let pkt := be16 (u16 (3 + Z.of_nat (length cipher))) ++ [PacketType.value PacketType.DATA r] ++ cipher in
  packet_ok pkt /\ PacketType.valueOf (nth 2 pkt 0) = Some PacketType.DATA /\ drop PACKET_HEADER_BYTES pkt = cipher.
Proof.
  intros Hr Hl pkt. split; [|split; [|done]].
  - pose proof (packet_ok_made PacketType.DATA r cipher [] (3 + Z.of_nat (length cipher)) Hr) as H. rewrite app_nil_r in H.
    apply H; [done| |done]. simpl. lia.
  - unfold pkt. cbn [nth app be16]. by destruct (PacketType.packet_type_spec PacketType.DATA r Hr) as (_ & -> & _).
Qed.

(** The first part of [sendDataRequest]. *)
Lemma sendDataRequest_sent data l w :
  c_state (w_conn w) <> Closed -> wrote Relay l w -> Z.of_nat (length data) <= MAX_UPSTREAM_READ_BUFFER_SIZE ->
  wp (sendDataRequest data) (fun _ w' => exists pkt, wrote Relay (l ++ [pkt]) w' /\ packet_ok pkt /\
    Z.of_nat (length pkt) <= MAX_DATA_PACKET_SIZE /\ PacketType.valueOf (nth 2 pkt 0) = Some PacketType.DATA /\
    box_open (ap_box (w_proxy w)) (c_nonce (w_conn w)) (drop PACKET_HEADER_BYTES pkt) = Some data) w.
Proof.
  intros Hst Hw Hl. unfold sendDataRequest, encrypt_session. apply wp_bind. do 2 (apply wp_bind; unfold wp at 1; cbn [asks gets]).
  apply wp_lift. intros c Hc. unfold CryptoBox.encrypt_into in Hc. rewrite Nat.ltb_irrefl in Hc.
  destruct (box_seal _ _ _) as [c'|] eqn:E; [|done]. injection Hc as <-.
  pose proof (box_seal_length _ _ _ _ E) as El. pose proof (box_open_seal _ _ _ _ E) as Eo.
  unfold MAX_UPSTREAM_READ_BUFFER_SIZE, MAX_DATA_PACKET_SIZE, MAC_BYTES, PACKET_HEADER_BYTES in *. simpl in Hl.
  apply wp_bind. eapply wp_mono; [by apply sendRelayPacket_data|]. intros _ w1 (r & Hr & H1). cbv beta.
  destruct (data_packet_ok c' r Hr) as (Hp & Ht & Hd); [lia|]. set (pkt := be16 _ ++ _) in *.
  apply (wp_keeps (wrote Relay (l ++ [pkt]))); [keeps_tac|done|]. intros _ w' Hw'. exists pkt. split_and!; try done.
  unfold pkt. rewrite !length_app. cbn [length be16]. lia.
Qed.

Lemma sendDataRequest_returns data w :
  is_Some (box_seal (ap_box (w_proxy w)) (c_nonce (w_conn w)) data) -> is_Some (sendDataRequest data w).
Proof.
  intros [c Hc]. unfold sendDataRequest, encrypt_session, mbind at 1, M_bind at 1. unfold CryptoBox.encrypt_into.
  unfold mbind at 1 2, M_bind at 1 2, asks, gets. cbv beta iota. rewrite Nat.ltb_irrefl, Hc. cbn [lift]. unfold mret at 1, M_ret at 1.
  unfold mbind at 1, M_bind at 1. destruct (total_sendRelayPacket PacketType.DATA c DataSent w) as [[a w1] ->].
  unfold mbind at 1, M_bind at 1. cbn [call]. destruct (total_call (uv_stream_get_write_queue_size Relay) w1) as [[n w2] ->].
  destruct (_ <=? _); simpl; unfold mret, M_ret; eauto.
Qed.

Lemma decrypt_session_data pkt data w (Q : list Z -> World -> Prop) :
  box_open (ap_box (w_proxy w)) (c_nonce (w_conn w)) (drop PACKET_HEADER_BYTES pkt) = Some data -> Q data w ->
  wp (decrypt_session (Z.of_nat (length pkt) - 3 - 16) (take (Z.to_nat (Z.of_nat (length pkt) - 3)) (drop PACKET_HEADER_BYTES pkt))) Q w.
Proof.
  intros Ho HQ. unfold decrypt_session. do 2 (apply wp_bind; unfold wp at 1; cbn [asks gets]). apply wp_lift. intros plain Hp.
  unfold CryptoBox.decrypt_into in Hp. destruct (_ <? _); [done|].
  rewrite take_ge in Hp by (rewrite length_drop; unfold PACKET_HEADER_BYTES; lia). rewrite Ho in Hp. by injection Hp as <-.
Qed.

Lemma onDataRequest_written pkt data w :
  box_open (ap_box (w_proxy w)) (c_nonce (w_conn w)) (drop PACKET_HEADER_BYTES pkt) = Some data ->
  wp (onDataRequest pkt (Z.of_nat (length pkt))) (fun _ => wrote Upstream (upstream_writes (w_conn w) ++ [data])) w.
Proof.
  intros Ho. unfold onDataRequest. destruct (_ <? _); [done|]. apply wp_bind. unfold ref, wp at 1. cbn [modify].
  apply wp_bind, (decrypt_session_data pkt data); [done|].
  apply wp_bind, wp_call, (wp_keeps (wrote Upstream (upstream_writes (w_conn w) ++ [data])));
    [|exact (writes_write Upstream data (w_conn w))|done].
  unfold unref, hold. pose proof wrote_closeUpstream. keeps_tac.
Qed.

Lemma onDataRequest_returns pkt data w :
  3 + 16 <= Z.of_nat (length pkt) < 65536 ->
  box_open (ap_box (w_proxy w)) (c_nonce (w_conn w)) (drop PACKET_HEADER_BYTES pkt) = Some data ->
  is_Some (onDataRequest pkt (Z.of_nat (length pkt)) w).
Proof.
  intros Hl Ho. unfold onDataRequest. destruct (Z.ltb_spec (Z.of_nat (length pkt)) (3 + 16)); [lia|].
  unfold ref, decrypt_session, CryptoBox.decrypt_into, mbind, M_bind, asks, gets, modify. cbv beta iota.
  cbn [w_proxy w_conn c_nonce set_refCount].
  rewrite take_ge by (rewrite length_drop; unfold PACKET_HEADER_BYTES; lia). rewrite length_drop, Ho, wrap_small by (unfold PACKET_HEADER_BYTES, MAC_BYTES; lia).
  destruct (Z.ltb_spec (Z.of_nat (length pkt) - 3 - 16) (Z.of_nat (length pkt - PACKET_HEADER_BYTES) - Z.of_nat MAC_BYTES)).
  { unfold PACKET_HEADER_BYTES, MAC_BYTES in *. lia. }
  cbn [lift]. unfold mret at 1, M_ret at 1.
  set (w1 := MkWorld _ _ _ _). destruct (total_call (uv_write Upstream data) w1) as [[rc w2] ->].
  destruct (rc <? 0); [|unfold hold, modify; eauto].
  destruct (total_closeUpstream w2) as [[a w3] ->]. unfold unref, modify. eauto.
Qed.

(** The packets written, read by the reassembly. *)
Lemma reassembled {S} (process : list Z -> Z -> S -> option S) (chunks ps : list (list Z)) (s : S) :
  (forall p l s, (PACKET_HEADER_BYTES <= length p)%nat -> Z.of_nat (length p) = ntohs p ->
     process (p ++ l) (Z.of_nat (length p)) s = process p (Z.of_nat (length p)) s) ->
  Forall packet_ok ps -> concat chunks = concat ps ->
  read_all process chunks [] s = outcome_of [] (process_all process ps s).
Proof.
  intros Hl Hp E. apply read_all_stream; [done| |].
  - left. unfold PACKET_HEADER_BYTES. simpl. lia.
  - rewrite E. by apply packets_stream.
Qed.

(** ** Theorems *)

(** C10: However the bytes of the server are cut into reads, the connection
    processes the packets of the byte stream, whole and in order, and keeps the
    start of the next one.  Each read ends, for every stream whose packets have
    at least a header. *)
Theorem relay_reads_refine_stream (chunks ps : list (list Z)) (r : list Z) (w : World) :
  stream (concat chunks) ps r -> read_all process chunks [] w = outcome_of r (process_all process ps w).
Proof.
  intros Hs. apply read_all_stream; [exact process_local| |done]. left. unfold PACKET_HEADER_BYTES. simpl. lia.
Qed.

(** Every packet a connection writes has its size in its first two bytes and
    a type that can be read, whatever happened before; so a receiver that uses the
    reassembly of this program gets exactly these packets, in order, however the
    bytes arrive. *)
Theorem sent_packets_reassembled (w : World) (chunks : list (list Z)) {S} (process : list Z -> Z -> S -> option S) (s : S) :
  reachable w -> concat chunks = concat (sent_packets (w_conn w)) ->
  (forall p l s, (PACKET_HEADER_BYTES <= length p)%nat -> Z.of_nat (length p) = ntohs p ->
     process (p ++ l) (Z.of_nat (length p)) s = process p (Z.of_nat (length p)) s) ->
  Forall packet_ok (sent_packets (w_conn w)) /\
  read_all process chunks [] s = outcome_of [] (process_all process (sent_packets (w_conn w)) s).
Proof.
  intros Hr%reachable_sends_ok%sent_packets_ok E Hl. split; [done|]. by apply reassembled.
Qed.

(** What the service sends, the connection sends on in one DATA packet of at
    most [MAX_DATA_PACKET_SIZE] bytes that opens to the same bytes; and the
    contents of a DATA packet from the server are written to the service.  Neither
    ends the process. *)
Theorem data_relayed (data pkt : list Z) (w : World) :
  c_state (w_conn w) = Relaying -> upstream_data (w_conn w) = true ->
  (Z.of_nat (length data) <= MAX_UPSTREAM_READ_BUFFER_SIZE -> is_Some (box_seal (ap_box (w_proxy w)) (c_nonce (w_conn w)) data) ->
   exists w' pkt, exec (Ev_upstream_data data) w = Returned w' /\
     sent_packets (w_conn w') = sent_packets (w_conn w) ++ [pkt] /\ packet_ok pkt /\
     Z.of_nat (length pkt) <= MAX_DATA_PACKET_SIZE /\ PacketType.valueOf (nth 2 pkt 0) = Some PacketType.DATA /\
     box_open (ap_box (w_proxy w)) (c_nonce (w_conn w)) (drop PACKET_HEADER_BYTES pkt) = Some data) /\
  (3 + 16 <= Z.of_nat (length pkt) < 65536 -> PacketType.valueOf (nth 2 pkt 0) = Some PacketType.DATA ->
   box_open (ap_box (w_proxy w)) (c_nonce (w_conn w)) (drop PACKET_HEADER_BYTES pkt) = Some data ->
   exists w', process pkt (Z.of_nat (length pkt)) w = Some w' /\
     upstream_writes (w_conn w') = upstream_writes (w_conn w) ++ [data]).
Proof.
  intros Hr Hu. split.
  - intros Hl Hb. pose proof (sendDataRequest_sent data (sent_packets (w_conn w)) w ltac:(congruence) eq_refl Hl) as H.
    unfold wp in H. simpl. rewrite Hu. unfold on_upstream_read. destruct (sendDataRequest_returns data w Hb) as [[a w1] E]. rewrite E in *.
    destruct H as (p & H). by exists w1, p.
  - intros Hl Ht Ho. unfold process, processRelayPacket, mbind, M_bind, gets. cbv beta iota.
    rewrite bool_decide_eq_false_2 by (by rewrite Hr). rewrite Ht, Hr. rewrite bool_decide_eq_false_2 by done.
    change (negb (ConnectionState.accept Relaying PacketType.DATA)) with false. cbv iota.
    pose proof (onDataRequest_written pkt data w Ho) as H. unfold wp in H.
    destruct (onDataRequest_returns pkt data w Hl Ho) as [[a w1] E]. rewrite E in *. eauto.
Qed.

(** A length field of 0 makes the loop of [onRelayRead] endless, in the state
    in which the first packet arrives; a length field below 3 whose bytes arrive
    in two reads makes the connection swallow all further bytes. *)
Theorem short_packet_hangs (data : list Z) (w : World) :
  (stickyBuffer (w_conn w) = [] -> c_state (w_conn w) = Initializing -> (PACKET_HEADER_BYTES <= length data)%nat ->
   ntohs data = 0 -> forall fuel, ProxyConnection.onRelayRead fuel data w = Unfinished) /\
  ((PACKET_HEADER_BYTES <= length (stickyBuffer (w_conn w)))%nat -> ntohs (stickyBuffer (w_conn w)) < 3 ->
   Z.of_nat (length (stickyBuffer (w_conn w)) + length data) < 2 ^ 63 -> forall fuel,
   exists w', ProxyConnection.onRelayRead fuel data w = Returned w' /\ w_proxy w' = w_proxy w /\
     c_log (w_conn w') = c_log (w_conn w) /\ stickyBuffer (w_conn w') = stickyBuffer (w_conn w) ++ data).
Proof.
  unfold ProxyConnection.onRelayRead. split.
  - intros Hs Hst H3 H0 fuel. cbn [w_conn set_conn set_keepAlive stickyBuffer]. rewrite Hs.
    unfold Frames.onRelayRead. rewrite bool_decide_eq_true_2 by done.
    set (w0 := set_conn (set_keepAlive (w_now w)) w). assert (c_state (w_conn w0) = Initializing) as Hst0 by done.
    clearbody w0. enough (read_loop process fuel data w0 = Unfinished) as -> by done.
    induction fuel as [|fuel IH]; [done|]. simpl.
    rewrite bool_decide_eq_false_2 by (destruct data; simpl in *; unfold PACKET_HEADER_BYTES in *; [lia|done]).
    destruct (Nat.ltb_spec (length data) PACKET_HEADER_BYTES); [lia|]. rewrite H0.
    destruct (Z.ltb_spec (Z.of_nat (length data)) 0); [lia|]. replace (process data 0 w0) with (Some w0); [by rewrite drop_0|].
    unfold process, processRelayPacket, mbind, M_bind, gets. cbv beta iota. by rewrite Hst0, bool_decide_eq_true_2.
  - intros H3 Hn Hl fuel. rewrite short_frame_blocks; [|done|unfold PACKET_HEADER_BYTES in *; simpl; lia|done].
    eexists. split; [done|]. by split_and!.
Qed.
End relay.
End ProxyRelay.
