(* ===== verification/ProxyLifetime.v ===== *)
(** * The lifetime of a proxy connection: theorems on [ProxyConnections]

    A connection is deleted when its last reference goes.  References are held by
    the proxy's list, by every request libuv has, and by the two handles as long as
    they are open or their closing callback is to come.  The invariant [counted]
    says that all of them are counted, with [k] references of the running
    function besides. *)

From S2P Require Import Prelude Ids Values Crypto PacketTypes Frames ProxyConnections ProxyRelay.
Import ProxyConnection ProxyRelay.

(** The documented meaning of [uv_is_closing]. *)
Class UvHandles (uv : Uv) : Prop := {
  answers_closing ptr log h : (uv_answer ptr log (uv_is_closing h) =? 0) = negb (is_closing h log)
}.

(** A libuv for which starting a write to the server and initialising the second handle do not fail at once.  The
    theorems are about the runs of any libuv in which they did not. *)
Class UvStarts (uv : Uv) : Prop := {
  write_starts ptr log d : is_closing Relay log = false -> 0 <= uv_answer ptr log (uv_write Relay d);
  init_succeeds ptr log : 0 <= uv_answer ptr log (uv_tcp_init Upstream)
}.

(** The place of a connection: on the list of the proxy with the handler of its closing, on it without the handler,
    or off it. *)
Inductive Place := Listed | Given_up | Gone.

#[export] Instance Place_eq_dec : EqDecision Place.
Proof. solve_decision. Defined.

Module ProxyLifetime.

Section lifetime.
Context {sodium : Sodium} {sodiumBox : SodiumBox} {uv : Uv} {handles : UvHandles uv} {starts : UvStarts uv}.

(** The handle is open and refers to the connection. *)
Definition open (h : Handle) (c : ProxyConnection) : bool := data_of h c && negb (is_closing h (c_log c)).

Definition holders (c : ProxyConnection) : Z :=
  Z.of_nat (length (c_callbacks c)) + Z.b2z (open Relay c) + Z.b2z (open Upstream c).

Definition on_list (o : Place) : bool := match o with Listed | Given_up => true | Gone => false end.

Record counted (owned : Place) (k : Z) (st : ConnectionState) (w : World) : Prop := {
  ct_state : c_state (w_conn w) = st;
  ct_refs : Z.b2z (on_list owned) + holders (w_conn w) + k <= refCount (w_conn w);
  ct_freed : c_freed (w_conn w) = true -> refCount (w_conn w) = 0;
  ct_owned : c_ptr (w_conn w) ∈ connections (w_proxy w) <-> on_list owned = true;
  ct_nodup : NoDup (connections (w_proxy w));
  ct_handler : on_list owned = true -> closeHandler (w_conn w) = bool_decide (owned = Listed);
  ct_relay : st <> Closed -> is_closing Relay (c_log (w_conn w)) = false;
  ct_k : 0 <= k
}.

Definition live (k : Z) (w : World) : Prop := exists st, st <> Closed /\ counted Listed k st w.
Definition dead (k : Z) (w : World) : Prop := counted Gone k Closed w.
Definition inv (k : Z) (w : World) : Prop := live k w \/ dead k w.

(** ** The primitives *)

Lemma holders_nonneg c : 0 <= holders c.
Proof. unfold holders. destruct (open Relay c), (open Upstream c); simpl; lia. Qed.

Lemma wp_ref k st w : counted Listed k st w -> wp ref (fun _ => counted Listed (k + 1) st) w.
Proof.
  intros [H1 H2 H3 H4 H5 H6 H8 H7]. pose proof (holders_nonneg (w_conn w)). unfold wp, ref, modify.
  split; cbn [w_conn w_proxy set_refCount refCount c_freed]; try done; try lia.
  - change (holders (set_refCount _ _ (w_conn w))) with (holders (w_conn w)). lia.
  - intros Hf. specialize (H3 Hf). simpl in *. lia.
Qed.

Lemma wp_unref o k st w : 0 <= k -> counted o (k + 1) st w -> wp unref (fun _ => counted o k st) w.
Proof.
  intros Hk [H1 H2 H3 H4 H5 H6 H8 H7]. pose proof (holders_nonneg (w_conn w)). unfold wp, unref, modify.
  split; cbn [w_conn w_proxy set_refCount refCount c_freed]; try done.
  - change (holders (set_refCount _ _ (w_conn w))) with (holders (w_conn w)). lia.
  - destruct (c_freed (w_conn w)); simpl.
    + specialize (H3 eq_refl). destruct o; simpl in *; lia.
    + intros Hf%Z.eqb_eq. lia.
Qed.

Lemma wp_hold o k st cb w : 0 <= k -> counted o (k + 1) st w -> wp (hold cb) (fun _ => counted o k st) w.
Proof.
  intros Hk [H1 H2 H3 H4 H5 H6 H8 H7]. unfold wp, hold, modify. split; cbn [w_conn w_proxy set_callbacks refCount c_freed]; try done.
  unfold holders in *. cbn [c_callbacks set_callbacks]. rewrite length_app. cbn [length].
  change (open Relay (set_callbacks _ (w_conn w))) with (open Relay (w_conn w)).
  change (open Upstream (set_callbacks _ (w_conn w))) with (open Upstream (w_conn w)). lia.
Qed.

(** A call that neither closes nor initialises a handle. *)
Definition neutral (x : UvCall) : bool := match x with uv_close _ | uv_tcp_init _ => false | _ => true end.

Lemma keeps_counted_call o k st x : neutral x = true -> keeps (counted o k st) (call x).
Proof.
  intros Hx w [H1 H2 H3 H4 H5 H6 H8 H7]. apply wp_call. split; try done; destruct x; done.
Qed.

Lemma keeps_random o k st n : keeps (counted o k st) (random_buffer n).
Proof. intros w [H1 H2 H3 H4 H5 H6 H8 H7]. apply wp_random_buffer. by split. Qed.

(** Assignments to members that do not count. *)
Definition silent (f : ProxyConnection -> ProxyConnection) : Prop :=
  forall c, c_ptr (f c) = c_ptr c /\ refCount (f c) = refCount c /\ c_state (f c) = c_state c /\ holders (f c) = holders c /\
    c_freed (f c) = c_freed c /\ closeHandler (f c) = closeHandler c /\ c_log (f c) = c_log c.

Lemma keeps_silent o k st f : silent f -> keeps (counted o k st) (modify f).
Proof.
  intros Hf w [H1 H2 H3 H4 H5 H6 H8 H7]. destruct (Hf (w_conn w)) as (E1 & E2 & E3 & E4 & E5 & E6 & E7). unfold wp. simpl.
  split; simpl; by rewrite ?E1, ?E2, ?E3, ?E4, ?E5, ?E6, ?E7.
Qed.

Lemma keeps_proxy o k st f : (forall p, connections (f p) = connections p) -> keeps (counted o k st) (modify_proxy f).
Proof. intros Hf w [H1 H2 H3 H4 H5 H6 H8 H7]. unfold wp. simpl. split; simpl; by rewrite ?Hf. Qed.

Lemma wp_set_state o k st st' w : (st' = Closed \/ st <> Closed) -> counted o k st w -> wp (modify (set_state st')) (fun _ => counted o k st') w.
Proof. intros Hs [H1 H2 H3 H4 H5 H6 H8 H7]. split; try done. intros Hst. apply H8. by destruct Hs as [->|]. Qed.

(** ** Closing *)

Lemma wp_uv_close o k st h w :
  (h = Upstream \/ st = Closed) -> counted o k st w -> open h (w_conn w) = true ->
  wp (call (uv_close h)) (fun _ => counted o (k + 1) st) w.
Proof.
  intros Hh [H1 H2 H3 H4 H5 H6 H8 H7] Ho. apply wp_call. split; cbn [w_conn w_proxy set_conn set_log refCount c_freed]; try done; [|by destruct Hh as [->|]|lia].
  unfold holders in *. cbn [c_callbacks set_log]. unfold open, data_of in *.
  destruct h; cbn [relay_data upstream_data set_log c_log is_closing];
    rewrite ?decide_True, ?(decide_False (P := Relay = Upstream)), ?(decide_False (P := Upstream = Relay)) by done;
    rewrite Ho in H2; rewrite ?andb_false_r; simpl in *; lia.
Qed.

(** Closing an open handle hands its reference to the callback. *)
Lemma keeps_close_handle o k h : keeps (counted o k Closed) (close_handle h).
Proof.
  set (st := Closed).
  unfold close_handle. intros w Hw. apply wp_bind. unfold wp at 1. cbn [gets]. destruct (data_of h (w_conn w)) eqn:Ed; [|done].
  cbn [when]. apply wp_bind, wp_call. apply (keeps_counted_call o k st (uv_read_stop h) eq_refl) in Hw.
  apply wp_bind, wp_call. apply (keeps_counted_call o k st (uv_is_closing h) eq_refl) in Hw. rewrite answers_closing.
  set (w2 := set_conn _ (set_conn _ w)). change (counted o k st w2) in Hw.
  destruct (negb _) eqn:Eo; [|done]. cbn [when]. apply wp_bind. eapply wp_mono; [apply wp_uv_close; [by right|exact Hw|]|].
  - unfold open. change (data_of h (w_conn w2)) with (data_of h (w_conn w)). by rewrite Ed.
  - intros ? w3 Hw3. apply wp_hold; [exact (ct_k _ _ _ _ Hw)|done].
Qed.

Lemma erase_spec x l : NoDup l -> NoDup (erase x l) /\ x ∉ erase x l /\ forall y, y <> x -> (y ∈ erase x l <-> y ∈ l).
Proof.
  induction 1 as [|y l Hy Hl IH]; simpl; [split_and!; [constructor|apply not_elem_of_nil|done]|]. destruct (decide (y = x)) as [->|Hne].
  - split_and!; [done..|]. intros z Hz. rewrite elem_of_cons. split; [by right|by intros [?|?]].
  - destruct IH as (IH1 & IH2 & IH3). split_and!.
    + constructor; [|done]. by rewrite IH3.
    + rewrite not_elem_of_cons. by split.
    + intros z Hz. rewrite !elem_of_cons. by rewrite IH3.
Qed.

Lemma wp_onClosed k w : counted Listed k Closed w -> wp onClosed (fun _ => dead k) w.
Proof.
  intros Hw. unfold onClosed. apply wp_bind. unfold wp at 1. cbn [gets]. rewrite (ct_handler _ _ _ _ Hw), bool_decide_eq_true_2 by done. cbn [when].
  apply wp_bind. unfold wp at 1. cbn [gets]. apply wp_bind. unfold wp at 1, modify_proxy.
  destruct Hw as [H1 H2 H3 H4 H5 H6 H8 H7]. destruct (erase_spec (c_ptr (w_conn w)) _ H5) as (E1 & E2 & _).
  apply wp_unref; [done|]. split; cbn [w_conn w_proxy set_connections connections]; try done; simpl in *; lia.
Qed.

Lemma keeps_counted_onIdle o k st : keeps (counted o k st) onIdle.
Proof. unfold onIdle. apply keeps_bind; [apply keeps_uv_now|]. intros n. by apply keeps_proxy. Qed.

(** The part of [close] behind the assignment of the state, up to the handler. *)
Lemma wp_closing o k old Q w :
  counted o k Closed w -> (forall w, counted o k Closed w -> wp onClosed Q w) ->
  wp (when (ConnectionState.enum old <=? ConnectionState.enum Attaching) onOpenFailed;; when (bool_decide (old = Relaying)) onIdle;;
      close_handle Upstream;; close_handle Relay;; onClosed) Q w.
Proof.
  intros Hw HQ.
  apply wp_bind, (wp_keeps (counted o k Closed)); [apply keeps_when; by apply keeps_proxy|done|]. clear w Hw. intros _ w Hw.
  apply wp_bind, (wp_keeps (counted o k Closed)); [apply keeps_when, keeps_counted_onIdle|done|]. clear w Hw. intros _ w Hw.
  apply wp_bind, (wp_keeps (counted o k Closed)); [apply keeps_close_handle|done|]. clear w Hw. intros _ w Hw.
  apply wp_bind, (wp_keeps (counted o k Closed)); [apply keeps_close_handle|done|]. clear w Hw. intros _ w Hw. by apply HQ.
Qed.

Lemma close_live k w : live k w -> wp close (fun _ => dead k) w.
Proof.
  intros (st & Hst & Hw). unfold close. apply wp_bind. unfold wp at 1. cbn [gets]. rewrite (ct_state _ _ _ _ Hw).
  rewrite bool_decide_eq_false_2 by done. apply wp_bind. eapply wp_mono; [apply (wp_set_state Listed k st Closed); [by left|done]|]. intros ? w1 H1.
  apply (wp_closing Listed k); [done|apply wp_onClosed].
Qed.

(** The proxy gives the connection up: the reference of the list is the last that the function drops. *)
Lemma wp_abandoned k w : counted Given_up k Closed w -> wp (unref;; c ← gets c_ptr; modify_proxy (fun p => set_connections (erase c (connections p)) p)) (fun _ => dead k) w.
Proof.
  intros [H1 H2 H3 H4 H5 H6 H8 H7]. destruct (erase_spec (c_ptr (w_conn w)) _ H5) as (E1 & E2 & _).
  apply (wp_unref Gone k (Closed) (MkWorld (set_connections (erase (c_ptr (w_conn w)) (connections (w_proxy w))) (w_proxy w)) (w_conn w) (w_now w) (w_time w))); [done|].
  split; cbn [w_conn w_proxy set_connections connections on_list Z.b2z] in *; try done; lia.
Qed.

Definition leave : M unit := abandon;; c ← gets c_ptr; modify_proxy (fun p => set_connections (erase c (connections p)) p).

Lemma leave_from st w :
  c_state (w_conn w) = st -> st <> Closed ->
  counted Given_up 0 Closed (set_conn (fun c => set_state Closed (set_closeHandler false c)) w) -> wp leave (fun _ => dead 0) w.
Proof.
  intros Hs Hne Hw. unfold leave, abandon. apply wp_bind, wp_bind. unfold wp at 1, modify. apply wp_bind.
  unfold close. apply wp_bind. unfold wp at 1. cbn [gets w_conn c_state set_closeHandler]. rewrite Hs, bool_decide_eq_false_2 by done.
  apply wp_bind. unfold wp at 1, modify. cbn [w_proxy w_conn w_now w_time]. apply (wp_closing Given_up 0); [exact Hw|].
  clear. intros w Hw. unfold onClosed. apply wp_bind. unfold wp at 1. cbn [gets]. rewrite (ct_handler _ _ _ _ Hw), bool_decide_eq_false_2 by done. cbn [when].
  pose proof (wp_abandoned 0 w Hw) as H. unfold wp, mbind, M_bind, mret, M_ret in *. simpl in *. exact H.
Qed.

Lemma leave_live w : live 0 w -> wp leave (fun _ => dead 0) w.
Proof.
  intros (st & Hst & [H1 H2 H3 H4 H5 H6 H8 H7]). apply (leave_from st); [done..|]. split; try done.
Qed.

Lemma close_dead k w : dead k w -> wp close (fun _ => dead k) w.
Proof.
  intros Hw. unfold close. apply wp_bind. unfold wp at 1. cbn [gets]. rewrite (ct_state _ _ _ _ Hw).
  by rewrite bool_decide_eq_true_2.
Qed.

Lemma close_inv k w : inv k w -> wp close (fun _ => inv k) w.
Proof. intros [Hw|Hw]; (eapply wp_mono; [|intros a w' Hw'; right; exact Hw']); [by apply close_live|by apply close_dead]. Qed.

(** ** Sending *)

Lemma keeps_counted_sendRelayPacket o k st type payload h :
  (o = Listed \/ st = Closed) -> keeps (counted o k st) (sendRelayPacket type payload h).
Proof.
  intros Ho w Hw. pose proof (ct_k _ _ _ _ Hw) as Hk. unfold sendRelayPacket. apply wp_bind. unfold wp at 1. cbn [gets]. rewrite (ct_state _ _ _ _ Hw).
  case_bool_decide as Hst; [done|]. destruct Ho as [->|]; [|done].
  apply wp_bind, (wp_keeps (counted Listed k st)); [destruct (is_padded type); [by apply keeps_counted_call|apply keeps_ret]|done|].
  clear w Hw. intros padding w Hw. apply wp_bind. eapply wp_mono; [by apply wp_ref|]. clear w Hw. intros ? w Hw.
  apply wp_bind, (wp_keeps (counted Listed (k + 1) st)); [by apply keeps_counted_call|done|]. clear w Hw. intros r w Hw.
  apply wp_bind, (wp_keeps (counted Listed (k + 1) st)); [destruct (0 <? padding); [apply keeps_random|apply keeps_ret]|done|].
  clear w Hw. intros pad w Hw. apply wp_bind, wp_call.
  match goal with |- context [uv_write Relay ?d] =>
    pose proof (write_starts (c_ptr (w_conn w)) (c_log (w_conn w)) d (ct_relay _ _ _ _ Hw Hst)) as Hwr;
    apply (keeps_counted_call Listed (k + 1) st (uv_write Relay d) eq_refl) in Hw end.
  rewrite (proj2 (Z.ltb_ge _ _) Hwr).
  apply wp_hold; [done|exact Hw].
Qed.

Lemma counted_live k st w : st <> Closed -> counted Listed k st w -> live k w.
Proof. by exists st. Qed.

Lemma live_state k w : live k w -> c_state (w_conn w) <> Closed.
Proof. intros (st & Hst & Hw). by rewrite (ct_state _ _ _ _ Hw). Qed.

Lemma live_refs k w : live k w -> c_freed (w_conn w) = false /\ 0 <= k.
Proof.
  intros (st & Hst & Hw). pose proof (holders_nonneg (w_conn w)). destruct Hw as [_ H2 H3 _ _ _ _ H7]. split; [|done].
  destruct (c_freed (w_conn w)); [|done]. specialize (H3 eq_refl). simpl in *. lia.
Qed.

(** What keeps [counted] in every state keeps [live] and [dead]. *)
Lemma keeps_live {A} (m : M A) k : (forall st, keeps (counted Listed k st) m) -> keeps (live k) m.
Proof.
  intros Hm w (st & Hst & Hw). eapply wp_mono; [by apply Hm|]. intros a w' Hw'. by eapply counted_live.
Qed.

Lemma keeps_live_call k x : neutral x = true -> keeps (live k) (call x).
Proof. intros Hx. apply keeps_live. intros st. by apply keeps_counted_call. Qed.

Lemma keeps_live_silent k f : silent f -> keeps (live k) (modify f).
Proof. intros Hf. apply keeps_live. intros st. by apply keeps_silent. Qed.

Lemma keeps_live_proxy k f : (forall p, connections (f p) = connections p) -> keeps (live k) (modify_proxy f).
Proof. intros Hf. apply keeps_live. intros st. by apply keeps_proxy. Qed.

Lemma keeps_live_send k type payload h : keeps (live k) (sendRelayPacket type payload h).
Proof. apply keeps_live. intros st. apply keeps_counted_sendRelayPacket. by left. Qed.

Lemma keeps_live_state k st : st <> Closed -> keeps (live k) (modify (set_state st)).
Proof.
  intros Hst w (st0 & Hst0 & Hw). eapply wp_mono; [apply (wp_set_state Listed k st0 st); [by right|done]|]. intros a w' Hw'. exact (counted_live _ _ _ Hst Hw').
Qed.

Lemma keeps_live_onIdle k : keeps (live k) onIdle.
Proof. apply keeps_live. intros st. apply keeps_counted_onIdle. Qed.

Lemma live_ref k w : live k w -> wp ref (fun _ => live (k + 1)) w.
Proof. intros (st & Hst & Hw). eapply wp_mono; [by apply wp_ref|]. intros a w' Hw'. by eapply counted_live. Qed.

Lemma live_unref k w : 0 <= k -> live (k + 1) w -> wp unref (fun _ => live k) w.
Proof. intros Hk (st & Hst & Hw). eapply wp_mono; [by apply wp_unref|]. intros a w' Hw'. by eapply counted_live. Qed.

Lemma live_hold k cb w : 0 <= k -> live (k + 1) w -> wp (hold cb) (fun _ => live k) w.
Proof. intros Hk (st & Hst & Hw). eapply wp_mono; [by apply wp_hold|]. intros a w' Hw'. by eapply counted_live. Qed.

Lemma silent_upstreamClosed b : silent (set_upstreamClosed b).
Proof. intros c. by split_and!. Qed.
Lemma silent_paused b : silent (set_paused b).
Proof. intros c. by split_and!. Qed.
Lemma silent_confirms n : silent (set_confirms n).
Proof. intros c. by split_and!. Qed.
Lemma silent_nonce n : silent (set_nonce n).
Proof. intros c. by split_and!. Qed.

(** ** The upstream connection *)

Lemma keeps_counted_closeUpstream2 o k st : keeps (counted o k st) closeUpstream2.
Proof.
  intros w Hw. unfold closeUpstream2. apply wp_bind. unfold wp at 1. cbn [gets id]. destruct (_ || _); [done|].
  apply wp_bind, (wp_keeps (counted o k st)); [apply keeps_silent, silent_upstreamClosed|done|]. clear w Hw. intros _ w Hw.
  apply wp_bind. unfold wp at 1. cbn [gets]. destruct (upstream_data (w_conn w)) eqn:Ed; [|done]. cbn [negb].
  apply wp_bind, wp_call. rewrite answers_closing. apply (keeps_counted_call o k st (uv_is_closing Upstream) eq_refl) in Hw.
  rewrite negb_involutive. destruct (is_closing Upstream (c_log (w_conn w))) eqn:Ec; [exact Hw|].
  apply wp_bind. eapply wp_mono; [apply wp_uv_close; [by left|exact Hw|]|].
  - unfold open. simpl. by rewrite Ed, Ec.
  - intros ? w3 Hw3. apply wp_hold; [exact (ct_k _ _ _ _ Hw)|done].
Qed.

Lemma keeps_counted_sendConnectResponse o k st b : (o = Listed \/ st = Closed) -> keeps (counted o k st) (sendConnectResponse b).
Proof.
  intros Ho. unfold sendConnectResponse, randomBoolean. apply keeps_bind; [|intros d; by apply keeps_counted_sendRelayPacket].
  apply keeps_bind; [by apply keeps_counted_call|]. intros i. apply keeps_ret.
Qed.

Lemma keeps_live_closeUpstream2 k : keeps (live k) closeUpstream2.
Proof. apply keeps_live. intros st. apply keeps_counted_closeUpstream2. Qed.

Lemma keeps_live_sendConnectResponse k b : keeps (live k) (sendConnectResponse b).
Proof. apply keeps_live. intros st. apply keeps_counted_sendConnectResponse. by left. Qed.

Lemma keeps_live_closeUpstream k : keeps (live k) closeUpstream.
Proof.
  intros w Hw. destruct (live_refs _ _ Hw) as [_ Hk]. unfold closeUpstream. apply wp_bind. unfold wp at 1. cbn [gets id]. destruct (_ || _); [done|].
  apply wp_bind, (wp_keeps (live k)); [apply keeps_live_silent, silent_upstreamClosed|done|]. clear w Hw. intros _ w Hw.
  apply wp_bind, (wp_keeps (live k)); [by apply keeps_live_state|done|]. clear w Hw. intros _ w Hw.
  apply wp_bind, (wp_keeps (live k)); [|done|].
  { unfold sendDisconnectRequest. apply keeps_bind; [apply keeps_gets|]. intros st. case_bool_decide; [apply keeps_ret|apply keeps_live_send]. }
  clear w Hw. intros _ w Hw. apply wp_bind, (wp_keeps (live k)); [by apply keeps_live_call|done|]. clear w Hw. intros _ w Hw.
  apply wp_bind. eapply wp_mono; [by apply live_ref|]. clear w Hw. intros ? w Hw.
  apply wp_bind, (wp_keeps (live (k + 1))); [by apply keeps_live_call|done|]. clear w Hw. intros rc w Hw.
  destruct (rc <? 0); [|by apply live_hold].
  apply wp_bind, (wp_keeps (live (k + 1))); [apply keeps_live_closeUpstream2|done|]. clear w Hw. intros _ w Hw. by apply live_unref.
Qed.

Lemma keeps_dead_closeUpstream k : keeps (dead k) closeUpstream.
Proof.
  intros w Hw. unfold closeUpstream. apply wp_bind. unfold wp at 1. cbn [gets id].
  by rewrite (ct_state _ _ _ _ Hw), bool_decide_eq_true_2.
Qed.

(** Initialising a handle again loses the reference of the handle before, and never takes one too many. *)
Lemma keeps_live_openUpstream k : keeps (live k) openUpstream.
Proof.
  intros w Hw. destruct (live_refs _ _ Hw) as [_ Hk]. unfold openUpstream. apply wp_bind, wp_call.
  rewrite (proj2 (Z.ltb_ge _ _) (init_succeeds _ _)). cbn [when]. apply wp_bind. unfold wp at 1, mret, M_ret.
  apply wp_bind. unfold ref at 1, wp at 1, modify. apply wp_bind. unfold wp at 1, modify.
  set (w1 := MkWorld _ _ _ _). assert (live k w1) as H1.
  { destruct Hw as (st & Hst & [E1 E2 E3 E4 E5 E6 E8 E7]). exists st. split; [done|]. pose proof (holders_nonneg (w_conn w)) as Hn.
    split; unfold w1; cbn [w_conn w_proxy set_conn set_data set_refCount set_log refCount c_freed]; try done.
    - unfold holders in *. cbn [c_callbacks set_conn w_conn set_data set_refCount set_log]. unfold open in *.
      cbn [data_of relay_data upstream_data set_data set_refCount set_log c_log is_closing set_conn w_conn].
      rewrite (decide_True (P := Upstream = Upstream)), (decide_False (P := Upstream = Relay)) by done. simpl in *. destruct (upstream_data _ && _); simpl in *; lia.
    - intros Hf. specialize (E3 Hf). simpl in *. lia. }
  clearbody w1. clear w Hw. revert w1 H1. intros w Hw.
  apply wp_bind, (wp_keeps (live k)); [apply keeps_live_silent, silent_upstreamClosed|done|]. clear w Hw. intros _ w Hw.
  apply wp_bind. eapply wp_mono; [by apply live_ref|]. clear w Hw. intros ? w Hw.
  apply wp_bind, (wp_keeps (live (k + 1))); [by apply keeps_live_call|done|]. clear w Hw. intros rc w Hw.
  destruct (rc <? 0); [|by apply live_hold].
  apply wp_bind, (wp_keeps (live (k + 1))); [apply keeps_live_closeUpstream2|done|]. clear w Hw. intros _ w Hw.
  apply wp_bind, (wp_keeps (live (k + 1))); [by apply keeps_live_state|done|]. clear w Hw. intros _ w Hw.
  apply wp_bind, (wp_keeps (live (k + 1))); [apply keeps_live_onIdle|done|]. clear w Hw. intros _ w Hw.
  apply wp_bind, (wp_keeps (live (k + 1))); [apply keeps_live_sendConnectResponse|done|]. clear w Hw. intros _ w Hw. by apply live_unref.
Qed.

(** ** Packets *)

#[local] Hint Extern 3 (keeps (live _) (call _)) => (apply keeps_live_call; reflexivity) : keeps.
#[local] Hint Extern 3 (keeps (live _) (modify (set_state _))) => (apply keeps_live_state; discriminate) : keeps.
#[local] Hint Extern 4 (keeps (live _) (modify _)) => (apply keeps_live_silent; intros c; by split_and!) : keeps.
#[local] Hint Extern 3 (keeps (live _) (modify_proxy _)) => (apply keeps_live_proxy; done) : keeps.
#[local] Hint Resolve keeps_live_send keeps_live_onIdle keeps_live_closeUpstream keeps_live_closeUpstream2 keeps_live_openUpstream
  keeps_live_sendConnectResponse : keeps.

Lemma keeps_live_random k n : keeps (live k) (random_buffer n).
Proof. apply keeps_live. intros st. apply keeps_random. Qed.
#[local] Hint Resolve keeps_live_random : keeps.

Lemma keeps_live_onChallenge k data size : keeps (live k) (onChallenge data size).
Proof.
  unfold onChallenge, signWithNode, sendAttachRequest, sendAuthenticateRequest, encryptWithNode, randomPadding. keeps_tac.
Qed.

Lemma keeps_live_decrypt k size c : keeps (live k) (decrypt_session size c).
Proof. unfold decrypt_session. keeps_tac. Qed.
Lemma keeps_live_decryptWithNode k size c : keeps (live k) (decryptWithNode size c).
Proof. unfold decryptWithNode. keeps_tac. Qed.
Lemma keeps_live_confirm k : keeps (live k) confirm_disconnect.
Proof. unfold confirm_disconnect. keeps_tac. Qed.
#[local] Hint Resolve keeps_live_onChallenge keeps_live_decrypt keeps_live_decryptWithNode keeps_live_confirm : keeps.

Lemma keeps_live_onDataRequest k buf size : keeps (live k) (onDataRequest buf size).
Proof.
  intros w Hw. destruct (live_refs _ _ Hw) as [_ Hk]. unfold onDataRequest. destruct (_ <? _); [done|].
  apply wp_bind. eapply wp_mono; [by apply live_ref|]. clear w Hw. intros ? w Hw.
  apply wp_bind, (wp_keeps (live (k + 1))); [keeps_tac|done|]. clear w Hw. intros plain w Hw.
  apply wp_bind, (wp_keeps (live (k + 1))); [keeps_tac|done|]. clear w Hw. intros rc w Hw.
  destruct (rc <? 0); [|by apply live_hold].
  apply wp_bind, (wp_keeps (live (k + 1))); [keeps_tac|done|]. clear w Hw. intros _ w Hw. by apply live_unref.
Qed.

Lemma live_inv {A} (m : M A) k w : keeps (live k) m -> live k w -> wp m (fun _ => inv k) w.
Proof. intros Hm Hw. apply (wp_keeps (live k)); [done..|]. by left. Qed.

Lemma processRelayPacket_inv k buf size w : inv k w -> wp (processRelayPacket buf size) (fun _ => inv k) w.
Proof.
  intros [Hw|Hw]; unfold processRelayPacket; apply wp_bind; unfold wp at 1; cbn [gets].
  - case_bool_decide; [apply live_inv; [keeps_tac|done]|].
    destruct (PacketType.valueOf _) as [t|]; [|done]. case_bool_decide.
    { destruct (_ <? _); [done|]. apply wp_bind, (wp_keeps (live k)); [keeps_tac|done|]. intros _ w1 H1. apply close_inv. by left. }
    destruct (negb _); [apply close_inv; by left|]. unfold onAuthenticateResponse, onConnectRequest.
    destruct t; try solve [apply live_inv; [unfold onAttachResponse, onPingResponse, onDisconnectRequest, onDisconnectResponse,
      sendDisconnectResponse, onOpened; auto using keeps_live_onDataRequest; keeps_tac|done]].
    + destruct (_ <? _); [apply close_inv; by left|]. apply live_inv; [|done]. unfold onAuthorized, onOpened. keeps_tac.
    + destruct (_ <? _); [apply close_inv; by left|]. apply live_inv; [|done]. unfold onBusy. keeps_tac.
  - rewrite (ct_state _ _ _ _ Hw). rewrite bool_decide_eq_false_2 by done.
    destruct (PacketType.valueOf _) as [t|]; [|done]. case_bool_decide; [|apply close_inv; by right].
    destruct (_ <? _); [done|]. apply wp_bind. unfold decrypt_session. do 2 (apply wp_bind; unfold wp at 1; cbn [asks gets]).
    apply wp_lift. intros x _. apply close_inv. by right.
Qed.

Lemma process_inv k buf size w w' : inv k w -> process buf size w = Some w' -> inv k w'.
Proof.
  intros Hw. pose proof (processRelayPacket_inv k buf size w Hw) as H. unfold process, wp in *.
  destruct (processRelayPacket buf size w) as [[a w1]|]; [|done]. by intros [= <-].
Qed.

(** ** Callbacks *)

Lemma inv_unref k w : 0 <= k -> inv (k + 1) w -> wp unref (fun _ => inv k) w.
Proof.
  intros Hk [Hw|Hw]; [eapply wp_mono; [by apply live_unref|by left]|]. eapply wp_mono; [by apply wp_unref|]. by right.
Qed.

Lemma inv_keeps {A} (m : M A) k : keeps (live k) m -> keeps (dead k) m -> keeps (inv k) m.
Proof.
  intros Hl Hd w [Hw|Hw]; [eapply wp_mono; [by apply Hl|by left]|]. eapply wp_mono; [by apply Hd|]. by right.
Qed.

Lemma keeps_inv_call k x : neutral x = true -> keeps (inv k) (call x).
Proof. intros Hx. apply inv_keeps; [by apply keeps_live_call|by apply keeps_counted_call]. Qed.

Lemma keeps_inv_close k : keeps (inv k) close.
Proof. intros w. apply close_inv. Qed.

Lemma keeps_inv_closeUpstream k : keeps (inv k) closeUpstream.
Proof. apply inv_keeps; [apply keeps_live_closeUpstream|apply keeps_dead_closeUpstream]. Qed.

Lemma keeps_inv_closeUpstream2 k : keeps (inv k) closeUpstream2.
Proof. apply inv_keeps; [apply keeps_live_closeUpstream2|apply keeps_counted_closeUpstream2]. Qed.

Lemma keeps_inv_sendConnectResponse k b : keeps (inv k) (sendConnectResponse b).
Proof. apply inv_keeps; [apply keeps_live_sendConnectResponse|apply keeps_counted_sendConnectResponse; by right]. Qed.

Lemma keeps_inv_silent k f : silent f -> keeps (inv k) (modify f).
Proof. intros Hf. apply inv_keeps; [by apply keeps_live_silent|by apply keeps_silent]. Qed.

#[local] Hint Extern 3 (keeps (inv _) (call _)) => (apply keeps_inv_call; reflexivity) : keeps.
#[local] Hint Extern 4 (keeps (inv _) (modify _)) => (apply keeps_inv_silent; intros c; by split_and!) : keeps.
#[local] Hint Resolve keeps_inv_close keeps_inv_closeUpstream keeps_inv_closeUpstream2 keeps_inv_sendConnectResponse : keeps.

(** A failed attempt to connect upstream that is reported when the connection is closed already. *)
Definition late_failure (e : Event) (w : World) : Prop :=
  exists i status, e = Ev_callback i status /\ c_callbacks (w_conn w) !! i = Some (Cb_connect Upstream) /\
    status < 0 /\ c_state (w_conn w) = Closed.

Lemma callback_inv cb status w :
  inv 1 w -> ~ (cb = Cb_connect Upstream /\ status < 0 /\ c_state (w_conn w) = Closed) ->
  wp (callback cb status) (fun _ => inv 0) w.
Proof.
  intros Hw Hn. destruct cb as [[]|t h| | |h]; simpl.
  - apply wp_bind, (wp_keeps (inv 1)); [|done|by intros ? ?; apply (inv_unref 0)]. unfold establish. keeps_tac.
  - apply wp_bind. destruct (Z.ltb_spec status 0); cbn [when].
    + destruct Hw as [Hw|Hw]; [|destruct Hn; split_and!; [done|done|by destruct Hw]].
      apply (wp_keeps (live 1)); [keeps_tac|done|]. clear w Hw Hn. intros _ w Hw.
      apply wp_bind, (wp_keeps (inv 1)); [keeps_tac|by left|by intros ? ?; apply (inv_unref 0)].
    + unfold wp at 1, mret, M_ret. apply wp_bind, (wp_keeps (inv 1)); [keeps_tac|done|by intros ? ?; apply (inv_unref 0)].
  - apply wp_bind, (wp_keeps (inv 1)); [|done|by intros ? ?; apply (inv_unref 0)]. unfold run_handler, startReadUpstream. keeps_tac.
  - apply wp_bind, (wp_keeps (inv 1)); [keeps_tac|done|by intros ? ?; apply (inv_unref 0)].
  - apply wp_bind, (wp_keeps (inv 1)); [keeps_tac|done|by intros ? ?; apply (inv_unref 0)].
  - unfold on_closed. apply wp_bind. unfold wp at 1. cbn [gets]. destruct (data_of h (w_conn w)) eqn:Ed; [|done]. cbn [negb].
    apply wp_bind. unfold wp at 1, modify. apply (inv_unref 0); [done|].
    assert (holders (set_data h false (w_conn w)) <= holders (w_conn w)) as Hh.
    { unfold holders, open. destruct h; simpl; destruct (relay_data _), (upstream_data _), (is_closing Relay _), (is_closing Upstream _); simpl; lia. }
    destruct Hw as [(st & Hst & [])|[]]; [left; exists st; split; [done|]|right]; split; cbn [w_conn w_proxy]; try done; simpl in *; lia.
Qed.

(** A closed connection stays closed. *)
Lemma processRelayPacket_dead k buf size : keeps (dead k) (processRelayPacket buf size).
Proof.
  intros w Hw. unfold processRelayPacket. apply wp_bind. unfold wp at 1. cbn [gets].
  rewrite (ct_state _ _ _ _ Hw). rewrite bool_decide_eq_false_2 by done.
  destruct (PacketType.valueOf _) as [t|]; [|done]. case_bool_decide; [|by apply close_dead].
  destruct (_ <? _); [done|]. apply wp_bind. unfold decrypt_session. do 2 (apply wp_bind; unfold wp at 1; cbn [asks gets]).
  apply wp_lift. intros x _. by apply close_dead.
Qed.

Lemma keeps_dead_call k x : neutral x = true -> keeps (dead k) (call x).
Proof. apply keeps_counted_call. Qed.
Lemma keeps_dead_silent k f : silent f -> keeps (dead k) (modify f).
Proof. apply keeps_silent. Qed.
Lemma keeps_dead_close k : keeps (dead k) close.
Proof. intros w. apply close_dead. Qed.
Lemma keeps_dead_sendConnectResponse k b : keeps (dead k) (sendConnectResponse b).
Proof. apply keeps_counted_sendConnectResponse. by right. Qed.
Lemma keeps_dead_closeUpstream2 k : keeps (dead k) closeUpstream2.
Proof. apply keeps_counted_closeUpstream2. Qed.

#[local] Hint Extern 3 (keeps (dead _) (call _)) => (apply keeps_dead_call; reflexivity) : keeps.
#[local] Hint Extern 4 (keeps (dead _) (modify _)) => (apply keeps_dead_silent; intros c; by split_and!) : keeps.
#[local] Hint Resolve keeps_dead_close keeps_dead_closeUpstream keeps_dead_sendConnectResponse keeps_dead_closeUpstream2 : keeps.

Lemma dead_unref w : dead 1 w -> wp unref (fun _ => dead 0) w.
Proof. by apply (wp_unref Gone 0). Qed.

Lemma callback_dead cb status w :
  dead 1 w -> ~ (cb = Cb_connect Upstream /\ status < 0) -> wp (callback cb status) (fun _ => dead 0) w.
Proof.
  intros Hw Hn. destruct cb as [[]|t h| | |h]; simpl.
  - apply wp_bind, (wp_keeps (dead 1)); [|done|by intros ? ?; apply dead_unref]. unfold establish. keeps_tac.
  - apply wp_bind. destruct (Z.ltb_spec status 0); [by destruct Hn|]. cbn [when]. unfold wp at 1, mret, M_ret.
    apply wp_bind, (wp_keeps (dead 1)); [keeps_tac|done|by intros ? ?; apply dead_unref].
  - apply wp_bind, (wp_keeps (dead 1)); [|done|by intros ? ?; apply dead_unref]. unfold run_handler, startReadUpstream. keeps_tac.
  - apply wp_bind, (wp_keeps (dead 1)); [keeps_tac|done|by intros ? ?; apply dead_unref].
  - apply wp_bind, (wp_keeps (dead 1)); [keeps_tac|done|by intros ? ?; apply dead_unref].
  - assert (wp (on_closed h) (fun _ w' => inv 0 w' /\ c_state (w_conn w') = Closed) w) as H.
    { pose proof (callback_inv (Cb_close h) status w (or_intror Hw)) as H. simpl in H.
      unfold wp in *. unfold on_closed, mbind, M_bind, gets, modify, unref in *. destruct (data_of h (w_conn w)); simpl in *; [|done].
      split; [apply H; naive_solver|]. apply (ct_state _ _ _ _ Hw). }
    eapply wp_mono; [exact H|]. intros a w' [[Hl|Hd] Hs]; [|done]. by destruct (live_state _ _ Hl).
Qed.

Lemma keeps_inv_sendRelayPacket k type payload h : keeps (inv k) (sendRelayPacket type payload h).
Proof. apply inv_keeps; [apply keeps_live_send|apply keeps_counted_sendRelayPacket; by right]. Qed.
Lemma keeps_dead_sendRelayPacket k type payload h : keeps (dead k) (sendRelayPacket type payload h).
Proof. apply keeps_counted_sendRelayPacket. by right. Qed.
#[local] Hint Resolve keeps_inv_sendRelayPacket keeps_dead_sendRelayPacket : keeps.

Lemma keeps_inv_sendData k data : keeps (inv k) (sendDataRequest data).
Proof. unfold sendDataRequest, encrypt_session. keeps_tac. Qed.
Lemma keeps_dead_sendData k data : keeps (dead k) (sendDataRequest data).
Proof. unfold sendDataRequest, encrypt_session. keeps_tac. Qed.

(** ** The machine *)

Lemma removed_callback o k st i cb w :
  c_callbacks (w_conn w) !! i = Some cb -> counted o k st w ->
  counted o (k + 1) st (set_conn (set_callbacks (delete i (c_callbacks (w_conn w)))) w).
Proof.
  intros Hi [H1 H2 H3 H4 H5 H6 H8 H7]. split; cbn [w_conn w_proxy set_conn]; try done; [|lia].
  unfold holders in *. cbn [c_callbacks set_callbacks refCount].
  change (open Relay (set_callbacks _ (w_conn w))) with (open Relay (w_conn w)).
  change (open Upstream (set_callbacks _ (w_conn w))) with (open Upstream (w_conn w)).
  pose proof (lookup_lt_Some _ _ _ Hi). rewrite length_delete by eauto. lia.
Qed.

Lemma wp_run {A} (m : M A) (Q : World -> Prop) w w' : wp m (fun _ => Q) w -> as_run (m w) = Returned w' -> Q w'.
Proof. unfold wp. destruct (m w) as [[a w1]|]; [|done]. by intros H [= <-]. Qed.

Lemma other_counted o k st p now time w :
  possible (Ev_other p now time) w -> counted o k st w -> counted o k st (MkWorld p (w_conn w) now time).
Proof.
  intros (_ & _ & Hm & Hn) [H1 H2 H3 H4 H5 H6 H8 H7]. split; simpl; try done; [|by apply Hn]. by rewrite Hm.
Qed.

Lemma periodic_inv w : inv 0 w -> c_ptr (w_conn w) ∈ connections (w_proxy w) -> wp periodicCheck (fun _ => inv 0) w.
Proof.
  intros [Hw|Hw] Hp; [|by rewrite (ct_owned _ _ _ _ Hw) in Hp]. unfold periodicCheck, sendPingRequest.
  apply wp_bind. unfold wp at 1. cbn [gets]. case_bool_decide; [by left|]. do 2 (apply wp_bind; unfold wp at 1; cbn [uv_now gets]).
  destruct (_ <=? _); [apply close_inv; by left|]. apply live_inv; [keeps_tac|done].
Qed.

(** One event keeps the invariant, and does not reopen a closed connection. *)
Lemma exec_inv e w w' :
  inv 0 w -> possible e w -> ~ late_failure e w -> exec e w = Returned w' -> inv 0 w' /\ (dead 0 w -> dead 0 w').
Proof.
  intros Hw Hp Hn E. destruct e as [i status|data| |data| | | |p now time]; simpl in E, Hp.
  - destruct (c_callbacks (w_conn w) !! i) as [cb|] eqn:Ei; [|done].
    change (as_run (callback cb status (set_conn (set_callbacks (delete i (c_callbacks (w_conn w)))) w)) = Returned w') in E.
    assert (~ (cb = Cb_connect Upstream /\ status < 0 /\ c_state (w_conn w) = Closed)) as Hn'.
    { intros (-> & Hs & Hc). apply Hn. by exists i, status. }
    split.
    + eapply wp_run; [|exact E]. apply callback_inv; [|exact Hn'].
      destruct Hw as [(st & Hst & Hw)|Hw]; [left; exists st; split; [done|]|right]; by eapply (removed_callback _ 0).
    + intros Hd. eapply wp_run; [|exact E]. apply callback_dead; [by eapply (removed_callback _ 0)|].
      intros [-> Hs]. apply Hn'. split_and!; [done..|]. by destruct Hd.
  - destruct (relay_data (w_conn w)); [|done]. unfold onRelayRead in E.
    set (w0 := set_conn (set_keepAlive (w_now w)) w) in E.
    destruct (Frames.onRelayRead _ _ _ _ _) as [[sb w1]| |] eqn:E1; [|done..]. injection E as <-. split.
    + assert (inv 0 w0) as H0 by (apply (keeps_inv_silent 0 (set_keepAlive (w_now w))); [intros c; by split_and!|done]).
      apply (onRelayRead_keeps _ (inv 0)) in E1; [|apply process_inv|done].
      apply (keeps_inv_silent 0 (set_sticky sb)); [intros c; by split_and!|done].
    + intros Hd. assert (dead 0 w0) as H0 by (apply (keeps_dead_silent 0 (set_keepAlive (w_now w))); [intros c; by split_and!|done]).
      apply (onRelayRead_keeps _ (dead 0)) in E1; [|intros buf size s s' Hs Es|done].
      * apply (keeps_dead_silent 0 (set_sticky sb)); [intros c; by split_and!|done].
      * pose proof (processRelayPacket_dead 0 buf size s Hs) as H. unfold process, wp in *.
        destruct (processRelayPacket buf size s) as [[a s1]|]; [|done]. by injection Es as <-.
  - destruct (relay_data (w_conn w)); [|done]. split; [eapply wp_run; [by apply close_inv|done]|].
    intros Hd. eapply wp_run; [by apply close_dead|done].
  - destruct (upstream_data (w_conn w)); [|done]. unfold on_upstream_read, sendDataRequest, encrypt_session in E.
    split; [eapply wp_run; [|exact E]; by apply keeps_inv_sendData|intros Hd; eapply wp_run; [|exact E]; by apply keeps_dead_sendData].
  - destruct (upstream_data (w_conn w)); [|done]. split; [eapply wp_run; [by apply keeps_inv_closeUpstream|done]|].
    intros Hd. eapply wp_run; [by apply keeps_dead_closeUpstream|done].
  - split; [eapply wp_run; [by apply periodic_inv|done]|]. intros Hd. by rewrite (ct_owned _ _ _ _ Hd) in Hp.
  - destruct Hw as [Hw|Hw]; [|by rewrite (ct_owned _ _ _ _ Hw) in Hp].
    split; [right|intros _]; (eapply wp_run; [by apply leave_live|exact E]).
  - injection E as <-. split; [|intros Hd; by apply other_counted].
    destruct Hw as [(st & Hst & Hw)|Hw]; [left; exists st; split; [done|]|right]; by apply other_counted.
Qed.

(** A connection whose [connectServer] failed: it waits on the list for the periodic check to close it. *)
Definition stillborn (w : World) : Prop :=
  c_state (w_conn w) = Initializing /\ refCount (w_conn w) = 1 /\ c_freed (w_conn w) = false /\ c_callbacks (w_conn w) = [] /\
  open Relay (w_conn w) = false /\ upstream_data (w_conn w) = false /\ closeHandler (w_conn w) = true /\
  c_ptr (w_conn w) ∈ connections (w_proxy w) /\ NoDup (connections (w_proxy w)) /\
  is_reading Relay (c_log (w_conn w)) = false /\ is_reading Upstream (c_log (w_conn w)) = false.

Lemma started_inv w : started w -> inv 0 w \/ stillborn w.
Proof.
  intros (p & now & time & ptr & rc & E & Hp & Hn & _). unfold connectServer, mbind, M_bind in E. cbn [call] in E.
  unfold call, mbind, M_bind, gets, modify, mret, M_ret in E. cbn [w_conn w_proxy id c_log c_ptr ProxyConnection_new set_log] in E.
  destruct (uv_answer ptr [] (uv_tcp_init Relay) <? 0).
  { injection E as <- <-. right. by split_and!. }
  unfold ref, unref, hold, modify in E. simpl in E.
  destruct (uv_answer ptr [uv_tcp_init Relay] (uv_tcp_connect Relay) <? 0).
  - injection E as <- <-. right. by split_and!.
  - injection E as <- <-. left. left. exists Initializing. split; [done|]. by split.
Qed.

(** Its handler is set, or the proxy has just taken it away. *)
Lemma stillborn_counted o w :
  stillborn w -> on_list o = true -> counted o 0 Closed (set_conn (fun c => set_state Closed (set_closeHandler (bool_decide (o = Listed)) c)) w).
Proof.
  intros (H1 & H2 & H3 & H4 & H5 & H6 & H7 & H8 & H9 & _) Ho. split; cbn [w_conn w_proxy set_conn set_state set_closeHandler refCount c_freed c_state]; try done; [|congruence].
  unfold holders. change (open Relay (set_state Closed _)) with (open Relay (w_conn w)). rewrite H5, Ho.
  unfold open. cbn [data_of upstream_data set_state set_closeHandler c_callbacks]. rewrite H6, H4, H2. done.
Qed.

Lemma stillborn_close w : stillborn w -> wp close (fun _ => dead 0) w.
Proof.
  intros Hw. pose proof (stillborn_counted Listed w Hw eq_refl) as Hc. destruct Hw as (H1 & _ & _ & _ & _ & _ & H7 & _).
  unfold close. apply wp_bind. unfold wp at 1. cbn [gets]. rewrite H1, bool_decide_eq_false_2 by done.
  apply wp_bind. unfold wp at 1, modify. apply (wp_closing Listed 0); [|apply wp_onClosed].
  destruct w as [p [] now time]. simpl in *. by subst.
Qed.

Lemma stillborn_leave w : stillborn w -> wp leave (fun _ => dead 0) w.
Proof. intros Hw. apply (leave_from Initializing); [apply Hw|done|]. exact (stillborn_counted Given_up w Hw eq_refl). Qed.

Lemma stillborn_exec e w w' : stillborn w -> possible e w -> exec e w = Returned w' -> inv 0 w' \/ stillborn w'.
Proof.
  intros Hw Hp E. destruct (id Hw) as (H1 & H2 & H3 & H4 & H5 & H6 & H7 & H8 & H9 & H10 & H11).
  destruct e as [i status|data| |data| | | |p now time]; simpl in E, Hp.
  - by rewrite H4 in E.
  - destruct Hp. congruence.
  - destruct Hp. congruence.
  - destruct Hp. congruence.
  - destruct Hp. congruence.
  - unfold periodicCheck, mbind, M_bind, gets, uv_now in E. cbv beta iota in E. rewrite H1 in E.
    rewrite bool_decide_eq_false_2 in E by done. destruct (_ <=? _).
    + left. right. eapply wp_run; [by apply stillborn_close|done].
    + right. injection E as <-. by split_and!.
  - left. right. eapply wp_run; [by apply stillborn_leave|exact E].
  - right. injection E as <-. destruct Hp as (_ & _ & Hm & Hn). split_and!; try done; [by apply Hm|by apply Hn].
Qed.

(** Runs in which no failed attempt to connect upstream is reported behind the closing. *)
Inductive steady : World -> Prop :=
  | steady_start w : started w -> steady w
  | steady_step e w w' : steady w -> possible e w -> ~ late_failure e w -> exec e w = Returned w' -> steady w'.

Lemma steady_inv w : steady w -> inv 0 w \/ stillborn w.
Proof.
  induction 1 as [w Hs|e w w' _ IH Hp Hn E]; [by apply started_inv|].
  destruct IH as [Hw|Hw]; [left; by destruct (exec_inv e w w' Hw Hp Hn E)|by eapply stillborn_exec].
Qed.

Lemma counted_freed o k st w : counted o k st w -> c_freed (w_conn w) = true ->
  o = Gone /\ c_callbacks (w_conn w) = [] /\ forall h, open h (w_conn w) = false.
Proof.
  intros [H1 H2 H3 H4 H5 H6 H8 H7] Hf. specialize (H3 Hf). unfold holders in H2.
  destruct o, (open Relay (w_conn w)) eqn:E1, (open Upstream (w_conn w)) eqn:E2; simpl in H2; try lia.
  split_and!; [done|destruct (c_callbacks (w_conn w)); simpl in *; [done|lia]|]. by intros [].
Qed.

Lemma inv_freed w : inv 0 w \/ stillborn w -> c_freed (w_conn w) = true ->
  c_ptr (w_conn w) ∉ connections (w_proxy w) /\ c_callbacks (w_conn w) = [] /\ forall h, open h (w_conn w) = false.
Proof.
  intros [[(st & Hst & Hw)|Hw]|Hw] Hf; [| |destruct Hw as (_ & _ & Hn & _); congruence];
    destruct (counted_freed _ _ _ _ Hw Hf) as (Ho & H1 & H2); [done|]. split_and!; [|done..].
  rewrite (ct_owned _ _ _ _ Hw). done.
Qed.

(** A deleted connection gets no event. *)
Lemma freed_unreachable e w w' :
  inv 0 w \/ stillborn w -> c_freed (w_conn w) = true -> possible e w -> exec e w = Returned w' -> exists p now time, e = Ev_other p now time.
Proof.
  intros Hw Hf Hp E. destruct (inv_freed w Hw Hf) as (H1 & H2 & H3).
  pose proof (H3 Relay) as Hr. pose proof (H3 Upstream) as Hu. unfold open in Hr, Hu. simpl in Hr, Hu.
  destruct e as [i status|data| |data| | | |p now time]; simpl in E, Hp; try done; [..|by eauto].
  - by rewrite H2 in E.
  - destruct Hp as [_ Hp], (relay_data (w_conn w)); [|done]. by rewrite Hp in Hr.
  - destruct Hp as [_ Hp], (relay_data (w_conn w)); [|done]. by rewrite Hp in Hr.
  - destruct Hp as (_ & Hp & _), (upstream_data (w_conn w)); [|done]. by rewrite Hp in Hu.
  - destruct Hp as [_ Hp], (upstream_data (w_conn w)); [|done]. by rewrite Hp in Hu.
Qed.

Lemma listed_until_closed w : inv 0 w \/ stillborn w -> c_ptr (w_conn w) ∈ connections (w_proxy w) <-> c_state (w_conn w) <> Closed.
Proof.
  intros [[(st & Hst & Hw)|Hw]|(H1 & _ & _ & _ & _ & _ & _ & H2 & _)].
  - by rewrite (ct_owned _ _ _ _ Hw), (ct_state _ _ _ _ Hw).
  - rewrite (ct_owned _ _ _ _ Hw), (ct_state _ _ _ _ Hw). naive_solver.
  - by rewrite H1.
Qed.

Lemma stays_closed e w w' :
  inv 0 w \/ stillborn w -> possible e w -> ~ late_failure e w -> exec e w = Returned w' -> c_state (w_conn w) = Closed -> c_state (w_conn w') = Closed.
Proof.
  intros Hw Hp Hn E Hc. destruct Hw as [Hw|(H1 & _)]; [|congruence]. destruct (exec_inv e w w' Hw Hp Hn E) as [_ Hd].
  destruct Hw as [Hw|Hw]; [by destruct (live_state _ _ Hw)|]. exact (ct_state _ _ _ _ (Hd Hw)).
Qed.
End lifetime.

(** ** Runs in which no write and no initialisation fails at once

    Such a run of a libuv is a run of one that never lets them fail. *)

Section accepted.
Context {sodium : Sodium} {sodiumBox : SodiumBox} {uv : Uv} {handles : UvHandles uv}.

Definition must_start (x : UvCall) : bool := match x with uv_write Relay _ | uv_tcp_init Upstream => true | _ => false end.

(** Of the calls so far, the writes to the server and the initialisations of the second handle were accepted. *)
Fixpoint accepted (ptr : positive) (log : list UvCall) : bool :=
  match log with
  | [] => true
  | x :: log => (negb (must_start x) || (0 <=? uv_answer ptr log x)) && accepted ptr log
  end.

Definition accepts (w : World) : Prop := accepted (c_ptr (w_conn w)) (c_log (w_conn w)) = true.

Definition patched : Uv := {|
  uv_answer ptr log x := if must_start x then Z.max 0 (@uv_answer uv ptr log x) else @uv_answer uv ptr log x;
  uv_bytes := @uv_bytes uv
|}.

Lemma patched_handles : UvHandles patched.
Proof. split. intros ptr log h. apply (@answers_closing uv handles). Qed.

Lemma patched_starts : UvStarts patched.
Proof. split; intros; simpl; lia. Qed.

(** What ends in an accepting world was the same with the other libuv. *)
Definition agree {A} (m1 m2 : M A) : Prop := forall w a w', m1 w = Some (a, w') -> accepts w' -> accepts w /\ m2 w = Some (a, w').

Lemma agree_bind {A B} (m1 m2 : M A) (f1 f2 : A -> M B) : agree m1 m2 -> (forall a, agree (f1 a) (f2 a)) -> agree (m1 ≫= f1) (m2 ≫= f2).
Proof.
  intros Hm Hf w b w'. unfold mbind, M_bind. destruct (m1 w) as [[a w1]|] eqn:E; [|done]. intros E2 H.
  destruct (Hf a w1 b w' E2 H) as [H1 E3]. destruct (Hm w a w1 E H1) as [H0 ->]. done.
Qed.

Lemma agree_call x : agree (@call uv x) (@call patched x).
Proof.
  intros w a w' [= <- <-] H. unfold accepts in *. cbn [w_conn c_ptr c_log set_log id accepted] in H.
  apply andb_true_iff in H as [H1 H2]. split; [done|]. unfold call, mbind, M_bind, gets, modify, mret, M_ret. cbn [id uv_answer patched].
  destruct (must_start x); [|done]. simpl in H1. apply Z.leb_le in H1. by rewrite Z.max_r.
Qed.

Lemma agree_random n : agree (@random_buffer uv n) (@random_buffer patched n).
Proof. by intros w a w' [= <- <-]. Qed.

(** What does not call libuv. *)
Lemma agree_ret {A} (a : A) : agree (mret a) (mret a).
Proof. by intros w b w' [= <- <-]. Qed.
Lemma agree_gets {A} (f : ProxyConnection -> A) : agree (gets f) (gets f).
Proof. by intros w b w' [= <- <-]. Qed.
Lemma agree_asks {A} (f : ActiveProxy -> A) : agree (asks f) (asks f).
Proof. by intros w b w' [= <- <-]. Qed.
Lemma agree_now : agree uv_now uv_now.
Proof. by intros w b w' [= <- <-]. Qed.
Lemma agree_time : agree currentTimeMillis currentTimeMillis.
Proof. by intros w b w' [= <- <-]. Qed.
Lemma agree_terminate {A} : agree (@terminate A) terminate.
Proof. done. Qed.
Lemma agree_lift {A} (r : result A) : agree (lift r) (lift r).
Proof. destruct r; [apply agree_ret|done]. Qed.
Lemma agree_proxy f : agree (modify_proxy f) (modify_proxy f).
Proof. by intros w b w' [= <- <-]. Qed.
Lemma agree_modify f : (forall c, c_ptr (f c) = c_ptr c /\ c_log (f c) = c_log c) -> agree (modify f) (modify f).
Proof. intros Hf w b w' [= <- <-]. unfold accepts. simpl. by destruct (Hf (w_conn w)) as [-> ->]. Qed.
Lemma agree_when (b : bool) (m1 m2 : M unit) : agree m1 m2 -> agree (when b m1) (when b m2).
Proof. intros H. destruct b; [done|apply agree_ret]. Qed.

Create HintDb agree discriminated.
#[local] Hint Resolve agree_call agree_random agree_ret agree_gets agree_asks agree_now agree_time agree_terminate agree_lift agree_proxy : agree.
#[local] Hint Extern 3 (agree (modify _) (modify _)) => (apply agree_modify; intros c; by destruct c) : agree.

#[local] Ltac agree_step :=
  match goal with
  | |- forall _, _ => intros ?
  | |- agree (_ ≫= _) (_ ≫= _) => apply agree_bind
  | |- agree (when _ _) (when _ _) => apply agree_when
  | |- agree (if ?b then _ else _) _ => destruct b eqn:?
  | |- agree (match ?x with _ => _ end) _ => destruct x eqn:?
  end.
#[local] Ltac agree_tac := repeat first [solve [eauto with agree] | agree_step].

Lemma agree_close : agree (@close uv) (@close patched).
Proof. unfold close, close_handle, onOpenFailed, onIdle, onClosed, unref, hold. agree_tac. Qed.
#[local] Hint Resolve agree_close : agree.

Lemma agree_send type payload h : agree (@sendRelayPacket uv type payload h) (@sendRelayPacket patched type payload h).
Proof. unfold sendRelayPacket, randomPadding, ref, unref, hold. agree_tac. Qed.
#[local] Hint Resolve agree_send : agree.

Lemma agree_closeUpstream2 : agree (@closeUpstream2 uv) (@closeUpstream2 patched).
Proof. unfold closeUpstream2, hold. agree_tac. Qed.
#[local] Hint Resolve agree_closeUpstream2 : agree.

Lemma agree_closeUpstream : agree (@closeUpstream uv) (@closeUpstream patched).
Proof. unfold closeUpstream, sendDisconnectRequest, ref, unref, hold. agree_tac. Qed.
#[local] Hint Resolve agree_closeUpstream : agree.

Lemma agree_sendConnectResponse b : agree (@sendConnectResponse uv b) (@sendConnectResponse patched b).
Proof. unfold sendConnectResponse, randomBoolean. agree_tac. Qed.
#[local] Hint Resolve agree_sendConnectResponse : agree.

Lemma agree_startRead : agree (@startReadUpstream uv) (@startReadUpstream patched).
Proof. unfold startReadUpstream. agree_tac. Qed.

Lemma agree_openUpstream : agree (@openUpstream uv) (@openUpstream patched).
Proof. unfold openUpstream, onIdle, ref, unref, hold. agree_tac. Qed.
#[local] Hint Resolve agree_startRead agree_openUpstream : agree.

Lemma agree_idle : agree onIdle onIdle.
Proof. unfold onIdle. agree_tac. Qed.
Lemma agree_decrypt size c : agree (decrypt_session size c) (decrypt_session size c).
Proof. unfold decrypt_session. agree_tac. Qed.
#[local] Hint Resolve agree_idle agree_decrypt : agree.

Lemma agree_process buf size : agree (@processRelayPacket _ _ uv buf size) (@processRelayPacket _ _ patched buf size).
Proof.
  unfold processRelayPacket, onChallenge, signWithNode, sendAttachRequest, sendAuthenticateRequest, encryptWithNode, randomPadding,
    onAuthenticateResponse, decryptWithNode, decrypt_session, onAuthorized, onAttachResponse, onPingResponse, onConnectRequest, onBusy, onIdle, onOpened,
    onDisconnectRequest, onDisconnectResponse, sendDisconnectResponse, confirm_disconnect, onDataRequest, ref, unref, hold.
  agree_tac.
Qed.

Lemma agree_callback cb status : agree (@callback uv cb status) (@callback patched cb status).
Proof.
  unfold callback, on_connected_relay, on_connected_upstream, on_written_relay, on_written_upstream, on_shutdown, on_closed, establish, run_handler, onIdle, unref.
  agree_tac.
Qed.
#[local] Hint Resolve agree_callback : agree.

Lemma agree_periodic : agree (@periodicCheck uv) (@periodicCheck patched).
Proof. unfold periodicCheck, sendPingRequest. agree_tac. Qed.

Lemma agree_run {A} (m1 m2 : M A) w w' : agree m1 m2 -> as_run (m1 w) = Returned w' -> accepts w' -> accepts w /\ as_run (m2 w) = Returned w'.
Proof.
  intros Hm. unfold as_run. destruct (m1 w) as [[a w1]|] eqn:E; [|done]. intros [= <-] H. by destruct (Hm w a w1 E H) as [H1 ->].
Qed.

Lemma agree_exec e w w' : @exec _ _ uv e w = Returned w' -> accepts w' -> accepts w /\ @exec _ _ patched e w = Returned w'.
Proof.
  destruct e as [i status|data| |data| | | |p now time]; cbn [exec].
  - destruct (c_callbacks (w_conn w) !! i); [|done]. apply agree_run, agree_bind; [by apply agree_modify|]. intros _. apply agree_callback.
  - destruct (relay_data (w_conn w)); [|done]. unfold onRelayRead. destruct (Frames.onRelayRead (@process _ _ uv) _ _ _ _) as [[sb w1]| |] eqn:E; [|done..].
    intros [= <-] H. assert (accepts w1) as H1 by exact H.
    assert (forall buf size s s', @process _ _ uv buf size s = Some s' -> accepts s' -> accepts s /\ @process _ _ patched buf size s = Some s') as Hag.
    { intros buf size s s' Es Hs. unfold process in *. destruct (@processRelayPacket _ _ uv buf size s) as [[a s1]|] eqn:Ep; [|done]. injection Es as <-.
      by destruct (agree_process buf size s a s1 Ep Hs) as [? ->]. }
    destruct (onRelayRead_agree _ (@process _ _ patched) accepts Hag _ _ _ _ _ _ E H1) as [H0 E2]. split; [exact H0|]. by rewrite E2.
  - destruct (relay_data (w_conn w)); [|done]. apply agree_run, agree_close.
  - destruct (upstream_data (w_conn w)); [|done]. apply agree_run. unfold on_upstream_read, sendDataRequest, encrypt_session. agree_tac.
  - destruct (upstream_data (w_conn w)); [|done]. apply agree_run, agree_closeUpstream.
  - apply agree_run, agree_periodic.
  - apply agree_run. unfold abandon, unref. agree_tac.
  - by intros [= <-].
Qed.

Lemma agree_started w : @started uv w -> accepts w /\ @started patched w.
Proof.
  intros (p & now & time & ptr & rc & E & H).
  assert (accepts w) as Hw.
  { unfold connectServer, mbind, M_bind, call, gets, modify, mret, M_ret, ref, unref, hold in E. simpl in E.
    destruct (_ <? 0); [by injection E as <- <-|]. destruct (_ <? 0); by injection E as <- <-. }
  split; [done|]. exists p, now, time, ptr, rc. split; [|done].
  assert (agree (@connectServer uv) (@connectServer patched)) as Ha by (unfold connectServer, ref, unref, hold; agree_tac).
  by apply (Ha _ _ _ E Hw).
Qed.

(** ** Theorems *)

(** Runs in which libuv starts every write to the server and initialises the second handle, and in which no failed
    attempt to connect upstream is reported behind the closing. *)
Inductive orderly : World -> Prop :=
  | orderly_start w : started w -> orderly w
  | orderly_step e w w' : orderly w -> possible e w -> ~ late_failure e w -> exec e w = Returned w' -> accepts w' -> orderly w'.

Lemma orderly_inv w : orderly w -> inv 0 w \/ stillborn w.
Proof.
  intros Hw. apply (@steady_inv _ _ patched patched_handles patched_starts). induction Hw as [w Hs|e w w' _ IH Hp Hn E Ha].
  - apply steady_start. by apply agree_started.
  - apply agree_exec in E as [_ E]; [|done]. by eapply steady_step.
Qed.

End accepted.
End ProxyLifetime.

(** ** Witnesses and counterexamples *)

(** A libuv that accepts every call, but for a write to a handle that is closing. *)
#[export] Instance toy_uv : Uv := {
  uv_answer ptr log x :=
    match x with
    | uv_is_closing h => if is_closing h log then 1 else 0
    | uv_write h _ => if is_closing h log then -9 else 0
    | _ => 0
    end;
  uv_bytes ptr log n := replicate (Z.to_nat n) 0
}.

#[export] Instance toy_uv_random : UvRandom toy_uv.
Proof. split; intros ptr log n Hn; simpl; [lia|]. rewrite length_replicate. lia. Qed.

#[export] Instance toy_uv_handles : UvHandles toy_uv.
Proof. split. intros ptr log h. simpl. by destruct (is_closing h log). Qed.

#[local] Existing Instances toy_sodium toy_box.

(** A proxy without connections that ever authenticated; the keys of its node and of its server. *)
Definition node0 : NodeKeys := MkNodeKeys (Signature.KeyPair_copy [1]) (CryptoBox.KeyPair_copy (sk_to_curve25519 [1])) ∅.
Definition proxy0 : ActiveProxy :=
  MkProxy (mk_id (sk_to_pk [1])) node0 (CryptoBox.KeyPair_copy (replicate 32 5)) None [] (mk_id (sk_to_pk [2])) [] 0 0 0 0
    ProxyConnections.UINT64_MAX 0 0 0 None None 16 0 [1%positive] true.
Definition world0 : World :=
  match connectServer (MkWorld proxy0 (ProxyConnection_new 1 0) 0 0) with
  | Some (_, w) => w
  | None => MkWorld proxy0 (ProxyConnection_new 1 0) 0 0
  end.

Lemma world0_started : started world0.
Proof.
  exists proxy0, 0, 0, 1%positive. eexists. split; [reflexivity|]. split_and!; [by left|apply NoDup_singleton|done|simpl; lia].
Qed.

(** The packets of a server that has the toy cryptography: a challenge, its AUTH ACK, a CONNECT. *)
Definition challenge0 : list Z := [0; 34] ++ replicate 32 9.
Definition auth_ack0 : list Z := [0; 54; 0x80] ++ replicate 16 0 ++ replicate 32 3 ++ [4; 0; 0].
Definition connect0 : list Z := [0; 38; 0x20] ++ replicate 16 0 ++ [4] ++ replicate 16 1 ++ [1; 0].

(** The connection is opened and asked to connect upstream. *)
Definition opening0 : list Event :=
  [Ev_callback 0 0; Ev_relay_data challenge0; Ev_relay_data auth_ack0; Ev_relay_data connect0].
Definition disconnect0 : list Z := [0; 3; 0x30].
Definition disconnect_ack0 : list Z := [0; 3; 0xB0].

(** What can be seen of the end of a run. *)
Lemma run_observed_by (uv : Uv) {A} (f : World -> A) (es : list Event) (a : A) :
  @started uv world0 -> (f <$> @run_events _ _ uv es world0) = Some a -> exists w, @reachable _ _ uv w /\ @run_events _ _ uv es world0 = Some w /\ f w = a.
Proof.
  intros Hs H. destruct (run_events es world0) as [w|] eqn:E; [|done]. injection H as <-. exists w. split; [|done].
  eapply run_events_reachable; [by apply reach_start|exact E].
Qed.

Lemma run_observed {A} (f : World -> A) (es : list Event) (a : A) :
  (f <$> run_events es world0) = Some a -> exists w, reachable w /\ run_events es world0 = Some w /\ f w = a.
Proof. apply run_observed_by, world0_started. Qed.

(** When the server goes away while the connection to the service is being
    made, the connection is deleted while libuv still has its handle: the late
    report of the failure reopens the closed connection, which is closed and given
    up a second time. *)
Theorem closing_while_connecting_frees_early :
  exists w, reachable w /\ c_freed (w_conn w) = true /\ c_callbacks (w_conn w) = [Cb_close Upstream] /\
    possible (Ev_callback 0 0) w /\ inFlights (w_proxy w) = 2 ^ 32 - 1.
Proof.
  destruct (run_observed (fun w => (c_freed (w_conn w), c_callbacks (w_conn w), possibleb (Ev_callback 0 0) w, inFlights (w_proxy w)))
    (opening0 ++ [Ev_relay_end; Ev_callback 0 (-125); Ev_callback 2 0; Ev_callback 0 (-125)])
    (true, [Cb_close Upstream], true, 2 ^ 32 - 1)) as (w & Hr & _ & [= H1 H2 H3 H4]); [by vm_compute|].
  exists w. split_and!; [done..| |done]. by apply possibleb_sound.
Qed.

(** A disconnection does not close the handle of the upstream connection, so
    the next CONNECT initialises an open handle anew and takes another reference:
    when everything is closed and nothing refers to the connection, it is not
    deleted. *)
Theorem second_connect_leaks :
  exists w, reachable w /\ c_state (w_conn w) = Closed /\ c_callbacks (w_conn w) = [] /\
    connections (w_proxy w) = [] /\ relay_data (w_conn w) = false /\ upstream_data (w_conn w) = false /\
    refCount (w_conn w) = 1 /\ c_freed (w_conn w) = false.
Proof.
  destruct (run_observed (fun w => (c_state (w_conn w), c_callbacks (w_conn w), connections (w_proxy w), relay_data (w_conn w),
      upstream_data (w_conn w), refCount (w_conn w), c_freed (w_conn w)))
    (opening0 ++ [Ev_callback 0 0; Ev_callback 0 0; Ev_callback 0 0; Ev_relay_data disconnect0; Ev_relay_data disconnect_ack0;
      Ev_callback 0 0; Ev_callback 0 0; Ev_callback 0 0; Ev_relay_data connect0; Ev_callback 0 0; Ev_callback 0 0;
      Ev_relay_end; Ev_callback 0 0; Ev_callback 0 0])
    (Closed, [], [], false, false, 1, false)) as (w & Hr & _ & [= H1 H2 H3 H4 H5 H6 H7]); [by vm_compute|].
  exists w. by split_and!.
Qed.

(** Closing a connection that is disconnecting leaves the count of busy connections as it is. *)
Lemma closing_disconnecting_stays_in_flight :
  exists w, reachable w /\ c_state (w_conn w) = Closed /\ connections (w_proxy w) = [] /\ inFlights (w_proxy w) = 1.
Proof.
  destruct (run_observed (fun w => (c_state (w_conn w), connections (w_proxy w), inFlights (w_proxy w)))
    (opening0 ++ [Ev_callback 0 0; Ev_callback 0 0; Ev_callback 0 0; Ev_relay_data disconnect0; Ev_relay_end])
    (Closed, [], 1)) as (w & Hr & _ & [= H1 H2 H3]); [by vm_compute|].
  exists w. by split_and!.
Qed.

(** A run as a test of [orderly]. *)
Definition late_failureb (e : Event) (w : World) : bool :=
  match e with
  | Ev_callback i status => bool_decide (c_callbacks (w_conn w) !! i = Some (Cb_connect Upstream)) && (status <? 0) && bool_decide (c_state (w_conn w) = Closed)
  | _ => false
  end.

Fixpoint run_orderly (es : list Event) (w : World) : option World :=
  match es with
  | [] => Some w
  | e :: es =>
      if possibleb e w && negb (late_failureb e w) then
        match exec e w with
        | Returned w => if ProxyLifetime.accepted (c_ptr (w_conn w)) (c_log (w_conn w)) then run_orderly es w else None
        | _ => None
        end
      else None
  end.

Lemma run_orderly_sound es w w' : ProxyLifetime.orderly w -> run_orderly es w = Some w' -> ProxyLifetime.orderly w'.
Proof.
  revert w. induction es as [|e es IH]; intros w Hw; simpl; [by intros [= <-]|].
  destruct (possibleb e w && negb (late_failureb e w)) eqn:Hp; [|done]. apply andb_true_iff in Hp as [Hp Hl%negb_true_iff].
  destruct (exec e w) as [w1| |] eqn:E; [|done..]. destruct (ProxyLifetime.accepted _ _) eqn:Ha; [|done].
  apply IH. eapply ProxyLifetime.orderly_step; [exact Hw|by apply possibleb_sound| |exact E|exact Ha].
  intros (i & status & -> & Hi & Hs & Hc). simpl in Hl. rewrite Hi, Hc, (proj2 (Z.ltb_lt _ _) Hs) in Hl. by vm_compute in Hl.
Qed.

(** The connection relays, is given up by the proxy, and libuv reports all that it has. *)
Definition life0 : list Event := opening0 ++ [Ev_callback 0 0; Ev_callback 0 0; Ev_callback 0 0; Ev_abandon].
Definition ends0 : list Event := [Ev_callback 0 0; Ev_callback 0 0].
Definition end0 : World := default world0 (run_orderly (life0 ++ ends0) world0).

Lemma end0_orderly : ProxyLifetime.orderly end0.
Proof.
  assert (match run_orderly (life0 ++ ends0) world0 with Some _ => true | None => false end = true) as H by (vm_compute; reflexivity).
  unfold end0. destruct (run_orderly (life0 ++ ends0) world0) as [w|] eqn:E; [|discriminate H].
  exact (run_orderly_sound _ _ _ (ProxyLifetime.orderly_start _ world0_started) E).
Qed.


Lemma relay_reads_refine_stream_witness :
  exists w, read_all process [[0]; [3; 0x90; 0; 3]; [0x90; 0]] [] w = outcome_of [0] (process_all process [[0; 3; 0x90]; [0; 3; 0x90]] w).
Proof.
  exists world0. apply (ProxyRelay.relay_reads_refine_stream [[0]; [3; 0x90; 0; 3]; [0x90; 0]]).
  apply (stream_packet [0; 3; 0x90] [0; 3; 0x90; 0]); [reflexivity|unfold PACKET_HEADER_BYTES; simpl; lia|].
  apply (stream_packet [0; 3; 0x90] [0]); [reflexivity|unfold PACKET_HEADER_BYTES; simpl; lia|].
  apply stream_rest. left. unfold PACKET_HEADER_BYTES. simpl. lia.
Defined.

Lemma sent_packets_reassembled_witness :
  exists w, reachable w /\ length (sent_packets (w_conn w)) = 1%nat /\ Forall packet_ok (sent_packets (w_conn w)).
Proof.
  destruct (run_observed (fun w => length (sent_packets (w_conn w))) opening0 1%nat) as (w & Hr & _ & Hl); [by vm_compute|].
  exists w. split; [exact Hr|]. split; [exact Hl|].
  exact (proj1 (ProxyRelay.sent_packets_reassembled w (sent_packets (w_conn w)) (fun _ _ s => Some s) tt Hr eq_refl (fun _ _ _ _ _ => eq_refl))).
Defined.

Lemma data_relayed_witness :
  exists w w' pkt, run_events opening0 world0 = Some w /\ exec (Ev_upstream_data [1; 2; 3]) w = Returned w' /\
    sent_packets (w_conn w') = sent_packets (w_conn w) ++ [pkt].
Proof.
  destruct (run_observed (fun w => (c_state (w_conn w), upstream_data (w_conn w))) opening0 (Relaying, true))
    as (w & Hr & E & [= H1 H2]); [by vm_compute|].
  destruct (proj1 (ProxyRelay.data_relayed [1; 2; 3] [] w H1 H2)) as (w' & pkt & Hx & Hs & _).
  - discriminate.
  - eexists. reflexivity.
  - exists w, w', pkt. split; [exact E|]. split; [exact Hx|exact Hs].
Defined.

Lemma short_packet_hangs_witness : stickyBuffer (w_conn world0) = [] /\ onRelayRead 1000 [0; 0; 7] world0 = Unfinished.
Proof.
  split; [reflexivity|]. apply (proj1 (ProxyRelay.short_packet_hangs [0; 0; 7] world0)); [reflexivity|reflexivity|unfold PACKET_HEADER_BYTES; simpl; lia|reflexivity].
Defined.

(** A write that libuv does not start closes the connection, and the function that asked for it goes on: behind the
    second of two DISCONNECT packets it makes the closed connection idle. *)
Definition failing_uv : Uv := {|
  uv_answer ptr log x :=
    match x with uv_write Relay _ => if existsb (fun y => match y with uv_shutdown Upstream => true | _ => false end) log then -32 else 0 | _ => @uv_answer toy_uv ptr log x end;
  uv_bytes := @uv_bytes toy_uv
|}.

Definition disconnects0 : list Event :=
  opening0 ++ [Ev_callback 0 0; Ev_callback 0 0; Ev_callback 0 0; Ev_upstream_end; Ev_relay_data disconnect_ack0; Ev_relay_data disconnect0].

Lemma world0_started_failing : @started failing_uv world0.
Proof.
  exists proxy0, 0, 0, 1%positive, 0. split; [reflexivity|]. split_and!; [by left|apply NoDup_singleton|done|simpl; lia].
Qed.

Theorem failed_write_reopens :
  exists w, @reachable _ _ failing_uv w /\ connections (w_proxy w) = [] /\ c_state (w_conn w) = Idling /\ is_closing Relay (c_log (w_conn w)) = true.
Proof.
  destruct (run_observed_by failing_uv (fun w => (connections (w_proxy w), c_state (w_conn w), is_closing Relay (c_log (w_conn w)))) disconnects0
    ([], Idling, true) world0_started_failing) as (w & Hr & _ & [= H1 H2 H3]); [by vm_compute|].
  exists w. by split_and!.
Qed.
