(* ===== verification/ActiveProxies.v ===== *)
(** * The active proxy: [ActiveProxy] of [src/addons/activeproxy/activeproxy.cc]

    The proxy keeps a list of connections and looks after them in every iteration of
    its loop: it makes new ones while all are busy, closes those that are not needed
    and announces its peer.  The connections are objects in a store; an access to
    one that was deleted is undefined ([None]), as is the end of the process.

    The configuration, the event loop and its thread ([initialize], [start], [stop]) are in
    [ProxyStart]; [onStop] is here. *)

From S2P Require Import Prelude Ids Values Crypto PacketTypes Frames ProxyConnections ProxyLifetime.
Import ProxyConnection.

Record Loop := MkLoop {
  lp_proxy : ActiveProxy;
  lp_heap : gmap positive ProxyConnection;
  lp_next : positive;               (* the next free object address *)
  lp_first : bool;
  lp_started : bool;                (* [startPromise] has its value *)
  lp_stopped : bool;                (* [stopPromise] has its value *)
  lp_announced : list PeerInfo;     (* the calls of [Node::announcePeer] *)
  lp_now : Z;
  lp_time : Z
}.

Definition IDLE_CHECK_INTERVAL : Z := 60000.
Definition MAX_IDLE_TIME : Z := 300000.
Definition RE_ANNOUNCE_INTERVAL : Z := 60 * 60 * 1000.
Definition HEALTH_CHECK_INTERVAL : Z := 10000.

Module ActiveProxy.

Section proxy.
Context {sodium : Sodium} {sodiumBox : SodiumBox} {uv : Uv}.

(** ** Definitions *)

Definition with_proxy (f : ActiveProxy -> ActiveProxy) (l : Loop) : Loop :=
  MkLoop (f (lp_proxy l)) (lp_heap l) (lp_next l) (lp_first l) (lp_started l) (lp_stopped l) (lp_announced l) (lp_now l) (lp_time l).

(** A call of a member function of a connection; the object goes when its last reference does. *)
Definition store_conn (w : World) (ptr : positive) (l : Loop) : Loop :=
  MkLoop (w_proxy w) (if c_freed (w_conn w) then delete ptr (lp_heap l) else <[ptr := w_conn w]> (lp_heap l))
    (lp_next l) (lp_first l) (lp_started l) (lp_stopped l) (lp_announced l) (lp_now l) (lp_time l).

Definition on_conn {A} (ptr : positive) (m : M A) (l : Loop) : option Loop :=
  c ← lp_heap l !! ptr;
  '(_, w) ← m (MkWorld (lp_proxy l) c (lp_now l) (lp_time l));
  Some (store_conn w ptr l).

(** [reset]; [key] is the new random session key. *)
Definition reset (key : KeyPair) (p : ActiveProxy) : ActiveProxy :=
  MkProxy (ap_nodeId p) (ap_node p) key None (ap_box p) (serverId p) (domainName p) (relayPort p) 0
    0 0 UINT64_MAX 0 0 0 (peerKeypair p) (ap_peer p) (maxConnections p) 0 (connections p) (running p).

Definition needsNewConnection (key : KeyPair) (l : Loop) : bool * Loop :=
  let p := lp_proxy l in
  if maxConnections p <=? Z.of_nat (length (connections p)) then (false, l)
  else if negb (reconnectDelay p =? 0) && (u64 (lp_now l - lastConnectTimestamp p) <? reconnectDelay p) then (false, l)
  else if bool_decide (connections p = []) then
    (true, if bool_decide (is_Some (serverPk p)) then with_proxy (reset key) l else l)
  else (inFlights p =? Z.of_nat (length (connections p)), l).

Definition set_lastConnect (t : Z) (p : ActiveProxy) : ActiveProxy :=
  MkProxy (ap_nodeId p) (ap_node p) (sessionKey p) (serverPk p) (ap_box p) (serverId p) (domainName p) (relayPort p) t
    (serverFails p) (reconnectDelay p) (idleTimestamp p) (lastIdleCheckTimestamp p) (lastHealthCheckTimestamp p)
    (lastAnnouncePeerTimestamp p) (peerKeypair p) (ap_peer p) (maxConnections p) (inFlights p) (connections p) (running p).
Definition set_checks (idle health announce : Z) (p : ActiveProxy) : ActiveProxy :=
  MkProxy (ap_nodeId p) (ap_node p) (sessionKey p) (serverPk p) (ap_box p) (serverId p) (domainName p) (relayPort p) (lastConnectTimestamp p)
    (serverFails p) (reconnectDelay p) (idleTimestamp p) idle health announce (peerKeypair p) (ap_peer p) (maxConnections p)
    (inFlights p) (connections p) (running p).

(** [connect]: the result of [connectServer] is not looked at. *)
Definition connect (l : Loop) : option Loop :=
  let ptr := lp_next l in
  let l := MkLoop (set_lastConnect (lp_now l) (set_connections (connections (lp_proxy l) ++ [ptr]) (lp_proxy l)))
    (<[ptr := ProxyConnection_new ptr (lp_now l)]> (lp_heap l)) (Pos.succ ptr) (lp_first l) (lp_started l) (lp_stopped l)
    (lp_announced l) (lp_now l) (lp_time l) in
  on_conn ptr connectServer l.

(** [onClosed(nullptr)], [close] and [unref] of a connection the proxy gives up. *)
Definition drop_conn (ptr : positive) (l : Loop) : option Loop := on_conn ptr abandon l.

Fixpoint drop_conns (ptrs : list positive) (l : Loop) : option Loop :=
  match ptrs with [] => Some l | ptr :: ptrs => l ← drop_conn ptr l; drop_conns ptrs l end.

(** [idleCheck]: all connections but the first are given up, the last one first. *)
Definition idleCheck (l : Loop) : option Loop :=
  let p := lp_proxy l in
  if (idleTimestamp p =? UINT64_MAX) || (u64 (lp_now l - idleTimestamp p) <? MAX_IDLE_TIME) then Some l
  else if negb (inFlights p =? 0) || (length (connections p) <=? 1)%nat then Some l
  else
    l ← drop_conns (reverse (drop 1 (connections p))) l;
    Some (with_proxy (fun p => set_connections (take 1 (connections p)) p) l).

(** [healthCheck]: the range of the loop is the array as it was at the start; a check
    that takes its connection off the list moves the connections behind it, and
    leaves the slots behind the end as they were. *)
Fixpoint health_loop (n : nat) (i : nat) (slots : list positive) (l : Loop) : option Loop :=
  match n with
  | O => Some l
  | S n =>
      ptr ← slots !! i;
      l ← on_conn ptr periodicCheck l;
      let cs := connections (lp_proxy l) in
      health_loop n (S i) (cs ++ drop (length cs) slots) l
  end.

Definition healthCheck (l : Loop) : option Loop :=
  let cs := connections (lp_proxy l) in health_loop (length cs) 0 cs l.

Definition announcePeer (l : Loop) : Loop :=
  match ap_peer (lp_proxy l) with
  | Some peer =>
      MkLoop (lp_proxy l) (lp_heap l) (lp_next l) (lp_first l) (lp_started l) (lp_stopped l) (lp_announced l ++ [peer]) (lp_now l) (lp_time l)
  | None => l
  end.

Definition set_started (l : Loop) : Loop :=
  MkLoop (lp_proxy l) (lp_heap l) (lp_next l) false true (lp_stopped l) (lp_announced l) (lp_now l) (lp_time l).

(** The last part of [onIteration]. *)
Definition announce_due (l : Loop) : Loop :=
  let p := lp_proxy l in
  if bool_decide (is_Some (ap_peer p)) && (RE_ANNOUNCE_INTERVAL <=? u64 (lp_now l - lastAnnouncePeerTimestamp p)) then
    announcePeer (with_proxy (fun p => set_checks (lastIdleCheckTimestamp p) (lastHealthCheckTimestamp p) (lp_now l) p) l)
  else l.

Definition onIteration (key : KeyPair) (l : Loop) : option Loop :=
  let l := if lp_first l then set_started l else l in
  let '(needed, l) := needsNewConnection key l in
  l ← (if needed then connect l else Some l);
  let p := lp_proxy l in
  l ← (if IDLE_CHECK_INTERVAL <=? u64 (lp_now l - lastIdleCheckTimestamp p)
       then idleCheck (with_proxy (fun p => set_checks (lp_now l) (lastHealthCheckTimestamp p) (lastAnnouncePeerTimestamp p) p) l)
       else Some l);
  let p := lp_proxy l in
  l ← (if HEALTH_CHECK_INTERVAL <=? u64 (lp_now l - lastHealthCheckTimestamp p)
       then healthCheck (with_proxy (fun p => set_checks (lastIdleCheckTimestamp p) (lp_now l) (lastAnnouncePeerTimestamp p) p) l)
       else Some l);
  Some (announce_due l).

Definition set_running (b : bool) (p : ActiveProxy) : ActiveProxy :=
  MkProxy (ap_nodeId p) (ap_node p) (sessionKey p) (serverPk p) (ap_box p) (serverId p) (domainName p) (relayPort p) (lastConnectTimestamp p)
    (serverFails p) (reconnectDelay p) (idleTimestamp p) (lastIdleCheckTimestamp p) (lastHealthCheckTimestamp p)
    (lastAnnouncePeerTimestamp p) (peerKeypair p) (ap_peer p) (maxConnections p) (inFlights p) (connections p) b.

Definition onStop (l : Loop) : option Loop :=
  let l := with_proxy (set_running false) l in
  l ← drop_conns (connections (lp_proxy l)) l;
  Some (MkLoop (set_connections [] (lp_proxy l)) (lp_heap l) (lp_next l) (lp_first l) (lp_started l) true (lp_announced l) (lp_now l) (lp_time l)).

(** ** The proxy as a state machine: iterations, libuv's callbacks for a connection, the passing of time *)

Inductive loop_step : Loop -> Loop -> Prop :=
  | ls_iterate key l l' :
      length (kp_pk key) = BOX_KEY_BYTES -> running (lp_proxy l) = true -> onIteration key l = Some l' -> loop_step l l'
  | ls_event ptr c e w l :
      lp_heap l !! ptr = Some c -> (forall p now time, e <> Ev_other p now time) ->
      exec e (MkWorld (lp_proxy l) c (lp_now l) (lp_time l)) = Returned w -> loop_step l (store_conn w ptr l)
  | ls_time now time l :
      loop_step l (MkLoop (lp_proxy l) (lp_heap l) (lp_next l) (lp_first l) (lp_started l) (lp_stopped l) (lp_announced l) now time)
  | ls_stop l l' : onStop l = Some l' -> loop_step l l'.

(** A proxy when its loop starts. *)
Definition loop_start (l : Loop) : Prop :=
  connections (lp_proxy l) = [] /\ lp_heap l = ∅ /\ 0 <= maxConnections (lp_proxy l) /\ lp_announced l = [] /\
  serverFails (lp_proxy l) = 0 /\ reconnectDelay (lp_proxy l) = 0.

Inductive loop_reachable : Loop -> Prop :=
  | lr_start l : loop_start l -> loop_reachable l
  | lr_step l l' : loop_reachable l -> loop_step l l' -> loop_reachable l'.

(** ** What a connection may do to the proxy *)

(** The delay before a new connection: none, or two seconds. *)
Definition backoff (p : ActiveProxy) : Prop := (serverFails p = 0 /\ reconnectDelay p = 0) \/ reconnectDelay p = 2000.

Definition proxy_le (p p' : ActiveProxy) : Prop :=
  sublist (connections p') (connections p) /\ maxConnections p' = maxConnections p /\ (backoff p -> backoff p').

#[export] Instance proxy_le_preorder : PreOrder proxy_le.
Proof.
  split; [by intros p; split_and!|]. intros p q r (H1 & H2 & H3) (H4 & H5 & H6). split; [by trans (connections q)|].
  split; [by rewrite H5|auto].
Qed.

(** The world of connection [ptr], whose proxy was [p]. *)
Definition owned (p : ActiveProxy) (ptr : positive) (w : World) : Prop := proxy_le p (w_proxy w) /\ c_ptr (w_conn w) = ptr.

Section owned.
Variable (p : ActiveProxy) (ptr : positive).

Lemma owned_modify f : (forall c, c_ptr (f c) = c_ptr c) -> keeps (owned p ptr) (modify f).
Proof. intros Hf w [H1 H2]. split; [done|]. simpl. by rewrite Hf. Qed.

Lemma owned_proxy f : (forall q, proxy_le q (f q)) -> keeps (owned p ptr) (modify_proxy f).
Proof. intros Hf w [H1 H2]. split; [|done]. simpl. by trans (w_proxy w). Qed.

Lemma owned_call x : keeps (owned p ptr) (call x).
Proof. by intros w [H1 H2]. Qed.

Lemma owned_random n : keeps (owned p ptr) (random_buffer n).
Proof. by intros w [H1 H2]. Qed.

#[local] Hint Extern 3 (keeps (owned _ _) (modify _)) => (apply owned_modify; intros c; by destruct c) : keeps.
#[local] Hint Extern 3 (keeps (owned _ _) (modify_proxy _)) => (apply owned_proxy; intros q; by split_and!) : keeps.
#[local] Hint Resolve owned_call owned_random : keeps.

Lemma sublist_erase x l : sublist (erase x l) l.
Proof. induction l as [|y l IH]; simpl; [done|]. destruct (decide _); by constructor. Qed.

Lemma owned_onClosed : keeps (owned p ptr) onClosed.
Proof.
  unfold onClosed, unref. keeps_tac. apply owned_proxy. intros q. split; [apply sublist_erase|done].
Qed.

Lemma owned_onOpened : keeps (owned p ptr) onOpened.
Proof. apply owned_proxy. intros q. split_and!; [done..|]. by left. Qed.

Lemma owned_onOpenFailed : keeps (owned p ptr) onOpenFailed.
Proof.
  apply owned_proxy. intros q. split_and!; [done..|]. intros [[H1 H2]|H]; right; simpl; [by rewrite H1, H2|by rewrite H].
Qed.

Lemma owned_inFlights n idle : keeps (owned p ptr) (modify_proxy (fun q => set_inFlights (n q) (idle q) q)).
Proof. keeps_tac. Qed.

#[local] Hint Resolve owned_onClosed owned_onOpened owned_onOpenFailed : keeps.

Lemma owned_close : keeps (owned p ptr) close.
Proof. unfold close, onIdle, close_handle, hold. keeps_tac. Qed.
#[local] Hint Resolve owned_close : keeps.

Lemma owned_send type payload h : keeps (owned p ptr) (sendRelayPacket type payload h).
Proof. unfold sendRelayPacket, randomPadding, ref, unref, hold. keeps_tac. Qed.
#[local] Hint Resolve owned_send : keeps.

Lemma owned_closeUpstream2 : keeps (owned p ptr) closeUpstream2.
Proof. unfold closeUpstream2, hold. keeps_tac. Qed.
#[local] Hint Resolve owned_closeUpstream2 : keeps.

Lemma owned_closeUpstream : keeps (owned p ptr) closeUpstream.
Proof. unfold closeUpstream, sendDisconnectRequest, ref, unref, hold. keeps_tac. Qed.

Lemma owned_sendConnectResponse b : keeps (owned p ptr) (sendConnectResponse b).
Proof. unfold sendConnectResponse, randomBoolean. keeps_tac. Qed.
#[local] Hint Resolve owned_closeUpstream owned_sendConnectResponse : keeps.

Lemma owned_openUpstream : keeps (owned p ptr) openUpstream.
Proof. unfold openUpstream, onIdle, ref, unref, hold. keeps_tac. Qed.

Lemma owned_onChallenge data size : keeps (owned p ptr) (onChallenge data size).
Proof.
  unfold onChallenge, signWithNode, sendAttachRequest, sendAuthenticateRequest, encryptWithNode, randomPadding. keeps_tac.
Qed.

Lemma owned_onAuthorized pk port d : keeps (owned p ptr) (onAuthorized pk port d).
Proof. unfold onAuthorized. keeps_tac. Qed.
#[local] Hint Resolve owned_openUpstream owned_onChallenge owned_onAuthorized : keeps.

Lemma owned_process buf size : keeps (owned p ptr) (processRelayPacket buf size).
Proof.
  unfold processRelayPacket, onAuthenticateResponse, onAttachResponse, onPingResponse, onConnectRequest, onDataRequest,
    onDisconnectRequest, onDisconnectResponse, sendDisconnectResponse, confirm_disconnect, decrypt_session, decryptWithNode,
    onBusy, onIdle, ref, unref, hold. keeps_tac.
Qed.

Lemma owned_startReadUpstream : keeps (owned p ptr) startReadUpstream.
Proof. unfold startReadUpstream. keeps_tac. Qed.
#[local] Hint Resolve owned_startReadUpstream : keeps.

Lemma owned_callback cb status : keeps (owned p ptr) (callback cb status).
Proof.
  unfold callback, on_connected_relay, on_connected_upstream, on_written_relay, on_written_upstream, on_shutdown, on_closed, run_handler,
    establish, onIdle, unref. keeps_tac.
Qed.

Lemma owned_periodicCheck : keeps (owned p ptr) periodicCheck.
Proof. unfold periodicCheck, sendPingRequest. keeps_tac. Qed.

Lemma owned_connectServer : keeps (owned p ptr) connectServer.
Proof. unfold connectServer, ref, unref, hold. keeps_tac. Qed.

Lemma owned_sendData data : keeps (owned p ptr) (sendDataRequest data).
Proof. unfold sendDataRequest, encrypt_session. keeps_tac. Qed.

Lemma owned_drop : keeps (owned p ptr) abandon.
Proof. unfold abandon, unref. keeps_tac. Qed.
End owned.

(** ** Steps of the proxy *)

Lemma keeps_as_run {A} (I : World -> Prop) (m : M A) w w' : keeps I m -> I w -> as_run (m w) = Returned w' -> I w'.
Proof. intros Hm Hw. specialize (Hm w Hw). unfold wp in Hm. destruct (m w) as [[a w1]|]; [|done]. by intros [= <-]. Qed.

Lemma exec_owned p ptr e w w' :
  (forall q now time, e <> Ev_other q now time) -> owned p ptr w -> exec e w = Returned w' -> owned p ptr w'.
Proof.
  intros Ho Hw E. destruct e as [i status|data| |data| | | |q now time]; simpl in E.
  - destruct (c_callbacks (w_conn w) !! i); [|done]. eapply keeps_as_run; [|exact Hw|exact E].
    apply keeps_bind; [by apply owned_modify|]. intros _. apply owned_callback.
  - destruct (relay_data (w_conn w)); [|done]. unfold ProxyConnections.ProxyConnection.onRelayRead in E.
    destruct (Frames.onRelayRead _ _ _ _ _) as [[sb w1]| |] eqn:E1; [|done..]. injection E as <-.
    apply (onRelayRead_keeps _ (owned p ptr)) in E1; [done| |done]. clear. intros buf size w w' Hw E.
    apply (keeps_as_run (owned p ptr) (processRelayPacket buf size) w); [apply owned_process|done|].
    unfold process in E. unfold as_run. by destruct (processRelayPacket buf size w) as [[a w1]|]; simplify_eq.
  - destruct (relay_data (w_conn w)); [|done]. eapply (keeps_as_run _ close); eauto using owned_close.
  - destruct (upstream_data (w_conn w)); [|done]. eapply (keeps_as_run _ (sendDataRequest data)); eauto using owned_sendData.
  - destruct (upstream_data (w_conn w)); [|done]. eapply (keeps_as_run _ closeUpstream); eauto using owned_closeUpstream.
  - eapply (keeps_as_run _ periodicCheck); eauto using owned_periodicCheck.
  - eapply keeps_as_run; [|exact Hw|exact E]. apply keeps_bind; [apply owned_drop|]. intros _. apply keeps_bind; [apply keeps_gets|]. intros c.
    apply owned_proxy. intros q. split; [apply sublist_erase|done].
  - by destruct (Ho q now time).
Qed.

(** The addresses of the objects are below the next free one, and an object knows its address. *)
Definition addressed (l : Loop) : Prop :=
  (forall ptr c, lp_heap l !! ptr = Some c -> c_ptr c = ptr) /\ (forall ptr, ptr ∈ connections (lp_proxy l) -> (ptr < lp_next l)%positive).

(** A step of the proxy that makes no connection. *)
Definition loop_le (l l' : Loop) : Prop :=
  proxy_le (lp_proxy l) (lp_proxy l') /\ lp_next l' = lp_next l /\ (addressed l -> addressed l').

#[export] Instance loop_le_preorder : PreOrder loop_le.
Proof.
  split; [by intros l; split|]. intros l1 l2 l3 (H1 & H2 & H3) (H4 & H5 & H6).
  split; [by trans (lp_proxy l2)|]. split; [by rewrite H5|auto].
Qed.

Lemma proxy_le_elem p q ptr : proxy_le p q -> ptr ∈ connections q -> ptr ∈ connections p.
Proof. intros (H & _ & _) Hin. eapply elem_of_submseteq; [exact Hin|by apply sublist_submseteq]. Qed.

Lemma store_conn_le w ptr c l :
  lp_heap l !! ptr = Some c -> owned (lp_proxy l) (c_ptr c) w -> loop_le l (store_conn w ptr l).
Proof.
  intros Hc [H1 H2]. split; [done|]. split; [done|]. intros [Ha Hb]. split; simpl.
  - intros x d. destruct (c_freed (w_conn w)).
    + intros [_ Hd]%lookup_delete_Some. by apply Ha.
    + intros [[<- <-]|[_ Hd]]%lookup_insert_Some; [by rewrite H2, (Ha ptr c)|by apply Ha].
  - intros x Hx. by eapply Hb, proxy_le_elem.
Qed.

Lemma on_conn_le {A} ptr (m : M A) l l' :
  (forall p q, keeps (owned p q) m) -> on_conn ptr m l = Some l' -> loop_le l l'.
Proof.
  intros Hm. unfold on_conn. destruct (lp_heap l !! ptr) as [c|] eqn:Ec; [|done]. simpl.
  destruct (m _) as [[a w]|] eqn:E; [|done]. intros [= <-]. eapply store_conn_le; [done|].
  pose proof (Hm (lp_proxy l) (c_ptr c) (MkWorld (lp_proxy l) c (lp_now l) (lp_time l))) as H.
  unfold wp in H. rewrite E in H. apply H. by split.
Qed.

Lemma drop_conns_le ptrs l l' : drop_conns ptrs l = Some l' -> loop_le l l'.
Proof.
  revert l. induction ptrs as [|ptr ptrs IH]; intros l; simpl; [by intros [= <-]|].
  destruct (drop_conn ptr l) as [l1|] eqn:E; [|done]. simpl. intros H%IH. trans l1; [|done].
  eapply on_conn_le; [|exact E]. intros p q. apply owned_drop.
Qed.

Lemma with_proxy_le f l : (forall p, proxy_le p (f p)) -> loop_le l (with_proxy f l).
Proof.
  intros Hf. split; [apply Hf|]. split; [done|]. intros [Ha Hb]. split; [done|]. intros x Hx.
  apply Hb. by apply (proxy_le_elem _ (f (lp_proxy l))).
Qed.

Lemma idleCheck_le l l' : idleCheck l = Some l' -> loop_le l l'.
Proof.
  unfold idleCheck. destruct (_ || _); [by intros [= <-]|]. destruct (_ || _); [by intros [= <-]|].
  destruct (drop_conns _ l) as [l1|] eqn:E; [|done]. simpl. intros [= <-]. trans l1; [by eapply drop_conns_le|].
  apply with_proxy_le. intros p. split; [apply sublist_take|done].
Qed.

Lemma health_loop_le n i slots l l' : health_loop n i slots l = Some l' -> loop_le l l'.
Proof.
  revert i slots l. induction n as [|n IH]; intros i slots l; simpl; [by intros [= <-]|].
  destruct (slots !! i) as [ptr|]; [|done]. simpl. destruct (on_conn ptr periodicCheck l) as [l1|] eqn:E; [|done]. simpl.
  intros H%IH. trans l1; [|done]. eapply on_conn_le; [|exact E]. intros p q. apply owned_periodicCheck.
Qed.

Lemma announce_due_le l : loop_le l (announce_due l).
Proof.
  unfold announce_due. destruct (_ && _); [|done]. unfold announcePeer. trans (with_proxy (fun p => set_checks (lastIdleCheckTimestamp p) (lastHealthCheckTimestamp p) (lp_now l) p) l).
  - apply with_proxy_le. by intros p; split_and!.
  - simpl. destruct (ap_peer (lp_proxy l)); by split_and!.
Qed.

(** ** The invariant of the proxy *)

Record loop_inv (l : Loop) : Prop := {
  li_nodup : NoDup (connections (lp_proxy l));
  li_bound : Z.of_nat (length (connections (lp_proxy l))) <= maxConnections (lp_proxy l);
  li_backoff : backoff (lp_proxy l);
  li_addressed : addressed l
}.

Lemma loop_le_inv l l' : loop_le l l' -> loop_inv l -> loop_inv l'.
Proof.
  intros ((H1 & H2 & H3) & _ & H4) [I1 I2 I3 I4]. split; [by eapply sublist_NoDup|rewrite H2|by apply H3|by apply H4].
  apply sublist_length in H1. lia.
Qed.

Lemma reset_le key l : loop_le l (with_proxy (reset key) l).
Proof. apply with_proxy_le. intros p. split_and!; [done..|]. by left. Qed.

Lemma needsNewConnection_le key l b l' : needsNewConnection key l = (b, l') -> loop_le l l'.
Proof.
  unfold needsNewConnection. destruct (_ <=? _); [by intros [= <- <-]|]. destruct (_ && _); [by intros [= <- <-]|].
  case_bool_decide; [|by intros [= <- <-]]. intros [= <- <-]. case_bool_decide; [apply reset_le|done].
Qed.

Lemma needsNewConnection_room key l l' :
  needsNewConnection key l = (true, l') -> Z.of_nat (length (connections (lp_proxy l'))) < maxConnections (lp_proxy l').
Proof.
  unfold needsNewConnection. destruct (Z.leb_spec (maxConnections (lp_proxy l)) (Z.of_nat (length (connections (lp_proxy l))))); [done|].
  destruct (_ && _); [done|]. case_bool_decide; [|by intros [= ? <-]]. intros [= <-]. by case_bool_decide.
Qed.

Lemma connect_inv l l' :
  loop_inv l -> Z.of_nat (length (connections (lp_proxy l))) < maxConnections (lp_proxy l) -> connect l = Some l' -> loop_inv l'.
Proof.
  intros [I1 I2 I3 [I4 I5]] Hlt. unfold connect. intros H%on_conn_le; [|intros; apply owned_connectServer].
  eapply loop_le_inv; [exact H|]. split; simpl; [| |done|split; simpl].
  - apply NoDup_app. split; [done|]. split; [|by apply NoDup_singleton]. intros x Hx%I5 ->%list_elem_of_singleton. lia.
  - rewrite length_app. simpl. lia.
  - intros ptr c. rewrite lookup_insert_Some. intros [[<- <-]|[_ H1]]; [done|by apply I4].
  - intros ptr. rewrite elem_of_app, list_elem_of_singleton. intros [Hp%I5| ->]; lia.
Qed.

Lemma onIteration_inv key l l' : loop_inv l -> onIteration key l = Some l' -> loop_inv l'.
Proof.
  intros Hl. unfold onIteration. set (l0 := if lp_first l then set_started l else l).
  assert (loop_inv l0) as H0. { unfold l0. destruct (lp_first l); [|done]. apply (loop_le_inv l); [by split_and!|done]. }
  destruct (needsNewConnection key l0) as [b l1] eqn:E1. pose proof (loop_le_inv _ _ (needsNewConnection_le _ _ _ _ E1) H0) as H1.
  destruct (if b then connect l1 else Some l1) as [l2|] eqn:E2; [|done]. cbn [mbind option_bind].
  assert (loop_inv l2) as H2. { destruct b; [|by simplify_eq]. by eapply connect_inv; [|eapply needsNewConnection_room|]. }
  destruct (if (_ : bool) then idleCheck _ else _) as [l3|] eqn:E3; [|done]. cbn [mbind option_bind].
  assert (loop_inv l3) as H3.
  { destruct (_ <=? _); [|by simplify_eq]. eapply loop_le_inv; [by eapply idleCheck_le|]. eapply loop_le_inv; [|exact H2].
    apply with_proxy_le. by intros p; split_and!. }
  destruct (if (_ : bool) then healthCheck _ else _) as [l4|] eqn:E4; [|done]. cbn [mbind option_bind]. intros [= <-].
  eapply loop_le_inv; [apply announce_due_le|]. clear E3. destruct (_ <=? _); [|by simplify_eq].
  eapply loop_le_inv; [by eapply health_loop_le|]. eapply loop_le_inv; [|exact H3]. apply with_proxy_le. by intros p; split_and!.
Qed.

Lemma onStop_le l l' : onStop l = Some l' -> loop_le l l'.
Proof.
  unfold onStop. destruct (drop_conns _ _) as [l1|] eqn:E; [|done]. simpl. intros [= <-].
  trans l1; [trans (with_proxy (set_running false) l); [|by eapply drop_conns_le]|].
  - apply with_proxy_le. by intros p; split_and!.
  - split; [split; [apply sublist_nil_l|done]|]. split; [done|]. intros [Ha Hb]. split; [done|]. simpl. intros x Hx. by apply elem_of_nil in Hx.
Qed.

Lemma loop_step_inv l l' : loop_step l l' -> loop_inv l -> loop_inv l'.
Proof.
  destruct 1 as [key l l' _ _ E|ptr c e w l Hc Ho E|now time l|l l' E]; intros Hl.
  - by eapply onIteration_inv.
  - eapply loop_le_inv; [|exact Hl]. eapply store_conn_le; [done|]. eapply exec_owned; [done| |exact E]. by split.
  - apply (loop_le_inv l); [by split_and!|done].
  - eapply loop_le_inv; [|exact Hl]. by apply onStop_le.
Qed.

Lemma loop_reachable_inv l : loop_reachable l -> loop_inv l.
Proof.
  induction 1 as [l (H1 & H2 & H3 & _ & H4 & H5)|l l' _ IH H]; [|by eapply loop_step_inv].
  split; rewrite ?H1; [constructor|done|by left|]. split; [by rewrite H2|]. rewrite H1. by intros x Hx%elem_of_nil.
Qed.

(** ** Giving up connections *)

(** The world of a connection whose handler of [onClosed] is gone. *)
Definition unlisted (cs : list positive) (w : World) : Prop := connections (w_proxy w) = cs /\ closeHandler (w_conn w) = false.
Definition shut (cs : list positive) (w : World) : Prop := unlisted cs w /\ c_state (w_conn w) = Closed.

Lemma keeps_shut_modify cs f :
  (forall c, closeHandler (f c) = closeHandler c /\ c_state (f c) = c_state c) -> keeps (shut cs) (modify f).
Proof. intros Hf w [[H1 H2] H3]. destruct (Hf (w_conn w)) as [E1 E2]. unfold wp. simpl. split; [split; [done|]|]; simpl; congruence. Qed.

Lemma keeps_shut_proxy cs f : (forall p, connections (f p) = connections p) -> keeps (shut cs) (modify_proxy f).
Proof. intros Hf w [[H1 H2] H3]. unfold wp. simpl. split; [split; [|done]|done]. simpl. by rewrite Hf. Qed.

Lemma keeps_shut_call cs x : keeps (shut cs) (call x).
Proof. by intros w [[H1 H2] H3]. Qed.

#[local] Hint Extern 3 (keeps (shut _) (modify _)) => (apply keeps_shut_modify; intros c; by destruct c) : keeps.
#[local] Hint Extern 3 (keeps (shut _) (modify_proxy _)) => (apply keeps_shut_proxy; by intros []) : keeps.
#[local] Hint Resolve keeps_shut_call : keeps.

Lemma keeps_shut_onClosed cs : keeps (shut cs) onClosed.
Proof. intros w [[H1 H2] H3]. unfold onClosed. apply wp_bind. unfold wp at 1. cbn [gets]. rewrite H2. by split. Qed.
#[local] Hint Resolve keeps_shut_onClosed : keeps.

Lemma close_shut cs w : unlisted cs w -> wp close (fun _ => shut cs) w.
Proof.
  intros [H1 H2]. unfold close. apply wp_bind. unfold wp at 1. cbn [gets]. case_bool_decide as Hs; [by split|].
  apply wp_bind. unfold wp at 1, modify. assert (shut cs (set_conn (set_state Closed) w)) as Hw by (by split).
  revert Hw. generalize (set_conn (set_state Closed) w) as w1. intros w1 Hw.
  match goal with |- wp ?m _ _ => assert (keeps (shut cs) m) as Hk end; [|by apply Hk].
  unfold onOpenFailed, onIdle, close_handle, hold. keeps_tac.
Qed.

Lemma drop_conn_spec ptr c l :
  lp_heap l !! ptr = Some c ->
  exists l', drop_conn ptr l = Some l' /\ connections (lp_proxy l') = connections (lp_proxy l) /\
    (forall q, q <> ptr -> lp_heap l' !! q = lp_heap l !! q) /\
    (forall d, lp_heap l' !! ptr = Some d -> c_state d = Closed).
Proof.
  intros Hc. unfold drop_conn, on_conn. rewrite Hc. cbn [mbind option_bind].
  set (w0 := MkWorld (lp_proxy l) c (lp_now l) (lp_time l)).
  set (w1 := set_conn (set_closeHandler false) w0).
  assert (abandon w0 = (close;; unref) w1) as -> by done.
  assert (wp close (fun _ => shut (connections (lp_proxy l))) w1) as Hs by (by apply close_shut).
  unfold mbind, M_bind. destruct (total_close w1) as [[a w2] E]. unfold wp in Hs. rewrite E in *. destruct Hs as [[H1 _] H2].
  eexists. split; [reflexivity|]. cbn [lp_proxy store_conn lp_heap w_proxy w_conn]. split; [done|]. split.
  - intros q Hq. destruct (c_freed _); [by rewrite lookup_delete_ne|by rewrite lookup_insert_ne].
  - intros d. destruct (c_freed _); [by rewrite lookup_delete_eq|]. rewrite lookup_insert_eq. by intros [= <-].
Qed.

Lemma drop_conns_spec ptrs l :
  NoDup ptrs -> (forall ptr, ptr ∈ ptrs -> is_Some (lp_heap l !! ptr)) ->
  exists l', drop_conns ptrs l = Some l' /\ connections (lp_proxy l') = connections (lp_proxy l) /\
    (forall q, q ∉ ptrs -> lp_heap l' !! q = lp_heap l !! q) /\
    (forall q d, q ∈ ptrs -> lp_heap l' !! q = Some d -> c_state d = Closed).
Proof.
  intros Hn. revert l. induction Hn as [|ptr ptrs Hp Hn IH]; intros l Hl; simpl.
  { exists l. split_and!; [done..|]. by intros q d Hq%elem_of_nil. }
  destruct (Hl ptr) as [c Hc]; [by left|]. destruct (drop_conn_spec _ _ _ Hc) as (l1 & -> & E1 & E2 & E3). simpl.
  destruct (IH l1) as (l2 & -> & F1 & F2 & F3).
  { intros q Hq. rewrite E2; [by apply Hl; right|]. by intros ->. }
  exists l2. split_and!; [done|by rewrite F1|..].
  - intros q [Hq1 Hq2]%not_elem_of_cons. by rewrite F2, E2.
  - intros q d. rewrite elem_of_cons. destruct (decide (q ∈ ptrs)) as [Hq|Hq]; [by eauto|]. intros [->|?] Hd; [|done].
    rewrite F2 in Hd by done. by eapply E3.
Qed.

(** ** The health check *)

Lemma erase_absent x l : x ∉ l -> erase x l = l.
Proof.
  induction l as [|y l IH]; simpl; [done|]. rewrite not_elem_of_cons. intros [H1 H2]. rewrite decide_False by done. by rewrite IH.
Qed.

Lemma erase_erase x l : NoDup l -> erase x (erase x l) = erase x l.
Proof.
  induction 1 as [|y l Hy Hl IH]; simpl; [done|]. destruct (decide (y = x)) as [->|Hn]; [by apply erase_absent|].
  simpl. rewrite decide_False by done. by rewrite IH.
Qed.

(** The list of a proxy while connection [ptr] is at work: what it was, or that without [ptr]. *)
Definition erased (cs : list positive) (ptr : positive) (w : World) : Prop :=
  (connections (w_proxy w) = cs \/ connections (w_proxy w) = erase ptr cs) /\ c_ptr (w_conn w) = ptr.

Section erased.
Variable (cs : list positive) (ptr : positive) (nodup : NoDup cs).

Lemma erased_modify f : (forall c, c_ptr (f c) = c_ptr c) -> keeps (erased cs ptr) (modify f).
Proof. intros Hf w [H1 H2]. split; [done|]. simpl. by rewrite Hf. Qed.

Lemma erased_proxy f : (forall q, connections (f q) = connections q) -> keeps (erased cs ptr) (modify_proxy f).
Proof. intros Hf w [H1 H2]. split; [|done]. simpl. by rewrite Hf. Qed.

Lemma erased_call x : keeps (erased cs ptr) (call x).
Proof. by intros w [H1 H2]. Qed.

Lemma erased_random n : keeps (erased cs ptr) (random_buffer n).
Proof. by intros w [H1 H2]. Qed.

#[local] Hint Extern 3 (keeps (erased _ _) (modify _)) => (apply erased_modify; intros c; by destruct c) : keeps.
#[local] Hint Extern 3 (keeps (erased _ _) (modify_proxy _)) => (apply erased_proxy; by intros q) : keeps.
#[local] Hint Resolve erased_call erased_random : keeps.

(** The handler erases the connection itself. *)
Lemma wp_onClosed_erased w :
  erased cs ptr w -> closeHandler (w_conn w) = true -> wp onClosed (fun _ w' => connections (w_proxy w') = erase ptr cs /\ c_ptr (w_conn w') = ptr) w.
Proof.
  intros [H1 H2] H3. unfold onClosed. apply wp_bind. unfold wp at 1. cbn [gets]. rewrite H3. unfold wp. simpl.
  split; [|done]. rewrite H2. destruct H1 as [->| ->]; [done|by apply erase_erase].
Qed.

Lemma erased_onClosed : keeps (erased cs ptr) onClosed.
Proof.
  intros w Hw. destruct (closeHandler (w_conn w)) eqn:E.
  - eapply wp_mono; [by apply wp_onClosed_erased|]. intros a w' [H1 H2]. split; [by right|done].
  - unfold onClosed. apply wp_bind. unfold wp at 1. cbn [gets]. by rewrite E.
Qed.
#[local] Hint Resolve erased_onClosed : keeps.

Lemma erased_close : keeps (erased cs ptr) close.
Proof. unfold close, onOpenFailed, onIdle, close_handle, hold. keeps_tac. Qed.
#[local] Hint Resolve erased_close : keeps.

Lemma erased_periodicCheck : keeps (erased cs ptr) periodicCheck.
Proof. unfold periodicCheck, sendPingRequest, sendRelayPacket, randomPadding, ref, unref, hold. keeps_tac. Qed.

(** The world of an open connection. *)
Definition listed (w : World) : Prop := erased cs ptr w /\ closeHandler (w_conn w) = true.

Lemma listed_modify f : (forall c, c_ptr (f c) = c_ptr c /\ closeHandler (f c) = closeHandler c) -> keeps listed (modify f).
Proof. intros Hf w [H1 H2]. split; [by apply erased_modify; [apply Hf|]|]. simpl. by rewrite (proj2 (Hf _)). Qed.

Lemma listed_proxy f : (forall q, connections (f q) = connections q) -> keeps listed (modify_proxy f).
Proof. intros Hf w [H1 H2]. split; [by apply erased_proxy|done]. Qed.

Lemma listed_call x : keeps listed (call x).
Proof. by intros w [[H1 H2] H3]. Qed.

#[local] Hint Extern 3 (keeps listed (modify _)) => (apply listed_modify; intros c; by destruct c) : keeps.
#[local] Hint Extern 3 (keeps listed (modify_proxy _)) => (apply listed_proxy; by intros q) : keeps.
#[local] Hint Resolve listed_call : keeps.

Lemma close_erases w :
  listed w -> c_state (w_conn w) <> Closed -> wp close (fun _ w' => connections (w_proxy w') = erase ptr cs /\ c_ptr (w_conn w') = ptr) w.
Proof.
  intros Hw Hs. unfold close. apply wp_bind. unfold wp at 1. cbn [gets]. rewrite bool_decide_eq_false_2 by done.
  generalize (c_state (w_conn w)) as old. clear Hs. intros old.
  do 5 (apply wp_bind, (wp_keeps listed); [unfold onOpenFailed, onIdle, close_handle, hold; keeps_tac|done|]; clear w Hw; intros ? w Hw).
  destruct Hw. by apply wp_onClosed_erased.
Qed.
End erased.

(** A connection that is closed by the check: not relaying, and silent for too long. *)
Definition timed_out (l : Loop) (c : ProxyConnection) : Prop :=
  c_state c <> Relaying /\ c_state c <> Closed /\ closeHandler c = true /\
  MAX_KEEP_ALIVE_RETRY * KEEP_ALIVE_INTERVAL <= u64 (lp_now l - keepAliveTimestamp c).

Lemma on_conn_heap {A} ptr (m : M A) l l' q : on_conn ptr m l = Some l' -> q <> ptr -> lp_heap l' !! q = lp_heap l !! q.
Proof.
  unfold on_conn. intros E Hq. destruct (lp_heap l !! ptr); [|done]. simpl in E. destruct (m _) as [[a w]|]; [|done]. injection E as <-.
  simpl. destruct (c_freed _); [by rewrite lookup_delete_ne|by rewrite lookup_insert_ne].
Qed.

Lemma on_conn_wp {A} ptr c (m : M A) (Q : World -> Prop) l l' :
  lp_heap l !! ptr = Some c -> wp m (fun _ => Q) (MkWorld (lp_proxy l) c (lp_now l) (lp_time l)) -> on_conn ptr m l = Some l' ->
  exists w, Q w /\ l' = store_conn w ptr l.
Proof.
  intros Hc. unfold wp, on_conn. rewrite Hc. simpl. destruct (m _) as [[a w]|]; [|done]. intros HQ [= <-]. eauto.
Qed.

Lemma checked_first a c l l' :
  lp_heap l !! a = Some c -> c_ptr c = a -> timed_out l c -> NoDup (connections (lp_proxy l)) ->
  on_conn a periodicCheck l = Some l' -> connections (lp_proxy l') = erase a (connections (lp_proxy l)).
Proof.
  intros Hc Ha (H1 & H2 & H3 & H4) Hn E. destruct (on_conn_wp a c periodicCheck (fun w => connections (w_proxy w) = erase a (connections (lp_proxy l))) l l') as (w & Hw & ->); [done| |done|done].
  unfold periodicCheck. apply wp_bind. unfold wp at 1. cbn [gets w_conn]. rewrite bool_decide_eq_false_2 by done.
  do 2 (apply wp_bind; unfold wp at 1; cbn [gets uv_now w_conn w_now]). rewrite (proj2 (Z.leb_le _ _) H4).
  eapply wp_mono; [apply (close_erases (connections (lp_proxy l)) a)|]; [done| |done|by intros ? w []].
  split; [|done]. split; [by left|done].
Qed.

Lemma checked_other ptr l l' :
  addressed l -> NoDup (connections (lp_proxy l)) -> on_conn ptr periodicCheck l = Some l' ->
  connections (lp_proxy l') = connections (lp_proxy l) \/ connections (lp_proxy l') = erase ptr (connections (lp_proxy l)).
Proof.
  intros [Ha _] Hn E. destruct (lp_heap l !! ptr) as [c|] eqn:Hc; [|unfold on_conn in E; by rewrite Hc in E].
  destruct (on_conn_wp ptr c periodicCheck (erased (connections (lp_proxy l)) ptr) l l') as (w & [Hw _] & ->); [done| |done|done].
  apply erased_periodicCheck; [done|]. split; [by left|]. by apply Ha.
Qed.

Lemma erase_elem x y l : x ∈ erase y l -> x ∈ l.
Proof. intros H. eapply elem_of_submseteq; [exact H|]. apply sublist_submseteq, sublist_erase. Qed.

(** Once the connection before it is gone, the loop is past the slot of [b]. *)
Lemma health_loop_skips b n i r s l l' :
  (1 <= i)%nat -> addressed l -> NoDup (b :: r) -> connections (lp_proxy l) = b :: r -> b ∉ s ->
  health_loop n i (b :: s) l = Some l' -> lp_heap l' !! b = lp_heap l !! b.
Proof.
  revert i r s l. induction n as [|n IH]; intros i r s l Hi Ha Hn Hcs Hs E; [by injection E as <-|].
  destruct i as [|i]; [lia|]. cbn [health_loop lookup list_lookup mbind option_bind] in E.
  destruct (s !! i) as [ptr|] eqn:Ep; [|done]. cbn [mbind option_bind] in E. destruct (on_conn ptr periodicCheck l) as [l1|] eqn:E1; [|done]. cbn [mbind option_bind] in E.
  assert (ptr <> b) as Hpb. { intros ->. apply Hs. by eapply list_elem_of_lookup_2. }
  rewrite <- (on_conn_heap ptr periodicCheck l l1 b) by done.
  assert (exists r', connections (lp_proxy l1) = b :: r' /\ sublist r' r) as (r' & Hr' & Hsub).
  { destruct (checked_other ptr l l1) as [->| ->]; [done|by rewrite Hcs|done|..]; rewrite Hcs; [by exists r|]. simpl.
    rewrite decide_False by done. exists (erase ptr r). split; [done|apply sublist_erase]. }
  rewrite Hr' in E. apply NoDup_cons in Hn as [Hb Hn]. assert (b ∉ r') as Hb'.
  { intros H. apply Hb. eapply elem_of_submseteq; [exact H|by apply sublist_submseteq]. }
  eapply (IH (S (S i)) r'); [lia| | |done| |exact E].
  - apply on_conn_le in E1; [by apply E1|]. intros p q. apply owned_periodicCheck.
  - constructor; [done|]. by eapply sublist_NoDup.
  - simpl. rewrite elem_of_app. intros [?|H]; [done|]. apply Hs. eapply elem_of_submseteq; [exact H|]. apply sublist_submseteq, sublist_drop.
Qed.

(** ** Properties *)

(** Whatever the network does, the proxy has at most [maxConnections] connections
    and never the same one twice; the objects of different connections are
    different. *)
Theorem connections_bounded (l : Loop) :
  loop_reachable l ->
  NoDup (connections (lp_proxy l)) /\ Z.of_nat (length (connections (lp_proxy l))) <= maxConnections (lp_proxy l) /\
  (forall ptr c, lp_heap l !! ptr = Some c -> c_ptr c = ptr).
Proof. intros [H1 H2 _ [H3 _]]%loop_reachable_inv. by split_and!. Qed.

(** The delay before the next attempt does not grow with the failures: it is two
    seconds behind every failure, since its guard compares milliseconds with 64. *)
Theorem reconnect_delay_constant (l : Loop) :
  loop_reachable l ->
  (reconnectDelay (lp_proxy l) = 0 \/ reconnectDelay (lp_proxy l) = 2000) /\
  forall c a w, onOpenFailed (MkWorld (lp_proxy l) c (lp_now l) (lp_time l)) = Some (a, w) ->
    reconnectDelay (w_proxy w) = 2000 /\ serverFails (w_proxy w) = u32 (serverFails (lp_proxy l) + 1).
Proof.
  intros [_ _ Hb _]%loop_reachable_inv. split; [destruct Hb as [[_ ?]|?]; auto|]. intros c a w [= _ <-]. simpl.
  split; [|done]. by destruct Hb as [[-> ->]| ->].
Qed.

(** A proxy that was idle for [MAX_IDLE_TIME] keeps the first of its connections
    as it is and gives up the others: they are deleted, or closed until libuv lets
    go of them. *)
Theorem idle_check_keeps_one (l : Loop) (first : positive) (rest : list positive) :
  connections (lp_proxy l) = first :: rest -> rest <> [] -> NoDup (first :: rest) ->
  (forall ptr, ptr ∈ rest -> is_Some (lp_heap l !! ptr)) ->
  idleTimestamp (lp_proxy l) <> UINT64_MAX -> MAX_IDLE_TIME <= u64 (lp_now l - idleTimestamp (lp_proxy l)) -> inFlights (lp_proxy l) = 0 ->
  exists l', idleCheck l = Some l' /\ connections (lp_proxy l') = [first] /\ lp_heap l' !! first = lp_heap l !! first /\
    forall ptr c, ptr ∈ rest -> lp_heap l' !! ptr = Some c -> c_state c = Closed.
Proof.
  intros Hcs Hr Hn Hh Hi Ht Hf. unfold idleCheck. rewrite (proj2 (Z.eqb_neq _ _) Hi), (proj2 (Z.ltb_ge _ _) Ht), Hf, Hcs.
  destruct rest as [|r rest]; [done|]. cbn [negb orb Z.eqb length Nat.leb drop]. apply NoDup_cons in Hn as [Hn1 Hn2].
  destruct (drop_conns_spec (reverse (r :: rest)) l) as (l' & -> & E1 & E2 & E3).
  - by rewrite reverse_Permutation.
  - intros ptr. rewrite elem_of_reverse. apply Hh.
  - eexists. split; [reflexivity|]. cbn [lp_proxy with_proxy lp_heap set_connections connections]. rewrite E1, Hcs. split; [done|].
    split; [apply E2; by rewrite elem_of_reverse|]. intros ptr c Hp. apply E3. by rewrite elem_of_reverse.
Qed.

(** A health check of three or more connections that closes the first does not
    look at the second: the list shrinks under the loop, and the second connection
    stays as it is however long it has been silent. *)
Theorem health_check_skips (l l' : Loop) (a b b' : positive) (c : ProxyConnection) (rest : list positive) :
  connections (lp_proxy l) = a :: b :: b' :: rest -> NoDup (a :: b :: b' :: rest) -> addressed l ->
  lp_heap l !! a = Some c -> timed_out l c -> healthCheck l = Some l' ->
  lp_heap l' !! b = lp_heap l !! b.
Proof.
  intros Hcs Hn Ha Hc Ht. unfold healthCheck. rewrite Hcs. remember (b' :: rest) as rest' eqn:Hrest.
  change (length (a :: b :: rest')) with (S (length (b :: rest'))). cbn [health_loop].
  change ((a :: b :: rest') !! 0%nat) with (Some a). cbn [mbind option_bind].
  destruct (on_conn a periodicCheck l) as [l1|] eqn:E1; [|done]. cbn [mbind option_bind].
  pose proof (checked_first a c l l1 Hc (proj1 Ha _ _ Hc) Ht) as H1. rewrite Hcs in H1. cbn [erase] in H1.
  rewrite (decide_True (P := a = a)) in H1 by done. specialize (H1 Hn E1). rewrite H1. apply NoDup_cons in Hn as [Hn1 Hn2].
  rewrite <- (on_conn_heap a periodicCheck l l1 b); [|done|intros ->; apply Hn1; by left].
  cbn [app]. apply (health_loop_skips b _ 1 rest'); [lia| |done|done|].
  - apply on_conn_le in E1; [by apply E1|]. intros p q. apply owned_periodicCheck.
  - apply NoDup_cons in Hn2 as [Hb _]. rewrite elem_of_app. intros [?|H]; [done|]. apply Hb. subst rest'.
    cbn [length drop] in H. eapply elem_of_submseteq; [exact H|]. apply sublist_submseteq, sublist_drop.
Qed.

End proxy.
End ActiveProxy.

(** ** Witnesses *)

#[local] Existing Instances toy_sodium toy_box.

(** A loop at the start, and one with three connections that were never answered. *)
Definition loop0 : Loop := MkLoop (set_connections [] proxy0) ∅ 1 true false false [] 70000 0.
Definition loop3 : Loop :=
  MkLoop (set_inFlights 0 0 (set_connections [1; 2; 3]%positive proxy0))
    (<[1%positive := ProxyConnection_new 1 0]> (<[2%positive := ProxyConnection_new 2 0]> (<[3%positive := ProxyConnection_new 3 300000]> ∅)))
    4 false true false [] 400000 0.

Lemma connections_bounded_witness :
  exists l, ActiveProxy.loop_reachable l /\ Z.of_nat (length (connections (lp_proxy l))) <= maxConnections (lp_proxy l).
Proof.
  destruct (ActiveProxy.onIteration (CryptoBox.KeyPair_copy (replicate 32 5)) loop0) as [l|] eqn:E.
  - assert (ActiveProxy.loop_reachable l) as H.
    { apply (ActiveProxy.lr_step loop0); [apply ActiveProxy.lr_start; by split_and!|]. by eapply ActiveProxy.ls_iterate; [| |exact E]. }
    exists l. split; [exact H|]. apply (ActiveProxy.connections_bounded l H).
  - exfalso. assert (bool_decide (is_Some (ActiveProxy.onIteration (CryptoBox.KeyPair_copy (replicate 32 5)) loop0)) = true) as H by (by vm_compute).
    rewrite E in H. discriminate.
Defined.

Lemma reconnect_delay_constant_witness :
  ActiveProxy.loop_reachable loop0 /\ (reconnectDelay (lp_proxy loop0) = 0 \/ reconnectDelay (lp_proxy loop0) = 2000).
Proof.
  assert (ActiveProxy.loop_reachable loop0) as H by (apply ActiveProxy.lr_start; by split_and!).
  split; [exact H|]. apply (ActiveProxy.reconnect_delay_constant loop0 H).
Defined.

Lemma nodup3 : NoDup [1; 2; 3]%positive.
Proof. by apply (bool_decide_eq_true_1 (NoDup _)). Qed.

Lemma idle_check_keeps_one_witness :
  exists l', ActiveProxy.idleCheck loop3 = Some l' /\ connections (lp_proxy l') = [1%positive].
Proof.
  destruct (ActiveProxy.idle_check_keeps_one loop3 1 [2; 3]%positive) as (l' & H1 & H2 & _).
  - reflexivity.
  - discriminate.
  - exact nodup3.
  - intros ptr. rewrite !elem_of_cons. intros [->|[->|H%elem_of_nil]]; [eexists; reflexivity..|done].
  - discriminate.
  - discriminate.
  - reflexivity.
  - exists l'. by split.
Defined.

Lemma health_check_skips_witness :
  exists l', ActiveProxy.healthCheck loop3 = Some l' /\ lp_heap l' !! 2%positive = lp_heap loop3 !! 2%positive.
Proof.
  destruct (ActiveProxy.healthCheck loop3) as [l'|] eqn:E.
  - exists l'. split; [reflexivity|]. apply (ActiveProxy.health_check_skips loop3 l' 1 2 3 (ProxyConnection_new 1 0) []).
    + reflexivity.
    + exact nodup3.
    + split.
      * intros ptr c. unfold loop3. simpl. rewrite !lookup_insert_Some, lookup_empty.
        by intros [[<- <-]|[_ [[<- <-]|[_ [[<- <-]|[_ ?]]]]]].
      * intros ptr. simpl. rewrite !elem_of_cons. intros [->|[->|[->|H%elem_of_nil]]]; [lia..|done].
    + reflexivity.
    + by split_and!.
    + exact E.
  - exfalso. assert (bool_decide (is_Some (ActiveProxy.healthCheck loop3)) = true) as H by (by vm_compute). rewrite E in H. discriminate.
Defined.
