(* ===== verification/ProxyStart.v ===== *)
(** * Starting and stopping the active proxy: [initialize], [deinitialize], [start] and
    [stop] of [src/addons/activeproxy/activeproxy.cc]

    [initialize] reads the configuration, a map of [std::any] that [jsonToAny] made of
    the configuration file, looks up the server in the network, and starts the event
    loop in a thread of its own.  The members it sets are the record [Setup]; they
    keep their values when it throws.  The lookups of the node are an interface, the
    results of libuv are arguments.

    The thread sets [running] when it begins, so that what [stop] does depends on how
    far it has come ([Runner]). *)

From Stdlib Require Import String.
From stdpp Require Import strings.
From S2P Require Import Prelude Ids Addresses Entries Values Texts Crypto Json Configurations.

#[local] Open Scope Z_scope.
#[local] Open Scope carrier_scope.

(** What [findPeer] and [findNode] of the node give when their futures are ready. *)
Class Finder := {
  find_peer : Id -> Z -> result (list PeerInfo);
  find_node : Id -> result (list NodeInfo)
}.

Record Setup := MkSetup {
  su_logLevel : list Z;
  upstreamHost : list Z;
  upstreamPort : Z;
  su_serverId : Id;
  serverHost : list Z;
  serverPort : Z;
  su_peerKeypair : option KeyPair;
  su_domainName : list Z;
  su_maxConnections : Z;
  serverAddr : SocketAddress;
  upstreamAddr : SocketAddress;
  serverName : list Z;
  upstreamName : list Z
}.

Module ProxyStart.

(** ** [initialize] *)

#[local] Abbreviation M := (SM Setup).
#[local] Abbreviation skip := (sm_ret ()).

Definition Setup_new : Setup := MkSetup [] [] 0 zero [] 0 None [] 16 SA_unspec SA_unspec [] [].

Definition set_logLevel (x : list Z) (s : Setup) : Setup :=
  MkSetup x (upstreamHost s) (upstreamPort s) (su_serverId s) (serverHost s) (serverPort s) (su_peerKeypair s) (su_domainName s)
    (su_maxConnections s) (serverAddr s) (upstreamAddr s) (serverName s) (upstreamName s).
Definition set_upstream (host : list Z) (port : Z) (s : Setup) : Setup :=
  MkSetup (su_logLevel s) host port (su_serverId s) (serverHost s) (serverPort s) (su_peerKeypair s) (su_domainName s)
    (su_maxConnections s) (serverAddr s) (upstreamAddr s) (serverName s) (upstreamName s).
Definition set_server (id : Id) (host : list Z) (port : Z) (s : Setup) : Setup :=
  MkSetup (su_logLevel s) (upstreamHost s) (upstreamPort s) id host port (su_peerKeypair s) (su_domainName s)
    (su_maxConnections s) (serverAddr s) (upstreamAddr s) (serverName s) (upstreamName s).
Definition set_keypair (k : KeyPair) (s : Setup) : Setup :=
  MkSetup (su_logLevel s) (upstreamHost s) (upstreamPort s) (su_serverId s) (serverHost s) (serverPort s) (Some k) (su_domainName s)
    (su_maxConnections s) (serverAddr s) (upstreamAddr s) (serverName s) (upstreamName s).
Definition set_domain (d : list Z) (s : Setup) : Setup :=
  MkSetup (su_logLevel s) (upstreamHost s) (upstreamPort s) (su_serverId s) (serverHost s) (serverPort s) (su_peerKeypair s) d
    (su_maxConnections s) (serverAddr s) (upstreamAddr s) (serverName s) (upstreamName s).
Definition set_max (n : Z) (s : Setup) : Setup :=
  MkSetup (su_logLevel s) (upstreamHost s) (upstreamPort s) (su_serverId s) (serverHost s) (serverPort s) (su_peerKeypair s) (su_domainName s)
    n (serverAddr s) (upstreamAddr s) (serverName s) (upstreamName s).
Definition set_addrs (a b : SocketAddress) (s : Setup) : Setup :=
  MkSetup (su_logLevel s) (upstreamHost s) (upstreamPort s) (su_serverId s) (serverHost s) (serverPort s) (su_peerKeypair s) (su_domainName s)
    (su_maxConnections s) a b (serverName s) (upstreamName s).

(** The names are appended to. *)
Definition append_names (s : Setup) : Setup :=
  MkSetup (su_logLevel s) (upstreamHost s) (upstreamPort s) (su_serverId s) (serverHost s) (serverPort s) (su_peerKeypair s) (su_domainName s)
    (su_maxConnections s) (serverAddr s) (upstreamAddr s)
    (serverName s ++ serverHost s ++ 58 :: to_string (serverPort s)) (upstreamName s ++ upstreamHost s ++ 58 :: to_string (upstreamPort s)).

Section initialize.
Context {netdb : NetDb} {sodium : Sodium} {sodiumHex : SodiumHex} {finder : Finder}.
Variable configure : list (string * Any).

Definition item (k : string) : option Any := Anys.any_find k configure.

(** [if (configure.count(k)) ...] *)
Definition when_item (k : string) (f : Any -> M unit) : M unit := match item k with Some a => f a | None => skip end.

Definition Id_of_text (t : list Z) : result Id :=
  match IdText.Id_of_string t with None => Throw Undefined_behaviour | Some r => r end.

(** The loop over the peers.  It ends with the first peer: when its node is found the
    host is set and the loop left, otherwise the function. *)
Definition find_server (peers : list PeerInfo) : M bool :=
  match peers with
  | [] => sm_ret false
  | peer :: _ =>
      sm_modify (fun s => set_server (p_nodeId peer) (serverHost s) (p_port peer) s);~
      nodes <~ sm_lift (find_node (p_nodeId peer));
      match nodes with
      | [] => sm_lift (Throw Invalid_argument)
      | n :: _ =>
          sm_modify (fun s => set_server (su_serverId s) (AddressText.host (sockaddr n)) (serverPort s) s);~
          sm_ret true
      end
  end.

Definition server_by_peer (a : Any) : M unit :=
  id <~ sm_lift (Anys.cast_string a);
  peerId <~ sm_lift (Id_of_text id);
  peers <~ sm_lift (find_peer peerId 8);
  if bool_decide (peers = []) then sm_lift (Throw Invalid_argument)
  else found <~ find_server peers; if found : bool then skip else sm_lift (Throw Invalid_argument).

Definition server_by_address (id host port : Any) : M unit :=
  id <~ sm_lift (Anys.cast_string id);
  id <~ sm_lift (Id_of_text id);
  sm_modify (fun s => set_server id (serverHost s) (serverPort s) s);~
  host <~ sm_lift (Anys.cast_string host);
  sm_modify (fun s => set_server (su_serverId s) host (serverPort s) s);~
  port <~ sm_lift (Anys.cast_int64 port);
  sm_modify (fun s => set_server (su_serverId s) (serverHost s) (u16 port) s).

Definition set_peer_key (a : Any) : M unit :=
  sk <~ sm_lift (Anys.cast_string a);
  sk <~ sm_lift (match Hex.decode sk with None => Throw Undefined_behaviour | Some r => r end);
  k <~ sm_lift (Signature.KeyPair_blob sk);
  sm_modify (set_keypair k).

(** [addrs[0]] *)
Definition first_address (host : list Z) (port : Z) : M SocketAddress :=
  addrs <~ sm_lift (AddressText.resolve_port host port);
  match addrs with a :: _ => sm_ret a | [] => sm_lift (Throw Undefined_behaviour) end.

(** [initialize], up to the call of [start]. *)
Definition configure_proxy : M unit :=
  when_item "logLevel" (fun a => l <~ sm_lift (Anys.cast_string a); sm_modify (set_logLevel l));~
  match item "upstreamHost", item "upstreamPort" with
  | Some host, Some port =>
      host <~ sm_lift (Anys.cast_string host);
      sm_modify (fun s => set_upstream host (upstreamPort s) s);~
      port <~ sm_lift (Anys.cast_int64 port);
      sm_modify (fun s => set_upstream (upstreamHost s) (u16 port) s);~
      if bool_decide (host = []) || (u16 port =? 0) then sm_lift (Throw Invalid_argument) else skip
  | _, _ => sm_lift (Throw Invalid_argument)
  end;~
  match item "serverPeerId", item "serverId", item "serverHost", item "serverPort" with
  | Some a, _, _, _ => server_by_peer a
  | None, Some id, Some host, Some port => server_by_address id host port
  | _, _, _, _ => sm_lift (Throw Invalid_argument)
  end;~
  (fun s => if bool_decide (serverHost s = []) || (serverPort s =? 0) then (Throw Runtime_error, s) else (Ok (), s));~
  when_item "peerPrivateKey" set_peer_key;~
  when_item "domainName" (fun a => d <~ sm_lift (Anys.cast_string a); sm_modify (set_domain d));~
  when_item "maxConnections" (fun a => n <~ sm_lift (Anys.cast_int64 a); sm_modify (set_max (u32 n)));~
  (fun s => (a <~ first_address (serverHost s) (serverPort s);
             sm_modify (fun s => set_addrs a (upstreamAddr s) s)) s);~
  (fun s => (a <~ first_address (upstreamHost s) (upstreamPort s);
             sm_modify (fun s => set_addrs (serverAddr s) a s)) s);~
  sm_modify append_names.

(** ** What a configured proxy has *)

(** The members that a step of [initialize] leaves alone. *)
Definition upstream_ok (s : Setup) : Prop := upstreamHost s <> [] /\ 0 < upstreamPort s < 65536.
Definition server_ok (s : Setup) : Prop := serverHost s <> [] /\ serverPort s <> 0.

Definition resolved (host : list Z) (port : Z) (a : SocketAddress) : Prop :=
  exists l, AddressText.resolve_port host port = Ok (a :: l).

(** A computation that keeps a property of the members it does not touch. *)
Ltac keep_tac :=
  repeat match goal with
  | |- forall _, _ => intros ?
  | |- sm_post _ (sm_bind _ _) _ => apply sm_keep_bind
  | |- sm_post _ (sm_ret _) _ => by apply sm_post_ret
  | |- sm_post _ (sm_lift _) _ => by apply sm_post_lift
  | |- sm_post _ (sm_modify _) _ => by apply sm_post_modify
  | |- sm_post _ (if ?b then _ else _) _ => destruct b
  | |- sm_post _ (match ?x with _ => _ end) _ => destruct x
  end.

Lemma when_item_post (P : Setup -> Prop) k f : (forall a, sm_post P (f a) (fun _ => P)) -> sm_post P (when_item k f) (fun _ => P).
Proof. intros H. unfold when_item. destruct (item k); [apply H|by apply sm_post_ret]. Qed.

Lemma cast_post {A} (P : Setup -> Prop) (r : result A) (f : A -> Setup -> Setup) :
  (forall a s, P s -> P (f a s)) -> sm_post P (a <~ sm_lift r; sm_modify (f a)) (fun _ => P).
Proof. intros H. keep_tac. apply sm_post_modify, H. Qed.

Lemma find_server_post peers : sm_post upstream_ok (find_server peers) (fun _ => upstream_ok).
Proof. destruct peers as [|peer peers]; simpl; keep_tac. Qed.

Lemma server_post :
  sm_post upstream_ok
    (match item "serverPeerId", item "serverId", item "serverHost", item "serverPort" with
     | Some a, _, _, _ => server_by_peer a
     | None, Some id, Some host, Some port => server_by_address id host port
     | _, _, _, _ => sm_lift (Throw Invalid_argument)
     end) (fun _ => upstream_ok).
Proof. keep_tac; unfold server_by_peer, server_by_address; keep_tac; apply find_server_post. Qed.

Lemma first_address_post (P : Setup -> Prop) host port :
  sm_post P (first_address host port) (fun a s => P s /\ resolved host port a).
Proof.
  unfold first_address. intros s Hs. unfold sm_bind, sm_lift. destruct (AddressText.resolve_port host port) as [[|a l]|] eqn:E; [done| |done].
  split; [done|]. by exists l.
Qed.

Lemma set_peer_key_post (P : Setup -> Prop) a : (forall k s, P s -> P (set_keypair k s)) -> sm_post P (set_peer_key a) (fun _ => P).
Proof.
  intros H. unfold set_peer_key. keep_tac. apply sm_post_modify, H.
Qed.

(** ** Theorems *)

(** C22: Whatever the configuration is, a proxy that was configured has a service and a server
    with a host and a port, both with an address the resolver gave for them. *)
Theorem configured_proxy s s' :
  configure_proxy s = (Ok (), s') ->
  upstreamHost s' <> [] /\ 0 < upstreamPort s' < 65536 /\ serverHost s' <> [] /\ serverPort s' <> 0 /\
  resolved (serverHost s') (serverPort s') (serverAddr s') /\ resolved (upstreamHost s') (upstreamPort s') (upstreamAddr s').
Proof.
  assert (sm_post (fun _ => True) configure_proxy (fun _ s => (upstream_ok s /\ server_ok s) /\
    resolved (serverHost s) (serverPort s) (serverAddr s) /\ resolved (upstreamHost s) (upstreamPort s) (upstreamAddr s))) as H.
  { unfold configure_proxy.
    eapply (sm_post_bind _ _ (fun _ _ => True)); [by apply (when_item_post (fun _ => True)); intros ?; apply cast_post|]. intros []. simpl.
    eapply (sm_post_bind _ _ (fun _ => upstream_ok)).
    { destruct (item "upstreamHost") as [h|]; [|by apply sm_post_lift]. destruct (item "upstreamPort") as [p|]; [|by apply sm_post_lift].
      eapply (sm_post_bind _ _ (fun _ _ => True)); [by apply sm_post_lift|]. intros host. simpl.
      eapply (sm_post_bind _ _ (fun _ s => upstreamHost s = host)); [by apply sm_post_modify|]. intros []. simpl.
      eapply (sm_post_bind _ _ (fun _ s => upstreamHost s = host)); [by apply sm_post_lift|]. intros port. simpl.
      eapply (sm_post_bind _ _ (fun _ s => upstreamHost s = host /\ upstreamPort s = u16 port)); [by apply sm_post_modify|]. intros []. simpl.
      case_bool_decide; simpl; [by apply sm_post_lift|]. destruct (Z.eqb_spec (u16 port) 0); [by apply sm_post_lift|].
      apply sm_post_ret. intros s0 [E1 E2]. unfold upstream_ok. rewrite E1, E2. pose proof (wrap_bound 16 port). unfold u16 in *. split; [done|lia]. }
    intros []. eapply sm_post_bind; [apply server_post|]. intros []. simpl.
    eapply (sm_post_bind _ _ (fun _ s => upstream_ok s /\ server_ok s)).
    { intros s0 Hs. simpl. case_bool_decide; simpl; [done|]. by destruct (Z.eqb_spec (serverPort s0) 0). }
    intros []. eapply sm_post_bind; [apply when_item_post; intros ?; by apply set_peer_key_post|]. intros [].
    eapply sm_post_bind; [apply when_item_post; intros ?; by apply cast_post|]. intros [].
    eapply sm_post_bind; [apply when_item_post; intros ?; by apply cast_post|]. intros []. simpl.
    eapply (sm_post_bind _ _ (fun _ s => (upstream_ok s /\ server_ok s) /\ resolved (serverHost s) (serverPort s) (serverAddr s))).
    { intros s0 Hs. pose proof (first_address_post (fun s => s = s0) (serverHost s0) (serverPort s0) s0 eq_refl) as F. simpl. unfold sm_bind.
      destruct (first_address _ _ s0) as [[a|] s1]; [|done]. by destruct F as [-> F]. }
    intros []. eapply (sm_post_bind _ _ (fun _ s => (upstream_ok s /\ server_ok s) /\ resolved (serverHost s) (serverPort s) (serverAddr s) /\
      resolved (upstreamHost s) (upstreamPort s) (upstreamAddr s))).
    { intros s0 [Hs Hr]. pose proof (first_address_post (fun s => s = s0) (upstreamHost s0) (upstreamPort s0) s0 eq_refl) as F. simpl. unfold sm_bind.
      destruct (first_address _ _ s0) as [[a|] s1]; [|done]. by destruct F as [-> F]. }
    intros []. by apply sm_post_modify. }
  intros E. specialize (H s I). rewrite E in H. destruct H as [[[H1 H2] [H3 H4]] [H5 H6]]. done.
Qed.

(** Only the first peer that was found is tried: when its node is not found the proxy is
    not configured, whatever the other peers are. *)
Theorem first_peer_only a t id peer peers s :
  item "serverPeerId" = Some a -> Anys.cast_string a = Ok t -> Id_of_text t = Ok id ->
  find_peer id 8 = Ok (peer :: peers) -> find_node (p_nodeId peer) = Ok [] -> exists e s', configure_proxy s = (Throw e, s').
Proof.
  intros Ha Ht Hi Hp Hn. unfold configure_proxy. do 2 (apply sm_bind_throws; intros ? ?).
  unfold sm_bind at 1. rewrite Ha. unfold server_by_peer, sm_bind at 1 2 3, sm_lift. rewrite Ht, Hi, Hp. simpl.
  unfold sm_bind, sm_modify, sm_lift. rewrite Hn. by eexists _, _.
Qed.

End initialize.

(** A proxy whose configuration came from the configuration file as JSON is configured
    with the service it names and with the node of the first peer that was found. *)
Theorem addon_configured `{NetDb, Sodium, SodiumHex, Finder} (l : list (string * json)) h p t id d n peer peers node nodes a as_ u us :
  json_find "upstreamHost" l = Some (JString h) -> h <> [] -> json_find "upstreamPort" l = Some (JNumber p) -> 0 < p < 65536 ->
  json_find "serverPeerId" l = Some (JString t) -> Id_of_text t = Ok id ->
  json_find "logLevel" l = None -> json_find "peerPrivateKey" l = None ->
  json_find "domainName" l = JString <$> d -> json_find "maxConnections" l = JNumber <$> n -> (forall m, n = Some m -> 0 <= m < 2 ^ 32) ->
  find_peer id 8 = Ok (peer :: peers) -> find_node (p_nodeId peer) = Ok (node :: nodes) -> p_port peer <> 0 ->
  let host := AddressText.host (sockaddr node) in
  AddressText.resolve_port host (p_port peer) = Ok (a :: as_) -> AddressText.resolve_port h p = Ok (u :: us) ->
  exists conf, Anys.cast_map (Anys.jsonToAny (JObject l)) = Ok conf /\
    configure_proxy conf Setup_new = (Ok (), MkSetup [] h p (p_nodeId peer) host (p_port peer) None (default [] d) (default 16 n) a u
      (host ++ 58 :: to_string (p_port peer)) (h ++ 58 :: to_string p)).
Proof.
  intros Eh Hh Ep Hp Et Hi El Ek Ed Em Hm Hfp Hfn Hpp host Ra Ru. eexists. split; [reflexivity|].
  assert (forall k, item ((fun kv => (kv.1, Anys.jsonToAny kv.2)) <$> l) k = Anys.jsonToAny <$> json_find k l) as Hf by (intros k; apply Anys.any_find_json).
  assert (u16 (i64 p) = p) as Hu by (rewrite swrap_small by lia; apply wrap_small; lia).
  assert (host <> []) as Hho.
  { unfold host, AddressText.host. destruct (sa_empty _); [done|]. unfold AddressText.inet_ntop. destruct (_ <? _)%nat; [apply ntop_nonempty|done]. }
  unfold configure_proxy, when_item. rewrite !Hf, El, Eh, Ep, Et, Ek, Ed, Em. simpl.
  unfold sm_bind at 1. simpl. unfold sm_bind at 1 2 3 4 5. simpl. rewrite Hu, (bool_decide_eq_false_2 _ Hh), (proj2 (Z.eqb_neq p 0)) by lia. simpl.
  unfold sm_bind at 1. unfold server_by_peer, sm_bind at 1 2 3, sm_lift. simpl. rewrite Hi, Hfp. simpl.
  unfold sm_bind, sm_modify, sm_lift, sm_ret. simpl. rewrite Hfn. simpl. fold host.
  rewrite (bool_decide_eq_false_2 _ Hho), (proj2 (Z.eqb_neq (p_port peer) 0)) by done. simpl.
  assert (forall m, n = Some m -> u32 (i64 m) = m) as Hn.
  { intros m E. specialize (Hm m E). rewrite swrap_small by lia. apply wrap_small; lia. }
  destruct d as [d|], n as [n|]; simpl; unfold first_address, sm_bind, sm_lift, sm_ret; simpl; rewrite Ra; simpl; rewrite Ru; unfold append_names; simpl; rewrite ?(Hn _ eq_refl); done.
Qed.

(** ** The event loop *)

Inductive UvHandle := H_stop | H_prepare | H_timer.

#[export] Instance UvHandle_eq_dec : EqDecision UvHandle.
Proof. solve_decision. Defined.

(** What [start] does with libuv, in order. *)
Inductive UvStep := U_loop_init | U_init (h : UvHandle) | U_started (h : UvHandle) | U_stop (h : UvHandle) | U_close (h : UvHandle) | U_loop_close.

(** The results of [uv_loop_init], [uv_async_init], [uv_prepare_start] and [uv_timer_start]. *)
Record UvResults := MkResults { rc_loop : Z; rc_async : Z; rc_prepare : Z; rc_timer : Z }.

Definition uv_start (rc : UvResults) : result unit * list UvStep :=
  if rc_loop rc <? 0 then (Throw Runtime_error, [])
  else if rc_async rc <? 0 then (Throw Runtime_error, [U_loop_init; U_loop_close])
  else if rc_prepare rc <? 0 then
    (Throw Runtime_error, [U_loop_init; U_init H_stop; U_init H_prepare; U_close H_prepare; U_close H_stop; U_loop_close])
  else if rc_timer rc <? 0 then
    (Throw Runtime_error, [U_loop_init; U_init H_stop; U_init H_prepare; U_started H_prepare; U_init H_timer;
       U_stop H_prepare; U_close H_prepare; U_close H_stop; U_loop_close])
  else (Ok (), [U_loop_init; U_init H_stop; U_init H_prepare; U_started H_prepare; U_init H_timer; U_started H_timer]).

(** ** The thread *)

(** How far the thread has come: it does not exist, exists, runs the loop, has ended;
    or the object that stands for it was given up while it could be joined, which ends
    the process. *)
Inductive Runner := R_none | R_created | R_looping | R_ended | R_terminated.

#[export] Instance Runner_eq_dec : EqDecision Runner.
Proof. solve_decision. Defined.

Record Control := MkControl {
  ct_runner : Runner;
  ct_joined : bool;
  ct_running : bool;
  ct_stop_sent : bool;          (* [uv_async_send(&stopHandle)] *)
  ct_stopped : bool             (* [stopPromise] has its value *)
}.

Definition Control_new : Control := MkControl R_none true false false false.

(** [start]: assigning to a thread that can be joined ends the process. *)
Definition start (rc : UvResults) (c : Control) : result unit * Control :=
  match fst (uv_start rc) with
  | Throw e => (Throw e, c)
  | Ok _ => (Ok (), MkControl (if ct_joined c then R_created else R_terminated) false (ct_running c) false (ct_stopped c))
  end.

(** [deinitialize] with [stop].  [stop] waits for the thread when it was told to stop. *)
Definition deinitialize (c : Control) : Control :=
  if ct_running c then MkControl (ct_runner c) (ct_joined c) (ct_running c) true false
  else MkControl (ct_runner c) (ct_joined c) (ct_running c) (ct_stop_sent c) true.

(** The steps of the thread: it begins, handles the message to stop ([onStop] and the
    end of the loop), and is joined by [stop]. *)
Inductive step : Control -> Control -> Prop :=
  | step_begin c : ct_runner c = R_created ->
      step c (MkControl R_looping (ct_joined c) true (ct_stop_sent c) (ct_stopped c))
  | step_stop c : ct_runner c = R_looping -> ct_stop_sent c = true ->
      step c (MkControl R_ended (ct_joined c) false (ct_stop_sent c) true)
  | step_join c : ct_runner c = R_ended -> ct_stop_sent c = true ->
      step c (MkControl R_ended true (ct_running c) (ct_stop_sent c) (ct_stopped c)).

(** ** Theorems on stopping *)

(** A stop that is told to a running proxy: the thread ends and is joined. *)
Definition stopping (c : Control) : Prop :=
  ct_stop_sent c = true /\ (ct_runner c = R_looping \/ ct_runner c = R_ended /\ ct_stopped c = true /\ ct_running c = false).

Lemma stopping_step c c' : stopping c -> step c c' -> stopping c'.
Proof. intros [H1 H2] S. destruct S as [c E|c E _|c E _]; split; simpl; try done; [by destruct H2 as [|[]]; congruence|by right|]. right. destruct H2 as [|(? & ? & ?)]; [congruence|done]. Qed.

Lemma stopping_ends c : stopping c -> exists c', rtc step c c' /\ ct_runner c' = R_ended /\ ct_joined c' = true /\ ct_stopped c' = true /\ ct_running c' = false.
Proof.
  intros [H1 [H2|(H2 & H3 & H4)]].
  - eexists. split; [eapply rtc_l; [by apply step_stop|]; eapply rtc_l; [by apply step_join|]; apply rtc_refl|]. done.
  - eexists. split; [eapply rtc_l; [by apply step_join|]; apply rtc_refl|]. done.
Qed.

(** A proxy that was told nothing: its thread runs on. *)
Definition unstopped (c : Control) : Prop :=
  ct_stop_sent c = false /\ ct_joined c = false /\ (ct_runner c = R_created \/ ct_runner c = R_looping).

Lemma unstopped_step c c' : unstopped c -> step c c' -> unstopped c'.
Proof. intros (H1 & H2 & H3) S. destruct S; simpl in *; try congruence. by split; [|split; [|right]]. Qed.

(** Stopping a proxy whose thread runs ends the thread: from every state that follows it
    goes on to one where the thread has ended and was joined and the promise is set. *)
Theorem proxy_stops c :
  ct_runner c = R_looping -> ct_running c = true -> forall c', rtc step (deinitialize c) c' ->
  exists c'', rtc step c' c'' /\ ct_runner c'' = R_ended /\ ct_joined c'' = true /\ ct_stopped c'' = true /\ ct_running c'' = false.
Proof.
  intros E1 E2 c' H. apply stopping_ends. assert (stopping (deinitialize c)) as Hs by (unfold deinitialize; rewrite E2; split; [done|by left]).
  clear E1 E2. induction H as [c0|c0 c1 c2 S _ IH]; [done|]. apply IH. by eapply stopping_step.
Qed.

(** Stopping a proxy whose thread has not yet begun says that it has stopped, but the
    thread begins all the same, never ends, and starting the proxy again ends the process. *)
Theorem early_stop_is_lost rc c :
  fst (uv_start rc) = Ok () -> ct_joined c = true -> ct_running c = false ->
  let c1 := deinitialize (snd (start rc c)) in
  ct_stopped c1 = true /\
  forall c', rtc step c1 c' -> (ct_runner c' = R_created \/ ct_runner c' = R_looping) /\ ct_joined c' = false /\
    ct_runner (snd (start rc c')) = R_terminated.
Proof.
  intros Hrc Hj Hr c1. assert (c1 = MkControl R_created false false false true) as E1.
  { unfold c1, start, deinitialize. destruct (uv_start rc) as [[[]|e] l]; [|done]. simpl. by rewrite Hj, Hr. }
  split; [by rewrite E1|]. intros c' H. assert (unstopped c1) as Hu by (rewrite E1; split; [done|split; [done|by left]]).
  assert (unstopped c') as (H1 & H2 & H3).
  { clear E1. induction H as [c0|c0 c2 c3 S _ IH]; [done|]. apply IH. by eapply unstopped_step. }
  split; [done|]. split; [done|]. unfold start. destruct (uv_start rc) as [[[]|e] l]; [|done]. simpl. by rewrite H2.
Qed.

End ProxyStart.

(** ** Witnesses *)

Section examples.
#[local] Existing Instances toy_netdb toy_sodium hex toy_json.

Definition peer_id1 : Id := id_of_val 77.
Definition peer1 : PeerInfo := MkPeer MAX_ID None peer_id1 peer_id1 39005 None [].
Definition peer2 : PeerInfo := MkPeer MAX_ID None MAX_ID MAX_ID 39006 None [].
Definition node1 : NodeInfo := MkNodeInfo peer_id1 address1 0.

#[local] Instance toy_finder (nodes : list NodeInfo) : Finder := {
  find_peer _ _ := Ok [peer1; peer2];
  find_node id := Ok (if bool_decide (id = peer_id1) then nodes else [node1])
}.

(** The text of an id in the examples. *)
Definition id_text : list Z := chars "0x" ++ replicate 64 49.

Definition addon1 : list (string * json) :=
  [("maxConnections", JNumber 4); ("serverPeerId", JString id_text); ("upstreamHost", JString [AF_INET; 127; 0; 0; 1]); ("upstreamPort", JNumber 8080)]%string.

Lemma addon_configured_witness :
  let _ := toy_netdb [] in let _ := toy_finder [node1] in
  exists conf s, Anys.cast_map (Anys.jsonToAny (JObject addon1)) = Ok conf /\ ProxyStart.configure_proxy conf ProxyStart.Setup_new = (Ok (), s) /\
    serverAddr s = SA_in 39005 [192; 168; 8; 10] /\ upstreamAddr s = SA_in 8080 [127; 0; 0; 1] /\ su_maxConnections s = 4.
Proof.
  intros db fi.
  assert (ProxyStart.Id_of_text id_text = Ok (mk_id (replicate 32 17))) as Hi by (vm_compute; reflexivity).
  destruct (ProxyStart.addon_configured addon1 [AF_INET; 127; 0; 0; 1] 8080 id_text (mk_id (replicate 32 17)) None (Some 4) peer1 [peer2] node1 []
    (SA_in 39005 [192; 168; 8; 10]) [] (SA_in 8080 [127; 0; 0; 1]) []) as (conf & H1 & H2);
    [reflexivity|discriminate|reflexivity|lia|reflexivity|exact Hi|reflexivity|reflexivity|reflexivity|reflexivity|intros m [= <-]; lia|
     reflexivity| |discriminate|vm_compute; reflexivity|vm_compute; reflexivity|].
  - unfold find_node, fi, toy_finder. by rewrite bool_decide_eq_true_2.
  - exists conf. eexists. split; [exact H1|]. split; [exact H2|]. cbn [serverAddr upstreamAddr su_maxConnections]. repeat split.
Defined.

Lemma configured_proxy_witness :
  let _ := toy_netdb [] in let _ := toy_finder [node1] in
  exists s, ProxyStart.configure_proxy [("serverPeerId", A_string id_text); ("upstreamHost", A_string [AF_INET; 127; 0; 0; 1]); ("upstreamPort", A_int64 65537)]%string
    ProxyStart.Setup_new = (Ok (), s) /\ 0 < upstreamPort s < 65536.
Proof.
  intros db fi. destruct (ProxyStart.configure_proxy _ ProxyStart.Setup_new) as [r s] eqn:E.
  assert (r = Ok ()) as -> by (apply (f_equal fst) in E; vm_compute in E; exact (eq_sym E)).
  exists s. split; [reflexivity|]. exact (proj1 (proj2 (ProxyStart.configured_proxy _ ProxyStart.Setup_new s E))).
Defined.

Lemma first_peer_only_witness :
  let _ := toy_netdb [] in let _ := toy_finder [] in
  exists e s, ProxyStart.configure_proxy [("serverPeerId", A_string id_text)]%string ProxyStart.Setup_new = (Throw e, s).
Proof.
  intros db fi. apply (ProxyStart.first_peer_only _ (A_string id_text) id_text (mk_id (replicate 32 17)) peer1 [peer2]).
  - reflexivity.
  - reflexivity.
  - vm_compute. reflexivity.
  - reflexivity.
  - unfold find_node, fi, toy_finder. by rewrite bool_decide_eq_true_2.
Defined.

Definition looping : ProxyStart.Control := ProxyStart.MkControl ProxyStart.R_looping false true false false.

Lemma proxy_stops_witness :
  exists c, rtc ProxyStart.step (ProxyStart.deinitialize looping) c /\ ProxyStart.ct_joined c = true.
Proof.
  destruct (ProxyStart.proxy_stops looping eq_refl eq_refl _ (rtc_refl _ _)) as (c & H1 & _ & H2 & _). exists c. split; [exact H1|exact H2].
Defined.

Lemma early_stop_is_lost_witness :
  let rc := ProxyStart.MkResults 0 0 0 0 in
  let c := ProxyStart.deinitialize (snd (ProxyStart.start rc ProxyStart.Control_new)) in
  ProxyStart.ct_stopped c = true /\ ProxyStart.ct_runner (snd (ProxyStart.start rc c)) = ProxyStart.R_terminated.
Proof.
  intros rc c. destruct (ProxyStart.early_stop_is_lost rc ProxyStart.Control_new eq_refl eq_refl eq_refl) as [H1 H2].
  split; [exact H1|]. exact (proj2 (proj2 (H2 c (rtc_refl _ _)))).
Defined.

End examples.
