(* ===== verification/Nodes.v ===== *)
(** * The node: [Node] of [include/carrier/node.h] and [src/core/node.cc]

    The node starts and stops the DHTs of the two address families and offers their
    operations as futures.  An operation asks each DHT and gives it a handler; the
    handlers share a counter, the results so far and the promise.  These shared
    objects are the record [Operation], kept in a table by number, since a handler
    runs long after the call that made it.

    A DHT is what the operations read of it, its routing table; the tasks it starts
    are the list of effects ([DhtOp]), and the calls of the handlers are events
    ([Completion]).  [None] for the storage or a DHT is a null pointer.  Opening the
    sockets and the storage may fail: the results are arguments of [start].  The
    keys of the node are in [Crypto], its files in [Persistence]. *)

From S2P Require Import Prelude Constants Ids Entries KBuckets RoutingTables KClosest Candidates Values Lookups Storage Dht.

Inductive NodeStatus := Stopped | Initializing | Running.

#[export] Instance NodeStatus_eq_dec : EqDecision NodeStatus.
Proof. solve_decision. Defined.

(** What the handlers of one call share.  A promise that was set has its value. *)
Inductive Operation :=
  | Op_nodes (opt : LookupOption) (completion : Z) (results : list NodeInfo) (promise : option (list NodeInfo))
  | Op_value (opt : LookupOption) (completion : Z) (valuePtr : option Value) (promise : option (option Value))
  | Op_void (completion : Z) (promise : option (result unit))
  | Op_peers (completion : Z) (dedup : gset PeerKey) (results : list PeerInfo) (promise : option (list PeerInfo)).

(** What is asked of a DHT. *)
Inductive DhtOp :=
  | Dht_findNode (id : Id)
  | Dht_findValue (id : Id) (opt : LookupOption)
  | Dht_storeValue (value : Value)
  | Dht_findPeer (id : Id) (expected : Z) (opt : LookupOption)
  | Dht_announcePeer (peer : PeerInfo)
  | Dht_bootstrap (ni : NodeInfo).

(** The call of a handler by a DHT, for the operation with the number. *)
Inductive Completion :=
  | C_node (op : Z) (ni : option NodeInfo)
  | C_value (op : Z) (v : option Value)
  | C_void (op : Z)
  | C_peers (op : Z) (ps : list PeerInfo).

Record Node := MkNode {
  n_id : Id;
  n_ipv4 : bool;                              (* the configuration has an IPv4 address *)
  n_ipv6 : bool;
  n_status : NodeStatus;
  n_dht4 : option RoutingTable;
  n_dht6 : option RoutingTable;
  numDHTs : Z;
  n_storage : option SqliteStorage;
  n_server : bool;
  n_statusLog : list (NodeStatus * NodeStatus);       (* the calls of the status listeners: new, old *)
  n_ops : gmap Z Operation;
  n_nextOp : Z;
  n_asked : list (DHT_Type * Z * DhtOp)       (* what the DHTs were asked, in order *)
}.

Module Node.

Section node.
Context {sodium : Sodium}.
Variable random_order : list (PeerKey * PeerRow) -> list (PeerKey * PeerRow).
Implicit Types (n : Node) (op : Z).

(** ** Definitions *)

Definition set_status (s : NodeStatus) n : Node :=
  MkNode (n_id n) (n_ipv4 n) (n_ipv6 n) s (n_dht4 n) (n_dht6 n) (numDHTs n) (n_storage n) (n_server n) ((s, n_status n) :: n_statusLog n)
    (n_ops n) (n_nextOp n) (n_asked n).
Definition set_dhts (d4 d6 : option RoutingTable) (num : Z) n : Node :=
  MkNode (n_id n) (n_ipv4 n) (n_ipv6 n) (n_status n) d4 d6 num (n_storage n) (n_server n) (n_statusLog n) (n_ops n) (n_nextOp n) (n_asked n).
Definition set_storage (st : option SqliteStorage) n : Node :=
  MkNode (n_id n) (n_ipv4 n) (n_ipv6 n) (n_status n) (n_dht4 n) (n_dht6 n) (numDHTs n) st (n_server n) (n_statusLog n) (n_ops n) (n_nextOp n) (n_asked n).
Definition set_server (b : bool) n : Node :=
  MkNode (n_id n) (n_ipv4 n) (n_ipv6 n) (n_status n) (n_dht4 n) (n_dht6 n) (numDHTs n) (n_storage n) b (n_statusLog n) (n_ops n) (n_nextOp n) (n_asked n).
Definition set_op op (o : Operation) n : Node :=
  MkNode (n_id n) (n_ipv4 n) (n_ipv6 n) (n_status n) (n_dht4 n) (n_dht6 n) (numDHTs n) (n_storage n) (n_server n) (n_statusLog n)
    (<[op := o]> (n_ops n)) (n_nextOp n) (n_asked n).

(** The new node, behind the loading of its key. *)
Definition Node_new (id : Id) (ipv4 ipv6 : bool) : result Node :=
  if negb ipv4 && negb ipv6 then Throw Invalid_argument
  else Ok (MkNode id ipv4 ipv6 Stopped None None 0 None false [] ∅ 0 []).

Definition setStatus (expected newStatus : NodeStatus) n : Node :=
  if bool_decide (n_status n = expected) then set_status newStatus n else n.

Definition isRunning n : bool := bool_decide (n_status n = Running).

(** The objects of a new operation, and what the DHTs are asked for it. *)
Definition new_op (o : Operation) n : Z * Node :=
  (n_nextOp n, MkNode (n_id n) (n_ipv4 n) (n_ipv6 n) (n_status n) (n_dht4 n) (n_dht6 n) (numDHTs n) (n_storage n) (n_server n) (n_statusLog n)
    (<[n_nextOp n := o]> (n_ops n)) (n_nextOp n + 1) (n_asked n)).

Definition ask_dht (t : DHT_Type) (d : option RoutingTable) op (q : DhtOp) n : Node :=
  match d with
  | None => n
  | Some _ => MkNode (n_id n) (n_ipv4 n) (n_ipv6 n) (n_status n) (n_dht4 n) (n_dht6 n) (numDHTs n) (n_storage n) (n_server n) (n_statusLog n)
      (n_ops n) (n_nextOp n) (n_asked n ++ [(t, op, q)])
  end.

Definition ask op (q : DhtOp) n : Node := ask_dht DHT_IPV6 (n_dht6 n) op q (ask_dht DHT_IPV4 (n_dht4 n) op q n).

Definition bootstrap (ni : NodeInfo) n : Node :=
  if bool_decide (nodeId ni = n_id n) then n else ask (-1) (Dht_bootstrap ni) n.

Definition present (d : option RoutingTable) : Z := match d with Some _ => 1 | None => 0 end.

(** The tables are what [DHT::start] has loaded; [bound] is the result of the
    constructor of the server, [opened] that of [SqliteStorage::open]. *)
Definition start (table4 table6 : RoutingTable) (bound : result unit) (opened : result SqliteStorage) n : result unit * Node :=
  if negb (bool_decide (n_status n = Stopped)) then (Ok (), n) else
  let n := setStatus Stopped Initializing n in
  let d4 := if n_ipv4 n then Some table4 else n_dht4 n in
  let d6 := if n_ipv6 n then Some table6 else n_dht6 n in
  let n := set_dhts d4 d6 (numDHTs n) n in
  let n := setStatus Initializing Running n in
  match bound with
  | Throw e => (Throw e, n)
  | Ok _ =>
      let n := set_server true n in
      match opened with
      | Throw e => (Throw e, n)
      | Ok st =>
          let n := set_storage (Some st) n in
          let num := numDHTs n + present (n_dht4 n) + present (n_dht6 n) in
          (Ok (), set_dhts (n_dht4 n) (n_dht6 n) num n)
      end
  end.

(** ** The handlers *)

Definition handle_node op (ni : option NodeInfo) n : outcome Node :=
  match n_ops n !! op with
  | Some (Op_nodes opt completion results promise) =>
      let completion := completion + 1 in
      let results := results ++ option_list ni in
      if (bool_decide (opt = OPTIMISTIC) && negb (bool_decide (results = []))) || (numDHTs n <=? completion) then
        match promise with
        | Some _ => Thrown Future_error
        | None => Done (set_op op (Op_nodes opt completion [] (Some results)) n)
        end
      else Done (set_op op (Op_nodes opt completion results promise) n)
  | _ => NullDereference
  end.

(** The newer value, as the handler of [findValue] keeps it. *)
Definition newer_value (old new : option Value) : option Value :=
  match new with
  | None => old
  | Some v =>
      match old with
      | None => Some v
      | Some o => if negb (Value.isMutable v) || (sequenceNumber o <? sequenceNumber v) then Some v else Some o
      end
  end.

Definition handle_value (now : Z) op (value : option Value) n : outcome Node :=
  match n_ops n !! op with
  | Some (Op_value opt completion valuePtr promise) =>
      let completion := completion + 1 in
      let valuePtr := newer_value valuePtr value in
      if (bool_decide (opt = OPTIMISTIC) && bool_decide (is_Some value)) || (numDHTs n <=? completion) then
        let stored := match valuePtr, n_storage n with
          | None, _ => Some n
          | Some v, Some st => Some (set_storage (Some (snd (SqliteStorage.putValue now v (-1) false false st))) n)
          | Some _, None => None
          end in
        match stored with
        | None => NullDereference
        | Some n =>
            match promise with
            | Some _ => Thrown Future_error
            | None => Done (set_op op (Op_value opt completion valuePtr (Some valuePtr)) n)
            end
        end
      else Done (set_op op (Op_value opt completion valuePtr promise) n)
  | _ => NullDereference
  end.

Definition handle_void op n : outcome Node :=
  match n_ops n !! op with
  | Some (Op_void completion promise) =>
      let completion := completion + 1 in
      if numDHTs n <=? completion then
        match promise with
        | Some _ => Thrown Future_error
        | None => Done (set_op op (Op_void completion (Some (Ok ()))) n)
        end
      else Done (set_op op (Op_void completion promise) n)
  | _ => NullDereference
  end.

(** [std::set::insert] of each peer, and the peers that were new. *)
Fixpoint dedup_peers (ps : list PeerInfo) (dedup : gset PeerKey) (results : list PeerInfo) : gset PeerKey * list PeerInfo :=
  match ps with
  | [] => (dedup, results)
  | p :: ps =>
      if bool_decide (SqliteStorage.peer_key p ∈ dedup) then dedup_peers ps dedup results
      else dedup_peers ps ({[SqliteStorage.peer_key p]} ∪ dedup) (results ++ [p])
  end.

Definition handle_peers (now : Z) op (ps : list PeerInfo) n : outcome Node :=
  match n_ops n !! op with
  | Some (Op_peers completion dedup results promise) =>
      let completion := completion + 1 in
      let '(dedup, results) := dedup_peers ps dedup results in
      match n_storage n with
      | None => NullDereference
      | Some st =>
          let n := set_storage (Some (SqliteStorage.putPeers now results st)) n in
          if numDHTs n <=? completion then
            match promise with
            | Some _ => Thrown Future_error
            | None => Done (set_op op (Op_peers completion dedup [] (Some results)) n)
            end
          else Done (set_op op (Op_peers completion dedup results promise) n)
      end
  | _ => NullDereference
  end.

Definition complete (now : Z) (c : Completion) n : outcome Node :=
  match c with
  | C_node op ni => handle_node op ni n
  | C_value op v => handle_value now op v n
  | C_void op => handle_void op n
  | C_peers op ps => handle_peers now op ps n
  end.

Fixpoint complete_all (now : Z) (cs : list Completion) n : outcome Node :=
  match cs with [] => Done n | c :: cs => outcome_bind (complete now c n) (complete_all now cs) end.

(** [stop]; the DHTs cancel their tasks, which call the handlers [cs4] and [cs6]. *)
Definition stop (now : Z) (cs4 cs6 : list Completion) n : outcome Node :=
  if bool_decide (n_status n = Stopped) then Done n else
  let n := set_server false n in
  outcome_bind (if n_dht4 n is Some _ then complete_all now cs4 n else Done n) (fun n =>
  let n := set_dhts None (n_dht6 n) (numDHTs n) n in
  outcome_bind (if n_dht6 n is Some _ then complete_all now cs6 n else Done n) (fun n =>
  let n := set_dhts (n_dht4 n) None (numDHTs n) n in
  Done (setStatus Running Stopped (set_storage None n)))).

(** ** The operations: the number of the operation stands for the future *)

Definition checked {A} (b : bool) (e : error) (k : outcome A) : outcome A := if b then k else Thrown e.

Definition with_storage {A} n (f : SqliteStorage -> outcome A) : outcome A :=
  match n_storage n with Some st => f st | None => NullDereference end.

(** [DHT::getNode] of the DHTs that are there. *)
Definition local_node (d : option RoutingTable) (id : Id) : option (list NodeInfo) :=
  match d with
  | None => Some []
  | Some rt => match RoutingTable.getEntry rt id with
      | Some (Some e) => Some [node (obj e)]
      | Some None => Some []
      | None => None
      end
  end.

Definition findNode (id : Id) (opt : LookupOption) n : outcome (Z * Node) :=
  checked (isRunning n) Illegal_state (
  checked (negb (bool_decide (id = MIN_ID))) Invalid_argument (
  let search := let '(op, n) := new_op (Op_nodes opt 0 [] None) n in Done (op, ask op (Dht_findNode id) n) in
  if bool_decide (opt = ARBITRARY) then
    match local_node (n_dht4 n) id, local_node (n_dht6 n) id with
    | Some [], Some [] => search
    | Some l4, Some l6 => Done (new_op (Op_nodes opt 0 [] (Some (l4 ++ l6))) n)
    | _, _ => NullDereference
    end
  else search)).

Definition findValue (now : Z) (id : Id) (opt : LookupOption) n : outcome (Z * Node) :=
  checked (isRunning n) Illegal_state (
  checked (negb (bool_decide (id = MIN_ID))) Invalid_argument (
  with_storage n (fun st =>
  outcome_bind (of_result (SqliteStorage.getValue now id st)) (fun localVal =>
  let immediate := match localVal with Some v => bool_decide (opt = ARBITRARY) || negb (Value.isMutable v) | None => false end in
  if immediate then Done (new_op (Op_value opt 0 localVal (Some localVal)) n)
  else let '(op, n) := new_op (Op_value opt 0 localVal None) n in Done (op, ask op (Dht_findValue id opt) n))))).

Definition doStoreValue (v : Value) n : Z * Node :=
  let '(op, n) := new_op (Op_void 0 None) n in (op, ask op (Dht_storeValue v) n).

Definition storeValue (now : Z) (v : Value) (persistent : bool) n : outcome (Z * Node) :=
  checked (isRunning n) Illegal_state (
  checked (Value.isValid v) Invalid_argument (
  with_storage n (fun st =>
  match SqliteStorage.putValue now v (-1) persistent true st with
  | (Throw e, st) => Done (new_op (Op_void 0 (Some (Throw e))) (set_storage (Some st) n))
  | (Ok _, st) => Done (doStoreValue v (set_storage (Some st) n))
  end))).

Definition findPeer (now : Z) (id : Id) (expected : Z) (opt : LookupOption) n : outcome (Z * Node) :=
  checked (isRunning n) Illegal_state (
  checked (negb (bool_decide (id = MIN_ID))) Invalid_argument (
  with_storage n (fun st =>
  outcome_bind (of_result (SqliteStorage.getPeers random_order now id expected st)) (fun ps =>
  let '(dedup, results) := dedup_peers ps ∅ [] in
  if (0 <? expected) && (expected <=? Z.of_nat (length results)) && bool_decide (opt = ARBITRARY)
  then Done (new_op (Op_peers 0 dedup [] (Some results)) n)
  else let '(op, n) := new_op (Op_peers 0 dedup results None) n in Done (op, ask op (Dht_findPeer id expected opt) n))))).

Definition doAnnouncePeer (p : PeerInfo) n : Z * Node :=
  let '(op, n) := new_op (Op_void 0 None) n in (op, ask op (Dht_announcePeer p) n).

(** A failure of SQLite is not modelled, so the storing always succeeds. *)
Definition announcePeer (now : Z) (p : PeerInfo) (persistent : bool) n : outcome (Z * Node) :=
  checked (isRunning n) Illegal_state (
  checked (bool_decide (p_origin p = n_id n)) Invalid_argument (
  checked (PeerInfo.isValid p) Invalid_argument (
  with_storage n (fun st => Done (doAnnouncePeer p (set_storage (Some (SqliteStorage.putPeer now p persistent true st)) n)))))).

Definition getValue (now : Z) (id : Id) n : outcome (option Value) :=
  checked (negb (bool_decide (id = MIN_ID))) Invalid_argument (with_storage n (fun st => of_result (SqliteStorage.getValue now id st))).

Definition removeValue (id : Id) n : outcome (bool * Node) :=
  checked (negb (bool_decide (id = MIN_ID))) Invalid_argument (
  with_storage n (fun st => let '(b, st) := SqliteStorage.removeValue id st in Done (b, set_storage (Some st) n))).

Definition getPeer (now : Z) (id : Id) n : outcome (option PeerInfo) :=
  checked (negb (bool_decide (id = MIN_ID))) Invalid_argument (with_storage n (fun st => of_result (SqliteStorage.getPeer now id (n_id n) st))).

Definition removePeer (id : Id) n : outcome (bool * Node) :=
  checked (negb (bool_decide (id = zero))) Invalid_argument (
  with_storage n (fun st => let '(b, st) := SqliteStorage.removePeer id (n_id n) st in Done (b, set_storage (Some st) n))).

(** The regular job: what was not announced for long is announced again. *)
Definition announce_value (now : Z) (v : Value) n : Node :=
  match n_storage n with
  | Some st => snd (doStoreValue v (set_storage (Some (SqliteStorage.updateValueLastAnnounce now (Value.getId v) st)) n))
  | None => n
  end.

Definition announce_peer (now : Z) (p : PeerInfo) n : Node :=
  match n_storage n with
  | Some st => snd (doAnnouncePeer p (set_storage (Some (SqliteStorage.updatePeerLastAnnounce now (p_publicKey p) (p_origin p) st)) n))
  | None => n
  end.

Definition persistentAnnounce (now : Z) n : outcome Node :=
  with_storage n (fun st =>
  let ts := u64 (now - Constants.MAX_VALUE_AGE + Constants.RE_ANNOUNCE_INTERVAL * 2) in
  outcome_bind (of_result (SqliteStorage.getPersistentValues ts st)) (fun values =>
  let n := foldl (fun n v => announce_value now v n) n values in
  with_storage n (fun st =>
  let ts := u64 (now - Constants.MAX_PEER_AGE + Constants.RE_ANNOUNCE_INTERVAL * 2) in
  outcome_bind (of_result (SqliteStorage.getPersistentPeers ts st)) (fun ps =>
  Done (foldl (fun n p => announce_peer now p n) n ps))))).

Definition getDHT (t : DHT_Type) n : option RoutingTable := match t with DHT_IPV4 => n_dht4 n | DHT_IPV6 => n_dht6 n end.

(** ** Futures *)

Definition completion_of (o : Operation) : Z :=
  match o with Op_nodes _ c _ _ | Op_value _ c _ _ | Op_void c _ | Op_peers c _ _ _ => c end.

Definition fulfilled (o : Operation) : bool :=
  match o with
  | Op_nodes _ _ _ p => bool_decide (is_Some p)
  | Op_value _ _ _ p => bool_decide (is_Some p)
  | Op_void _ p => bool_decide (is_Some p)
  | Op_peers _ _ _ p => bool_decide (is_Some p)
  end.

Definition optimistic (o : Operation) : bool :=
  match o with Op_nodes opt _ _ _ | Op_value opt _ _ _ => bool_decide (opt = OPTIMISTIC) | _ => false end.

(** The call of a handler of this operation. *)
Definition answers (op : Z) (o : Operation) (c : Completion) : Prop :=
  match o, c with
  | Op_nodes _ _ _ _, C_node i _ | Op_value _ _ _ _, C_value i _ | Op_void _ _, C_void i | Op_peers _ _ _ _, C_peers i _ => i = op
  | _, _ => False
  end.

Definition same_kind (o o' : Operation) : Prop :=
  match o, o' with
  | Op_nodes a _ _ _, Op_nodes b _ _ _ | Op_value a _ _ _, Op_value b _ _ _ => a = b
  | Op_void _ _, Op_void _ _ | Op_peers _ _ _ _, Op_peers _ _ _ _ => True
  | _, _ => False
  end.

(** What the handlers of one operation leave as it is. *)
Definition same_node (op : Z) n n' : Prop :=
  numDHTs n' = numDHTs n /\ (is_Some (n_storage n) -> is_Some (n_storage n')) /\ n_status n' = n_status n /\
  forall i, i <> op -> n_ops n' !! i = n_ops n !! i.

Lemma same_node_refl op n : same_node op n n.
Proof. done. Qed.

Lemma same_node_trans op n1 n2 n3 : same_node op n1 n2 -> same_node op n2 n3 -> same_node op n1 n3.
Proof.
  intros (H1 & H2 & H3 & H4) (K1 & K2 & K3 & K4). split; [congruence|]. split; [auto|]. split; [congruence|].
  intros i Hi. by rewrite K4, H4.
Qed.

Lemma set_op_same op o n : same_node op n (set_op op o n).
Proof. split; [done|]. split; [done|]. split; [done|]. intros i Hi. simpl. by rewrite lookup_insert_ne. Qed.

(** One answer to an operation whose promise is open. *)
Lemma complete_step now op o c n :
  n_ops n !! op = Some o -> fulfilled o = false -> answers op o c -> is_Some (n_storage n) ->
  (optimistic o = true -> numDHTs n <= completion_of o + 1) ->
  exists n' o', complete now c n = Done n' /\ n_ops n' !! op = Some o' /\ same_kind o o' /\
    completion_of o' = completion_of o + 1 /\ fulfilled o' = (numDHTs n <=? completion_of o + 1) /\ same_node op n n'.
Proof.
  intros Ho Hf Ha [st Hst] Hopt.
  assert (forall (b : bool), (b = true -> numDHTs n <= completion_of o + 1) ->
    b || (numDHTs n <=? completion_of o + 1) = (numDHTs n <=? completion_of o + 1)) as Hb.
  { intros [] H; [|done]. symmetry. apply Z.leb_le. by apply H. }
  destruct o as [opt k rs p|opt k v p|k p|k d rs p], c as [i ni|i nv|i|i ps]; simpl in Ha, Hf, Hopt, Hb; try done; subst i;
    apply bool_decide_eq_false in Hf; (destruct p; [by destruct Hf|]); simpl complete; unfold handle_node, handle_value, handle_void, handle_peers; rewrite Ho.
  - rewrite Hb by (intros [H _]%andb_true_iff; auto). destruct (numDHTs n <=? k + 1) eqn:E; eexists _, _;
      (split; [done|]; split; [simpl; apply lookup_insert_eq|]; split; [done|]; split; [done|]; split; [done|apply set_op_same]).
  - rewrite Hb by (intros [H _]%andb_true_iff; auto). destruct (numDHTs n <=? k + 1) eqn:E.
    + rewrite Hst. destruct (newer_value v nv) as [x|]; eexists _, _;
        (split; [done|]; split; [simpl; apply lookup_insert_eq|]; split; [done|]; split; [done|]; split; [done|]);
        [eapply same_node_trans; [|apply set_op_same]; by repeat split|apply set_op_same].
    + eexists _, _. split; [done|]. split; [simpl; apply lookup_insert_eq|]. split; [done|]. split; [done|]. split; [done|apply set_op_same].
  - destruct (numDHTs n <=? k + 1) eqn:E; eexists _, _;
      (split; [done|]; split; [simpl; apply lookup_insert_eq|]; split; [done|]; split; [done|]; split; [done|apply set_op_same]).
  - destruct (dedup_peers ps d rs) as [d' rs']. rewrite Hst. cbn [numDHTs set_storage]. destruct (numDHTs n <=? k + 1) eqn:E; eexists _, _;
      (split; [done|]; split; [simpl; apply lookup_insert_eq|]; split; [done|]; split; [done|]; split; [done|]);
      (eapply same_node_trans; [|apply set_op_same]; by repeat split).
Qed.

Lemma same_kind_answers op o o' c : same_kind o o' -> answers op o c -> answers op o' c.
Proof. by destruct o, o', c. Qed.

Lemma same_kind_trans o1 o2 o3 : same_kind o1 o2 -> same_kind o2 o3 -> same_kind o1 o3.
Proof. destruct o1, o2, o3; simpl; try done; congruence. Qed.

Lemma same_kind_optimistic o o' : same_kind o o' -> optimistic o' = optimistic o.
Proof. destruct o, o'; simpl; try done; by intros ->. Qed.

(** The answers to an operation of which [completion_of o] were given. *)
Lemma complete_run now op cs o n :
  n_ops n !! op = Some o -> fulfilled o = false -> is_Some (n_storage n) -> Forall (answers op o) cs ->
  (optimistic o = true -> numDHTs n <= 1) -> 0 <= completion_of o < numDHTs n -> completion_of o + Z.of_nat (length cs) <= numDHTs n ->
  exists n' o', complete_all now cs n = Done n' /\ n_ops n' !! op = Some o' /\ same_kind o o' /\
    fulfilled o' = bool_decide (completion_of o + Z.of_nat (length cs) = numDHTs n) /\ same_node op n n'.
Proof.
  revert o n. induction cs as [|c cs IH]; intros o n Ho Hf Hst Ha Hopt Hc Hl.
  - exists n, o. split; [done|]. split; [done|]. split; [by destruct o|]. split; [|done].
    rewrite Hf. symmetry. apply bool_decide_eq_false. simpl. lia.
  - inversion_clear Ha as [|? ? Hac Ha']. cbn [length] in *.
    destruct (complete_step now op o c n Ho Hf Hac Hst) as (n1 & o1 & E & Ho1 & Hk & Hc1 & Hf1 & Hs); [intros H; specialize (Hopt H); lia|].
    cbn [complete_all]. rewrite E. cbn [outcome_bind]. destruct Hs as (S1 & S2 & S3 & S4).
    destruct (Z.leb_spec (numDHTs n) (completion_of o + 1)) as [Hle|Hlt].
    + destruct cs; [|cbn [length] in Hl; lia]. exists n1, o1. split; [done|]. split; [done|]. split; [done|]. split; [|by repeat split].
      rewrite Hf1. symmetry. apply bool_decide_eq_true. simpl. lia.
    + destruct (IH o1 n1) as (n2 & o2 & E2 & Ho2 & Hk2 & Hf2 & Hs2); try done.
      * auto.
      * eapply Forall_impl; [exact Ha'|]. intros x. by apply same_kind_answers.
      * rewrite (same_kind_optimistic _ _ Hk), S1. done.
      * rewrite S1, Hc1. lia.
      * rewrite S1, Hc1. lia.
      * exists n2, o2. split; [done|]. split; [done|]. split; [by eapply same_kind_trans|].
        split; [|eapply same_node_trans; [|exact Hs2]; by repeat split].
        rewrite Hf2, Hc1, S1. apply bool_decide_ext. lia.
Qed.

(** ** A node in use *)

Definition flag (b : bool) : Z := if b then 1 else 0.

(** The DHTs are those of the configuration, [k] times counted. *)
Record counted (k : Z) n : Prop := {
  ct_dht4 : present (n_dht4 n) = flag (n_ipv4 n);
  ct_dht6 : present (n_dht6 n) = flag (n_ipv6 n);
  ct_num : numDHTs n = k * (flag (n_ipv4 n) + flag (n_ipv6 n));
  ct_some : 1 <= flag (n_ipv4 n) + flag (n_ipv6 n);
  ct_running : n_status n = Running;
  ct_storage : is_Some (n_storage n)
}.

(** What does not change the DHTs. *)
Definition same_dhts n n' : Prop :=
  n_dht4 n' = n_dht4 n /\ n_dht6 n' = n_dht6 n /\ n_ipv4 n' = n_ipv4 n /\ n_ipv6 n' = n_ipv6 n /\ numDHTs n' = numDHTs n /\
  n_status n' = n_status n /\ (is_Some (n_storage n) -> is_Some (n_storage n')).

#[export] Instance same_dhts_preorder : PreOrder same_dhts.
Proof.
  split; [done|]. intros a b c (H1 & H2 & H3 & H4 & H5 & H6 & H7) (K1 & K2 & K3 & K4 & K5 & K6 & K7).
  repeat (split; [congruence|]). auto.
Qed.

Lemma same_dhts_counted k n n' : same_dhts n n' -> counted k n -> counted k n'.
Proof. intros (H1 & H2 & H3 & H4 & H5 & H6 & H7) [C1 C2 C3 C4 C5 C6]. split; rewrite ?H1, ?H2, ?H3, ?H4, ?H5, ?H6; auto. Qed.

Lemma set_op_dhts op o n : same_dhts n (set_op op o n).
Proof. done. Qed.

Lemma set_storage_dhts st n : same_dhts n (set_storage (Some st) n).
Proof. repeat (split; [done|]). by eexists. Qed.

Lemma ask_dht_dhts t d op q n : same_dhts n (ask_dht t d op q n).
Proof. by destruct d. Qed.

Lemma ask_dhts op q n : same_dhts n (ask op q n).
Proof. unfold ask. etrans; [apply (ask_dht_dhts DHT_IPV4 (n_dht4 n) op q)|apply ask_dht_dhts]. Qed.

Lemma ask_ops op q n : n_ops (ask op q n) = n_ops n.
Proof. unfold ask, ask_dht. by destruct (n_dht4 n), (n_dht6 n). Qed.

(** Every DHT is asked once. *)
Lemma ask_asked op q n :
  exists l, n_asked (ask op q n) = n_asked n ++ l /\ Forall (fun a => a.1.2 = op /\ a.2 = q) l /\
    Z.of_nat (length l) = present (n_dht4 n) + present (n_dht6 n).
Proof.
  unfold ask, ask_dht. destruct (n_dht4 n), (n_dht6 n); simpl;
    [exists [(DHT_IPV4, op, q); (DHT_IPV6, op, q)]; rewrite <- app_assoc|exists [(DHT_IPV4, op, q)]|exists [(DHT_IPV6, op, q)]|exists []; rewrite app_nil_r];
    (split; [done|]; split; [repeat constructor|done]).
Qed.

Lemma complete_dhts now c n n' : complete now c n = Done n' -> same_dhts n n'.
Proof.
  destruct c as [op ni|op v|op|op ps]; simpl; unfold handle_node, handle_value, handle_void, handle_peers;
    (destruct (n_ops n !! op) as [[opt k rs p|opt k x p|k p|k d rs p]|]; try done).
  - destruct (_ || _); [destruct p; [done|]|]; intros [= <-]; apply set_op_dhts.
  - destruct (_ || _); [|intros [= <-]; apply set_op_dhts].
    destruct (newer_value x v), (n_storage n) as [st|] eqn:Est; try done; (destruct p; [done|]); intros [= <-];
      [|apply set_op_dhts..]. etrans; [|apply set_op_dhts]; apply set_storage_dhts.
  - destruct (_ <=? _); [destruct p; [done|]|]; intros [= <-]; apply set_op_dhts.
  - destruct (dedup_peers ps d rs) as [d' rs']. destruct (n_storage n) as [st|] eqn:Est; [|done].
    destruct (_ <=? _); [destruct p; [done|]|]; intros [= <-]; (etrans; [|apply set_op_dhts]; apply set_storage_dhts).
Qed.

(** The operations that give a future. *)
Inductive begins (now : Z) n op n' : Prop :=
  | begins_node id opt : findNode id opt n = Done (op, n') -> begins now n op n'
  | begins_value id opt : findValue now id opt n = Done (op, n') -> begins now n op n'
  | begins_store v persistent : storeValue now v persistent n = Done (op, n') -> begins now n op n'
  | begins_peer id expected opt : findPeer now id expected opt n = Done (op, n') -> begins now n op n'
  | begins_announce p persistent : announcePeer now p persistent n = Done (op, n') -> begins now n op n'.

(** The start of an operation: its future has its value at once, or every DHT is
    asked for it once. *)
Definition begun n op n' : Prop :=
  same_dhts n n' /\ exists o, n_ops n' !! op = Some o /\ completion_of o = 0 /\
  (fulfilled o = true /\ n_asked n' = n_asked n \/
   fulfilled o = false /\ exists l q, n_asked n' = n_asked n ++ l /\ Forall (fun a => a.1.2 = op /\ a.2 = q) l /\
     Z.of_nat (length l) = present (n_dht4 n) + present (n_dht6 n)).

Lemma begun_at_once o n : fulfilled o = true -> completion_of o = 0 -> begun n (fst (new_op o n)) (snd (new_op o n)).
Proof. intros H1 H2. split; [done|]. exists o. split; [simpl; apply lookup_insert_eq|]. split; [done|]. by left. Qed.

Lemma begun_asked o q n :
  fulfilled o = false -> completion_of o = 0 -> begun n (n_nextOp n) (ask (n_nextOp n) q (snd (new_op o n))).
Proof.
  intros H1 H2. split; [etrans; [|apply ask_dhts]; done|]. exists o. rewrite ask_ops. split; [simpl; apply lookup_insert_eq|].
  split; [done|]. right. split; [done|]. destruct (ask_asked (n_nextOp n) q (snd (new_op o n))) as (l & E & F & L). exists l, q. by split.
Qed.

Lemma begun_storage st n op n' : begun (set_storage (Some st) n) op n' -> begun n op n'.
Proof. intros [H1 H2]. split; [|done]. etrans; [apply (set_storage_dhts st)|done]. Qed.

Lemma begins_begun now n op n' : begins now n op n' -> begun n op n'.
Proof.
  intros [id opt E|id opt E|v ps E|id ex opt E|p ps E]; revert E; unfold findNode, findValue, storeValue, findPeer, announcePeer, checked, with_storage;
    (destruct (isRunning n); [|done]).
  - destruct (negb _); [|done]. cbn zeta beta iota. destruct (bool_decide (opt = ARBITRARY)).
    + destruct (local_node (n_dht4 n) id) as [[|? ?]|], (local_node (n_dht6 n) id) as [[|? ?]|]; try done; intros [= <- <-];
        [by apply begun_asked|by apply (begun_at_once (Op_nodes _ _ _ _))..].
    + intros [= <- <-]. by apply begun_asked.
  - destruct (negb _); [|done]. destruct (n_storage n) as [st|]; [|done]. destruct (SqliteStorage.getValue now id st) as [x|e]; [|done].
    cbn [of_result outcome_bind]. destruct (match x with Some _ => _ | None => _ end); intros [= <- <-];
      [by apply (begun_at_once (Op_value _ _ _ _))|by apply begun_asked].
  - destruct (Value.isValid v); [|done]. destruct (n_storage n) as [st|]; [|done].
    destruct (SqliteStorage.putValue now v (-1) ps true st) as [[x|e] st']; intros [= <- <-]; apply (begun_storage st');
      [by apply (begun_asked (Op_void 0 None) _ (set_storage (Some st') n))|by apply (begun_at_once (Op_void _ _) (set_storage (Some st') n))].
  - destruct (negb _); [|done]. destruct (n_storage n) as [st|]; [|done]. destruct (SqliteStorage.getPeers _ now id ex st) as [x|e]; [|done].
    cbn [of_result outcome_bind]. destruct (dedup_peers x ∅ []) as [d rs]. destruct (_ && _ && _); intros [= <- <-];
      [by apply (begun_at_once (Op_peers _ _ _ _))|by apply begun_asked].
  - destruct (bool_decide _); [|done]. destruct (PeerInfo.isValid p); [|done]. destruct (n_storage n) as [st|]; [|done].
    set (st' := SqliteStorage.putPeer now p ps true st). intros [= <- <-]. apply (begun_storage st').
    by apply (begun_asked (Op_void 0 None) _ (set_storage (Some st') n)).
Qed.

(** A node that was started once and is used. *)
Inductive in_use : Node -> Prop :=
  | use_start id ipv4 ipv6 n0 t4 t6 st n :
      Node_new id ipv4 ipv6 = Ok n0 -> start t4 t6 (Ok ()) (Ok st) n0 = (Ok (), n) -> in_use n
  | use_begin now n op n' : in_use n -> begins now n op n' -> in_use n'
  | use_complete now c n n' : in_use n -> complete now c n = Done n' -> in_use n'.

(** A successful start of a stopped node counts the DHTs that are there. *)
Lemma start_counted k t4 t6 st n n' :
  n_status n = Stopped -> n_dht4 n = None -> n_dht6 n = None -> 1 <= flag (n_ipv4 n) + flag (n_ipv6 n) ->
  numDHTs n = k * (flag (n_ipv4 n) + flag (n_ipv6 n)) -> start t4 t6 (Ok ()) (Ok st) n = (Ok (), n') -> counted (k + 1) n'.
Proof.
  intros Hs H4 H6 Hf Hn. unfold start, setStatus. rewrite Hs, !bool_decide_eq_true_2 by done. cbn.
  rewrite H4, H6, Hn. intros [= <-]. split; cbn; [by destruct (n_ipv4 n)|by destruct (n_ipv6 n)| |done|done|by eexists].
  destruct (n_ipv4 n), (n_ipv6 n); cbn [present flag]; lia.
Qed.

Lemma in_use_counted n : in_use n -> counted 1 n.
Proof.
  induction 1 as [id a b n0 t4 t6 st n Hn Hs|now n op n' _ IH Hb|now c n n' _ IH Hc].
  - unfold Node_new in Hn. destruct (negb a && negb b) eqn:E; [done|]. injection Hn as <-.
    apply (start_counted 0 t4 t6 st (MkNode id a b Stopped None None 0 None false [] ∅ 0 [])); try done.
    destruct a, b; simpl; done || lia.
  - apply begins_begun in Hb as [Hd _]. by eapply same_dhts_counted.
  - apply complete_dhts in Hc. by eapply same_dhts_counted.
Qed.

Lemma complete_all_dhts now cs n n' : complete_all now cs n = Done n' -> same_dhts n n'.
Proof.
  revert n. induction cs as [|c cs IH]; intros n; simpl; [by intros [= <-]|].
  destruct (complete now c n) as [n1|e|] eqn:E; [|done..]. simpl. intros H. etrans; [by eapply complete_dhts|by apply IH].
Qed.

Lemma stop_spec now cs4 cs6 n n' :
  n_status n = Running -> stop now cs4 cs6 n = Done n' ->
  n_status n' = Stopped /\ n_dht4 n' = None /\ n_dht6 n' = None /\ n_ipv4 n' = n_ipv4 n /\ n_ipv6 n' = n_ipv6 n /\
  numDHTs n' = numDHTs n /\ n_storage n' = None.
Proof.
  intros Hs. unfold stop. rewrite Hs, bool_decide_eq_false_2 by done. cbn [n_dht4 set_server].
  assert (forall d cs m m', (if d : option RoutingTable is Some _ then complete_all now cs m else Done m) = Done m' -> same_dhts m m') as Hc.
  { intros [rt|] cs m m'; [apply complete_all_dhts|by intros [= <-]]. }
  destruct (if n_dht4 n is Some _ then _ else _) as [n1|e|] eqn:E1; [|done..]. cbn [outcome_bind].
  destruct (Hc _ _ _ _ E1) as (_ & _ & A3 & A4 & A5 & A6 & _). cbn in A3, A4, A5, A6. set (m := set_dhts None _ _ _).
  destruct (if n_dht6 m is Some _ then _ else _) as [n2|e|] eqn:E2; [|done..]. cbn [outcome_bind].
  destruct (Hc _ _ _ _ E2) as (B1 & _ & B3 & B4 & B5 & B6 & _). cbn in B1, B3, B4, B5, B6. intros [= <-].
  unfold setStatus. cbn. rewrite bool_decide_eq_true_2 by congruence. cbn. split; [done|]. split; [done|]. split; [done|].
  split; [congruence|]. split; [congruence|]. split; [congruence|done].
Qed.

(** ** Theorems *)

(** C13: In a node that was started and never stopped, the future of an operation has its
    value at once, or gets it exactly once: with the answer of the last DHT that was asked,
    and without an exception.  For an operation with the optimistic lookup option this is for
    a node with one address family. *)
Theorem future_once (now now' : Z) n op n' :
  in_use n -> begins now n op n' ->
  exists o, n_ops n' !! op = Some o /\ (fulfilled o = true /\ n_asked n' = n_asked n \/
    fulfilled o = false /\ exists l, n_asked n' = n_asked n ++ l /\ Forall (fun a => a.1.2 = op) l /\
      forall cs, (optimistic o = true -> length l = 1%nat) -> Forall (answers op o) cs -> (length cs <= length l)%nat ->
        exists n'' o', complete_all now' cs n' = Done n'' /\ n_ops n'' !! op = Some o' /\
          (fulfilled o' = true <-> length cs = length l) /\ forall i, i <> op -> n_ops n'' !! i = n_ops n' !! i).
Proof.
  intros Hu Hb. apply in_use_counted in Hu. apply begins_begun in Hb as (Hd & o & Ho & Hc & Hcase).
  exists o. split; [done|]. destruct Hcase as [[H1 H2]|[H1 (l & q & E & F & L)]]; [by left|right]. split; [done|].
  exists l. split; [done|]. split; [eapply Forall_impl; [exact F|by intros ? [? _]]|]. intros cs Hopt Ha Hl.
  pose proof (same_dhts_counted _ _ _ Hd Hu) as [C1 C2 C3 C4 C5 C6].
  assert (numDHTs n' = Z.of_nat (length l)) as Hn. { destruct Hu as [U1 U2 _ _ _ _], Hd as (_ & _ & E4 & E6 & _). rewrite C3, L, U1, U2, E4, E6. lia. }
  destruct (complete_run now' op cs o n' Ho H1 C6 Ha) as (n'' & o' & R1 & R2 & _ & R3 & (_ & _ & _ & R4)); [|lia..|].
  - intros H. specialize (Hopt H). lia.
  - exists n'', o'. split; [done|]. split; [done|]. split; [|done]. rewrite R3, bool_decide_eq_true. lia.
Qed.

(** After a restart every operation waits for twice as many answers as there are
    DHTs, so its future gets no value. *)
Theorem restart_never_answers (now now' now1 : Z) n n1 n2 n3 op cs4 cs6 t4 t6 st :
  in_use n -> stop now cs4 cs6 n = Done n1 -> start t4 t6 (Ok ()) (Ok st) n1 = (Ok (), n2) -> begins now' n2 op n3 ->
  exists o, n_ops n3 !! op = Some o /\ (fulfilled o = true /\ n_asked n3 = n_asked n2 \/
    exists l, n_asked n3 = n_asked n2 ++ l /\ forall cs, optimistic o = false -> Forall (answers op o) cs -> (length cs <= length l)%nat ->
      exists n4 o', complete_all now1 cs n3 = Done n4 /\ n_ops n4 !! op = Some o' /\ fulfilled o' = false).
Proof.
  intros Hu Hstop Hstart Hb. apply in_use_counted in Hu as [U1 U2 U3 U4 U5 U6].
  destruct (stop_spec _ _ _ _ _ U5 Hstop) as (P1 & P2 & P3 & P4 & P5 & P6 & _).
  assert (counted 2 n2) as H2. { apply (start_counted 1 t4 t6 st n1); try done; rewrite ?P4, ?P5, ?P6; done. }
  apply begins_begun in Hb as (Hd & o & Ho & Hc & Hcase). exists o. split; [done|].
  destruct Hcase as [[E1 E2]|[E1 (l & q & E & _ & L)]]; [by left|right]. exists l. split; [done|]. intros cs Hopt Ha Hl.
  pose proof (same_dhts_counted _ _ _ Hd H2) as [C1 C2 C3 C4 C5 C6].
  assert (numDHTs n3 = 2 * Z.of_nat (length l) /\ 1 <= Z.of_nat (length l)) as [Hn Hl1].
  { destruct H2 as [V1 V2 _ _ _ _], Hd as (_ & _ & E4 & E6 & _). rewrite C3, L, V1, V2, E4, E6. rewrite E4, E6 in C4. lia. }
  destruct (complete_run now1 op cs o n3 Ho E1 C6 Ha) as (n4 & o' & R1 & R2 & _ & R3 & _); [by rewrite Hopt|lia..|].
  exists n4, o'. split; [done|]. split; [done|]. rewrite R3. apply bool_decide_eq_false. lia.
Qed.

(** An optimistic lookup on a node with both address families: the first result is
    the value of the future, and the answer of the other DHT throws. *)
Theorem optimistic_answers_twice now op n (ni : NodeInfo) (v : Value) n1 r r' :
  numDHTs n = 2 ->
  (n_ops n !! op = Some (Op_nodes OPTIMISTIC 0 [] None) -> complete now (C_node op (Some ni)) n = Done n1 ->
     n_ops n1 !! op = Some (Op_nodes OPTIMISTIC 1 [] (Some [ni])) /\ complete now (C_node op r) n1 = Thrown Future_error) /\
  (n_ops n !! op = Some (Op_value OPTIMISTIC 0 None None) -> complete now (C_value op (Some v)) n = Done n1 ->
     n_ops n1 !! op = Some (Op_value OPTIMISTIC 1 (Some v) (Some (Some v))) /\ complete now (C_value op r') n1 = Thrown Future_error).
Proof.
  intros Hn. split.
  - intros Ho. simpl. unfold handle_node at 1. rewrite Ho. simpl. intros [= <-]. split; [simpl; apply lookup_insert_eq|].
    unfold handle_node. simpl. rewrite lookup_insert_eq. simpl. rewrite Hn. change (2 <=? 1 + 1) with true. by rewrite orb_true_r.
  - intros Ho. simpl. unfold handle_value at 1. rewrite Ho. simpl. destruct (n_storage n) as [st|]; [|done]. intros [= <-].
    split; [simpl; apply lookup_insert_eq|]. unfold handle_value. simpl. rewrite lookup_insert_eq. simpl. rewrite Hn.
    change (2 <=? 1 + 1) with true. rewrite orb_true_r. by destruct (newer_value (Some v) r').
Qed.

(** A start that fails to bind its sockets or to open its storage leaves a node that
    says it is running: the next start does nothing, and operations read the storage
    through a null pointer. *)
Theorem failed_start_is_running t4 t6 (bound : result unit) (opened : result SqliteStorage) (e : error) now id opt n n' :
  n_status n = Stopped -> n_storage n = None -> id <> MIN_ID -> start t4 t6 bound opened n = (Throw e, n') ->
  isRunning n' = true /\ findValue now id opt n' = NullDereference /\
  forall t4' t6' bound' opened', start t4' t6' bound' opened' n' = (Ok (), n').
Proof.
  intros Hs Hst Hid E.
  assert (n_status n' = Running /\ n_storage n' = None) as [H1 H2].
  { revert E. unfold start, setStatus. rewrite Hs, !bool_decide_eq_true_2 by done. cbn.
    destruct bound; [destruct opened; [done|]|]; intros [= _ <-]; cbn; done. }
  unfold findValue, start, checked, with_storage, isRunning. rewrite H1, H2. split; [done|].
  split; [|done].
  rewrite (bool_decide_eq_true_2 (Running = Running)), (bool_decide_eq_false_2 (id = MIN_ID)) by done. done.
Qed.

(** Among the local value and mutable answers the newest is kept. *)
Lemma newer_value_best l v0 :
  (forall v, Some v ∈ l -> Value.isMutable v = true) ->
  (forall v, Some v ∈ v0 :: l -> exists x, foldl newer_value v0 l = Some x /\ sequenceNumber v <= sequenceNumber x) /\
  (foldl newer_value v0 l = None \/ foldl newer_value v0 l ∈ v0 :: l).
Proof.
  revert v0. induction l as [|a l IH]; intros v0 Hm; cbn [foldl].
  - split; [|right; by left]. intros v [<-|?%not_elem_of_nil]%elem_of_cons; [|done]. exists v. split; [done|lia].
  - destruct (IH (newer_value v0 a)) as [H1 H2]; [intros v Hv; apply Hm; by right|]. split.
    + intros v Hv. assert (exists y, Some y ∈ newer_value v0 a :: l /\ sequenceNumber v <= sequenceNumber y) as (y & Hy & Hle).
      { apply elem_of_cons in Hv as [Hv|[Hv|Hv]%elem_of_cons]; [| |exists v; split; [by right|lia]].
        - subst v0. destruct a as [x|]; simpl; [|exists v; split; [by left|lia]].
          rewrite (Hm x) by (by left). simpl. destruct (Z.ltb_spec (sequenceNumber v) (sequenceNumber x)); eexists; (split; [by left|lia]).
        - subst a. destruct v0 as [x|]; simpl; [|exists v; split; [by left|lia]].
          rewrite (Hm v) by (by left). simpl. destruct (Z.ltb_spec (sequenceNumber x) (sequenceNumber v)); eexists; (split; [by left|lia]). }
      destruct (H1 y Hy) as (x & E & Hx). exists x. split; [done|lia].
    + destruct H2 as [H2|[H2|H2]%elem_of_cons]; [by left| |right; right; by right].
      rewrite H2. unfold newer_value. destruct a as [x|]; [|right; by left]. destruct v0 as [y|]; [|right; right; by left].
      destruct (_ || _); right; [right; by left|by left].
Qed.

(** What the handlers of a value lookup make of the answers, while they wait. *)
Lemma value_run now op opt k n rs v0 :
  opt <> OPTIMISTIC -> n_ops n !! op = Some (Op_value opt k v0 None) -> k + Z.of_nat (length rs) < numDHTs n ->
  exists n', complete_all now (C_value op <$> rs) n = Done n' /\ n_storage n' = n_storage n /\ numDHTs n' = numDHTs n /\
    n_ops n' !! op = Some (Op_value opt (k + Z.of_nat (length rs)) (foldl newer_value v0 rs) None).
Proof.
  intros Hopt. revert k n v0. induction rs as [|r rs IH]; intros k n v0 Ho Hk.
  - exists n. rewrite Z.add_0_r. done.
  - cbn [length] in *. cbn [fmap list_fmap complete_all complete]. unfold handle_value. rewrite Ho, bool_decide_eq_false_2 by done. cbn [andb orb].
    rewrite (proj2 (Z.leb_gt _ _)) by lia. cbn [outcome_bind].
    destruct (IH (k + 1) (set_op op (Op_value opt (k + 1) (newer_value v0 r) None) n) (newer_value v0 r)) as (n' & E & E1 & E2 & E3).
    + simpl. apply lookup_insert_eq.
    + simpl. lia.
    + exists n'. split; [exact E|]. split; [done|]. split; [done|]. rewrite E3. do 2 f_equal. lia.
Qed.

(** When the last DHT has answered, a value lookup has the newest of the local value
    and the answers (of mutable values, as all answers for one id are), and has
    offered it to the storage. *)
Theorem find_value_newest now op opt n rs r v0 st :
  opt <> OPTIMISTIC -> n_ops n !! op = Some (Op_value opt 0 v0 None) -> n_storage n = Some st ->
  numDHTs n = Z.of_nat (length rs) + 1 -> (forall v, Some v ∈ rs ++ [r] -> Value.isMutable v = true) ->
  exists n' x, complete_all now (C_value op <$> rs ++ [r]) n = Done n' /\
    n_ops n' !! op = Some (Op_value opt (numDHTs n) x (Some x)) /\
    n_storage n' = Some (match x with Some v => snd (SqliteStorage.putValue now v (-1) false false st) | None => st end) /\
    (x = None \/ x ∈ v0 :: rs ++ [r]) /\
    (forall v, Some v ∈ v0 :: rs ++ [r] -> exists y, x = Some y /\ sequenceNumber v <= sequenceNumber y).
Proof.
  intros Hopt Ho Hst Hn Hm. destruct (value_run now op opt 0 n rs v0 Hopt Ho) as (n1 & E & E1 & E2 & E3); [lia|].
  destruct (newer_value_best (rs ++ [r]) v0 Hm) as [B1 B2]. set (x := foldl newer_value v0 (rs ++ [r])) in *.
  assert (x = newer_value (foldl newer_value v0 rs) r) as Ex by (unfold x; by rewrite foldl_app).
  assert (forall cs c m m', complete_all now cs m = Done m' -> complete_all now (cs ++ [c]) m = complete now c m') as Happ.
  { intros cs c. induction cs as [|c' cs IH]; intros m m'; simpl; [intros [= ->]; by destruct (complete now c m')|].
    destruct (complete now c' m); [apply IH|done..]. }
  rewrite fmap_app. cbn [fmap list_fmap]. rewrite (Happ _ _ _ _ E). cbn [complete]. unfold handle_value. rewrite E3, E2, E1, Hst, <- Ex.
  rewrite (proj2 (Z.leb_le _ _)), orb_true_r by lia. replace (0 + Z.of_nat (length rs) + 1) with (numDHTs n) by lia.
  destruct x as [v|]; (eexists _, _; split; [done|]; split; [simpl; apply lookup_insert_eq|]; split; [simpl; by rewrite ?E1, ?Hst|]; by split).
Qed.

(** ** Peers *)

Lemma dedup_spec ps d rs d' rs' :
  dedup_peers ps d rs = (d', rs') -> (forall k, k ∈ d -> k ∈ SqliteStorage.peer_key <$> rs) ->
  (forall k, k ∈ d' -> k ∈ SqliteStorage.peer_key <$> rs') /\ d ⊆ d' /\ (forall p, p ∈ ps -> SqliteStorage.peer_key p ∈ d').
Proof.
  revert d rs. induction ps as [|p ps IH]; intros d rs; simpl; [intros [= <- <-] H; split; [done|]; split; [done|by intros q ?%not_elem_of_nil]|].
  destruct (bool_decide (SqliteStorage.peer_key p ∈ d)) eqn:E; intros Ed H.
  - apply bool_decide_eq_true in E. destruct (IH _ _ Ed H) as (H1 & H2 & H3). split; [done|]. split; [done|].
    intros q [->|Hq]%elem_of_cons; [by apply H2|by apply H3].
  - destruct (IH _ _ Ed) as (H1 & H2 & H3).
    + intros k. rewrite elem_of_union, elem_of_singleton, fmap_app, elem_of_app. intros [->|Hk]; [right; by left|left; by apply H].
    + split; [done|]. split; [etrans; [apply union_subseteq_r|exact H2]|].
      intros q [->|Hq]%elem_of_cons; [apply H2, elem_of_union; left; by apply elem_of_singleton|by apply H3].
Qed.

Lemma putPeers_row now l st k :
  k ∈ SqliteStorage.peer_key <$> l -> exists r, peers (SqliteStorage.putPeers now l st) !! k = Some r /\ pr_persistent r = false.
Proof.
  unfold SqliteStorage.putPeers. induction l as [|p l IH] using rev_ind; [by intros ?%not_elem_of_nil|].
  rewrite fmap_app, foldl_app, elem_of_app. simpl. intros Hk. destruct (decide (k = SqliteStorage.peer_key p)) as [->|Hne].
  - rewrite lookup_insert_eq. by eexists.
  - rewrite lookup_insert_ne by done. apply IH. destruct Hk as [Hk|Hk]; [done|]. by apply list_elem_of_singleton in Hk.
Qed.

(** Looking for a peer stores the local peers again, as peers of others: a peer
    that the node announces persistently loses its mark, so that it is not announced
    again. *)
Theorem find_peer_unpersists now now' id expected opt n op n' n'' st local ps q :
  n_storage n = Some st -> SqliteStorage.getPeers random_order now id expected st = Ok local -> q ∈ local -> opt <> ARBITRARY ->
  findPeer now id expected opt n = Done (op, n') -> complete now' (C_peers op ps) n' = Done n'' ->
  exists st' r, n_storage n'' = Some st' /\ peers st' !! SqliteStorage.peer_key q = Some r /\ pr_persistent r = false.
Proof.
  intros Hst Hl Hq Hopt. unfold findPeer, checked, with_storage. destruct (isRunning n); [|done]. destruct (negb _); [|done].
  rewrite Hst, Hl. cbn [of_result outcome_bind]. destruct (dedup_peers local ∅ []) as [d rs] eqn:Ed.
  rewrite (bool_decide_eq_false_2 (opt = ARBITRARY)), andb_false_r by done. intros [= <- <-].
  destruct (dedup_spec _ _ _ _ _ Ed) as (D1 & _ & D3); [by intros k ?%not_elem_of_empty|]. simpl. unfold handle_peers. rewrite ask_ops. simpl. rewrite lookup_insert_eq.
  destruct (dedup_peers ps d rs) as [d' rs'] eqn:Ed'. destruct (dedup_spec _ _ _ _ _ Ed' D1) as (E1 & E2 & _).
  destruct (n_storage (ask _ _ _)) as [st1|] eqn:Es; [|done]. destruct (putPeers_row now' rs' st1 (SqliteStorage.peer_key q)) as (r & Hr & Hp); [apply E1, E2, D3, Hq|].
  destruct (numDHTs _ <=? _); intros [= En]; subst n''; by exists (SqliteStorage.putPeers now' rs' st1), r.
Qed.

(** ** Announcing again *)

Definition dht_count n : nat := Z.to_nat (present (n_dht4 n) + present (n_dht6 n)).

Lemma ask_each op q n : exists l, n_asked (ask op q n) = n_asked n ++ l /\ snd <$> l = replicate (dht_count n) q.
Proof.
  unfold ask, ask_dht, dht_count. destruct (n_dht4 n), (n_dht6 n); simpl;
    [exists [(DHT_IPV4, op, q); (DHT_IPV6, op, q)]; rewrite <- app_assoc|exists [(DHT_IPV4, op, q)]|exists [(DHT_IPV6, op, q)]|exists []; rewrite app_nil_r]; done.
Qed.

(** One step of a loop that updates the storage by [f] and asks the DHTs for [q]. *)
Definition announce_step (f : SqliteStorage -> SqliteStorage) (q : DhtOp) n n' : Prop :=
  (forall st, n_storage n = Some st -> n_storage n' = Some (f st)) /\ n_dht4 n' = n_dht4 n /\ n_dht6 n' = n_dht6 n /\
  exists l, n_asked n' = n_asked n ++ l /\ snd <$> l = replicate (dht_count n) q.

Lemma announce_loop {X} (f : X -> SqliteStorage -> SqliteStorage) (q : X -> DhtOp) (step : Node -> X -> Node) xs n st :
  (forall n x, is_Some (n_storage n) -> announce_step (f x) (q x) n (step n x)) -> n_storage n = Some st ->
  n_storage (foldl step n xs) = Some (foldl (fun st x => f x st) st xs) /\ n_dht4 (foldl step n xs) = n_dht4 n /\
  n_dht6 (foldl step n xs) = n_dht6 n /\
  exists l, n_asked (foldl step n xs) = n_asked n ++ l /\ snd <$> l = flat_map (fun x => replicate (dht_count n) (q x)) xs.
Proof.
  intros Hs. revert n st. induction xs as [|x xs IH]; intros n st Hst; simpl; [split; [done|]; split; [done|]; split; [done|]; exists []; by rewrite app_nil_r|].
  destruct (Hs n x) as (H1 & H2 & H3 & l & H4 & H5); [by eexists|]. specialize (H1 st Hst).
  destruct (IH _ _ H1) as (K1 & K2 & K3 & l' & K4 & K5). split; [done|]. split; [congruence|]. split; [congruence|].
  exists (l ++ l'). rewrite K4, H4, app_assoc, fmap_app, H5, K5. unfold dht_count. by rewrite H2, H3.
Qed.

Lemma announce_value_step now v n :
  is_Some (n_storage n) -> announce_step (SqliteStorage.updateValueLastAnnounce now (Value.getId v)) (Dht_storeValue v) n (announce_value now v n).
Proof.
  intros [st Hst]. unfold announce_value, doStoreValue. rewrite Hst. simpl. set (m := MkNode _ _ _ _ _ _ _ _ _ _ _ _ _).
  destruct (ask_dhts (n_nextOp n) (Dht_storeValue v) m) as (E1 & E2 & _). destruct (ask_each (n_nextOp n) (Dht_storeValue v) m) as (l & E3 & E4).
  split; [|split; [done|split; [done|by exists l]]]. intros st' E. assert (st' = st) as -> by congruence.
  unfold ask, ask_dht. by destruct (n_dht4 m), (n_dht6 m).
Qed.

Lemma announce_peer_step now p n :
  is_Some (n_storage n) ->
  announce_step (SqliteStorage.updatePeerLastAnnounce now (p_publicKey p) (p_origin p)) (Dht_announcePeer p) n (announce_peer now p n).
Proof.
  intros [st Hst]. unfold announce_peer, doAnnouncePeer. rewrite Hst. simpl. set (m := MkNode _ _ _ _ _ _ _ _ _ _ _ _ _).
  destruct (ask_dhts (n_nextOp n) (Dht_announcePeer p) m) as (E1 & E2 & _). destruct (ask_each (n_nextOp n) (Dht_announcePeer p) m) as (l & E3 & E4).
  split; [|split; [done|split; [done|by exists l]]]. intros st' E. assert (st' = st) as -> by congruence.
  unfold ask, ask_dht. by destruct (n_dht4 m), (n_dht6 m).
Qed.

(** What the loop over the values makes of the rows. *)
Lemma update_values_row now vs st id :
  let st' := foldl (fun st v => SqliteStorage.updateValueLastAnnounce now (Value.getId v) st) st vs in
  peers st' = peers st /\ forall r', valores st' !! id = Some r' ->
    exists r, valores st !! id = Some r /\ vr_persistent r' = vr_persistent r /\
      (if bool_decide (id ∈ Value.getId <$> vs) then vr_announced r' = now else r' = r).
Proof.
  induction vs as [|v vs IH] using rev_ind; [split; [done|]; intros r' H; by exists r'|].
  rewrite fmap_app, foldl_app. simpl. destruct IH as [IHp IHv]. set (st1 := foldl _ st vs) in *. unfold SqliteStorage.updateValueLastAnnounce.
  destruct (valores st1 !! Value.getId v) as [r1|] eqn:E1; simpl; (split; [done|]); intros r'.
  - destruct (decide (id = Value.getId v)) as [->|Hne].
    + rewrite lookup_insert_eq. intros [= <-]. destruct (IHv r1 E1) as (r & Hr & Hp & _). exists r. split; [done|]. split; [done|].
      rewrite bool_decide_eq_true_2; [done|]. apply elem_of_app. right. by left.
    + rewrite lookup_insert_ne by done. intros Hr'. destruct (IHv r' Hr') as (r & Hr & Hp & Hc). exists r. split; [done|]. split; [done|].
      rewrite (bool_decide_ext _ (id ∈ Value.getId <$> vs)); [done|]. rewrite elem_of_app, list_elem_of_singleton. tauto.
  - intros Hr'. destruct (IHv r' Hr') as (r & Hr & Hp & Hc). exists r. split; [done|]. split; [done|].
    rewrite (bool_decide_ext _ (id ∈ Value.getId <$> vs)); [done|]. rewrite elem_of_app, list_elem_of_singleton.
    assert (id <> Value.getId v) by congruence. tauto.
Qed.

Lemma update_peers_values now ps st :
  valores (foldl (fun st p => SqliteStorage.updatePeerLastAnnounce now (p_publicKey p) (p_origin p) st) st ps) = valores st.
Proof. revert st. induction ps as [|p ps IH]; intros st; [done|]. simpl. by rewrite IH. Qed.

(** The rows whose values are announced again. *)
Definition due_rows (before : Z) st : list (Id * ValueRow) :=
  filter (fun kr => vr_persistent (snd kr) = true /\ vr_announced (snd kr) <= i64 before) (map_to_list (valores st)).

Lemma due_values before st :
  SqliteStorage.storage_ok st -> exists vs, SqliteStorage.getPersistentValues before st = Ok vs /\
    forall i r, (i, r) ∈ due_rows before st -> i ∈ Value.getId <$> vs.
Proof.
  intros Hok. destruct (SqliteStorage.collect_ok (SqliteStorage.row_value ∘ snd <$> due_rows before st)) as (vs & Ev & El).
  { apply Forall_fmap, Forall_forall. intros [i r] [_ Hr]%list_elem_of_filter. apply elem_of_map_to_list in Hr.
    destruct (Hok i r Hr) as (v & E & _). by exists v. }
  exists vs. split; [exact Ev|]. intros i r Hr. pose proof Hr as [_ Hin]%list_elem_of_filter. apply elem_of_map_to_list in Hin.
  destruct (Hok i r Hin) as (v & E & _ & <- & _). apply list_elem_of_fmap_2.
  assert (Ok v ∈ Ok <$> vs) as (v' & [= <-] & Hv)%list_elem_of_fmap; [|done].
  rewrite <- El, <- E. apply list_elem_of_fmap. by exists (Value.getId v, r).
Qed.

Lemma announced_not_due now before vs st :
  i64 before < now -> (forall i r, (i, r) ∈ due_rows before st -> i ∈ Value.getId <$> vs) ->
  due_rows before (foldl (fun st v => SqliteStorage.updateValueLastAnnounce now (Value.getId v) st) st vs) = [].
Proof.
  intros Hb Hd. apply filter_none, Forall_forall. intros [i r'] Hr' [Hper Hann]. simpl in *. apply elem_of_map_to_list in Hr'.
  destruct (proj2 (update_values_row now vs st i) r' Hr') as (r & Hr & Hpe & Hc).
  destruct (bool_decide (i ∈ Value.getId <$> vs)) eqn:Ei; [rewrite Hc in Hann; lia|].
  subst r'. apply bool_decide_eq_false in Ei. apply Ei, (Hd i r), list_elem_of_filter. split; [done|]. by apply elem_of_map_to_list.
Qed.

(** The regular job asks every DHT to store each persistent value and to announce
    each persistent peer that was not announced for long, once; no value is due when
    it has run. *)
Theorem persistent_announced now n st ps :
  let ts := u64 (now - Constants.MAX_VALUE_AGE + Constants.RE_ANNOUNCE_INTERVAL * 2) in
  n_storage n = Some st -> SqliteStorage.storage_ok st -> Constants.MAX_VALUE_AGE <= now < 2 ^ 63 ->
  SqliteStorage.getPersistentPeers ts st = Ok ps ->
  exists vs n' st' l, SqliteStorage.getPersistentValues ts st = Ok vs /\ persistentAnnounce now n = Done n' /\
    n_asked n' = n_asked n ++ l /\
    snd <$> l = flat_map (fun v => replicate (dht_count n) (Dht_storeValue v)) vs ++
                flat_map (fun p => replicate (dht_count n) (Dht_announcePeer p)) ps /\
    n_storage n' = Some st' /\ SqliteStorage.getPersistentValues ts st' = Ok [].
Proof.
  intros ts Hst Hok Hnow Hps.
  assert (i64 ts < now) as Ets.
  { unfold ts, Constants.MAX_VALUE_AGE, Constants.RE_ANNOUNCE_INTERVAL in *. rewrite (wrap_small 64), (swrap_small 64); lia. }
  destruct (due_values ts st Hok) as (vs & Evs & Hd).
  destruct (announce_loop (fun v => SqliteStorage.updateValueLastAnnounce now (Value.getId v)) Dht_storeValue (fun n v => announce_value now v n)
    vs n st (fun n v => announce_value_step now v n) Hst) as (A1 & A2 & A3 & l1 & A4 & A5).
  set (st1 := foldl _ st vs) in *. set (n1 := foldl _ n vs) in *.
  assert (peers st1 = peers st) as Hp1 by apply (update_values_row now vs st zero).
  assert (SqliteStorage.getPersistentPeers ts st1 = Ok ps) as Hps1 by (unfold SqliteStorage.getPersistentPeers; by rewrite Hp1).
  destruct (announce_loop (fun p => SqliteStorage.updatePeerLastAnnounce now (p_publicKey p) (p_origin p)) Dht_announcePeer
    (fun n p => announce_peer now p n) ps n1 st1 (fun n p => announce_peer_step now p n) A1) as (B1 & B2 & B3 & l2 & B4 & B5).
  eexists vs, (foldl (fun n p => announce_peer now p n) n1 ps), _, (l1 ++ l2). split; [done|]. split.
  { unfold persistentAnnounce, with_storage. rewrite Hst. cbn zeta. fold ts. rewrite Evs. cbn [of_result outcome_bind]. fold n1. rewrite A1.
    change (u64 (now - Constants.MAX_PEER_AGE + Constants.RE_ANNOUNCE_INTERVAL * 2)) with ts. by rewrite Hps1. }
  split; [by rewrite B4, A4, app_assoc|]. split; [rewrite fmap_app, A5, B5; unfold dht_count; by rewrite A2, A3|]. split; [exact B1|].
  assert (due_rows ts st1 = []) as E by exact (announced_not_due now ts vs st Ets Hd). unfold due_rows in E. unfold SqliteStorage.getPersistentValues.
  by rewrite (update_peers_values now ps st1), E.
Qed.

End node.
End Node.

(** ** Witnesses: a node with one address family, and one with both *)

Section examples.
#[local] Existing Instance toy_sodium.

Definition started (ipv4 ipv6 : bool) (st : SqliteStorage) : Node :=
  match Node.Node_new zero ipv4 ipv6 with
  | Ok n => snd (Node.start RoutingTable.RoutingTable_new RoutingTable.RoutingTable_new (Ok ()) (Ok st) n)
  | Throw _ => MkNode zero ipv4 ipv6 Stopped None None 0 None false [] ∅ 0 []
  end.

Lemma started_in_use ipv4 ipv6 st : ipv4 || ipv6 = true -> Node.in_use (fun l => l) (started ipv4 ipv6 st).
Proof.
  intros H. apply (Node.use_start _ zero ipv4 ipv6 (MkNode zero ipv4 ipv6 Stopped None None 0 None false [] ∅ 0 [])
    RoutingTable.RoutingTable_new RoutingTable.RoutingTable_new st); destruct ipv4, ipv6; done.
Qed.

Definition is_done {A} (x : outcome A) : bool := match x with Done _ => true | _ => false end.

Lemma done_inv {A} (x : outcome A) : is_done x = true -> exists a, x = Done a.
Proof. destruct x as [a|e|]; [by exists a|done..]. Qed.

(** What the witnesses look at of a node with a new operation. *)
Definition observe (x : outcome (Z * Node)) : option (Z * option Operation * nat) :=
  match x with Done (op, n) => Some (op, n_ops n !! op, length (n_asked n)) | _ => None end.

Lemma observe_inv x op o k : observe x = Some (op, o, k) -> exists n, x = Done (op, n) /\ n_ops n !! op = o /\ length (n_asked n) = k.
Proof. destruct x as [[op' n]|e|]; [|done..]. simpl. intros [= -> <- <-]. by exists n. Qed.

Lemma search0_begun :
  exists n, Node.findNode MAX_ID CONSERVATIVE (started true false (MkStorage ∅ ∅)) = Done (0, n) /\ n_ops n !! 0 = Some (Op_nodes CONSERVATIVE 0 [] None) /\ length (n_asked n) = 1%nat.
Proof. apply observe_inv. by vm_compute. Qed.

Lemma future_once_witness :
  exists n n' o, Node.findNode MAX_ID CONSERVATIVE (started true false (MkStorage ∅ ∅)) = Done (0, n) /\ Node.complete_all 7 [C_node 0 (Some self0)] n = Done n' /\
    n_ops n' !! 0 = Some o /\ Node.fulfilled o = true.
Proof.
  destruct search0_begun as (n & E & Ho & Hk). exists n.
  assert (n_asked (started true false (MkStorage ∅ ∅)) = []) as Hn by by vm_compute.
  destruct (Node.future_once (fun l => l) 5 7 _ 0 n (started_in_use true false _ eq_refl) (Node.begins_node _ _ _ _ _ _ _ E))
    as (o & Ho' & [[Hf _]|(Hf & l & Hl & _ & H)]).
  - assert (o = Op_nodes CONSERVATIVE 0 [] None) as -> by congruence. discriminate Hf.
  - assert (o = Op_nodes CONSERVATIVE 0 [] None) as -> by congruence. rewrite Hn in Hl. simpl in Hl. rewrite Hl in Hk.
    destruct (H [C_node 0 (Some self0)]) as (n' & o' & H1 & H2 & H3 & _); [done|by repeat constructor|rewrite Hk; done|].
    exists n', o'. split; [exact E|]. split; [exact H1|]. split; [exact H2|]. apply H3. by rewrite Hk.
Defined.

Lemma restart_never_answers_witness :
  exists n1 n2 n3 n4 o, Node.stop 6 [] [] (started true false (MkStorage ∅ ∅)) = Done n1 /\
    Node.start RoutingTable.RoutingTable_new RoutingTable.RoutingTable_new (Ok ()) (Ok (MkStorage ∅ ∅)) n1 = (Ok (), n2) /\
    Node.findNode MAX_ID CONSERVATIVE n2 = Done (0, n3) /\ Node.complete_all 7 [C_node 0 None] n3 = Done n4 /\
    n_ops n4 !! 0 = Some o /\ Node.fulfilled o = false.
Proof.
  set (again := fun n => Node.start RoutingTable.RoutingTable_new RoutingTable.RoutingTable_new (Ok ()) (Ok (MkStorage ∅ ∅)) n).
  assert (observe (outcome_bind (Node.stop 6 [] [] (started true false (MkStorage ∅ ∅))) (fun n => Node.findNode MAX_ID CONSERVATIVE (again n).2)) =
    Some (0, Some (Op_nodes CONSERVATIVE 0 [] None), 1%nat)) as (n3 & E3 & Ho & K3)%observe_inv by by vm_compute.
  assert ((match Node.stop 6 [] [] (started true false (MkStorage ∅ ∅)) with Done n => (fst (again n), length (n_asked (again n).2)) | _ => (Ok (), 0%nat) end) =
    (Ok (), 0%nat)) as K by by vm_compute.
  destruct (Node.stop 6 [] [] (started true false (MkStorage ∅ ∅))) as [n1|e|] eqn:E1; [|discriminate E3..]. cbn [outcome_bind] in E3.
  destruct (again n1) as [r n2] eqn:E2. cbn [fst snd] in K, E3. injection K as -> K. apply nil_length_inv in K.
  destruct (Node.restart_never_answers (fun l => l) 6 7 7 _ n1 n2 n3 0 [] [] _ _ _ (started_in_use true false _ eq_refl) E1 E2 (Node.begins_node _ _ _ _ _ _ _ E3))
    as (o & Ho' & [[Hf _]|(l & Hl & H)]).
  - assert (o = Op_nodes CONSERVATIVE 0 [] None) as -> by congruence. discriminate Hf.
  - assert (o = Op_nodes CONSERVATIVE 0 [] None) as -> by congruence. rewrite K in Hl. simpl in Hl. rewrite Hl in K3.
    destruct (H [C_node 0 None]) as (n4 & o' & H1 & H2 & H3); [done|by repeat constructor|rewrite K3; done|].
    exists n1, n2, n3, n4, o'. split; [reflexivity|]. split; [exact E2|]. split; [exact E3|]. split; [exact H1|]. split; [exact H2|exact H3].
Defined.

(** A node that waits for the answers of both DHTs to a lookup of a value. *)
Definition waiting0 : Node :=
  Node.set_op 0 (Op_value CONSERVATIVE 0 None None) (started true true (MkStorage ∅ ∅)).

Lemma find_value_newest_witness :
  exists n x, Node.complete_all 1000000000 (C_value 0 <$> [None; Some stored0]) waiting0 = Done n /\
    n_ops n !! 0 = Some (Op_value CONSERVATIVE 2 x (Some x)) /\ exists y, x = Some y /\ sequenceNumber stored0 <= sequenceNumber y.
Proof.
  destruct (Node.find_value_newest 1000000000 0 CONSERVATIVE waiting0 [None] (Some stored0) None (MkStorage ∅ ∅)) as (n & x & H1 & H2 & _ & _ & H3).
  - discriminate.
  - reflexivity.
  - reflexivity.
  - reflexivity.
  - intros v [?|[[= ->]|?%not_elem_of_nil]%elem_of_cons]%elem_of_cons; [discriminate|by vm_compute|done].
  - exists n, x. split; [exact H1|]. split; [exact H2|]. apply H3. right. right. by left.
Defined.

Lemma optimistic_answers_twice_witness :
  let n := Node.set_op 0 (Op_nodes OPTIMISTIC 0 [] None) (started true true (MkStorage ∅ ∅)) in
  exists n1, Node.complete 5 (C_node 0 (Some self0)) n = Done n1 /\ Node.complete 5 (C_node 0 None) n1 = Thrown Future_error.
Proof.
  intros n. destruct (Node.complete 5 (C_node 0 (Some self0)) n) as [n1|e|] eqn:E; [|discriminate E..]. exists n1. split; [reflexivity|].
  exact (proj2 (proj1 (Node.optimistic_answers_twice 5 0 n self0 stored0 n1 None None eq_refl) eq_refl E)).
Defined.

Lemma failed_start_is_running_witness :
  exists n, Node.start RoutingTable.RoutingTable_new RoutingTable.RoutingTable_new (Throw Runtime_error) (Ok (MkStorage ∅ ∅))
      (MkNode zero true false Stopped None None 0 None false [] ∅ 0 []) = (Throw Runtime_error, n) /\
    Node.findValue 5 MAX_ID CONSERVATIVE n = NullDereference.
Proof.
  set (n := MkNode zero true false Stopped None None 0 None false [] ∅ 0 []).
  destruct (Node.start RoutingTable.RoutingTable_new RoutingTable.RoutingTable_new (Throw Runtime_error) (Ok (MkStorage ∅ ∅)) n) as [r n'] eqn:E.
  assert (r = Throw Runtime_error) as -> by (apply (f_equal fst) in E; exact (eq_sym E)).
  exists n'. split; [reflexivity|]. assert (MAX_ID <> MIN_ID) as Hid by (intros H%(f_equal id_val); vm_compute in H; discriminate H).
  exact (proj1 (proj2 (Node.failed_start_is_running _ _ _ _ _ 5 MAX_ID CONSERVATIVE n n' eq_refl eq_refl Hid E))).
Defined.

(** The own peer, announced persistently. *)
Definition peer_storage : SqliteStorage := SqliteStorage.putPeer 1000000000 peer0 true true (MkStorage ∅ ∅).

Lemma find_peer_unpersists_witness :
  exists op n n' st r, Node.findPeer (fun l => l) 1000000001 (p_publicKey peer0) 1 CONSERVATIVE (started true false peer_storage) = Done (op, n) /\
    Node.complete 1000000002 (C_peers op []) n = Done n' /\
    n_storage n' = Some st /\ peers st !! SqliteStorage.peer_key peer0 = Some r /\ pr_persistent r = false.
Proof.
  assert (is_done (outcome_bind (Node.findPeer (fun l => l) 1000000001 (p_publicKey peer0) 1 CONSERVATIVE (started true false peer_storage))
    (fun r => Node.complete 1000000002 (C_peers r.1 []) r.2)) = true) as [n' E0]%done_inv by by vm_compute.
  destruct (Node.findPeer (fun l => l) 1000000001 (p_publicKey peer0) 1 CONSERVATIVE (started true false peer_storage)) as [[op n]|e|] eqn:E;
    [|discriminate E0..]. cbn [outcome_bind fst snd] in E0.
  destruct (Node.find_peer_unpersists (fun l => l) 1000000001 1000000002 (p_publicKey peer0) 1 CONSERVATIVE (started true false peer_storage) op n n'
    peer_storage [peer0] [] peer0) as (st & r & H); [reflexivity|vm_compute; reflexivity|by left|discriminate|exact E|exact E0|].
  exists op, n, n', st, r. split; [reflexivity|]. split; [exact E0|exact H].
Defined.

Lemma persistent_announced_witness :
  exists n l, Node.persistentAnnounce 2000000000 (started true true
      (snd (SqliteStorage.putValue 1000000000 stored0 (-1) true true (MkStorage ∅ ∅)))) = Done n /\
    n_asked n = l /\ snd <$> l = [Dht_storeValue stored0; Dht_storeValue stored0].
Proof.
  set (st := snd (SqliteStorage.putValue 1000000000 stored0 (-1) true true (MkStorage ∅ ∅))).
  assert (SqliteStorage.storage_ok st) as Hok by (apply SqliteStorage.putValue_ok; [intros i r H; simpl in H; by rewrite lookup_empty in H|apply stored0_storable]).
  destruct (Node.persistent_announced 2000000000 (started true true st) st [] eq_refl Hok) as (vs & n & st' & l & Hv & Hn & Hl & Hq & _).
  - vm_compute. split; [discriminate|reflexivity].
  - vm_compute. reflexivity.
  - exists n, l. split; [exact Hn|]. split; [exact Hl|]. rewrite Hq. vm_compute in Hv. injection Hv as <-. reflexivity.
Defined.
End examples.
