(* ===== verification/DhtOperations.v ===== *)
(** * The operations of the DHT: [DHT] of [src/core/dht.cc]

    [bootstrap], [fillHomeBucket], [update], [start], [stop] and the operations of
    the user ([findNode], [findValue], [storeValue], [findPeer], [announcePeer]),
    which start tasks, give them listeners and chain them.  A listener is the
    continuation of its task ([Listener]); it runs when the task ends, which the
    task manager calls once ([Tasks]).  The handler of the user that a listener
    calls is a number.  What the DHT asks of the task manager, the server and the
    disk is the list of effects, in order.

    The handlers of the calls of one bootstrap share a counter and a list of nodes;
    these are a [Round]. *)

From S2P Require Import Prelude Constants Ids Addresses Entries KBuckets RoutingTables KClosest Candidates Tasks Values Lookups.

(** The tasks that are given to the task manager. *)
Inductive TaskKind :=
  | T_home (injected : list NodeInfo)
  | T_nodeLookup (target : Id) (wantToken : bool)
  | T_valueLookup (target : Id) (opt : LookupOption)
  | T_peerLookup (target : Id) (expected : Z) (opt : LookupOption)
  | T_valueAnnounce (nodes : list CandidateNode) (value : Value)
  | T_peerAnnounce (nodes : list CandidateNode) (peer : PeerInfo)
  | T_bucketPing (task : PingRefreshTask).

Inductive Listener :=
  | L_home
  | L_none
  | L_maintenance (task : PingRefreshTask)
  | L_findNode (id : Id) (h : Z)
  | L_findValue (h : Z)
  | L_findPeer (h : Z)
  | L_storeValue (value : Value) (h : Z)
  | L_announcePeer (peer : PeerInfo) (h : Z)
  | L_announced (nodes : list CandidateNode) (h : Z).

(** What a handler of the user is called with. *)
Inductive DhtResult :=
  | R_node (ni : option NodeInfo)
  | R_value (v : option Value)
  | R_peers (ps : list PeerInfo)
  | R_nodes (l : list NodeInfo).

(** A task that has ended, as its listener sees it: its state, and of a lookup
    the entries of the closest set and what its result handler collected. *)
Record Ended := MkEnded {
  e_state : TaskState;
  e_closest : list CandidateNode;
  e_value : option Value;
  e_peers : list PeerInfo
}.

(** The jobs that [start] gives to the scheduler. *)
Inductive DhtJob := J_dequeue | J_update | J_random_ping | J_random_lookup.

Inductive Effect :=
  | E_task (id : Z) (kind : TaskKind)
  | E_nested (id nested : Z)
  | E_findNodeCall (round : Z) (to : NodeInfo) (target : Id)
  | E_pingCall (to : NodeInfo)
  | E_schedule (job : DhtJob) (delay period : Z)
  | E_reachability (now : Z)
  | E_save
  | E_cancelAll.

Record Round := MkRound { rd_nodes : list NodeInfo; rd_count : Z; rd_len : Z }.

Record Control := MkControl {
  k_type : DHT_Type;
  k_self : NodeInfo;
  k_running : bool;
  k_table : RoutingTable;
  k_bootstrapNodes : list NodeInfo;
  k_bootstrapping : bool;
  k_lastBootstrap : Z;
  k_lastSave : Z;
  k_persist : bool;                 (* [persistFile] is not empty *)
  k_rounds : gmap Z Round;
  k_tasks : gmap Z Listener;        (* the tasks that have not ended *)
  k_next : Z;                       (* the next number of a task or a round *)
  k_effects : list Effect;
  k_issued : list Z;                (* the handlers of the user so far *)
  k_completed : list (Z * DhtResult);
  k_dropped : list Z                (* the handlers that will not be called *)
}.

Module DhtOperations.
Implicit Types (c : Control).

(** ** Definitions *)

Definition set_table (rt : RoutingTable) c : Control :=
  MkControl (k_type c) (k_self c) (k_running c) rt (k_bootstrapNodes c) (k_bootstrapping c) (k_lastBootstrap c) (k_lastSave c) (k_persist c)
    (k_rounds c) (k_tasks c) (k_next c) (k_effects c) (k_issued c) (k_completed c) (k_dropped c).
Definition set_running (b : bool) c : Control :=
  MkControl (k_type c) (k_self c) b (k_table c) (k_bootstrapNodes c) (k_bootstrapping c) (k_lastBootstrap c) (k_lastSave c) (k_persist c)
    (k_rounds c) (k_tasks c) (k_next c) (k_effects c) (k_issued c) (k_completed c) (k_dropped c).
Definition set_nodes (l : list NodeInfo) c : Control :=
  MkControl (k_type c) (k_self c) (k_running c) (k_table c) l (k_bootstrapping c) (k_lastBootstrap c) (k_lastSave c) (k_persist c)
    (k_rounds c) (k_tasks c) (k_next c) (k_effects c) (k_issued c) (k_completed c) (k_dropped c).
Definition set_bootstrapping (b : bool) c : Control :=
  MkControl (k_type c) (k_self c) (k_running c) (k_table c) (k_bootstrapNodes c) b (k_lastBootstrap c) (k_lastSave c) (k_persist c)
    (k_rounds c) (k_tasks c) (k_next c) (k_effects c) (k_issued c) (k_completed c) (k_dropped c).
Definition set_lastBootstrap (t : Z) c : Control :=
  MkControl (k_type c) (k_self c) (k_running c) (k_table c) (k_bootstrapNodes c) (k_bootstrapping c) t (k_lastSave c) (k_persist c)
    (k_rounds c) (k_tasks c) (k_next c) (k_effects c) (k_issued c) (k_completed c) (k_dropped c).
Definition set_lastSave (t : Z) c : Control :=
  MkControl (k_type c) (k_self c) (k_running c) (k_table c) (k_bootstrapNodes c) (k_bootstrapping c) (k_lastBootstrap c) t (k_persist c)
    (k_rounds c) (k_tasks c) (k_next c) (k_effects c) (k_issued c) (k_completed c) (k_dropped c).
Definition set_rounds (m : gmap Z Round) (n : Z) c : Control :=
  MkControl (k_type c) (k_self c) (k_running c) (k_table c) (k_bootstrapNodes c) (k_bootstrapping c) (k_lastBootstrap c) (k_lastSave c) (k_persist c)
    m (k_tasks c) n (k_effects c) (k_issued c) (k_completed c) (k_dropped c).
Definition set_tasks (m : gmap Z Listener) (n : Z) c : Control :=
  MkControl (k_type c) (k_self c) (k_running c) (k_table c) (k_bootstrapNodes c) (k_bootstrapping c) (k_lastBootstrap c) (k_lastSave c) (k_persist c)
    (k_rounds c) m n (k_effects c) (k_issued c) (k_completed c) (k_dropped c).
Definition emit (l : list Effect) c : Control :=
  MkControl (k_type c) (k_self c) (k_running c) (k_table c) (k_bootstrapNodes c) (k_bootstrapping c) (k_lastBootstrap c) (k_lastSave c) (k_persist c)
    (k_rounds c) (k_tasks c) (k_next c) (k_effects c ++ l) (k_issued c) (k_completed c) (k_dropped c).
Definition issue (h : Z) c : Control :=
  MkControl (k_type c) (k_self c) (k_running c) (k_table c) (k_bootstrapNodes c) (k_bootstrapping c) (k_lastBootstrap c) (k_lastSave c) (k_persist c)
    (k_rounds c) (k_tasks c) (k_next c) (k_effects c) (h :: k_issued c) (k_completed c) (k_dropped c).
Definition call_handler (h : Z) (r : DhtResult) c : Control :=
  MkControl (k_type c) (k_self c) (k_running c) (k_table c) (k_bootstrapNodes c) (k_bootstrapping c) (k_lastBootstrap c) (k_lastSave c) (k_persist c)
    (k_rounds c) (k_tasks c) (k_next c) (k_effects c) (k_issued c) ((h, r) :: k_completed c) (k_dropped c).
Definition drop_handler (h : Z) c : Control :=
  MkControl (k_type c) (k_self c) (k_running c) (k_table c) (k_bootstrapNodes c) (k_bootstrapping c) (k_lastBootstrap c) (k_lastSave c) (k_persist c)
    (k_rounds c) (k_tasks c) (k_next c) (k_effects c) (k_issued c) (k_completed c) (h :: k_dropped c).

Definition DHT_new (type : DHT_Type) (self : NodeInfo) (persist : bool) : Control :=
  MkControl type self false RoutingTable.RoutingTable_new [] false 0 0 persist ∅ ∅ 0 [] [] [] [].

(** A new task with its listener, given to the task manager, and a list of them. *)
Definition add_task (kind : TaskKind) (l : Listener) c : Control :=
  emit [E_task (k_next c) kind] (set_tasks (<[k_next c := l]> (k_tasks c)) (k_next c + 1) c).

Definition add_tasks (l : list (TaskKind * Listener)) c : Control := foldl (fun c '(kind, l) => add_task kind l c) c l.

Section operations.
(** The ids that [Id::random()] returns. *)
Variable random : nat -> Id.

Definition bootstrap (now : Z) c : Control :=
  if negb (k_running c) || bool_decide (k_bootstrapNodes c = []) ||
     (u64 (now - k_lastBootstrap c) <? Constants.BOOTSTRAP_MIN_INTERVAL) then c
  else if k_bootstrapping c then c
  else
    let round := k_next c in
    let c := set_bootstrapping true c in
    let c := set_rounds (<[round := MkRound [] 0 (Z.of_nat (length (k_bootstrapNodes c)))]> (k_rounds c)) (round + 1) c in
    emit (imap (fun i n => E_findNodeCall round n (random i)) (k_bootstrapNodes c)) c.

Definition bootstrap_from (now : Z) (ni : NodeInfo) c : Control :=
  if negb (canUseSocketAddress (k_type c) (sockaddr ni)) || bool_decide (nodeId ni = nodeId (k_self c)) then c
  else if existsb (fun item => ni_equals item ni) (k_bootstrapNodes c) then c
  else bootstrap now (set_lastBootstrap 0 (set_nodes (k_bootstrapNodes c ++ [NodeInfo_copy ni]) c)).

Definition fillHomeBucket (nodes : list NodeInfo) c : Control :=
  if (RoutingTable.getNumBucketEntries (k_table c) =? 0) && bool_decide (nodes = []) then set_bootstrapping false c
  else add_task (T_home nodes) L_home c.

(** The state change handler of a call of a round, for a final state; [nodes] is
    missing when the answer is not a [FindNodeResponse]. *)
Definition call_ended (now round : Z) (nodes : option (list NodeInfo)) c : Control :=
  match k_rounds c !! round with
  | None => c
  | Some r =>
      let r := MkRound (rd_nodes r ++ default [] nodes) (rd_count r + 1) (rd_len r) in
      let c := set_rounds (<[round := r]> (k_rounds c)) (k_next c) c in
      if rd_count r =? rd_len r then fillHomeBucket (rd_nodes r) (set_lastBootstrap now c) else c
  end.

(** The listener of the lookup of [fillHomeBucket]; the lookups that [fillBuckets]
    starts with [findNode] have a handler that does nothing. *)
Definition home_filled (now : Z) c : Control :=
  let c := set_bootstrapping false c in
  if negb (k_running c) then c
  else if Z.of_nat Constants.MAX_ENTRIES_PER_BUCKET + 2 <? RoutingTable.getNumBucketEntries (k_table c) then
    let '(rt, targets) := RoutingTable.fillBuckets now random (k_table c) in
    add_tasks ((fun '(_, target) => (T_nodeLookup target false, L_none)) <$> targets) (set_table rt c)
  else c.

(** The entries of a routing table as nodes. *)
Definition node_of (e : SpE) : NodeInfo := node (obj e).

Definition run_listener (now id : Z) (l : Listener) (e : Ended) c : option Control :=
  match l with
  | L_none => Some c
  | L_home => Some (home_filled now c)
  | L_maintenance task => Some (set_table (RoutingTable.pingMaintenance_ended task (k_table c)) c)
  | L_findNode target h => r ← RoutingTable.getEntry (k_table c) target; Some (call_handler h (R_node (node_of <$> r)) c)
  | L_findValue h => Some (call_handler h (R_value (e_value e)) c)
  | L_findPeer h => Some (call_handler h (R_peers (e_peers e)) c)
  | L_storeValue v h =>
      Some (if negb (bool_decide (e_state e = FINISHED)) then drop_handler h c
            else match e_closest e with
                 | [] => call_handler h (R_nodes []) c
                 | nodes => add_task (T_valueAnnounce nodes v) (L_announced nodes h) (emit [E_nested id (k_next c)] c)
                 end)
  | L_announcePeer p h =>
      Some (if negb (bool_decide (e_state e = FINISHED)) then drop_handler h c
            else match e_closest e with
                 | [] => call_handler h (R_nodes []) c
                 | nodes => add_task (T_peerAnnounce nodes p) (L_announced nodes h) (emit [E_nested id (k_next c)] c)
                 end)
  | L_announced nodes h => Some (call_handler h (R_nodes (cn_info <$> nodes)) c)
  end.

(** The task manager ends a task, which calls its listener. *)
Definition task_ended (now id : Z) (e : Ended) c : option Control :=
  match k_tasks c !! id with
  | None => Some c
  | Some l => run_listener now id l e (set_tasks (delete id (k_tasks c)) (k_next c) c)
  end.

(** ** The operations of the user *)

Definition findNode (id : Id) (h : Z) c : Control := add_task (T_nodeLookup id false) (L_findNode id h) (issue h c).
Definition findValue (id : Id) (opt : LookupOption) (h : Z) c : Control := add_task (T_valueLookup id opt) (L_findValue h) (issue h c).
Definition storeValue `{Sodium} (v : Value) (h : Z) c : Control := add_task (T_nodeLookup (Value.getId v) true) (L_storeValue v h) (issue h c).
Definition findPeer (id : Id) (expected : Z) (opt : LookupOption) (h : Z) c : Control :=
  add_task (T_peerLookup id expected opt) (L_findPeer h) (issue h c).
Definition announcePeer (p : PeerInfo) (h : Z) c : Control :=
  add_task (T_nodeLookup (p_publicKey p) true) (L_announcePeer p h) (issue h c).

(** ** The regular work *)

Definition bootstrapIds c : list Id := nodeId <$> k_bootstrapNodes c.

Definition update (now : Z) c : option Control :=
  if negb (k_running c) then Some c else
  let c := emit [E_reachability now] c in
  '(rt, tasks) ← RoutingTable._maintenance (nodeId (k_self c)) now (bootstrapIds c) (k_table c);
  let c := add_tasks ((fun t => (T_bucketPing t, L_maintenance t)) <$> tasks) (set_table rt c) in
  let c := if (RoutingTable.getNumBucketEntries (k_table c) <? Constants.BOOTSTRAP_IF_LESS_THAN_X_PEERS) ||
              (Constants.SELF_LOOKUP_INTERVAL <? u64 (now - k_lastBootstrap c)) then bootstrap now c else c in
  Some (if k_persist c && (Constants.ROUTING_TABLE_PERSIST_INTERVAL <? u64 (now - k_lastSave c))
        then set_lastSave now (emit [E_save] c) else c).

(** The jobs of the scheduler besides [update]: a ping of a random entry when no
    call is active, and a lookup of a random id. *)
Definition random_ping (activeCalls : Z) (entry : option SpE) c : Control :=
  if 0 <? activeCalls then c else match entry with Some e => emit [E_pingCall (node_of e)] c | None => c end.

Definition random_lookup (target : Id) c : Control := add_task (T_nodeLookup target false) L_none c.

(** The ping tasks for the buckets that are not empty; the constructor restarts the
    refresh timer of the bucket. *)
Fixpoint ping_cached (now : Z) (bs : list KBucket) : list KBucket * list PingRefreshTask :=
  match bs with
  | [] => ([], [])
  | b :: bs =>
      let '(bs', tasks) := ping_cached now bs in
      if bool_decide (entries b = []) then (b :: bs', tasks)
      else let '(task, b') := PingRefreshTask_new now b [removeOnTimeout_opt] in (b' :: bs', task :: tasks)
  end.

(** [start]; [loaded] are the entries of the saved routing table. *)
Definition start (now : Z) (nodes : list NodeInfo) (loaded : list SpE) c : option Control :=
  if k_running c then Some c else
  rt ← (if k_persist c then RoutingTable.load_entries (nodeId (k_self c)) now loaded (k_table c) else Some (k_table c));
  let c := set_nodes (k_bootstrapNodes c ++ List.filter (fun n => canUseSocketAddress (k_type c) (sockaddr n)) nodes) c in
  let c := set_running true c in
  let c := emit [E_schedule J_dequeue 5000 Constants.DHT_UPDATE_INTERVAL] c in
  let '(bs, tasks) := ping_cached now (buckets rt) in
  let c := add_tasks ((fun t => (T_bucketPing t, L_none)) <$> tasks) (set_table (RoutingTable.set_buckets rt bs) c) in
  let c := set_lastSave (u64 (now - Constants.ROUTING_TABLE_PERSIST_INTERVAL + 120 * 1000)) (bootstrap now c) in
  Some (emit [E_schedule J_update 5000 Constants.DHT_UPDATE_INTERVAL;
              E_schedule J_random_ping Constants.RANDOM_PING_INTERVAL Constants.RANDOM_PING_INTERVAL;
              E_schedule J_random_lookup Constants.RANDOM_LOOKUP_INTERVAL Constants.RANDOM_LOOKUP_INTERVAL] c).

Definition stop c : Control :=
  if negb (k_running c) then c else
  let c := set_running false c in
  emit [E_cancelAll] (if k_persist c then emit [E_save] c else c).

(** ** Runs *)

(** What happens to a DHT: calls of its operations, ends of its calls and tasks. *)
Inductive Event :=
  | ev_start (now : Z) (nodes : list NodeInfo) (loaded : list SpE)
  | ev_stop
  | ev_update (now : Z)
  | ev_bootstrap (now : Z) (ni : NodeInfo)
  | ev_call_ended (now round : Z) (nodes : option (list NodeInfo))
  | ev_task_ended (now id : Z) (e : Ended)
  | ev_random_ping (activeCalls : Z) (entry : option SpE)
  | ev_random_lookup (target : Id)
  | ev_findNode (id : Id) (h : Z)
  | ev_findValue (id : Id) (opt : LookupOption) (h : Z)
  | ev_storeValue (v : Value) (h : Z)
  | ev_findPeer (id : Id) (expected : Z) (opt : LookupOption) (h : Z)
  | ev_announcePeer (p : PeerInfo) (h : Z).

Section runs.
Context `{Sodium}.

Definition exec (ev : Event) c : option Control :=
  match ev with
  | ev_start now nodes loaded => start now nodes loaded c
  | ev_stop => Some (stop c)
  | ev_update now => update now c
  | ev_bootstrap now ni => Some (bootstrap_from now ni c)
  | ev_call_ended now round nodes => Some (call_ended now round nodes c)
  | ev_task_ended now id e => task_ended now id e c
  | ev_random_ping n entry => Some (random_ping n entry c)
  | ev_random_lookup target => Some (random_lookup target c)
  | ev_findNode id h => Some (findNode id h c)
  | ev_findValue id opt h => Some (findValue id opt h c)
  | ev_storeValue v h => Some (storeValue v h c)
  | ev_findPeer id expected opt h => Some (findPeer id expected opt h c)
  | ev_announcePeer p h => Some (announcePeer p h c)
  end.

Fixpoint run (evs : list Event) c : option Control :=
  match evs with [] => Some c | ev :: evs => c' ← exec ev c; run evs c' end.

Inductive reachable : Control -> Prop :=
  | reachable_new type self persist : reachable (DHT_new type self persist)
  | reachable_step ev c c' : reachable c -> exec ev c = Some c' -> reachable c'.
End runs.

End operations.

(** What the listeners and the rounds still owe: the handlers that wait for a task,
    the lookups of [fillHomeBucket] that run and the rounds with calls to come. *)
Definition collect {V A} (f : V -> list A) (m : gmap Z V) : list A := map_to_list m ≫= fun kv => f (snd kv).

Definition handler_of (l : Listener) : list Z :=
  match l with
  | L_findNode _ h | L_findValue h | L_findPeer h | L_storeValue _ h | L_announcePeer _ h | L_announced _ h => [h]
  | L_home | L_none | L_maintenance _ => []
  end.

Definition home_of (l : Listener) : list unit := match l with L_home => [tt] | _ => [] end.
Definition open_of (r : Round) : list unit := if rd_count r <? rd_len r then [tt] else [].

Definition waiting c : list Z := collect handler_of (k_tasks c).
Definition homes c : nat := length (collect home_of (k_tasks c)).
Definition open_rounds c : nat := length (collect open_of (k_rounds c)).

(** ** Lemmas *)

Lemma collect_insert {V A} (f : V -> list A) (m : gmap Z V) k v :
  m !! k = None -> collect f (<[k := v]> m) ≡ₚ f v ++ collect f m.
Proof. intros E. unfold collect. by rewrite map_to_list_insert, bind_cons by done. Qed.

Lemma collect_delete {V A} (f : V -> list A) (m : gmap Z V) k v :
  m !! k = Some v -> collect f m ≡ₚ f v ++ collect f (delete k m).
Proof. intros E. unfold collect. by rewrite <- (map_to_list_delete m k v), bind_cons by done. Qed.

Lemma collect_update {V A} (f : V -> list A) (m : gmap Z V) k v :
  collect f (<[k := v]> m) ≡ₚ f v ++ collect f (delete k m).
Proof. rewrite <- insert_delete_eq. apply collect_insert, lookup_delete_eq. Qed.

Definition below {V} (n : Z) (m : gmap Z V) : Prop := map_Forall (fun k _ => k < n) m.

Lemma below_fresh {V} n (m : gmap Z V) : below n m -> m !! n = None.
Proof. intros H. apply eq_None_not_Some. intros [v E]. specialize (H _ _ E). simpl in H. lia. Qed.

Lemma below_insert {V} n (m : gmap Z V) k v : below n m -> k < n -> below n (<[k := v]> m).
Proof. intros. by apply map_Forall_insert_2. Qed.

Lemma below_mono {V} n n' (m : gmap Z V) : below n m -> n <= n' -> below n' m.
Proof. intros H ? k v E. specialize (H k v E). simpl in *. lia. Qed.

(** The books of a state in the middle of an operation: [hs] are handlers and [n]
    the count of bootstraps that the operation still holds itself. *)
Record accounted (hs : list Z) (n : nat) c : Prop := {
  acc_handlers : hs ++ waiting c ++ (k_completed c).*1 ++ k_dropped c ≡ₚ k_issued c;
  acc_bootstrap : (n + open_rounds c + homes c = if k_bootstrapping c then 1 else 0)%nat;
  acc_tasks : below (k_next c) (k_tasks c);
  acc_rounds : below (k_next c) (k_rounds c)
}.

(** Changes outside the books. *)
Lemma accounted_frame hs n c c' :
  accounted hs n c ->
  k_tasks c' = k_tasks c -> k_rounds c' = k_rounds c -> k_next c' = k_next c -> k_bootstrapping c' = k_bootstrapping c ->
  k_issued c' = k_issued c -> k_completed c' = k_completed c -> k_dropped c' = k_dropped c -> accounted hs n c'.
Proof.
  intros [H1 H2 H3 H4] E1 E2 E3 E4 E5 E6 E7. split; unfold waiting, homes, open_rounds in *.
  - by rewrite E1, E5, E6, E7.
  - by rewrite E1, E2, E4.
  - by rewrite E1, E3.
  - by rewrite E2, E3.
Qed.

Ltac frame := eapply accounted_frame; [eassumption|reflexivity..].

Lemma add_task_accounted kind l hs n c :
  accounted (handler_of l ++ hs) (length (home_of l) + n) c -> accounted hs n (add_task kind l c).
Proof.
  intros [H1 H2 H3 H4]. pose proof (below_fresh _ _ H3) as F. split; unfold waiting, homes, open_rounds in *; simpl.
  - rewrite collect_insert by done. rewrite <- H1. rewrite <- !app_assoc. solve_Permutation.
  - rewrite (collect_insert home_of), length_app by done. lia.
  - apply below_insert; [eapply below_mono; [done|lia]|lia].
  - eapply below_mono; [done|lia].
Qed.

Lemma add_tasks_accounted l hs n c :
  Forall (fun '(_, l) => handler_of l = [] /\ home_of l = []) l -> accounted hs n c -> accounted hs n (add_tasks l c).
Proof.
  intros Hl. revert c. induction Hl as [|[kind l'] l [E1 E2] _ IH]; intros c H; [done|].
  apply IH, add_task_accounted. by rewrite E1, E2.
Qed.

Lemma remove_task_accounted id l hs n c :
  k_tasks c !! id = Some l -> accounted hs n c ->
  accounted (handler_of l ++ hs) (length (home_of l) + n) (set_tasks (delete id (k_tasks c)) (k_next c) c).
Proof.
  intros E [H1 H2 H3 H4]. split; unfold waiting, homes, open_rounds in *; simpl; [| |by apply map_Forall_delete|done].
  - rewrite (collect_delete _ _ _ _ E) in H1. rewrite <- H1, <- !app_assoc. solve_Permutation.
  - rewrite (collect_delete home_of _ _ _ E), length_app in H2. lia.
Qed.

Lemma issue_accounted h hs n c : accounted hs n c -> accounted (h :: hs) n (issue h c).
Proof. intros [H1 H2 H3 H4]. split; try done. simpl. by rewrite <- H1. Qed.

Lemma call_accounted h r hs n c : accounted (h :: hs) n c -> accounted hs n (call_handler h r c).
Proof. intros [H1 H2 H3 H4]. split; try done. simpl in *. rewrite <- H1. unfold waiting. solve_Permutation. Qed.

Lemma drop_accounted h hs n c : accounted (h :: hs) n c -> accounted hs n (drop_handler h c).
Proof. intros [H1 H2 H3 H4]. split; try done. simpl in *. rewrite <- H1. unfold waiting. solve_Permutation. Qed.

Lemma bootstrapped_accounted hs c : accounted hs 1 c -> accounted hs 0 (set_bootstrapping false c).
Proof.
  intros [H1 H2 H3 H4]. split; try done. unfold open_rounds, homes in *. simpl in *. destruct (k_bootstrapping c); lia.
Qed.

#[local] Hint Resolve issue_accounted call_accounted drop_accounted bootstrapped_accounted add_task_accounted : core.

Section invariant.
Variable random : nat -> Id.

Lemma bootstrap_accounted now hs c : accounted hs 0 c -> accounted hs 0 (bootstrap random now c).
Proof.
  intros H. unfold bootstrap. destruct (negb _ || _ || _) eqn:G; [done|].
  apply orb_false_elim in G as [[_ G]%orb_false_elim _]. apply bool_decide_eq_false in G.
  destruct (k_bootstrapping c) eqn:B; [done|]. destruct H as [H1 H2 H3 H4]. rewrite B in H2.
  pose proof (below_fresh _ _ H4) as F. split; unfold waiting, homes, open_rounds in *; simpl; [done| | |].
  - rewrite (collect_insert open_of), length_app by done. unfold open_of at 1. simpl.
    destruct (k_bootstrapNodes c); [done|]. simpl. lia.
  - eapply below_mono; [done|lia].
  - apply below_insert; [eapply below_mono; [done|lia]|lia].
Qed.

Lemma bootstrap_from_accounted now ni hs c : accounted hs 0 c -> accounted hs 0 (bootstrap_from random now ni c).
Proof.
  intros H. unfold bootstrap_from. destruct (_ || _); [done|]. destruct (existsb _ _); [done|].
  apply bootstrap_accounted. frame.
Qed.

Lemma fillHomeBucket_accounted nodes hs c : accounted hs 1 c -> accounted hs 0 (fillHomeBucket nodes c).
Proof. intros H. unfold fillHomeBucket. destruct (_ && _); auto. Qed.

Lemma call_ended_accounted now round nodes hs c : accounted hs 0 c -> accounted hs 0 (call_ended now round nodes c).
Proof.
  intros [H1 H2 H3 H4]. unfold call_ended. destruct (k_rounds c !! round) as [r|] eqn:E; [|done].
  set (r' := MkRound _ _ _). assert (round < k_next c) by exact (H4 _ _ E).
  assert (accounted hs (length (open_of r) - length (open_of r')) (set_rounds (<[round := r']> (k_rounds c)) (k_next c) c)) as A.
  { split; unfold waiting, homes, open_rounds in *; simpl; try done; [|by apply below_insert].
    rewrite (collect_delete open_of _ _ _ E), length_app in H2.
    rewrite (collect_update open_of), length_app. unfold open_of in *. subst r'. simpl.
    destruct (Z.ltb_spec (rd_count r) (rd_len r)), (Z.ltb_spec (rd_count r + 1) (rd_len r)); simpl in *; lia. }
  unfold open_of in A. simpl in A. simpl.
  destruct (Z.eqb_spec (rd_count r + 1) (rd_len r)) as [E1|E1].
  - apply fillHomeBucket_accounted. rewrite E1, Z.ltb_irrefl in A.
    replace (rd_count r <? rd_len r) with true in A by (symmetry; apply Z.ltb_lt; lia). frame.
  - destruct (Z.ltb_spec (rd_count r) (rd_len r)), (Z.ltb_spec (rd_count r + 1) (rd_len r)); [exact A|lia|exact A|exact A].
Qed.

Lemma home_filled_accounted now hs c : accounted hs 1 c -> accounted hs 0 (home_filled random now c).
Proof.
  intros H. apply bootstrapped_accounted in H. unfold home_filled. destruct (negb _); [done|]. destruct (_ <? _); [|done].
  destruct (RoutingTable.fillBuckets _ _ _) as [rt targets]. apply add_tasks_accounted; [|frame].
  apply Forall_fmap, Forall_true. by intros [].
Qed.

Lemma task_ended_accounted now id e c c' :
  accounted [] 0 c -> task_ended random now id e c = Some c' -> accounted [] 0 c'.
Proof.
  unfold task_ended. intros H. destruct (k_tasks c !! id) as [l|] eqn:E; [|by intros [= <-]].
  apply (remove_task_accounted _ _ _ _ _ E) in H. revert H. generalize (set_tasks (delete id (k_tasks c)) (k_next c) c).
  clear c E. intros c H. destruct l; simpl in *; intros E; simplify_option_eq; auto using home_filled_accounted.
  - frame.
  - destruct (e_closest e); [auto|]. apply add_task_accounted. frame.
  - destruct (e_closest e); [auto|]. apply add_task_accounted. frame.
Qed.

Lemma update_accounted now hs c c' : accounted hs 0 c -> update random now c = Some c' -> accounted hs 0 c'.
Proof.
  intros H. unfold update. destruct (negb _); [by intros [= <-]|].
  destruct (RoutingTable._maintenance _ _ _ _) as [[rt tasks]|]; [|done]. intros [= <-].
  set (c1 := add_tasks _ _). assert (accounted hs 0 c1) as H1.
  { apply add_tasks_accounted; [by apply Forall_fmap, Forall_true|frame]. }
  set (c2 := if _ || _ then _ else c1).
  assert (accounted hs 0 c2) as H2 by (unfold c2; destruct (_ || _); auto using bootstrap_accounted).
  destruct (_ && _); [frame|done].
Qed.

Lemma start_accounted now nodes loaded hs c c' : accounted hs 0 c -> start random now nodes loaded c = Some c' -> accounted hs 0 c'.
Proof.
  intros H. unfold start. destruct (k_running c); [by intros [= <-]|].
  destruct (if k_persist c then _ else _) as [rt|]; [|done]. simpl.
  destruct (ping_cached now (buckets rt)) as [bs tasks]. intros [= <-].
  match goal with |- accounted _ _ (emit _ (set_lastSave _ (bootstrap _ _ ?d))) => assert (accounted hs 0 d) as H1 end.
  { apply add_tasks_accounted; [by apply Forall_fmap, Forall_true|frame]. }
  apply (bootstrap_accounted now) in H1. frame.
Qed.

Lemma exec_accounted `{Sodium} ev c c' : accounted [] 0 c -> exec random ev c = Some c' -> accounted [] 0 c'.
Proof.
  intros Hc. destruct ev; simpl; intros E;
    try (injection E as <-); eauto using start_accounted, update_accounted, bootstrap_from_accounted, call_ended_accounted, task_ended_accounted.
  - unfold stop. destruct (negb _); [done|]. destruct (k_persist _); frame.
  - unfold random_ping. destruct (_ <? _); [done|]. destruct entry; [frame|done].
  - apply add_task_accounted, Hc.
  - apply add_task_accounted, issue_accounted, Hc.
  - apply add_task_accounted, issue_accounted, Hc.
  - apply add_task_accounted, issue_accounted, Hc.
  - apply add_task_accounted, issue_accounted, Hc.
  - apply add_task_accounted, issue_accounted, Hc.
Qed.

Lemma reachable_run `{Sodium} evs c : reachable random c -> reachable random (default c (run random evs c)).
Proof.
  intros R. destruct (run random evs c) as [c'|] eqn:E; [|done]. simpl. revert c R E.
  induction evs as [|ev evs IH]; simpl; intros c R E; [congruence|].
  destruct (exec random ev c) as [c1|] eqn:E1; [|done]. apply (IH c1); [|done]. by eapply reachable_step.
Qed.

Lemma reachable_accounted `{Sodium} c : reachable random c -> accounted [] 0 c.
Proof. induction 1 as [|ev c c' _ IH E]; [by split|by eapply exec_accounted]. Qed.

(** The ends of the calls of a round, each with its time and the nodes of the
    answer: the last one starts the lookup with all the nodes. *)
Definition calls_ended (round : Z) (answers : list (Z * option (list NodeInfo))) c : Control :=
  foldl (fun c a => call_ended (fst a) round (snd a) c) c answers.

Definition answered (answers : list (Z * option (list NodeInfo))) : list NodeInfo := answers ≫= fun a => default [] (snd a).

Lemma calls_ended_fill round answers t a r c :
  k_rounds c !! round = Some r -> rd_count r + Z.of_nat (length answers) + 1 = rd_len r ->
  exists rounds, calls_ended round (answers ++ [(t, a)]) c =
    fillHomeBucket (rd_nodes r ++ answered (answers ++ [(t, a)])) (set_lastBootstrap t (set_rounds rounds (k_next c) c)).
Proof.
  revert r c. induction answers as [|[t1 a1] answers IH]; intros r c E L; simpl in L; unfold calls_ended, answered; simpl.
  - unfold call_ended. rewrite E. simpl. replace (rd_count r + 1 =? rd_len r) with true by (symmetry; apply Z.eqb_eq; lia).
    rewrite app_nil_r. by eexists.
  - set (r1 := MkRound (rd_nodes r ++ default [] a1) (rd_count r + 1) (rd_len r)).
    assert (call_ended t1 round a1 c = set_rounds (<[round := r1]> (k_rounds c)) (k_next c) c) as ->.
    { unfold call_ended. rewrite E. simpl. by replace (rd_count r + 1 =? rd_len r) with false by (symmetry; apply Z.eqb_neq; lia). }
    rewrite app_assoc. change (rd_nodes r ++ default [] a1) with (rd_nodes r1).
    edestruct (IH r1 (set_rounds (<[round := r1]> (k_rounds c)) (k_next c) c)) as [rounds E1]; [by simpl; simplify_map_eq|simpl; lia|].
    eexists. exact E1.
Qed.

Lemma bootstrap_begins now c :
  k_running c = true -> k_bootstrapNodes c <> [] -> Constants.BOOTSTRAP_MIN_INTERVAL <= u64 (now - k_lastBootstrap c) ->
  k_bootstrapping c = false ->
  let c1 := bootstrap random now c in
  k_rounds c1 !! k_next c = Some (MkRound [] 0 (Z.of_nat (length (k_bootstrapNodes c)))) /\ k_next c1 = k_next c + 1 /\
  k_bootstrapping c1 = true /\ k_tasks c1 = k_tasks c /\ k_table c1 = k_table c /\
  k_effects c1 = k_effects c ++ imap (fun i n => E_findNodeCall (k_next c) n (random i)) (k_bootstrapNodes c).
Proof.
  intros R N I B c1. subst c1. unfold bootstrap. rewrite R, B, bool_decide_eq_false_2 by done.
  replace (u64 (now - k_lastBootstrap c) <? Constants.BOOTSTRAP_MIN_INTERVAL) with false by (symmetry; apply Z.ltb_ge; lia).
  simpl. by simplify_map_eq.
Qed.

Lemma home_filled_bootstrapping now c : k_bootstrapping (home_filled random now c) = false.
Proof.
  unfold home_filled. destruct (negb _); [done|]. destruct (_ <? _); [|done].
  destruct (RoutingTable.fillBuckets _ _ _) as [rt targets].
  match goal with |- k_bootstrapping (add_tasks ?l ?d) = _ => generalize l; assert (k_bootstrapping d = false) as H by done; revert H; generalize d end.
  clear. intros d H l. revert d H. induction l as [|[] l IH]; intros d H; [done|]. by apply IH.
Qed.

Lemma task_ended_listener now id e l c :
  k_tasks c !! id = Some l ->
  task_ended random now id e c = run_listener random now id l e (set_tasks (delete id (k_tasks c)) (k_next c) c).
Proof. intros E. unfold task_ended. by rewrite E. Qed.

(** ** Theorems *)

(** C14: In every state that a DHT can reach, each handler that the user gave to an
    operation waits with exactly one task, has been called, or belongs to an
    announcement whose lookup was cancelled: handlers that are different are called
    at most once each, and when no task is left each has been called or dropped. *)
Theorem handlers_once `{Sodium} c :
  reachable random c ->
  waiting c ++ (k_completed c).*1 ++ k_dropped c ≡ₚ k_issued c /\
  (NoDup (k_issued c) -> NoDup (k_completed c).*1 /\ (forall h, h ∈ k_dropped c -> h ∉ (k_completed c).*1)) /\
  (k_tasks c = ∅ -> forall h, h ∈ k_issued c -> h ∈ (k_completed c).*1 \/ h ∈ k_dropped c).
Proof.
  intros R%reachable_accounted. pose proof (acc_handlers _ _ _ R) as P. simpl in P. split_and!; [done| |].
  - rewrite <- P. intros (_ & _ & (N & D & _)%NoDup_app)%NoDup_app. split; [done|]. intros h H1 H2. by eapply D.
  - intros E h. rewrite <- P. unfold waiting. rewrite E. unfold collect. rewrite map_to_list_empty. set_solver.
Qed.

(** A DHT is bootstrapping exactly while one round of calls is open or one lookup
    of the home bucket runs: rounds never overlap, and the flag is not left set. *)
Theorem bootstrap_exclusive `{Sodium} c :
  reachable random c -> (open_rounds c + homes c = if k_bootstrapping c then 1 else 0)%nat.
Proof. intros R%reachable_accounted. apply (acc_bootstrap _ _ _ R). Qed.


(** [storeValue] looks up the id of the value; when the lookup has finished with
    nodes it starts an announcement to these nodes, nested in the lookup, and the end
    of that calls the handler with them.  A lookup that finished with no node calls
    the handler with the empty list, one that was cancelled never calls it. *)
Theorem store_chain `{Sodium} c v h now e :
  let id := k_next c in
  let c1 := storeValue v h c in
  k_effects c1 = k_effects c ++ [E_task id (T_nodeLookup (Value.getId v) true)] /\ k_completed c1 = k_completed c /\
  exists c2, task_ended random now id e c1 = Some c2 /\
  match e_state e, e_closest e with
  | FINISHED, [] => k_effects c2 = k_effects c1 /\ k_completed c2 = (h, R_nodes []) :: k_completed c
  | FINISHED, nodes =>
      k_effects c2 = k_effects c1 ++ [E_nested id (id + 1); E_task (id + 1) (T_valueAnnounce nodes v)] /\ k_completed c2 = k_completed c /\
      forall now' e', exists c3, task_ended random now' (id + 1) e' c2 = Some c3 /\
        k_completed c3 = (h, R_nodes (cn_info <$> nodes)) :: k_completed c
  | _, _ => k_effects c2 = k_effects c1 /\ k_completed c2 = k_completed c /\ k_dropped c2 = h :: k_dropped c
  end.
Proof.
  intros id c1. split; [done|]. split; [done|].
  assert (k_tasks c1 !! id = Some (L_storeValue v h)) as E by (unfold c1, id; simpl; by simplify_map_eq).
  eexists. split; [rewrite (task_ended_listener now id e _ _ E); reflexivity|].
  destruct (e_state e); simpl; try done. destruct (e_closest e) as [|x nodes]; [done|]. split.
  { simpl. by rewrite <- app_assoc. }
  split; [done|]. intros now' e'. eexists.
  split; [by rewrite (task_ended_listener _ _ _ (L_announced (x :: nodes) h)) by (simpl; by simplify_map_eq)|done].
Qed.

End invariant.

End DhtOperations.

(** ** Witnesses *)

Section examples.
#[local] Existing Instance toy_sodium.

Definition random0 (i : nat) : Id := MAX_ID.
Definition boot1 : NodeInfo := MkNodeInfo MAX_ID (SA_in 39001 [8; 8; 4; 4]) 0.
Definition self1 : NodeInfo := MkNodeInfo zero (SA_in 39001 [9; 9; 9; 9]) 0.
Definition new1 : Control := DhtOperations.DHT_new DHT_IPV4 self1 false.

(** A DHT that looks up a node and a peer, of which the second has ended. *)
Definition looking : Control :=
  default new1 (DhtOperations.run random0 [DhtOperations.ev_findNode MAX_ID 7; DhtOperations.ev_findPeer MAX_ID 1 CONSERVATIVE 8;
    DhtOperations.ev_task_ended 5 1 (MkEnded FINISHED [] None [])] new1).

Lemma handlers_once_witness :
  k_issued looking = [8; 7] /\ (k_completed looking).*1 = [8] /\ DhtOperations.waiting looking ++ (k_completed looking).*1 ++ [] ≡ₚ k_issued looking.
Proof.
  assert (DhtOperations.reachable random0 looking) as R by (apply DhtOperations.reachable_run; constructor).
  assert (k_dropped looking = []) as E by (vm_compute; reflexivity).
  split; [vm_compute; reflexivity|]. split; [vm_compute; reflexivity|]. rewrite <- E.
  exact (proj1 (DhtOperations.handlers_once random0 looking R)).
Defined.

(** A DHT that was started with a bootstrap node. *)
Definition started1 : Control := default new1 (DhtOperations.run random0 [DhtOperations.ev_start 2000000 [boot1] []] new1).

Lemma bootstrap_exclusive_witness :
  k_bootstrapping started1 = true /\ (DhtOperations.open_rounds started1 + DhtOperations.homes started1 = 1)%nat.
Proof.
  assert (DhtOperations.reachable random0 started1) as R by (apply DhtOperations.reachable_run; constructor).
  split; [reflexivity|]. exact (DhtOperations.bootstrap_exclusive random0 started1 R).
Defined.

End examples.
